(* ===== verification/_CoqProject ===== *)
-Q . S2P
Prelude.v
Errors.v
Parse.v
Value.v
Function.v
Exception.v
Diagnostics.v
Wire.v
Mei.v
FileRecord.v
Pdu.v
Display.v
PduSpec.v
PduRoundtrip.v
PduSafety.v
PduTheorems.v
Framing.v
Rtu.v
RtuStream.v
Tcp.v
Ascii.v
Tests.v
PduTests.v
FrameTests.v
Adu.v
Serial.v
Transport.v
TransportSpec.v
TransportSafety.v
TransportTheorems.v
Timed.v
Outgoing.v
Framed.v
FramedTheorems.v
TcpConn.v
SerialPort.v
Client.v
ClientTheorems.v
ClientOver.v
Deadline.v
Sync.v
Server.v
ServerTheorems.v
StackTests.v
TransportTests.v
SocketTests.v
ClientTests.v
Tls.v
Link.v
ServerTests.v
Typed.v
Device.v
OverTheWire.v
Growing.v
Interop.v
Console.v
ServerLife.v
Concurrent.v
ConcurrentTheorems.v
Suspending.v
UdpServer.v
ServeTests.v
TlsServer.v
TlsRunning.v
Network.v
Cancelled.v
Linearizable.v
SharedDevice.v
UdpNetwork.v
Pipeline.v
PipelineTheorems.v
PipelineTask.v
PipelineTests.v
Conformance.v
