(* ===== verification/Prelude.v ===== *)
(** * rust-modbus: a verification development

    The program is a Modbus crate.  A PDU (a request or a response) is encoded
    and decoded by the frame layer; a framing (RTU, ASCII, TCP, or RTU over a
    byte stream) wraps it in an ADU; a transport finds the ADUs in a byte
    stream, or takes one per datagram; a client sends requests and awaits their
    responses, alone or pipelined; a server receives requests, asks a service,
    and answers.  Each part below is modelled from the source under [src/].

    ** Files, in dependency order

    - [Prelude]: machine integers as ranged [Z], slices and byte arrays, shared
      lemmas, tactics and hint databases.
    - [Errors]: [src/error.rs] and the code enumerations of the frame layer;
      [Result] with a third value [Panic] for what would abort, and the writer
      monad [W] for code that appends to a [Vec<u8>].
    - [Parse]: [src/parse.rs] over an abstract [winnow] (class [Winnow]), whose
      documented behaviour is the class [WinnowSpec]; [winnow_model] shows that
      it can hold.
    - [Value], [Function], [Exception], [Diagnostics], [Wire], [Mei],
      [FileRecord], [Pdu]: the frame layer, [src/frame/value.rs],
      [function.rs], [exception.rs], [diagnostics.rs], [mei.rs], [file.rs],
      [pdu.rs].  [Display]: the texts of domain values and of errors, and [From]
      of the domain values in both directions.
    - [PduSpec]: the wire layout of every PDU as a function to bytes, and that
      the encoders refine it.  [PduRoundtrip]: decoding and encoding are
      inverse.  [PduSafety]: decoding never panics.  [PduTheorems]: the claims.
    - [Framing]: [src/frame/framing.rs]; the trait is the record [Framing], and
      what a framing promises its clients is the class [LawfulFraming], which
      [Rtu], [RtuStream], [Tcp] and [Ascii] ([src/frame/rtu.rs], [tcp.rs],
      [ascii.rs]) discharge.  [Adu]: what follows for every framing.  The CRC
      crate is the class [Crc16] with [Crc16Spec].
    - [Transport]: the receiving half of [src/transport/mod.rs].  A receive runs
      over the trace of what the stream and the clock do; the loops are
      structural on the trace, so they need no fuel, and a receive that the
      trace does not finish is [Pending].  [TransportSpec]: when a boundary rule
      locates a frame the frame is received exactly.  [TransportSafety]: no
      receive panics or buffers without bound.  [TransportTheorems]: the claims.
      [Timed]: the same receives on a line whose bytes arrive at instants, with a
      clock whose timers fire late by at most a grain ([Clock]); it refines
      [Transport], the silences of whose traces become durations.
    - [Serial]: [src/transport/serial.rs], [rs485.rs] and [TransportConfig].
      [SerialPort]: opening a port, [src/transport/rtu.rs], over what the
      operating system answers ([SerialHost]).
    - [Outgoing]: the sending half of [src/transport/mod.rs], and the datagrams
      of [src/transport/udp.rs].
    - [Framed]: the transports as values, [FrameTransport], [UdpTransport], their
      split halves, [AduReader], and the trait [ClientTransport] as a class.  A
      stream is the arrivals its reads will meet, the outcomes of its writes and
      the bytes it accepted; a future that its stream does not let finish is
      [Unfinished].  [FramedTheorems]: splitting is transparent, and a receive
      consumes what it returns ([DrainingTransport]).
    - [TcpConn]: [src/transport/tcp.rs], over the outcomes of the socket calls.
    - [Client]: [src/client/framing.rs] and [mod.rs].  One exchange of the
      transport is a [World]: the outcome of the write, the results of the
      receives that complete before the deadline, the requests written.
      [ClientTheorems]: the claims.  [ClientOver]: the same call over any
      [ClientTransport], down to its bytes; there the deadline is a receive that
      does not finish.  [Deadline]: the call on a clock, its deadline an instant and
      each receive with the instant it completes at ([TimedTransport]).
    - [Sync]: the blocking client, [src/client/sync.rs]; [Op] names its methods.
    - [Server]: [src/server/framing.rs], [service.rs] and the serving functions
      of [mod.rs], over a service with its own state; its loop runs over turns.
      [ServerTheorems]: the claims.  [Link]: [exchange], [serve_connection] and
      [serve_link] over a transport; it refines the loop over turns.
    - [Tls]: [src/transport/tls.rs] over an abstract [rustls] (class [Rustls])
      whose documented behaviour is the class [RustlsSpec]; [Module Toy] shows
      that it can hold.
    - [Typed]: well-formedness of every value that crosses an interface, as
      classes ([TypedFraming], [TypedTransport]) the client and the serving loop
      are proved against.
    - [OverTheWire]: client and server, each over its own transport, whose
      arrivals are the bytes of the other, over every framing that delimits its
      own frames ([SelfDelimiting]: TCP, RTU over a stream, ASCII).
    - [Device], [Interop], [Console]: [examples/interop_server.rs], a service over
      four tables, with four arrays as its specification; the programs
      [examples/tcp_client.rs] and [rtu_client.rs], their calls, arguments and
      output.
    - [ServerLife], [TlsServer]: the interleavings of [serve_framed] and
      [serve_tls] with their tasks and [src/server/handle.rs], as step relations.
      [Concurrent]: [serve_framed] with its tasks run to the byte, each from await
      to await over its own transport, in any order; it refines [ServerLife] and,
      connection by connection, [Link].  [ConcurrentTheorems]: the claims.
      [Suspending]: the same server with [on_request] a future that is polled, the
      requests of several connections inside it at once ([AsyncService]).
      [TlsRunning]: [serve_tls] in the same way, each task running its handshake
      first.  [UdpServer]: [serve_udp], its receiving loop and the task of every
      datagram.
    - [Growing]: receives over a stream that grows, or breaks, between polls.
      [Network]: any number of clients, each over its own connection to one server
      of [Concurrent]; [Client::call] runs from await to await, the network
      delivers the bytes of each direction in pieces, late or never.
      [Linearizable]: the specification of such a network ([Session]) and that
      every run meets it.  [SharedDevice]: the same with the example device.
      [UdpNetwork]: clients over [UdpTransport] and the server of [UdpServer], on a
      network that loses, repeats and reorders datagrams.  [Cancelled]: calls whose
      future is dropped.
    - [Pipeline]: [src/client/pipeline.rs], one function per arm of the
      background task.  [PipelineTheorems]: invariants of every run.
      [PipelineTask]: the task over the halves of its transport, with the receive
      future it keeps from pass to pass; it refines [Pipeline].
    - [Tests], [PduTests], [FrameTests], [StackTests], [TransportTests],
      [SocketTests], [ClientTests], [ServerTests], [ServeTests], [PipelineTests]:
      the unit tests of the source files, under their own names, as programs over
      the model; a test passes when it returns [Ok tt].  [Conformance]: all of
      them pass (lemma [unit_tests_pass]).

    ** What the theorems show

    - The codec: bytes decode to a PDU exactly when the PDU is well formed,
      canonical and encodes to those bytes; the encoders refine the layouts, all
      or nothing; no input makes the decoders panic.
    - The framings: ADU round trips, re-encoding, totality; one corrupted byte of
      an RTU ADU, or one corrupted character of an ASCII ADU, is always rejected;
      the length derivation of RTU over a stream is exact and bounded.
    - The transport: frames are received in order and exactly, however the
      stream is cut; an ASCII frame survives noise before it; an RTU frame ends
      at silence; failures leave a usable or a latched state as documented; the
      two halves of a split transport do what the whole did.  In time: RTU frames
      that follow one another after the interval and the grain of the timer are
      received one by one, whenever their bytes come within the interval.
    - Types: whatever bytes arrive, calls and serving end without a panic, with
      every field within its width and every buffer within its bound.
    - The client: when a call is answered and when it makes the client unusable;
      transaction identifiers; a call ends by its deadline, which nothing that
      arrives puts off.  The pipelined client: calls are kept apart for the first
      65534 of a handle, a desynchronized handle is silent for good, and the task
      over its transport, a stream or a socket, does what the arms do with the
      writes that transport made and the responses it received.
    - The server: it asks the service exactly the requests that are its own, once
      each, in order, and writes exactly the answers that were given, in order,
      under the headers of the requests; a connection is announced and ended exactly once, and its
      loop ends, at the latest when the stream does.  Connections that run at once,
      over TCP or TLS, and datagrams that are served at once meet only in the service,
      also when their requests overlap inside it, and each is served as if it were
      alone with the answers it was given; a datagram is answered to where it came
      from; a hook that waits and then acts at once is as one that acts when it
      completes; shutdown is graceful and final, and drains once
      the responses that are owed can be written.
    - TLS: every hook that is called for a connection is called with a certificate
      its policy admitted, in the handshake of that connection or, if it resumed a
      session, in the one that established the session; a failed handshake is reported once, with the certificate
      that was rejected, if one was; and the outcome of connecting.
    - Client and server together: a session of any number of calls runs byte for
      byte over TCP, RTU over a stream and ASCII; the example client, as a program,
      reads and prints what the example device holds, and reads back what it wrote.
    - Clients together: any number of clients of one server, over connections that
      delay, cut and break, are linearizable ([clients_linearizable]): each call
      that returns a response returns what the service made of exactly that request,
      asked once and within the call, for requests that encode and answers of their
      function.  The
      clients of the example server share four arrays of sixteen cells.  Over
      datagrams that are lost, repeated and reordered, a call that returns a response
      returns the service's answer to its own request ([udp_calls_sound]).
    - Where the code departs from its documentation, a theorem says so: the
      largest RTU frame is refused, two RTU frames too close for the timer merge,
      a noise burst with a colon in it ends an ASCII server, the pipelined client overwrites a request
      in flight after 65535 others, its limit does not bound its table, the join set
      of a server only grows, a stalled TLS handshake keeps shutdown from completing,
      and a call that is dropped while it writes leaves a usable client whose next
      request is misread.

    ** Bounds

    [run_all_loop] takes the length of its input as fuel, and each pass consumes
    a byte ([Parse]).  [call_over] and [exchange_over] take fuel; one pass more
    than the transport has unread is enough, because a pass that goes on has
    taken a byte or a datagram, and more fuel changes nothing
    ([call_over_terminates], [exchange_over_terminates]); [call_timed] likewise
    takes one receive more than its transport has unread ([call_meets_deadline]).
    Every other loop is structural.  A timer fires at its instant or later, by at most
    the granularity of the clock ([ClockSpec]).  A vector is assumed to be no longer than
    [isize::MAX] bytes,
    which is what Rust guarantees.  The connection identifiers are claimed
    distinct below 2^64 - 1 connections, and the pipelined calls and the calls of
    a client over datagrams apart below 65535 calls, since the counters wrap.

    ** What is not modelled

    Serialization with [serde] (derived), the re-exports of [src/lib.rs] and
    [src/frame/mod.rs], the capacity of a buffer (a matter of allocation, not of
    values), [main] of the example server, and the parsing and printing of socket
    addresses.  Of the unit tests, those of serde, of what compiles, of capacity,
    and of TLS handshakes with certificates are left out.  A hook takes effect in
    one step, when it completes, but for [on_request] in [Suspending]; a hook that is
    dropped while it waits leaves the service as it was before the hook.  In
    [Deadline] and [Timed] what the code computes between two awaits takes no time.
    Which sessions a TLS server resumes is up to rustls ([RustlsSpec] says with what
    certificate).  In [Network] a
    write is accepted whole, fails part way or waits, and the future of a call is
    not dropped ([Cancelled] says what dropping it does); in [UdpNetwork] nobody
    forges the address of a client.  The lines the example device prints use derived
    [Debug] texts, which are not modelled. *)

From stdpp Require Export prelude strings.
From Stdlib Require Export ZArith Lia.

Global Open Scope Z_scope.

(** ** Machine integers

    A [w]-bit unsigned integer of the program is a [Z] in range; the range is
    a predicate carried by the well-formedness invariants. *)

Definition U8_MAX : Z := 255.
Definition U16_MAX : Z := 65535.
Definition U32_MAX : Z := 4294967295.
Definition U64_MAX : Z := 18446744073709551615.
(** [usize] on the 64-bit targets the crate is built for. *)
Definition USIZE_MAX : Z := 18446744073709551615.

Definition ISIZE_MAX : Z := 9223372036854775807.

Definition is_u8 (z : Z) : Prop := 0 ≤ z ≤ 255.
Definition is_u16 (z : Z) : Prop := 0 ≤ z ≤ 65535.

(** A byte sequence: every element fits one byte. *)
Definition bytes_ok (l : list Z) : Prop := Forall is_u8 l.

#[export] Instance is_u8_dec z : Decision (is_u8 z).
Proof. unfold is_u8. apply _. Defined.
#[export] Instance is_u16_dec z : Decision (is_u16 z).
Proof. unfold is_u16. apply _. Defined.
#[export] Instance bytes_ok_dec l : Decision (bytes_ok l).
Proof. unfold bytes_ok. apply _. Defined.

(** [usize] length of a slice or vector. *)
Definition len {A} (l : list A) : Z := Z.of_nat (length l).

(** What every [Vec<u8>] satisfies: an allocation holds at most [isize::MAX]
    bytes. *)
Definition vec_ok (l : list Z) : Prop := len l ≤ ISIZE_MAX.

(** The saturating operations of the standard library on [usize]. *)
Definition saturating_add (a b : Z) : Z := Z.min (a + b) USIZE_MAX.
Definition saturating_mul (a b : Z) : Z := Z.min (a * b) USIZE_MAX.
Definition saturating_sub (a b : Z) : Z := Z.max (a - b) 0.

(** [uN::try_from] on an unsigned value. *)
Definition try_from_max (max z : Z) : option Z := if z <=? max then Some z else None.
Definition u8_try_from : Z → option Z := try_from_max U8_MAX.
Definition u16_try_from : Z → option Z := try_from_max U16_MAX.
Definition u32_try_from : Z → option Z := try_from_max U32_MAX.

(** [Option::unwrap_or]. *)
Definition unwrap_or {A} (d : A) (o : option A) : A := default d o.

(** [uN::div_ceil]. *)
Definition div_ceil (a b : Z) : Z := (a + b - 1) / b.

(** [u16::to_be_bytes], [u16::to_le_bytes] and their inverses. *)
Definition u16_to_be (x : Z) : list Z := [x / 256; x mod 256].
Definition u16_to_le (x : Z) : list Z := [x mod 256; x / 256].
Definition u16_from_be (hi lo : Z) : Z := hi * 256 + lo.
Definition u16_from_le (lo hi : Z) : Z := hi * 256 + lo.

(** ** Slices

    [get(a..b)] of a slice: [None] out of range. *)

Definition slice_get {A} (a b : Z) (l : list A) : option (list A) :=
  if (0 <=? a) && (a <=? b) && (b <=? len l)
  then Some (take (Z.to_nat (b - a)) (drop (Z.to_nat a) l)) else None.

(** [get(i)] of a slice. *)
Definition byte_get (l : list Z) (i : Z) : option Z :=
  if i <? 0 then None else l !! Z.to_nat i.

(** [split_at_checked], [split_first] and [split_last] of a slice. *)
Definition split_at_checked {A} (n : Z) (l : list A) : option (list A * list A) :=
  if n <=? len l then Some (take (Z.to_nat n) l, drop (Z.to_nat n) l) else None.
Definition split_first {A} (l : list A) : option (A * list A) :=
  match l with x :: l' => Some (x, l') | [] => None end.
Fixpoint split_last {A} (l : list A) : option (A * list A) :=
  match l with
  | [] => None
  | [x] => Some (x, [])
  | x :: l' => (λ '(y, k), (y, x :: k)) <$> split_last l'
  end.

(** [chunks(k)]: pieces of [k] elements, the last one possibly shorter. *)
Fixpoint chunks_fuel {A} (fuel : nat) (k : nat) (l : list A) : list (list A) :=
  match fuel, l with
  | O, _ => []
  | S _, [] => []
  | S fuel', _ => take k l :: chunks_fuel fuel' k (drop k l)
  end.

Definition chunks {A} (k : nat) (l : list A) : list (list A) :=
  chunks_fuel (length l) k l.

(** [as_chunks::<2>().0]: the whole pairs of a slice, the odd byte dropped. *)
Fixpoint as_chunks2 {A} (l : list A) : list (A * A) :=
  match l with
  | a :: b :: rest => (a, b) :: as_chunks2 rest
  | _ => []
  end.

(** The bytes [0..n). *)
Definition zrange (n : nat) : list Z := Z.of_nat <$> seq 0 n.

(** ** Lemmas on lengths *)

Create Rewrite HintDb len.

Lemma len_nil {A} : len (@nil A) = 0.
Proof. done. Qed.

Lemma len_cons {A} (x : A) l : len (x :: l) = 1 + len l.
Proof. unfold len. simpl. lia. Qed.

Lemma len_app {A} (l k : list A) : len (l ++ k) = len l + len k.
Proof. unfold len. rewrite length_app. lia. Qed.

Lemma len_nonneg {A} (l : list A) : 0 ≤ len l.
Proof. unfold len. lia. Qed.

Lemma len_fmap {A B} (f : A → B) l : len (f <$> l) = len l.
Proof. unfold len. by rewrite length_fmap. Qed.

Lemma len_replicate {A} n (x : A) : len (replicate n x) = Z.of_nat n.
Proof. unfold len. by rewrite length_replicate. Qed.

Lemma len_u16_to_be x : len (u16_to_be x) = 2.
Proof. done. Qed.

Lemma len_u16_to_le x : len (u16_to_le x) = 2.
Proof. done. Qed.

Lemma len_take {A} n (l : list A) : len (take n l) = Z.min (Z.of_nat n) (len l).
Proof. unfold len. rewrite length_take. lia. Qed.

Lemma len_drop {A} n (l : list A) : len (drop n l) = Z.max 0 (len l - Z.of_nat n).
Proof. unfold len. rewrite length_drop. lia. Qed.

#[export] Hint Rewrite @len_nil @len_cons @len_app @len_fmap @len_replicate
  @len_take @len_drop len_u16_to_be len_u16_to_le : len.

(** [len_lia]: normalise lengths, add their non-negativity, then [lia]. *)
Ltac len_facts :=
  repeat match goal with
  | |- context [@len ?A ?l] =>
      lazymatch goal with H : 0 ≤ len l |- _ => fail | _ => idtac end;
      pose proof (@len_nonneg A l)
  | H : context [@len ?A ?l] |- _ =>
      lazymatch goal with H : 0 ≤ len l |- _ => fail | _ => idtac end;
      pose proof (@len_nonneg A l)
  end.
Ltac len_lia := autorewrite with len in *; len_facts; lia.

Lemma len_0_nil {A} (l : list A) : len l = 0 → l = [].
Proof. destruct l; [done|]. intros ?. len_lia. Qed.

Lemma len_inj_app {A} (l1 l2 k1 k2 : list A) :
  len l1 = len l2 → l1 ++ k1 = l2 ++ k2 → l1 = l2 ∧ k1 = k2.
Proof. unfold len. intros Hl. apply app_inj_1. lia. Qed.

(** ** Lemmas on saturating arithmetic *)

Lemma saturating_sub_add a b : 0 ≤ b → saturating_sub (a + b) a = b.
Proof. unfold saturating_sub. lia. Qed.

Lemma saturating_add_small a b : a + b ≤ USIZE_MAX → saturating_add a b = a + b.
Proof. unfold saturating_add. lia. Qed.

Lemma saturating_mul_small a b : a * b ≤ USIZE_MAX → saturating_mul a b = a * b.
Proof. unfold saturating_mul. lia. Qed.

Lemma try_from_max_some m z v : try_from_max m z = Some v → v = z ∧ z ≤ m.
Proof. unfold try_from_max. destruct (Z.leb_spec z m); naive_solver. Qed.

Lemma try_from_max_ok m z : z ≤ m → try_from_max m z = Some z.
Proof. unfold try_from_max. destruct (Z.leb_spec z m); [done|lia]. Qed.

Lemma try_from_max_none m z : m < z → try_from_max m z = None.
Proof. unfold try_from_max. destruct (Z.leb_spec z m); [lia|done]. Qed.

(** ** Lemmas on 16-bit words *)

Lemma u16_from_to_be x : u16_from_be (x / 256) (x mod 256) = x.
Proof. unfold u16_from_be. pose proof (Z.div_mod x 256). lia. Qed.

Lemma u16_be_cons x l : u16_to_be x ++ l = x / 256 :: x mod 256 :: l.
Proof. done. Qed.

Lemma u16_to_from_be hi lo : is_u8 lo → u16_to_be (u16_from_be hi lo) = [hi; lo].
Proof.
  unfold is_u8, u16_to_be, u16_from_be. intros Hlo.
  f_equal; [|f_equal].
  - rewrite Z.add_comm, Z.div_add by lia. rewrite Z.div_small by lia. lia.
  - rewrite Z.add_comm, Z.mod_add by lia. apply Z.mod_small. lia.
Qed.

Lemma u16_from_be_range hi lo : is_u8 hi → is_u8 lo → is_u16 (u16_from_be hi lo).
Proof. unfold is_u8, is_u16, u16_from_be. lia. Qed.

Lemma u16_hi_range x : is_u16 x → is_u8 (x / 256).
Proof.
  unfold is_u8, is_u16. intros. split; [apply Z.div_pos; lia|].
  assert (x / 256 < 256); [apply Z.div_lt_upper_bound; lia|lia].
Qed.

Lemma u16_lo_range x : is_u8 (x mod 256).
Proof. unfold is_u8. pose proof (Z.mod_pos_bound x 256). lia. Qed.

Lemma u16_to_be_ok x : is_u16 x → bytes_ok (u16_to_be x).
Proof. intros. repeat constructor; try apply u16_lo_range; by apply u16_hi_range. Qed.

Lemma u16_to_be_inj x y : u16_to_be x = u16_to_be y → x = y.
Proof.
  unfold u16_to_be. intros [=]. rewrite <- (u16_from_to_be x), <- (u16_from_to_be y).
  congruence.
Qed.

(** ** Lemmas on byte sequences *)

Create HintDb bytes discriminated.

Lemma bytes_ok_nil : bytes_ok [].
Proof. constructor. Qed.

Lemma bytes_ok_cons b l : is_u8 b → bytes_ok l → bytes_ok (b :: l).
Proof. by constructor. Qed.

Lemma bytes_ok_app l k : bytes_ok l → bytes_ok k → bytes_ok (l ++ k).
Proof. intros. by apply Forall_app. Qed.

Lemma bytes_ok_app_inv l k : bytes_ok (l ++ k) → bytes_ok l ∧ bytes_ok k.
Proof. by intros ?%Forall_app. Qed.

Lemma bytes_ok_cons_inv b l : bytes_ok (b :: l) → is_u8 b ∧ bytes_ok l.
Proof. by intros ?%Forall_cons. Qed.

Lemma bytes_ok_take n l : bytes_ok l → bytes_ok (take n l).
Proof. apply Forall_take. Qed.

Lemma bytes_ok_drop n l : bytes_ok l → bytes_ok (drop n l).
Proof. apply Forall_drop. Qed.

Lemma is_u8_lit b : (0 <=? b) && (b <=? 255) = true → is_u8 b.
Proof. unfold is_u8. lia. Qed.

#[export] Hint Resolve bytes_ok_nil bytes_ok_cons bytes_ok_app bytes_ok_take
  bytes_ok_drop u16_to_be_ok u16_lo_range u16_hi_range u16_from_be_range : bytes.
#[export] Hint Extern 3 (is_u8 _) => (apply is_u8_lit; reflexivity) : bytes.

(** Checking a decidable fact on every byte by evaluation. *)
Lemma byte_forall (f : Z → bool) :
  forallb f (zrange 256) = true → ∀ b, is_u8 b → f b = true.
Proof.
  intros Hall b Hb. rewrite forallb_forall in Hall. apply Hall.
  unfold zrange. apply list_elem_of_In, list_elem_of_fmap.
  exists (Z.to_nat b). unfold is_u8 in Hb. split; [lia|].
  apply elem_of_seq. lia.
Qed.

Lemma byte_forall_dec (Q : Z → Prop) `{∀ b, Decision (Q b)} :
  forallb (λ b, bool_decide (Q b)) (zrange 256) = true → ∀ b, is_u8 b → Q b.
Proof.
  intros Hall b Hb. pose proof (byte_forall _ Hall b Hb) as Hq. cbv beta in Hq.
  by apply bool_decide_eq_true in Hq.
Qed.

(** ** Lemmas on slices *)

Lemma slice_get_take {A} n (l : list A) :
  0 ≤ n ≤ len l → slice_get 0 n l = Some (take (Z.to_nat n) l).
Proof.
  intros Hn. unfold slice_get.
  replace (_ && _ && _) with true by (symmetry; rewrite !andb_true_iff, !Z.leb_le; lia).
  rewrite drop_0, Z.sub_0_r. done.
Qed.

Lemma slice_get_app {A} (l k : list A) : slice_get (len l) (len (l ++ k)) (l ++ k) = Some k.
Proof.
  unfold slice_get. pose proof (len_nonneg l).
  replace (_ && _ && _) with true
    by (symmetry; rewrite !andb_true_iff, !Z.leb_le; len_lia).
  f_equal. rewrite len_app. unfold len.
  rewrite Nat2Z.id, drop_app_length.
  apply take_ge. lia.
Qed.

Lemma split_at_checked_app {A} (l k : list A) :
  split_at_checked (len l) (l ++ k) = Some (l, k).
Proof.
  unfold split_at_checked. destruct (Z.leb_spec (len l) (len (l ++ k))); [|len_lia].
  unfold len. by rewrite Nat2Z.id, take_app_length, drop_app_length.
Qed.

Lemma split_at_checked_some {A} n (l : list A) :
  0 ≤ n ≤ len l → ∃ l1 l2, split_at_checked n l = Some (l1, l2) ∧ l = l1 ++ l2 ∧ len l1 = n.
Proof.
  intros Hn. unfold split_at_checked. destruct (Z.leb_spec n (len l)); [|lia].
  do 2 eexists. split; [done|]. rewrite take_drop, len_take. split; [done|lia].
Qed.

Lemma split_last_app {A} (l : list A) x : split_last (l ++ [x]) = Some (x, l).
Proof.
  induction l as [|y l IH]; [done|]. cbn [app split_last].
  destruct (l ++ [x]) as [|z k] eqn:E; [by destruct l|]. rewrite IH. done.
Qed.

Lemma split_last_some {A} (l : list A) x k : split_last l = Some (x, k) → l = k ++ [x].
Proof.
  destruct l as [|y l _] using rev_ind; [done|]. rewrite split_last_app. by intros [= -> ->].
Qed.

(** Checking a decidable fact on every number below a bound by evaluation. *)
Fixpoint forall_upto (f : Z → bool) (n : nat) (z : Z) : bool :=
  match n with O => true | S n' => f z && forall_upto f n' (z + 1) end.

Lemma forall_upto_spec f n z :
  forall_upto f n z = true → ∀ x, z ≤ x < z + Z.of_nat n → f x = true.
Proof.
  revert z. induction n as [|n IH]; intros z H x Hx; [lia|].
  cbn [forall_upto] in H. apply andb_prop in H as [Hz H].
  destruct (decide (x = z)) as [->|]; [done|]. apply (IH (z + 1)); [done|lia].
Qed.

Lemma byte_get_lookup l i : 0 ≤ i → byte_get l i = l !! Z.to_nat i.
Proof. intros. unfold byte_get. by destruct (Z.ltb_spec i 0); [lia|]. Qed.

Lemma byte_get_some l i : 0 ≤ i < len l → is_Some (byte_get l i).
Proof.
  intros. rewrite byte_get_lookup by lia. apply lookup_lt_is_Some. unfold len in *. lia.
Qed.

Lemma byte_get_range l i b : bytes_ok l → byte_get l i = Some b → is_u8 b.
Proof.
  intros Hl. unfold byte_get. case_match; [done|]. intros Hi.
  exact (Forall_lookup_1 _ _ _ _ Hl Hi).
Qed.

Lemma chunks_fuel_ge {A} k (l : list A) n1 n2 :
  (0 < k)%nat → (length l ≤ n1)%nat → (length l ≤ n2)%nat →
  chunks_fuel n1 k l = chunks_fuel n2 k l.
Proof.
  intros Hk. revert l n2. induction n1 as [|n1 IH]; intros l n2 H1 H2.
  - destruct l; [|simpl in H1; lia]. by destruct n2.
  - destruct l as [|x l]; [by destruct n2|].
    destruct n2 as [|n2]; [simpl in H2; lia|].
    cbn [chunks_fuel]. f_equal. apply IH; rewrite length_drop; simpl in *; lia.
Qed.

Lemma chunks_nil {A} k : @chunks A k [] = [].
Proof. done. Qed.

Lemma chunks_cons {A} k (l : list A) :
  (0 < k)%nat → l ≠ [] → chunks k l = take k l :: chunks k (drop k l).
Proof.
  intros Hk Hl. destruct l as [|x l]; [done|]. unfold chunks.
  cbn [length chunks_fuel]. f_equal. apply chunks_fuel_ge; [done| |done].
  rewrite length_drop. simpl. lia.
Qed.

(** ** Tactics

    [split_guards] turns boolean comparisons into linear facts. *)

Ltac split_guards :=
  repeat match goal with
  | H : (_ && _)%bool = true |- _ => apply andb_prop in H as [? ?]
  | H : (_ && _)%bool = false |- _ => apply andb_false_iff in H
  | H : (_ || _)%bool = true |- _ => apply orb_true_iff in H
  | H : (_ || _)%bool = false |- _ => apply orb_false_iff in H as [? ?]
  | H : negb _ = true |- _ => apply negb_true_iff in H
  | H : negb _ = false |- _ => apply negb_false_iff in H
  | H : (_ <? _)%Z = true |- _ => apply Z.ltb_lt in H
  | H : (_ <? _)%Z = false |- _ => apply Z.ltb_ge in H
  | H : (_ <=? _)%Z = true |- _ => apply Z.leb_le in H
  | H : (_ <=? _)%Z = false |- _ => apply Z.leb_gt in H
  | H : (_ =? _)%Z = true |- _ => apply Z.eqb_eq in H
  | H : (_ =? _)%Z = false |- _ => apply Z.eqb_neq in H
  end.
