(* ===== verification/Errors.v ===== *)
(** * The crate's error type ([src/error.rs])

    The error enum, the [Result] every fallible path returns, the two writers
    and readers monads' common error plumbing, and the classification of
    listener failures.  [Panic] is not a value of the program: it marks an
    [expect] that fails or an integer operation that leaves its type, so that
    the absence of panics is a theorem instead of an artefact of totality. *)

From S2P Require Import Prelude.

(** A Modbus function code ([src/frame/function.rs]). *)
Inductive FunctionCode :=
  | FC_ReadCoils
  | FC_ReadDiscreteInputs
  | FC_ReadHoldingRegisters
  | FC_ReadInputRegisters
  | FC_WriteSingleCoil
  | FC_WriteSingleRegister
  | FC_ReadExceptionStatus
  | FC_Diagnostics
  | FC_GetCommEventCounter
  | FC_GetCommEventLog
  | FC_WriteMultipleCoils
  | FC_WriteMultipleRegisters
  | FC_ReportServerId
  | FC_ReadFileRecord
  | FC_WriteFileRecord
  | FC_MaskWriteRegister
  | FC_ReadWriteMultipleRegisters
  | FC_ReadFifoQueue
  | FC_EncapsulatedInterfaceTransport
  | FC_Custom (byte : Z).

#[export] Instance FunctionCode_eq_dec : EqDecision FunctionCode.
Proof. solve_decision. Defined.

(** A Modbus exception code ([src/frame/exception.rs]). *)
Inductive ExceptionCode :=
  | EC_IllegalFunction
  | EC_IllegalDataAddress
  | EC_IllegalDataValue
  | EC_ServerDeviceFailure
  | EC_Acknowledge
  | EC_ServerDeviceBusy
  | EC_MemoryParityError
  | EC_GatewayPathUnavailable
  | EC_GatewayTargetDeviceFailedToRespond
  | EC_Other (byte : Z).

#[export] Instance ExceptionCode_eq_dec : EqDecision ExceptionCode.
Proof. solve_decision. Defined.

(** [std::io::ErrorKind]: the kinds the source names, and the others by an
    index, since the source only compares and forwards them. *)
Inductive ErrorKind :=
  | NotFound
  | InvalidInput
  | UnexpectedEof
  | OtherKind
  | KindNo (n : Z).

#[export] Instance ErrorKind_eq_dec : EqDecision ErrorKind.
Proof. solve_decision. Defined.

(** [rustls::Error] and [CertificateDer] are opaque values of a library the
    crate only carries; they are numbered. *)
Inductive Error :=
  | Truncated (expected supplied : Z)
  | TrailingBytes (extra : Z)
  | InvalidFunctionCode (code : Z)
  | ReservedCode (code : Z)
  | InvalidLength (expected actual : Z)
  | OutOfRange (field : string) (value min max : Z)
  | Checksum (expected actual : Z)
  | FramingError (element : string)
  | InvalidCharacter (character : Z)
  | ProtocolIdentifier (id : Z)
  | AduTooLarge (len max : Z)
  | ReferenceType (t : Z)
  | IllegalValue (field : string) (value : Z)
  | ByteCountMismatch (expected actual : Z)
  | PduTooLarge (len max : Z)
  | Malformed
  | Io (kind : ErrorKind) (raw_os_error : option Z)
  | Timeout (what : string)
  | ConnectionClosed
  | Configuration (field : string)
  | ExceptionError (function : FunctionCode) (exception : ExceptionCode)
  | UnexpectedFunction (expected actual : FunctionCode)
  | IndeterminateLength (function : Z)
  | Desynchronized
  | TooManyInFlight
  | BlockingInAsyncContext
  | Rs485Unsupported
  | TlsHandshake (source : Z) (peer_cert : option (list Z)).

#[export] Instance Error_eq_dec : EqDecision Error.
Proof. solve_decision. Defined.

(** [crate::error::Result], with the panics of the program made visible. *)
Inductive Result (A : Type) :=
  | Ok (a : A)
  | Err (e : Error)
  | Panic.
Arguments Ok {A} a.
Arguments Err {A} e.
Arguments Panic {A}.

#[export] Instance Result_eq_dec {A} `{EqDecision A} : EqDecision (Result A).
Proof. solve_decision. Defined.

#[export] Instance Result_ret : MRet Result := λ A a, Ok a.
#[export] Instance Result_bind : MBind Result := λ A B k r,
  match r with Ok a => k a | Err e => Err e | Panic => Panic end.
#[export] Instance Result_fmap : FMap Result := λ A B f r,
  match r with Ok a => Ok (f a) | Err e => Err e | Panic => Panic end.

(** [Option::expect]. *)
Definition expect {A} (o : option A) : Result A :=
  match o with Some a => Ok a | None => Panic end.

(** [Option::ok_or]. *)
Definition ok_or {A} (e : Error) (o : option A) : Result A :=
  match o with Some a => Ok a | None => Err e end.

(** Subtraction on an unsigned integer: below zero it panics. *)
Definition checked_sub (a b : Z) : Result Z := if a <? b then Panic else Ok (a - b).

(** Addition and multiplication on a [u16]: above the maximum they panic. *)
Definition u16_checked (z : Z) : Result Z := if U16_MAX <? z then Panic else Ok z.

Definition is_panic {A} (r : Result A) : bool :=
  match r with Panic => true | _ => false end.

Definition is_err {A} (r : Result A) : bool :=
  match r with Err _ => true | _ => false end.

(** [ListenerFailure], [classify], [Error::listener_failure]. *)
Inductive ListenerFailure := Transient | Fatal.

(** The [libc] errno constants the transient table of a Unix target names, in
    the order of the source; the numbers are the platform's. *)
Record LibcErrno := {
  ECONNABORTED : Z; ECONNRESET : Z; EINTR : Z; EAGAIN : Z; EWOULDBLOCK : Z;
  EMFILE : Z; ENFILE : Z; ENOBUFS : Z; ENOMEM : Z; EPERM : Z; ETIMEDOUT : Z;
  ENETDOWN : Z; EPROTO : Z; ENOPROTOOPT : Z; EHOSTDOWN : Z; ENONET : Z;
  EHOSTUNREACH : Z; EOPNOTSUPP : Z; ENETUNREACH : Z;
}.

(** The targets the [cfg] conditions distinguish. *)
Inductive Target := Linux | OtherUnix | Windows | OtherTarget.

Definition UNIX_TRANSIENT (c : LibcErrno) (linux : bool) : list Z :=
  [ECONNABORTED c; ECONNRESET c; EINTR c; EAGAIN c; EWOULDBLOCK c; EMFILE c;
   ENFILE c; ENOBUFS c; ENOMEM c; EPERM c; ETIMEDOUT c; ENETDOWN c; EPROTO c;
   ENOPROTOOPT c; EHOSTDOWN c] ++ (if linux then [ENONET c] else []) ++
  [EHOSTUNREACH c; EOPNOTSUPP c; ENETUNREACH c].

Definition WINDOWS_TRANSIENT : list Z := [10054; 10053; 10024; 10055; 10004; 10035; 10040].

Definition TRANSIENT (c : LibcErrno) (t : Target) : list Z :=
  match t with
  | Windows => WINDOWS_TRANSIENT
  | Linux => UNIX_TRANSIENT c true
  | OtherUnix => UNIX_TRANSIENT c false
  | OtherTarget => []
  end.

Definition classify (code : option Z) (table : list Z) : ListenerFailure :=
  match code with
  | Some n => if existsb (Z.eqb n) table then Transient else Fatal
  | None => Fatal
  end.

Definition listener_failure (c : LibcErrno) (t : Target) (e : Error) : option ListenerFailure :=
  match e with
  | Io _ raw_os_error => Some (classify raw_os_error (TRANSIENT c t))
  | _ => None
  end.

(** [Error::ends_stream]. *)
Definition ends_stream (e : Error) : bool :=
  match e with
  | Io _ _ | ConnectionClosed | Timeout _ => true
  | _ => false
  end.

(** ** The writer monad

    [&mut Vec<u8>] threaded through fallible code: the buffer survives a
    failure, as the vector does, so partial writes are visible to whoever
    holds it. *)

Definition W (A : Type) : Type := list Z → Result A * list Z.

#[export] Instance W_ret : MRet W := λ A a out, (Ok a, out).
#[export] Instance W_bind : MBind W := λ A B k w out,
  match w out with
  | (Ok a, out') => k a out'
  | (Err e, out') => (Err e, out')
  | (Panic, out') => (Panic, out')
  end.

(** [Vec::push], [Vec::extend_from_slice], [Vec::len], [Vec::truncate], the
    [?] of a pure result, and an assignment through [get_mut].  [reserve]
    changes the capacity only, which is not modelled. *)
Definition push (b : Z) : W unit := λ out, (Ok tt, out ++ [b]).
Definition extend_from_slice (bs : list Z) : W unit := λ out, (Ok tt, out ++ bs).
Definition out_len : W Z := λ out, (Ok (len out), out).
Definition get_out : W (list Z) := λ out, (Ok out, out).
Definition truncate_out (n : Z) : W unit := λ out, (Ok tt, take (Z.to_nat n) out).
Definition liftW {A} (r : Result A) : W A := λ out, (r, out).
Definition patch (at_ : Z) (bs : list Z) : W unit := λ out,
  match slice_get at_ (at_ + len bs) out with
  | Some _ => (Ok tt, take (Z.to_nat at_) out ++ bs ++ drop (Z.to_nat (at_ + len bs)) out)
  | None => (Panic, out)
  end.

(** ** Specification of writers

    [Writes w r]: run on any buffer, [w] appends the bytes of [r] or fails
    with its error, and in no case touches what the buffer already held. *)

Definition Writes (w : W unit) (r : Result (list Z)) : Prop :=
  ∀ out, match r with
         | Ok bs => w out = (Ok tt, out ++ bs)
         | Err e => ∃ partial, w out = (Err e, out ++ partial)
         | Panic => False
         end.

(** ** Laws *)

Lemma Result_bind_ok {A B} (a : A) (k : A → Result B) : (Ok a ≫= k) = k a.
Proof. done. Qed.

Lemma Result_bind_inv {A B} (r : Result A) (k : A → Result B) b :
  (r ≫= k) = Ok b → ∃ a, r = Ok a ∧ k a = Ok b.
Proof. destruct r; naive_solver. Qed.

Lemma Result_bind_err_inv {A B} (r : Result A) (k : A → Result B) e :
  (r ≫= k) = Err e → r = Err e ∨ ∃ a, r = Ok a ∧ k a = Err e.
Proof. destruct r; naive_solver. Qed.

Lemma W_bind_run {A B} (w : W A) (k : A → W B) out :
  (w ≫= k) out = match w out with
                 | (Ok a, out') => k a out'
                 | (Err e, out') => (Err e, out')
                 | (Panic, out') => (Panic, out')
                 end.
Proof. done. Qed.

Lemma Writes_ret : Writes (mret tt) (Ok []).
Proof. intros out. by rewrite app_nil_r. Qed.

Lemma Writes_push b : Writes (push b) (Ok [b]).
Proof. done. Qed.

Lemma Writes_extend bs : Writes (extend_from_slice bs) (Ok bs).
Proof. done. Qed.

Lemma Writes_err e : Writes (liftW (Err e)) (Err e).
Proof. intros out. exists []. by rewrite app_nil_r. Qed.

Lemma Writes_seq w1 w2 bs1 r2 :
  Writes w1 (Ok bs1) → Writes w2 r2 →
  Writes (w1 ≫= λ _, w2) ((λ bs2, bs1 ++ bs2) <$> r2).
Proof.
  intros H1 H2 out. specialize (H1 out). specialize (H2 (out ++ bs1)).
  destruct r2 as [bs2|e|]; simpl in *; [| |done].
  - rewrite W_bind_run, H1, H2. by rewrite app_assoc.
  - destruct H2 as [p H2]. exists (bs1 ++ p). rewrite W_bind_run, H1, H2.
    by rewrite app_assoc.
Qed.

Lemma Writes_seq_err {A} (w1 : W unit) (k : unit → W A) e :
  Writes w1 (Err e) → ∀ out, ∃ p, (w1 ≫= k) out = (Err e, out ++ p).
Proof.
  intros H1 out. destruct (H1 out) as [p Hp]. exists p. by rewrite W_bind_run, Hp.
Qed.

Lemma ends_stream_false e :
  ends_stream e = false → (∀ k o, e ≠ Io k o) ∧ e ≠ ConnectionClosed ∧ ∀ w, e ≠ Timeout w.
Proof. by destruct e. Qed.

(** [res_inv]: invert a chain of successful [Result] binds. *)
Ltac res_inv :=
  repeat match goal with
  | H : (_ ≫= _) = Ok _ |- _ => apply Result_bind_inv in H as (? & ? & ?)
  | H : Ok _ = Ok _ |- _ => injection H as H; subst
  | H : mret _ = Ok _ |- _ => injection H as H; subst
  | H : Err _ = Ok _ |- _ => discriminate H
  | H : Panic = Ok _ |- _ => discriminate H
  | H : (if ?b then _ else _) = Ok _ |- _ => let E := fresh "E" in destruct b eqn:E
  end.

(** [w_run]: evaluate a sequence of unconditional writes. *)
Ltac w_run :=
  repeat first [rewrite W_bind_run
    | progress (cbv beta iota delta [push extend_from_slice out_len mret W_ret liftW ok_or])];
  cbv beta iota; rewrite <- ?app_assoc; cbn [app].
