(* ===== verification/Parse.v ===== *)
(** * Parsing primitives ([src/parse.rs])

    A decoder runs over [Partial<&[u8]>], here the list of bytes still unread.
    The [winnow] parsers the source calls are the operations of the class
    [Winnow], and what the source relies on is the class [WinnowSpec]: on a
    partial stream a fixed-width parser consumes exactly its width, or reports
    how many bytes are missing.  On a failure every caller drops the input, so
    a failing parser yields no remaining input. *)

From S2P Require Import Prelude.
From S2P Require Import Errors.

(** [winnow::error::Needed] and [ErrMode]. *)
Inductive Needed := Size (n : Z) | Unknown.

(** [ParseFailure(Option<Error>)]. *)
Record ParseFailure := mkParseFailure { failure_error : option Error }.

Inductive ErrMode :=
  | Incomplete (needed : Needed)
  | Backtrack (failure : ParseFailure)
  | Cut (failure : ParseFailure).

(** What a parser step yields: a value with the input left, a failure, or a
    panic of the program. *)
Inductive PRes (A : Type) :=
  | POk (a : A) (rest_ : list Z)
  | PErr (e : ErrMode)
  | PPanic.
Arguments POk {A} a rest_.
Arguments PErr {A} e.
Arguments PPanic {A}.

(** A parser over [&mut Input]. *)
Definition P (A : Type) : Type := list Z → PRes A.

#[export] Instance P_ret : MRet P := λ A a i, POk a i.
#[export] Instance P_bind : MBind P := λ A B k p i,
  match p i with POk a i' => k a i' | PErr e => PErr e | PPanic => PPanic end.

(** The [winnow] operations the source uses. *)
Class Winnow := {
  be_u8 : P Z;
  be_u16 : P Z;
  take_bytes : Z → P (list Z);
  rest : P (list Z);
  eof_offset : list Z → Z;
}.

(** Their documented behaviour on a partial stream. *)
Class WinnowSpec (w : Winnow) : Prop := {
  be_u8_some b i : be_u8 (b :: i) = POk b i;
  be_u8_none : be_u8 [] = PErr (Incomplete (Size 1));
  be_u16_some hi lo i : be_u16 (hi :: lo :: i) = POk (u16_from_be hi lo) i;
  be_u16_none i : len i < 2 → be_u16 i = PErr (Incomplete (Size (2 - len i)));
  take_some n i : 0 ≤ n ≤ len i →
    take_bytes n i = POk (take (Z.to_nat n) i) (drop (Z.to_nat n) i);
  take_none n i : len i < n → take_bytes n i = PErr (Incomplete (Size (n - len i)));
  rest_all i : rest i = POk i [];
  eof_offset_len i : eof_offset i = len i;
}.

(** A concrete instance, by the same equations. *)
Definition winnow_model : Winnow := {|
  be_u8 i := match i with b :: i' => POk b i' | [] => PErr (Incomplete (Size 1)) end;
  be_u16 i := match i with
              | hi :: lo :: i' => POk (u16_from_be hi lo) i'
              | _ => PErr (Incomplete (Size (2 - len i)))
              end;
  take_bytes n i := if n <=? len i then POk (take (Z.to_nat n) i) (drop (Z.to_nat n) i)
                    else PErr (Incomplete (Size (n - len i)));
  rest i := POk i [];
  eof_offset i := len i;
|}.

(** [ParseFailure::into_error]. *)
Definition into_error (f : ParseFailure) : Error := default Malformed (failure_error f).

(** [lift] and [fail]. *)
Definition lift {A} (r : Result A) : P A := λ i,
  match r with
  | Ok a => POk a i
  | Err error => PErr (Cut (mkParseFailure (Some error)))
  | Panic => PPanic
  end.

Definition fail {A} (error : Error) : P A := lift (Err error).

(** [Input::len], through the dereference to the slice. *)
Definition input_len : P Z := λ i, POk (len i) i.

(** [missing] and [convert]. *)
Definition missing (needed : Needed) : Z :=
  match needed with Size n => n | Unknown => 1 end.

Definition convert (error : ErrMode) (supplied : Z) : Error :=
  match error with
  | Incomplete needed => Truncated (saturating_add supplied (missing needed)) supplied
  | Backtrack failure | Cut failure => into_error failure
  end.

Section with_winnow.
Context {w : Winnow}.

(** [run]: the parser consumes the input exactly. *)
Definition run {O} (bytes : list Z) (parser : P O) : Result O :=
  match parser bytes with
  | POk value input =>
      if eof_offset input =? 0 then Ok value else Err (TrailingBytes (eof_offset input))
  | PErr error => Err (convert error (len bytes))
  | PPanic => Panic
  end.

(** [run_all]: the loop, with fuel.  Every parser of the source consumes at
    least one byte, so the length of the input is fuel enough; running out of
    it is reported as [Panic], which [run_all_loop_no_panic] excludes. *)
Fixpoint run_all_loop {O} (fuel : nat) (supplied : Z) (parser : P O) (input : list Z)
    (items : list O) : Result (list O) :=
  if eof_offset input <=? 0 then Ok items else
  match fuel with
  | O => Panic
  | S fuel' =>
      match parser input with
      | POk item input' => run_all_loop fuel' supplied parser input' (items ++ [item])
      | PErr error => Err (convert error supplied)
      | PPanic => Panic
      end
  end.

Definition run_all {O} (bytes : list Z) (parser : P O) : Result (list O) :=
  run_all_loop (length bytes) (len bytes) parser bytes [].
End with_winnow.

(** ** Laws *)

#[export] Instance winnow_model_spec : WinnowSpec winnow_model.
Proof.
  split; simpl; try done.
  - intros [|a [|b i]] Hi; [done..|]. rewrite !len_cons in Hi. pose proof (len_nonneg i). lia.
  - intros n i Hn. destruct (Z.leb_spec n (len i)); [done|lia].
  - intros n i Hn. destruct (Z.leb_spec n (len i)); [lia|done].
Qed.

Lemma P_bind_run {A B} (p : P A) (k : A → P B) i :
  (p ≫= k) i = match p i with POk a i' => k a i' | PErr e => PErr e | PPanic => PPanic end.
Proof. done. Qed.

Lemma P_bind_inv {A B} (p : P A) (k : A → P B) i b i' :
  (p ≫= k) i = POk b i' → ∃ a i1, p i = POk a i1 ∧ k a i1 = POk b i'.
Proof. rewrite P_bind_run. destruct (p i); naive_solver. Qed.

Lemma P_ret_inv {A} (a b : A) i i' : mret (M:=P) a i = POk b i' → a = b ∧ i = i'.
Proof. intros [=]. done. Qed.

Lemma lift_inv {A} (r : Result A) i a i' : lift r i = POk a i' → r = Ok a ∧ i = i'.
Proof. destruct r; intros [=]; by subst. Qed.

Section laws.
Context {w : Winnow} {ws : WinnowSpec w}.

Lemma be_u8_inv i b i' : be_u8 i = POk b i' → i = b :: i'.
Proof.
  destruct i as [|c i]; [by rewrite be_u8_none|]. rewrite be_u8_some. naive_solver.
Qed.

Lemma be_u16_inv i x i' :
  be_u16 i = POk x i' → ∃ hi lo, i = hi :: lo :: i' ∧ x = u16_from_be hi lo.
Proof.
  destruct i as [|hi [|lo i]].
  - by rewrite be_u16_none.
  - by rewrite be_u16_none.
  - rewrite be_u16_some. intros [= <- <-]. eauto.
Qed.

Lemma be_u16_to_be x i : be_u16 (u16_to_be x ++ i) = POk x i.
Proof. rewrite u16_be_cons, be_u16_some. by rewrite u16_from_to_be. Qed.

Lemma be_u16_to_be_nil x : be_u16 (u16_to_be x) = POk x [].
Proof. rewrite <- (app_nil_r (u16_to_be x)). apply be_u16_to_be. Qed.

(** On an input of bytes a successful [be_u16] has read the big-endian form of
    a 16-bit value. *)
Lemma be_u16_bytes_inv i x i' :
  bytes_ok i → be_u16 i = POk x i' → i = u16_to_be x ++ i' ∧ is_u16 x ∧ bytes_ok i'.
Proof.
  intros Hi (hi & lo & -> & ->)%be_u16_inv.
  apply bytes_ok_cons_inv in Hi as [Hhi Hi]. apply bytes_ok_cons_inv in Hi as [Hlo Hi].
  rewrite u16_to_from_be by done. auto using u16_from_be_range.
Qed.

Lemma be_u8_bytes_inv i b i' :
  bytes_ok i → be_u8 i = POk b i' → i = [b] ++ i' ∧ is_u8 b ∧ bytes_ok i'.
Proof. intros Hi ->%be_u8_inv. by apply bytes_ok_cons_inv in Hi as [? ?]. Qed.

Lemma take_inv n i bs i' :
  0 ≤ n → take_bytes n i = POk bs i' → i = bs ++ i' ∧ len bs = n.
Proof.
  intros Hn. destruct (Z.le_gt_cases n (len i)) as [Hle|Hlt].
  - rewrite take_some by lia. intros [= <- <-]. rewrite take_drop. split; [done|].
    rewrite len_take. lia.
  - by rewrite take_none by lia.
Qed.

Lemma take_app bs i : take_bytes (len bs) (bs ++ i) = POk bs i.
Proof.
  rewrite take_some by len_lia. unfold len.
  by rewrite Nat2Z.id, take_app_length, drop_app_length.
Qed.

Lemma rest_inv i bs i' : rest i = POk bs i' → bs = i ∧ i' = [].
Proof. rewrite rest_all. naive_solver. Qed.

Lemma run_inv {O} bytes (p : P O) v : run bytes p = Ok v → p bytes = POk v [].
Proof.
  unfold run. destruct (p bytes) as [a i|e|]; [|done..].
  rewrite eof_offset_len. destruct (Z.eqb_spec (len i) 0) as [Hz|]; [|done].
  apply len_0_nil in Hz as ->. by intros [= ->].
Qed.

Lemma run_ok {O} bytes (p : P O) v : p bytes = POk v [] → run bytes p = Ok v.
Proof. unfold run. intros ->. by rewrite eof_offset_len. Qed.

(** A parser that consumes at least one byte of what it accepts. *)
Definition Consumes {O} (p : P O) : Prop :=
  ∀ i v i', bytes_ok i → p i = POk v i' → len i' < len i ∧ bytes_ok i'.

Lemma run_all_loop_ge {O} (p : P O) s i items n :
  Consumes p → bytes_ok i → (length i ≤ n)%nat →
  run_all_loop n s p i items = run_all_loop (length i) s p i items.
Proof.
  intros Hp. revert i items. induction n as [n IH] using lt_wf_ind.
  intros i items Hi Hn.
  destruct n as [|n].
  { assert (length i = 0%nat) as -> by lia. done. }
  destruct i as [|b i].
  { simpl. by rewrite eof_offset_len. }
  cbn [run_all_loop length]. case_match; [done|].
  destruct (p (b :: i)) as [v i'|e|] eqn:E; [|done..].
  apply Hp in E as [E Hi']; [|done]. rewrite len_cons in E. unfold len in E. simpl in Hn.
  rewrite (IH n) by (done || lia). destruct (decide (length i < n)%nat) as [Hlt|Hge].
  - rewrite (IH (length i)) by (done || lia). done.
  - assert (length i = n) as <- by lia. rewrite (IH (length i)) by (done || lia). done.
Qed.

(** One step of [run_all] on a non-empty region. *)
Lemma run_all_loop_step {O} (p : P O) s i v i' items :
  Consumes p → bytes_ok i → p i = POk v i' →
  run_all_loop (length i) s p i items = run_all_loop (length i') s p i' (items ++ [v]).
Proof.
  intros Hp Hi E. destruct (Hp _ _ _ Hi E) as [Hlt Hi']. destruct i as [|b i].
  { rewrite len_nil in Hlt. pose proof (len_nonneg i'). lia. }
  cbn [run_all_loop length]. rewrite eof_offset_len, len_cons.
  pose proof (len_nonneg i). destruct (Z.leb_spec (1 + len i) 0); [lia|].
  rewrite E. apply run_all_loop_ge; [done|done|]. rewrite len_cons in Hlt. unfold len in Hlt. lia.
Qed.

(** [run_all] inverts a concatenation of encodings, each of which the parser
    reads back. *)
Lemma run_all_concat {O} (p : P O) (enc : O → list Z) (good : O → Prop) s items :
  Consumes p → (∀ v tl, good v → p (enc v ++ tl) = POk v tl) →
  (∀ v, good v → bytes_ok (enc v)) → Forall good items →
  ∀ acc, run_all_loop (length (mjoin (enc <$> items))) s p (mjoin (enc <$> items)) acc
         = Ok (acc ++ items).
Proof.
  intros Hc Hp Hb Hg.
  assert (bytes_ok (mjoin (enc <$> items))) as Hok.
  { induction Hg; [constructor|]. cbn. apply bytes_ok_app; auto. }
  induction Hg as [|v items Hv Hgood IH]; intros acc.
  - simpl. rewrite eof_offset_len, app_nil_r. done.
  - cbn [fmap list_fmap mjoin list_join] in *.
    rewrite (run_all_loop_step p s _ v _ _ Hc Hok (Hp v _ Hv)).
    apply bytes_ok_app_inv in Hok as [_ Hok].
    rewrite IH, <- app_assoc by done. done.
Qed.

(** Enough fuel: on bytes, [run_all] never panics if its parser does not. *)
Lemma run_all_loop_no_panic {O} (p : P O) s n :
  Consumes p → (∀ i, bytes_ok i → p i ≠ PPanic) →
  ∀ i items, bytes_ok i → (length i ≤ n)%nat → run_all_loop n s p i items ≠ Panic.
Proof.
  intros Hc Hp. induction n as [|n IH]; intros i items Hi Hn; cbn [run_all_loop];
    rewrite eof_offset_len; destruct (Z.leb_spec (len i) 0) as [Hz|Hz]; [done| |done|].
  { unfold len in Hz. lia. }
  destruct (p i) as [v i'|e|] eqn:E; [|done|by destruct (Hp i)].
  destruct (Hc _ _ _ Hi E) as [Hlt Hi']. apply IH; [done|]. unfold len in Hlt. lia.
Qed.

(** What [run_all] accepts is such a concatenation. *)
Lemma run_all_loop_inv {O} (p : P O) (enc : O → list Z) (good : O → Prop) s n :
  (∀ i v i', bytes_ok i → p i = POk v i' → i = enc v ++ i' ∧ good v ∧ bytes_ok i') →
  ∀ i acc out, bytes_ok i → run_all_loop n s p i acc = Ok out →
  ∃ items, out = acc ++ items ∧ i = mjoin (enc <$> items) ∧ Forall good items.
Proof.
  intros Hp. induction n as [|n IH]; intros i acc out Hi; cbn [run_all_loop];
    rewrite eof_offset_len; destruct (Z.leb_spec (len i) 0) as [Hz|Hz].
  1,3: (intros [= <-]; exists []; assert (i = []) as -> by (apply len_0_nil; len_lia);
        rewrite app_nil_r; eauto).
  { done. }
  destruct (p i) as [v i'|e|] eqn:E; [|done..]. intros Hrun.
  destruct (Hp _ _ _ Hi E) as (Hi' & Hv & Hb). apply IH in Hrun as (items & -> & Hi'' & Hg);
    [|done].
  exists (v :: items). rewrite <- app_assoc. split_and!; [done| |by constructor].
  rewrite Hi'. cbn. by rewrite Hi''.
Qed.
End laws.

(** [parse_inv]: invert a successful monadic parser over bytes, one step at a
    time, keeping the byte invariant of what is left. *)
Ltac parse_step :=
  match goal with
  | H : (_ ≫= _) _ = POk _ _ |- _ => apply P_bind_inv in H as (? & ? & ? & ?)
  | H : mret _ _ = POk _ _ |- _ => apply P_ret_inv in H as [? ?]; subst
  | H : lift _ _ = POk _ _ |- _ => apply lift_inv in H as [? ?]; subst
  | H : fail _ _ = POk _ _ |- _ => discriminate H
  | H : input_len _ = POk _ _ |- _ => injection H as ? ?; subst
  | Hb : bytes_ok ?i, H : be_u8 ?i = POk _ _ |- _ =>
      apply (be_u8_bytes_inv _ _ _ Hb) in H as (? & ? & ?); subst
  | Hb : bytes_ok ?i, H : be_u16 ?i = POk _ _ |- _ =>
      apply (be_u16_bytes_inv _ _ _ Hb) in H as (? & ? & ?); subst
  | H : rest _ = POk _ _ |- _ => apply rest_inv in H as [? ?]; subst
  | H : (if ?b then _ else _) _ = POk _ _ |- _ => let E := fresh "E" in destruct b eqn:E
  end.
Ltac parse_inv := repeat parse_step.

(** [p_run]: evaluate a parser on an input whose head is known. *)
Ltac p_run :=
  repeat first [rewrite P_bind_run | rewrite be_u8_some | rewrite be_u16_to_be
    | rewrite be_u16_to_be_nil
    | rewrite take_app | rewrite rest_all
    | progress (cbv beta iota delta [mret P_ret lift fail input_len])].
