(* ===== verification/Value.v ===== *)
(** * Domain value types ([src/frame/value.rs])

    Transparent wrappers over one integer: two fields of equal width and
    different meaning are different types. *)

From S2P Require Import Prelude.

Record UnitId := mkUnitId { unit_id_0 : Z }.
Record TransactionId := mkTransactionId { transaction_id_0 : Z }.
Record Address := mkAddress { address_0 : Z }.
Record Quantity := mkQuantity { quantity_0 : Z }.
Record RegisterValue := mkRegisterValue { register_value_0 : Z }.
Record Mask := mkMask { mask_0 : Z }.
Record FileNumber := mkFileNumber { file_number_0 : Z }.
Record RecordNumber := mkRecordNumber { record_number_0 : Z }.
Record RecordLength := mkRecordLength { record_length_0 : Z }.
Record ExceptionStatus := mkExceptionStatus { exception_status_0 : Z }.

(** [BROADCAST_UNIT]. *)
Definition BROADCAST_UNIT : UnitId := mkUnitId 0.

#[export] Instance UnitId_eq_dec : EqDecision UnitId.
Proof. solve_decision. Defined.
#[export] Instance TransactionId_eq_dec : EqDecision TransactionId.
Proof. solve_decision. Defined.
#[export] Instance Address_eq_dec : EqDecision Address.
Proof. solve_decision. Defined.
#[export] Instance Quantity_eq_dec : EqDecision Quantity.
Proof. solve_decision. Defined.
#[export] Instance RegisterValue_eq_dec : EqDecision RegisterValue.
Proof. solve_decision. Defined.
#[export] Instance Mask_eq_dec : EqDecision Mask.
Proof. solve_decision. Defined.
#[export] Instance FileNumber_eq_dec : EqDecision FileNumber.
Proof. solve_decision. Defined.
#[export] Instance RecordNumber_eq_dec : EqDecision RecordNumber.
Proof. solve_decision. Defined.
#[export] Instance RecordLength_eq_dec : EqDecision RecordLength.
Proof. solve_decision. Defined.
#[export] Instance ExceptionStatus_eq_dec : EqDecision ExceptionStatus.
Proof. solve_decision. Defined.

(** The width invariant of each wrapper: the class of types whose values are
    constrained to what their Rust type can hold. *)
Class Wf (A : Type) := wf : A → Prop.

#[export] Instance Wf_UnitId : Wf UnitId := λ v, is_u8 (unit_id_0 v).
#[export] Instance Wf_TransactionId : Wf TransactionId := λ v, is_u16 (transaction_id_0 v).
#[export] Instance Wf_Address : Wf Address := λ v, is_u16 (address_0 v).
#[export] Instance Wf_Quantity : Wf Quantity := λ v, is_u16 (quantity_0 v).
#[export] Instance Wf_RegisterValue : Wf RegisterValue := λ v, is_u16 (register_value_0 v).
#[export] Instance Wf_Mask : Wf Mask := λ v, is_u16 (mask_0 v).
#[export] Instance Wf_FileNumber : Wf FileNumber := λ v, is_u16 (file_number_0 v).
#[export] Instance Wf_RecordNumber : Wf RecordNumber := λ v, is_u16 (record_number_0 v).
#[export] Instance Wf_RecordLength : Wf RecordLength := λ v, is_u16 (record_length_0 v).
#[export] Instance Wf_ExceptionStatus : Wf ExceptionStatus :=
  λ v, is_u8 (exception_status_0 v).

(** [by_eval]: a closed fact on concrete values, range conditions included. *)
Ltac by_eval :=
  repeat match goal with
  | |- wf _ => hnf
  | |- bytes_ok _ => hnf
  | |- _ ∧ _ => split
  | |- Forall _ _ => constructor
  | |- Forall2 _ _ _ => constructor
  end; try (vm_compute; reflexivity); try (vm_compute; intros [=]; fail);
  try (vm_compute; repeat split; intros [=]; fail); try exact I.
