(* ===== verification/Function.v ===== *)
(** * Function codes ([src/frame/function.rs]) *)

From stdpp Require Import pretty.
From S2P Require Import Prelude.
From S2P Require Import Errors.
From S2P Require Import Value.

(** [FunctionCode::NAMED]: the byte and variant table. *)
Definition FunctionCode_NAMED : list (Z * FunctionCode) :=
  [(1, FC_ReadCoils); (2, FC_ReadDiscreteInputs); (3, FC_ReadHoldingRegisters);
   (4, FC_ReadInputRegisters); (5, FC_WriteSingleCoil); (6, FC_WriteSingleRegister);
   (7, FC_ReadExceptionStatus); (8, FC_Diagnostics); (11, FC_GetCommEventCounter);
   (12, FC_GetCommEventLog); (15, FC_WriteMultipleCoils); (16, FC_WriteMultipleRegisters);
   (17, FC_ReportServerId); (20, FC_ReadFileRecord); (21, FC_WriteFileRecord);
   (22, FC_MaskWriteRegister); (23, FC_ReadWriteMultipleRegisters); (24, FC_ReadFifoQueue);
   (43, FC_EncapsulatedInterfaceTransport)].

(** The [find(|(candidate, _)| ..)] over a code table, shared by the three
    enums of the frame layer that have one. *)
Definition table_find {C} (table : list (Z * C)) (byte : Z) : option C :=
  snd <$> List.find (λ e, fst e =? byte) table.

Definition table_any {C} (table : list (Z * C)) (byte : Z) : bool :=
  existsb (λ e, fst e =? byte) table.

(** [FunctionCode::decode]. *)
Definition FunctionCode_decode (byte : Z) : Result FunctionCode :=
  if (byte =? 0) || (0x80 <=? byte) then Err (InvalidFunctionCode byte)
  else Ok (default (FC_Custom byte) (table_find FunctionCode_NAMED byte)).

(** [FunctionCode::encode]. *)
Definition FunctionCode_encode (c : FunctionCode) : Result Z :=
  match c with
  | FC_ReadCoils => Ok 1
  | FC_ReadDiscreteInputs => Ok 2
  | FC_ReadHoldingRegisters => Ok 3
  | FC_ReadInputRegisters => Ok 4
  | FC_WriteSingleCoil => Ok 5
  | FC_WriteSingleRegister => Ok 6
  | FC_ReadExceptionStatus => Ok 7
  | FC_Diagnostics => Ok 8
  | FC_GetCommEventCounter => Ok 11
  | FC_GetCommEventLog => Ok 12
  | FC_WriteMultipleCoils => Ok 15
  | FC_WriteMultipleRegisters => Ok 16
  | FC_ReportServerId => Ok 17
  | FC_ReadFileRecord => Ok 20
  | FC_WriteFileRecord => Ok 21
  | FC_MaskWriteRegister => Ok 22
  | FC_ReadWriteMultipleRegisters => Ok 23
  | FC_ReadFifoQueue => Ok 24
  | FC_EncapsulatedInterfaceTransport => Ok 43
  | FC_Custom byte =>
      if (byte =? 0) || (0x80 <=? byte) then Err (InvalidFunctionCode byte)
      else if table_any FunctionCode_NAMED byte then Err (ReservedCode byte)
      else Ok byte
  end.

(** [Display for FunctionCode]. *)
Definition FunctionCode_display (c : FunctionCode) : string :=
  match c with
  | FC_ReadCoils => "Read Coils"
  | FC_ReadDiscreteInputs => "Read Discrete Inputs"
  | FC_ReadHoldingRegisters => "Read Holding Registers"
  | FC_ReadInputRegisters => "Read Input Registers"
  | FC_WriteSingleCoil => "Write Single Coil"
  | FC_WriteSingleRegister => "Write Single Register"
  | FC_ReadExceptionStatus => "Read Exception Status"
  | FC_Diagnostics => "Diagnostics"
  | FC_GetCommEventCounter => "Get Comm Event Counter"
  | FC_GetCommEventLog => "Get Comm Event Log"
  | FC_WriteMultipleCoils => "Write Multiple Coils"
  | FC_WriteMultipleRegisters => "Write Multiple Registers"
  | FC_ReportServerId => "Report Server ID"
  | FC_ReadFileRecord => "Read File Record"
  | FC_WriteFileRecord => "Write File Record"
  | FC_MaskWriteRegister => "Mask Write Register"
  | FC_ReadWriteMultipleRegisters => "Read/Write Multiple Registers"
  | FC_ReadFifoQueue => "Read FIFO Queue"
  | FC_EncapsulatedInterfaceTransport => "Encapsulated Interface Transport"
  | FC_Custom byte => "Custom function " +:+ pretty byte
  end.

#[export] Instance Wf_FunctionCode : Wf FunctionCode :=
  λ c, match c with FC_Custom b => is_u8 b | _ => True end.

(** ** Laws *)

Lemma table_find_none {C} (table : list (Z * C)) b :
  table_find table b = None → table_any table b = false.
Proof.
  unfold table_find, table_any. induction table as [|[c x] t IH]; [done|]. simpl.
  by destruct (c =? b).
Qed.

Lemma table_find_some {C} (table : list (Z * C)) b c :
  table_find table b = Some c → In (b, c) table.
Proof.
  unfold table_find. induction table as [|[c' x] t IH]; [done|]. simpl.
  destruct (Z.eqb_spec c' b) as [->|]; [intros [= ->]; auto|]. intros H. right. by apply IH.
Qed.

(** Decoding yields a code that encodes to the byte decoded. *)
Lemma FunctionCode_decode_encode b c :
  FunctionCode_decode b = Ok c → FunctionCode_encode c = Ok b.
Proof.
  unfold FunctionCode_decode. destruct ((b =? 0) || (0x80 <=? b)) eqn:Hr; [done|].
  intros [= <-]. destruct (table_find FunctionCode_NAMED b) as [c|] eqn:Hf; cbn [default].
  - apply table_find_some in Hf. simpl in Hf.
    repeat destruct Hf as [[= <- <-]|Hf]; [reflexivity..|done].
  - cbn [FunctionCode_encode]. rewrite Hr.
    by rewrite table_find_none.
Qed.

(** A code that encodes is the one its byte decodes to. *)
Lemma FunctionCode_encode_decode b c :
  FunctionCode_encode c = Ok b → FunctionCode_decode b = Ok c.
Proof.
  destruct c as [| | | | | | | | | | | | | | | | | | |x]; try (intros [= <-]; reflexivity).
  unfold FunctionCode_decode. cbn [FunctionCode_encode].
  destruct ((x =? 0) || (0x80 <=? x)) eqn:Hr; [done|].
  destruct (table_any FunctionCode_NAMED x) eqn:Ha; [done|]. intros [= <-]. rewrite Hr.
  destruct (table_find FunctionCode_NAMED x) as [c|] eqn:Hf; [|done].
  apply table_find_some in Hf. exfalso. unfold table_any in Ha.
  rewrite <- not_true_iff_false, existsb_exists in Ha. apply Ha.
  exists (x, c). simpl. by rewrite Z.eqb_refl.
Qed.

(** A function code that encodes is one of 1 to 127. *)
Lemma FunctionCode_encode_range c b : wf c → FunctionCode_encode c = Ok b → 1 ≤ b ≤ 127.
Proof.
  destruct c as [| | | | | | | | | | | | | | | | | | |x]; try (intros _ [= <-]; lia).
  intros Hx. cbv [wf Wf_FunctionCode is_u8] in Hx. cbn [FunctionCode_encode].
  destruct (_ || _) eqn:Hr; [done|]. case_match; [done|]. intros [= <-].
  split_guards. lia.
Qed.

Lemma FunctionCode_decode_range b c : is_u8 b → FunctionCode_decode b = Ok c → 1 ≤ b ≤ 127.
Proof.
  unfold is_u8, FunctionCode_decode. intros Hb. destruct (_ || _) eqn:Hr; [done|].
  intros _. split_guards. lia.
Qed.

Lemma FunctionCode_decode_wf b c : is_u8 b → FunctionCode_decode b = Ok c → wf c.
Proof.
  intros Hb Hd. unfold FunctionCode_decode in Hd. destruct (_ || _); [done|].
  injection Hd as <-. destruct (table_find FunctionCode_NAMED b) as [c|] eqn:Hf; [|done].
  apply table_find_some in Hf. simpl in Hf. by repeat destruct Hf as [[= <- <-]|Hf].
Qed.
