(* ===== verification/Exception.v ===== *)
(** * Exception responses ([src/frame/exception.rs]) *)

From stdpp Require Import pretty.
From S2P Require Import Prelude.
From S2P Require Import Errors.
From S2P Require Import Value.
From S2P Require Import Function.

(** [EXCEPTION_FLAG]. *)
Definition EXCEPTION_FLAG : Z := 0x80.

(** [ExceptionCode::NAMED]. *)
Definition ExceptionCode_NAMED : list (Z * ExceptionCode) :=
  [(1, EC_IllegalFunction); (2, EC_IllegalDataAddress); (3, EC_IllegalDataValue);
   (4, EC_ServerDeviceFailure); (5, EC_Acknowledge); (6, EC_ServerDeviceBusy);
   (8, EC_MemoryParityError); (10, EC_GatewayPathUnavailable);
   (11, EC_GatewayTargetDeviceFailedToRespond)].

(** [ExceptionCode::decode]: infallible. *)
Definition ExceptionCode_decode (byte : Z) : ExceptionCode :=
  default (EC_Other byte) (table_find ExceptionCode_NAMED byte).

(** [ExceptionCode::encode]. *)
Definition ExceptionCode_encode (c : ExceptionCode) : Result Z :=
  match c with
  | EC_IllegalFunction => Ok 1
  | EC_IllegalDataAddress => Ok 2
  | EC_IllegalDataValue => Ok 3
  | EC_ServerDeviceFailure => Ok 4
  | EC_Acknowledge => Ok 5
  | EC_ServerDeviceBusy => Ok 6
  | EC_MemoryParityError => Ok 8
  | EC_GatewayPathUnavailable => Ok 10
  | EC_GatewayTargetDeviceFailedToRespond => Ok 11
  | EC_Other byte =>
      if table_any ExceptionCode_NAMED byte then Err (ReservedCode byte) else Ok byte
  end.

(** [Display for ExceptionCode]. *)
Definition ExceptionCode_display (c : ExceptionCode) : string :=
  match c with
  | EC_IllegalFunction => "Illegal Function"
  | EC_IllegalDataAddress => "Illegal Data Address"
  | EC_IllegalDataValue => "Illegal Data Value"
  | EC_ServerDeviceFailure => "Server Device Failure"
  | EC_Acknowledge => "Acknowledge"
  | EC_ServerDeviceBusy => "Server Device Busy"
  | EC_MemoryParityError => "Memory Parity Error"
  | EC_GatewayPathUnavailable => "Gateway Path Unavailable"
  | EC_GatewayTargetDeviceFailedToRespond => "Gateway Target Device Failed To Respond"
  | EC_Other byte => "Other exception " +:+ pretty byte
  end.

(** [ExceptionResponse] and its length. *)
Record ExceptionResponse := mkExceptionResponse {
  er_function : FunctionCode;
  er_exception : ExceptionCode;
}.

#[export] Instance ExceptionResponse_eq_dec : EqDecision ExceptionResponse.
Proof. solve_decision. Defined.

Definition ExceptionResponse_PDU_LEN : Z := 2.

(** [ExceptionResponse::decode]. *)
Definition ExceptionResponse_decode (pdu : list Z) : Result ExceptionResponse :=
  match pdu with
  | [raw; code] =>
      if Z.land raw EXCEPTION_FLAG =? 0 then Err (InvalidFunctionCode raw) else
      function ← FunctionCode_decode (Z.land raw (Z.land (Z.lnot EXCEPTION_FLAG) 255));
      Ok (mkExceptionResponse function (ExceptionCode_decode code))
  | _ => Err (InvalidLength ExceptionResponse_PDU_LEN (len pdu))
  end.

(** [ExceptionResponse::encode_into]. *)
Definition ExceptionResponse_encode_into (self : ExceptionResponse) : W unit :=
  function ← liftW (FunctionCode_encode (er_function self));
  exception ← liftW (ExceptionCode_encode (er_exception self));
  push (Z.lor function EXCEPTION_FLAG);;
  push exception.

(** [ExceptionResponse::encode]. *)
Definition ExceptionResponse_encode (self : ExceptionResponse) : Result (list Z) :=
  let '(r, out) := ExceptionResponse_encode_into self [] in _ ← r; Ok out.

#[export] Instance Wf_ExceptionCode : Wf ExceptionCode :=
  λ c, match c with EC_Other b => is_u8 b | _ => True end.
#[export] Instance Wf_ExceptionResponse : Wf ExceptionResponse :=
  λ r, wf (er_function r) ∧ wf (er_exception r).

(** ** Laws *)

Lemma ExceptionCode_decode_encode b : ExceptionCode_encode (ExceptionCode_decode b) = Ok b.
Proof.
  unfold ExceptionCode_decode.
  destruct (table_find ExceptionCode_NAMED b) as [c|] eqn:Hf; cbn [default].
  - apply table_find_some in Hf. simpl in Hf.
    repeat destruct Hf as [[= <- <-]|Hf]; [reflexivity..|done].
  - cbn [ExceptionCode_encode]. by rewrite table_find_none.
Qed.

Lemma ExceptionCode_encode_decode b c :
  ExceptionCode_encode c = Ok b → ExceptionCode_decode b = c.
Proof.
  destruct c as [| | | | | | | | |x]; try (intros [= <-]; reflexivity).
  unfold ExceptionCode_decode. cbn [ExceptionCode_encode].
  destruct (table_any ExceptionCode_NAMED x) eqn:Ha; [done|]. intros [= <-].
  destruct (table_find ExceptionCode_NAMED x) as [c|] eqn:Hf; [|done].
  apply table_find_some in Hf. exfalso. unfold table_any in Ha.
  rewrite <- not_true_iff_false, existsb_exists in Ha. apply Ha.
  exists (x, c). simpl. by rewrite Z.eqb_refl.
Qed.

(** The flag bit and the seven bits below it. *)
Lemma exception_flag_split raw :
  is_u8 raw → Z.land raw EXCEPTION_FLAG ≠ 0 →
  Z.lor (Z.land raw (Z.land (Z.lnot EXCEPTION_FLAG) 255)) EXCEPTION_FLAG = raw.
Proof.
  intros Hraw Hf.
  pose proof (byte_forall (λ raw, (Z.land raw EXCEPTION_FLAG =? 0) ||
    (Z.lor (Z.land raw (Z.land (Z.lnot EXCEPTION_FLAG) 255)) EXCEPTION_FLAG =? raw))
    ltac:(vm_compute; reflexivity) raw Hraw) as H.
  cbv beta in H. apply orb_true_iff in H as [H|H]; split_guards; done.
Qed.

Lemma exception_flag_join b :
  1 ≤ b ≤ 127 → Z.land (Z.lor b EXCEPTION_FLAG) EXCEPTION_FLAG ≠ 0 ∧
  Z.land (Z.lor b EXCEPTION_FLAG) (Z.land (Z.lnot EXCEPTION_FLAG) 255) = b ∧
  is_u8 (Z.lor b EXCEPTION_FLAG).
Proof.
  intros Hb.
  pose proof (byte_forall (λ b, (127 <? b) ||
    (negb (Z.land (Z.lor b EXCEPTION_FLAG) EXCEPTION_FLAG =? 0) &&
     (Z.land (Z.lor b EXCEPTION_FLAG) (Z.land (Z.lnot EXCEPTION_FLAG) 255) =? b) &&
     (0 <=? Z.lor b EXCEPTION_FLAG) && (Z.lor b EXCEPTION_FLAG <=? 255)))
    ltac:(vm_compute; reflexivity) b ltac:(unfold is_u8; lia)) as H.
  cbv beta in H. apply orb_true_iff in H as [H|H]; split_guards; [lia|].
  unfold is_u8. lia.
Qed.

Lemma ExceptionResponse_encode_into_spec r out :
  ExceptionResponse_encode_into r out =
  match FunctionCode_encode (er_function r), ExceptionCode_encode (er_exception r) with
  | Ok f, Ok e => (Ok tt, out ++ [Z.lor f EXCEPTION_FLAG; e])
  | Ok _, Err e => (Err e, out)
  | Err e, _ => (Err e, out)
  | _, _ => (Panic, out)
  end.
Proof.
  unfold ExceptionResponse_encode_into. rewrite W_bind_run. unfold liftW at 1.
  destruct (FunctionCode_encode (er_function r)) as [f|e|]; [|done..].
  rewrite W_bind_run. unfold liftW at 1.
  destruct (ExceptionCode_encode (er_exception r)) as [x|e|]; [|done..].
  unfold push. rewrite W_bind_run. by rewrite <- app_assoc.
Qed.

Lemma ExceptionCode_encode_u8 c b : wf c → ExceptionCode_encode c = Ok b → is_u8 b.
Proof.
  destruct c as [| | | | | | | | |x]; try (intros _ [= <-]; by apply is_u8_lit).
  simpl. intros Hx. case_match; [done|]. by intros [= <-].
Qed.

Lemma ExceptionCode_decode_wf b : is_u8 b → wf (ExceptionCode_decode b).
Proof.
  intros Hb. unfold ExceptionCode_decode.
  destruct (table_find ExceptionCode_NAMED b) as [c|] eqn:Hf; [|done].
  apply table_find_some in Hf. simpl in Hf.
  by repeat destruct Hf as [[= <- <-]|Hf].
Qed.
