(* ===== verification/Diagnostics.v ===== *)
(** * Diagnostic sub-functions ([src/frame/diagnostics.rs]) *)

From S2P Require Import Prelude.
From S2P Require Import Errors.
From S2P Require Import Value.
From S2P Require Import Function.

Inductive DiagnosticSubFunction :=
  | DS_ReturnQueryData
  | DS_RestartCommunicationsOption
  | DS_ReturnDiagnosticRegister
  | DS_ChangeAsciiInputDelimiter
  | DS_ForceListenOnlyMode
  | DS_ClearCountersAndDiagnosticRegister
  | DS_ReturnBusMessageCount
  | DS_ReturnBusCommunicationErrorCount
  | DS_ReturnBusExceptionErrorCount
  | DS_ReturnServerMessageCount
  | DS_ReturnServerNoResponseCount
  | DS_ReturnServerNakCount
  | DS_ReturnServerBusyCount
  | DS_ReturnBusCharacterOverrunCount
  | DS_ClearOverrunCounterAndFlag
  | DS_Other (raw : Z).

#[export] Instance DiagnosticSubFunction_eq_dec : EqDecision DiagnosticSubFunction.
Proof. solve_decision. Defined.

(** [DiagnosticSubFunction::NAMED]. *)
Definition DiagnosticSubFunction_NAMED : list (Z * DiagnosticSubFunction) :=
  [(0, DS_ReturnQueryData); (1, DS_RestartCommunicationsOption);
   (2, DS_ReturnDiagnosticRegister); (3, DS_ChangeAsciiInputDelimiter);
   (4, DS_ForceListenOnlyMode); (10, DS_ClearCountersAndDiagnosticRegister);
   (11, DS_ReturnBusMessageCount); (12, DS_ReturnBusCommunicationErrorCount);
   (13, DS_ReturnBusExceptionErrorCount); (14, DS_ReturnServerMessageCount);
   (15, DS_ReturnServerNoResponseCount); (16, DS_ReturnServerNakCount);
   (17, DS_ReturnServerBusyCount); (18, DS_ReturnBusCharacterOverrunCount);
   (20, DS_ClearOverrunCounterAndFlag)].

(** [DiagnosticSubFunction::decode]. *)
Definition DiagnosticSubFunction_decode (raw : Z) : DiagnosticSubFunction :=
  default (DS_Other raw) (table_find DiagnosticSubFunction_NAMED raw).

(** [as_u8]. *)
Definition diag_as_u8 (raw : Z) : Z := unwrap_or U8_MAX (u8_try_from raw).

(** [DiagnosticSubFunction::encode]. *)
Definition DiagnosticSubFunction_encode (s : DiagnosticSubFunction) : Result Z :=
  match s with
  | DS_ReturnQueryData => Ok 0
  | DS_RestartCommunicationsOption => Ok 1
  | DS_ReturnDiagnosticRegister => Ok 2
  | DS_ChangeAsciiInputDelimiter => Ok 3
  | DS_ForceListenOnlyMode => Ok 4
  | DS_ClearCountersAndDiagnosticRegister => Ok 10
  | DS_ReturnBusMessageCount => Ok 11
  | DS_ReturnBusCommunicationErrorCount => Ok 12
  | DS_ReturnBusExceptionErrorCount => Ok 13
  | DS_ReturnServerMessageCount => Ok 14
  | DS_ReturnServerNoResponseCount => Ok 15
  | DS_ReturnServerNakCount => Ok 16
  | DS_ReturnServerBusyCount => Ok 17
  | DS_ReturnBusCharacterOverrunCount => Ok 18
  | DS_ClearOverrunCounterAndFlag => Ok 20
  | DS_Other raw =>
      if table_any DiagnosticSubFunction_NAMED raw then Err (ReservedCode (diag_as_u8 raw))
      else Ok raw
  end.

#[export] Instance Wf_DiagnosticSubFunction : Wf DiagnosticSubFunction :=
  λ s, match s with DS_Other raw => is_u16 raw | _ => True end.

(** ** Laws *)

Lemma DiagnosticSubFunction_decode_encode raw :
  DiagnosticSubFunction_encode (DiagnosticSubFunction_decode raw) = Ok raw.
Proof.
  unfold DiagnosticSubFunction_decode.
  destruct (table_find DiagnosticSubFunction_NAMED raw) as [c|] eqn:Hf; cbn [default].
  - apply table_find_some in Hf. simpl in Hf.
    repeat destruct Hf as [[= <- <-]|Hf]; [reflexivity..|done].
  - cbn [DiagnosticSubFunction_encode]. by rewrite table_find_none.
Qed.

Lemma DiagnosticSubFunction_encode_decode s raw :
  DiagnosticSubFunction_encode s = Ok raw → DiagnosticSubFunction_decode raw = s.
Proof.
  destruct s as [| | | | | | | | | | | | | | |x]; try (intros [= <-]; reflexivity).
  unfold DiagnosticSubFunction_decode. cbn [DiagnosticSubFunction_encode].
  destruct (table_any DiagnosticSubFunction_NAMED x) eqn:Ha; [done|]. intros [= <-].
  destruct (table_find DiagnosticSubFunction_NAMED x) as [c|] eqn:Hf; [|done].
  apply table_find_some in Hf. exfalso. unfold table_any in Ha.
  rewrite <- not_true_iff_false, existsb_exists in Ha. apply Ha.
  exists (x, c). simpl. by rewrite Z.eqb_refl.
Qed.

Lemma DiagnosticSubFunction_decode_wf raw :
  is_u16 raw → wf (DiagnosticSubFunction_decode raw).
Proof.
  intros Hraw. unfold DiagnosticSubFunction_decode.
  destruct (table_find DiagnosticSubFunction_NAMED raw) as [c|] eqn:Hf; [|done].
  apply table_find_some in Hf. simpl in Hf. by repeat destruct Hf as [[= <- <-]|Hf].
Qed.

Lemma DiagnosticSubFunction_encode_u16 s raw :
  wf s → DiagnosticSubFunction_encode s = Ok raw → is_u16 raw.
Proof.
  destruct s as [| | | | | | | | | | | | | | |x]; try (intros _ [= <-]; unfold is_u16; lia).
  simpl. intros Hx. case_match; [done|]. by intros [= <-].
Qed.
