(* ===== verification/Wire.v ===== *)
(** * Bits, words and registers on the wire (helpers of [src/frame/pdu.rs])

    The conversions between values and bytes that the PDU and file-record
    encoders share, with the pure byte strings they denote. *)

From S2P Require Import Prelude.
From S2P Require Import Errors.
From S2P Require Import Value.

(** A [for] loop that writes into the buffer, stopping at the first failure. *)
Fixpoint W_for {A} (l : list A) (f : A → W unit) : W unit :=
  match l with
  | [] => mret tt
  | x :: l' => f x;; W_for l' f
  end.

(** [bits_from_bytes]. *)
Definition bits_from_bytes (bytes : list Z) : list bool :=
  flat_map (λ byte, (λ bit, negb (Z.land byte (Z.shiftl 1 bit) =? 0)) <$> zrange 8) bytes.

(** [bit_width], [packed_len] and [register_width]. *)
Definition bit_width (quantity : Z) : Z := div_ceil quantity 8.
Definition packed_len (count : Z) : Z := div_ceil count 8.
Definition register_width (quantity : Z) : Z := quantity * 2.

(** [words_from_bytes] and [registers_from_bytes]. *)
Definition words_from_bytes (data : list Z) : list Z :=
  (λ c, u16_from_be (fst c) (snd c)) <$> as_chunks2 data.

Definition registers_from_bytes (data : list Z) : list RegisterValue :=
  (λ c, mkRegisterValue (u16_from_be (fst c) (snd c))) <$> as_chunks2 data.

(** [push_registers] and [push_words]. *)
Definition push_registers (registers : list RegisterValue) : W unit :=
  W_for registers (λ register, extend_from_slice (u16_to_be (register_value_0 register))).

Definition push_words (words : list Z) : W unit :=
  W_for words (λ word, extend_from_slice (u16_to_be word)).

(** One byte of [push_bits]: the fold over the set bits of a chunk. *)
Definition pack_byte (chunk : list bool) : Z :=
  fold_left (λ byte e, Z.lor byte (Z.shiftl 1 (Z.of_nat (fst e))))
    (List.filter snd (imap pair chunk)) 0.

(** [push_bits]. *)
Definition push_bits (bits : list bool) : W unit :=
  W_for (chunks 8 bits) (λ chunk, push (pack_byte chunk)).

(** The byte strings these loops write. *)
Definition words_bytes (words : list Z) : list Z := mjoin (u16_to_be <$> words).
Definition registers_bytes (registers : list RegisterValue) : list Z :=
  words_bytes (register_value_0 <$> registers).
Definition bits_bytes (bits : list bool) : list Z := pack_byte <$> chunks 8 bits.

Arguments words_bytes : simpl never.
Arguments registers_bytes : simpl never.
Arguments bits_bytes : simpl never.

#[export] Instance Wf_list {A} `{Wf A} : Wf (list A) := Forall wf.

(** ** Writing loops *)

Lemma W_for_extend {A} (l : list A) (f : A → list Z) (g : A → W unit) out :
  (∀ x out, g x out = (Ok tt, out ++ f x)) →
  W_for l g out = (Ok tt, out ++ mjoin (f <$> l)).
Proof.
  intros Hg. revert out. induction l as [|x l IH]; intros out; cbn [W_for].
  - unfold mret, W_ret. cbn. by rewrite app_nil_r.
  - rewrite W_bind_run, Hg, IH. cbn. by rewrite app_assoc.
Qed.

Lemma push_words_spec ws out : push_words ws out = (Ok tt, out ++ words_bytes ws).
Proof. by apply W_for_extend. Qed.

Lemma push_registers_spec rs out :
  push_registers rs out = (Ok tt, out ++ registers_bytes rs).
Proof.
  unfold push_registers, registers_bytes, words_bytes.
  rewrite <- list_fmap_compose. by apply W_for_extend.
Qed.

Lemma mjoin_singletons {A B} (f : A → B) l : mjoin ((λ x, [f x]) <$> l) = f <$> l.
Proof. induction l as [|x l IH]; [done|]. cbn. f_equal. exact IH. Qed.

Lemma push_bits_spec bits out : push_bits bits out = (Ok tt, out ++ bits_bytes bits).
Proof.
  unfold push_bits, bits_bytes. rewrite <- mjoin_singletons. by apply W_for_extend.
Qed.

(** ** Words *)

Lemma words_bytes_cons w ws : words_bytes (w :: ws) = u16_to_be w ++ words_bytes ws.
Proof. done. Qed.

Lemma len_words_bytes ws : len (words_bytes ws) = 2 * len ws.
Proof.
  induction ws as [|w ws IH]; [done|]. rewrite words_bytes_cons. len_lia.
Qed.

Lemma len_registers_bytes rs : len (registers_bytes rs) = 2 * len rs.
Proof. unfold registers_bytes. by rewrite len_words_bytes, len_fmap. Qed.

#[export] Hint Rewrite len_words_bytes len_registers_bytes : len.

Lemma words_from_words_bytes ws : words_from_bytes (words_bytes ws) = ws.
Proof.
  induction ws as [|w ws IH]; [done|].
  change (u16_from_be (w / 256) (w mod 256) :: words_from_bytes (words_bytes ws) = w :: ws).
  by rewrite u16_from_to_be, IH.
Qed.

Lemma registers_from_words data :
  registers_from_bytes data = mkRegisterValue <$> words_from_bytes data.
Proof. unfold registers_from_bytes, words_from_bytes. by rewrite <- list_fmap_compose. Qed.

Lemma registers_from_registers_bytes rs : registers_from_bytes (registers_bytes rs) = rs.
Proof.
  rewrite registers_from_words. unfold registers_bytes. rewrite words_from_words_bytes.
  rewrite <- list_fmap_compose. rewrite <- (list_fmap_id rs) at 2.
  apply list_fmap_ext. by intros ? [] ?.
Qed.

(** Two-step induction on lists, the shape of [as_chunks::<2>]. *)
Lemma list_pair_ind {A} (Q : list A → Prop) :
  Q [] → (∀ x, Q [x]) → (∀ x y l, Q l → Q (x :: y :: l)) → ∀ l, Q l.
Proof.
  intros H0 H1 H2. fix IH 1. intros [|x [|y l]]; [done|done|]. apply H2, IH.
Qed.

Lemma words_bytes_from_bytes data :
  bytes_ok data → len data mod 2 = 0 →
  words_bytes (words_from_bytes data) = data ∧ Forall is_u16 (words_from_bytes data).
Proof.
  induction data as [|x|x y l IH] using list_pair_ind; intros Hb He.
  - by repeat constructor.
  - discriminate He.
  - apply bytes_ok_cons_inv in Hb as [Hx Hb]. apply bytes_ok_cons_inv in Hb as [Hy Hb].
    destruct IH as [IH1 IH2]; [done| |].
    { rewrite <- He, !len_cons. replace (1 + (1 + len l)) with (len l + 1 * 2) by lia.
      by rewrite Z.mod_add. }
    change (words_from_bytes (x :: y :: l)) with (u16_from_be x y :: words_from_bytes l).
    rewrite words_bytes_cons, u16_to_from_be, IH1 by done. split; [done|].
    constructor; [|done]. by apply u16_from_be_range.
Qed.

Lemma len_words_from_bytes data : len (words_from_bytes data) = len data / 2.
Proof.
  induction data as [|x|x y l IH] using list_pair_ind; [done|done|].
  change (words_from_bytes (x :: y :: l)) with (u16_from_be x y :: words_from_bytes l).
  rewrite !len_cons, IH. replace (1 + (1 + len l)) with (len l + 1 * 2) by lia.
  rewrite Z.div_add by lia. lia.
Qed.

Lemma registers_bytes_from_bytes data :
  bytes_ok data → len data mod 2 = 0 →
  registers_bytes (registers_from_bytes data) = data ∧ wf (registers_from_bytes data).
Proof.
  intros Hb He. rewrite registers_from_words. unfold registers_bytes.
  destruct (words_bytes_from_bytes data Hb He) as [H1 H2].
  rewrite <- list_fmap_compose. unfold compose. cbn. rewrite list_fmap_id. split; [done|].
  unfold wf, Wf_list. apply Forall_fmap. eapply Forall_impl; [exact H2|]. done.
Qed.

Lemma len_registers_from_bytes data : len (registers_from_bytes data) = len data / 2.
Proof. rewrite registers_from_words, len_fmap. apply len_words_from_bytes. Qed.

Lemma words_bytes_ok ws : Forall is_u16 ws → bytes_ok (words_bytes ws).
Proof.
  induction 1; [constructor|]. rewrite words_bytes_cons. auto with bytes.
Qed.

Lemma registers_bytes_ok (rs : list RegisterValue) : wf rs → bytes_ok (registers_bytes rs).
Proof.
  intros H. apply words_bytes_ok, Forall_fmap. exact H.
Qed.

#[export] Hint Resolve words_bytes_ok registers_bytes_ok : bytes.

(** ** Bits *)

(** The eight bits of one byte. *)
Definition byte_bits (b : Z) : list bool :=
  (λ bit, negb (Z.land b (Z.shiftl 1 bit) =? 0)) <$> zrange 8.

Lemma bits_from_bytes_cons b bs : bits_from_bytes (b :: bs) = byte_bits b ++ bits_from_bytes bs.
Proof. done. Qed.

Lemma length_byte_bits b : length (byte_bits b) = 8%nat.
Proof. done. Qed.

Lemma len_bits_from_bytes bs : len (bits_from_bytes bs) = 8 * len bs.
Proof.
  induction bs as [|b bs IH]; [done|]. rewrite bits_from_bytes_cons.
  rewrite len_app, len_cons, IH. unfold len at 1. rewrite length_byte_bits. lia.
Qed.

#[export] Hint Rewrite len_bits_from_bytes : len.

Lemma pack_byte_bits b : is_u8 b → pack_byte (byte_bits b) = b.
Proof.
  intros Hb. apply Z.eqb_eq.
  exact (byte_forall (λ b, pack_byte (byte_bits b) =? b) ltac:(vm_compute; reflexivity) b Hb).
Qed.

(** Every bit string of at most [n] bits, to check a fact by evaluation. *)
Fixpoint bit_strings (n : nat) : list (list bool) :=
  match n with
  | O => [[]]
  | S n' => [] :: flat_map (λ l, [true :: l; false :: l]) (bit_strings n')
  end.

Lemma bit_strings_complete l n : (length l ≤ n)%nat → In l (bit_strings n).
Proof.
  revert n. induction l as [|b l IH]; intros n Hn; [destruct n; simpl; auto|].
  destruct n as [|n]; [simpl in Hn; lia|]. simpl. right. apply in_flat_map.
  exists l. split; [apply IH; simpl in Hn; lia|]. destruct b; simpl; auto.
Qed.

(** Packing then unpacking one chunk pads it with zeros to eight bits. *)
Lemma byte_bits_pack chunk :
  (length chunk ≤ 8)%nat →
  byte_bits (pack_byte chunk) = chunk ++ replicate (8 - length chunk) false ∧
  is_u8 (pack_byte chunk).
Proof.
  intros Hl%bit_strings_complete.
  assert (forallb (λ c, bool_decide (byte_bits (pack_byte c) =
      c ++ replicate (8 - length c) false ∧ is_u8 (pack_byte c))) (bit_strings 8) = true)
    as Hall by (vm_compute; reflexivity).
  rewrite forallb_forall in Hall. apply Hall in Hl. by apply bool_decide_eq_true in Hl.
Qed.

Lemma bits_bytes_nil : bits_bytes [] = [].
Proof. done. Qed.

Lemma bits_bytes_cons bits :
  bits ≠ [] → bits_bytes bits = pack_byte (take 8 bits) :: bits_bytes (drop 8 bits).
Proof. intros. unfold bits_bytes. rewrite chunks_cons by (done || lia). done. Qed.

(** Strong induction on bit strings, eight at a time. *)
Lemma bits_ind (Q : list bool → Prop) :
  Q [] → (∀ bits, bits ≠ [] → Q (drop 8 bits) → Q bits) → ∀ bits, Q bits.
Proof.
  intros H0 H1 bits. remember (length bits) as n eqn:Hn.
  revert bits Hn. induction n as [n IH] using lt_wf_ind. intros bits ->.
  destruct bits as [|b bits]; [done|]. apply H1; [done|].
  eapply IH; [|reflexivity]. rewrite length_drop. simpl. lia.
Qed.

Lemma len_bits_bytes bits : len (bits_bytes bits) = packed_len (len bits).
Proof.
  induction bits as [|bits Hne IH] using bits_ind; [done|].
  rewrite bits_bytes_cons, len_cons, IH, len_drop by done. unfold packed_len, div_ceil.
  pose proof (len_nonneg bits). destruct (Z.le_gt_cases (len bits) 8).
  - assert (0 < len bits) by (destruct bits; [done|len_lia]).
    replace (Z.max 0 (len bits - Z.of_nat 8)) with 0 by lia.
    replace (len bits + 8 - 1) with (len bits - 1 + 1 * 8) by lia.
    rewrite Z.div_add, (Z.div_small (len bits - 1)) by lia. done.
  - replace (Z.max 0 (len bits - Z.of_nat 8)) with (len bits - 8) by lia.
    replace (len bits + 8 - 1) with (len bits - 8 + 8 - 1 + 1 * 8) by lia.
    rewrite Z.div_add by lia. lia.
Qed.

#[export] Hint Rewrite len_bits_bytes : len.

Lemma bits_bytes_ok bits : bytes_ok (bits_bytes bits).
Proof.
  induction bits as [|bits Hne IH] using bits_ind; [constructor|].
  rewrite bits_bytes_cons by done. apply bytes_ok_cons; [|done].
  apply byte_bits_pack. rewrite length_take. lia.
Qed.

#[export] Hint Resolve bits_bytes_ok : bytes.

(** Unpacking what was packed restores the bits, padded with zeros to a whole
    number of bytes. *)
Lemma bits_from_bits_bytes bits :
  bits_from_bytes (bits_bytes bits) =
  bits ++ replicate (Z.to_nat (8 * packed_len (len bits) - len bits)) false.
Proof.
  induction bits as [|bits Hne IH] using bits_ind; [done|].
  rewrite bits_bytes_cons, bits_from_bytes_cons by done.
  destruct (byte_bits_pack (take 8 bits)) as [-> _]; [rewrite length_take; lia|].
  rewrite length_take. destruct (decide (8 ≤ length bits)%nat) as [Hle|Hgt].
  - replace (8 - (8 `min` length bits))%nat with 0%nat by lia. simpl replicate.
    rewrite app_nil_r, IH, app_assoc, take_drop. f_equal. f_equal.
    assert (packed_len (len bits) = 1 + packed_len (len (drop 8 bits))) as ->.
    { rewrite <- !len_bits_bytes, bits_bytes_cons by done. by rewrite len_cons. }
    rewrite len_drop. unfold len. lia.
  - rewrite take_ge, drop_ge by lia. rewrite bits_bytes_nil. simpl bits_from_bytes.
    rewrite app_nil_r. f_equal. f_equal.
    rewrite <- len_bits_bytes, bits_bytes_cons, drop_ge, bits_bytes_nil by (done || lia).
    rewrite len_cons, len_nil. unfold len. lia.
Qed.

(** Packing what was unpacked restores the bytes. *)
Lemma bits_bytes_from_bytes bs : bytes_ok bs → bits_bytes (bits_from_bytes bs) = bs.
Proof.
  induction 1 as [|b bs Hb Hbs IH]; [done|].
  rewrite bits_from_bytes_cons, bits_bytes_cons by done.
  rewrite take_app_le, drop_app_le by (rewrite length_byte_bits; lia).
  change (take 8 (byte_bits b)) with (byte_bits b).
  rewrite pack_byte_bits by done. f_equal. exact IH.
Qed.

(** A whole number of bytes loses nothing to padding. *)
Lemma bits_from_bits_bytes_exact bits :
  len bits mod 8 = 0 → bits_from_bytes (bits_bytes bits) = bits.
Proof.
  intros Hm. rewrite bits_from_bits_bytes.
  assert (8 * packed_len (len bits) - len bits = 0) as ->; [|apply app_nil_r].
  unfold packed_len, div_ceil.
  assert (len bits = 8 * (len bits / 8)) as Hd by (pose proof (Z.div_mod (len bits) 8); lia).
  replace (len bits + 8 - 1) with (7 + (len bits / 8) * 8) by lia.
  rewrite Z.div_add by lia. change (7 / 8) with 0. lia.
Qed.

(** The padding a packed body of [q] bits carries is less than one byte. *)
Lemma packed_len_bounds q : 0 ≤ q → q ≤ 8 * packed_len q < q + 8.
Proof.
  intros Hq. unfold packed_len, div_ceil. pose proof (Z.div_mod (q + 8 - 1) 8).
  pose proof (Z.mod_pos_bound (q + 8 - 1) 8). lia.
Qed.
