(* ===== verification/Mei.v ===== *)
(** * Encapsulated Interface Transport bodies ([src/frame/mei.rs]) *)

From S2P Require Import Prelude.
From S2P Require Import Errors.
From S2P Require Import Parse.
From S2P Require Import Value.
From S2P Require Import Wire.

Definition MEI_CANOPEN : Z := 13.
Definition MEI_READ_DEVICE_ID : Z := 14.

Inductive ReadDeviceIdCode := RDI_Basic | RDI_Regular | RDI_Extended | RDI_Individual.

Record DeviceIdObject := mkDeviceIdObject { object_id : Z; object_value : list Z }.

Inductive MeiRequest :=
  | MeiReq_CanOpen (data : list Z)
  | MeiReq_ReadDeviceIdentification (read_device_id_code : ReadDeviceIdCode) (object_id : Z)
  | MeiReq_Other (mei_type : Z) (data : list Z).

Inductive MeiResponse :=
  | MeiResp_CanOpen (data : list Z)
  | MeiResp_ReadDeviceIdentification (read_device_id_code : ReadDeviceIdCode)
      (conformity_level : Z) (more_follows : bool) (next_object_id : Z)
      (objects : list DeviceIdObject)
  | MeiResp_Other (mei_type : Z) (data : list Z).

#[export] Instance ReadDeviceIdCode_eq_dec : EqDecision ReadDeviceIdCode.
Proof. solve_decision. Defined.
#[export] Instance DeviceIdObject_eq_dec : EqDecision DeviceIdObject.
Proof. solve_decision. Defined.
#[export] Instance MeiRequest_eq_dec : EqDecision MeiRequest.
Proof. solve_decision. Defined.
#[export] Instance MeiResponse_eq_dec : EqDecision MeiResponse.
Proof. solve_decision. Defined.

Definition MORE_FOLLOWS_NO : Z := 0x00.
Definition MORE_FOLLOWS_YES : Z := 0xFF.

(** [ReadDeviceIdCode::decode] and [encode]. *)
Definition ReadDeviceIdCode_decode (raw : Z) : Result ReadDeviceIdCode :=
  if raw =? 1 then Ok RDI_Basic
  else if raw =? 2 then Ok RDI_Regular
  else if raw =? 3 then Ok RDI_Extended
  else if raw =? 4 then Ok RDI_Individual
  else Err (OutOfRange "read device id code" raw 1 4).

Definition ReadDeviceIdCode_encode (c : ReadDeviceIdCode) : Z :=
  match c with
  | RDI_Basic => 1
  | RDI_Regular => 2
  | RDI_Extended => 3
  | RDI_Individual => 4
  end.

Section decode.
Context {w : Winnow}.

(** [opaque]. *)
Definition mei_opaque : P (list Z) := data ← rest; mret data.

(** [decode_request]. *)
Definition mei_decode_request : P MeiRequest :=
  mei_type ← be_u8;
  if mei_type =? MEI_CANOPEN then data ← mei_opaque; mret (MeiReq_CanOpen data)
  else if mei_type =? MEI_READ_DEVICE_ID then
    raw ← be_u8;
    read_device_id_code ← lift (ReadDeviceIdCode_decode raw);
    object_id ← be_u8;
    mret (MeiReq_ReadDeviceIdentification read_device_id_code object_id)
  else data ← mei_opaque; mret (MeiReq_Other mei_type data).

(** [parse_object]. *)
Definition parse_object : P DeviceIdObject :=
  id ← be_u8;
  length ← be_u8;
  value ← take_bytes length;
  mret (mkDeviceIdObject id value).

(** The [more_follows] byte of [decode_device_identification]. *)
Definition decode_more_follows (more : Z) : P bool :=
  if more =? MORE_FOLLOWS_NO then mret false
  else if more =? MORE_FOLLOWS_YES then mret true
  else fail (IllegalValue "more follows" more).

(** [decode_device_identification]. *)
Definition decode_device_identification : P MeiResponse :=
  raw ← be_u8;
  read_device_id_code ← lift (ReadDeviceIdCode_decode raw);
  conformity_level ← be_u8;
  more ← be_u8;
  more_follows ← decode_more_follows more;
  next_object_id ← be_u8;
  object_count ← be_u8;
  body ← rest;
  objects ← lift (run_all body parse_object);
  if negb (len objects =? object_count)
  then fail (ByteCountMismatch object_count (len objects))
  else mret (MeiResp_ReadDeviceIdentification read_device_id_code conformity_level
               more_follows next_object_id objects).

(** [decode_response]. *)
Definition mei_decode_response : P MeiResponse :=
  mei_type ← be_u8;
  if mei_type =? MEI_CANOPEN then data ← mei_opaque; mret (MeiResp_CanOpen data)
  else if mei_type =? MEI_READ_DEVICE_ID then decode_device_identification
  else data ← mei_opaque; mret (MeiResp_Other mei_type data).
End decode.

(** [opaque_body_into]. *)
Definition opaque_body_into (mei_type : Z) (data : list Z) : W unit :=
  push mei_type;; extend_from_slice data.

(** [encode_request_into]. *)
Definition mei_encode_request_into (request : MeiRequest) : W unit :=
  match request with
  | MeiReq_CanOpen data => opaque_body_into MEI_CANOPEN data
  | MeiReq_ReadDeviceIdentification read_device_id_code object_id =>
      push MEI_READ_DEVICE_ID;;
      push (ReadDeviceIdCode_encode read_device_id_code);;
      push object_id
  | MeiReq_Other mei_type data => opaque_body_into mei_type data
  end.

(** [u8::try_from(n).map_err(|_| OutOfRange { .. })] of a length. *)
Definition length_byte (field : string) (n : Z) : Result Z :=
  ok_or (OutOfRange field (unwrap_or U32_MAX (u32_try_from n)) 0 U8_MAX) (u8_try_from n).

(** The loop body of [encode_response_into]: one object. *)
Definition encode_object_into (object : DeviceIdObject) : W unit :=
  length ← liftW (length_byte "object length" (len (object_value object)));
  push (object_id object);;
  push length;;
  extend_from_slice (object_value object).

(** [encode_response_into]. *)
Definition mei_encode_response_into (response : MeiResponse) : W unit :=
  match response with
  | MeiResp_CanOpen data => opaque_body_into MEI_CANOPEN data
  | MeiResp_ReadDeviceIdentification read_device_id_code conformity_level more_follows
      next_object_id objects =>
      count ← liftW (length_byte "object count" (len objects));
      push MEI_READ_DEVICE_ID;;
      push (ReadDeviceIdCode_encode read_device_id_code);;
      push conformity_level;;
      push (if (more_follows : bool) then MORE_FOLLOWS_YES else MORE_FOLLOWS_NO);;
      push next_object_id;;
      push count;;
      W_for objects encode_object_into
  | MeiResp_Other mei_type data => opaque_body_into mei_type data
  end.

(** ** The wire layout

    The byte string each body denotes, or the error its encoding raises. *)

Definition mei_request_bytes (r : MeiRequest) : list Z :=
  match r with
  | MeiReq_CanOpen data => MEI_CANOPEN :: data
  | MeiReq_ReadDeviceIdentification c o => [MEI_READ_DEVICE_ID; ReadDeviceIdCode_encode c; o]
  | MeiReq_Other t data => t :: data
  end.

Definition object_bytes (o : DeviceIdObject) : Result (list Z) :=
  l ← length_byte "object length" (len (object_value o));
  Ok (object_id o :: l :: object_value o).

Definition mei_response_bytes (r : MeiResponse) : Result (list Z) :=
  match r with
  | MeiResp_CanOpen data => Ok (MEI_CANOPEN :: data)
  | MeiResp_ReadDeviceIdentification c l m n os =>
      count ← length_byte "object count" (len os);
      objects ← mapM object_bytes os;
      Ok ([MEI_READ_DEVICE_ID; ReadDeviceIdCode_encode c; l;
           if (m : bool) then MORE_FOLLOWS_YES else MORE_FOLLOWS_NO; n; count] ++ mjoin objects)
  | MeiResp_Other t data => Ok (t :: data)
  end.

(** The width invariants, and the one representation decoding picks: a named
    MEI type is never carried as [Other]. *)
#[export] Instance Wf_DeviceIdObject : Wf DeviceIdObject :=
  λ o, is_u8 (object_id o) ∧ bytes_ok (object_value o).
#[export] Instance Wf_MeiRequest : Wf MeiRequest := λ r,
  match r with
  | MeiReq_CanOpen data => bytes_ok data
  | MeiReq_ReadDeviceIdentification _ o => is_u8 o
  | MeiReq_Other t data => is_u8 t ∧ bytes_ok data
  end.
#[export] Instance Wf_MeiResponse : Wf MeiResponse := λ r,
  match r with
  | MeiResp_CanOpen data => bytes_ok data
  | MeiResp_ReadDeviceIdentification _ l _ n os => is_u8 l ∧ is_u8 n ∧ wf os
  | MeiResp_Other t data => is_u8 t ∧ bytes_ok data
  end.

Definition named_mei (t : Z) : bool := (t =? MEI_CANOPEN) || (t =? MEI_READ_DEVICE_ID).

Definition mei_request_canonical (r : MeiRequest) : bool :=
  match r with MeiReq_Other t _ => negb (named_mei t) | _ => true end.
Definition mei_response_canonical (r : MeiResponse) : bool :=
  match r with MeiResp_Other t _ => negb (named_mei t) | _ => true end.

(** ** Writing loops that may fail *)

Lemma Writes_for {A} (l : list A) (f : A → W unit) (g : A → Result (list Z)) :
  (∀ x, Writes (f x) (g x)) → Writes (W_for l f) (mjoin <$> mapM g l).
Proof.
  intros Hf. induction l as [|x l IH]; [apply Writes_ret|]. intros out.
  cbn [W_for]. rewrite W_bind_run. cbn [mapM]. specialize (Hf x out).
  destruct (g x) as [bs|e|]; [|destruct Hf as [p ->]; cbn; by exists p|done].
  rewrite Hf. specialize (IH (out ++ bs)).
  destruct (mapM g l) as [bss|e|]; cbn in *; [|destruct IH as [p ->]; exists (bs ++ p)|done].
  - rewrite IH. cbn. by rewrite app_assoc.
  - by rewrite app_assoc.
Qed.

Lemma length_byte_inv f n l : length_byte f n = Ok l → l = n ∧ n ≤ 255.
Proof.
  unfold length_byte, u8_try_from, U8_MAX. destruct (try_from_max 255 n) eqn:E; [|done].
  apply try_from_max_some in E as [-> ?]. by intros [= <-].
Qed.

Lemma length_byte_ok f n : n ≤ 255 → length_byte f n = Ok n.
Proof. intros. unfold length_byte, u8_try_from, U8_MAX. by rewrite try_from_max_ok. Qed.

Lemma length_byte_cases f n :
  length_byte f n = Ok n ∨ ∃ e, length_byte f n = Err e.
Proof.
  unfold length_byte, u8_try_from, try_from_max, U8_MAX. destruct (n <=? 255); eauto.
Qed.

(** ** Encoding refines the layout *)

Lemma mei_encode_request_spec r : Writes (mei_encode_request_into r) (Ok (mei_request_bytes r)).
Proof.
  destruct r; intros out; unfold mei_encode_request_into, opaque_body_into; by w_run.
Qed.

Lemma encode_object_spec o : Writes (encode_object_into o) (object_bytes o).
Proof.
  intros out. unfold encode_object_into, object_bytes.
  destruct (length_byte_cases "object length" (len (object_value o))) as [->|[e ->]]; cbn.
  - by w_run.
  - exists []. by rewrite app_nil_r.
Qed.

Lemma mei_encode_response_spec r :
  Writes (mei_encode_response_into r) (mei_response_bytes r).
Proof.
  destruct r as [d|c l m n os|t d]; intros out;
    unfold mei_encode_response_into, mei_response_bytes, opaque_body_into;
    [by w_run| |by w_run].
  destruct (length_byte_cases "object count" (len os)) as [->|[e ->]];
    [|cbn; exists []; by rewrite app_nil_r].
  rewrite Result_bind_ok. w_run.
  pose proof (Writes_for os encode_object_into object_bytes encode_object_spec) as Hf.
  match goal with |- context [W_for os encode_object_into ?o] => specialize (Hf o) end.
  destruct (mapM object_bytes os) as [bss|e|]; cbn in *; [rewrite Hf| |done].
  - by rewrite <- !app_assoc.
  - destruct Hf as [p ->]. eexists. by rewrite <- !app_assoc.
Qed.

(** ** Decoding inverts the layout *)

Lemma ReadDeviceIdCode_encode_decode c :
  ReadDeviceIdCode_decode (ReadDeviceIdCode_encode c) = Ok c.
Proof. by destruct c. Qed.

Lemma ReadDeviceIdCode_decode_encode raw c :
  ReadDeviceIdCode_decode raw = Ok c → ReadDeviceIdCode_encode c = raw.
Proof.
  unfold ReadDeviceIdCode_decode. intros H. res_inv; split_guards; by subst.
Qed.

Lemma object_bytes_inv o bs :
  object_bytes o = Ok bs →
  bs = object_id o :: len (object_value o) :: object_value o ∧ len (object_value o) ≤ 255.
Proof.
  unfold object_bytes. intros H. apply Result_bind_inv in H as (l & Hl & [= <-]).
  by apply length_byte_inv in Hl as [-> ?].
Qed.

(** The layout of an object whose length fits one byte. *)
Definition object_layout (o : DeviceIdObject) : list Z :=
  object_id o :: len (object_value o) :: object_value o.

Lemma object_bytes_layout o :
  len (object_value o) ≤ 255 → object_bytes o = Ok (object_layout o).
Proof. intros H. unfold object_bytes. by rewrite length_byte_ok. Qed.

Lemma mapM_objects_inv os bss :
  mapM object_bytes os = Ok bss →
  bss = object_layout <$> os ∧ Forall (λ o, len (object_value o) ≤ 255) os.
Proof.
  revert bss. induction os as [|o os IH]; intros bss; cbn [mapM].
  - intros [= <-]. by split.
  - intros H. apply Result_bind_inv in H as (b & Hb & H).
    apply Result_bind_inv in H as (bs & Hbs & [= <-]).
    apply object_bytes_inv in Hb as [-> Ho]. apply IH in Hbs as [-> Hos].
    split; [done|by constructor].
Qed.

Lemma mapM_objects_ok os :
  Forall (λ o, len (object_value o) ≤ 255) os →
  mapM object_bytes os = Ok (object_layout <$> os).
Proof.
  induction 1 as [|o os Ho Hos IH]; [done|]. cbn [mapM].
  rewrite object_bytes_layout, Result_bind_ok, IH by done. done.
Qed.

Lemma object_layout_ok o :
  wf o → len (object_value o) ≤ 255 → bytes_ok (object_layout o).
Proof.
  intros [Hi Hv] Hl. unfold object_layout. apply bytes_ok_cons; [done|].
  apply bytes_ok_cons; [|done]. pose proof (len_nonneg (object_value o)). unfold is_u8. lia.
Qed.

Lemma decode_more_follows_run (m : bool) i :
  decode_more_follows (if m then MORE_FOLLOWS_YES else MORE_FOLLOWS_NO) i = POk m i.
Proof. by destruct m. Qed.

Lemma decode_more_follows_inv more i m i' :
  decode_more_follows more i = POk m i' →
  i' = i ∧ (if m then MORE_FOLLOWS_YES else MORE_FOLLOWS_NO) = more.
Proof.
  unfold decode_more_follows. destruct (Z.eqb_spec more MORE_FOLLOWS_NO) as [->|].
  { by intros [= <- <-]. }
  destruct (Z.eqb_spec more MORE_FOLLOWS_YES) as [->|]; [|done]. by intros [= <- <-].
Qed.

Section laws.
Context {w : Winnow} {ws : WinnowSpec w}.

Lemma parse_object_inv i o i' :
  bytes_ok i → parse_object i = POk o i' →
  i = object_layout o ++ i' ∧ (wf o ∧ len (object_value o) ≤ 255) ∧ bytes_ok i'.
Proof.
  intros Hi H. unfold parse_object in H. parse_inv.
  match goal with H : take_bytes _ _ = _ |- _ => apply take_inv in H as [-> <-] end;
    [|match goal with H : is_u8 _ |- _ => by destruct H end].
  match goal with H : bytes_ok (_ ++ _) |- _ => apply bytes_ok_app_inv in H as [? ?] end.
  repeat match goal with H : is_u8 _ |- _ => unfold is_u8 in H end.
  split_and!; try done. cbn. lia.
Qed.

Lemma parse_object_consumes : Consumes parse_object.
Proof.
  intros i v i' Hi H. apply parse_object_inv in H as (-> & _ & ?); [|done].
  split; [|done]. unfold object_layout. len_lia.
Qed.

Lemma parse_object_layout o tl : parse_object (object_layout o ++ tl) = POk o tl.
Proof.
  unfold parse_object, object_layout. cbn [app].
  rewrite P_bind_run, be_u8_some, P_bind_run, be_u8_some, P_bind_run, take_app. by destruct o.
Qed.

(** A response body decodes to the value its layout encodes. *)
Lemma mei_decode_response_bytes r bs :
  wf r → mei_response_canonical r = true → mei_response_bytes r = Ok bs →
  mei_decode_response bs = POk r [].
Proof.
  intros Hwf Hc Hb. unfold mei_decode_response.
  destruct r as [d|c l m n os|t d]; cbn [mei_response_bytes] in Hb.
  - injection Hb as <-. rewrite P_bind_run, be_u8_some. cbn.
    unfold mei_opaque. by rewrite !P_bind_run, rest_all.
  - apply Result_bind_inv in Hb as (n' & [-> Hn]%length_byte_inv & Hb).
    apply Result_bind_inv in Hb as (bss & [-> Hos]%mapM_objects_inv & [= <-]).
    cbn [app]. p_run.
    change (MEI_READ_DEVICE_ID =? MEI_CANOPEN) with false.
    change (MEI_READ_DEVICE_ID =? MEI_READ_DEVICE_ID) with true. cbv iota.
    unfold decode_device_identification. p_run.
    rewrite ReadDeviceIdCode_encode_decode. p_run.
    rewrite decode_more_follows_run. p_run.
    destruct Hwf as (_ & _ & Hwf). unfold run_all.
    rewrite (run_all_concat parse_object object_layout
               (λ o, wf o ∧ len (object_value o) ≤ 255)).
    + cbn. by rewrite Z.eqb_refl.
    + apply parse_object_consumes.
    + intros v tl _. apply parse_object_layout.
    + intros v [? ?]. by apply object_layout_ok.
    + by apply Forall_and.
  - injection Hb as <-. rewrite P_bind_run, be_u8_some.
    cbn in Hc. unfold named_mei in Hc. split_guards.
    destruct (Z.eqb_spec t MEI_CANOPEN), (Z.eqb_spec t MEI_READ_DEVICE_ID); try done.
    unfold mei_opaque. by rewrite !P_bind_run, rest_all.
Qed.

Lemma decode_device_identification_inv i r i' :
  bytes_ok i → decode_device_identification i = POk r i' →
  i' = [] ∧ mei_response_bytes r = Ok ([MEI_READ_DEVICE_ID] ++ i) ∧ wf r ∧
  mei_response_canonical r = true.
Proof.
  intros Hi H. unfold decode_device_identification in H. parse_inv.
  split_guards. subst.
  match goal with H : decode_more_follows _ _ = _ |- _ =>
    apply decode_more_follows_inv in H as [-> <-] end. parse_inv.
  match goal with H : ReadDeviceIdCode_decode _ = _ |- _ =>
    apply ReadDeviceIdCode_decode_encode in H as <- end.
  match goal with H : run_all _ _ = _ |- _ => unfold run_all in H;
    eapply (run_all_loop_inv parse_object object_layout
      (λ o, wf o ∧ len (object_value o) ≤ 255)) in H as (os & Hos & Hb & Hg);
      [|exact parse_object_inv|done] end.
  cbn [app] in Hos. subst. apply Forall_and in Hg as [Hw Hl].
  repeat match goal with H : is_u8 (len _) |- _ => unfold is_u8 in H end.
  split_and!; try done. cbn [mei_response_bytes].
  rewrite length_byte_ok, Result_bind_ok, mapM_objects_ok by (done || lia). done.
Qed.

(** What decodes as a response body is the layout of what it decodes to. *)
Lemma mei_decode_response_inv i r i' :
  bytes_ok i → mei_decode_response i = POk r i' →
  i' = [] ∧ mei_response_bytes r = Ok i ∧ wf r ∧ mei_response_canonical r = true.
Proof.
  intros Hi H. unfold mei_decode_response, mei_opaque in H.
  apply P_bind_inv in H as (t & i1 & H1 & H).
  apply (be_u8_bytes_inv _ _ _ Hi) in H1 as (-> & Ht & Hi1).
  destruct (Z.eqb_spec t MEI_CANOPEN) as [->|Hn1]; [by parse_inv|].
  destruct (Z.eqb_spec t MEI_READ_DEVICE_ID) as [->|Hn2].
  - by apply decode_device_identification_inv.
  - parse_inv. split_and!; try done. cbn. unfold named_mei.
    by rewrite (proj2 (Z.eqb_neq _ _) Hn1), (proj2 (Z.eqb_neq _ _) Hn2).
Qed.

Lemma mei_decode_request_bytes r :
  mei_request_canonical r = true → mei_decode_request (mei_request_bytes r) = POk r [].
Proof.
  intros Hc. unfold mei_decode_request, mei_opaque.
  destruct r as [d|c o|t d]; cbn [mei_request_bytes]; p_run.
  - change (MEI_CANOPEN =? MEI_CANOPEN) with true. cbv iota. by p_run.
  - change (MEI_READ_DEVICE_ID =? MEI_CANOPEN) with false.
    change (MEI_READ_DEVICE_ID =? MEI_READ_DEVICE_ID) with true. cbv iota. p_run.
    rewrite ReadDeviceIdCode_encode_decode. by p_run.
  - cbn in Hc. unfold named_mei in Hc. split_guards.
    destruct (Z.eqb_spec t MEI_CANOPEN), (Z.eqb_spec t MEI_READ_DEVICE_ID); try done.
    by p_run.
Qed.

Lemma mei_decode_request_inv i r i' :
  bytes_ok i → mei_decode_request i = POk r i' →
  i = mei_request_bytes r ++ i' ∧ wf r ∧ mei_request_canonical r = true ∧ bytes_ok i'.
Proof.
  intros Hi H. unfold mei_decode_request, mei_opaque in H.
  apply P_bind_inv in H as (t & i1 & H1 & H).
  apply (be_u8_bytes_inv _ _ _ Hi) in H1 as (-> & Ht & Hi1).
  destruct (Z.eqb_spec t MEI_CANOPEN) as [->|Hn1].
  { parse_inv. cbn. rewrite app_nil_r. auto with bytes. }
  destruct (Z.eqb_spec t MEI_READ_DEVICE_ID) as [->|Hn2].
  - parse_inv. match goal with H : ReadDeviceIdCode_decode _ = _ |- _ =>
      apply ReadDeviceIdCode_decode_encode in H as <- end. done.
  - parse_inv. cbn. rewrite app_nil_r. unfold named_mei.
    rewrite (proj2 (Z.eqb_neq _ _) Hn1), (proj2 (Z.eqb_neq _ _) Hn2). auto with bytes.
Qed.
End laws.
