(* ===== verification/FileRecord.v ===== *)
(** * File record access bodies ([src/frame/file.rs]) *)

From S2P Require Import Prelude.
From S2P Require Import Errors.
From S2P Require Import Parse.
From S2P Require Import Value.
From S2P Require Import Wire.
From S2P Require Import Mei.

Definition REFERENCE_TYPE : Z := 6.
Definition MAX_RECORD_NUMBER : Z := 9999.
Definition READ_SUBREQUEST_LEN : Z := 7.
Definition MIN_READ_BYTE_COUNT : Z := 7.
Definition MAX_READ_BYTE_COUNT : Z := 245.
Definition MIN_READ_DATA_LEN : Z := 7.
Definition MAX_READ_DATA_LEN : Z := 245.
Definition MIN_WRITE_DATA_LEN : Z := 9.
Definition MAX_WRITE_DATA_LEN : Z := 251.

Record FileRecordRead := mkFileRecordRead {
  frr_file_number : FileNumber;
  frr_record_number : RecordNumber;
  frr_record_length : RecordLength;
}.

Record FileRecordReadResponse := mkFileRecordReadResponse {
  frrr_values : list RegisterValue;
}.

Record FileRecordWrite := mkFileRecordWrite {
  frw_file_number : FileNumber;
  frw_record_number : RecordNumber;
  frw_values : list RegisterValue;
}.

#[export] Instance FileRecordRead_eq_dec : EqDecision FileRecordRead.
Proof. solve_decision. Defined.
#[export] Instance FileRecordReadResponse_eq_dec : EqDecision FileRecordReadResponse.
Proof. solve_decision. Defined.
#[export] Instance FileRecordWrite_eq_dec : EqDecision FileRecordWrite.
Proof. solve_decision. Defined.

(** [as_u32] and [as_u16]. *)
Definition as_u32 (len : Z) : Z := unwrap_or U32_MAX (u32_try_from len).
Definition as_u16 (value : Z) : Z := unwrap_or U16_MAX (u16_try_from value).

(** [check_bounds]. *)
Definition check_bounds (field : string) (value min max : Z) : Result unit :=
  if (value <? min) || (max <? value) then Err (OutOfRange field value min max) else Ok tt.

(** [check_numbers]. *)
Definition check_numbers (file_number : FileNumber) (record_number : RecordNumber)
    : Result unit :=
  _ ← check_bounds "file number" (file_number_0 file_number) 1 U16_MAX;
  check_bounds "record number" (record_number_0 record_number) 0 MAX_RECORD_NUMBER.

Section decode.
Context {w : Winnow}.

(** [reference_type]. *)
Definition reference_type : P unit :=
  t ← be_u8;
  if t =? REFERENCE_TYPE then mret tt else fail (ReferenceType t).

(** [region]. *)
Definition region (check : Z → Result unit) : P (list Z) :=
  length ← be_u8;
  _ ← lift (check length);
  take_bytes length.

(** [FileRecordRead::parse]. *)
Definition FileRecordRead_parse : P FileRecordRead :=
  _ ← reference_type;
  file_number ← be_u16;
  record_number ← be_u16;
  record_length ← be_u16;
  _ ← lift (check_numbers (mkFileNumber file_number) (mkRecordNumber record_number));
  mret (mkFileRecordRead (mkFileNumber file_number) (mkRecordNumber record_number)
          (mkRecordLength record_length)).

(** [FileRecordReadResponse::parse]. *)
Definition FileRecordReadResponse_parse : P FileRecordReadResponse :=
  length ← be_u8;
  if (length =? 0) || (length mod 2 =? 0)
  then fail (IllegalValue "file response length" length)
  else
    _ ← reference_type;
    data_len ← lift (checked_sub length 1);
    data ← take_bytes data_len;
    mret (mkFileRecordReadResponse (registers_from_bytes data)).

(** [FileRecordWrite::parse]. *)
Definition FileRecordWrite_parse : P FileRecordWrite :=
  _ ← reference_type;
  file_number ← be_u16;
  record_number ← be_u16;
  record_length ← be_u16;
  _ ← lift (check_numbers (mkFileNumber file_number) (mkRecordNumber record_number));
  data ← take_bytes (saturating_mul record_length 2);
  mret (mkFileRecordWrite (mkFileNumber file_number) (mkRecordNumber record_number)
          (registers_from_bytes data)).

(** The check [decode_read_requests] applies to its byte count. *)
Definition check_read_count (count : Z) : Result unit :=
  _ ← check_bounds "request byte count" count MIN_READ_BYTE_COUNT MAX_READ_BYTE_COUNT;
  if negb (count mod READ_SUBREQUEST_LEN =? 0)
  then Err (IllegalValue "request byte count" (as_u16 count)) else Ok tt.

(** [decode_read_requests]. *)
Definition decode_read_requests : P (list FileRecordRead) :=
  r ← region check_read_count;
  lift (run_all r FileRecordRead_parse).

(** [decode_read_responses]. *)
Definition decode_read_responses : P (list FileRecordReadResponse) :=
  r ← region (λ length,
        check_bounds "response data length" length MIN_READ_DATA_LEN MAX_READ_DATA_LEN);
  lift (run_all r FileRecordReadResponse_parse).

(** [decode_write_records]. *)
Definition decode_write_records : P (list FileRecordWrite) :=
  r ← region (λ length,
        check_bounds "request data length" length MIN_WRITE_DATA_LEN MAX_WRITE_DATA_LEN);
  lift (run_all r FileRecordWrite_parse).
End decode.

(** [FileRecordRead::encode_into]. *)
Definition FileRecordRead_encode_into (self : FileRecordRead) : W unit :=
  _ ← liftW (check_numbers (frr_file_number self) (frr_record_number self));
  push REFERENCE_TYPE;;
  extend_from_slice (u16_to_be (file_number_0 (frr_file_number self)));;
  extend_from_slice (u16_to_be (record_number_0 (frr_record_number self)));;
  extend_from_slice (u16_to_be (record_length_0 (frr_record_length self))).

(** [FileRecordReadResponse::encode_into]. *)
Definition FileRecordReadResponse_encode_into (self : FileRecordReadResponse) : W unit :=
  let data_len := saturating_mul (len (frrr_values self)) 2 in
  length ← liftW (ok_or (OutOfRange "file response length"
                           (as_u32 (saturating_add data_len 1)) 1 MAX_READ_DATA_LEN)
                        (u8_try_from (saturating_add data_len 1)));
  push length;;
  push REFERENCE_TYPE;;
  push_registers (frrr_values self).

(** [FileRecordWrite::encode_into]. *)
Definition FileRecordWrite_encode_into (self : FileRecordWrite) : W unit :=
  _ ← liftW (check_numbers (frw_file_number self) (frw_record_number self));
  record_length ← liftW (ok_or (OutOfRange "record length" (as_u32 (len (frw_values self)))
                                  0 MAX_WRITE_DATA_LEN)
                               (u16_try_from (len (frw_values self))));
  push REFERENCE_TYPE;;
  extend_from_slice (u16_to_be (file_number_0 (frw_file_number self)));;
  extend_from_slice (u16_to_be (record_number_0 (frw_record_number self)));;
  extend_from_slice (u16_to_be record_length);;
  push_registers (frw_values self).

(** [body]: a placeholder length byte, the records, then the patch. *)
Definition body {T} (field : string) (min max : Z) (records : list T)
    (encode : T → W unit) : W unit :=
  at_ ← out_len;
  push 0;;
  W_for records encode;;
  n ← out_len;
  let length := as_u32 (saturating_sub (saturating_sub n at_) 1) in
  _ ← liftW (check_bounds field length min max);
  patch at_ [unwrap_or U8_MAX (u8_try_from length)].

(** [encode_read_requests_into], [encode_read_responses_into],
    [encode_write_records_into]. *)
Definition encode_read_requests_into (records : list FileRecordRead) : W unit :=
  body "request byte count" MIN_READ_BYTE_COUNT MAX_READ_BYTE_COUNT records
    FileRecordRead_encode_into.

Definition encode_read_responses_into (records : list FileRecordReadResponse) : W unit :=
  body "response data length" MIN_READ_DATA_LEN MAX_READ_DATA_LEN records
    FileRecordReadResponse_encode_into.

Definition encode_write_records_into (records : list FileRecordWrite) : W unit :=
  body "request data length" MIN_WRITE_DATA_LEN MAX_WRITE_DATA_LEN records
    FileRecordWrite_encode_into.

(** ** The wire layout *)

Definition read_request_layout (r : FileRecordRead) : list Z :=
  [REFERENCE_TYPE] ++ u16_to_be (file_number_0 (frr_file_number r)) ++
  u16_to_be (record_number_0 (frr_record_number r)) ++
  u16_to_be (record_length_0 (frr_record_length r)).

Definition read_response_layout (r : FileRecordReadResponse) : list Z :=
  [2 * len (frrr_values r) + 1; REFERENCE_TYPE] ++ registers_bytes (frrr_values r).

Definition write_record_layout (r : FileRecordWrite) : list Z :=
  [REFERENCE_TYPE] ++ u16_to_be (file_number_0 (frw_file_number r)) ++
  u16_to_be (record_number_0 (frw_record_number r)) ++ u16_to_be (len (frw_values r)) ++
  registers_bytes (frw_values r).

Definition read_request_bytes (r : FileRecordRead) : Result (list Z) :=
  _ ← check_numbers (frr_file_number r) (frr_record_number r); Ok (read_request_layout r).

Definition read_response_bytes (r : FileRecordReadResponse) : Result (list Z) :=
  let n := saturating_add (saturating_mul (len (frrr_values r)) 2) 1 in
  if n <=? U8_MAX then Ok (read_response_layout r)
  else Err (OutOfRange "file response length" (as_u32 n) 1 MAX_READ_DATA_LEN).

Definition write_record_bytes (r : FileRecordWrite) : Result (list Z) :=
  _ ← check_numbers (frw_file_number r) (frw_record_number r);
  if len (frw_values r) <=? U16_MAX then Ok (write_record_layout r)
  else Err (OutOfRange "record length" (as_u32 (len (frw_values r))) 0 MAX_WRITE_DATA_LEN).

(** A region prefixed by its own length. *)
Definition body_bytes (field : string) (min max : Z) (contents : Result (list Z))
    : Result (list Z) :=
  bs ← contents;
  _ ← check_bounds field (as_u32 (len bs)) min max;
  Ok (unwrap_or U8_MAX (u8_try_from (as_u32 (len bs))) :: bs).

Definition read_requests_bytes (rs : list FileRecordRead) : Result (list Z) :=
  body_bytes "request byte count" MIN_READ_BYTE_COUNT MAX_READ_BYTE_COUNT
    (mjoin <$> mapM read_request_bytes rs).
Definition read_responses_bytes (rs : list FileRecordReadResponse) : Result (list Z) :=
  body_bytes "response data length" MIN_READ_DATA_LEN MAX_READ_DATA_LEN
    (mjoin <$> mapM read_response_bytes rs).
Definition write_records_bytes (rs : list FileRecordWrite) : Result (list Z) :=
  body_bytes "request data length" MIN_WRITE_DATA_LEN MAX_WRITE_DATA_LEN
    (mjoin <$> mapM write_record_bytes rs).

#[export] Instance Wf_FileRecordRead : Wf FileRecordRead :=
  λ r, wf (frr_file_number r) ∧ wf (frr_record_number r) ∧ wf (frr_record_length r).
#[export] Instance Wf_FileRecordReadResponse : Wf FileRecordReadResponse :=
  λ r, wf (frrr_values r).
#[export] Instance Wf_FileRecordWrite : Wf FileRecordWrite :=
  λ r, wf (frw_file_number r) ∧ wf (frw_record_number r) ∧ wf (frw_values r).

(** ** Encoding refines the layout *)

Lemma patch_spec out old new tl :
  len old = len new → patch (len out) new (out ++ old ++ tl) = (Ok tt, out ++ new ++ tl).
Proof.
  intros Hl. unfold patch.
  assert (slice_get (len out) (len out + len new) (out ++ old ++ tl) ≠ None) as Hs.
  { unfold slice_get. replace (_ && _ && _) with true; [done|].
    symmetry. rewrite !andb_true_iff, !Z.leb_le. len_lia. }
  case_match; [|done]. f_equal.
  rewrite <- Hl. replace (Z.to_nat (len out)) with (length out) by (unfold len; lia).
  rewrite take_app_length. f_equal. f_equal.
  replace (Z.to_nat (len out + len old)) with (length (out ++ old))
    by (rewrite length_app; unfold len; lia).
  rewrite (app_assoc out old tl). by rewrite drop_app_length.
Qed.

Lemma as_u32_id n : n ≤ U32_MAX → as_u32 n = n.
Proof. intros. unfold as_u32, u32_try_from. by rewrite try_from_max_ok. Qed.

Lemma check_bounds_cases f v lo hi :
  (check_bounds f v lo hi = Ok tt ∧ lo ≤ v ≤ hi) ∨
  (check_bounds f v lo hi = Err (OutOfRange f v lo hi) ∧ ¬ lo ≤ v ≤ hi).
Proof. unfold check_bounds. destruct (_ || _) eqn:E; split_guards; [right|left]; split; (done || lia). Qed.

Lemma check_bounds_ok f v lo hi : lo ≤ v ≤ hi → check_bounds f v lo hi = Ok tt.
Proof. destruct (check_bounds_cases f v lo hi) as [[-> _]|[_ ?]]; [done|lia]. Qed.

Lemma check_bounds_inv f v lo hi u : check_bounds f v lo hi = Ok u → lo ≤ v ≤ hi.
Proof. destruct (check_bounds_cases f v lo hi) as [[_ ?]|[-> _]]; done. Qed.

Lemma body_spec {T} field min max (records : list T) encode g :
  (∀ x, Writes (encode x) (g x)) →
  Writes (body field min max records encode)
    (body_bytes field min max (mjoin <$> mapM g records)).
Proof.
  intros Hg out. unfold body, body_bytes. w_run.
  pose proof (Writes_for records encode g Hg (out ++ [0])) as Hf.
  destruct (mapM g records) as [bss|e|]; cbn [fmap Result_fmap mbind Result_bind] in *;
    [rewrite Hf|destruct Hf as [p ->]; exists (0 :: p); by rewrite <- app_assoc|done].
  w_run.
  replace (saturating_sub (saturating_sub (len (out ++ 0 :: mjoin bss)) (len out)) 1)
    with (len (mjoin bss)) by (unfold saturating_sub; len_lia).
  destruct (check_bounds_cases field (as_u32 (len (mjoin bss))) min max) as [[-> _]|[-> _]].
  - rewrite Result_bind_ok. apply (patch_spec out [0] [_]). done.
  - by eexists.
Qed.

Lemma check_numbers_cases f r :
  (check_numbers f r = Ok tt ∧ 1 ≤ file_number_0 f ≤ U16_MAX ∧
     0 ≤ record_number_0 r ≤ MAX_RECORD_NUMBER) ∨
  ∃ e, check_numbers f r = Err e.
Proof.
  unfold check_numbers.
  destruct (check_bounds_cases "file number" (file_number_0 f) 1 U16_MAX) as [[-> ?]|[-> _]];
    cbn; [|eauto].
  destruct (check_bounds_cases "record number" (record_number_0 r) 0 MAX_RECORD_NUMBER)
    as [[-> ?]|[-> _]]; eauto.
Qed.

Lemma FileRecordRead_encode_spec r :
  Writes (FileRecordRead_encode_into r) (read_request_bytes r).
Proof.
  intros out. unfold FileRecordRead_encode_into, read_request_bytes.
  destruct (check_numbers_cases (frr_file_number r) (frr_record_number r)) as [[-> _]|[e ->]];
    cbn; [by w_run|exists []; by rewrite app_nil_r].
Qed.

Lemma sub_response_len n :
  0 ≤ n → saturating_add (saturating_mul n 2) 1 ≤ U8_MAX →
  saturating_add (saturating_mul n 2) 1 = 2 * n + 1.
Proof. unfold saturating_add, saturating_mul, U8_MAX, USIZE_MAX. lia. Qed.

Lemma sub_response_fits n :
  0 ≤ n → (saturating_add (saturating_mul n 2) 1 ≤ U8_MAX ↔ n ≤ 127).
Proof. unfold saturating_add, saturating_mul, U8_MAX, USIZE_MAX. lia. Qed.

Lemma FileRecordReadResponse_encode_spec r :
  Writes (FileRecordReadResponse_encode_into r) (read_response_bytes r).
Proof.
  intros out. unfold FileRecordReadResponse_encode_into, read_response_bytes,
    read_response_layout.
  pose proof (sub_response_len _ (len_nonneg (frrr_values r))) as Hn.
  revert Hn. generalize (saturating_add (saturating_mul (len (frrr_values r)) 2) 1).
  intros n Hn. destruct (Z.leb_spec n U8_MAX) as [Hle|Hgt].
  - rewrite <- Hn by done. unfold u8_try_from. rewrite try_from_max_ok by done. w_run.
    rewrite push_registers_spec. by w_run.
  - unfold u8_try_from. rewrite try_from_max_none by done.
    exists []. w_run. by rewrite app_nil_r.
Qed.

Lemma FileRecordWrite_encode_spec r :
  Writes (FileRecordWrite_encode_into r) (write_record_bytes r).
Proof.
  intros out. unfold FileRecordWrite_encode_into, write_record_bytes, u16_try_from,
    try_from_max.
  destruct (check_numbers_cases (frw_file_number r) (frw_record_number r)) as [[-> _]|[e ->]];
    [|cbn; exists []; by rewrite app_nil_r].
  cbn [mbind Result_bind]. destruct (Z.leb_spec (len (frw_values r)) U16_MAX).
  - w_run. rewrite push_registers_spec. unfold write_record_layout. by w_run.
  - exists []. cbn. by rewrite app_nil_r.
Qed.

Lemma encode_read_requests_spec rs :
  Writes (encode_read_requests_into rs) (read_requests_bytes rs).
Proof. apply body_spec, FileRecordRead_encode_spec. Qed.

Lemma encode_read_responses_spec rs :
  Writes (encode_read_responses_into rs) (read_responses_bytes rs).
Proof. apply body_spec, FileRecordReadResponse_encode_spec. Qed.

Lemma encode_write_records_spec rs :
  Writes (encode_write_records_into rs) (write_records_bytes rs).
Proof. apply body_spec, FileRecordWrite_encode_spec. Qed.

(** ** Decoding inverts the layout

    The three record types share one argument: a parser that reads back the
    layout of a good record, and a region prefixed by its length. *)

Definition read_good (r : FileRecordRead) : Prop :=
  wf r ∧ check_numbers (frr_file_number r) (frr_record_number r) = Ok tt.
Definition read_response_good (r : FileRecordReadResponse) : Prop :=
  wf r ∧ len (frrr_values r) ≤ 127.
Definition write_good (r : FileRecordWrite) : Prop :=
  wf r ∧ check_numbers (frw_file_number r) (frw_record_number r) = Ok tt ∧
  len (frw_values r) ≤ U16_MAX.

Lemma mapM_layout {A} (g : A → Result (list Z)) (layout : A → list Z) (ok : A → Prop) l bss :
  (∀ x bs, g x = Ok bs → bs = layout x ∧ ok x) → mapM g l = Ok bss →
  bss = layout <$> l ∧ Forall ok l.
Proof.
  intros Hg. revert bss. induction l as [|x l IH]; intros bss; cbn [mapM].
  - intros [= <-]. by split.
  - intros H. apply Result_bind_inv in H as (b & [-> Hx]%Hg & H).
    apply Result_bind_inv in H as (bs & [-> Hl]%IH & [= <-]). split; [done|by constructor].
Qed.

Lemma mapM_layout_ok {A} (g : A → Result (list Z)) (layout : A → list Z) l :
  Forall (λ x, g x = Ok (layout x)) l → mapM g l = Ok (layout <$> l).
Proof.
  induction 1 as [|x l Hx Hl IH]; [done|]. cbn [mapM]. by rewrite Hx, Result_bind_ok, IH.
Qed.

Lemma body_bytes_inv f lo hi r bs :
  body_bytes f lo hi r = Ok bs → hi ≤ 255 →
  ∃ c, r = Ok c ∧ bs = len c :: c ∧ lo ≤ len c ≤ hi.
Proof.
  unfold body_bytes. intros H Hhi. apply Result_bind_inv in H as (c & -> & H).
  apply Result_bind_inv in H as (u & Hc%check_bounds_inv & [= <-]).
  assert (len c ≤ U32_MAX) as Hl.
  { unfold as_u32, u32_try_from, try_from_max in Hc.
    destruct (Z.leb_spec (len c) U32_MAX); [done|]. cbn in Hc. unfold U32_MAX in *. lia. }
  rewrite as_u32_id in Hc |- * by done. unfold u8_try_from, U8_MAX.
  rewrite try_from_max_ok by lia. eauto.
Qed.

Lemma body_bytes_ok f lo hi c :
  lo ≤ len c ≤ hi → hi ≤ 255 → body_bytes f lo hi (Ok c) = Ok (len c :: c).
Proof.
  intros Hc Hhi. unfold body_bytes. rewrite Result_bind_ok.
  rewrite as_u32_id by (unfold U32_MAX; lia). rewrite check_bounds_ok, Result_bind_ok by lia.
  unfold u8_try_from, U8_MAX. by rewrite try_from_max_ok by lia.
Qed.

Lemma read_request_bytes_inv r bs :
  read_request_bytes r = Ok bs →
  bs = read_request_layout r ∧
  check_numbers (frr_file_number r) (frr_record_number r) = Ok tt.
Proof.
  unfold read_request_bytes. intros H. by apply Result_bind_inv in H as ([] & ? & [= <-]).
Qed.

Lemma read_response_bytes_inv r bs :
  read_response_bytes r = Ok bs → bs = read_response_layout r ∧ len (frrr_values r) ≤ 127.
Proof.
  unfold read_response_bytes.
  pose proof (sub_response_fits _ (len_nonneg (frrr_values r))) as Hn.
  revert Hn. generalize (saturating_add (saturating_mul (len (frrr_values r)) 2) 1).
  intros n Hn. destruct (Z.leb_spec n U8_MAX); [|done]. intros [= <-]. by rewrite <- Hn.
Qed.

Lemma read_response_bytes_ok r :
  len (frrr_values r) ≤ 127 → read_response_bytes r = Ok (read_response_layout r).
Proof.
  intros Hl. unfold read_response_bytes.
  apply (sub_response_fits _ (len_nonneg (frrr_values r))) in Hl.
  revert Hl. generalize (saturating_add (saturating_mul (len (frrr_values r)) 2) 1).
  intros n Hn. destruct (Z.leb_spec n U8_MAX); [done|lia].
Qed.

Lemma write_record_bytes_inv r bs :
  write_record_bytes r = Ok bs →
  bs = write_record_layout r ∧
  check_numbers (frw_file_number r) (frw_record_number r) = Ok tt ∧
  len (frw_values r) ≤ U16_MAX.
Proof.
  unfold write_record_bytes. intros H. apply Result_bind_inv in H as ([] & ? & H).
  case_match; [|done]. injection H as <-. split_guards. done.
Qed.

Section laws.
Context {w : Winnow} {ws : WinnowSpec w}.

Lemma reference_type_inv i u i' :
  bytes_ok i → reference_type i = POk u i' → i = [REFERENCE_TYPE] ++ i' ∧ bytes_ok i'.
Proof.
  intros Hi H. unfold reference_type in H. parse_inv. split_guards. by subst.
Qed.

Lemma reference_type_run i : reference_type (REFERENCE_TYPE :: i) = POk tt i.
Proof. unfold reference_type. by p_run. Qed.

(** [FileRecordRead]. *)
Lemma FileRecordRead_parse_inv i r i' :
  bytes_ok i → FileRecordRead_parse i = POk r i' →
  i = read_request_layout r ++ i' ∧ read_good r ∧ bytes_ok i'.
Proof.
  intros Hi H. unfold FileRecordRead_parse in H.
  apply P_bind_inv in H as (u & i2 & Hrt & H).
  apply reference_type_inv in Hrt as [-> Hi2]; [|done]. parse_inv.
  match goal with x : () |- _ => destruct x end. done.
Qed.

Lemma FileRecordRead_parse_layout r tl :
  read_good r → FileRecordRead_parse (read_request_layout r ++ tl) = POk r tl.
Proof.
  intros [_ Hc]. unfold FileRecordRead_parse, read_request_layout. rewrite <- !app_assoc.
  cbn [app]. rewrite P_bind_run, reference_type_run. p_run.
  destruct r as [[f] [n] [l]]. cbn in *. by rewrite Hc.
Qed.

Lemma read_layout_ok r : read_good r → bytes_ok (read_request_layout r).
Proof.
  intros [(? & ? & ?) _]. unfold read_request_layout.
  repeat apply bytes_ok_app; auto with bytes.
Qed.

(** [FileRecordReadResponse]. *)
Lemma FileRecordReadResponse_parse_inv i r i' :
  bytes_ok i → FileRecordReadResponse_parse i = POk r i' →
  i = read_response_layout r ++ i' ∧ read_response_good r ∧ bytes_ok i'.
Proof.
  intros Hi H. unfold FileRecordReadResponse_parse in H.
  apply P_bind_inv in H as (l & i1 & H1 & H).
  apply (be_u8_bytes_inv _ _ _ Hi) in H1 as (-> & Hl & Hi1).
  destruct ((l =? 0) || (l mod 2 =? 0)) eqn:E; [done|]. split_guards.
  apply P_bind_inv in H as (u & i2 & Hrt & H).
  apply reference_type_inv in Hrt as [-> Hi2]; [|done]. parse_inv.
  match goal with H : checked_sub _ _ = _ |- _ => unfold checked_sub in H end.
  case_match; [done|]. simplify_eq. unfold is_u8 in Hl. split_guards.
  match goal with H : take_bytes _ _ = POk ?d _ |- _ =>
    rename d into data; apply take_inv in H as [-> Hd]; [|lia] end.
  apply bytes_ok_app_inv in Hi2 as [Hb ?].
  assert (l mod 2 = 1) as Hm by (pose proof (Z.mod_pos_bound l 2); lia).
  assert (len data mod 2 = 0) as Hm0.
  { rewrite Hd, Zminus_mod, Hm. done. }
  destruct (registers_bytes_from_bytes data) as [Hr Hw]; [done..|].
  pose proof (Z.div_mod (len data) 2 ltac:(lia)) as Hdm.
  unfold read_response_layout, read_response_good. cbn [frrr_values].
  rewrite len_registers_from_bytes, Hr. split_and!; [|done|lia|done].
  cbn. f_equal. lia.
Qed.

Lemma FileRecordReadResponse_parse_layout r tl :
  read_response_good r →
  FileRecordReadResponse_parse (read_response_layout r ++ tl) = POk r tl.
Proof.
  intros [Hw Hl]. unfold FileRecordReadResponse_parse, read_response_layout. cbn [app].
  set (n := len (frrr_values r)) in *. pose proof (len_nonneg (frrr_values r)).
  rewrite P_bind_run, be_u8_some.
  assert ((2 * n + 1) mod 2 = 1) as Hm.
  { rewrite Z.add_comm, Z.mul_comm, Z.mod_add; [done|lia]. }
  rewrite Hm. destruct (Z.eqb_spec (2 * n + 1) 0); [lia|]. cbn [orb Z.eqb].
  rewrite P_bind_run, reference_type_run. p_run. unfold checked_sub.
  destruct (Z.ltb_spec (2 * n + 1) 1); [lia|]. p_run.
  replace (2 * n + 1 - 1) with (len (registers_bytes (frrr_values r))) by len_lia.
  p_run. rewrite registers_from_registers_bytes. by destruct r.
Qed.

Lemma read_response_layout_ok r : read_response_good r → bytes_ok (read_response_layout r).
Proof.
  intros [Hw Hl]. unfold read_response_layout. pose proof (len_nonneg (frrr_values r)).
  apply bytes_ok_app; [|by apply registers_bytes_ok].
  apply bytes_ok_cons; [unfold is_u8; lia|]. auto with bytes.
Qed.

(** [FileRecordWrite]. *)
Lemma FileRecordWrite_parse_inv i r i' :
  bytes_ok i → FileRecordWrite_parse i = POk r i' →
  i = write_record_layout r ++ i' ∧ write_good r ∧ bytes_ok i'.
Proof.
  intros Hi H. unfold FileRecordWrite_parse in H.
  apply P_bind_inv in H as (u & i2 & Hrt & H).
  apply reference_type_inv in Hrt as [-> Hi2]; [|done]. parse_inv.
  match goal with x : () |- _ => destruct x end.
  match goal with H : take_bytes (saturating_mul ?x 2) _ = _, Hx : is_u16 ?x |- _ =>
    pose proof Hx as Hn; unfold is_u16 in Hn;
    rewrite saturating_mul_small in H by (unfold USIZE_MAX; lia);
    apply take_inv in H as [-> Hd]; [|lia] end.
  match goal with H : bytes_ok (_ ++ _) |- _ => apply bytes_ok_app_inv in H as [Hb ?] end.
  match goal with Hd : len ?d = ?x * 2 |- _ =>
    assert (len d mod 2 = 0) as Hm by (rewrite Hd; apply Z_mod_mult);
    assert (len d / 2 = x) as Hq by (rewrite Hd; apply Z.div_mul; lia);
    destruct (registers_bytes_from_bytes d Hb Hm) as [Hr Hw] end.
  unfold write_record_layout, write_good. cbn [frw_file_number frw_record_number frw_values].
  rewrite len_registers_from_bytes, Hr, Hq. rewrite <- !app_assoc.
  unfold U16_MAX. split_and!; try done; lia.
Qed.

Lemma FileRecordWrite_parse_layout r tl :
  write_good r → FileRecordWrite_parse (write_record_layout r ++ tl) = POk r tl.
Proof.
  intros (Hw & Hc & Hl). unfold FileRecordWrite_parse, write_record_layout.
  rewrite <- !app_assoc. cbn [app]. rewrite P_bind_run, reference_type_run. p_run.
  destruct r as [[f] [n] vs]. cbn in *. rewrite Hc. p_run.
  unfold U16_MAX in Hl. rewrite saturating_mul_small by (unfold USIZE_MAX; lia).
  replace (len vs * 2) with (len (registers_bytes vs)) by len_lia. p_run.
  by rewrite registers_from_registers_bytes.
Qed.

Lemma write_layout_ok r : write_good r → bytes_ok (write_record_layout r).
Proof.
  intros ((? & ? & ?) & _ & Hl). unfold write_record_layout. pose proof (len_nonneg (frw_values r)).
  repeat apply bytes_ok_app; auto with bytes. apply u16_to_be_ok. unfold is_u16, U16_MAX in *. lia.
Qed.

(** The region decoders, once for the three. *)
Lemma region_run check bs tl :
  check (len bs) = Ok tt → region check (len bs :: bs ++ tl) = POk bs tl.
Proof. intros Hc. unfold region. p_run. rewrite Hc. by p_run. Qed.

Lemma region_inv check i bs i' :
  bytes_ok i → region check i = POk bs i' →
  i = (len bs :: bs) ++ i' ∧ check (len bs) = Ok tt ∧ bytes_ok bs ∧ bytes_ok i' ∧ len bs ≤ 255.
Proof.
  intros Hi H. unfold region in H. parse_inv. match goal with x : () |- _ => destruct x end.
  match goal with H : take_bytes _ _ = _, Hx : is_u8 _ |- _ =>
    pose proof Hx as Hn; unfold is_u8 in Hn; apply take_inv in H as [-> <-]; [|lia] end.
  match goal with H : bytes_ok (_ ++ _) |- _ => apply bytes_ok_app_inv in H as [Hb ?] end.
  split_and!; try done. lia.
Qed.

Section region_items.
Context {O : Type} (p : P O) (layout : O → list Z) (good : O → Prop) (check : Z → Result unit).
Hypothesis p_inv : ∀ i v i',
  bytes_ok i → p i = POk v i' → i = layout v ++ i' ∧ good v ∧ bytes_ok i'.
Hypothesis p_layout : ∀ v tl, good v → p (layout v ++ tl) = POk v tl.
Hypothesis layout_ok : ∀ v, good v → bytes_ok (layout v).
Hypothesis layout_nonempty : ∀ v, 0 < len (layout v).

Lemma region_item_consumes : Consumes p.
Proof.
  intros i v i' Hi H. apply p_inv in H as (-> & _ & ?); [|done]. split; [|done].
  pose proof (layout_nonempty v). len_lia.
Qed.

Lemma region_items_run items tl :
  Forall good items → check (len (mjoin (layout <$> items))) = Ok tt →
  (r ← region check; lift (run_all r p)) (len (mjoin (layout <$> items)) ::
      mjoin (layout <$> items) ++ tl) = POk items tl.
Proof.
  intros Hg Hc. rewrite P_bind_run, region_run by done. unfold run_all.
  rewrite (run_all_concat p layout good); [done|apply region_item_consumes|done..].
Qed.

Lemma region_items_inv i items i' :
  bytes_ok i → (r ← region check; lift (run_all r p)) i = POk items i' →
  i = (len (mjoin (layout <$> items)) :: mjoin (layout <$> items)) ++ i' ∧
  Forall good items ∧ check (len (mjoin (layout <$> items))) = Ok tt ∧ bytes_ok i'.
Proof.
  intros Hi H. apply P_bind_inv in H as (bs & i1 & H1 & H).
  apply region_inv in H1 as (-> & Hc & Hbs & Hi1 & _); [|done].
  apply lift_inv in H as [H <-]. unfold run_all in H.
  apply (run_all_loop_inv p layout good _ _ p_inv) in H as (items' & -> & -> & Hg); done.
Qed.
End region_items.
End laws.

(** ** The three bodies *)

Lemma len_read_layouts rs : len (mjoin (read_request_layout <$> rs)) = 7 * len rs.
Proof.
  induction rs as [|r rs IH]; [done|].
  change (len (read_request_layout r ++ mjoin (read_request_layout <$> rs)) = 7 * len (r :: rs)).
  rewrite len_app, IH. unfold read_request_layout. len_lia.
Qed.

Lemma check_read_count_ok rs :
  7 ≤ len (mjoin (read_request_layout <$> rs)) ≤ 245 →
  check_read_count (len (mjoin (read_request_layout <$> rs))) = Ok tt.
Proof.
  intros Hl. unfold check_read_count. rewrite check_bounds_ok, Result_bind_ok by done.
  rewrite len_read_layouts, Z.mul_comm, Z_mod_mult. done.
Qed.

Lemma check_read_count_inv n u : check_read_count n = Ok u → 7 ≤ n ≤ 245.
Proof. unfold check_read_count. intros H. by apply Result_bind_inv in H as (? & ?%check_bounds_inv & _). Qed.

(** A region of layouts between its bounds is what [body_bytes] accepts. *)
Lemma region_bytes_ok {A} f lo hi (g : A → Result (list Z)) layout items :
  hi ≤ 255 → Forall (λ x, g x = Ok (layout x)) items →
  lo ≤ len (mjoin (layout <$> items)) ≤ hi →
  body_bytes f lo hi (mjoin <$> mapM g items) =
  Ok (len (mjoin (layout <$> items)) :: mjoin (layout <$> items)).
Proof.
  intros Hhi Hg Hl. rewrite (mapM_layout_ok g layout) by done. by apply body_bytes_ok.
Qed.

Lemma region_bytes_inv {A} f lo hi (g : A → Result (list Z)) layout (ok : A → Prop) items bs :
  hi ≤ 255 → (∀ x bs, g x = Ok bs → bs = layout x ∧ ok x) →
  body_bytes f lo hi (mjoin <$> mapM g items) = Ok bs →
  bs = len (mjoin (layout <$> items)) :: mjoin (layout <$> items) ∧ Forall ok items ∧
  lo ≤ len (mjoin (layout <$> items)) ≤ hi.
Proof.
  intros Hhi Hg H. apply body_bytes_inv in H as (c & Hc & -> & Hl); [|done].
  destruct (mapM g items) as [bss|e|] eqn:E; [|done..]. injection Hc as <-.
  apply (mapM_layout g layout ok) in E as [-> Hok]; done.
Qed.

Section bodies.
Context {w : Winnow} {ws : WinnowSpec w}.

Lemma decode_read_requests_run rs bs :
  wf rs → read_requests_bytes rs = Ok bs → decode_read_requests bs = POk rs [].
Proof.
  intros Hw H.
  eapply region_bytes_inv in H as (-> & Hok & Hl); [|done|exact read_request_bytes_inv].
  rewrite <- (app_nil_r (mjoin (read_request_layout <$> rs))) at 2.
  apply (region_items_run FileRecordRead_parse read_request_layout read_good check_read_count);
    [exact FileRecordRead_parse_inv|exact FileRecordRead_parse_layout|exact read_layout_ok|..].
  - intros v. unfold read_request_layout. len_lia.
  - by apply Forall_and.
  - by apply check_read_count_ok.
Qed.

Lemma decode_read_requests_inv i rs i' :
  bytes_ok i → decode_read_requests i = POk rs i' →
  ∃ bs, i = bs ++ i' ∧ read_requests_bytes rs = Ok bs ∧ wf rs.
Proof.
  intros Hi H. apply (region_items_inv _ _ _ _ FileRecordRead_parse_inv)
    in H as (-> & Hg & Hc%check_read_count_inv & Hi'); [|done].
  apply Forall_and in Hg as [Hw Hn]. eexists. split; [done|]. split; [|done].
  apply region_bytes_ok; [done| |done]. eapply Forall_impl; [exact Hn|].
  intros r Hr. unfold read_request_bytes. by rewrite Hr.
Qed.

Lemma decode_read_responses_run rs bs :
  wf rs → read_responses_bytes rs = Ok bs → decode_read_responses bs = POk rs [].
Proof.
  intros Hw H.
  eapply region_bytes_inv in H as (-> & Hok & Hl); [|done|exact read_response_bytes_inv].
  rewrite <- (app_nil_r (mjoin (read_response_layout <$> rs))) at 2.
  apply (region_items_run FileRecordReadResponse_parse read_response_layout read_response_good);
    [exact FileRecordReadResponse_parse_inv|exact FileRecordReadResponse_parse_layout
    |exact read_response_layout_ok|..].
  - intros v. unfold read_response_layout. len_lia.
  - by apply Forall_and.
  - by apply check_bounds_ok.
Qed.

Lemma decode_read_responses_inv i rs i' :
  bytes_ok i → decode_read_responses i = POk rs i' →
  ∃ bs, i = bs ++ i' ∧ read_responses_bytes rs = Ok bs ∧ wf rs.
Proof.
  intros Hi H. apply (region_items_inv _ _ _ _ FileRecordReadResponse_parse_inv)
    in H as (-> & Hg & Hc%check_bounds_inv & Hi'); [|done].
  apply Forall_and in Hg as [Hw Hn]. eexists. split; [done|]. split; [|done].
  apply region_bytes_ok; [done| |done]. eapply Forall_impl; [exact Hn|].
  exact read_response_bytes_ok.
Qed.

Lemma decode_write_records_run rs bs :
  wf rs → write_records_bytes rs = Ok bs → decode_write_records bs = POk rs [].
Proof.
  intros Hw H.
  eapply region_bytes_inv in H as (-> & Hok & Hl); [|done|exact write_record_bytes_inv].
  rewrite <- (app_nil_r (mjoin (write_record_layout <$> rs))) at 2.
  apply (region_items_run FileRecordWrite_parse write_record_layout write_good);
    [exact FileRecordWrite_parse_inv|exact FileRecordWrite_parse_layout|exact write_layout_ok|..].
  - intros v. unfold write_record_layout. len_lia.
  - by apply Forall_and.
  - by apply check_bounds_ok.
Qed.

Lemma decode_write_records_inv i rs i' :
  bytes_ok i → decode_write_records i = POk rs i' →
  ∃ bs, i = bs ++ i' ∧ write_records_bytes rs = Ok bs ∧ wf rs.
Proof.
  intros Hi H. apply (region_items_inv _ _ _ _ FileRecordWrite_parse_inv)
    in H as (-> & Hg & Hc%check_bounds_inv & Hi'); [|done].
  apply Forall_and in Hg as [Hw Hn]. eexists. split; [done|]. split; [|done].
  apply region_bytes_ok; [done| |done]. eapply Forall_impl; [exact Hn|].
  intros r [Hr Hl]. unfold write_record_bytes. rewrite Hr, Result_bind_ok.
  by destruct (Z.leb_spec (len (frw_values r)) U16_MAX); [|lia].
Qed.
End bodies.
