(* ===== verification/Pdu.v ===== *)
(** * Request and response PDUs ([src/frame/pdu.rs])

    The two PDU enums, the body decoders and encoders each function code uses,
    and the [decode], [encode_into] and [encode] of both directions. *)

From S2P Require Import Prelude.
From S2P Require Import Errors.
From S2P Require Import Parse.
From S2P Require Import Value.
From S2P Require Import Function.
From S2P Require Import Exception.
From S2P Require Import Diagnostics.
From S2P Require Import Wire.
From S2P Require Import Mei.
From S2P Require Import FileRecord.

Definition MAX_PDU_LEN : Z := 253.
Definition COIL_ON : Z := 0xFF00.
Definition COIL_OFF : Z := 0x0000.
Definition MAX_READ_BITS : Z := 2000.
Definition MAX_READ_REGISTERS : Z := 125.
Definition MAX_WRITE_BITS : Z := 1968.
Definition MAX_WRITE_REGISTERS : Z := 123.
Definition MAX_RW_WRITE_REGISTERS : Z := 121.
Definition MAX_FIFO_COUNT : Z := 31.
Definition EVENT_LOG_FIXED_BYTES : Z := 6.
Definition MAX_EVENT_BYTES : Z := 64.

Inductive RequestPdu :=
  | Req_ReadCoils (address : Address) (quantity : Quantity)
  | Req_ReadDiscreteInputs (address : Address) (quantity : Quantity)
  | Req_ReadHoldingRegisters (address : Address) (quantity : Quantity)
  | Req_ReadInputRegisters (address : Address) (quantity : Quantity)
  | Req_WriteSingleCoil (address : Address) (value : bool)
  | Req_WriteSingleRegister (address : Address) (value : RegisterValue)
  | Req_WriteMultipleCoils (address : Address) (coils : list bool)
  | Req_WriteMultipleRegisters (address : Address) (registers : list RegisterValue)
  | Req_MaskWriteRegister (address : Address) (and_mask or_mask : Mask)
  | Req_ReadWriteMultipleRegisters (read_address : Address) (read_quantity : Quantity)
      (write_address : Address) (registers : list RegisterValue)
  | Req_ReadExceptionStatus
  | Req_Diagnostics (sub_function : DiagnosticSubFunction) (data : list Z)
  | Req_GetCommEventCounter
  | Req_GetCommEventLog
  | Req_ReportServerId
  | Req_ReadFileRecord (records : list FileRecordRead)
  | Req_WriteFileRecord (records : list FileRecordWrite)
  | Req_ReadFifoQueue (address : Address)
  | Req_EncapsulatedInterfaceTransport (request : MeiRequest)
  | Req_Custom (code : Z) (data : list Z).

Inductive ResponsePdu :=
  | Resp_ReadCoils (coils : list bool)
  | Resp_ReadDiscreteInputs (inputs : list bool)
  | Resp_ReadHoldingRegisters (registers : list RegisterValue)
  | Resp_ReadInputRegisters (registers : list RegisterValue)
  | Resp_WriteSingleCoil (address : Address) (value : bool)
  | Resp_WriteSingleRegister (address : Address) (value : RegisterValue)
  | Resp_WriteMultipleCoils (address : Address) (quantity : Quantity)
  | Resp_WriteMultipleRegisters (address : Address) (quantity : Quantity)
  | Resp_MaskWriteRegister (address : Address) (and_mask or_mask : Mask)
  | Resp_ReadWriteMultipleRegisters (registers : list RegisterValue)
  | Resp_ReadExceptionStatus (status : ExceptionStatus)
  | Resp_Diagnostics (sub_function : DiagnosticSubFunction) (data : list Z)
  | Resp_GetCommEventCounter (status event_count : Z)
  | Resp_GetCommEventLog (status event_count message_count : Z) (events : list Z)
  | Resp_ReportServerId (data : list Z)
  | Resp_ReadFileRecord (records : list FileRecordReadResponse)
  | Resp_WriteFileRecord (records : list FileRecordWrite)
  | Resp_ReadFifoQueue (values : list RegisterValue)
  | Resp_EncapsulatedInterfaceTransport (response : MeiResponse)
  | Resp_Custom (code : Z) (data : list Z)
  | Resp_Exception (exception : ExceptionResponse).

#[export] Instance RequestPdu_eq_dec : EqDecision RequestPdu.
Proof. solve_decision. Defined.
#[export] Instance ResponsePdu_eq_dec : EqDecision ResponsePdu.
Proof. solve_decision. Defined.

(** [mask_write_result]: on [u16], so the complement is taken in 16 bits. *)
Definition mask_write_result (current : RegisterValue) (and_mask or_mask : Mask)
    : RegisterValue :=
  mkRegisterValue
    (Z.lor (Z.land (register_value_0 current) (mask_0 and_mask))
           (Z.land (mask_0 or_mask) (Z.land (Z.lnot (mask_0 and_mask)) U16_MAX))).

(** [packed_bits]. *)
Definition packed_bits (data : list Z) (quantity : Z) : Result (list bool) :=
  let bits := bits_from_bytes data in
  if (quantity <=? len bits) && existsb id (drop (Z.to_nat quantity) bits)
  then Err (IllegalValue "coil padding" (default 0 (last data)))
  else Ok (take (Z.to_nat quantity) bits).

(** [check_range]. *)
Definition check_range (field : string) (value min max : Z) : Result unit :=
  if (value <? min) || (max <? value) then Err (OutOfRange field value min max) else Ok tt.

(** [quantity_of]. *)
Definition quantity_of (field : string) (len min max : Z) : Result Z :=
  let quantity := unwrap_or U16_MAX (u16_try_from len) in
  _ ← check_range field quantity min max;
  Ok quantity.

(** [check_size]. *)
Definition check_size (pdu : list Z) : Result unit :=
  if MAX_PDU_LEN <? len pdu then Err (PduTooLarge (len pdu) MAX_PDU_LEN) else Ok tt.

(** [check_event_log_bytes], on [u32]. *)
Definition check_event_log_bytes (byte_count : Z) : Result unit :=
  let max := Z.min (EVENT_LOG_FIXED_BYTES + MAX_EVENT_BYTES) U32_MAX in
  if (byte_count <? EVENT_LOG_FIXED_BYTES) || (max <? byte_count)
  then Err (OutOfRange "byte count" byte_count EVENT_LOG_FIXED_BYTES max) else Ok tt.

Section decode.
Context {w : Winnow}.

(** [quantified_bytes]. *)
Definition quantified_bytes (field : string) (min max : Z) (width : Z → Z)
    : P (Z * list Z) :=
  quantity ← be_u16;
  _ ← lift (check_range field quantity min max);
  let expected := width quantity in
  count ← be_u8;
  if negb (count =? expected) then fail (ByteCountMismatch expected count) else
  available ← input_len;
  if available <? expected then fail (ByteCountMismatch expected available) else
  data ← take_bytes expected;
  mret (quantity, data).

(** [counted_bytes]. *)
Definition counted_bytes : P (list Z) :=
  expected ← be_u8;
  available ← input_len;
  if negb (available =? expected) then fail (ByteCountMismatch expected available) else
  take_bytes expected.

(** [read_request]. *)
Definition read_request (min max : Z) : P (Address * Quantity) :=
  address ← be_u16;
  quantity ← be_u16;
  _ ← lift (check_range "quantity" quantity min max);
  mret (mkAddress address, mkQuantity quantity).

(** [single_coil]. *)
Definition single_coil : P (Address * bool) :=
  address ← be_u16;
  raw ← be_u16;
  if raw =? COIL_ON then mret (mkAddress address, true)
  else if raw =? COIL_OFF then mret (mkAddress address, false)
  else fail (IllegalValue "coil value" raw).

(** [registers]. *)
Definition registers : P (list RegisterValue) :=
  data ← counted_bytes;
  if negb (len data mod 2 =? 0)
  then fail (IllegalValue "byte count" (unwrap_or U16_MAX (u16_try_from (len data))))
  else mret (registers_from_bytes data).

(** [diagnostic_body]. *)
Definition diagnostic_body : P (DiagnosticSubFunction * list Z) :=
  raw ← be_u16;
  data ← rest;
  if negb (len data mod 2 =? 0)
  then fail (IllegalValue "diagnostic data length" (unwrap_or U16_MAX (u16_try_from (len data))))
  else mret (DiagnosticSubFunction_decode raw, words_from_bytes data).

(** [fifo_values]: [count * 2 + 2] is computed in [u16]. *)
Definition fifo_values : P (list RegisterValue) :=
  byte_count ← be_u16;
  count ← be_u16;
  _ ← lift (check_range "FIFO count" count 0 MAX_FIFO_COUNT);
  expected ← lift (u16_checked (count * 2 + 2));
  if negb (byte_count =? expected) then fail (ByteCountMismatch expected byte_count) else
  data ← take_bytes (count * 2);
  mret (registers_from_bytes data).

(** The closure of [RequestPdu::decode]. *)
Definition request_body (code : FunctionCode) : P RequestPdu :=
  match code with
  | FC_ReadCoils =>
      '(address, quantity) ← read_request 1 MAX_READ_BITS;
      mret (Req_ReadCoils address quantity)
  | FC_ReadDiscreteInputs =>
      '(address, quantity) ← read_request 1 MAX_READ_BITS;
      mret (Req_ReadDiscreteInputs address quantity)
  | FC_ReadHoldingRegisters =>
      '(address, quantity) ← read_request 1 MAX_READ_REGISTERS;
      mret (Req_ReadHoldingRegisters address quantity)
  | FC_ReadInputRegisters =>
      '(address, quantity) ← read_request 1 MAX_READ_REGISTERS;
      mret (Req_ReadInputRegisters address quantity)
  | FC_WriteSingleCoil =>
      '(address, value) ← single_coil; mret (Req_WriteSingleCoil address value)
  | FC_WriteSingleRegister =>
      address ← be_u16; value ← be_u16;
      mret (Req_WriteSingleRegister (mkAddress address) (mkRegisterValue value))
  | FC_WriteMultipleCoils =>
      address ← be_u16;
      '(quantity, data) ← quantified_bytes "quantity" 1 MAX_WRITE_BITS bit_width;
      coils ← lift (packed_bits data quantity);
      mret (Req_WriteMultipleCoils (mkAddress address) coils)
  | FC_WriteMultipleRegisters =>
      address ← be_u16;
      '(_, data) ← quantified_bytes "quantity" 1 MAX_WRITE_REGISTERS register_width;
      mret (Req_WriteMultipleRegisters (mkAddress address) (registers_from_bytes data))
  | FC_MaskWriteRegister =>
      address ← be_u16; and_mask ← be_u16; or_mask ← be_u16;
      mret (Req_MaskWriteRegister (mkAddress address) (mkMask and_mask) (mkMask or_mask))
  | FC_ReadWriteMultipleRegisters =>
      read_address ← be_u16;
      read_quantity ← be_u16;
      _ ← lift (check_range "read quantity" read_quantity 1 MAX_READ_REGISTERS);
      write_address ← be_u16;
      '(_, data) ← quantified_bytes "write quantity" 1 MAX_RW_WRITE_REGISTERS register_width;
      mret (Req_ReadWriteMultipleRegisters (mkAddress read_address) (mkQuantity read_quantity)
              (mkAddress write_address) (registers_from_bytes data))
  | FC_ReadExceptionStatus => mret Req_ReadExceptionStatus
  | FC_Diagnostics =>
      '(sub_function, data) ← diagnostic_body; mret (Req_Diagnostics sub_function data)
  | FC_GetCommEventCounter => mret Req_GetCommEventCounter
  | FC_GetCommEventLog => mret Req_GetCommEventLog
  | FC_ReportServerId => mret Req_ReportServerId
  | FC_ReadFileRecord => records ← decode_read_requests; mret (Req_ReadFileRecord records)
  | FC_WriteFileRecord => records ← decode_write_records; mret (Req_WriteFileRecord records)
  | FC_ReadFifoQueue => address ← be_u16; mret (Req_ReadFifoQueue (mkAddress address))
  | FC_EncapsulatedInterfaceTransport =>
      request ← mei_decode_request; mret (Req_EncapsulatedInterfaceTransport request)
  | FC_Custom code => data ← rest; mret (Req_Custom code data)
  end.

(** [RequestPdu::decode]. *)
Definition RequestPdu_decode (pdu : list Z) : Result RequestPdu :=
  _ ← check_size pdu;
  run pdu (byte ← be_u8; code ← lift (FunctionCode_decode byte); request_body code).

(** The closure of [ResponsePdu::decode]. *)
Definition response_body (code : FunctionCode) : P ResponsePdu :=
  match code with
  | FC_ReadCoils => data ← counted_bytes; mret (Resp_ReadCoils (bits_from_bytes data))
  | FC_ReadDiscreteInputs =>
      data ← counted_bytes; mret (Resp_ReadDiscreteInputs (bits_from_bytes data))
  | FC_ReadHoldingRegisters => rs ← registers; mret (Resp_ReadHoldingRegisters rs)
  | FC_ReadInputRegisters => rs ← registers; mret (Resp_ReadInputRegisters rs)
  | FC_WriteSingleCoil =>
      '(address, value) ← single_coil; mret (Resp_WriteSingleCoil address value)
  | FC_WriteSingleRegister =>
      address ← be_u16; value ← be_u16;
      mret (Resp_WriteSingleRegister (mkAddress address) (mkRegisterValue value))
  | FC_WriteMultipleCoils =>
      address ← be_u16; quantity ← be_u16;
      mret (Resp_WriteMultipleCoils (mkAddress address) (mkQuantity quantity))
  | FC_WriteMultipleRegisters =>
      address ← be_u16; quantity ← be_u16;
      mret (Resp_WriteMultipleRegisters (mkAddress address) (mkQuantity quantity))
  | FC_MaskWriteRegister =>
      address ← be_u16; and_mask ← be_u16; or_mask ← be_u16;
      mret (Resp_MaskWriteRegister (mkAddress address) (mkMask and_mask) (mkMask or_mask))
  | FC_ReadWriteMultipleRegisters => rs ← registers; mret (Resp_ReadWriteMultipleRegisters rs)
  | FC_ReadExceptionStatus =>
      status ← be_u8; mret (Resp_ReadExceptionStatus (mkExceptionStatus status))
  | FC_Diagnostics =>
      '(sub_function, data) ← diagnostic_body; mret (Resp_Diagnostics sub_function data)
  | FC_GetCommEventCounter =>
      status ← be_u16; event_count ← be_u16;
      mret (Resp_GetCommEventCounter status event_count)
  | FC_GetCommEventLog =>
      byte_count ← be_u8;
      _ ← lift (check_event_log_bytes byte_count);
      status ← be_u16;
      event_count ← be_u16;
      message_count ← be_u16;
      events ← take_bytes (saturating_sub byte_count EVENT_LOG_FIXED_BYTES);
      mret (Resp_GetCommEventLog status event_count message_count events)
  | FC_ReportServerId => data ← counted_bytes; mret (Resp_ReportServerId data)
  | FC_ReadFileRecord => records ← decode_read_responses; mret (Resp_ReadFileRecord records)
  | FC_WriteFileRecord => records ← decode_write_records; mret (Resp_WriteFileRecord records)
  | FC_ReadFifoQueue => values ← fifo_values; mret (Resp_ReadFifoQueue values)
  | FC_EncapsulatedInterfaceTransport =>
      response ← mei_decode_response; mret (Resp_EncapsulatedInterfaceTransport response)
  | FC_Custom code => data ← rest; mret (Resp_Custom code data)
  end.

(** [ResponsePdu::decode]. *)
Definition ResponsePdu_decode (pdu : list Z) : Result ResponsePdu :=
  _ ← check_size pdu;
  if match pdu with byte :: _ => negb (Z.land byte 0x80 =? 0) | [] => false end
  then exception ← ExceptionResponse_decode pdu; Ok (Resp_Exception exception)
  else run pdu (byte ← be_u8; code ← lift (FunctionCode_decode byte); response_body code).
End decode.

(** [RequestPdu::function] and [ResponsePdu::function]. *)
Definition RequestPdu_function (r : RequestPdu) : FunctionCode :=
  match r with
  | Req_ReadCoils _ _ => FC_ReadCoils
  | Req_ReadDiscreteInputs _ _ => FC_ReadDiscreteInputs
  | Req_ReadHoldingRegisters _ _ => FC_ReadHoldingRegisters
  | Req_ReadInputRegisters _ _ => FC_ReadInputRegisters
  | Req_WriteSingleCoil _ _ => FC_WriteSingleCoil
  | Req_WriteSingleRegister _ _ => FC_WriteSingleRegister
  | Req_WriteMultipleCoils _ _ => FC_WriteMultipleCoils
  | Req_WriteMultipleRegisters _ _ => FC_WriteMultipleRegisters
  | Req_MaskWriteRegister _ _ _ => FC_MaskWriteRegister
  | Req_ReadWriteMultipleRegisters _ _ _ _ => FC_ReadWriteMultipleRegisters
  | Req_ReadExceptionStatus => FC_ReadExceptionStatus
  | Req_Diagnostics _ _ => FC_Diagnostics
  | Req_GetCommEventCounter => FC_GetCommEventCounter
  | Req_GetCommEventLog => FC_GetCommEventLog
  | Req_ReportServerId => FC_ReportServerId
  | Req_ReadFileRecord _ => FC_ReadFileRecord
  | Req_WriteFileRecord _ => FC_WriteFileRecord
  | Req_ReadFifoQueue _ => FC_ReadFifoQueue
  | Req_EncapsulatedInterfaceTransport _ => FC_EncapsulatedInterfaceTransport
  | Req_Custom code _ => FC_Custom code
  end.

Definition ResponsePdu_function (r : ResponsePdu) : FunctionCode :=
  match r with
  | Resp_ReadCoils _ => FC_ReadCoils
  | Resp_ReadDiscreteInputs _ => FC_ReadDiscreteInputs
  | Resp_ReadHoldingRegisters _ => FC_ReadHoldingRegisters
  | Resp_ReadInputRegisters _ => FC_ReadInputRegisters
  | Resp_WriteSingleCoil _ _ => FC_WriteSingleCoil
  | Resp_WriteSingleRegister _ _ => FC_WriteSingleRegister
  | Resp_WriteMultipleCoils _ _ => FC_WriteMultipleCoils
  | Resp_WriteMultipleRegisters _ _ => FC_WriteMultipleRegisters
  | Resp_MaskWriteRegister _ _ _ => FC_MaskWriteRegister
  | Resp_ReadWriteMultipleRegisters _ => FC_ReadWriteMultipleRegisters
  | Resp_ReadExceptionStatus _ => FC_ReadExceptionStatus
  | Resp_Diagnostics _ _ => FC_Diagnostics
  | Resp_GetCommEventCounter _ _ => FC_GetCommEventCounter
  | Resp_GetCommEventLog _ _ _ _ => FC_GetCommEventLog
  | Resp_ReportServerId _ => FC_ReportServerId
  | Resp_ReadFileRecord _ => FC_ReadFileRecord
  | Resp_WriteFileRecord _ => FC_WriteFileRecord
  | Resp_ReadFifoQueue _ => FC_ReadFifoQueue
  | Resp_EncapsulatedInterfaceTransport _ => FC_EncapsulatedInterfaceTransport
  | Resp_Custom code _ => FC_Custom code
  | Resp_Exception exception => er_function exception
  end.

(** [finish]. *)
Definition finish (at_ : Z) : W unit := λ out,
  let n := saturating_sub (len out) at_ in
  if MAX_PDU_LEN <? n then (Err (PduTooLarge n MAX_PDU_LEN), out) else (Ok tt, out).

(** [encode_read]. *)
Definition encode_read (code : Z) (address : Address) (quantity : Quantity) (min max : Z)
    : W unit :=
  _ ← liftW (check_range "quantity" (quantity_0 quantity) min max);
  at_ ← out_len;
  push code;;
  extend_from_slice (u16_to_be (address_0 address));;
  extend_from_slice (u16_to_be (quantity_0 quantity));;
  finish at_.

(** [encode_single]. *)
Definition encode_single (code : Z) (address : Address) (value : Z) : W unit :=
  at_ ← out_len;
  push code;;
  extend_from_slice (u16_to_be (address_0 address));;
  extend_from_slice (u16_to_be value);;
  finish at_.

(** [encode_quantified]. *)
Definition encode_quantified (code : Z) (address : Address) (quantity : Quantity)
    (data_len : Z) (write_data : W unit) : W unit :=
  count ← liftW (ok_or (PduTooLarge (data_len + 6) MAX_PDU_LEN) (u8_try_from data_len));
  at_ ← out_len;
  push code;;
  extend_from_slice (u16_to_be (address_0 address));;
  extend_from_slice (u16_to_be (quantity_0 quantity));;
  push count;;
  write_data;;
  finish at_.

(** [encode_echo_quantity]. *)
Definition encode_echo_quantity (code : Z) (address : Address) (quantity : Quantity) : W unit :=
  at_ ← out_len;
  push code;;
  extend_from_slice (u16_to_be (address_0 address));;
  extend_from_slice (u16_to_be (quantity_0 quantity));;
  finish at_.

(** [encode_diagnostics]. *)
Definition encode_diagnostics (code : Z) (sub_function : DiagnosticSubFunction)
    (data : list Z) : W unit :=
  at_ ← out_len;
  push code;;
  raw ← liftW (DiagnosticSubFunction_encode sub_function);
  extend_from_slice (u16_to_be raw);;
  push_words data;;
  finish at_.

(** [encode_custom]. *)
Definition encode_custom (code : Z) (data : list Z) : W unit :=
  at_ ← out_len;
  byte ← liftW (FunctionCode_encode (FC_Custom code));
  push byte;;
  extend_from_slice data;;
  finish at_.

(** [encode_body]. *)
Definition encode_body (code : Z) (write : W unit) : W unit :=
  at_ ← out_len;
  push code;;
  write;;
  finish at_.

(** [encode_bare]. *)
Definition encode_bare (code : Z) : W unit :=
  at_ ← out_len;
  push code;;
  finish at_.

(** [encode_counted]. *)
Definition encode_counted (code : Z) (data_len : Z) (write_data : W unit) : W unit :=
  count ← liftW (ok_or (PduTooLarge (data_len + 2) MAX_PDU_LEN) (u8_try_from data_len));
  at_ ← out_len;
  push code;;
  push count;;
  write_data;;
  finish at_.

(** [RequestPdu::write]. *)
Definition RequestPdu_write (self : RequestPdu) : W unit :=
  match self with
  | Req_ReadCoils address quantity => encode_read 1 address quantity 1 MAX_READ_BITS
  | Req_ReadDiscreteInputs address quantity => encode_read 2 address quantity 1 MAX_READ_BITS
  | Req_ReadHoldingRegisters address quantity =>
      encode_read 3 address quantity 1 MAX_READ_REGISTERS
  | Req_ReadInputRegisters address quantity =>
      encode_read 4 address quantity 1 MAX_READ_REGISTERS
  | Req_WriteSingleCoil address value =>
      encode_single 5 address (if (value : bool) then COIL_ON else COIL_OFF)
  | Req_WriteSingleRegister address value => encode_single 6 address (register_value_0 value)
  | Req_WriteMultipleCoils address coils =>
      quantity ← liftW (quantity_of "quantity" (len coils) 1 MAX_WRITE_BITS);
      encode_quantified 15 address (mkQuantity quantity) (packed_len (len coils))
        (push_bits coils)
  | Req_WriteMultipleRegisters address registers =>
      quantity ← liftW (quantity_of "quantity" (len registers) 1 MAX_WRITE_REGISTERS);
      encode_quantified 16 address (mkQuantity quantity) (saturating_mul (len registers) 2)
        (push_registers registers)
  | Req_MaskWriteRegister address and_mask or_mask =>
      at_ ← out_len;
      push 22;;
      extend_from_slice (u16_to_be (address_0 address));;
      extend_from_slice (u16_to_be (mask_0 and_mask));;
      extend_from_slice (u16_to_be (mask_0 or_mask));;
      finish at_
  | Req_ReadWriteMultipleRegisters read_address read_quantity write_address registers =>
      _ ← liftW (check_range "read quantity" (quantity_0 read_quantity) 1 MAX_READ_REGISTERS);
      write_quantity ←
        liftW (quantity_of "write quantity" (len registers) 1 MAX_RW_WRITE_REGISTERS);
      let data_len := saturating_mul (len registers) 2 in
      at_ ← out_len;
      push 23;;
      extend_from_slice (u16_to_be (address_0 read_address));;
      extend_from_slice (u16_to_be (quantity_0 read_quantity));;
      extend_from_slice (u16_to_be (address_0 write_address));;
      extend_from_slice (u16_to_be write_quantity);;
      push (unwrap_or U8_MAX (u8_try_from data_len));;
      push_registers registers;;
      finish at_
  | Req_ReadExceptionStatus => encode_bare 7
  | Req_Diagnostics sub_function data => encode_diagnostics 8 sub_function data
  | Req_GetCommEventCounter => encode_bare 11
  | Req_GetCommEventLog => encode_bare 12
  | Req_ReportServerId => encode_bare 17
  | Req_ReadFileRecord records => encode_body 20 (encode_read_requests_into records)
  | Req_WriteFileRecord records => encode_body 21 (encode_write_records_into records)
  | Req_ReadFifoQueue address =>
      at_ ← out_len;
      push 24;;
      extend_from_slice (u16_to_be (address_0 address));;
      finish at_
  | Req_EncapsulatedInterfaceTransport request =>
      encode_body 43 (mei_encode_request_into request)
  | Req_Custom code data => encode_custom code data
  end.

(** [RequestPdu::encode_into]: a failure restores the buffer. *)
Definition RequestPdu_encode_into (self : RequestPdu) : W unit := λ out,
  let at_ := len out in
  let '(result, out') := RequestPdu_write self out in
  (result, if is_err result then take (Z.to_nat at_) out' else out').

(** [RequestPdu::encode]. *)
Definition RequestPdu_encode (self : RequestPdu) : Result (list Z) :=
  let '(result, out) := RequestPdu_encode_into self [] in _ ← result; Ok out.

(** [ResponsePdu::write]. *)
Definition ResponsePdu_write (self : ResponsePdu) : W unit :=
  match self with
  | Resp_ReadCoils coils => encode_counted 1 (packed_len (len coils)) (push_bits coils)
  | Resp_ReadDiscreteInputs inputs =>
      encode_counted 2 (packed_len (len inputs)) (push_bits inputs)
  | Resp_ReadHoldingRegisters registers =>
      encode_counted 3 (saturating_mul (len registers) 2) (push_registers registers)
  | Resp_ReadInputRegisters registers =>
      encode_counted 4 (saturating_mul (len registers) 2) (push_registers registers)
  | Resp_WriteSingleCoil address value =>
      encode_single 5 address (if (value : bool) then COIL_ON else COIL_OFF)
  | Resp_WriteSingleRegister address value => encode_single 6 address (register_value_0 value)
  | Resp_WriteMultipleCoils address quantity => encode_echo_quantity 15 address quantity
  | Resp_WriteMultipleRegisters address quantity => encode_echo_quantity 16 address quantity
  | Resp_MaskWriteRegister address and_mask or_mask =>
      at_ ← out_len;
      push 22;;
      extend_from_slice (u16_to_be (address_0 address));;
      extend_from_slice (u16_to_be (mask_0 and_mask));;
      extend_from_slice (u16_to_be (mask_0 or_mask));;
      finish at_
  | Resp_ReadWriteMultipleRegisters registers =>
      encode_counted 23 (saturating_mul (len registers) 2) (push_registers registers)
  | Resp_ReadExceptionStatus status =>
      at_ ← out_len;
      push 7;;
      push (exception_status_0 status);;
      finish at_
  | Resp_Diagnostics sub_function data => encode_diagnostics 8 sub_function data
  | Resp_GetCommEventCounter status event_count =>
      at_ ← out_len;
      push 11;;
      extend_from_slice (u16_to_be status);;
      extend_from_slice (u16_to_be event_count);;
      finish at_
  | Resp_GetCommEventLog status event_count message_count events =>
      let byte_count :=
        Z.min (EVENT_LOG_FIXED_BYTES + unwrap_or U32_MAX (u32_try_from (len events))) U32_MAX in
      _ ← liftW (check_event_log_bytes byte_count);
      at_ ← out_len;
      push 12;;
      push (unwrap_or U8_MAX (u8_try_from byte_count));;
      extend_from_slice (u16_to_be status);;
      extend_from_slice (u16_to_be event_count);;
      extend_from_slice (u16_to_be message_count);;
      extend_from_slice events;;
      finish at_
  | Resp_ReportServerId data => encode_counted 17 (len data) (extend_from_slice data)
  | Resp_ReadFileRecord records => encode_body 20 (encode_read_responses_into records)
  | Resp_WriteFileRecord records => encode_body 21 (encode_write_records_into records)
  | Resp_ReadFifoQueue values =>
      count ← liftW (quantity_of "FIFO count" (len values) 0 MAX_FIFO_COUNT);
      byte_count ← liftW (u16_checked (count * 2 + 2));
      at_ ← out_len;
      push 24;;
      extend_from_slice (u16_to_be byte_count);;
      extend_from_slice (u16_to_be count);;
      push_registers values;;
      finish at_
  | Resp_EncapsulatedInterfaceTransport response =>
      encode_body 43 (mei_encode_response_into response)
  | Resp_Custom code data => encode_custom code data
  | Resp_Exception exception => ExceptionResponse_encode_into exception
  end.

(** [ResponsePdu::encode_into] and [ResponsePdu::encode]. *)
Definition ResponsePdu_encode_into (self : ResponsePdu) : W unit := λ out,
  let at_ := len out in
  let '(result, out') := ResponsePdu_write self out in
  (result, if is_err result then take (Z.to_nat at_) out' else out').

Definition ResponsePdu_encode (self : ResponsePdu) : Result (list Z) :=
  let '(result, out) := ResponsePdu_encode_into self [] in _ ← result; Ok out.

(** The examples of the crate's documentation evaluate as printed there. *)
Example read_one_holding_register :
  RequestPdu_encode (Req_ReadHoldingRegisters (mkAddress 0x6B) (mkQuantity 1))
  = Ok [0x03; 0x00; 0x6B; 0x00; 0x01].
Proof. vm_compute. reflexivity. Qed.

Example answer_one_holding_register :
  ResponsePdu_encode (Resp_ReadHoldingRegisters [mkRegisterValue 0x022B])
  = Ok [0x03; 0x02; 0x02; 0x2B].
Proof. vm_compute. reflexivity. Qed.
