(* ===== verification/Display.v ===== *)
(** * The texts of values and errors ([src/frame/value.rs], [src/error.rs])

    [From] in both directions and [Display] of the domain values, and the
    [Display] of every error, as [thiserror] writes it from the format strings of
    the enum.  The texts of the I/O error kinds the model does not name are an
    argument. *)

From stdpp Require Import pretty.
From S2P Require Import Prelude.
From S2P Require Import Errors.
From S2P Require Import Value.
From S2P Require Import Function.
From S2P Require Import Exception.

(** ** Domain values: the macro [value!]

    What the macro writes for a wrapper [A]: construction from its integer, the
    integer back, and the bare integer as its text. *)
Class DomainValue (A : Type) := {
  value_from : Z → A;
  value_into : A → Z;
  value_name : string;
  value_into_from n : value_into (value_from n) = n;
  value_from_into a : value_from (value_into a) = a;
}.

#[export, refine] Instance UnitId_value : DomainValue UnitId :=
  {| value_from := mkUnitId; value_into := unit_id_0; value_name := "UnitId" |}.
Proof. all: by intros []. Defined.
#[export, refine] Instance TransactionId_value : DomainValue TransactionId :=
  {| value_from := mkTransactionId; value_into := transaction_id_0; value_name := "TransactionId" |}.
Proof. all: by intros []. Defined.
#[export, refine] Instance Address_value : DomainValue Address :=
  {| value_from := mkAddress; value_into := address_0; value_name := "Address" |}.
Proof. all: by intros []. Defined.
#[export, refine] Instance Quantity_value : DomainValue Quantity :=
  {| value_from := mkQuantity; value_into := quantity_0; value_name := "Quantity" |}.
Proof. all: by intros []. Defined.
#[export, refine] Instance RegisterValue_value : DomainValue RegisterValue :=
  {| value_from := mkRegisterValue; value_into := register_value_0; value_name := "RegisterValue" |}.
Proof. all: by intros []. Defined.
#[export, refine] Instance Mask_value : DomainValue Mask :=
  {| value_from := mkMask; value_into := mask_0; value_name := "Mask" |}.
Proof. all: by intros []. Defined.
#[export, refine] Instance FileNumber_value : DomainValue FileNumber :=
  {| value_from := mkFileNumber; value_into := file_number_0; value_name := "FileNumber" |}.
Proof. all: by intros []. Defined.
#[export, refine] Instance RecordNumber_value : DomainValue RecordNumber :=
  {| value_from := mkRecordNumber; value_into := record_number_0; value_name := "RecordNumber" |}.
Proof. all: by intros []. Defined.
#[export, refine] Instance RecordLength_value : DomainValue RecordLength :=
  {| value_from := mkRecordLength; value_into := record_length_0; value_name := "RecordLength" |}.
Proof. all: by intros []. Defined.
#[export, refine] Instance ExceptionStatus_value : DomainValue ExceptionStatus :=
  {| value_from := mkExceptionStatus; value_into := exception_status_0;
     value_name := "ExceptionStatus" |}.
Proof. all: by intros []. Defined.

Definition value_display {A} `{DomainValue A} (a : A) : string := pretty (value_into a).
Definition value_debug {A} `{DomainValue A} (a : A) : string :=
  value_name (A := A) +:+ "(" +:+ pretty (value_into a) +:+ ")".

(** A text shows which value it is of. *)
Lemma value_display_inj {A} `{DomainValue A} (a b : A) :
  value_display a = value_display b → a = b.
Proof.
  intros E. rewrite <- (value_from_into a), <- (value_from_into b). f_equal. by apply (inj pretty).
Qed.

(** ** Formatting *)

(** One hexadecimal digit of [{:x}], and [n] of them. *)
Definition hex_char (d : Z) : Ascii.ascii :=
  Ascii.ascii_of_nat (Z.to_nat (if d <? 10 then 48 + d else 87 + d)).

Fixpoint hex_digits (n : nat) (v : Z) (tail : string) : string :=
  match n with
  | O => tail
  | S n' => hex_digits n' (Z.shiftr v 4) (String (hex_char (Z.land v 0xF)) tail)
  end.

(** [{:#04x}] of a [u8] and [{:#06x}] of a [u16]: all the digits their widths have. *)
Definition hex_u8 (v : Z) : string := "0x" +:+ hex_digits 2 v "".
Definition hex_u16 (v : Z) : string := "0x" +:+ hex_digits 4 v "".

(** [Debug] of the two codes an error carries: the name of the variant. *)
Definition FunctionCode_debug (c : FunctionCode) : string :=
  match c with
  | FC_ReadCoils => "ReadCoils"
  | FC_ReadDiscreteInputs => "ReadDiscreteInputs"
  | FC_ReadHoldingRegisters => "ReadHoldingRegisters"
  | FC_ReadInputRegisters => "ReadInputRegisters"
  | FC_WriteSingleCoil => "WriteSingleCoil"
  | FC_WriteSingleRegister => "WriteSingleRegister"
  | FC_ReadExceptionStatus => "ReadExceptionStatus"
  | FC_Diagnostics => "Diagnostics"
  | FC_GetCommEventCounter => "GetCommEventCounter"
  | FC_GetCommEventLog => "GetCommEventLog"
  | FC_WriteMultipleCoils => "WriteMultipleCoils"
  | FC_WriteMultipleRegisters => "WriteMultipleRegisters"
  | FC_ReportServerId => "ReportServerId"
  | FC_ReadFileRecord => "ReadFileRecord"
  | FC_WriteFileRecord => "WriteFileRecord"
  | FC_MaskWriteRegister => "MaskWriteRegister"
  | FC_ReadWriteMultipleRegisters => "ReadWriteMultipleRegisters"
  | FC_ReadFifoQueue => "ReadFifoQueue"
  | FC_EncapsulatedInterfaceTransport => "EncapsulatedInterfaceTransport"
  | FC_Custom byte => "Custom(" +:+ pretty byte +:+ ")"
  end.

Definition ExceptionCode_debug (c : ExceptionCode) : string :=
  match c with
  | EC_IllegalFunction => "IllegalFunction"
  | EC_IllegalDataAddress => "IllegalDataAddress"
  | EC_IllegalDataValue => "IllegalDataValue"
  | EC_ServerDeviceFailure => "ServerDeviceFailure"
  | EC_Acknowledge => "Acknowledge"
  | EC_ServerDeviceBusy => "ServerDeviceBusy"
  | EC_MemoryParityError => "MemoryParityError"
  | EC_GatewayPathUnavailable => "GatewayPathUnavailable"
  | EC_GatewayTargetDeviceFailedToRespond => "GatewayTargetDeviceFailedToRespond"
  | EC_Other byte => "Other(" +:+ pretty byte +:+ ")"
  end.

(** ** Errors *)

Section errors.
Variable kind_text : Z → string.

(** [std::io::ErrorKind], as the standard library displays it. *)
Definition ErrorKind_display (kind : ErrorKind) : string :=
  match kind with
  | NotFound => "entity not found"
  | InvalidInput => "invalid input parameter"
  | UnexpectedEof => "unexpected end of file"
  | OtherKind => "other error"
  | KindNo n => kind_text n
  end.

(** [OsCode]. *)
Definition OsCode_display (code : option Z) : string :=
  match code with
  | Some n => " (os error " +:+ pretty n +:+ ")"
  | None => ""
  end.

(** The errors of the frame layer. *)
Definition frame_error_display (e : Error) : option string :=
  match e with
  | Truncated expected supplied =>
      Some ("truncated input: expected " +:+ pretty expected +:+ " byte(s), supplied " +:+
            pretty supplied)
  | TrailingBytes extra => Some (pretty extra +:+ " trailing byte(s) after a complete frame")
  | InvalidFunctionCode code => Some ("invalid function code " +:+ pretty code)
  | ReservedCode code =>
      Some ("code " +:+ pretty code +:+ " is named and must not be carried as a custom value")
  | InvalidLength expected actual =>
      Some ("invalid length: expected " +:+ pretty expected +:+ ", got " +:+ pretty actual)
  | OutOfRange field value min max =>
      Some (field +:+ " is " +:+ pretty value +:+ ", outside the permitted range " +:+ pretty min
            +:+ "..=" +:+ pretty max)
  | Checksum expected actual =>
      Some ("checksum mismatch: expected " +:+ hex_u16 expected +:+ ", computed " +:+ hex_u16 actual)
  | FramingError element => Some ("ASCII ADU has a malformed " +:+ element)
  | InvalidCharacter character =>
      Some ("byte " +:+ hex_u8 character +:+ " is not a hexadecimal character")
  | ProtocolIdentifier id => Some ("MBAP protocol identifier " +:+ pretty id +:+ " is not 0")
  | AduTooLarge len max =>
      Some ("ADU of " +:+ pretty len +:+ " bytes exceeds the maximum of " +:+ pretty max)
  | ReferenceType t => Some ("file record reference type " +:+ pretty t +:+ " is not 6")
  | IllegalValue field value =>
      Some (field +:+ " carries the undefined value " +:+ hex_u16 value)
  | ByteCountMismatch expected actual =>
      Some ("byte count mismatch: expected " +:+ pretty expected +:+ ", got " +:+ pretty actual)
  | PduTooLarge len max =>
      Some ("PDU is " +:+ pretty len +:+ " bytes, exceeding the " +:+ pretty max +:+ "-byte maximum")
  | Malformed => Some "malformed frame"
  | IndeterminateLength function =>
      Some ("cannot derive ADU length from function code " +:+ hex_u8 function)
  | _ => None
  end.

(** The errors of the layers above it. *)
Definition std_error_display (e : Error) : option string :=
  match e with
  | Io kind raw_os_error =>
      Some ("I/O error: " +:+ ErrorKind_display kind +:+ OsCode_display raw_os_error)
  | Timeout what => Some (what +:+ " timed out")
  | ConnectionClosed => Some "connection closed mid-frame"
  | Configuration field => Some ("invalid configuration for " +:+ field)
  | ExceptionError function exception =>
      Some ("server returned exception " +:+ ExceptionCode_debug exception +:+ " for function " +:+
            FunctionCode_debug function)
  | UnexpectedFunction expected actual =>
      Some ("expected a response to " +:+ FunctionCode_debug expected +:+ ", got " +:+
            FunctionCode_debug actual)
  | Desynchronized => Some "the exchange is desynchronized; a new connection is required"
  | TooManyInFlight => Some "too many requests already in flight"
  | BlockingInAsyncContext => Some "a blocking call was made from inside an async runtime"
  | Rs485Unsupported =>
      Some "RS-485 kernel mode is not supported on this platform or by this driver"
  | TlsHandshake _ _ => Some "TLS handshake failed"
  | _ => None
  end.

Definition Error_display (e : Error) : string :=
  match frame_error_display e with
  | Some text => text
  | None => default "" (std_error_display e)
  end.

(** Every error has a text, from one of the two halves and not from both. *)
Lemma Error_display_total e :
  is_Some (frame_error_display e) ↔ std_error_display e = None.
Proof. destruct e; cbn; split; intros H; try done; by destruct H. Qed.
End errors.
