(* ===== verification/PduSpec.v ===== *)
(** * What the PDU encoders promise

    The wire layout of every request and response PDU as a pure byte string,
    with the check each carries, and the refinement of the buffer-writing
    encoders of [Pdu] to it: [encode_into] appends exactly those bytes, or
    fails with exactly that error and leaves the buffer as it was. *)

From S2P Require Import Prelude.
From S2P Require Import Errors.
From S2P Require Import Parse.
From S2P Require Import Value.
From S2P Require Import Function.
From S2P Require Import Exception.
From S2P Require Import Diagnostics.
From S2P Require Import Wire.
From S2P Require Import Mei.
From S2P Require Import FileRecord.
From S2P Require Import Pdu.

(** The size bound every PDU ends with. *)
Definition sized (bs : list Z) : Result (list Z) :=
  if MAX_PDU_LEN <? len bs then Err (PduTooLarge (len bs) MAX_PDU_LEN) else Ok bs.

(** A body whose data is preceded by a one-byte count. *)
Definition counted_layout (code n : Z) (data : list Z) : Result (list Z) :=
  if n <=? U8_MAX then sized (code :: n :: data)
  else Err (PduTooLarge (n + 2) MAX_PDU_LEN).

Definition read_layout (code : Z) (a : Address) (q : Quantity) (max : Z) : Result (list Z) :=
  _ ← check_range "quantity" (quantity_0 q) 1 max;
  sized ([code] ++ u16_to_be (address_0 a) ++ u16_to_be (quantity_0 q)).

Definition coil_word (v : bool) : Z := if v then COIL_ON else COIL_OFF.

Definition diagnostics_layout (s : DiagnosticSubFunction) (data : list Z) : Result (list Z) :=
  raw ← DiagnosticSubFunction_encode s;
  sized ([8] ++ u16_to_be raw ++ words_bytes data).

Definition custom_layout (code : Z) (data : list Z) : Result (list Z) :=
  byte ← FunctionCode_encode (FC_Custom code); sized ([byte] ++ data).

Definition request_bytes (r : RequestPdu) : Result (list Z) :=
  match r with
  | Req_ReadCoils a q => read_layout 1 a q MAX_READ_BITS
  | Req_ReadDiscreteInputs a q => read_layout 2 a q MAX_READ_BITS
  | Req_ReadHoldingRegisters a q => read_layout 3 a q MAX_READ_REGISTERS
  | Req_ReadInputRegisters a q => read_layout 4 a q MAX_READ_REGISTERS
  | Req_WriteSingleCoil a v => sized ([5] ++ u16_to_be (address_0 a) ++ u16_to_be (coil_word v))
  | Req_WriteSingleRegister a v =>
      sized ([6] ++ u16_to_be (address_0 a) ++ u16_to_be (register_value_0 v))
  | Req_WriteMultipleCoils a cs =>
      q ← quantity_of "quantity" (len cs) 1 MAX_WRITE_BITS;
      sized ([15] ++ u16_to_be (address_0 a) ++ u16_to_be q ++ [packed_len q] ++ bits_bytes cs)
  | Req_WriteMultipleRegisters a rs =>
      q ← quantity_of "quantity" (len rs) 1 MAX_WRITE_REGISTERS;
      sized ([16] ++ u16_to_be (address_0 a) ++ u16_to_be q ++ [2 * q] ++ registers_bytes rs)
  | Req_MaskWriteRegister a am om =>
      sized ([22] ++ u16_to_be (address_0 a) ++ u16_to_be (mask_0 am) ++ u16_to_be (mask_0 om))
  | Req_ReadWriteMultipleRegisters ra rq wa rs =>
      _ ← check_range "read quantity" (quantity_0 rq) 1 MAX_READ_REGISTERS;
      q ← quantity_of "write quantity" (len rs) 1 MAX_RW_WRITE_REGISTERS;
      sized ([23] ++ u16_to_be (address_0 ra) ++ u16_to_be (quantity_0 rq) ++
             u16_to_be (address_0 wa) ++ u16_to_be q ++ [2 * q] ++ registers_bytes rs)
  | Req_ReadExceptionStatus => sized [7]
  | Req_Diagnostics s data => diagnostics_layout s data
  | Req_GetCommEventCounter => sized [11]
  | Req_GetCommEventLog => sized [12]
  | Req_ReportServerId => sized [17]
  | Req_ReadFileRecord rs => bs ← read_requests_bytes rs; sized (20 :: bs)
  | Req_WriteFileRecord rs => bs ← write_records_bytes rs; sized (21 :: bs)
  | Req_ReadFifoQueue a => sized ([24] ++ u16_to_be (address_0 a))
  | Req_EncapsulatedInterfaceTransport m => sized (43 :: mei_request_bytes m)
  | Req_Custom code data => custom_layout code data
  end.

Definition exception_bytes (e : ExceptionResponse) : Result (list Z) :=
  f ← FunctionCode_encode (er_function e);
  x ← ExceptionCode_encode (er_exception e);
  Ok [Z.lor f EXCEPTION_FLAG; x].

Definition response_bytes (r : ResponsePdu) : Result (list Z) :=
  match r with
  | Resp_ReadCoils cs => counted_layout 1 (packed_len (len cs)) (bits_bytes cs)
  | Resp_ReadDiscreteInputs cs => counted_layout 2 (packed_len (len cs)) (bits_bytes cs)
  | Resp_ReadHoldingRegisters rs =>
      counted_layout 3 (saturating_mul (len rs) 2) (registers_bytes rs)
  | Resp_ReadInputRegisters rs =>
      counted_layout 4 (saturating_mul (len rs) 2) (registers_bytes rs)
  | Resp_WriteSingleCoil a v =>
      sized ([5] ++ u16_to_be (address_0 a) ++ u16_to_be (coil_word v))
  | Resp_WriteSingleRegister a v =>
      sized ([6] ++ u16_to_be (address_0 a) ++ u16_to_be (register_value_0 v))
  | Resp_WriteMultipleCoils a q =>
      sized ([15] ++ u16_to_be (address_0 a) ++ u16_to_be (quantity_0 q))
  | Resp_WriteMultipleRegisters a q =>
      sized ([16] ++ u16_to_be (address_0 a) ++ u16_to_be (quantity_0 q))
  | Resp_MaskWriteRegister a am om =>
      sized ([22] ++ u16_to_be (address_0 a) ++ u16_to_be (mask_0 am) ++ u16_to_be (mask_0 om))
  | Resp_ReadWriteMultipleRegisters rs =>
      counted_layout 23 (saturating_mul (len rs) 2) (registers_bytes rs)
  | Resp_ReadExceptionStatus s => sized [7; exception_status_0 s]
  | Resp_Diagnostics s data => diagnostics_layout s data
  | Resp_GetCommEventCounter s c => sized ([11] ++ u16_to_be s ++ u16_to_be c)
  | Resp_GetCommEventLog s c m es =>
      _ ← check_event_log_bytes
            (Z.min (EVENT_LOG_FIXED_BYTES + unwrap_or U32_MAX (u32_try_from (len es))) U32_MAX);
      sized ([12; 6 + len es] ++ u16_to_be s ++ u16_to_be c ++ u16_to_be m ++ es)
  | Resp_ReportServerId data => counted_layout 17 (len data) data
  | Resp_ReadFileRecord rs => bs ← read_responses_bytes rs; sized (20 :: bs)
  | Resp_WriteFileRecord rs => bs ← write_records_bytes rs; sized (21 :: bs)
  | Resp_ReadFifoQueue vs =>
      q ← quantity_of "FIFO count" (len vs) 0 MAX_FIFO_COUNT;
      sized ([24] ++ u16_to_be (2 * q + 2) ++ u16_to_be q ++ registers_bytes vs)
  | Resp_EncapsulatedInterfaceTransport m => bs ← mei_response_bytes m; sized (43 :: bs)
  | Resp_Custom code data => custom_layout code data
  | Resp_Exception e => exception_bytes e
  end.

(** ** Size *)

Lemma sized_inv bs out : sized bs = Ok out → out = bs ∧ len bs ≤ MAX_PDU_LEN.
Proof. unfold sized. case_match; intros [=]; split_guards; auto. Qed.

Lemma sized_ok bs : len bs ≤ MAX_PDU_LEN → sized bs = Ok bs.
Proof. intros. unfold sized. by destruct (Z.ltb_spec MAX_PDU_LEN (len bs)); [lia|]. Qed.

Lemma sized_no_panic bs : sized bs ≠ Panic.
Proof. unfold sized. by case_match. Qed.

Lemma finish_app out bs :
  finish (len out) (out ++ bs) = ((λ _, tt) <$> sized bs, out ++ bs).
Proof.
  unfold finish, sized. rewrite len_app, saturating_sub_add by apply len_nonneg.
  by case_match.
Qed.

(** A writer that ends in [finish] after writing [bs] writes [sized bs]. *)
Lemma Writes_finish (w : W unit) bs :
  (∀ out, w out = finish (len out) (out ++ bs)) → Writes w (sized bs).
Proof.
  intros Hw out. rewrite Hw, finish_app. pose proof (sized_no_panic bs).
  destruct (sized bs) as [bs'|e|] eqn:E; [|by eexists|done].
  by apply sized_inv in E as [-> _].
Qed.

(** A check in front of a writer. *)
Lemma Writes_check {A} (c : Result A) (k : A → W unit) (f : A → Result (list Z)) :
  c ≠ Panic → (∀ a, c = Ok a → Writes (k a) (f a)) →
  Writes (liftW c ≫= k) (c ≫= f).
Proof.
  intros Hc Hk out. rewrite W_bind_run. unfold liftW.
  destruct c as [a|e|]; cbn; [by apply Hk|exists []; by rewrite app_nil_r|done].
Qed.

Lemma check_range_cases f v lo hi :
  (check_range f v lo hi = Ok tt ∧ lo ≤ v ≤ hi) ∨
  (check_range f v lo hi = Err (OutOfRange f v lo hi) ∧ ¬ lo ≤ v ≤ hi).
Proof.
  unfold check_range. destruct (_ || _) eqn:E; split_guards; [right|left]; split; (done || lia).
Qed.

Lemma check_range_ok f v lo hi : lo ≤ v ≤ hi → check_range f v lo hi = Ok tt.
Proof. destruct (check_range_cases f v lo hi) as [[-> _]|[_ ?]]; [done|lia]. Qed.

Lemma check_range_inv f v lo hi u : check_range f v lo hi = Ok u → lo ≤ v ≤ hi.
Proof. destruct (check_range_cases f v lo hi) as [[_ ?]|[-> _]]; done. Qed.

Lemma check_range_no_panic f v lo hi : check_range f v lo hi ≠ Panic.
Proof. by destruct (check_range_cases f v lo hi) as [[-> _]|[-> _]]. Qed.

(** [quantity_of] of a length below the 16-bit maximum is that length. *)
Lemma quantity_of_inv f n lo hi q :
  hi < U16_MAX → quantity_of f n lo hi = Ok q → q = n ∧ lo ≤ n ≤ hi.
Proof.
  intros Hhi H. unfold quantity_of in H.
  apply Result_bind_inv in H as ([] & Hr%check_range_inv & [= <-]).
  unfold u16_try_from, try_from_max in *. destruct (Z.leb_spec n U16_MAX); cbn in *; lia.
Qed.

Lemma quantity_of_ok f n lo hi :
  hi < U16_MAX → lo ≤ n ≤ hi → quantity_of f n lo hi = Ok n.
Proof.
  intros Hhi Hn. unfold quantity_of, u16_try_from.
  rewrite try_from_max_ok by lia. cbn. by rewrite check_range_ok.
Qed.

Lemma quantity_of_no_panic f n lo hi : quantity_of f n lo hi ≠ Panic.
Proof.
  unfold quantity_of.
  destruct (check_range_cases f (unwrap_or U16_MAX (u16_try_from n)) lo hi)
    as [[-> _]|[-> _]]; done.
Qed.

Lemma check_event_log_cases n :
  (check_event_log_bytes n = Ok tt ∧ 6 ≤ n ≤ 70) ∨
  (check_event_log_bytes n = Err (OutOfRange "byte count" n 6 70) ∧ ¬ 6 ≤ n ≤ 70).
Proof.
  unfold check_event_log_bytes, EVENT_LOG_FIXED_BYTES, MAX_EVENT_BYTES, U32_MAX.
  change (Z.min (6 + 64) 4294967295) with 70.
  destruct (_ || _) eqn:E; split_guards; [right|left]; split; (done || lia).
Qed.

Lemma event_log_count n :
  0 ≤ n →
  (Z.min (EVENT_LOG_FIXED_BYTES + unwrap_or U32_MAX (u32_try_from n)) U32_MAX ≤ 70 →
   Z.min (EVENT_LOG_FIXED_BYTES + unwrap_or U32_MAX (u32_try_from n)) U32_MAX = 6 + n).
Proof.
  intros Hn. unfold u32_try_from, try_from_max, EVENT_LOG_FIXED_BYTES, unwrap_or.
  destruct (Z.leb_spec n U32_MAX); cbn [from_option]; unfold id, U32_MAX in *; lia.
Qed.

(** ** The encoders refine the layout *)

(** [finish_layout]: a straight sequence of writes closed by [finish]. *)
Ltac finish_layout :=
  apply Writes_finish; intros ?; w_run;
  rewrite ?push_registers_spec, ?push_words_spec, ?push_bits_spec; w_run; try done.

Lemma encode_read_spec c a q max :
  Writes (encode_read c a q 1 max) (read_layout c a q max).
Proof.
  unfold encode_read, read_layout. apply Writes_check; [apply check_range_no_panic|].
  intros _ _. finish_layout.
Qed.

Lemma encode_single_spec c a v :
  Writes (encode_single c a v) (sized ([c] ++ u16_to_be (address_0 a) ++ u16_to_be v)).
Proof. unfold encode_single. finish_layout. Qed.

Lemma encode_quantified_spec c a q n wr data :
  0 ≤ n ≤ 255 → (∀ out, wr out = (Ok tt, out ++ data)) →
  Writes (encode_quantified c a q n wr)
    (sized ([c] ++ u16_to_be (address_0 a) ++ u16_to_be (quantity_0 q) ++ [n] ++ data)).
Proof.
  intros Hn Hw. unfold encode_quantified, u8_try_from. rewrite try_from_max_ok by (unfold U8_MAX; lia).
  apply Writes_finish; intros ?; w_run. rewrite Hw. by w_run.
Qed.

Lemma encode_counted_spec c n wr data :
  (∀ out, wr out = (Ok tt, out ++ data)) →
  Writes (encode_counted c n wr) (counted_layout c n data).
Proof.
  intros Hw. unfold encode_counted, counted_layout, u8_try_from, try_from_max.
  destruct (n <=? U8_MAX).
  - apply Writes_finish; intros ?; w_run. rewrite Hw. by w_run.
  - intros out. exists []. w_run. by rewrite app_nil_r.
Qed.

Lemma encode_diagnostics_spec s data :
  Writes (encode_diagnostics 8 s data) (diagnostics_layout s data).
Proof.
  intros out. unfold encode_diagnostics, diagnostics_layout.
  destruct (DiagnosticSubFunction_encode s) as [raw|e|] eqn:E.
  - rewrite Result_bind_ok. revert out.
    apply (Writes_finish _ ([8] ++ u16_to_be raw ++ words_bytes data)).
    intros out. w_run. rewrite push_words_spec. by w_run.
  - exists [8]. by w_run.
  - destruct s; try done. cbn in E. by case_match.
Qed.

Lemma FunctionCode_encode_no_panic c : FunctionCode_encode c ≠ Panic.
Proof. destruct c; try done. cbn. repeat case_match; done. Qed.

Lemma ExceptionCode_encode_no_panic c : ExceptionCode_encode c ≠ Panic.
Proof. destruct c; try done. cbn. by case_match. Qed.

Lemma encode_custom_spec code data :
  Writes (encode_custom code data) (custom_layout code data).
Proof.
  intros out. unfold encode_custom, custom_layout.
  pose proof (FunctionCode_encode_no_panic (FC_Custom code)).
  destruct (FunctionCode_encode (FC_Custom code)) as [b|e|] eqn:E; [|exists []|done].
  - rewrite Result_bind_ok. revert out. apply (Writes_finish _ ([b] ++ data)).
    intros out. by w_run.
  - w_run. by rewrite app_nil_r.
Qed.

Lemma encode_body_spec code wr r :
  Writes wr r → Writes (encode_body code wr) (bs ← r; sized (code :: bs)).
Proof.
  intros Hw out. unfold encode_body. specialize (Hw (out ++ [code])).
  destruct r as [bs|e|]; cbn [mbind Result_bind]; [| |done].
  - revert out Hw. intros out Hw. w_run. rewrite Hw. rewrite <- app_assoc. cbn [app].
    rewrite finish_app. pose proof (sized_no_panic (code :: bs)).
    destruct (sized (code :: bs)) as [bs'|e|] eqn:E; [|by eexists|done].
    by apply sized_inv in E as [-> _].
  - destruct Hw as [p Hw]. exists (code :: p). w_run. rewrite Hw. by rewrite <- app_assoc.
Qed.

(** [layout_of]: the specification of the encoder a writer calls. *)
Ltac layout_of :=
  lazymatch goal with
  | |- Writes (encode_single _ _ _) _ => apply encode_single_spec
  | |- Writes (encode_read _ _ _ _ _) _ => apply encode_read_spec
  | |- Writes (encode_diagnostics _ _ _) _ => apply encode_diagnostics_spec
  | |- Writes (encode_custom _ _) _ => apply encode_custom_spec
  | |- Writes (encode_counted _ _ (push_bits _)) _ => apply encode_counted_spec, push_bits_spec
  | |- Writes (encode_counted _ _ (push_registers _)) _ =>
      apply encode_counted_spec, push_registers_spec
  | |- Writes (encode_counted _ _ (extend_from_slice _)) _ => by apply encode_counted_spec
  | |- Writes (encode_body _ (mei_encode_request_into ?m)) _ =>
      apply (encode_body_spec _ _ (Ok (mei_request_bytes m))), mei_encode_request_spec
  | |- Writes (encode_body _ (mei_encode_response_into _)) _ =>
      apply encode_body_spec, mei_encode_response_spec
  | |- Writes (encode_body _ (encode_read_requests_into _)) _ =>
      apply encode_body_spec, encode_read_requests_spec
  | |- Writes (encode_body _ (encode_read_responses_into _)) _ =>
      apply encode_body_spec, encode_read_responses_spec
  | |- Writes (encode_body _ (encode_write_records_into _)) _ =>
      apply encode_body_spec, encode_write_records_spec
  | |- Writes (encode_bare _) _ => unfold encode_bare; finish_layout
  | |- Writes (encode_echo_quantity _ _ _) _ => unfold encode_echo_quantity; finish_layout
  | |- Writes (out_len ≫= _) _ => finish_layout
  end.

Lemma RequestPdu_write_spec r : Writes (RequestPdu_write r) (request_bytes r).
Proof.
  destruct r; cbn [RequestPdu_write request_bytes]; try layout_of.
  - apply Writes_check; [apply quantity_of_no_panic|]. intros q Hq.
    apply quantity_of_inv in Hq as [-> Hq]; [|done].
    apply (encode_quantified_spec 15 address (mkQuantity (len coils))
      (packed_len (len coils)) (push_bits coils)); [|apply push_bits_spec].
    pose proof (packed_len_bounds (len coils)). unfold MAX_WRITE_BITS in Hq. lia.
  - apply Writes_check; [apply quantity_of_no_panic|]. intros q Hq.
    apply quantity_of_inv in Hq as [-> Hq]; [|done]. unfold MAX_WRITE_REGISTERS in Hq.
    rewrite saturating_mul_small, Z.mul_comm by (unfold USIZE_MAX; lia).
    apply (encode_quantified_spec 16 address (mkQuantity (len registers))); [lia|].
    apply push_registers_spec.
  - apply Writes_check; [apply check_range_no_panic|]. intros _ _.
    apply Writes_check; [apply quantity_of_no_panic|]. intros q Hq.
    apply quantity_of_inv in Hq as [-> Hq]; [|done]. unfold MAX_RW_WRITE_REGISTERS in Hq.
    rewrite saturating_mul_small, Z.mul_comm by (unfold USIZE_MAX; lia).
    unfold u8_try_from. rewrite try_from_max_ok by (unfold U8_MAX; lia). finish_layout.
Qed.

Lemma ResponsePdu_write_spec r : Writes (ResponsePdu_write r) (response_bytes r).
Proof.
  destruct r; cbn [ResponsePdu_write response_bytes]; try layout_of.
  - apply Writes_check.
    { by match goal with |- check_event_log_bytes ?n ≠ _ =>
        destruct (check_event_log_cases n) as [[-> _]|[-> _]] end. }
    intros [] Hc. revert Hc. pose proof (event_log_count _ (len_nonneg events)) as Hn.
    revert Hn. generalize (Z.min (EVENT_LOG_FIXED_BYTES +
      unwrap_or U32_MAX (u32_try_from (len events))) U32_MAX). intros n Hn Hc.
    destruct (check_event_log_cases n) as [[_ Hb]|[Hb _]]; [|by rewrite Hb in Hc].
    unfold u8_try_from. rewrite try_from_max_ok by (unfold U8_MAX; lia).
    rewrite <- Hn by lia. finish_layout.
  - apply Writes_check; [apply quantity_of_no_panic|]. intros q Hq.
    apply quantity_of_inv in Hq as [-> Hq]; [|done]. unfold MAX_FIFO_COUNT in Hq.
    rewrite (Z.mul_comm (len values)). unfold u16_checked.
    destruct (Z.ltb_spec U16_MAX (2 * len values + 2)); [unfold U16_MAX in *; lia|].
    finish_layout.
  - intros out. rewrite ExceptionResponse_encode_into_spec. unfold exception_bytes.
    pose proof (FunctionCode_encode_no_panic (er_function exception)).
    destruct (FunctionCode_encode (er_function exception)); cbn; [| |done].
    + pose proof (ExceptionCode_encode_no_panic (er_exception exception)).
      destruct (ExceptionCode_encode (er_exception exception)); cbn; [done| |done].
      exists []. by rewrite app_nil_r.
    + exists []. by rewrite app_nil_r.
Qed.

(** A writer whose failure truncates the buffer back is all-or-nothing. *)
Lemma restore_spec (w : W unit) r out :
  Writes w r →
  (let '(result, out') := w out in
   (result, if is_err result then take (Z.to_nat (len out)) out' else out')) =
  match r with
  | Ok bs => (Ok tt, out ++ bs)
  | Err e => (Err e, out)
  | Panic => (Panic, out)
  end.
Proof.
  intros Hw. specialize (Hw out). destruct r as [bs|e|]; [by rewrite Hw| |done].
  destruct Hw as [p ->]. cbn. unfold len. by rewrite Nat2Z.id, take_app_length.
Qed.

Lemma RequestPdu_encode_into_spec r out :
  RequestPdu_encode_into r out =
  match request_bytes r with
  | Ok bs => (Ok tt, out ++ bs)
  | Err e => (Err e, out)
  | Panic => (Panic, out)
  end.
Proof. apply restore_spec, RequestPdu_write_spec. Qed.

Lemma ResponsePdu_encode_into_spec r out :
  ResponsePdu_encode_into r out =
  match response_bytes r with
  | Ok bs => (Ok tt, out ++ bs)
  | Err e => (Err e, out)
  | Panic => (Panic, out)
  end.
Proof. apply restore_spec, ResponsePdu_write_spec. Qed.

Lemma Writes_not_panic w r : Writes w r → r ≠ Panic.
Proof. intros Hw ->. exact (Hw []). Qed.

Lemma request_bytes_no_panic r : request_bytes r ≠ Panic.
Proof. exact (Writes_not_panic _ _ (RequestPdu_write_spec r)). Qed.

Lemma response_bytes_no_panic r : response_bytes r ≠ Panic.
Proof. exact (Writes_not_panic _ _ (ResponsePdu_write_spec r)). Qed.

Lemma RequestPdu_encode_bytes r : RequestPdu_encode r = request_bytes r.
Proof.
  unfold RequestPdu_encode. rewrite RequestPdu_encode_into_spec.
  by destruct (request_bytes r).
Qed.

Lemma ResponsePdu_encode_bytes r : ResponsePdu_encode r = response_bytes r.
Proof.
  unfold ResponsePdu_encode. rewrite ResponsePdu_encode_into_spec.
  by destruct (response_bytes r).
Qed.
