(* ===== verification/PduRoundtrip.v ===== *)
(** * Decoding and encoding PDUs are inverse

    Both directions of the round trip for requests and responses: a PDU that
    encodes decodes to itself, and bytes that decode re-encode to themselves,
    so that decoding accepts exactly the encodings of well-formed values. *)

From S2P Require Import Prelude.
From S2P Require Import Errors.
From S2P Require Import Parse.
From S2P Require Import Value.
From S2P Require Import Function.
From S2P Require Import Exception.
From S2P Require Import Diagnostics.
From S2P Require Import Wire.
From S2P Require Import Mei.
From S2P Require Import FileRecord.
From S2P Require Import Pdu.
From S2P Require Import PduSpec.

(** ** Well-formedness: every field fits its type *)

#[export] Instance Wf_RequestPdu : Wf RequestPdu := λ r,
  match r with
  | Req_ReadCoils a q | Req_ReadDiscreteInputs a q | Req_ReadHoldingRegisters a q
  | Req_ReadInputRegisters a q => wf a ∧ wf q
  | Req_WriteSingleCoil a _ => wf a
  | Req_WriteSingleRegister a v => wf a ∧ wf v
  | Req_WriteMultipleCoils a _ => wf a
  | Req_WriteMultipleRegisters a rs => wf a ∧ wf rs
  | Req_MaskWriteRegister a am om => wf a ∧ wf am ∧ wf om
  | Req_ReadWriteMultipleRegisters ra rq wa rs => wf ra ∧ wf rq ∧ wf wa ∧ wf rs
  | Req_ReadExceptionStatus | Req_GetCommEventCounter | Req_GetCommEventLog
  | Req_ReportServerId => True
  | Req_Diagnostics s data => wf s ∧ Forall is_u16 data
  | Req_ReadFileRecord rs => wf rs
  | Req_WriteFileRecord rs => wf rs
  | Req_ReadFifoQueue a => wf a
  | Req_EncapsulatedInterfaceTransport m => wf m
  | Req_Custom code data => is_u8 code ∧ bytes_ok data
  end.

#[export] Instance Wf_ResponsePdu : Wf ResponsePdu := λ r,
  match r with
  | Resp_ReadCoils _ | Resp_ReadDiscreteInputs _ => True
  | Resp_ReadHoldingRegisters rs | Resp_ReadInputRegisters rs
  | Resp_ReadWriteMultipleRegisters rs | Resp_ReadFifoQueue rs => wf rs
  | Resp_WriteSingleCoil a _ => wf a
  | Resp_WriteSingleRegister a v => wf a ∧ wf v
  | Resp_WriteMultipleCoils a q | Resp_WriteMultipleRegisters a q => wf a ∧ wf q
  | Resp_MaskWriteRegister a am om => wf a ∧ wf am ∧ wf om
  | Resp_ReadExceptionStatus s => wf s
  | Resp_Diagnostics s data => wf s ∧ Forall is_u16 data
  | Resp_GetCommEventCounter s c => is_u16 s ∧ is_u16 c
  | Resp_GetCommEventLog s c m es => is_u16 s ∧ is_u16 c ∧ is_u16 m ∧ bytes_ok es
  | Resp_ReportServerId data => bytes_ok data
  | Resp_ReadFileRecord rs => wf rs
  | Resp_WriteFileRecord rs => wf rs
  | Resp_EncapsulatedInterfaceTransport m => wf m
  | Resp_Custom code data => is_u8 code ∧ bytes_ok data
  | Resp_Exception e => wf e
  end.

(** The one representation decoding picks among values with the same bytes:
    a named MEI type is not carried as [Other], and the bits of a read response
    fill whole bytes, since the response does not say how many were asked for. *)
Definition request_canonical (r : RequestPdu) : bool :=
  match r with
  | Req_EncapsulatedInterfaceTransport m => mei_request_canonical m
  | _ => true
  end.

Definition response_canonical (r : ResponsePdu) : bool :=
  match r with
  | Resp_ReadCoils cs | Resp_ReadDiscreteInputs cs => len cs mod 8 =? 0
  | Resp_EncapsulatedInterfaceTransport m => mei_response_canonical m
  | _ => true
  end.

(** ** Packed bits *)

Lemma packed_bits_run cs : packed_bits (bits_bytes cs) (len cs) = Ok cs.
Proof.
  unfold packed_bits. rewrite bits_from_bits_bytes.
  replace (Z.to_nat (len cs)) with (length cs) by (unfold len; lia).
  rewrite drop_app_length, take_app_length.
  replace (existsb id _) with false; [by rewrite andb_false_r|].
  symmetry. apply not_true_iff_false. rewrite existsb_exists.
  intros (b & Hb%list_elem_of_In & ?). apply elem_of_replicate_inv in Hb. by subst.
Qed.

Lemma existsb_id_false l : existsb id l = false → l = replicate (length l) false.
Proof. induction l as [|[] l IH]; [done|done|]. cbn. intros H. f_equal. by apply IH. Qed.

Lemma packed_bits_inv data q cs :
  bytes_ok data → 0 ≤ q → len data = packed_len q → packed_bits data q = Ok cs →
  len cs = q ∧ bits_bytes cs = data.
Proof.
  intros Hd Hq Hl H. unfold packed_bits in H.
  pose proof (packed_len_bounds q Hq). pose proof (len_bits_from_bytes data) as Hb.
  destruct (_ && _) eqn:E; [done|]. injection H as <-.
  destruct (Z.leb_spec q (len (bits_from_bytes data))); [|lia]. cbn in E.
  apply existsb_id_false in E. set (bits := bits_from_bytes data) in *.
  assert (len (take (Z.to_nat q) bits) = q) as Hlen by (rewrite len_take; lia).
  split; [done|]. rewrite <- (bits_bytes_from_bytes data Hd).
  rewrite <- (bits_bytes_from_bytes (bits_bytes _)) by apply bits_bytes_ok.
  f_equal. rewrite bits_from_bits_bytes, Hlen. fold bits.
  rewrite <- (take_drop (Z.to_nat q) bits) at 2. f_equal. rewrite E. f_equal.
  rewrite length_drop. unfold len in *. lia.
Qed.

(** ** The body parsers *)

Section parsers.
Context {w : Winnow} {ws : WinnowSpec w}.

Lemma counted_bytes_run data : counted_bytes (len data :: data) = POk data [].
Proof.
  unfold counted_bytes. p_run. rewrite Z.eqb_refl. cbn [negb].
  pose proof (take_app data []) as Ht. by rewrite app_nil_r in Ht.
Qed.

Lemma counted_bytes_inv i data i' :
  bytes_ok i → counted_bytes i = POk data i' →
  i = len data :: data ∧ i' = [] ∧ len data ≤ 255 ∧ bytes_ok data.
Proof.
  intros Hi H. unfold counted_bytes in H. parse_inv; split_guards. subst.
  match goal with H : take_bytes (len ?x) ?x = _ |- _ =>
    rewrite <- (app_nil_r x), len_app, Z.add_0_r, take_app in H; injection H as <- <- end.
  match goal with H : is_u8 _ |- _ => unfold is_u8 in H end. split_and!; (done || lia).
Qed.

Lemma quantified_bytes_run f lo hi width q data :
  lo ≤ q ≤ hi → width q = len data →
  quantified_bytes f lo hi width (u16_to_be q ++ len data :: data) = POk (q, data) [].
Proof.
  intros Hq Hw. unfold quantified_bytes. p_run. rewrite check_range_ok by done. p_run.
  rewrite Hw, Z.eqb_refl. cbn [negb]. p_run. rewrite Z.ltb_irrefl.
  rewrite <- (app_nil_r data) at 2. by p_run.
Qed.

Lemma quantified_bytes_inv f lo hi width i q data i' :
  bytes_ok i → quantified_bytes f lo hi width i = POk (q, data) i' →
  i = u16_to_be q ++ len data :: data ++ i' ∧ lo ≤ q ≤ hi ∧ is_u16 q ∧
  len data = width q ∧ bytes_ok data ∧ bytes_ok i'.
Proof.
  intros Hi H. unfold quantified_bytes in H. parse_inv; split_guards; try done. subst.
  match goal with H : check_range _ _ _ _ = _ |- _ => apply check_range_inv in H end.
  match goal with H : is_u8 _ |- _ => unfold is_u8 in H end.
  match goal with H : take_bytes _ _ = _ |- _ => apply take_inv in H as [-> Hl]; [|lia] end.
  match goal with H : (_, _) = _ |- _ => injection H as <- <- end. rewrite Hl.
  match goal with H : bytes_ok (_ ++ _) |- _ => apply bytes_ok_app_inv in H as [? ?] end.
  split_and!; (done || lia).
Qed.

Lemma read_request_run lo hi a q tl :
  lo ≤ q ≤ hi →
  read_request lo hi (u16_to_be a ++ u16_to_be q ++ tl) = POk (mkAddress a, mkQuantity q) tl.
Proof. intros Hq. unfold read_request. p_run. rewrite check_range_ok by done. by p_run. Qed.

Lemma read_request_inv lo hi i a q i' :
  bytes_ok i → read_request lo hi i = POk (a, q) i' →
  i = u16_to_be (address_0 a) ++ u16_to_be (quantity_0 q) ++ i' ∧
  lo ≤ quantity_0 q ≤ hi ∧ wf a ∧ wf q.
Proof.
  intros Hi H. unfold read_request in H. parse_inv.
  match goal with H : check_range _ _ _ _ = _ |- _ => apply check_range_inv in H end.
  match goal with H : (_, _) = _ |- _ => injection H as <- <- end. done.
Qed.

Lemma single_coil_run a v tl :
  single_coil (u16_to_be a ++ u16_to_be (coil_word v) ++ tl) = POk (mkAddress a, v) tl.
Proof. unfold single_coil. p_run. by destruct v. Qed.

Lemma single_coil_inv i a v i' :
  bytes_ok i → single_coil i = POk (a, v) i' →
  i = u16_to_be (address_0 a) ++ u16_to_be (coil_word v) ++ i' ∧ wf a.
Proof.
  intros Hi H. unfold single_coil in H. parse_inv; split_guards; try done; subst;
    match goal with H : (_, _) = _ |- _ => injection H as <- <- end; done.
Qed.

Lemma registers_run rs : registers (2 * len rs :: registers_bytes rs) = POk rs [].
Proof.
  unfold registers. rewrite <- len_registers_bytes.
  rewrite P_bind_run, counted_bytes_run, len_registers_bytes.
  rewrite (Z.mul_comm 2), Z_mod_mult. cbn [Z.eqb negb].
  by rewrite registers_from_registers_bytes.
Qed.

Lemma registers_inv i rs i' :
  bytes_ok i → registers i = POk rs i' →
  i = 2 * len rs :: registers_bytes rs ∧ i' = [] ∧ wf rs ∧ 2 * len rs ≤ 255.
Proof.
  intros Hi H. unfold registers in H. apply P_bind_inv in H as (data & i1 & H1 & H).
  apply counted_bytes_inv in H1 as (-> & -> & Hl & Hb); [|done].
  parse_inv; split_guards.
  destruct (registers_bytes_from_bytes data) as [Hr Hw]; [done..|].
  rewrite len_registers_from_bytes, Hr. pose proof (Z.div_mod (len data) 2).
  split_and!; try done; [f_equal|]; lia.
Qed.

Lemma diagnostic_body_run s raw data :
  DiagnosticSubFunction_encode s = Ok raw →
  diagnostic_body (u16_to_be raw ++ words_bytes data) = POk (s, data) [].
Proof.
  intros Hs%DiagnosticSubFunction_encode_decode. unfold diagnostic_body. p_run.
  rewrite len_words_bytes, (Z.mul_comm 2), Z_mod_mult. cbn [Z.eqb negb].
  by rewrite words_from_words_bytes, Hs.
Qed.

Lemma diagnostic_body_inv i s data i' :
  bytes_ok i → diagnostic_body i = POk (s, data) i' →
  ∃ raw, DiagnosticSubFunction_encode s = Ok raw ∧ i = u16_to_be raw ++ words_bytes data ∧
  i' = [] ∧ wf s ∧ Forall is_u16 data.
Proof.
  intros Hi H. unfold diagnostic_body in H. parse_inv; split_guards.
  match goal with H : (_, _) = _ |- _ => injection H as <- <- end.
  match goal with |- context [words_from_bytes ?d] =>
    destruct (words_bytes_from_bytes d) as [Hr Hw]; [done..|] end.
  eexists. split; [apply DiagnosticSubFunction_decode_encode|]. rewrite Hr.
  auto using DiagnosticSubFunction_decode_wf.
Qed.

Lemma fifo_values_run vs :
  0 ≤ len vs ≤ MAX_FIFO_COUNT →
  fifo_values (u16_to_be (2 * len vs + 2) ++ u16_to_be (len vs) ++ registers_bytes vs)
  = POk vs [].
Proof.
  intros Hv. unfold fifo_values. p_run. rewrite check_range_ok by done. p_run.
  unfold u16_checked, MAX_FIFO_COUNT, U16_MAX in *.
  destruct (Z.ltb_spec 65535 (len vs * 2 + 2)); [lia|]. p_run.
  destruct (Z.eqb_spec (2 * len vs + 2) (len vs * 2 + 2)); [|lia]. cbn [negb].
  rewrite <- (app_nil_r (registers_bytes vs)).
  replace (len vs * 2) with (len (registers_bytes vs)) by len_lia.
  p_run. by rewrite registers_from_registers_bytes.
Qed.

Lemma fifo_values_inv i vs i' :
  bytes_ok i → fifo_values i = POk vs i' →
  i = u16_to_be (2 * len vs + 2) ++ u16_to_be (len vs) ++ registers_bytes vs ++ i' ∧
  0 ≤ len vs ≤ MAX_FIFO_COUNT ∧ wf vs.
Proof.
  intros Hi H. unfold fifo_values in H. parse_inv; split_guards; try done. subst.
  match goal with H : check_range _ _ _ _ = _ |- _ => apply check_range_inv in H as Hc end.
  match goal with H : u16_checked _ = _ |- _ => unfold u16_checked in H end.
  case_match; [done|]. simplify_eq.
  match goal with H : take_bytes _ _ = POk ?d _ |- _ =>
    apply take_inv in H as [-> Hd]; [|lia]; rename d into data end.
  match goal with H : bytes_ok (data ++ _) |- _ => apply bytes_ok_app_inv in H as [Hb ?] end.
  destruct (registers_bytes_from_bytes data) as [Hr Hw]; [done| |].
  { rewrite Hd. apply Z_mod_mult. }
  rewrite len_registers_from_bytes, Hr, Hd, Z.div_mul by lia.
  split_and!; try done; try lia. do 2 f_equal. lia.
Qed.
End parsers.

(** ** Requests *)

(** [split_pairs]: the pairs the body parsers yield, component by component. *)
Ltac split_pairs := repeat match goal with x : _ * _ |- _ => destruct x end.


Section quantified.
Context {w : Winnow} {ws : WinnowSpec w}.

Lemma quantified_registers_inv f hi i q data i' :
  bytes_ok i → quantified_bytes f 1 hi register_width i = POk (q, data) i' →
  let rs := registers_from_bytes data in
  i = u16_to_be q ++ [2 * q] ++ registers_bytes rs ++ i' ∧ 1 ≤ q ≤ hi ∧ len rs = q ∧ wf rs.
Proof.
  intros Hi H. apply quantified_bytes_inv in H as (-> & Hq & _ & Hl & Hb & _); [|done].
  unfold register_width in Hl.
  destruct (registers_bytes_from_bytes data) as [Hr Hw]; [done|rewrite Hl; apply Z_mod_mult|].
  cbn zeta. rewrite Hr, len_registers_from_bytes, Hl, Z.div_mul, (Z.mul_comm q) by lia. done.
Qed.

Lemma quantified_registers_run f hi rs :
  1 ≤ len rs ≤ hi →
  quantified_bytes f 1 hi register_width
    (u16_to_be (len rs) ++ [2 * len rs] ++ registers_bytes rs)
  = POk (len rs, registers_bytes rs) [].
Proof.
  intros Hq. rewrite <- len_registers_bytes at 1.
  apply quantified_bytes_run; [done|]. unfold register_width. len_lia.
Qed.
End quantified.

(** [fixed_body]: a request body of fixed-width fields decoded from [i]. *)
Ltac fixed_body :=
  parse_inv; split_and!; try done; by apply sized_ok.

Section requests.
Context {w : Winnow} {ws : WinnowSpec w}.

Lemma request_body_inv code b i r :
  bytes_ok i → is_u8 b → FunctionCode_encode code = Ok b → request_body code i = POk r [] →
  len (b :: i) ≤ MAX_PDU_LEN →
  RequestPdu_function r = code ∧ wf r ∧ request_canonical r = true ∧
  request_bytes r = Ok (b :: i).
Proof.
  intros Hi Hb Hc H Hl. destruct code; cbn [request_body] in H; try (injection Hc as <-);
    try (apply P_bind_inv in H as (v & i1 & Hv & H); cbv beta in H); split_pairs.
  all: try match goal with
  | Hv : read_request _ _ _ = _ |- _ =>
      parse_inv; apply read_request_inv in Hv as (-> & ? & ? & ?); [|done];
      rewrite app_nil_r in *; split_and!; try done;
      cbn [request_bytes]; unfold read_layout; rewrite check_range_ok by done;
      by apply sized_ok
  | Hv : single_coil _ = _ |- _ =>
      parse_inv; apply single_coil_inv in Hv as (-> & ?); [|done];
      rewrite app_nil_r in *; split_and!; try done; by apply sized_ok
  | H : mret _ _ = _ |- _ => fixed_body
  end.
  - fixed_body.
  - apply diagnostic_body_inv in Hv as (raw & Hr & -> & -> & ? & ?); [|done].
    parse_inv. split_and!; try done. cbn [request_bytes]. unfold diagnostics_layout.
    rewrite Hr. by apply sized_ok.
  - apply (be_u16_bytes_inv _ _ _ Hi) in Hv as (-> & Ha & Hi1).
    apply P_bind_inv in H as ([q data] & i2 & Hq & H). parse_inv.
    apply quantified_bytes_inv in Hq as (-> & Hq & _ & Hd & Hb' & _); [|done].
    match goal with H : packed_bits _ _ = Ok ?x |- _ =>
      apply packed_bits_inv in H as [Hx <-]; [|done|lia|done]; rename x into cs end.
    rewrite app_nil_r in *. split_and!; try done. cbn [request_bytes].
    rewrite Hx, quantity_of_ok by done. change (bit_width q) with (packed_len q) in Hd.
    rewrite Result_bind_ok, <- Hd. by apply sized_ok.
  - apply (be_u16_bytes_inv _ _ _ Hi) in Hv as (-> & Ha & Hi1).
    apply P_bind_inv in H as ([q data] & i2 & Hq & H). parse_inv.
    apply quantified_registers_inv in Hq as (-> & Hq & Hn & Hw); [|done].
    rewrite app_nil_r in *. split_and!; try done. cbn [request_bytes].
    rewrite Hn, quantity_of_ok by done. by apply sized_ok.
  - apply decode_read_requests_inv in Hv as (bs & -> & Hbs & Hw); [|done]. parse_inv.
    rewrite app_nil_r in *. split_and!; try done. cbn [request_bytes]. rewrite Hbs.
    by apply sized_ok.
  - apply decode_write_records_inv in Hv as (bs & -> & Hbs & Hw); [|done]. parse_inv.
    rewrite app_nil_r in *. split_and!; try done. cbn [request_bytes]. rewrite Hbs.
    by apply sized_ok.
  - fixed_body.
  - apply (be_u16_bytes_inv _ _ _ Hi) in Hv as (-> & Ha & Hi1).
    apply P_bind_inv in H as (rq & i2 & Hrq & H).
    apply (be_u16_bytes_inv _ _ _ Hi1) in Hrq as (-> & Hrq & Hi2).
    apply P_bind_inv in H as ([] & i3 & [Hc <-]%lift_inv & H).
    apply P_bind_inv in H as (wa & i4 & Hwa & H).
    apply (be_u16_bytes_inv _ _ _ Hi2) in Hwa as (-> & Hwa & Hi4).
    apply P_bind_inv in H as ([q data] & i5 & Hq & H). parse_inv.
    apply quantified_registers_inv in Hq as (-> & Hq & Hn & Hw); [|done].
    rewrite app_nil_r in *. split_and!; try done. cbn [request_bytes quantity_0].
    rewrite Hc, Result_bind_ok, Hn, quantity_of_ok by done. by apply sized_ok.
  - apply mei_decode_request_inv in Hv as (-> & Hw & Hcan & _); [|done]. parse_inv.
    rewrite app_nil_r in *. split_and!; try done. by apply sized_ok.
  - parse_inv. pose proof Hc as Hbyte. cbn [FunctionCode_encode] in Hbyte.
    repeat case_match; try done. injection Hbyte as ->. split_and!; try done.
    cbn [request_bytes]. unfold custom_layout. rewrite Hc. by apply sized_ok.
Qed.

(** [sized_body]: split the bytes of a PDU into its code and body. *)
Ltac sized_body :=
  repeat match goal with
  | H : sized _ = Ok _ |- _ => apply sized_inv in H as [-> ?]
  | H : check_range _ _ _ _ = Ok _ |- _ => apply check_range_inv in H
  end.

Lemma request_body_run r bs :
  wf r → request_canonical r = true → request_bytes r = Ok bs →
  ∃ b i, bs = b :: i ∧ len bs ≤ MAX_PDU_LEN ∧
    FunctionCode_encode (RequestPdu_function r) = Ok b ∧
    request_body (RequestPdu_function r) i = POk r [].
Proof.
  intros Hw Hcan H. destruct r; cbn [request_bytes] in H;
    try (unfold read_layout, diagnostics_layout, custom_layout in H); res_inv; sized_body.
  all: do 2 eexists; split; [reflexivity|]; split; [done|];
    cbn [RequestPdu_function request_body app]; split; [try reflexivity|].
  all: try solve [rewrite P_bind_run, <- (app_nil_r (u16_to_be (quantity_0 _))), read_request_run
      by done; by destruct address, quantity].
  all: try solve [done | p_run; try destruct address; try destruct value;
      try destruct and_mask, or_mask; done].
  - rewrite P_bind_run, <- (app_nil_r (u16_to_be (coil_word _))), single_coil_run.
    by destruct address.
  - match goal with H : quantity_of _ _ _ _ = _ |- _ =>
      apply quantity_of_inv in H as [-> ?]; [|done] end. p_run.
    rewrite <- len_bits_bytes, quantified_bytes_run; [|done|by rewrite len_bits_bytes].
    rewrite P_bind_run, packed_bits_run. by destruct address.
  - match goal with H : quantity_of _ _ _ _ = _ |- _ =>
      apply quantity_of_inv in H as [-> ?]; [|done] end. p_run.
    rewrite (quantified_registers_run _ _ registers), registers_from_registers_bytes by done.
    by destruct address.
  - match goal with H : quantity_of _ _ _ _ = _ |- _ =>
      apply quantity_of_inv in H as [-> ?]; [|done] end. p_run.
    rewrite check_range_ok by done. p_run.
    rewrite (quantified_registers_run _ _ registers), registers_from_registers_bytes by done.
    by destruct read_address, read_quantity, write_address.
  - by rewrite P_bind_run, (diagnostic_body_run sub_function).
  - by rewrite P_bind_run, (decode_read_requests_run records).
  - by rewrite P_bind_run, (decode_write_records_run records).
  - by rewrite P_bind_run, mei_decode_request_bytes.
Qed.
End requests.

(** ** Responses *)

Section responses.
Context {w : Winnow} {ws : WinnowSpec w}.

Lemma counted_layout_ok c data :
  len data ≤ U8_MAX → len (c :: len data :: data) ≤ MAX_PDU_LEN →
  counted_layout c (len data) data = Ok (c :: len data :: data).
Proof.
  intros Hd Hl. unfold counted_layout. destruct (Z.leb_spec (len data) U8_MAX); [|lia].
  by apply sized_ok.
Qed.

Lemma counted_layout_inv c n data bs :
  counted_layout c n data = Ok bs → bs = c :: n :: data ∧ n ≤ U8_MAX ∧ len bs ≤ MAX_PDU_LEN.
Proof.
  unfold counted_layout. case_match; [|done]. intros [-> ?]%sized_inv. split_guards. done.
Qed.

Lemma register_count rs :
  2 * len rs ≤ 255 → saturating_mul (len rs) 2 = len (registers_bytes rs).
Proof. intros H. rewrite len_registers_bytes. unfold saturating_mul, USIZE_MAX. lia. Qed.

Lemma register_count_inv (rs : list RegisterValue) :
  saturating_mul (len rs) 2 ≤ U8_MAX → saturating_mul (len rs) 2 = 2 * len rs.
Proof. unfold saturating_mul, U8_MAX, USIZE_MAX. lia. Qed.

(** The counted bodies, once for the codes that share each. *)
Lemma counted_registers_inv c i rs i' :
  bytes_ok i → registers i = POk rs i' → len (c :: i) ≤ MAX_PDU_LEN →
  i' = [] ∧ wf rs ∧
  counted_layout c (saturating_mul (len rs) 2) (registers_bytes rs) = Ok (c :: i).
Proof.
  intros Hi H Hl. apply registers_inv in H as (-> & -> & Hw & Hn); [|done].
  rewrite register_count by done. rewrite <- len_registers_bytes in *.
  rewrite counted_layout_ok by (done || unfold U8_MAX; lia). done.
Qed.

Lemma counted_registers_run c rs bs :
  counted_layout c (saturating_mul (len rs) 2) (registers_bytes rs) = Ok bs →
  ∃ i, bs = c :: i ∧ len bs ≤ MAX_PDU_LEN ∧ registers i = POk rs [].
Proof.
  intros (-> & Hn & Hl)%counted_layout_inv. apply register_count_inv in Hn as Hn'.
  eexists. split; [done|]. split; [done|]. rewrite Hn'. apply registers_run.
Qed.

Lemma counted_bits_inv c i data i' :
  bytes_ok i → counted_bytes i = POk data i' → len (c :: i) ≤ MAX_PDU_LEN →
  let cs := bits_from_bytes data in
  i' = [] ∧ (len cs mod 8 =? 0) = true ∧
  counted_layout c (packed_len (len cs)) (bits_bytes cs) = Ok (c :: i).
Proof.
  intros Hi H Hl. apply counted_bytes_inv in H as (-> & -> & Hn & Hb); [|done]. cbn zeta.
  rewrite len_bits_from_bytes, (Z.mul_comm 8), Z_mod_mult.
  rewrite <- (Z.mul_comm 8), <- len_bits_from_bytes, <- len_bits_bytes.
  rewrite bits_bytes_from_bytes, counted_layout_ok by (done || unfold U8_MAX; lia). done.
Qed.

Lemma counted_bits_run c cs bs :
  (len cs mod 8 =? 0) = true →
  counted_layout c (packed_len (len cs)) (bits_bytes cs) = Ok bs →
  ∃ i data, bs = c :: i ∧ len bs ≤ MAX_PDU_LEN ∧ counted_bytes i = POk data [] ∧
    bits_from_bytes data = cs.
Proof.
  intros Hm%Z.eqb_eq (-> & Hn & Hl)%counted_layout_inv.
  do 2 eexists. split; [done|]. split; [done|].
  rewrite <- len_bits_bytes, counted_bytes_run. split; [done|].
  by apply bits_from_bits_bytes_exact.
Qed.

Lemma event_log_check_ok (es : list Z) :
  len es ≤ 64 →
  check_event_log_bytes
    (Z.min (EVENT_LOG_FIXED_BYTES + unwrap_or U32_MAX (u32_try_from (len es))) U32_MAX) = Ok tt.
Proof.
  intros Hl. pose proof (len_nonneg es). unfold u32_try_from.
  rewrite try_from_max_ok by (unfold U32_MAX; lia). unfold unwrap_or, EVENT_LOG_FIXED_BYTES.
  cbn [from_option]. unfold id.
  match goal with |- check_event_log_bytes ?n = _ =>
    destruct (check_event_log_cases n) as [[-> _]|[_ Hn]]; [done|] end.
  unfold U32_MAX in Hn. lia.
Qed.

Lemma event_log_check_inv (es : list Z) u :
  check_event_log_bytes
    (Z.min (EVENT_LOG_FIXED_BYTES + unwrap_or U32_MAX (u32_try_from (len es))) U32_MAX) = Ok u →
  len es ≤ 64.
Proof.
  pose proof (event_log_count _ (len_nonneg es)) as Hn. revert Hn.
  generalize (Z.min (EVENT_LOG_FIXED_BYTES +
    unwrap_or U32_MAX (u32_try_from (len es))) U32_MAX). intros n Hn H.
  destruct (check_event_log_cases n) as [[_ Hb]|[Hb _]]; [lia|by rewrite Hb in H].
Qed.

Lemma event_log_inv i r :
  bytes_ok i → response_body FC_GetCommEventLog i = POk r [] →
  len (12 :: i) ≤ MAX_PDU_LEN →
  ResponsePdu_function r = FC_GetCommEventLog ∧ wf r ∧ response_canonical r = true ∧
  response_bytes r = Ok (12 :: i).
Proof.
  intros Hi H Hl. cbn [response_body] in H. parse_inv.
  match goal with H : check_event_log_bytes ?n = Ok _ |- _ =>
    destruct (check_event_log_cases n) as [[_ Hn]|[Hb _]]; [|by rewrite Hb in H] end.
  match goal with H : take_bytes _ _ = POk ?d _ |- _ => rename d into es;
    apply take_inv in H as [-> Hd]; [|unfold saturating_sub; lia] end.
  rewrite app_nil_r in *. unfold saturating_sub, EVENT_LOG_FIXED_BYTES in Hd.
  split_and!; try done. cbn [response_bytes]. rewrite event_log_check_ok by lia.
  rewrite Result_bind_ok. replace (6 + len es) with x by lia. by apply sized_ok.
Qed.

Lemma event_log_run s c m es bs :
  response_bytes (Resp_GetCommEventLog s c m es) = Ok bs →
  ∃ i, bs = 12 :: i ∧ len bs ≤ MAX_PDU_LEN ∧
    response_body FC_GetCommEventLog i = POk (Resp_GetCommEventLog s c m es) [].
Proof.
  cbn [response_bytes]. intros H. apply Result_bind_inv in H as (u & Hc & H).
  apply event_log_check_inv in Hc. apply sized_inv in H as [-> Hl].
  eexists. split; [done|]. split; [done|]. cbn [response_body]. p_run.
  pose proof (len_nonneg es).
  destruct (check_event_log_cases (6 + len es)) as [[-> _]|[_ ?]]; [|lia].
  p_run. rewrite <- (app_nil_r es) at 2.
  replace (saturating_sub (6 + len es) EVENT_LOG_FIXED_BYTES) with (len es)
    by (unfold saturating_sub, EVENT_LOG_FIXED_BYTES; lia). by p_run.
Qed.

Lemma response_body_inv code b i r :
  bytes_ok i → is_u8 b → FunctionCode_encode code = Ok b → response_body code i = POk r [] →
  len (b :: i) ≤ MAX_PDU_LEN →
  ResponsePdu_function r = code ∧ wf r ∧ response_canonical r = true ∧
  response_bytes r = Ok (b :: i).
Proof.
  intros Hi Hb Hc H Hl. destruct code; cbn [response_body] in H; try (injection Hc as <-);
    try (apply P_bind_inv in H as (v & i1 & Hv & H); cbv beta in H); split_pairs.
  all: try match goal with
  | Hv : registers _ = _ |- _ =>
      parse_inv; eapply counted_registers_inv in Hv as (_ & ? & Hbs); [|done|exact Hl];
      split_and!; done
  | Hv : counted_bytes _ = _, H : mret (Resp_ReportServerId _) _ = _ |- _ => idtac
  | Hv : counted_bytes _ = _ |- _ =>
      parse_inv; eapply counted_bits_inv in Hv as (_ & ? & Hbs); [|done|exact Hl];
      split_and!; done
  | Hv : single_coil _ = _ |- _ =>
      parse_inv; apply single_coil_inv in Hv as (-> & ?); [|done];
      rewrite app_nil_r in *; split_and!; try done; by apply sized_ok
  | H : mret _ _ = _ |- _ => fixed_body
  end.
  - fixed_body.
  - apply diagnostic_body_inv in Hv as (raw & Hr & -> & -> & ? & ?); [|done].
    parse_inv. split_and!; try done. cbn [response_bytes]. unfold diagnostics_layout.
    rewrite Hr. by apply sized_ok.
  - fixed_body.
  - apply event_log_inv; [done| |done]. cbn [response_body]. by rewrite P_bind_run, Hv.
  - fixed_body.
  - fixed_body.
  - apply counted_bytes_inv in Hv as (-> & -> & Hn & Hd); [|done]. parse_inv.
    split_and!; try done. by apply counted_layout_ok.
  - apply decode_read_responses_inv in Hv as (bs & -> & Hbs & Hw); [|done]. parse_inv.
    rewrite app_nil_r in *. split_and!; try done. cbn [response_bytes]. rewrite Hbs.
    by apply sized_ok.
  - apply decode_write_records_inv in Hv as (bs & -> & Hbs & Hw); [|done]. parse_inv.
    rewrite app_nil_r in *. split_and!; try done. cbn [response_bytes]. rewrite Hbs.
    by apply sized_ok.
  - fixed_body.
  - apply fifo_values_inv in Hv as (-> & Hn & Hw); [|done]. parse_inv.
    rewrite app_nil_r in *. split_and!; try done. cbn [response_bytes].
    rewrite quantity_of_ok by done. by apply sized_ok.
  - apply mei_decode_response_inv in Hv as (-> & Hm & Hw & Hcan); [|done]. parse_inv.
    split_and!; try done. cbn [response_bytes]. rewrite Hm. by apply sized_ok.
  - parse_inv. pose proof Hc as Hbyte. cbn [FunctionCode_encode] in Hbyte.
    repeat case_match; try done. injection Hbyte as ->. split_and!; try done.
    cbn [response_bytes]. unfold custom_layout. rewrite Hc. by apply sized_ok.
Qed.

Definition is_exception (r : ResponsePdu) : bool :=
  match r with Resp_Exception _ => true | _ => false end.

Lemma response_body_run r bs :
  wf r → response_canonical r = true → is_exception r = false → response_bytes r = Ok bs →
  ∃ b i, bs = b :: i ∧ len bs ≤ MAX_PDU_LEN ∧
    FunctionCode_encode (ResponsePdu_function r) = Ok b ∧
    response_body (ResponsePdu_function r) i = POk r [].
Proof.
  intros Hw Hcan He H. destruct r; try discriminate He; clear He.
  all: try match goal with
  | H : response_bytes (Resp_ReadCoils _) = _ |- _ =>
      apply counted_bits_run in H as (i & d & -> & Hl & Hd & <-); [|done];
      exists 1, i; split_and!; try done; cbn; by rewrite P_bind_run, Hd
  | H : response_bytes (Resp_ReadDiscreteInputs _) = _ |- _ =>
      apply counted_bits_run in H as (i & d & -> & Hl & Hd & <-); [|done];
      exists 2, i; split_and!; try done; cbn; by rewrite P_bind_run, Hd
  | H : response_bytes (Resp_GetCommEventLog _ _ _ _) = _ |- _ =>
      apply event_log_run in H as (i & -> & Hl & Hd); by exists 12, i
  end.
  all: cbn [response_bytes] in H.
  all: try match goal with
  | H : counted_layout ?c (saturating_mul _ _) _ = _ |- _ =>
      apply counted_registers_run in H as (i & -> & Hl & Hd);
      exists c, i; split_and!; try done; cbn [ResponsePdu_function response_body];
      by rewrite P_bind_run, Hd
  | H : counted_layout ?c _ _ = _ |- _ =>
      apply counted_layout_inv in H as (-> & _ & Hl);
      do 2 eexists; split_and!; try done; cbn [ResponsePdu_function response_body];
      by rewrite P_bind_run, counted_bytes_run
  end.
  all: try (unfold diagnostics_layout, custom_layout in H); res_inv;
    repeat match goal with H : sized _ = Ok _ |- _ => apply sized_inv in H as [-> ?] end.
  all: do 2 eexists; split; [reflexivity|]; split; [done|];
    cbn [ResponsePdu_function response_body app]; split; [try reflexivity|].
  all: try solve [done | p_run; try destruct address; try destruct value; try destruct quantity;
      try destruct and_mask, or_mask; try destruct status; done].
  - rewrite P_bind_run, <- (app_nil_r (u16_to_be (coil_word _))), single_coil_run.
    by destruct address.
  - by rewrite P_bind_run, (diagnostic_body_run sub_function).
  - by rewrite P_bind_run, (decode_read_responses_run records).
  - by rewrite P_bind_run, (decode_write_records_run records).
  - match goal with H : quantity_of _ _ _ _ = _ |- _ =>
      apply quantity_of_inv in H as [-> ?]; [|done] end.
    by rewrite P_bind_run, fifo_values_run.
  - by rewrite P_bind_run, (mei_decode_response_bytes response).
Qed.
End responses.

(** ** Encodings are bytes *)

Lemma bits_bytes_u8 (cs : list bool) : packed_len (len cs) ≤ 255 → is_u8 (packed_len (len cs)).
Proof. intros H. pose proof (packed_len_bounds (len cs) (len_nonneg cs)). unfold is_u8. len_lia. Qed.

Lemma is_u8_between z : 0 ≤ z ≤ 255 → is_u8 z.
Proof. done. Qed.

Lemma is_u16_between z : 0 ≤ z ≤ 65535 → is_u16 z.
Proof. done. Qed.

Lemma coil_word_u16 v : is_u16 (coil_word v).
Proof. by destruct v. Qed.

Lemma mjoin_layout_ok {A} (layout : A → list Z) (good : A → Prop) l :
  (∀ x, good x → bytes_ok (layout x)) → Forall good l → bytes_ok (mjoin (layout <$> l)).
Proof. intros Hg. induction 1; [constructor|]. apply bytes_ok_app; auto. Qed.

Lemma region_bytes_bytes_ok {A} `{Wf A} f lo hi (g : A → Result (list Z)) layout (ok : A → Prop) items bs :
  0 ≤ lo → hi ≤ 255 → (∀ x bs, g x = Ok bs → bs = layout x ∧ ok x) →
  (∀ x, wf x ∧ ok x → bytes_ok (layout x)) → Forall wf items →
  body_bytes f lo hi (mjoin <$> mapM g items) = Ok bs → bytes_ok bs.
Proof.
  intros Hlo Hhi Hg Hb Hw Hi. apply (region_bytes_inv _ _ _ _ layout ok) in Hi as (-> & Hok & Hl);
    [|done..].
  apply bytes_ok_cons; [unfold is_u8; lia|]. eapply mjoin_layout_ok; [exact Hb|].
  by apply Forall_and.
Qed.

#[local] Hint Resolve coil_word_u16 bytes_ok_app bytes_ok_cons bytes_ok_nil : bytes.

Lemma mei_request_bytes_ok r : wf r → bytes_ok (mei_request_bytes r).
Proof.
  destruct r as [d|c o|t d]; cbn; intros H.
  - apply bytes_ok_cons; [by apply is_u8_lit|done].
  - destruct c; auto with bytes.
  - destruct H. auto with bytes.
Qed.

Lemma mei_response_bytes_ok r bs : wf r → mei_response_bytes r = Ok bs → bytes_ok bs.
Proof.
  destruct r as [d|c l m n os|t d]; cbn [mei_response_bytes]; intros H Hb.
  - injection Hb as <-. apply bytes_ok_cons; [by apply is_u8_lit|done].
  - destruct H as (Hl & Hn & Hos).
    apply Result_bind_inv in Hb as (k & [-> Hk]%length_byte_inv & Hb).
    apply Result_bind_inv in Hb as (bss & [-> Hv]%mapM_objects_inv & [= <-]).
    pose proof (len_nonneg os). apply (bytes_ok_app [_; _; _; _; _; _]).
    + repeat (apply bytes_ok_cons || apply bytes_ok_nil); try done;
        [by destruct c|by destruct m].
    + apply (mjoin_layout_ok _ (λ o, wf o ∧ len (object_value o) ≤ 255)); [|by apply Forall_and].
      intros x [? ?]. by apply object_layout_ok.
  - injection Hb as <-. destruct H. auto with bytes.
Qed.

Lemma read_requests_bytes_ok rs bs :
  wf rs → read_requests_bytes rs = Ok bs → bytes_ok bs.
Proof.
  intros Hw. eapply (region_bytes_bytes_ok _ _ _ _ read_request_layout); try done.
  - exact read_request_bytes_inv.
  - exact read_layout_ok.
Qed.

Lemma read_responses_bytes_ok rs bs :
  wf rs → read_responses_bytes rs = Ok bs → bytes_ok bs.
Proof.
  intros Hw. eapply (region_bytes_bytes_ok _ _ _ _ read_response_layout); try done.
  - exact read_response_bytes_inv.
  - exact read_response_layout_ok.
Qed.

Lemma write_records_bytes_ok rs bs :
  wf rs → write_records_bytes rs = Ok bs → bytes_ok bs.
Proof.
  intros Hw. eapply (region_bytes_bytes_ok _ _ _ _ write_record_layout); try done.
  - exact write_record_bytes_inv.
  - intros x Hx. by apply write_layout_ok.
Qed.

(** [bytes_layout]: a layout made of fields that fit their width. *)
Ltac bytes_bound :=
  lazymatch goal with
  | |- is_u8 (_ / 256) => apply u16_hi_range
  | |- is_u8 (packed_len (len ?cs)) =>
      apply bits_bytes_u8; pose proof (packed_len_bounds (len cs))
  | _ => idtac
  end; unfold is_u8, is_u16, U8_MAX, MAX_WRITE_BITS, MAX_WRITE_REGISTERS,
    MAX_RW_WRITE_REGISTERS, MAX_FIFO_COUNT in *; len_lia.
Ltac bytes_layout :=
  repeat match goal with
  | H : sized _ = Ok _ |- _ => apply sized_inv in H as [-> _]
  | H : quantity_of _ _ _ _ = Ok _ |- _ => apply quantity_of_inv in H as [-> ?]; [|done]
  | H : counted_layout _ _ _ = Ok _ |- _ => apply counted_layout_inv in H as (-> & ? & _)
  | H : wf _ |- _ => progress cbn in H
  | H : _ ∧ _ |- _ => destruct H
  end; repeat apply bytes_ok_app; repeat apply bytes_ok_cons; eauto with bytes;
  eauto using read_requests_bytes_ok, read_responses_bytes_ok, write_records_bytes_ok,
    mei_request_bytes_ok, mei_response_bytes_ok, DiagnosticSubFunction_encode_u16, u16_hi_range.

Lemma custom_code_u8 code b : is_u8 code → FunctionCode_encode (FC_Custom code) = Ok b → is_u8 b.
Proof.
  intros Hc H. apply (FunctionCode_encode_range (FC_Custom code)) in H; [|done].
  unfold is_u8. lia.
Qed.

Lemma request_bytes_ok r bs : wf r → request_bytes r = Ok bs → bytes_ok bs.
Proof.
  intros Hw H. destruct r; cbn [request_bytes] in H;
    try (unfold read_layout, diagnostics_layout, custom_layout in H); res_inv; bytes_layout;
    try bytes_bound.
  eapply custom_code_u8; eauto.
Qed.

Lemma exception_bytes_ok e bs :
  wf e → exception_bytes e = Ok bs → bytes_ok bs ∧ len bs = 2.
Proof.
  intros [Hf Hx] H. unfold exception_bytes in H. res_inv.
  match goal with H : FunctionCode_encode _ = Ok _ |- _ =>
    apply FunctionCode_encode_range in H; [|done] end.
  match goal with H : ExceptionCode_encode _ = Ok _ |- _ =>
    apply ExceptionCode_encode_u8 in H; [|done] end.
  split; [|done]. apply bytes_ok_cons; [by apply exception_flag_join|]. auto with bytes.
Qed.

Lemma response_bytes_ok r bs : wf r → response_bytes r = Ok bs → bytes_ok bs.
Proof.
  intros Hw H. destruct r; cbn [response_bytes] in H;
    try (unfold diagnostics_layout, custom_layout in H); res_inv;
    try match goal with H : check_event_log_bytes _ = _ |- _ => apply event_log_check_inv in H end;
    bytes_layout; try bytes_bound.
  1-3: rewrite register_count_inv by done; pose proof (register_count_inv registers);
    unfold is_u8, U8_MAX in *; len_lia.
  - eapply custom_code_u8; eauto.
  - by eapply exception_bytes_ok.
Qed.

(** ** The two codecs *)

Lemma request_bytes_size r bs : request_bytes r = Ok bs → len bs ≤ MAX_PDU_LEN.
Proof.
  intros H. destruct r; cbn [request_bytes] in H;
    try (unfold read_layout, diagnostics_layout, custom_layout in H); res_inv;
    match goal with H : sized _ = Ok _ |- _ => by apply sized_inv in H as [-> ?] end.
Qed.

Lemma response_bytes_size r bs : response_bytes r = Ok bs → len bs ≤ MAX_PDU_LEN.
Proof.
  intros H. destruct r; cbn [response_bytes] in H;
    try (unfold diagnostics_layout, custom_layout, exception_bytes in H); res_inv;
    try match goal with H : sized _ = Ok _ |- _ => by apply sized_inv in H as [-> ?] end;
    try match goal with H : counted_layout _ _ _ = Ok _ |- _ =>
      by apply counted_layout_inv in H as (_ & _ & ?) end.
  done.
Qed.

(** The byte strings that are encoded PDUs. *)
Definition is_pdu (bs : list Z) : Prop := bytes_ok bs ∧ 1 ≤ len bs ≤ 253.

Lemma request_bytes_pdu r bs : wf r → request_bytes r = Ok bs → is_pdu bs.
Proof.
  intros Hw H. split; [by eapply request_bytes_ok|].
  pose proof (request_bytes_size r bs H). unfold MAX_PDU_LEN in *. split; [|done].
  assert (bs ≠ []) as Hne; [|destruct bs; [done|len_lia]].
  destruct r; cbn [request_bytes] in H;
    try (unfold read_layout, diagnostics_layout, custom_layout in H); res_inv;
    match goal with H : sized _ = Ok _ |- _ => by apply sized_inv in H as [-> ?] end.
Qed.

Lemma response_bytes_pdu r bs : wf r → response_bytes r = Ok bs → is_pdu bs.
Proof.
  intros Hw H. split; [by eapply response_bytes_ok|].
  pose proof (response_bytes_size r bs H). unfold MAX_PDU_LEN in *. split; [|done].
  assert (bs ≠ []) as Hne; [|destruct bs; [done|len_lia]].
  destruct r; cbn [response_bytes] in H;
    try (unfold diagnostics_layout, custom_layout, exception_bytes in H); res_inv;
    try match goal with H : sized _ = Ok _ |- _ => by apply sized_inv in H as [-> ?] end;
    try match goal with H : counted_layout _ _ _ = Ok _ |- _ =>
      by apply counted_layout_inv in H as (-> & _ & ?) end.
  done.
Qed.

Lemma check_size_ok bs : len bs ≤ MAX_PDU_LEN → check_size bs = Ok tt.
Proof. intros. unfold check_size. by destruct (Z.ltb_spec MAX_PDU_LEN (len bs)); [lia|]. Qed.

Lemma check_size_inv bs u : check_size bs = Ok u → len bs ≤ MAX_PDU_LEN.
Proof. unfold check_size. case_match; [done|]. by split_guards. Qed.

Lemma low_byte b : 1 ≤ b ≤ 127 → Z.land b 0x80 = 0.
Proof.
  intros Hb. pose proof (byte_forall (λ b, (127 <? b) || (Z.land b 128 =? 0))
    ltac:(vm_compute; reflexivity) b ltac:(unfold is_u8; lia)) as H.
  cbv beta in H. split_guards. destruct H; split_guards; [lia|done].
Qed.

Section codec.
Context {w : Winnow} {ws : WinnowSpec w}.

Lemma RequestPdu_decode_bytes r bs :
  wf r → request_canonical r = true → request_bytes r = Ok bs → RequestPdu_decode bs = Ok r.
Proof.
  intros Hw Hc H. apply request_body_run in H as (b & i & -> & Hl & Hb & Hr); [|done..].
  unfold RequestPdu_decode. rewrite check_size_ok, Result_bind_ok by done. apply run_ok.
  p_run. rewrite (FunctionCode_encode_decode _ _ Hb). by p_run.
Qed.

Lemma RequestPdu_decode_inv bs r :
  bytes_ok bs → RequestPdu_decode bs = Ok r →
  wf r ∧ request_canonical r = true ∧ request_bytes r = Ok bs ∧
  ∃ b i, bs = b :: i ∧ FunctionCode_encode (RequestPdu_function r) = Ok b.
Proof.
  intros Hbs H. unfold RequestPdu_decode in H.
  apply Result_bind_inv in H as (u & Hl%check_size_inv & H%run_inv).
  apply P_bind_inv in H as (b & i & Hb & H).
  apply (be_u8_bytes_inv _ _ _ Hbs) in Hb as (-> & Hb & Hi).
  apply P_bind_inv in H as (c & i1 & [Hc%FunctionCode_decode_encode <-]%lift_inv & H).
  destruct (request_body_inv c b i r) as (<- & ? & ? & ?); [done..|]. split_and!; eauto.
Qed.

Lemma exception_decode_bytes e bs :
  wf e → exception_bytes e = Ok bs →
  ExceptionResponse_decode bs = Ok e ∧
  ∃ b x, bs = [b; x] ∧ Z.land b 0x80 ≠ 0.
Proof.
  intros [Hf Hx] H. unfold exception_bytes in H.
  apply Result_bind_inv in H as (f & Hfe & H). apply Result_bind_inv in H as (x & Hxe & [= <-]).
  pose proof (FunctionCode_encode_range _ _ Hf Hfe) as Hr.
  destruct (exception_flag_join f Hr) as (Hflag & Hback & _). split; [|by eexists _, _].
  unfold ExceptionResponse_decode. rewrite (proj2 (Z.eqb_neq _ _) Hflag), Hback.
  rewrite (FunctionCode_encode_decode _ _ Hfe), Result_bind_ok.
  rewrite (ExceptionCode_encode_decode _ _ Hxe). by destruct e.
Qed.

Lemma exception_decode_inv bs e :
  bytes_ok bs → ExceptionResponse_decode bs = Ok e → wf e ∧ exception_bytes e = Ok bs.
Proof.
  intros Hbs H. destruct bs as [|raw [|code [|c bs]]]; try done.
  apply bytes_ok_cons_inv in Hbs as [Hraw Hbs]. apply bytes_ok_cons_inv in Hbs as [Hcode _].
  cbn [ExceptionResponse_decode] in H.
  destruct (Z.eqb_spec (Z.land raw EXCEPTION_FLAG) 0) as [|Hflag]; [done|].
  apply Result_bind_inv in H as (f & Hf & [= <-]).
  assert (is_u8 (Z.land raw (Z.land (Z.lnot EXCEPTION_FLAG) 255))) as Hu.
  { apply is_u8_lit. exact (byte_forall (λ b,
      (0 <=? Z.land b (Z.land (Z.lnot EXCEPTION_FLAG) 255)) &&
      (Z.land b (Z.land (Z.lnot EXCEPTION_FLAG) 255) <=? 255))
      ltac:(vm_compute; reflexivity) raw Hraw). }
  split; [split; [by eapply FunctionCode_decode_wf|by apply ExceptionCode_decode_wf]|].
  unfold exception_bytes. cbn [er_function er_exception].
  rewrite (FunctionCode_decode_encode _ _ Hf), Result_bind_ok.
  rewrite ExceptionCode_decode_encode, Result_bind_ok.
  by rewrite exception_flag_split.
Qed.

Lemma ResponsePdu_decode_bytes r bs :
  wf r → response_canonical r = true → response_bytes r = Ok bs → ResponsePdu_decode bs = Ok r.
Proof.
  intros Hw Hc H. unfold ResponsePdu_decode.
  rewrite check_size_ok, Result_bind_ok by by eapply response_bytes_size.
  destruct (is_exception r) eqn:He.
  - destruct r; try discriminate He.
    destruct (exception_decode_bytes exception bs) as (-> & b & x & -> & Hb); [done..|].
    by rewrite (proj2 (Z.eqb_neq _ _) Hb).
  - assert (wf (ResponsePdu_function r)) as Hf.
    { destruct r; try done. by destruct Hw. }
    apply response_body_run in H as (b & i & -> & Hl & Hb & Hr); [|done..].
    rewrite low_byte by by eapply FunctionCode_encode_range. cbn [Z.eqb negb]. apply run_ok.
    p_run. rewrite (FunctionCode_encode_decode _ _ Hb). by p_run.
Qed.

Lemma ResponsePdu_decode_inv bs r :
  bytes_ok bs → ResponsePdu_decode bs = Ok r →
  wf r ∧ response_canonical r = true ∧ response_bytes r = Ok bs.
Proof.
  intros Hbs H. unfold ResponsePdu_decode in H.
  apply Result_bind_inv in H as (u & Hl%check_size_inv & H).
  destruct (match bs with byte :: _ => _ | [] => _ end) eqn:E.
  - apply Result_bind_inv in H as (e & He & [= <-]).
    by apply exception_decode_inv in He as [? ?].
  - apply run_inv in H. apply P_bind_inv in H as (b & i & Hb & H).
    apply (be_u8_bytes_inv _ _ _ Hbs) in Hb as (-> & Hb & Hi).
    apply P_bind_inv in H as (c & i1 & [Hc%FunctionCode_decode_encode <-]%lift_inv & H).
    by destruct (response_body_inv c b i r) as (<- & ? & ? & ?).
Qed.
End codec.
