(* ===== verification/PduSafety.v ===== *)
(** * Decoding never panics

    [Safe p Q]: on bytes, [p] fails with an error or yields a value in [Q] and
    leaves bytes; it never reaches an [expect], an integer overflow or the end
    of the loop fuel.  The judgement composes along the parser monad, and every
    decoder of the frame layer satisfies it. *)

From S2P Require Import Prelude.
From S2P Require Import Errors.
From S2P Require Import Parse.
From S2P Require Import Value.
From S2P Require Import Function.
From S2P Require Import Exception.
From S2P Require Import Diagnostics.
From S2P Require Import Wire.
From S2P Require Import Mei.
From S2P Require Import FileRecord.
From S2P Require Import Pdu.
From S2P Require Import PduSpec.

Definition Safe {A} (p : P A) (Q : A → Prop) : Prop :=
  ∀ i, bytes_ok i →
    match p i with POk a i' => bytes_ok i' ∧ Q a | PErr _ => True | PPanic => False end.

Create HintDb safe discriminated.

Lemma Safe_bind {A B} (p : P A) (k : A → P B) Q R :
  Safe p Q → (∀ a, Q a → Safe (k a) R) → Safe (p ≫= k) R.
Proof.
  intros Hp Hk i Hi. rewrite P_bind_run. specialize (Hp i Hi).
  destruct (p i) as [a i'|e|]; [|done..]. destruct Hp as [Hi' Ha]. by apply Hk.
Qed.

Lemma Safe_weaken {A} (p : P A) (Q R : A → Prop) : Safe p Q → (∀ a, Q a → R a) → Safe p R.
Proof.
  intros Hp HQ i Hi. specialize (Hp i Hi). destruct (p i) as [a i'|e|]; [|done..].
  destruct Hp. auto.
Qed.

Lemma Safe_ret {A} (a : A) (Q : A → Prop) : Q a → Safe (mret a) Q.
Proof. by intros Ha i Hi. Qed.

Lemma Safe_any {A} (a : A) : Safe (mret a) (λ _, True).
Proof. by apply Safe_ret. Qed.

Lemma Safe_lift {A} (r : Result A) : r ≠ Panic → Safe (lift r) (λ a, r = Ok a).
Proof. intros Hr i Hi. by destruct r. Qed.

Lemma Safe_fail {A} e (Q : A → Prop) : Safe (fail e) Q.
Proof. by intros i Hi. Qed.

Lemma Safe_input_len : Safe input_len (λ _, True).
Proof. by intros i Hi. Qed.

Lemma Safe_if {A} (b : bool) (p q : P A) Q :
  (b = true → Safe p Q) → (b = false → Safe q Q) → Safe (if b then p else q) Q.
Proof. by destruct b; auto. Qed.

#[export] Hint Resolve Safe_any Safe_fail Safe_input_len : safe.

Section safety.
Context {w : Winnow} {ws : WinnowSpec w}.

Lemma Safe_be_u8 : Safe be_u8 is_u8.
Proof.
  intros [|b i] Hi; [by rewrite be_u8_none|]. rewrite be_u8_some.
  apply bytes_ok_cons_inv in Hi. tauto.
Qed.

Lemma Safe_be_u16 : Safe be_u16 is_u16.
Proof.
  intros [|a [|b i]] Hi; [by rewrite be_u16_none..|]. rewrite be_u16_some.
  apply bytes_ok_cons_inv in Hi as [? Hi]. apply bytes_ok_cons_inv in Hi as [? Hi].
  auto using u16_from_be_range.
Qed.

Lemma Safe_take n : 0 ≤ n → Safe (take_bytes n) (λ bs, bytes_ok bs ∧ len bs = n).
Proof.
  intros Hn i Hi. destruct (Z.le_gt_cases n (len i)).
  - rewrite take_some by lia. split; [by apply bytes_ok_drop|].
    split; [by apply bytes_ok_take|]. rewrite len_take. lia.
  - by rewrite take_none by lia.
Qed.

Lemma Safe_rest : Safe rest bytes_ok.
Proof. intros i Hi. rewrite rest_all. by split; [constructor|]. Qed.

Lemma run_all_no_panic {O} (p : P O) bs :
  Consumes p → Safe p (λ _, True) → bytes_ok bs → run_all bs p ≠ Panic.
Proof.
  intros Hc Hp Hb. apply run_all_loop_no_panic; [done| |done|done]. intros j Hj Hpan.
  specialize (Hp j Hj). by rewrite Hpan in Hp.
Qed.

Lemma Safe_run_all {O} (p : P O) bs :
  Consumes p → Safe p (λ _, True) → bytes_ok bs → Safe (lift (run_all bs p)) (λ _, True).
Proof.
  intros Hc Hp Hb. eapply Safe_weaken; [by apply Safe_lift, run_all_no_panic|done].
Qed.

Lemma Safe_run {O} bs (p : P O) Q : bytes_ok bs → Safe p Q → run bs p ≠ Panic.
Proof.
  intros Hb Hp. unfold run. specialize (Hp bs Hb). destruct (p bs); [|done..]. by case_match.
Qed.

Lemma Safe_lift_bind {A B} (r : Result A) (k : A → P B) Q :
  r ≠ Panic → (∀ a, r = Ok a → Safe (k a) Q) → Safe (lift r ≫= k) Q.
Proof. intros Hr Hk. eapply Safe_bind; [by apply Safe_lift|]. auto. Qed.
End safety.

#[export] Hint Resolve Safe_be_u8 Safe_be_u16 Safe_rest check_range_no_panic : safe.

(** [safe_step]: one bind of a parser built from the primitives. *)
Ltac safe_step :=
  lazymatch goal with
  | |- Safe (be_u8 ≫= _) _ => eapply Safe_bind; [apply Safe_be_u8|]; intros ? ?; cbv beta
  | |- Safe (be_u16 ≫= _) _ => eapply Safe_bind; [apply Safe_be_u16|]; intros ? ?; cbv beta
  | |- Safe (rest ≫= _) _ => eapply Safe_bind; [apply Safe_rest|]; intros ? ?; cbv beta
  | |- Safe (input_len ≫= _) _ =>
      eapply Safe_bind; [apply Safe_input_len|]; intros ? ?; cbv beta
  | |- Safe (lift _ ≫= _) _ => apply Safe_lift_bind; [|intros ? ?; cbv beta]
  | |- Safe (if _ then _ else _) _ => apply Safe_if; intros ?
  | |- Safe (mret _) _ => apply Safe_any
  | |- Safe (fail _) _ => apply Safe_fail
  end.
Ltac safe := repeat safe_step; auto with safe.

Section decoders.
Context {w : Winnow} {ws : WinnowSpec w}.

Lemma ReadDeviceIdCode_decode_no_panic raw : ReadDeviceIdCode_decode raw ≠ Panic.
Proof. unfold ReadDeviceIdCode_decode. repeat case_match; done. Qed.

Lemma FunctionCode_decode_no_panic b : FunctionCode_decode b ≠ Panic.
Proof. unfold FunctionCode_decode. by case_match. Qed.

Lemma check_bounds_no_panic f v lo hi : check_bounds f v lo hi ≠ Panic.
Proof. by destruct (check_bounds_cases f v lo hi) as [[-> _]|[-> _]]. Qed.

Lemma check_numbers_no_panic f r : check_numbers f r ≠ Panic.
Proof. by destruct (check_numbers_cases f r) as [[-> _]|[e ->]]. Qed.

Lemma check_read_count_no_panic n : check_read_count n ≠ Panic.
Proof.
  unfold check_read_count.
  destruct (check_bounds_cases "request byte count" n MIN_READ_BYTE_COUNT MAX_READ_BYTE_COUNT)
    as [[-> _]|[-> _]]; [rewrite Result_bind_ok; by case_match|done].
Qed.

Lemma check_event_log_no_panic n : check_event_log_bytes n ≠ Panic.
Proof. by destruct (check_event_log_cases n) as [[-> _]|[-> _]]. Qed.

Lemma packed_bits_no_panic data q : packed_bits data q ≠ Panic.
Proof. unfold packed_bits. by case_match. Qed.

#[local] Hint Resolve ReadDeviceIdCode_decode_no_panic check_numbers_no_panic
  check_event_log_no_panic packed_bits_no_panic : safe.

Lemma Safe_parse_object : Safe parse_object (λ _, True).
Proof.
  unfold parse_object. safe. eapply Safe_bind; [apply Safe_take|safe].
  match goal with H : is_u8 ?l |- 0 ≤ ?l => destruct H end. done.
Qed.

Lemma Safe_mei_opaque {A} (f : list Z → A) :
  Safe (data ← mei_opaque; mret (f data)) (λ _, True).
Proof.
  eapply (Safe_bind _ _ (λ _, True)); [unfold mei_opaque; safe|intros ? _; safe].
Qed.

Lemma Safe_mei_decode_request : Safe mei_decode_request (λ _, True).
Proof. unfold mei_decode_request. safe; apply Safe_mei_opaque. Qed.

Lemma Safe_mei_decode_response : Safe mei_decode_response (λ _, True).
Proof.
  unfold mei_decode_response, decode_device_identification. safe; try apply Safe_mei_opaque.
  eapply (Safe_bind _ _ (λ _, True)); [unfold decode_more_follows; safe|]. intros ? _. safe.
  apply run_all_no_panic; auto using parse_object_consumes, Safe_parse_object.
Qed.

Lemma Safe_reference_type : Safe reference_type (λ _, True).
Proof. unfold reference_type. safe. Qed.

Lemma Safe_region check :
  (∀ n, check n ≠ Panic) → Safe (region check) bytes_ok.
Proof.
  intros Hc. unfold region. safe.
  eapply Safe_weaken; [apply Safe_take|by intros ? [? _]].
  match goal with H : is_u8 ?l |- 0 ≤ ?l => destruct H end. done.
Qed.

Lemma Safe_FileRecordRead_parse : Safe FileRecordRead_parse (λ _, True).
Proof.
  unfold FileRecordRead_parse. eapply Safe_bind; [apply Safe_reference_type|intros ? _; safe].
Qed.

Lemma Safe_FileRecordReadResponse_parse : Safe FileRecordReadResponse_parse (λ _, True).
Proof.
  unfold FileRecordReadResponse_parse. safe. split_guards.
  eapply Safe_bind; [apply Safe_reference_type|intros ? _].
  match goal with H : is_u8 ?l |- _ => unfold is_u8 in H end.
  unfold checked_sub. safe.
  - case_match; [split_guards; lia|done].
  - eapply Safe_bind; [apply Safe_take|safe]. case_match; [done|]. simplify_eq. lia.
Qed.

Lemma Safe_FileRecordWrite_parse : Safe FileRecordWrite_parse (λ _, True).
Proof.
  unfold FileRecordWrite_parse. eapply Safe_bind; [apply Safe_reference_type|intros ? _; safe].
  eapply Safe_bind; [apply Safe_take|safe].
  match goal with H : is_u16 ?l |- 0 ≤ saturating_mul ?l _ =>
    unfold is_u16, saturating_mul, USIZE_MAX in *; lia end.
Qed.

Lemma Safe_decode_read_requests : Safe decode_read_requests (λ _, True).
Proof.
  unfold decode_read_requests.
  eapply Safe_bind; [apply Safe_region, check_read_count_no_panic|].
  intros r Hr. apply Safe_run_all; [|apply Safe_FileRecordRead_parse|done].
  apply (region_item_consumes _ _ _ FileRecordRead_parse_inv).
  intros v. unfold read_request_layout. len_lia.
Qed.

Lemma Safe_decode_read_responses : Safe decode_read_responses (λ _, True).
Proof.
  unfold decode_read_responses.
  eapply Safe_bind; [apply Safe_region; intros; apply check_bounds_no_panic|].
  intros r Hr. apply Safe_run_all; [|apply Safe_FileRecordReadResponse_parse|done].
  apply (region_item_consumes _ _ _ FileRecordReadResponse_parse_inv).
  intros v. unfold read_response_layout. len_lia.
Qed.

Lemma Safe_decode_write_records : Safe decode_write_records (λ _, True).
Proof.
  unfold decode_write_records.
  eapply Safe_bind; [apply Safe_region; intros; apply check_bounds_no_panic|].
  intros r Hr. apply Safe_run_all; [|apply Safe_FileRecordWrite_parse|done].
  apply (region_item_consumes _ _ _ FileRecordWrite_parse_inv).
  intros v. unfold write_record_layout. len_lia.
Qed.

Lemma Safe_counted_bytes : Safe counted_bytes bytes_ok.
Proof.
  unfold counted_bytes. safe.
  eapply Safe_weaken; [apply Safe_take|by intros ? [? _]].
  match goal with H : is_u8 ?l |- 0 ≤ ?l => destruct H end. done.
Qed.

Lemma Safe_registers : Safe registers (λ _, True).
Proof. unfold registers. eapply Safe_bind; [apply Safe_counted_bytes|intros ? _; safe]. Qed.

Lemma Safe_quantified_bytes f lo hi width : Safe (quantified_bytes f lo hi width) (λ _, True).
Proof.
  unfold quantified_bytes. safe. eapply Safe_bind; [apply Safe_take|intros ? _; safe].
  split_guards. match goal with H : is_u8 ?l |- _ => destruct H end. lia.
Qed.

Lemma Safe_read_request lo hi : Safe (read_request lo hi) (λ _, True).
Proof. unfold read_request. safe. Qed.

Lemma Safe_single_coil : Safe single_coil (λ _, True).
Proof. unfold single_coil. safe. Qed.

Lemma Safe_diagnostic_body : Safe diagnostic_body (λ _, True).
Proof. unfold diagnostic_body. safe. Qed.

Lemma Safe_fifo_values : Safe fifo_values (λ _, True).
Proof.
  unfold fifo_values, u16_checked. safe;
    match goal with H : check_range _ _ _ _ = _ |- _ => apply check_range_inv in H end;
    unfold MAX_FIFO_COUNT, U16_MAX in *.
  - case_match; [split_guards; lia|done].
  - eapply Safe_bind; [apply Safe_take; lia|intros ? _; safe].
Qed.

(** [safe_body]: a body whose first parser is one of the above. *)
Ltac safe_body :=
  lazymatch goal with
  | |- Safe (counted_bytes ≫= _) _ => eapply Safe_bind; [apply Safe_counted_bytes|]
  | |- Safe (registers ≫= _) _ => eapply Safe_bind; [apply Safe_registers|]
  | |- Safe (quantified_bytes _ _ _ _ ≫= _) _ =>
      eapply Safe_bind; [apply Safe_quantified_bytes|]
  | |- Safe (read_request _ _ ≫= _) _ => eapply Safe_bind; [apply Safe_read_request|]
  | |- Safe (single_coil ≫= _) _ => eapply Safe_bind; [apply Safe_single_coil|]
  | |- Safe (diagnostic_body ≫= _) _ => eapply Safe_bind; [apply Safe_diagnostic_body|]
  | |- Safe (fifo_values ≫= _) _ => eapply Safe_bind; [apply Safe_fifo_values|]
  | |- Safe (decode_read_requests ≫= _) _ =>
      eapply Safe_bind; [apply Safe_decode_read_requests|]
  | |- Safe (decode_read_responses ≫= _) _ =>
      eapply Safe_bind; [apply Safe_decode_read_responses|]
  | |- Safe (decode_write_records ≫= _) _ =>
      eapply Safe_bind; [apply Safe_decode_write_records|]
  | |- Safe (mei_decode_request ≫= _) _ =>
      eapply Safe_bind; [apply Safe_mei_decode_request|]
  | |- Safe (mei_decode_response ≫= _) _ =>
      eapply Safe_bind; [apply Safe_mei_decode_response|]
  end; intros ? ?; repeat match goal with x : _ * _ |- _ => destruct x end; cbv beta iota.

Lemma Safe_request_body code : Safe (request_body code) (λ _, True).
Proof. destruct code; cbn [request_body]; safe; try safe_body; safe. Qed.

Lemma Safe_response_body code : Safe (response_body code) (λ _, True).
Proof.
  destruct code; cbn [response_body]; safe; try safe_body; safe.
  eapply Safe_bind; [apply Safe_take; unfold saturating_sub; lia|intros ? _; safe].
Qed.

Lemma check_size_no_panic bs : check_size bs ≠ Panic.
Proof. unfold check_size. by case_match. Qed.

Lemma ExceptionResponse_decode_no_panic bs : ExceptionResponse_decode bs ≠ Panic.
Proof.
  destruct bs as [|a [|b [|c bs]]]; try done. cbn. case_match; [done|].
  match goal with |- context [FunctionCode_decode ?x] =>
    pose proof (FunctionCode_decode_no_panic x); by destruct (FunctionCode_decode x) end.
Qed.

Lemma Result_bind_no_panic {A B} (r : Result A) (k : A → Result B) :
  r ≠ Panic → (∀ a, k a ≠ Panic) → (r ≫= k) ≠ Panic.
Proof. destruct r; naive_solver. Qed.

Lemma RequestPdu_decode_safe pdu : bytes_ok pdu → RequestPdu_decode pdu ≠ Panic.
Proof.
  intros Hb. apply Result_bind_no_panic; [apply check_size_no_panic|]. intros _.
  eapply Safe_run; [done|]. safe; [apply FunctionCode_decode_no_panic|].
  apply Safe_request_body.
Qed.

Lemma ResponsePdu_decode_safe pdu : bytes_ok pdu → ResponsePdu_decode pdu ≠ Panic.
Proof.
  intros Hb. apply Result_bind_no_panic; [apply check_size_no_panic|]. intros _.
  destruct (match pdu with byte :: _ => _ | [] => _ end).
  - apply Result_bind_no_panic; [apply ExceptionResponse_decode_no_panic|done].
  - eapply Safe_run; [done|]. safe; [apply FunctionCode_decode_no_panic|].
    apply Safe_response_body.
Qed.

(** Decoding is total on bytes: whatever bytes arrive, [RequestPdu::decode]
    and [ResponsePdu::decode] (its exception branch included) return a value or
    an error; no [expect], slice index, integer operation or loop of the
    decoder panics. *)
Theorem pdu_decode_no_panic pdu :
  bytes_ok pdu → RequestPdu_decode pdu ≠ Panic ∧ ResponsePdu_decode pdu ≠ Panic.
Proof. auto using RequestPdu_decode_safe, ResponsePdu_decode_safe. Qed.
End decoders.

(** A file-record request whose region is cut short. *)
Lemma pdu_decode_no_panic_witness :
  RequestPdu_decode (w := winnow_model) [20; 7; 6; 0; 4] ≠ Panic ∧
  ResponsePdu_decode (w := winnow_model) [20; 7; 6; 0; 4] ≠ Panic.
Proof.
  apply (@pdu_decode_no_panic winnow_model winnow_model_spec).
  repeat constructor; vm_compute; intros [=].
Defined.
