(* ===== verification/PduTheorems.v ===== *)
(** * Properties of the PDU codec

    The statements a client of the frame layer relies on, each with a witness
    on a concrete PDU, over any [winnow] that behaves as documented. *)

From S2P Require Import Prelude.
From S2P Require Import Errors.
From S2P Require Import Parse.
From S2P Require Import Value.
From S2P Require Import Function.
From S2P Require Import Exception.
From S2P Require Import Diagnostics.
From S2P Require Import Wire.
From S2P Require Import Mei.
From S2P Require Import FileRecord.
From S2P Require Import Pdu.
From S2P Require Import PduSpec.
From S2P Require Import PduRoundtrip.

Section claims.
Context {w : Winnow} {ws : WinnowSpec w}.

(** C1. Requests, both directions at once: bytes decode to a request exactly
    when that request is well formed, in canonical form, and encodes to those
    very bytes.  So every canonical request the encoder accepts survives the round
    trip, and every PDU the decoder accepts re-encodes identically.  The only
    requests not in canonical form are those of the encapsulated interface that
    carry as an opaque type the value of a type with a form of its own
    (FR-R-133). *)
Theorem request_codec bs r :
  bytes_ok bs →
  RequestPdu_decode bs = Ok r ↔
  wf r ∧ request_canonical r = true ∧ RequestPdu_encode r = Ok bs.
Proof.
  intros Hb. rewrite RequestPdu_encode_bytes. split.
  - intros H. by destruct (RequestPdu_decode_inv bs r) as (? & ? & ? & _).
  - intros (? & ? & ?). by apply RequestPdu_decode_bytes.
Qed.

(** C2. Responses, both directions at once, exception responses included: bytes
    decode to a response exactly when that response is well formed, in canonical
    form (packed bits in whole bytes), and encodes to those very bytes. *)
Theorem response_codec bs r :
  bytes_ok bs →
  ResponsePdu_decode bs = Ok r ↔
  wf r ∧ response_canonical r = true ∧ ResponsePdu_encode r = Ok bs.
Proof.
  intros Hb. rewrite ResponsePdu_encode_bytes. split.
  - apply ResponsePdu_decode_inv. done.
  - intros (? & ? & ?). by apply ResponsePdu_decode_bytes.
Qed.

(** The function code a decoded request reports is the one its first byte
    carries (FR-R-016). *)
Theorem request_function_byte bs r :
  bytes_ok bs → RequestPdu_decode bs = Ok r →
  ∃ b i, bs = b :: i ∧ FunctionCode_decode b = Ok (RequestPdu_function r).
Proof.
  intros Hb H. destruct (RequestPdu_decode_inv bs r) as (_ & _ & _ & b & i & -> & Hf); [done..|].
  exists b, i. split; [done|]. by apply FunctionCode_encode_decode.
Qed.
End claims.

(** C20. [RequestPdu::encode_into] and [ResponsePdu::encode_into] refine the wire
    layout of the specification and are all or nothing: they append the layout's
    bytes to whatever the buffer holds, or return the layout's error with the
    buffer as it was (FR-R-140, FR-R-142), and they never panic. *)
Theorem pdu_encode_into_refines :
  (∀ r out, RequestPdu_encode_into r out =
     match request_bytes r with
     | Ok bs => (Ok tt, out ++ bs)
     | Err e => (Err e, out)
     | Panic => (Panic, out)
     end ∧ request_bytes r ≠ Panic) ∧
  (∀ r out, ResponsePdu_encode_into r out =
     match response_bytes r with
     | Ok bs => (Ok tt, out ++ bs)
     | Err e => (Err e, out)
     | Panic => (Panic, out)
     end ∧ response_bytes r ≠ Panic).
Proof.
  split; intros r out; split.
  - apply RequestPdu_encode_into_spec.
  - apply request_bytes_no_panic.
  - apply ResponsePdu_encode_into_spec.
  - apply response_bytes_no_panic.
Qed.

(** What encodes is a PDU: at most 253 bytes (FR-R-002), each of them in
    range. *)
Theorem encoded_pdu_bounds :
  (∀ r bs, wf r → RequestPdu_encode r = Ok bs → bytes_ok bs ∧ 1 ≤ len bs ≤ 253) ∧
  (∀ r bs, wf r → ResponsePdu_encode r = Ok bs → bytes_ok bs ∧ 1 ≤ len bs ≤ 253).
Proof.
  split; intros r bs Hw H.
  - rewrite RequestPdu_encode_bytes in H. by eapply request_bytes_pdu.
  - rewrite ResponsePdu_encode_bytes in H. by eapply response_bytes_pdu.
Qed.

(** [mask_write_result] sets each bit from the current value where the AND
    mask is set and from the OR mask where it is not (FR-R-035), and stays a
    16-bit value. *)
Theorem mask_write_result_bits cur am om n :
  wf cur → wf am → wf om → 0 ≤ n < 16 →
  Z.testbit (register_value_0 (mask_write_result cur am om)) n =
    (if Z.testbit (mask_0 am) n then Z.testbit (register_value_0 cur) n
     else Z.testbit (mask_0 om) n) ∧
  wf (mask_write_result cur am om).
Proof.
  intros Hc Ha Ho Hn. cbn [mask_write_result register_value_0]. split.
  - rewrite Z.lor_spec, !Z.land_spec, Z.lnot_spec by lia.
    replace (Z.testbit U16_MAX n) with true.
    + destruct (Z.testbit (mask_0 am) n), (Z.testbit (register_value_0 cur) n),
        (Z.testbit (mask_0 om) n); done.
    + symmetry. change U16_MAX with (Z.ones 16). apply Z.ones_spec_low. lia.
  - cbv [wf Wf_RegisterValue Wf_Mask is_u16] in *. cbn [mask_write_result register_value_0].
    set (x := Z.lor _ _).
    assert (0 ≤ x) as Hx.
    { apply Z.lor_nonneg. split; apply Z.land_nonneg; [lia|left; lia]. }
    split; [done|]. apply Z.lt_succ_r. change (Z.succ 65535) with (2 ^ 16).
    assert (Z.shiftr x 16 = 0) as Hs.
    { unfold x. rewrite Z.shiftr_lor, !Z.shiftr_land.
      rewrite (Z.shiftr_div_pow2 (register_value_0 cur)), (Z.shiftr_div_pow2 (mask_0 om)) by lia.
      change (2 ^ 16) with 65536. rewrite !Z.div_small by lia. by rewrite !Z.land_0_l. }
    rewrite Z.shiftr_div_pow2 in Hs by lia. apply Z.div_small_iff in Hs; lia.
Qed.

(** ** Witnesses *)

Lemma request_codec_witness :
  RequestPdu_decode (w := winnow_model) [15; 0; 19; 0; 10; 2; 205; 1] =
    Ok (Req_WriteMultipleCoils (mkAddress 19)
      [true; false; true; true; false; false; true; true; true; false]) ↔
  wf (Req_WriteMultipleCoils (mkAddress 19)
      [true; false; true; true; false; false; true; true; true; false]) ∧
  request_canonical (Req_WriteMultipleCoils (mkAddress 19)
      [true; false; true; true; false; false; true; true; true; false]) = true ∧
  RequestPdu_encode (Req_WriteMultipleCoils (mkAddress 19)
      [true; false; true; true; false; false; true; true; true; false]) =
    Ok [15; 0; 19; 0; 10; 2; 205; 1].
Proof. apply (@request_codec winnow_model winnow_model_spec). by_eval. Defined.

Lemma response_codec_witness :
  ResponsePdu_decode (w := winnow_model) [0x83; 2] =
    Ok (Resp_Exception (mkExceptionResponse FC_ReadHoldingRegisters EC_IllegalDataAddress)) ↔
  wf (Resp_Exception (mkExceptionResponse FC_ReadHoldingRegisters EC_IllegalDataAddress)) ∧
  response_canonical
    (Resp_Exception (mkExceptionResponse FC_ReadHoldingRegisters EC_IllegalDataAddress)) = true ∧
  ResponsePdu_encode
    (Resp_Exception (mkExceptionResponse FC_ReadHoldingRegisters EC_IllegalDataAddress)) =
    Ok [0x83; 2].
Proof. apply (@response_codec winnow_model winnow_model_spec). by_eval. Defined.

Lemma request_function_byte_witness :
  ∃ b i, [20; 7; 6; 0; 4; 0; 1; 0; 2] = b :: i ∧
    FunctionCode_decode b = Ok (RequestPdu_function (Req_ReadFileRecord
      [mkFileRecordRead (mkFileNumber 4) (mkRecordNumber 1) (mkRecordLength 2)])).
Proof.
  apply (@request_function_byte winnow_model winnow_model_spec); by_eval.
Defined.

(** The example of the Modbus specification. *)
Lemma mask_write_result_bits_witness :
  Z.testbit (register_value_0 (mask_write_result (mkRegisterValue 0x12) (mkMask 0xF2)
    (mkMask 0x25))) 2 =
    (if Z.testbit (mask_0 (mkMask 0xF2)) 2 then Z.testbit (register_value_0 (mkRegisterValue 0x12)) 2
     else Z.testbit (mask_0 (mkMask 0x25)) 2) ∧
  wf (mask_write_result (mkRegisterValue 0x12) (mkMask 0xF2) (mkMask 0x25)).
Proof. apply mask_write_result_bits; by_eval. Defined.
