(* ===== verification/Framing.v ===== *)
(** * The framing abstraction ([src/frame/framing.rs])

    A framing is a record of operations over a header type; what the client,
    the server and the transport rely on is the class [LawfulFraming], which
    each framing of the crate discharges in its own file. *)

From S2P Require Import Prelude.
From S2P Require Import Errors.
From S2P Require Import Parse.
From S2P Require Import Value.
From S2P Require Import Pdu.
From S2P Require Import PduSpec.
From S2P Require Import PduRoundtrip.

Inductive Direction := DirRequest | DirResponse.

Inductive Extent := NeedMore | Complete (n : Z).

#[export] Instance Extent_eq_dec : EqDecision Extent.
Proof. solve_decision. Defined.

(** [AduBoundary]: the rule that ends an ADU. *)
Inductive AduBoundary :=
  | Prefixed (prefix : Z) (total : list Z → Result Z)
  | Delimited (start : Z) (end_ : list Z)
  | Silence
  | ContentLength (min : Z) (extent : Direction → list Z → Result Extent).

(** [AduBoundary::is_self_locating]. *)
Definition is_self_locating (b : AduBoundary) : bool :=
  match b with
  | Delimited _ _ | Silence => true
  | Prefixed _ _ | ContentLength _ _ => false
  end.

(** The trait [Framing]; its [Header : Clone + PartialEq + Debug] is a type with
    decidable equality and a width invariant. *)
Record Framing := {
  Header : Type;
  Header_eq : EqDecision Header;
  Header_wf : Wf Header;
  MAX_ADU_LEN : Z;
  decode_request : list Z → Result (Header * RequestPdu);
  encode_request_into : Header → RequestPdu → W unit;
  decode_response : list Z → Result (Header * ResponsePdu);
  encode_response_into : Header → ResponsePdu → W unit;
  boundary : AduBoundary;
}.

#[export] Existing Instance Header_eq.
#[export] Existing Instance Header_wf.

(** The provided methods [encode_request] and [encode_response]. *)
Definition encode_request (F : Framing) (header : Header F) (pdu : RequestPdu)
    : Result (list Z) :=
  let '(result, out) := encode_request_into F header pdu [] in _ ← result; Ok out.

Definition encode_response (F : Framing) (header : Header F) (pdu : ResponsePdu)
    : Result (list Z) :=
  let '(result, out) := encode_response_into F header pdu [] in _ ← result; Ok out.

(** ** What a framing promises

    [frame h pdu] is the ADU around the encoded PDU [pdu].  Encoding appends it
    or leaves the buffer alone; decoding undoes it, and what decodes stands for
    such an ADU ([denotes]: equal to it, or for ASCII equal up to the case of
    its hexadecimal characters). *)
(** Outcome of an encoder given the layout of its PDU. *)
Definition appended (r : Result (list Z)) (wrap : list Z → list Z) (out : list Z)
    : Result unit * list Z :=
  match r with
  | Ok pdu => (Ok tt, out ++ wrap pdu)
  | Err e => (Err e, out)
  | Panic => (Panic, out)
  end.

Class LawfulFraming {w : Winnow} (F : Framing) := {
  frame : Header F → list Z → list Z;
  denotes : list Z → list Z → Prop;
  encode_request_into_frame h r out : wf h → wf r → vec_ok out →
    encode_request_into F h r out = appended (request_bytes r) (frame h) out;
  encode_response_into_frame h r out : wf h → wf r → vec_ok out →
    encode_response_into F h r out = appended (response_bytes r) (frame h) out;
  decode_request_frame h pdu : wf h → is_pdu pdu →
    decode_request F (frame h pdu) = (r ← RequestPdu_decode pdu; Ok (h, r));
  decode_response_frame h pdu : wf h → is_pdu pdu →
    decode_response F (frame h pdu) = (r ← ResponsePdu_decode pdu; Ok (h, r));
  decode_request_denotes bs h r : bytes_ok bs → decode_request F bs = Ok (h, r) →
    ∃ pdu, denotes bs (frame h pdu) ∧ wf h ∧ is_pdu pdu ∧ RequestPdu_decode pdu = Ok r;
  decode_response_denotes bs h r : bytes_ok bs → decode_response F bs = Ok (h, r) →
    ∃ pdu, denotes bs (frame h pdu) ∧ wf h ∧ is_pdu pdu ∧ ResponsePdu_decode pdu = Ok r;
  decode_request_total bs : bytes_ok bs → decode_request F bs ≠ Panic;
  decode_response_total bs : bytes_ok bs → decode_response F bs ≠ Panic;
  frame_bounds h pdu : wf h → is_pdu pdu →
    bytes_ok (frame h pdu) ∧ 1 ≤ len (frame h pdu) ≤ MAX_ADU_LEN F;
}.

(** ** Consequences for every lawful framing *)

Section consequences.
Context {w : Winnow} {ws : WinnowSpec w} {F : Framing} {L : LawfulFraming F}.

Lemma encode_request_frame h r :
  wf h → wf r → encode_request F h r = frame h <$> request_bytes r.
Proof.
  intros Hh Hr. unfold encode_request. rewrite encode_request_into_frame by done.
  by destruct (request_bytes r).
Qed.

Lemma encode_response_frame h r :
  wf h → wf r → encode_response F h r = frame h <$> response_bytes r.
Proof.
  intros Hh Hr. unfold encode_response. rewrite encode_response_into_frame by done.
  by destruct (response_bytes r).
Qed.

Lemma encode_request_inv h r adu :
  wf h → wf r → encode_request F h r = Ok adu →
  ∃ pdu, adu = frame h pdu ∧ request_bytes r = Ok pdu ∧ is_pdu pdu.
Proof.
  intros Hh Hr. rewrite encode_request_frame by done.
  destruct (request_bytes r) as [pdu|e|] eqn:E; [|done..]. intros [= <-].
  exists pdu. eauto using request_bytes_pdu.
Qed.

Lemma encode_response_inv h r adu :
  wf h → wf r → encode_response F h r = Ok adu →
  ∃ pdu, adu = frame h pdu ∧ response_bytes r = Ok pdu ∧ is_pdu pdu.
Proof.
  intros Hh Hr. rewrite encode_response_frame by done.
  destruct (response_bytes r) as [pdu|e|] eqn:E; [|done..]. intros [= <-].
  exists pdu. eauto using response_bytes_pdu.
Qed.

Lemma request_adu_roundtrip h r adu :
  wf h → wf r → request_canonical r = true → encode_request F h r = Ok adu →
  decode_request F adu = Ok (h, r) ∧ bytes_ok adu ∧ 1 ≤ len adu ≤ MAX_ADU_LEN F.
Proof.
  intros Hh Hr Hc H. apply encode_request_inv in H as (pdu & -> & Hp & Hpdu); [|done..].
  split; [|by apply frame_bounds]. rewrite decode_request_frame by done.
  by rewrite (RequestPdu_decode_bytes r pdu).
Qed.

Lemma response_adu_roundtrip h r adu :
  wf h → wf r → response_canonical r = true → encode_response F h r = Ok adu →
  decode_response F adu = Ok (h, r) ∧ bytes_ok adu ∧ 1 ≤ len adu ≤ MAX_ADU_LEN F.
Proof.
  intros Hh Hr Hc H. apply encode_response_inv in H as (pdu & -> & Hp & Hpdu); [|done..].
  split; [|by apply frame_bounds]. rewrite decode_response_frame by done.
  by rewrite (ResponsePdu_decode_bytes r pdu).
Qed.

(** Decoding an ADU and encoding the result gives an ADU the input denotes. *)
Lemma request_adu_reencode bs h r :
  bytes_ok bs → decode_request F bs = Ok (h, r) →
  ∃ adu, encode_request F h r = Ok adu ∧ denotes bs adu ∧ wf h ∧ wf r.
Proof.
  intros Hb H. apply decode_request_denotes in H as (pdu & Hd & Hh & [Hp Hl] & Hr); [|done].
  destruct (RequestPdu_decode_inv pdu r) as (Hw & _ & Hbs & _); [done..|].
  exists (frame h pdu). rewrite encode_request_frame, Hbs by done. done.
Qed.

Lemma response_adu_reencode bs h r :
  bytes_ok bs → decode_response F bs = Ok (h, r) →
  ∃ adu, encode_response F h r = Ok adu ∧ denotes bs adu ∧ wf h ∧ wf r.
Proof.
  intros Hb H. apply decode_response_denotes in H as (pdu & Hd & Hh & [Hp Hl] & Hr); [|done].
  destruct (ResponsePdu_decode_inv pdu r) as (Hw & _ & Hbs); [done..|].
  exists (frame h pdu). rewrite encode_response_frame, Hbs by done. done.
Qed.
End consequences.

(** ** Framings given by a split

    The three framings of the crate decode by splitting the ADU into its header
    and its PDU, then decoding the PDU. *)

Definition decode_by {H X} (split : list Z → Result (H * list Z)) (dec : list Z → Result X)
    (bytes : list Z) : Result (H * X) :=
  '(h, pdu) ← split bytes; r ← dec pdu; Ok (h, r).

Section by_split.
Context {H : Type} `{Wf H} (split : list Z → Result (H * list Z)) (fr : H → list Z → list Z).
Context (den : list Z → list Z → Prop).
Hypothesis split_frame : ∀ h pdu, wf h → is_pdu pdu → split (fr h pdu) = Ok (h, pdu).
Hypothesis split_inv : ∀ bs h pdu, bytes_ok bs → split bs = Ok (h, pdu) →
  den bs (fr h pdu) ∧ wf h ∧ is_pdu pdu.
Hypothesis split_total : ∀ bs, bytes_ok bs → split bs ≠ Panic.
Context {X : Type} (dec : list Z → Result X).
Hypothesis dec_total : ∀ bs, bytes_ok bs → dec bs ≠ Panic.

Lemma decode_by_frame h pdu :
  wf h → is_pdu pdu → decode_by split dec (fr h pdu) = (r ← dec pdu; Ok (h, r)).
Proof. intros Hh Hp. unfold decode_by. by rewrite split_frame. Qed.

Lemma decode_by_denotes bs h r :
  bytes_ok bs → decode_by split dec bs = Ok (h, r) →
  ∃ pdu, den bs (fr h pdu) ∧ wf h ∧ is_pdu pdu ∧ dec pdu = Ok r.
Proof.
  intros Hb Hd. unfold decode_by in Hd. apply Result_bind_inv in Hd as ([h' pdu] & Hs & Hd).
  apply Result_bind_inv in Hd as (r' & Hr & [= <- <-]).
  apply split_inv in Hs as (? & ? & ?); [|done]. eauto.
Qed.

Lemma decode_by_total bs : bytes_ok bs → decode_by split dec bs ≠ Panic.
Proof.
  intros Hb. unfold decode_by. pose proof (split_total bs Hb).
  destruct (split bs) as [[h pdu]|e|] eqn:E; [|done..].
  apply split_inv in E as (_ & _ & [Hp _]); [|done]. rewrite Result_bind_ok.
  pose proof (dec_total pdu Hp). by destruct (dec pdu).
Qed.
End by_split.

(** A PDU encoder as [wrap_into] sees it. *)
Definition Appends (enc : W unit) (r : Result (list Z)) : Prop :=
  ∀ out, enc out = appended r (λ bs, bs) out.

Lemma request_appends r : Appends (RequestPdu_encode_into r) (request_bytes r).
Proof. intros out. apply RequestPdu_encode_into_spec. Qed.

Lemma response_appends r : Appends (ResponsePdu_encode_into r) (response_bytes r).
Proof. intros out. apply ResponsePdu_encode_into_spec. Qed.
