(* ===== verification/Rtu.v ===== *)
(** * RTU framing ([src/frame/rtu.rs]): address, PDU, CRC-16

    The [crc] crate is the class [Crc16]; what the source relies on is that its
    [CRC_16_MODBUS] checksum is the reflected shift register with polynomial
    [0xA001] started at [0xFFFF], which is [crc16_modbus] below. *)

From S2P Require Import Prelude.
From S2P Require Import Errors.
From S2P Require Import Parse.
From S2P Require Import Value.
From S2P Require Import Pdu.
From S2P Require Import PduSpec.
From S2P Require Import PduRoundtrip.
From S2P Require Import PduSafety.
From S2P Require Import Framing.

(** ** The checksum *)

Class Crc16 := checksum : list Z → Z.

(** One step of the shift register, one byte, a whole message. *)
Definition crc_shift (c : Z) : Z :=
  if Z.testbit c 0 then Z.lxor (Z.shiftr c 1) 0xA001 else Z.shiftr c 1.
Definition crc_byte (c b : Z) : Z := Nat.iter 8 crc_shift (Z.lxor c b).
Definition crc16_modbus (bs : list Z) : Z := fold_left crc_byte bs 0xFFFF.

(** The documented behaviour of [Crc::<u16>::new(&CRC_16_MODBUS)]. *)
Class Crc16Spec (c : Crc16) : Prop :=
  checksum_modbus bs : bytes_ok bs → checksum bs = crc16_modbus bs.

Definition crc_model : Crc16 := crc16_modbus.

#[export] Instance crc_model_spec : Crc16Spec crc_model.
Proof. by intros bs _. Qed.

(** The check value of the CRC-16/MODBUS catalogue entry. *)
Example crc_check_value :
  crc16_modbus [0x31; 0x32; 0x33; 0x34; 0x35; 0x36; 0x37; 0x38; 0x39] = 0x4B37.
Proof. vm_compute. reflexivity. Qed.

(** ** The framing *)

Definition RTU_OVERHEAD : Z := 3.
Definition RTU_MAX_ADU_LEN : Z := 256.

Section rtu.
Context {w : Winnow} {c : Crc16}.

(** [crc16]. *)
Definition crc16 (bytes : list Z) : Z := checksum bytes.

(** [split]. *)
Definition Rtu_split (bytes : list Z) : Result (UnitId * list Z) :=
  if RTU_MAX_ADU_LEN <? len bytes then Err (AduTooLarge (len bytes) RTU_MAX_ADU_LEN) else
  let minimum := saturating_add RTU_OVERHEAD 1 in
  if len bytes <? minimum then Err (Truncated minimum (len bytes)) else
  '(body, crc) ← expect (split_at_checked (saturating_sub (len bytes) 2) bytes);
  '(address, pdu) ← expect (split_first body);
  actual ← expect (match crc with [lo; hi] => Some (u16_from_le lo hi) | _ => None end);
  let expected := crc16 body in
  if negb (expected =? actual) then Err (Checksum expected actual)
  else Ok (mkUnitId address, pdu).

(** [wrap_into]. *)
Definition Rtu_wrap_into (address : UnitId) (encode_pdu : W unit) : W unit := λ out,
  let at_ := len out in
  match encode_pdu (out ++ [unit_id_0 address]) with
  | (Err error, out') => (Err error, take (Z.to_nat at_) out')
  | (Panic, out') => (Panic, out')
  | (Ok _, out') =>
      match slice_get at_ (len out') out' with
      | Some covered => (Ok tt, out' ++ u16_to_le (crc16 covered))
      | None => (Panic, out')
      end
  end.

(** The four methods, shared by [Rtu] and [RtuOverTcp]. *)
Definition Rtu_decode_request (bytes : list Z) : Result (UnitId * RequestPdu) :=
  decode_by Rtu_split RequestPdu_decode bytes.
Definition Rtu_encode_request_into (header : UnitId) (pdu : RequestPdu) : W unit :=
  Rtu_wrap_into header (RequestPdu_encode_into pdu).
Definition Rtu_decode_response (bytes : list Z) : Result (UnitId * ResponsePdu) :=
  decode_by Rtu_split ResponsePdu_decode bytes.
Definition Rtu_encode_response_into (header : UnitId) (pdu : ResponsePdu) : W unit :=
  Rtu_wrap_into header (ResponsePdu_encode_into pdu).

(** [impl Framing for Rtu]. *)
Definition Rtu_framing : Framing := {|
  Header := UnitId;
  Header_eq := _;
  Header_wf := _;
  MAX_ADU_LEN := RTU_MAX_ADU_LEN;
  decode_request := Rtu_decode_request;
  encode_request_into := Rtu_encode_request_into;
  decode_response := Rtu_decode_response;
  encode_response_into := Rtu_encode_response_into;
  boundary := Silence;
|}.

(** The ADU around a PDU. *)
Definition rtu_adu (h : UnitId) (pdu : list Z) : list Z :=
  (unit_id_0 h :: pdu) ++ u16_to_le (crc16 (unit_id_0 h :: pdu)).
End rtu.

(** ** The shift register is injective *)

Definition crc_unshift (d : Z) : Z :=
  if Z.testbit d 15 then 2 * Z.lxor d 0xA001 + 1 else 2 * d.

Lemma crc_shift_table c :
  is_u16 c → crc_unshift (crc_shift c) = c ∧ is_u16 (crc_shift c).
Proof.
  intros Hc. unfold is_u16 in Hc.
  pose proof (forall_upto_spec (λ c, (crc_unshift (crc_shift c) =? c) &&
    (0 <=? crc_shift c) && (crc_shift c <=? 65535)) (Z.to_nat 65536) 0) as H.
  specialize (H ltac:(vm_compute; reflexivity) c ltac:(lia)). cbv beta in H.
  unfold is_u16. split_guards. lia.
Qed.

Lemma crc_shift_inj c d :
  is_u16 c → is_u16 d → crc_shift c = crc_shift d → c = d.
Proof.
  intros Hc Hd H. destruct (crc_shift_table c Hc) as [<- _].
  destruct (crc_shift_table d Hd) as [<- _]. by rewrite H.
Qed.

Lemma crc_iter n c d :
  is_u16 c → is_u16 d →
  is_u16 (Nat.iter n crc_shift c) ∧
  (Nat.iter n crc_shift c = Nat.iter n crc_shift d → c = d).
Proof.
  revert c d. induction n as [|n IH]; intros c d Hc Hd; [done|]. cbn.
  split; [apply crc_shift_table, (IH c d); done|].
  intros H. apply (IH c d); [done..|].
  apply crc_shift_inj; [by apply (IH c d)|by apply (IH d c)|done].
Qed.

Lemma lxor_u16 c b : is_u16 c → is_u8 b → is_u16 (Z.lxor c b).
Proof.
  unfold is_u16, is_u8. intros Hc Hb. assert (0 ≤ Z.lxor c b) as H0.
  { apply Z.lxor_nonneg. lia. }
  split; [done|]. apply Z.lt_succ_r. change (Z.succ 65535) with (2 ^ 16).
  assert (Z.shiftr (Z.lxor c b) 16 = 0) as Hs.
  { rewrite Z.shiftr_lxor, !Z.shiftr_div_pow2 by lia. change (2 ^ 16) with 65536.
    by rewrite !Z.div_small by lia. }
  rewrite Z.shiftr_div_pow2 in Hs by lia. apply Z.div_small_iff in Hs; lia.
Qed.

Lemma crc_byte_u16 c b : is_u16 c → is_u8 b → is_u16 (crc_byte c b).
Proof. intros Hc Hb. pose proof (lxor_u16 c b Hc Hb). by apply (crc_iter 8 _ (Z.lxor c b)). Qed.

(** Equal registers after one byte: equal registers before it if the byte is
    the same, and equal bytes if the registers were. *)
Lemma crc_byte_inj c d a b :
  is_u16 c → is_u16 d → is_u8 a → is_u8 b → crc_byte c a = crc_byte d b →
  Z.lxor c a = Z.lxor d b.
Proof. intros. apply (crc_iter 8); auto using lxor_u16. Qed.

Lemma lxor_cancel_r a b c : Z.lxor a c = Z.lxor b c → a = b.
Proof.
  intros H. apply (f_equal (λ x, Z.lxor x c)) in H.
  by rewrite !Z.lxor_assoc, !Z.lxor_nilpotent, !Z.lxor_0_r in H.
Qed.

Lemma lxor_cancel_l a b c : Z.lxor c a = Z.lxor c b → a = b.
Proof. rewrite !(Z.lxor_comm c). apply lxor_cancel_r. Qed.

Lemma crc_fold_u16 bs c : is_u16 c → bytes_ok bs → is_u16 (fold_left crc_byte bs c).
Proof.
  intros Hc Hb. revert c Hc. induction Hb as [|b bs Hu Hb IH]; intros c Hc; [done|]. cbn.
  by apply IH, crc_byte_u16.
Qed.

Lemma crc_fold_inj bs c d :
  is_u16 c → is_u16 d → bytes_ok bs →
  fold_left crc_byte bs c = fold_left crc_byte bs d → c = d.
Proof.
  intros Hc Hd Hb. revert c d Hc Hd. induction Hb as [|b bs Hu Hb IH]; intros c d Hc Hd H; [done|].
  cbn in H. apply IH in H; [|by apply crc_byte_u16..].
  apply crc_byte_inj in H; [|done..]. by apply lxor_cancel_r in H.
Qed.

Lemma crc16_u16 bs : bytes_ok bs → is_u16 (crc16_modbus bs).
Proof. intros Hb. apply crc_fold_u16; [unfold is_u16; lia|done]. Qed.

(** Messages that differ in exactly one byte have different checksums. *)
Lemma crc16_single_byte pre a b post :
  bytes_ok pre → is_u8 a → is_u8 b → bytes_ok post →
  crc16_modbus (pre ++ a :: post) = crc16_modbus (pre ++ b :: post) → a = b.
Proof.
  intros Hpre Ha Hb Hpost H. unfold crc16_modbus in H. rewrite !fold_left_app in H. cbn in H.
  pose proof (crc_fold_u16 pre 0xFFFF ltac:(unfold is_u16; lia) Hpre) as Hc.
  apply crc_fold_inj in H; [|by apply crc_byte_u16..|done].
  apply crc_byte_inj in H; [|done..]. by apply lxor_cancel_l in H.
Qed.

(** ** Laws *)

Section laws.
Context {w : Winnow} {ws : WinnowSpec w} {c : Crc16} {cs : Crc16Spec c}.

Lemma u16_le_roundtrip x : u16_from_le (x mod 256) (x / 256) = x.
Proof. unfold u16_from_le. pose proof (Z.div_mod x 256). lia. Qed.

Lemma u16_le_from lo hi : is_u8 lo → u16_to_le (u16_from_le lo hi) = [lo; hi].
Proof.
  intros Hlo. pose proof (u16_to_from_be hi lo Hlo) as H. unfold u16_to_be, u16_from_be in H.
  unfold u16_to_le, u16_from_le. injection H as -> ->. done.
Qed.

(** The ADU of a body whose last two bytes are given. *)
Lemma Rtu_split_body a pdu lo hi :
  1 ≤ len pdu ≤ 253 →
  Rtu_split ((a :: pdu) ++ [lo; hi]) =
  if negb (crc16 (a :: pdu) =? u16_from_le lo hi)
  then Err (Checksum (crc16 (a :: pdu)) (u16_from_le lo hi)) else Ok (mkUnitId a, pdu).
Proof.
  intros Hp. unfold Rtu_split, RTU_MAX_ADU_LEN, RTU_OVERHEAD.
  change (saturating_add 3 1) with 4.
  destruct (Z.ltb_spec 256 (len ((a :: pdu) ++ [lo; hi]))); [len_lia|].
  destruct (Z.ltb_spec (len ((a :: pdu) ++ [lo; hi])) 4); [len_lia|].
  replace (saturating_sub (len ((a :: pdu) ++ [lo; hi])) 2) with (len (a :: pdu))
    by (unfold saturating_sub; len_lia).
  by rewrite split_at_checked_app.
Qed.

Lemma Rtu_split_cases bs :
  bytes_ok bs →
  (∃ e, Rtu_split bs = Err e ∧ ¬ 4 ≤ len bs ≤ 256) ∨
  ∃ a pdu lo hi, bs = (a :: pdu) ++ [lo; hi] ∧ is_u8 a ∧ is_pdu pdu ∧ is_u8 lo ∧ is_u8 hi.
Proof.
  intros Hb. destruct (decide (4 ≤ len bs ≤ 256)) as [Hl|Hl].
  - right. destruct (split_at_checked_some (len bs - 2) bs) as (body & crc & _ & -> & Hbl); [lia|].
    apply bytes_ok_app_inv in Hb as [Hbody Hcrc]. rewrite len_app in *.
    destruct body as [|a pdu]; [exfalso; len_lia|].
    destruct crc as [|lo [|hi [|x crc]]]; try (exfalso; len_lia).
    apply bytes_ok_cons_inv in Hbody as [Ha Hpdu].
    apply bytes_ok_cons_inv in Hcrc as [Hlo Hcrc]. apply bytes_ok_cons_inv in Hcrc as [Hhi _].
    exists a, pdu, lo, hi. unfold is_pdu. split_and!; try done; len_lia.
  - left. unfold Rtu_split, RTU_MAX_ADU_LEN, RTU_OVERHEAD.
    change (saturating_add 3 1) with 4.
    destruct (Z.ltb_spec 256 (len bs)); [by eexists|].
    destruct (Z.ltb_spec (len bs) 4); [by eexists|lia].
Qed.

Lemma Rtu_split_adu h pdu : wf h → is_pdu pdu → Rtu_split (rtu_adu h pdu) = Ok (h, pdu).
Proof.
  intros Hh [Hb Hl]. unfold rtu_adu, u16_to_le. rewrite Rtu_split_body, u16_le_roundtrip by done.
  rewrite Z.eqb_refl. by destruct h.
Qed.

Lemma Rtu_split_inv bs h pdu :
  bytes_ok bs → Rtu_split bs = Ok (h, pdu) → bs = rtu_adu h pdu ∧ wf h ∧ is_pdu pdu.
Proof.
  intros Hb H. destruct (Rtu_split_cases bs Hb) as [(e & He & _)|Hs]; [congruence|].
  destruct Hs as (a & p & lo & hi & -> & Ha & Hp & Hlo & Hhi). destruct Hp as [Hpb Hpl].
  rewrite Rtu_split_body in H by done.
  destruct (Z.eqb_spec (crc16 (a :: p)) (u16_from_le lo hi)) as [He|]; [|done].
  injection H as <- <-. unfold rtu_adu. cbn [unit_id_0]. rewrite He, u16_le_from by done. done.
Qed.

Lemma Rtu_split_total bs : bytes_ok bs → Rtu_split bs ≠ Panic.
Proof.
  intros Hb. destruct (Rtu_split_cases bs Hb) as [(e & He & _)|Hs]; [congruence|].
  destruct Hs as (a & p & lo & hi & -> & _ & [_ Hpl] & _). rewrite Rtu_split_body by done.
  by case_match.
Qed.

Lemma Rtu_wrap_spec h enc r out :
  Appends enc r → r ≠ Panic → Rtu_wrap_into h enc out = appended r (rtu_adu h) out.
Proof.
  intros He Hn. unfold Rtu_wrap_into. rewrite He. unfold appended.
  destruct r as [pdu|e|]; [| |done].
  - rewrite <- app_assoc, slice_get_app. unfold rtu_adu. by rewrite <- app_assoc.
  - unfold len. by rewrite Nat2Z.id, take_app_length.
Qed.

Lemma rtu_adu_bounds h pdu :
  wf h → is_pdu pdu → bytes_ok (rtu_adu h pdu) ∧ 4 ≤ len (rtu_adu h pdu) ≤ 256.
Proof.
  intros Hh [Hb Hl]. assert (bytes_ok (unit_id_0 h :: pdu)) as Hbody by auto with bytes.
  unfold rtu_adu. split; [|unfold u16_to_le; len_lia].
  apply bytes_ok_app; [done|]. unfold crc16. rewrite checksum_modbus by done.
  pose proof (crc16_u16 _ Hbody). unfold u16_to_le. auto with bytes.
Qed.

#[export] Instance Rtu_lawful : LawfulFraming Rtu_framing.
Proof.
  refine {| frame := rtu_adu : Header Rtu_framing → _; denotes := eq |}.
  - intros h r out _ _ _. apply Rtu_wrap_spec; [apply request_appends|apply request_bytes_no_panic].
  - intros h r out _ _ _. apply Rtu_wrap_spec; [apply response_appends|apply response_bytes_no_panic].
  - apply (decode_by_frame Rtu_split rtu_adu), Rtu_split_adu.
  - apply (decode_by_frame Rtu_split rtu_adu), Rtu_split_adu.
  - apply (decode_by_denotes Rtu_split rtu_adu eq), Rtu_split_inv.
  - apply (decode_by_denotes Rtu_split rtu_adu eq), Rtu_split_inv.
  - apply (decode_by_total Rtu_split rtu_adu eq); auto using Rtu_split_inv, Rtu_split_total, RequestPdu_decode_safe.
  - apply (decode_by_total Rtu_split rtu_adu eq); auto using Rtu_split_inv, Rtu_split_total, ResponsePdu_decode_safe.
  - intros h pdu Hh Hp. destruct (rtu_adu_bounds h pdu Hh Hp) as [Hb Hl].
    split; [exact Hb|]. change (1 ≤ len (rtu_adu h pdu) ≤ 256). lia.
Defined.

(** Two codewords that agree except in one place agree there too. *)
Lemma crc_codewords_distance x y pre a b post :
  bytes_ok x → bytes_ok y → bytes_ok pre → bytes_ok post → is_u8 a → is_u8 b →
  x ++ u16_to_le (crc16_modbus x) = pre ++ a :: post →
  y ++ u16_to_le (crc16_modbus y) = pre ++ b :: post → a = b.
Proof.
  intros Hx Hy Hpre Hpost Ha Hb H1 H2. assert (len x = len y) as Hl.
  { apply (f_equal len) in H1, H2. len_lia. }
  apply app_eq_inv in H1 as [(k & -> & Hk)|(k & -> & Hk)].
  - destruct k as [|a' m].
    { rewrite app_nil_r in *. symmetry in H2. apply len_inj_app in H2 as [-> H2]; [|done].
      cbn in Hk. congruence. }
    injection Hk as <- Hk. symmetry in H2.
    apply app_eq_inv in H2 as [(j & -> & Hj)|(j & -> & Hj)].
    { exfalso. len_lia. }
    destruct j as [|b' m']; [exfalso; len_lia|]. injection Hj as <- Hj.
    rewrite Hk in Hj. apply len_inj_app in Hj as [<- Hj]; [|len_lia].
    apply (crc16_single_byte pre _ _ m); try done; [by apply bytes_ok_app_inv in Hx as
      [_ [_ ?]%bytes_ok_cons_inv]|].
    unfold u16_to_le in Hj. injection Hj as H1' H2'.
    rewrite <- (u16_le_roundtrip (crc16_modbus (pre ++ a :: m))), H1', H2'.
    apply u16_le_roundtrip.
  - rewrite <- app_assoc in H2. apply len_inj_app in H2 as [-> H2]; [|done].
    rewrite Hk in H2. apply app_inv_head in H2. congruence.
Qed.

(** An ADU altered in exactly one byte fails its checksum. *)
Lemma rtu_altered h pdu pre a b post :
  wf h → is_pdu pdu → rtu_adu h pdu = pre ++ a :: post → is_u8 b → a ≠ b →
  ∃ e f, Rtu_split (pre ++ b :: post) = Err (Checksum e f).
Proof.
  intros Hh Hp Hadu Hb Hne. destruct (rtu_adu_bounds h pdu Hh Hp) as [Hok Hlen].
  rewrite Hadu in Hok, Hlen. apply bytes_ok_app_inv in Hok as [Hpre Hok].
  apply bytes_ok_cons_inv in Hok as [Ha Hpost].
  assert (bytes_ok (pre ++ b :: post)) as Hok' by auto with bytes.
  destruct (Rtu_split_cases _ Hok') as [(e & _ & Hl)|Hs].
  { exfalso. apply Hl. len_lia. }
  destruct Hs as (a' & p' & lo & hi & Hbs & Ha' & [Hpb' Hpl'] & Hlo & Hhi).
  rewrite Hbs, Rtu_split_body by done.
  destruct (Z.eqb_spec (crc16 (a' :: p')) (u16_from_le lo hi)) as [He|]; [exfalso|by do 2 eexists].
  assert (bytes_ok (a' :: p')) as Hbody' by auto with bytes.
  destruct Hp as [Hpb Hpl]. assert (bytes_ok (unit_id_0 h :: pdu)) as Hbody by auto with bytes.
  apply Hne, (crc_codewords_distance (unit_id_0 h :: pdu) (a' :: p') pre a b post); try done.
  - unfold rtu_adu, crc16 in Hadu. by rewrite checksum_modbus in Hadu.
  - unfold crc16 in He. rewrite checksum_modbus in He by done. by rewrite Hbs, He, u16_le_from.
Qed.

(** C9. A single corrupted byte never reaches the PDU decoder: an RTU ADU in
    which exactly one byte (address, PDU or CRC) was replaced by another is
    rejected with a checksum error, in either direction (FR-R-095). *)
Theorem rtu_single_byte_corruption h pdu pre a b post :
  wf h → is_pdu pdu → rtu_adu h pdu = pre ++ a :: post → is_u8 b → a ≠ b →
  (∃ e f, Rtu_decode_request (pre ++ b :: post) = Err (Checksum e f)) ∧
  (∃ e f, Rtu_decode_response (pre ++ b :: post) = Err (Checksum e f)).
Proof.
  intros Hh Hp Hadu Hb Hne.
  destruct (rtu_altered h pdu pre a b post) as (e & f & H); [done..|].
  unfold Rtu_decode_request, Rtu_decode_response, decode_by. rewrite H.
  split; by do 2 eexists.
Qed.
End laws.

(** A Read Holding Registers request to unit 17, its address altered. *)
Lemma rtu_single_byte_corruption_witness :
  (∃ e f, Rtu_decode_request (w := winnow_model) (c := crc_model)
    ([] ++ 0x12 :: [3; 0; 107; 0; 3; 118; 135]) = Err (Checksum e f)) ∧
  (∃ e f, Rtu_decode_response (w := winnow_model) (c := crc_model)
    ([] ++ 0x12 :: [3; 0; 107; 0; 3; 118; 135]) = Err (Checksum e f)).
Proof.
  apply (@rtu_single_byte_corruption winnow_model crc_model crc_model_spec
    (mkUnitId 0x11) [3; 0; 107; 0; 3] [] 0x11).
  - vm_compute. split; intros [=].
  - split; [repeat constructor; vm_compute; intros [=]|vm_compute; split; intros [=]].
  - vm_compute. reflexivity.
  - vm_compute. split; intros [=].
  - intros [=].
Defined.
