(* ===== verification/RtuStream.v ===== *)
(** * RTU over a byte stream ([RtuOverTcp] of [src/frame/rtu.rs])

    The same ADU as RTU, whose end is derived from its own content. *)

From S2P Require Import Prelude.
From S2P Require Import Errors.
From S2P Require Import Parse.
From S2P Require Import Value.
From S2P Require Import Function.
From S2P Require Import Exception.
From S2P Require Import Diagnostics.
From S2P Require Import Wire.
From S2P Require Import Mei.
From S2P Require Import FileRecord.
From S2P Require Import Pdu.
From S2P Require Import PduSpec.
From S2P Require Import PduRoundtrip.
From S2P Require Import PduSafety.
From S2P Require Import Framing.
From S2P Require Import Rtu.

Definition ADDRESS_LEN : Z := 1.
Definition CRC_LEN : Z := 2.
Definition HEADER_PDU_BYTES : Z := 7.

Definition one_of (fc : Z) (codes : list Z) : bool := existsb (Z.eqb fc) codes.

(** The closing checks of [derive_extent] and of its helper. *)
Definition extent_of_total (bytes : list Z) (total_len : Z) : Result Extent :=
  if RTU_MAX_ADU_LEN <? total_len then Err (AduTooLarge total_len RTU_MAX_ADU_LEN)
  else if len bytes <? total_len then Ok NeedMore
  else Ok (Complete total_len).

(** The loop of [derive_fc43_mei14_response_length]: the offset after the
    objects, or [None] where it returns [NeedMore]. *)
Fixpoint walk_objects (obj_count : nat) (bytes : list Z) (pdu_offset : Z) : Result (option Z) :=
  match obj_count with
  | O => Ok (Some pdu_offset)
  | S n =>
      if len bytes <? ADDRESS_LEN + pdu_offset + 2 then Ok None else
      obj_length ← expect (byte_get bytes (ADDRESS_LEN + pdu_offset + 1));
      walk_objects n bytes (pdu_offset + (2 + obj_length))
  end.

(** [derive_fc43_mei14_response_length]. *)
Definition derive_fc43_mei14_response_length (bytes : list Z) : Result Extent :=
  if len bytes <? ADDRESS_LEN + HEADER_PDU_BYTES + CRC_LEN then Ok NeedMore else
  obj_count ← expect (byte_get bytes (ADDRESS_LEN + 6));
  offset ← walk_objects (Z.to_nat obj_count) bytes HEADER_PDU_BYTES;
  match offset with
  | None => Ok NeedMore
  | Some pdu_offset => extent_of_total bytes (ADDRESS_LEN + pdu_offset + CRC_LEN)
  end.

(** The [Direction::Request] arm: [finish] is the code after the match. *)
Definition derive_request (fc : Z) (bytes : list Z) (finish : Z → Result Extent)
    : Result Extent :=
  if (0x01 <=? fc) && (fc <=? 0x06) then finish 5
  else if one_of fc [0x07; 0x0B; 0x0C; 0x11] then finish 1
  else if fc =? 0x16 then finish 7
  else if fc =? 0x18 then finish 3
  else if one_of fc [0x0F; 0x10] then
    if len bytes <? 8 then Ok NeedMore else
    bytecount ← expect (byte_get bytes 6);
    finish (6 + bytecount)
  else if one_of fc [0x14; 0x15] then
    if len bytes <? 4 then Ok NeedMore else
    byte_count ← expect (byte_get bytes 2);
    finish (2 + byte_count)
  else if fc =? 0x17 then
    if len bytes <? 11 then Ok NeedMore else
    write_bytecount ← expect (byte_get bytes 10);
    finish (10 + write_bytecount)
  else if fc =? 0x2B then
    if len bytes <? 3 then Ok NeedMore else
    mei_type ← expect (byte_get bytes 2);
    if mei_type =? 0x0E then finish 4 else Err (IndeterminateLength fc)
  else Err (IndeterminateLength fc).

(** The [Direction::Response] arm. *)
Definition derive_response (fc : Z) (bytes : list Z) (finish : Z → Result Extent)
    : Result Extent :=
  if one_of fc [0x05; 0x06; 0x0F; 0x10; 0x0B] then finish 5
  else if fc =? 0x07 then finish 2
  else if fc =? 0x16 then finish 7
  else if one_of fc [0x01; 0x02; 0x03; 0x04; 0x0C; 0x11; 0x14; 0x15; 0x17] then
    if len bytes <? 4 then Ok NeedMore else
    bytecount ← expect (byte_get bytes 2);
    finish (2 + bytecount)
  else if fc =? 0x18 then
    if len bytes <? 5 then Ok NeedMore else
    hi ← expect (byte_get bytes 2);
    lo ← expect (byte_get bytes 3);
    finish (3 + u16_from_be hi lo)
  else if fc =? 0x2B then
    if len bytes <? 3 then Ok NeedMore else
    mei_type ← expect (byte_get bytes 2);
    if mei_type =? 0x0E then derive_fc43_mei14_response_length bytes
    else Err (IndeterminateLength fc)
  else Err (IndeterminateLength fc).

(** [derive_extent]. *)
Definition derive_extent (direction : Direction) (bytes : list Z) : Result Extent :=
  if len bytes <? 4 then Ok NeedMore else
  fc ← expect (byte_get bytes 1);
  let finish pdu_len := extent_of_total bytes (ADDRESS_LEN + pdu_len + CRC_LEN) in
  if negb (Z.land fc 0x80 =? 0) then finish 2 else
  match direction with
  | DirRequest => derive_request fc bytes finish
  | DirResponse => derive_response fc bytes finish
  end.

(** [impl Framing for RtuOverTcp]: the methods of [Rtu], another boundary. *)
Definition RtuOverTcp_framing {w : Winnow} {c : Crc16} : Framing := {|
  Header := UnitId;
  Header_eq := _;
  Header_wf := _;
  MAX_ADU_LEN := RTU_MAX_ADU_LEN;
  decode_request := Rtu_decode_request;
  encode_request_into := Rtu_encode_request_into;
  decode_response := Rtu_decode_response;
  encode_response_into := Rtu_encode_response_into;
  boundary := ContentLength 4 derive_extent;
|}.

#[export] Instance RtuOverTcp_lawful {w : Winnow} {ws : WinnowSpec w} {c : Crc16}
  {cs : Crc16Spec c} : LawfulFraming RtuOverTcp_framing.
Proof.
  destruct Rtu_lawful as [fr den H1 H2 H3 H4 H5 H6 H7 H8 H9].
  exact {| frame := fr : Header RtuOverTcp_framing → _; denotes := den;
    encode_request_into_frame := H1; encode_response_into_frame := H2;
    decode_request_frame := H3; decode_response_frame := H4;
    decode_request_denotes := H5; decode_response_denotes := H6;
    decode_request_total := H7; decode_response_total := H8; frame_bounds := H9 |}.
Defined.

(** The PDUs whose length their own content gives. *)
Definition determinate_request (r : RequestPdu) : bool :=
  match r with
  | Req_Diagnostics _ _ | Req_Custom _ _ => false
  | Req_EncapsulatedInterfaceTransport (MeiReq_ReadDeviceIdentification _ _) => true
  | Req_EncapsulatedInterfaceTransport _ => false
  | _ => true
  end.

Definition determinate_response (r : ResponsePdu) : bool :=
  match r with
  | Resp_Diagnostics _ _ | Resp_Custom _ _ => false
  | Resp_EncapsulatedInterfaceTransport (MeiResp_ReadDeviceIdentification _ _ _ _ _) => true
  | Resp_EncapsulatedInterfaceTransport _ => false
  | _ => true
  end.

(** ** What a derivation sees

    The bytes in hand are an address, then a part of the PDU or all of it and
    what follows. *)
Definition Sees (bs pdu : list Z) : Prop :=
  ∀ i b, pdu !! i = Some b → Z.of_nat i + 1 < len bs → byte_get bs (Z.of_nat i + 1) = Some b.

Definition extent_at (bs : list Z) (total : Z) : Extent :=
  if len bs <? total then NeedMore else Complete total.

Lemma Sees_prefix a pdu tl bs : bs `prefix_of` (a :: pdu) ++ tl → Sees bs pdu.
Proof.
  intros [k Hk] i b Hi Hl. rewrite byte_get_lookup by lia.
  replace (Z.to_nat (Z.of_nat i + 1)) with (S i) by lia.
  assert (((a :: pdu) ++ tl) !! S i = Some b) as Hb.
  { cbn. apply lookup_app_l_Some. done. }
  rewrite Hk, lookup_app_l in Hb; [done|]. unfold len in Hl. lia.
Qed.

Lemma Sees_extend a pdu tl : Sees ((a :: pdu) ++ tl) pdu.
Proof. by apply (Sees_prefix a _ tl). Qed.

Lemma Sees_at bs pdu n z b :
  Sees bs pdu → pdu !! n = Some b → z = Z.of_nat n + 1 → z < len bs → byte_get bs z = Some b.
Proof. intros Hs Hn -> Hl. by apply Hs. Qed.

Lemma extent_of_total_ok bs total :
  total ≤ 256 → extent_of_total bs total = Ok (extent_at bs total).
Proof.
  intros H. unfold extent_of_total, extent_at, RTU_MAX_ADU_LEN.
  destruct (Z.ltb_spec 256 total); [lia|]. by case_match.
Qed.

(** The first byte decides the arm. *)
Lemma derive_extent_sees dir bs pdu fc :
  Sees bs pdu → pdu !! 0%nat = Some fc → 1 ≤ fc ≤ 127 → len pdu ≤ 253 →
  (4 ≤ len bs →
   match dir with
   | DirRequest => derive_request fc bs
   | DirResponse => derive_response fc bs
   end (λ n, extent_of_total bs (ADDRESS_LEN + n + CRC_LEN)) = Ok (extent_at bs (len pdu + 3))) →
  derive_extent dir bs = Ok (extent_at bs (len pdu + 3)).
Proof.
  intros Hs H0 Hfc Hl Harm. unfold derive_extent.
  destruct (Z.ltb_spec (len bs) 4) as [Hshort|Hlong].
  - unfold extent_at. assert (0 < len pdu) by (destruct pdu; [done|len_lia]).
    destruct (Z.ltb_spec (len bs) (len pdu + 3)); [done|lia].
  - rewrite (Sees_at bs pdu 0 1 fc) by (done || lia). cbn [expect mbind Result_bind].
    rewrite low_byte by done. cbn [Z.eqb negb]. by destruct dir; apply Harm.
Qed.

(** An arm whose PDU length is fixed, or read from the PDU. *)
Lemma finish_at bs (pdu : list Z) n :
  len pdu ≤ 253 → len pdu = n →
  extent_of_total bs (ADDRESS_LEN + n + CRC_LEN) = Ok (extent_at bs (len pdu + 3)).
Proof.
  intros Hl <-. unfold ADDRESS_LEN, CRC_LEN. rewrite extent_of_total_ok by lia.
  do 2 f_equal. lia.
Qed.

Lemma extent_short bs total : len bs < total → Ok NeedMore = Ok (extent_at bs total).
Proof. intros H. unfold extent_at. by destruct (Z.ltb_spec (len bs) total); [|lia]. Qed.

(** [see k b]: the guard of the code proves byte [k] is in hand; it is [b]. *)
Ltac see Hs n z b :=
  match goal with
  | |- context [len ?bs <? ?m] =>
      let H := fresh "Hlen" in
      destruct (Z.ltb_spec (len bs) m) as [H|H];
        [apply extent_short; len_lia|rewrite (Sees_at bs _ n z b Hs) by (done || lia)]
  end; cbn [expect mbind Result_bind].

Section determinate.

Lemma derive_request_extent r pdu bs :
  wf r → request_bytes r = Ok pdu → determinate_request r = true → Sees bs pdu →
  derive_extent DirRequest bs = Ok (extent_at bs (len pdu + 3)).
Proof.
  intros Hw H Hd Hs. pose proof (request_bytes_size r pdu H) as Hsz. unfold MAX_PDU_LEN in Hsz.
  destruct r as [| | | | | | | | | | | | | | | | | |m|]; try discriminate Hd;
    cbn [request_bytes] in H; try (unfold read_layout in H);
    try (destruct m; try discriminate Hd); res_inv;
    repeat match goal with
    | H : sized _ = Ok _ |- _ => apply sized_inv in H as [-> _]
    | H : quantity_of _ _ _ _ = Ok _ |- _ => apply quantity_of_inv in H as [-> ?]; [|done]
    end.
  all: eapply derive_extent_sees; [exact Hs|reflexivity|lia|done|intros H4];
    unfold derive_request; cbn [one_of existsb Z.eqb Z.leb Z.compare Pos.compare Pos.compare_cont
      Pos.eqb orb andb].
  all: try (apply finish_at; [done|len_lia]).
  - pose proof (packed_len_bounds (len coils) (len_nonneg coils)).
    see Hs 5%nat 6 (packed_len (len coils)). apply finish_at; [done|len_lia].
  - see Hs 5%nat 6 (2 * len registers). apply finish_at; [done|len_lia].
  - see Hs 9%nat 10 (2 * len registers). apply finish_at; [done|len_lia].
  - match goal with H : read_requests_bytes _ = _ |- _ =>
      apply body_bytes_inv in H as (bd & _ & -> & _); [|done] end.
    see Hs 1%nat 2 (len bd). apply finish_at; [done|len_lia].
  - match goal with H : write_records_bytes _ = _ |- _ =>
      apply body_bytes_inv in H as (bd & _ & -> & _); [|done] end.
    see Hs 1%nat 2 (len bd). apply finish_at; [done|len_lia].
  - cbn [mei_request_bytes] in *. see Hs 1%nat 2 14. apply finish_at; [done|len_lia].
Qed.

(** The walk over the objects of a device identification response. *)
Lemma walk_objects_sees bs pre os :
  Sees bs (pre ++ mjoin (object_layout <$> os)) →
  walk_objects (length os) bs (len pre) =
    Ok (Some (len (pre ++ mjoin (object_layout <$> os)))) ∨
  (walk_objects (length os) bs (len pre) = Ok None ∧
   len bs < len (pre ++ mjoin (object_layout <$> os)) + 3).
Proof.
  revert pre. induction os as [|o os IH]; intros pre Hs.
  - left. cbn [length walk_objects]. do 2 f_equal. cbn. len_lia.
  - cbn [length walk_objects]. unfold ADDRESS_LEN.
    change (mjoin (object_layout <$> o :: os))
      with (object_layout o ++ mjoin (object_layout <$> os)) in *.
    destruct (Z.ltb_spec (len bs) (1 + len pre + 2)).
    + right. split; [done|]. unfold object_layout at 1. len_lia.
    + rewrite (Sees_at bs _ (length pre + 1) (1 + len pre + 1) (len (object_value o)) Hs);
        [|rewrite lookup_app_r by lia;
          by replace (length pre + 1 - length pre)%nat with 1%nat by lia
         |unfold len; lia|lia].
      cbn [expect mbind Result_bind].
      replace (len pre + (2 + len (object_value o))) with (len (pre ++ object_layout o))
        by (unfold object_layout; len_lia).
      rewrite app_assoc in *. by apply IH.
Qed.

Lemma derive_mei14_extent c l m n os pdu bs :
  mei_response_bytes (MeiResp_ReadDeviceIdentification c l m n os) = Ok pdu →
  len (43 :: pdu) ≤ 253 → Sees bs (43 :: pdu) →
  derive_fc43_mei14_response_length bs = Ok (extent_at bs (len (43 :: pdu) + 3)).
Proof.
  intros H Hl Hs. cbn [mei_response_bytes] in H.
  apply Result_bind_inv in H as (k & [-> Hk]%length_byte_inv & H).
  apply Result_bind_inv in H as (bss & [-> Hos]%mapM_objects_inv & [= <-]).
  unfold derive_fc43_mei14_response_length, ADDRESS_LEN, HEADER_PDU_BYTES, CRC_LEN.
  set (hdr := [43; MEI_READ_DEVICE_ID; ReadDeviceIdCode_encode c; l;
    if m then MORE_FOLLOWS_YES else MORE_FOLLOWS_NO; n; len os]).
  match goal with |- context [43 :: ?p] =>
    change (43 :: p) with (hdr ++ mjoin (object_layout <$> os)) in * end.
  destruct (Z.ltb_spec (len bs) (1 + 7 + 2)).
  { apply extent_short. rewrite len_app. change (len hdr) with 7. len_lia. }
  rewrite (Sees_at bs _ 6 (1 + 6) (len os) Hs) by (done || lia).
  cbn [expect mbind Result_bind]. replace (Z.to_nat (len os)) with (length os) by (unfold len; lia).
  change 7 with (len hdr) at 1.
  destruct (walk_objects_sees bs hdr os Hs) as [->|[-> Hsh]]; cbn [mbind Result_bind].
  - by apply finish_at.
  - by apply extent_short.
Qed.

(** A body preceded by its one-byte count. *)
Lemma counted_extent bs c n data :
  Sees bs (c :: n :: data) → len data = n → len (c :: n :: data) ≤ 253 →
  (if len bs <? 4 then Ok NeedMore else
   bytecount ← expect (byte_get bs 2);
   extent_of_total bs (ADDRESS_LEN + (2 + bytecount) + CRC_LEN)) =
  Ok (extent_at bs (len (c :: n :: data) + 3)).
Proof. intros Hs Hn Hl. see Hs 1%nat 2 n. apply finish_at; [done|len_lia]. Qed.

Lemma derive_response_extent r pdu bs :
  wf r → response_bytes r = Ok pdu → determinate_response r = true → Sees bs pdu →
  derive_extent DirResponse bs = Ok (extent_at bs (len pdu + 3)).
Proof.
  intros Hw H Hd Hs. pose proof (response_bytes_size r pdu H) as Hsz. unfold MAX_PDU_LEN in Hsz.
  destruct r as [| | | | | | | | | | | | | | | | | |m| |]; try discriminate Hd;
    cbn [response_bytes] in H;
    try (destruct m as [|c l m n os|]; try discriminate Hd); unfold exception_bytes in *; res_inv;
    repeat match goal with
    | H : sized _ = Ok _ |- _ => apply sized_inv in H as [-> _]
    | H : quantity_of _ _ _ _ = Ok _ |- _ => apply quantity_of_inv in H as [-> ?]; [|done]
    | H : counted_layout _ _ _ = Ok _ |- _ => apply counted_layout_inv in H as (-> & ? & _)
    end.
  all: try (eapply derive_extent_sees; [exact Hs|reflexivity|lia|done|intros H4];
    unfold derive_response; cbn [one_of existsb Z.eqb Z.leb Z.compare Pos.compare
      Pos.compare_cont Pos.eqb orb andb]).
  all: try (apply finish_at; [done|len_lia]).
  1-2: apply counted_extent; [done|by rewrite len_bits_bytes|done].
  1-3: apply counted_extent; [done|rewrite register_count_inv by done; len_lia|done].
  - apply (counted_extent bs 12 (6 + len events)); [done|len_lia|done].
  - by apply counted_extent.
  - match goal with H : read_responses_bytes _ = _ |- _ =>
      apply body_bytes_inv in H as (bd & _ & -> & _); [|done] end. by apply counted_extent.
  - match goal with H : write_records_bytes _ = _ |- _ =>
      apply body_bytes_inv in H as (bd & _ & -> & _); [|done] end. by apply counted_extent.
  - see Hs 1%nat 2 ((2 * len values + 2) / 256).
    rewrite (Sees_at bs _ 2 3 ((2 * len values + 2) mod 256) Hs) by (done || lia).
    cbn [expect mbind Result_bind]. rewrite u16_from_to_be. apply finish_at; [done|len_lia].
  - assert (∃ y, x = 14 :: y) as [y Hy].
    { match goal with H : mei_response_bytes _ = Ok _ |- _ =>
        clear -H; cbn [mei_response_bytes] in H end.
      by res_inv; eexists. }
    subst x. see Hs 1%nat 2 14. by eapply derive_mei14_extent.
  - unfold derive_extent. destruct (Z.ltb_spec (len bs) 4).
    + apply extent_short. len_lia.
    + rewrite (Sees_at bs _ 0 1 (Z.lor x EXCEPTION_FLAG) Hs) by (done || lia).
      cbn [expect mbind Result_bind]. destruct Hw as [Hf _].
      match goal with H : FunctionCode_encode _ = Ok _ |- _ =>
        pose proof (FunctionCode_encode_range _ _ Hf H) end.
      destruct (exception_flag_join x) as [Hx _]; [done|].
      unfold EXCEPTION_FLAG in *. rewrite (proj2 (Z.eqb_neq _ _) Hx). cbn [negb].
      by apply finish_at.
Qed.
End determinate.

(** ** Arbitrary bytes *)

Lemma expect_byte bs i : 0 ≤ i < len bs → ∃ b, byte_get bs i = Some b.
Proof. intros H. by destruct (byte_get_some bs i H) as [b ?]; exists b. Qed.

Definition extent_sound (bs : list Z) (r : Result Extent) : Prop :=
  match r with
  | Ok NeedMore => True
  | Ok (Complete n) => 0 < n ≤ len bs ∧ n ≤ 256
  | Err _ => True
  | Panic => False
  end.

Lemma extent_of_total_sound bs n : 0 < n → extent_sound bs (extent_of_total bs n).
Proof.
  intros Hn. unfold extent_of_total, extent_sound, RTU_MAX_ADU_LEN. repeat case_match; try done;
    simplify_eq; split_guards; lia.
Qed.

Lemma walk_objects_total n bs off :
  bytes_ok bs → 0 ≤ off →
  walk_objects n bs off = Ok None ∨ ∃ o, walk_objects n bs off = Ok (Some o) ∧ off ≤ o.
Proof.
  intros Hb. revert off. induction n as [|n IH]; intros off Ho; cbn [walk_objects]; [eauto with lia|].
  unfold ADDRESS_LEN. destruct (Z.ltb_spec (len bs) (1 + off + 2)); [by left|].
  destruct (expect_byte bs (1 + off + 1)) as [b Hg]; [lia|]. rewrite Hg. cbn.
  apply byte_get_range in Hg as Hu; [|done]. unfold is_u8 in Hu.
  destruct (IH (off + (2 + b))) as [->|(o & -> & ?)]; [lia|by left|]. right. eauto with lia.
Qed.

Lemma derive_mei14_sound bs : bytes_ok bs → extent_sound bs (derive_fc43_mei14_response_length bs).
Proof.
  intros Hb. unfold derive_fc43_mei14_response_length, ADDRESS_LEN, HEADER_PDU_BYTES, CRC_LEN.
  destruct (Z.ltb_spec (len bs) (1 + 7 + 2)); [done|].
  destruct (expect_byte bs (1 + 6)) as [b ->]; [lia|]. cbn [expect mbind Result_bind].
  destruct (walk_objects_total (Z.to_nat b) bs 7) as [->|(o & -> & ?)]; [done|lia|done|].
  cbn [mbind Result_bind]. apply extent_of_total_sound. lia.
Qed.

(** [sound_arm]: one guarded read of an arm. *)
Ltac sound_arm Hb :=
  match goal with
  | |- extent_sound _ (extent_of_total _ _) => apply extent_of_total_sound; unfold is_u8 in *; lia
  | |- context [if len ?bs <? ?m then _ else _] => destruct (Z.ltb_spec (len bs) m); [done|]
  | |- context [expect (byte_get ?bs ?i)] =>
      let b := fresh "b" in let Hg := fresh "Hg" in
      destruct (expect_byte bs i) as [b Hg]; [lia|]; rewrite Hg;
      pose proof (byte_get_range _ _ _ Hb Hg); cbn [expect mbind Result_bind]
  | |- context [if ?c then _ else _] => destruct c
  | |- extent_sound _ (Err _) => done
  end.

Lemma derive_extent_sound dir bs : bytes_ok bs → extent_sound bs (derive_extent dir bs).
Proof.
  intros Hb. unfold derive_extent, ADDRESS_LEN, CRC_LEN.
  sound_arm Hb. sound_arm Hb. sound_arm Hb; [repeat sound_arm Hb|].
  destruct dir; unfold derive_request, derive_response; repeat sound_arm Hb;
    try by apply derive_mei14_sound.
  all: apply extent_of_total_sound; unfold u16_from_be, is_u8 in *; lia.
Qed.

Section claims.
Context {w : Winnow} {ws : WinnowSpec w} {c : Crc16} {cs : Crc16Spec c}.

Lemma extent_at_prefix adu p :
  p `prefix_of` adu → p ≠ adu → extent_at p (len adu) = NeedMore.
Proof.
  intros [k ->] Hne. unfold extent_at.
  destruct (Z.ltb_spec (len p) (len (p ++ k))); [done|]. exfalso. apply Hne.
  assert (k = []) as -> by (apply len_0_nil; len_lia). by rewrite app_nil_r.
Qed.

Lemma extent_at_extend adu tl : extent_at (adu ++ tl) (len adu) = Complete (len adu).
Proof. unfold extent_at. by destruct (Z.ltb_spec (len (adu ++ tl)) (len adu)); [len_lia|]. Qed.

Lemma len_rtu_adu h pdu : len (rtu_adu h pdu) = len pdu + 3.
Proof. unfold rtu_adu, u16_to_le. len_lia. Qed.

Lemma rtu_adu_sees h pdu tl bs : bs `prefix_of` rtu_adu h pdu ++ tl → Sees bs pdu.
Proof. unfold rtu_adu. rewrite <- app_assoc. apply Sees_prefix. Qed.

(** C11. Content-length framing delimits requests exactly: for every encodable
    request whose function code fixes its length, the derivation asks for more
    bytes on every strict prefix of the ADU and reports exactly the ADU's
    length once it is in hand, whatever follows it on the stream (FR-R-146). *)
Theorem derive_extent_request_exact h r pdu :
  wf r → determinate_request r = true → request_bytes r = Ok pdu →
  (∀ p, p `prefix_of` rtu_adu h pdu → p ≠ rtu_adu h pdu →
     derive_extent DirRequest p = Ok NeedMore) ∧
  (∀ tl, derive_extent DirRequest (rtu_adu h pdu ++ tl) = Ok (Complete (len (rtu_adu h pdu)))).
Proof.
  intros Hw Hd Hr. split.
  - intros p Hp Hne. rewrite (derive_request_extent r pdu p), <- (len_rtu_adu h); try done.
    + by rewrite extent_at_prefix.
    + apply (rtu_adu_sees h pdu []). by rewrite app_nil_r.
  - intros tl. rewrite (derive_request_extent r pdu), <- (len_rtu_adu h); try done.
    + by rewrite extent_at_extend.
    + by apply (rtu_adu_sees h pdu tl).
Qed.

(** C12. Content-length framing delimits responses exactly, exception responses
    and the object list of a device identification response included: for every
    encodable response whose function code (and, for the encapsulated interface,
    type) fixes its length, which excludes diagnostics, custom codes and other
    interface types, the derivation asks for more bytes on every strict prefix of
    the ADU and reports exactly the ADU's length once it is in hand, whatever
    follows it on the stream (FR-R-146). *)
Theorem derive_extent_response_exact h r pdu :
  wf r → determinate_response r = true → response_bytes r = Ok pdu →
  (∀ p, p `prefix_of` rtu_adu h pdu → p ≠ rtu_adu h pdu →
     derive_extent DirResponse p = Ok NeedMore) ∧
  (∀ tl, derive_extent DirResponse (rtu_adu h pdu ++ tl) = Ok (Complete (len (rtu_adu h pdu)))).
Proof.
  intros Hw Hd Hr. split.
  - intros p Hp Hne. rewrite (derive_response_extent r pdu p), <- (len_rtu_adu h); try done.
    + by rewrite extent_at_prefix.
    + apply (rtu_adu_sees h pdu []). by rewrite app_nil_r.
  - intros tl. rewrite (derive_response_extent r pdu), <- (len_rtu_adu h); try done.
    + by rewrite extent_at_extend.
    + by apply (rtu_adu_sees h pdu tl).
Qed.
End claims.

(** On arbitrary bytes the derivation never panics, and what it reports as
    complete lies within the bytes in hand and within the largest RTU ADU
    (FR-R-149), so a reader that trusts it never reads past its buffer. *)
Theorem derive_extent_bounded dir bs :
  bytes_ok bs →
  derive_extent dir bs ≠ Panic ∧
  ∀ n, derive_extent dir bs = Ok (Complete n) → 0 < n ≤ len bs ∧ n ≤ 256.
Proof.
  intros Hb. pose proof (derive_extent_sound dir bs Hb) as Hs.
  destruct (derive_extent dir bs) as [[|n]|e|]; [done| |done|done].
  split; [done|]. by intros m [= <-].
Qed.

(** Witnesses: a Write Multiple Registers request and a device identification
    response with two objects. *)
Lemma derive_extent_request_exact_witness :
  (∀ p, p `prefix_of` rtu_adu (c := crc_model) (mkUnitId 17) [16; 0; 1; 0; 1; 2; 0; 10] →
     p ≠ rtu_adu (c := crc_model) (mkUnitId 17) [16; 0; 1; 0; 1; 2; 0; 10] →
     derive_extent DirRequest p = Ok NeedMore) ∧
  (∀ tl, derive_extent DirRequest
     (rtu_adu (c := crc_model) (mkUnitId 17) [16; 0; 1; 0; 1; 2; 0; 10] ++ tl) =
     Ok (Complete (len (rtu_adu (c := crc_model) (mkUnitId 17) [16; 0; 1; 0; 1; 2; 0; 10])))).
Proof.
  apply (@derive_extent_request_exact crc_model (mkUnitId 17)
    (Req_WriteMultipleRegisters (mkAddress 1) [mkRegisterValue 10])).
  - split; [vm_compute; split; intros [=]|].
    repeat constructor; vm_compute; intros [=].
  - reflexivity.
  - vm_compute. reflexivity.
Defined.

Lemma derive_extent_response_exact_witness :
  (∀ p, p `prefix_of` rtu_adu (c := crc_model) (mkUnitId 1)
       [43; 14; 1; 1; 0; 0; 2; 0; 1; 65; 1; 0] →
     p ≠ rtu_adu (c := crc_model) (mkUnitId 1) [43; 14; 1; 1; 0; 0; 2; 0; 1; 65; 1; 0] →
     derive_extent DirResponse p = Ok NeedMore) ∧
  (∀ tl, derive_extent DirResponse
     (rtu_adu (c := crc_model) (mkUnitId 1) [43; 14; 1; 1; 0; 0; 2; 0; 1; 65; 1; 0] ++ tl) =
     Ok (Complete (len (rtu_adu (c := crc_model) (mkUnitId 1)
       [43; 14; 1; 1; 0; 0; 2; 0; 1; 65; 1; 0])))).
Proof.
  apply (@derive_extent_response_exact crc_model (mkUnitId 1)
    (Resp_EncapsulatedInterfaceTransport (MeiResp_ReadDeviceIdentification RDI_Basic 1 false 0
      [mkDeviceIdObject 0 [65]; mkDeviceIdObject 1 []]))).
  - repeat constructor; vm_compute; intros [=].
  - reflexivity.
  - vm_compute. reflexivity.
Defined.

Lemma derive_extent_bounded_witness :
  derive_extent DirResponse [1; 3; 2; 0; 10; 56; 67; 9] ≠ Panic ∧
  ∀ n, derive_extent DirResponse [1; 3; 2; 0; 10; 56; 67; 9] = Ok (Complete n) →
    0 < n ≤ len [1; 3; 2; 0; 10; 56; 67; 9] ∧ n ≤ 256.
Proof.
  apply (derive_extent_bounded DirResponse).
  repeat constructor; vm_compute; intros [=].
Defined.
