(* ===== verification/Tcp.v ===== *)
(** * TCP framing ([src/frame/tcp.rs]): the MBAP header *)

From S2P Require Import Prelude.
From S2P Require Import Errors.
From S2P Require Import Parse.
From S2P Require Import Value.
From S2P Require Import FileRecord.
From S2P Require Import Pdu.
From S2P Require Import PduSpec.
From S2P Require Import PduRoundtrip.
From S2P Require Import PduSafety.
From S2P Require Import Framing.

Record MbapHeader := mkMbapHeader {
  transaction_id : TransactionId;
  unit_id : UnitId;
}.

#[export] Instance MbapHeader_eq_dec : EqDecision MbapHeader.
Proof. solve_decision. Defined.
#[export] Instance Wf_MbapHeader : Wf MbapHeader := λ h, wf (transaction_id h) ∧ wf (unit_id h).

Definition HEADER_LEN : Z := 7.
Definition LENGTH_OVERHEAD : Z := 1.
Definition PROTOCOL_MODBUS : Z := 0.
Definition MIN_LENGTH : Z := 1.
Definition MAX_LENGTH : Z := 254.
Definition LENGTH_PREFIX_LEN : Z := 6.
Definition LENGTH_FIELD_OFFSET : Z := 4.
Definition TCP_MAX_ADU_LEN : Z := 260.

(** [check_length]. *)
Definition check_length (length : Z) : Result unit :=
  if negb ((MIN_LENGTH <=? length) && (length <=? MAX_LENGTH))
  then Err (OutOfRange "MBAP length" length MIN_LENGTH MAX_LENGTH) else Ok tt.

(** [adu_len]. *)
Definition adu_len (prefix : list Z) : Result Z :=
  raw ← ok_or (Truncated LENGTH_PREFIX_LEN (len prefix))
          (bytes ← slice_get 4 LENGTH_PREFIX_LEN prefix;
           match bytes with [hi; lo] => Some (hi, lo) | _ => None end);
  let length := u16_from_be (fst raw) (snd raw) in
  _ ← check_length length;
  Ok (saturating_add LENGTH_PREFIX_LEN length).

(** [split]. *)
Definition Tcp_split (bytes : list Z) : Result (MbapHeader * list Z) :=
  if TCP_MAX_ADU_LEN <? len bytes then Err (AduTooLarge (len bytes) TCP_MAX_ADU_LEN) else
  let minimum := saturating_add HEADER_LEN 1 in
  if len bytes <? minimum then Err (Truncated minimum (len bytes)) else
  '(head, pdu) ← expect (split_at_checked HEADER_LEN bytes);
  match head with
  | [h0; h1; h2; h3; h4; h5; h6] =>
      let protocol := u16_from_be h2 h3 in
      if negb (protocol =? PROTOCOL_MODBUS) then Err (ProtocolIdentifier protocol) else
      let length := u16_from_be h4 h5 in
      _ ← check_length length;
      let supplied := saturating_add (len pdu) LENGTH_OVERHEAD in
      let expected := length in
      if negb (expected =? supplied) then Err (InvalidLength expected supplied) else
      Ok (mkMbapHeader (mkTransactionId (u16_from_be h0 h1)) (mkUnitId h6), pdu)
  | _ => Panic
  end.

(** [wrap_into]: a placeholder length, patched once the PDU is written. *)
Definition Tcp_wrap_into (header : MbapHeader) (encode_pdu : W unit) : W unit := λ out,
  let at_ := len out in
  let out1 := out ++ u16_to_be (transaction_id_0 (transaction_id header))
                  ++ u16_to_be PROTOCOL_MODBUS ++ u16_to_be 0
                  ++ [unit_id_0 (unit_id header)] in
  let pdu_at := len out1 in
  match encode_pdu out1 with
  | (Err error, out') => (Err error, take (Z.to_nat at_) out')
  | (Panic, out') => (Panic, out')
  | (Ok _, out') =>
      let pdu_len := saturating_sub (len out') pdu_at in
      let length := unwrap_or U16_MAX (u16_try_from (saturating_add pdu_len LENGTH_OVERHEAD)) in
      if negb ((MIN_LENGTH <=? length) && (length <=? MAX_LENGTH))
      then (Err (OutOfRange "MBAP length" length MIN_LENGTH MAX_LENGTH),
            take (Z.to_nat at_) out')
      else patch (saturating_add at_ LENGTH_FIELD_OFFSET) (u16_to_be length) out'
  end.

Section tcp.
Context {w : Winnow}.

Definition Tcp_decode_request (bytes : list Z) : Result (MbapHeader * RequestPdu) :=
  decode_by Tcp_split RequestPdu_decode bytes.
Definition Tcp_encode_request_into (header : MbapHeader) (pdu : RequestPdu) : W unit :=
  Tcp_wrap_into header (RequestPdu_encode_into pdu).
Definition Tcp_decode_response (bytes : list Z) : Result (MbapHeader * ResponsePdu) :=
  decode_by Tcp_split ResponsePdu_decode bytes.
Definition Tcp_encode_response_into (header : MbapHeader) (pdu : ResponsePdu) : W unit :=
  Tcp_wrap_into header (ResponsePdu_encode_into pdu).

(** [impl Framing for Tcp]. *)
Definition Tcp_framing : Framing := {|
  Header := MbapHeader;
  Header_eq := _;
  Header_wf := _;
  MAX_ADU_LEN := TCP_MAX_ADU_LEN;
  decode_request := Tcp_decode_request;
  encode_request_into := Tcp_encode_request_into;
  decode_response := Tcp_decode_response;
  encode_response_into := Tcp_encode_response_into;
  boundary := Prefixed LENGTH_PREFIX_LEN adu_len;
|}.
End tcp.

(** The ADU around a PDU: the length counts the unit identifier and the PDU. *)
Definition mbap (h : MbapHeader) (pdu : list Z) : list Z :=
  (u16_to_be (transaction_id_0 (transaction_id h)) ++ u16_to_be 0 ++ u16_to_be (len pdu + 1) ++
   [unit_id_0 (unit_id h)]) ++ pdu.

(** ** Laws *)

Lemma check_length_ok n : 1 ≤ n ≤ 254 → check_length n = Ok tt.
Proof.
  intros Hn. unfold check_length, MIN_LENGTH, MAX_LENGTH.
  destruct (Z.leb_spec 1 n); [|lia]. destruct (Z.leb_spec n 254); [done|lia].
Qed.

Lemma check_length_no_panic n : check_length n ≠ Panic.
Proof. unfold check_length. by case_match. Qed.

(** An ADU given byte by byte. *)
Lemma Tcp_split_head h0 h1 h2 h3 h4 h5 h6 pdu :
  1 ≤ len pdu ≤ 253 →
  Tcp_split ([h0; h1; h2; h3; h4; h5; h6] ++ pdu) =
  (if negb (u16_from_be h2 h3 =? 0) then Err (ProtocolIdentifier (u16_from_be h2 h3)) else
   _ ← check_length (u16_from_be h4 h5);
   if negb (u16_from_be h4 h5 =? len pdu + 1)
   then Err (InvalidLength (u16_from_be h4 h5) (len pdu + 1)) else
   Ok (mkMbapHeader (mkTransactionId (u16_from_be h0 h1)) (mkUnitId h6), pdu)).
Proof.
  intros Hp. unfold Tcp_split, TCP_MAX_ADU_LEN, HEADER_LEN. set (l := _ ++ pdu).
  assert (len l = len pdu + 7) as Hl by (unfold l; len_lia).
  change (saturating_add 7 1) with 8.
  destruct (Z.ltb_spec 260 (len l)); [lia|]. destruct (Z.ltb_spec (len l) 8); [lia|].
  unfold l. change 7 with (len [h0; h1; h2; h3; h4; h5; h6]) at 1.
  rewrite split_at_checked_app. cbn [expect mbind Result_bind]. unfold PROTOCOL_MODBUS.
  unfold LENGTH_OVERHEAD. rewrite saturating_add_small by (unfold USIZE_MAX; lia). done.
Qed.

Lemma Tcp_split_cases bs :
  bytes_ok bs →
  (∃ e, Tcp_split bs = Err e) ∨
  ∃ h0 h1 h2 h3 h4 h5 h6 pdu, bs = [h0; h1; h2; h3; h4; h5; h6] ++ pdu ∧
    bytes_ok [h0; h1; h2; h3; h4; h5; h6] ∧ is_pdu pdu.
Proof.
  intros Hb. destruct (decide (8 ≤ len bs ≤ 260)) as [Hl|Hl].
  - right. do 7 (destruct bs as [|? bs]; [exfalso; len_lia|]).
    do 8 eexists. split; [reflexivity|].
    apply (bytes_ok_app_inv [_; _; _; _; _; _; _] bs) in Hb as [Hh Hb].
    unfold is_pdu. split_and!; try done; len_lia.
  - left. unfold Tcp_split, TCP_MAX_ADU_LEN, HEADER_LEN. change (saturating_add 7 1) with 8.
    destruct (Z.ltb_spec 260 (len bs)); [by eexists|].
    destruct (Z.ltb_spec (len bs) 8); [by eexists|lia].
Qed.

Lemma Tcp_split_mbap h pdu : wf h → is_pdu pdu → Tcp_split (mbap h pdu) = Ok (h, pdu).
Proof.
  intros Hh [Hb Hl]. set (t := transaction_id_0 (transaction_id h)).
  change (mbap h pdu) with ([t / 256; t mod 256; 0 / 256; 0 mod 256; (len pdu + 1) / 256;
    (len pdu + 1) mod 256; unit_id_0 (unit_id h)] ++ pdu).
  rewrite Tcp_split_head by done. rewrite !u16_from_to_be.
  rewrite check_length_ok by lia. cbn [mbind Result_bind Z.eqb negb].
  rewrite Z.eqb_refl. subst t. by destruct h as [[t] [u]].
Qed.

Lemma Tcp_split_inv bs h pdu :
  bytes_ok bs → Tcp_split bs = Ok (h, pdu) → bs = mbap h pdu ∧ wf h ∧ is_pdu pdu.
Proof.
  intros Hb H. destruct (Tcp_split_cases bs Hb) as [(e & He)|Hs]; [congruence|].
  destruct Hs as (h0 & h1 & h2 & h3 & h4 & h5 & h6 & p & -> & Hh & Hp).
  rewrite Tcp_split_head in H by apply Hp.
  destruct (Z.eqb_spec (u16_from_be h2 h3) 0) as [H0|]; [|done]. cbn [negb] in H.
  apply Result_bind_inv in H as (u & _ & H).
  destruct (Z.eqb_spec (u16_from_be h4 h5) (len p + 1)) as [H1|]; [|done].
  injection H as <- <-.
  repeat match goal with H : bytes_ok (_ :: _) |- _ => apply bytes_ok_cons_inv in H as [? H] end.
  unfold mbap. cbn [transaction_id unit_id transaction_id_0 unit_id_0].
  rewrite <- H0, <- H1, !u16_to_from_be by done.
  split_and!; [done| |done]. split; [by apply u16_from_be_range|done].
Qed.

Lemma Tcp_split_total bs : bytes_ok bs → Tcp_split bs ≠ Panic.
Proof.
  intros Hb. destruct (Tcp_split_cases bs Hb) as [(e & He)|Hs]; [congruence|].
  destruct Hs as (h0 & h1 & h2 & h3 & h4 & h5 & h6 & p & -> & Hh & [_ Hp]).
  rewrite Tcp_split_head by done. case_match; [done|].
  pose proof (check_length_no_panic (u16_from_be h4 h5)).
  destruct (check_length _); [|done..]. cbn. by case_match.
Qed.

Lemma Tcp_wrap_spec h enc r out :
  Appends enc r → (∀ bs, r = Ok bs → 1 ≤ len bs ≤ 253) → r ≠ Panic → vec_ok out →
  Tcp_wrap_into h enc out = appended r (mbap h) out.
Proof.
  intros He Hr Hn Hout. unfold Tcp_wrap_into. rewrite He. unfold appended.
  destruct r as [pdu|e|]; [| |done].
  - specialize (Hr pdu eq_refl). rewrite len_app, saturating_sub_add by apply len_nonneg.
    unfold LENGTH_OVERHEAD. rewrite (saturating_add_small (len pdu)) by (unfold USIZE_MAX; lia).
    unfold u16_try_from, U16_MAX, MIN_LENGTH, MAX_LENGTH. rewrite try_from_max_ok by lia.
    cbn [unwrap_or from_option]. unfold id.
    destruct (Z.leb_spec 1 (len pdu + 1)); [|lia]. destruct (Z.leb_spec (len pdu + 1) 254); [|lia].
    cbn [andb negb]. unfold LENGTH_FIELD_OFFSET, vec_ok, ISIZE_MAX in *.
    rewrite saturating_add_small by (unfold USIZE_MAX; lia).
    set (t := u16_to_be (transaction_id_0 (transaction_id h)) ++ u16_to_be PROTOCOL_MODBUS).
    pose proof (patch_spec (out ++ t) (u16_to_be 0) (u16_to_be (len pdu + 1))
      ([unit_id_0 (unit_id h)] ++ pdu) eq_refl) as Hp.
    replace (len (out ++ t)) with (len out + 4) in Hp by (unfold t; len_lia).
    unfold t in Hp. rewrite <- !app_assoc in *. rewrite Hp. unfold mbap.
    by rewrite <- !app_assoc.
  - unfold len. rewrite Nat2Z.id. by rewrite take_app_length.
Qed.

Lemma mbap_bounds h pdu :
  wf h → is_pdu pdu → bytes_ok (mbap h pdu) ∧ 8 ≤ len (mbap h pdu) ≤ 260.
Proof.
  intros [Ht Hu] [Hb Hl]. unfold mbap. split; [|len_lia].
  repeat apply bytes_ok_app; auto with bytes; apply u16_to_be_ok; unfold is_u16; lia.
Qed.

#[export] Instance Tcp_lawful {w : Winnow} {ws : WinnowSpec w} : LawfulFraming Tcp_framing.
Proof.
  refine {| frame := mbap : Header Tcp_framing → _; denotes := eq |}.
  - intros h r out _ Hr Ho. apply Tcp_wrap_spec;
      [apply request_appends| |apply request_bytes_no_panic|done].
    intros bs Hbs. by eapply request_bytes_pdu.
  - intros h r out _ Hr Ho. apply Tcp_wrap_spec;
      [apply response_appends| |apply response_bytes_no_panic|done].
    intros bs Hbs. by eapply response_bytes_pdu.
  - apply (decode_by_frame Tcp_split mbap), Tcp_split_mbap.
  - apply (decode_by_frame Tcp_split mbap), Tcp_split_mbap.
  - apply (decode_by_denotes Tcp_split mbap eq), Tcp_split_inv.
  - apply (decode_by_denotes Tcp_split mbap eq), Tcp_split_inv.
  - apply (decode_by_total Tcp_split mbap eq); auto using Tcp_split_inv, Tcp_split_total, RequestPdu_decode_safe.
  - apply (decode_by_total Tcp_split mbap eq); auto using Tcp_split_inv, Tcp_split_total, ResponsePdu_decode_safe.
  - intros h pdu Hh Hp. destruct (mbap_bounds h pdu Hh Hp) as [Hb Hl].
    split; [exact Hb|]. change (1 ≤ len (mbap h pdu) ≤ 260). lia.
Defined.

(** The first six bytes of an ADU give its length. *)
Lemma adu_len_mbap h pdu tl :
  is_pdu pdu → adu_len (take 6 (mbap h pdu ++ tl)) = Ok (len (mbap h pdu)).
Proof.
  intros [_ Hl]. unfold mbap at 1. cbn [app u16_to_be take].
  set (t := transaction_id_0 (transaction_id h)).
  unfold adu_len. change (slice_get 4 LENGTH_PREFIX_LEN _)
    with (Some [(len pdu + 1) / 256; (len pdu + 1) mod 256]).
  cbn [mbind option_bind ok_or Result_bind fst snd]. rewrite u16_from_to_be.
  rewrite check_length_ok by lia. cbn [mbind Result_bind].
  unfold LENGTH_PREFIX_LEN. rewrite saturating_add_small by (unfold USIZE_MAX; lia).
  f_equal. unfold mbap. len_lia.
Qed.

Lemma adu_len_bounds bs n : bytes_ok bs → adu_len bs = Ok n → 7 ≤ n ≤ 260.
Proof.
  intros Hb H. unfold adu_len in H. apply Result_bind_inv in H as ([hi lo] & _ & H).
  cbn [fst snd] in H. apply Result_bind_inv in H as (u & Hc & [= <-]).
  unfold check_length, MIN_LENGTH, MAX_LENGTH in Hc. case_match; [done|]. split_guards.
  unfold LENGTH_PREFIX_LEN. rewrite saturating_add_small by (unfold USIZE_MAX; lia). lia.
Qed.

Lemma adu_len_no_panic bs : adu_len bs ≠ Panic.
Proof.
  unfold adu_len. destruct (slice_get 4 LENGTH_PREFIX_LEN bs) as [[|a [|b [|c l]]]|]; try done.
  cbn [mbind option_bind ok_or Result_bind fst snd].
  pose proof (check_length_no_panic (u16_from_be a b)). by destruct (check_length _).
Qed.
