(* ===== verification/Ascii.v ===== *)
(** * ASCII framing ([src/frame/ascii.rs]): colon, hexadecimal pairs, LRC, CR LF *)

From S2P Require Import Prelude.
From S2P Require Import Errors.
From S2P Require Import Parse.
From S2P Require Import Value.
From S2P Require Import Wire.
From S2P Require Import Pdu.
From S2P Require Import PduSpec.
From S2P Require Import PduRoundtrip.
From S2P Require Import PduSafety.
From S2P Require Import Framing.

Definition START : Z := 58.
Definition TERMINATOR : list Z := [0x0D; 0x0A].
Definition ASCII_OVERHEAD : Z := 7.
Definition ASCII_MAX_ADU_LEN : Z := 513.

(** [lrc]: a wrapping 8-bit sum, then its wrapping negation. *)
Definition lrc (bytes : list Z) : Z :=
  (- fold_left (λ sum byte, (sum + byte) mod 256) bytes 0) mod 256.

(** [nibble]: the characters are ['0'..'9'], ['A'..'F'], ['a'..'f']. *)
Definition nibble (character : Z) : Result Z :=
  if (48 <=? character) && (character <=? 57) then Ok (character - 48)
  else if (65 <=? character) && (character <=? 70) then Ok (character - 65 + 10)
  else if (97 <=? character) && (character <=? 102) then Ok (character - 97 + 10)
  else Err (InvalidCharacter character).

(** [decode_hex]. *)
Definition decode_hex (chars : list Z) : Result (list Z) :=
  mapM (λ c, high ← nibble (fst c); low ← nibble (snd c); Ok (Z.lor (Z.shiftl high 4) low))
    (as_chunks2 chars).

(** [hex_digit], with its saturating [u8] arithmetic, and [encode_hex]. *)
Definition hex_digit (nibble : Z) : Z :=
  if (0 <=? nibble) && (nibble <=? 9) then Z.min (48 + nibble) U8_MAX
  else saturating_sub (Z.min (65 + nibble) U8_MAX) 10.

Definition encode_hex (byte : Z) : W unit :=
  push (hex_digit (Z.shiftr byte 4));; push (hex_digit (Z.land byte 0x0F)).

(** [split]. *)
Definition Ascii_split (bytes : list Z) : Result (UnitId * list Z) :=
  if ASCII_MAX_ADU_LEN <? len bytes then Err (AduTooLarge (len bytes) ASCII_MAX_ADU_LEN) else
  let minimum := saturating_add ASCII_OVERHEAD 2 in
  if len bytes <? minimum then Err (Truncated minimum (len bytes)) else
  match split_first bytes with
  | None => Err (FramingError "start character")
  | Some (first, rest) =>
      if negb (first =? START) then Err (FramingError "start character") else
      '(body, terminator) ←
        expect (split_at_checked (saturating_sub (len rest) (len TERMINATOR)) rest);
      if negb (bool_decide (terminator = TERMINATOR)) then Err (FramingError "terminator") else
      if negb (len body mod 2 =? 0) then Err (FramingError "hexadecimal character count") else
      decoded ← decode_hex body;
      match split_last decoded with
      | None => Err (FramingError "hexadecimal character count")
      | Some (actual, covered) =>
          let expected := lrc covered in
          if negb (expected =? actual) then Err (Checksum expected actual) else
          match split_first covered with
          | None => Err (Truncated minimum (len bytes))
          | Some (address, pdu) => Ok (mkUnitId address, pdu)
          end
      end
  end.

(** The [for] loop of [wrap_into]. *)
Fixpoint encode_hex_all (covered : list Z) : W unit :=
  match covered with
  | [] => mret tt
  | byte :: covered' => encode_hex byte;; encode_hex_all covered'
  end.

(** [wrap_into]: the binary form is built in a scratch buffer, so a failure
    leaves [out] alone. *)
Definition Ascii_wrap_into (address : UnitId) (encode_pdu : W unit) : W unit := λ out,
  match encode_pdu [unit_id_0 address] with
  | (Err error, _) => (Err error, out)
  | (Panic, _) => (Panic, out)
  | (Ok _, covered) =>
      (push START;; encode_hex_all covered;; encode_hex (lrc covered);;
       extend_from_slice TERMINATOR) out
  end.

Section ascii.
Context {w : Winnow}.

Definition Ascii_decode_request (bytes : list Z) : Result (UnitId * RequestPdu) :=
  decode_by Ascii_split RequestPdu_decode bytes.
Definition Ascii_encode_request_into (header : UnitId) (pdu : RequestPdu) : W unit :=
  Ascii_wrap_into header (RequestPdu_encode_into pdu).
Definition Ascii_decode_response (bytes : list Z) : Result (UnitId * ResponsePdu) :=
  decode_by Ascii_split ResponsePdu_decode bytes.
Definition Ascii_encode_response_into (header : UnitId) (pdu : ResponsePdu) : W unit :=
  Ascii_wrap_into header (ResponsePdu_encode_into pdu).

(** [impl Framing for Ascii]. *)
Definition Ascii_framing : Framing := {|
  Header := UnitId;
  Header_eq := _;
  Header_wf := _;
  MAX_ADU_LEN := ASCII_MAX_ADU_LEN;
  decode_request := Ascii_decode_request;
  encode_request_into := Ascii_encode_request_into;
  decode_response := Ascii_decode_response;
  encode_response_into := Ascii_encode_response_into;
  boundary := Delimited START TERMINATOR;
|}.
End ascii.

(** The two characters of a byte, of a string, and the ADU around a PDU. *)
Definition hex (b : Z) : list Z := [hex_digit (Z.shiftr b 4); hex_digit (Z.land b 0x0F)].
Definition hexes (bs : list Z) : list Z := flat_map hex bs.
Definition with_lrc (bs : list Z) : list Z := bs ++ [lrc bs].
Definition ascii_adu (h : UnitId) (pdu : list Z) : list Z :=
  [START] ++ hexes (with_lrc (unit_id_0 h :: pdu)) ++ TERMINATOR.

(** The upper-case form of a character: [nibble] reads either case. *)
Definition upper (ch : Z) : Z := if (97 <=? ch) && (ch <=? 102) then ch - 32 else ch.

(** ** Hexadecimal *)

Lemma hexes_cons b bs : hexes (b :: bs) = hex b ++ hexes bs.
Proof. done. Qed.

Lemma hexes_app l k : hexes (l ++ k) = hexes l ++ hexes k.
Proof. unfold hexes. by rewrite flat_map_app. Qed.

Lemma len_hexes bs : len (hexes bs) = 2 * len bs.
Proof. induction bs as [|b bs IH]; [done|]. rewrite hexes_cons. unfold hex. len_lia. Qed.

#[export] Hint Rewrite len_hexes : len.

(** One byte through its two characters, checked on every byte. *)
Lemma hex_byte b :
  is_u8 b →
  nibble (hex_digit (Z.shiftr b 4)) = Ok (Z.shiftr b 4) ∧
  nibble (hex_digit (Z.land b 0x0F)) = Ok (Z.land b 0x0F) ∧
  Z.lor (Z.shiftl (Z.shiftr b 4) 4) (Z.land b 0x0F) = b ∧
  is_u8 (hex_digit (Z.shiftr b 4)) ∧ is_u8 (hex_digit (Z.land b 0x0F)) ∧
  hex_digit (Z.shiftr b 4) ≠ START ∧ hex_digit (Z.land b 0x0F) ≠ START ∧
  hex_digit (Z.shiftr b 4) ≠ 13 ∧ hex_digit (Z.land b 0x0F) ≠ 13.
Proof.
  intros Hb. revert b Hb. apply (byte_forall_dec (λ b,
    nibble (hex_digit (Z.shiftr b 4)) = Ok (Z.shiftr b 4) ∧
    nibble (hex_digit (Z.land b 0x0F)) = Ok (Z.land b 0x0F) ∧
    Z.lor (Z.shiftl (Z.shiftr b 4) 4) (Z.land b 0x0F) = b ∧
    is_u8 (hex_digit (Z.shiftr b 4)) ∧ is_u8 (hex_digit (Z.land b 0x0F)) ∧
    hex_digit (Z.shiftr b 4) ≠ START ∧ hex_digit (Z.land b 0x0F) ≠ START ∧
    hex_digit (Z.shiftr b 4) ≠ 13 ∧ hex_digit (Z.land b 0x0F) ≠ 13)).
  vm_compute. reflexivity.
Qed.

(** One character through its value. *)
Lemma nibble_char ch n :
  is_u8 ch → nibble ch = Ok n → hex_digit n = upper ch ∧ 0 ≤ n ≤ 15.
Proof.
  intros Hc. pose proof (byte_forall (λ ch, match nibble ch with
    | Ok n => (hex_digit n =? upper ch) && (0 <=? n) && (n <=? 15) | _ => true end)
    ltac:(vm_compute; reflexivity) ch Hc) as H. cbv beta in H.
  intros Hn. rewrite Hn in H. split_guards. lia.
Qed.

(** Two nibbles make a byte that gives them back. *)
Lemma nibbles_byte h l :
  0 ≤ h ≤ 15 → 0 ≤ l ≤ 15 →
  is_u8 (Z.lor (Z.shiftl h 4) l) ∧ Z.shiftr (Z.lor (Z.shiftl h 4) l) 4 = h ∧
  Z.land (Z.lor (Z.shiftl h 4) l) 0x0F = l.
Proof.
  intros Hh Hl.
  assert (forallb (λ h, forallb (λ l,
    bool_decide (is_u8 (Z.lor (Z.shiftl h 4) l) ∧ Z.shiftr (Z.lor (Z.shiftl h 4) l) 4 = h ∧
      Z.land (Z.lor (Z.shiftl h 4) l) 0x0F = l)) (zrange 16)) (zrange 16) = true) as H
    by (vm_compute; reflexivity).
  assert (∀ n, 0 ≤ n ≤ 15 → In n (zrange 16)) as Hin.
  { intros n Hn. unfold zrange. apply list_elem_of_In, list_elem_of_fmap. exists (Z.to_nat n).
    split; [lia|]. apply elem_of_seq. lia. }
  rewrite forallb_forall in H. specialize (H h (Hin h Hh)).
  rewrite forallb_forall in H. specialize (H l (Hin l Hl)).
  by apply bool_decide_eq_true in H.
Qed.

Lemma nibble_no_panic ch : nibble ch ≠ Panic.
Proof. unfold nibble. repeat case_match; done. Qed.

Lemma decode_hexes bs : bytes_ok bs → decode_hex (hexes bs) = Ok bs.
Proof.
  induction 1 as [|b bs Hb Hbs IH]; [done|]. rewrite hexes_cons. unfold decode_hex.
  cbn [hex app as_chunks2 mapM fst snd].
  destruct (hex_byte b Hb) as (-> & -> & Hj & _). cbn [mbind Result_bind].
  unfold decode_hex in IH. by rewrite Hj, IH.
Qed.

Lemma decode_hex_inv chars bs :
  bytes_ok chars → len chars mod 2 = 0 → decode_hex chars = Ok bs →
  upper <$> chars = hexes bs ∧ bytes_ok bs ∧ len chars = 2 * len bs.
Proof.
  revert bs. induction chars as [|x|x y l IH] using list_pair_ind; intros bs Hb He H.
  - injection H as <-. by repeat constructor.
  - discriminate He.
  - apply bytes_ok_cons_inv in Hb as [Hx Hb]. apply bytes_ok_cons_inv in Hb as [Hy Hb].
    unfold decode_hex in H. cbn [as_chunks2 mapM fst snd] in H.
    apply Result_bind_inv in H as (v & Hv & H). apply Result_bind_inv in H as (vs & Hvs & [= <-]).
    apply Result_bind_inv in Hv as (h & Hh & Hv). apply Result_bind_inv in Hv as (n & Hn & [= <-]).
    apply nibble_char in Hh as [Hh Hhr]; [|done]. apply nibble_char in Hn as [Hn Hnr]; [|done].
    destruct (nibbles_byte h n) as (Hu & H1 & H2); [done..|].
    destruct (IH vs) as (IH1 & IH2 & IH3); [done| |done|].
    { rewrite <- He, !len_cons. replace (1 + (1 + len l)) with (len l + 1 * 2) by lia.
      by rewrite Z.mod_add. }
    rewrite !fmap_cons, IH1, hexes_cons. unfold hex. rewrite H1, H2, Hh, Hn.
    split_and!; [done|by constructor|len_lia].
Qed.

Lemma decode_hex_no_panic chars : decode_hex chars ≠ Panic.
Proof.
  unfold decode_hex. induction (as_chunks2 chars) as [|[x y] l IH]; [done|].
  cbn [mapM fst snd]. pose proof (nibble_no_panic x). pose proof (nibble_no_panic y).
  destruct (nibble x); cbn [mbind Result_bind]; [|done..].
  destruct (nibble y); cbn [mbind Result_bind]; [|done..].
  destruct (mapM _ l); done.
Qed.

(** ** The LRC *)

Definition zsum (bs : list Z) : Z := foldr Z.add 0 bs.

Lemma zsum_cons x l : zsum (x :: l) = x + zsum l.
Proof. done. Qed.

Lemma zsum_app l k : zsum (l ++ k) = zsum l + zsum k.
Proof. induction l as [|x l IH]; [done|]. cbn [app]. rewrite !zsum_cons. lia. Qed.

Lemma lrc_fold bs s :
  fold_left (λ sum byte, (sum + byte) mod 256) bs (s mod 256) = (s + zsum bs) mod 256.
Proof.
  revert s. induction bs as [|b bs IH]; intros s; cbn [fold_left].
  - change (zsum []) with 0. by rewrite Z.add_0_r.
  - rewrite Z.add_mod_idemp_l, IH, zsum_cons by lia. f_equal. lia.
Qed.

Lemma lrc_spec bs : lrc bs = (- zsum bs) mod 256.
Proof.
  unfold lrc. pose proof (lrc_fold bs 0) as H. change (0 mod 256) with 0 in H.
  rewrite H, Z.add_0_l. by rewrite <- !Z.sub_0_l, Zminus_mod_idemp_r.
Qed.

Lemma lrc_u8 bs : is_u8 (lrc bs).
Proof. unfold lrc. apply u16_lo_range. Qed.

(** A message followed by its LRC sums to zero. *)
Lemma with_lrc_sum bs : zsum (with_lrc bs) mod 256 = 0.
Proof.
  unfold with_lrc. rewrite zsum_app, zsum_cons, lrc_spec. change (zsum []) with 0.
  rewrite Z.add_0_r, Z.add_mod_idemp_r by lia. by rewrite Z.add_opp_diag_r.
Qed.

Lemma with_lrc_ok bs : bytes_ok bs → bytes_ok (with_lrc bs).
Proof. intros H. unfold with_lrc. pose proof (lrc_u8 bs). auto with bytes. Qed.

Lemma hexes_ok bs : bytes_ok bs → bytes_ok (hexes bs).
Proof.
  induction 1 as [|b bs Hb Hbs IH]; [constructor|]. rewrite hexes_cons.
  destruct (hex_byte b Hb) as (_ & _ & _ & ? & ? & _). unfold hex. auto with bytes.
Qed.

Lemma hexes_inj l k : bytes_ok l → bytes_ok k → hexes l = hexes k → l = k.
Proof.
  intros Hl Hk H. apply (f_equal decode_hex) in H. rewrite !decode_hexes in H by done.
  congruence.
Qed.

Lemma hex_inj a b : is_u8 a → is_u8 b → hex a = hex b → a = b.
Proof.
  intros Ha Hb H. assert ([a] = [b]) as [=]; [|done].
  apply hexes_inj; [auto with bytes..|]. by rewrite !hexes_cons, H.
Qed.

(** ** Laws *)

Lemma encode_hex_all_spec bs out : encode_hex_all bs out = (Ok tt, out ++ hexes bs).
Proof.
  revert out. induction bs as [|b bs IH]; intros out; cbn [encode_hex_all].
  - unfold mret, W_ret. by rewrite app_nil_r.
  - unfold encode_hex. w_run. rewrite IH, hexes_cons. unfold hex. by rewrite <- app_assoc.
Qed.

Lemma Ascii_wrap_spec h enc r out :
  Appends enc r → r ≠ Panic → Ascii_wrap_into h enc out = appended r (ascii_adu h) out.
Proof.
  intros He Hn. unfold Ascii_wrap_into. rewrite He. unfold appended.
  destruct r as [pdu|e|]; [|done..].
  w_run. rewrite encode_hex_all_spec. unfold encode_hex. w_run.
  unfold ascii_adu, with_lrc. rewrite hexes_app. by rewrite <- !app_assoc.
Qed.

(** The ADU of a body given as characters. *)
Lemma Ascii_split_body body :
  6 ≤ len body ≤ 510 →
  Ascii_split ([START] ++ body ++ TERMINATOR) =
  (if negb (len body mod 2 =? 0) then Err (FramingError "hexadecimal character count") else
   decoded ← decode_hex body;
   match split_last decoded with
   | None => Err (FramingError "hexadecimal character count")
   | Some (actual, covered) =>
       if negb (lrc covered =? actual) then Err (Checksum (lrc covered) actual) else
       match split_first covered with
       | None => Err (Truncated 9 (len body + 3))
       | Some (address, pdu) => Ok (mkUnitId address, pdu)
       end
   end).
Proof.
  intros Hb. unfold Ascii_split, ASCII_MAX_ADU_LEN, ASCII_OVERHEAD.
  change (saturating_add 7 2) with 9.
  assert (len ([START] ++ body ++ TERMINATOR) = len body + 3) as Hl
    by (unfold TERMINATOR; len_lia).
  rewrite Hl. destruct (Z.ltb_spec 513 (len body + 3)); [lia|].
  destruct (Z.ltb_spec (len body + 3) 9); [lia|]. cbn [app split_first].
  rewrite Z.eqb_refl. cbn [negb].
  replace (saturating_sub (len (body ++ TERMINATOR)) (len TERMINATOR)) with (len body)
    by (unfold saturating_sub, TERMINATOR; len_lia).
  rewrite split_at_checked_app. cbn [expect mbind Result_bind].
  rewrite bool_decide_true by done. done.
Qed.

Lemma Ascii_split_cases bs :
  (∃ e, Ascii_split bs = Err e) ∨
  ∃ body, bs = [START] ++ body ++ TERMINATOR ∧ 6 ≤ len body ≤ 510.
Proof.
  unfold Ascii_split, ASCII_MAX_ADU_LEN, ASCII_OVERHEAD. change (saturating_add 7 2) with 9.
  destruct (Z.ltb_spec 513 (len bs)); [eauto|]. destruct (Z.ltb_spec (len bs) 9); [eauto|].
  destruct bs as [|b bs]; [cbn in *; eauto|]. cbn [split_first].
  destruct (Z.eqb_spec b START) as [->|]; [|cbn; eauto]. cbn [negb].
  rewrite len_cons in *. change (len TERMINATOR) with 2.
  destruct (split_at_checked_some (saturating_sub (len bs) 2) bs) as (body & term & -> & -> & Hl).
  { unfold saturating_sub. lia. }
  cbn [expect mbind Result_bind].
  case_bool_decide as Ht; [|cbn; eauto]. right. exists body. subst term. split; [done|].
  unfold TERMINATOR, saturating_sub in *. len_lia.
Qed.

Lemma Ascii_split_adu h pdu : wf h → is_pdu pdu → Ascii_split (ascii_adu h pdu) = Ok (h, pdu).
Proof.
  intros Hh [Hb Hl]. unfold ascii_adu. set (cov := unit_id_0 h :: pdu).
  assert (bytes_ok cov) as Hc by (unfold cov; auto with bytes).
  assert (len (hexes (with_lrc cov)) = 2 * (len pdu + 2)) as Hhl
    by (unfold with_lrc, cov; len_lia).
  rewrite Ascii_split_body by lia. rewrite Hhl, (Z.mul_comm 2), Z_mod_mult. cbn [Z.eqb negb].
  rewrite decode_hexes by by apply with_lrc_ok. cbn [mbind Result_bind].
  unfold with_lrc. rewrite split_last_app, Z.eqb_refl. by destruct h.
Qed.

Definition same_case (bs adu : list Z) : Prop := upper <$> bs = adu.

Lemma Ascii_split_inv bs h pdu :
  bytes_ok bs → Ascii_split bs = Ok (h, pdu) →
  same_case bs (ascii_adu h pdu) ∧ wf h ∧ is_pdu pdu.
Proof.
  intros Hb H. destruct (Ascii_split_cases bs) as [(e & He)|(body & -> & Hl)]; [congruence|].
  rewrite Ascii_split_body in H by done.
  destruct (Z.eqb_spec (len body mod 2) 0) as [Hev|]; [|done]. cbn [negb] in H.
  apply Result_bind_inv in H as (dec & Hd & H).
  apply bytes_ok_app_inv in Hb as [_ Hb]. apply bytes_ok_app_inv in Hb as [Hb _].
  apply decode_hex_inv in Hd as (Hup & Hdok & Hdl); [|done..].
  destruct (split_last dec) as [[actual cov]|] eqn:Hs; [|done].
  apply split_last_some in Hs as ->.
  destruct (Z.eqb_spec (lrc cov) actual) as [<-|]; [|done]. cbn [negb] in H.
  destruct cov as [|a p]; [done|]. injection H as <- <-.
  apply bytes_ok_app_inv in Hdok as [[Ha Hp]%bytes_ok_cons_inv _].
  unfold same_case, ascii_adu, is_pdu. rewrite !fmap_app, Hup.
  split_and!; try done; len_lia.
Qed.

Lemma Ascii_split_total bs : Ascii_split bs ≠ Panic.
Proof.
  destruct (Ascii_split_cases bs) as [(e & He)|(body & -> & Hl)]; [congruence|].
  rewrite Ascii_split_body by done. case_match; [done|].
  pose proof (decode_hex_no_panic body). destruct (decode_hex body) as [dec|e|]; [|done..].
  cbn [mbind Result_bind]. repeat case_match; done.
Qed.

Lemma ascii_adu_bounds h pdu :
  wf h → is_pdu pdu → bytes_ok (ascii_adu h pdu) ∧ 9 ≤ len (ascii_adu h pdu) ≤ 513.
Proof.
  intros Hh [Hb Hl]. unfold ascii_adu. split; [|unfold with_lrc, TERMINATOR; len_lia].
  apply bytes_ok_app; [auto with bytes|]. apply bytes_ok_app; [|unfold TERMINATOR; auto with bytes].
  apply hexes_ok, with_lrc_ok. auto with bytes.
Qed.

#[export] Instance Ascii_lawful {w : Winnow} {ws : WinnowSpec w} : LawfulFraming Ascii_framing.
Proof.
  refine {| frame := ascii_adu : Header Ascii_framing → _; denotes := same_case |}.
  - intros h r out _ _ _. apply Ascii_wrap_spec; [apply request_appends|apply request_bytes_no_panic].
  - intros h r out _ _ _. apply Ascii_wrap_spec; [apply response_appends|apply response_bytes_no_panic].
  - apply (decode_by_frame Ascii_split ascii_adu), Ascii_split_adu.
  - apply (decode_by_frame Ascii_split ascii_adu), Ascii_split_adu.
  - apply (decode_by_denotes Ascii_split ascii_adu same_case), Ascii_split_inv.
  - apply (decode_by_denotes Ascii_split ascii_adu same_case), Ascii_split_inv.
  - apply (decode_by_total Ascii_split ascii_adu same_case);
      auto using Ascii_split_inv, Ascii_split_total, RequestPdu_decode_safe.
  - apply (decode_by_total Ascii_split ascii_adu same_case);
      auto using Ascii_split_inv, Ascii_split_total, ResponsePdu_decode_safe.
  - intros h pdu Hh Hp. destruct (ascii_adu_bounds h pdu Hh Hp) as [Hb Hl].
    split; [exact Hb|]. change (1 ≤ len (ascii_adu h pdu) ≤ 513). lia.
Defined.

(** The hexadecimal characters are neither the start character nor a carriage
    return. *)
Lemma hexes_alphabet bs ch : bytes_ok bs → ch ∈ hexes bs → ch ≠ START ∧ ch ≠ 13.
Proof.
  induction 1 as [|b bs Hb Hbs IH]; [by intros ?%elem_of_nil|].
  rewrite hexes_cons, elem_of_app. intros [H|H]; [|by apply IH].
  destruct (hex_byte b Hb) as (_ & _ & _ & _ & _ & ? & ? & ? & ?). unfold hex in H.
  apply elem_of_cons in H as [->|H]; [done|]. by apply list_elem_of_singleton in H as ->.
Qed.

(** Two hexadecimal strings of equal sum that agree except in one character
    agree there too. *)
Lemma hexes_distance x y pre a b post :
  bytes_ok x → bytes_ok y → zsum x mod 256 = zsum y mod 256 →
  hexes x = pre ++ a :: post → hexes y = pre ++ b :: post → a = b.
Proof.
  intros Hx. revert y pre. induction Hx as [|u x Hu Hx IH]; intros y pre Hy Hsum H1 H2.
  { by destruct pre. }
  destruct Hy as [|v y Hv Hy]; [by destruct pre|].
  rewrite hexes_cons in H1, H2.
  assert (x = y → u = v) as Huv.
  { intros ->. rewrite !zsum_cons in Hsum. unfold is_u8 in *.
    rewrite !(Z.add_comm _ (zsum y)) in Hsum.
    assert ((zsum y + u - zsum y) mod 256 = (zsum y + v - zsum y) mod 256) as Hm.
    { rewrite Zminus_mod, Hsum. by rewrite <- Zminus_mod. }
    replace (zsum y + u - zsum y) with u in Hm by lia.
    replace (zsum y + v - zsum y) with v in Hm by lia.
    rewrite !Z.mod_small in Hm by lia. done. }
  destruct pre as [|p [|q pre]]; cbn [app] in H1, H2; unfold hex in H1, H2; cbn [app] in H1, H2.
  - injection H1 as <- H1. injection H2 as <- H2. rewrite <- H1 in H2. injection H2 as _ H2.
    f_equal. f_equal. apply Huv. symmetry. by apply hexes_inj.
  - injection H1 as Hp1 <- H1. injection H2 as Hp2 <- H2. rewrite <- H1 in H2.
    f_equal. f_equal. apply Huv. symmetry. by apply hexes_inj.
  - injection H1 as Hp1 Hq1 H1. injection H2 as Hp2 Hq2 H2.
    assert (u = v) as <- by (apply hex_inj; [done..|unfold hex; congruence]).
    eapply (IH y pre); [done| |done|done].
    rewrite !zsum_cons in Hsum.
    assert ((u + zsum x - u) mod 256 = (u + zsum y - u) mod 256) as Hm.
    { rewrite Zminus_mod, Hsum. by rewrite <- Zminus_mod. }
    by replace (u + zsum x - u) with (zsum x) in Hm by lia;
      replace (u + zsum y - u) with (zsum y) in Hm by lia.
Qed.

Lemma hexes_upper bs : bytes_ok bs → upper <$> hexes bs = hexes bs.
Proof.
  intros Hb. destruct (decode_hex_inv (hexes bs) bs) as (? & _ & _); [by apply hexes_ok| | |done].
  - rewrite len_hexes, Z.mul_comm. apply Z_mod_mult.
  - by apply decode_hexes.
Qed.

Lemma ascii_adu_upper h pdu :
  wf h → is_pdu pdu → upper <$> ascii_adu h pdu = ascii_adu h pdu.
Proof.
  intros Hh [Hb _]. unfold ascii_adu. rewrite !fmap_app, hexes_upper; [done|].
  apply with_lrc_ok. auto with bytes.
Qed.

(** Two ASCII bodies of zero sum that agree except in one character agree. *)
Lemma ascii_codewords_distance x y pre a b post :
  bytes_ok x → bytes_ok y → zsum x mod 256 = 0 → zsum y mod 256 = 0 →
  hexes x ++ TERMINATOR = pre ++ a :: post → hexes y ++ TERMINATOR = pre ++ b :: post → a = b.
Proof.
  intros Hx Hy Sx Sy H1 H2. assert (len (hexes x) = len (hexes y)) as Hl.
  { apply (f_equal len) in H1, H2. rewrite !len_app in H1, H2. rewrite !len_cons in *. lia. }
  apply app_eq_inv in H1 as [(k & Hk & H1)|(k & -> & H1)].
  - destruct k as [|a' m].
    + rewrite app_nil_r in Hk. subst pre. symmetry in H2.
      apply len_inj_app in H2 as [_ H2]; [|done]. cbn in H1. congruence.
    + injection H1 as <- ->. apply (hexes_distance x y pre a b m); [done..|congruence|done|].
      assert ((pre ++ b :: m) ++ TERMINATOR = hexes y ++ TERMINATOR) as H.
      { by rewrite H2, <- app_assoc. }
      symmetry. by apply app_inv_tail in H.
  - rewrite <- app_assoc in H2. symmetry in Hl. apply len_inj_app in H2 as [_ H2]; [|done].
    rewrite H1 in H2. apply app_inv_head in H2. congruence.
Qed.

(** C10. A single corrupted character never reaches the PDU decoder: an ASCII
    ADU in which one character was replaced by another, other than by the same
    hexadecimal digit in the other case, is rejected (FR-R-115, FR-ADU-R-004). *)
Theorem ascii_single_char_corruption h pdu pre a b post :
  wf h → is_pdu pdu → ascii_adu h pdu = pre ++ a :: post → is_u8 b → upper b ≠ a →
  ∃ e, Ascii_split (pre ++ b :: post) = Err e.
Proof.
  intros Hh Hp Hadu Hb Hne. pose proof (Ascii_split_total (pre ++ b :: post)) as Ht.
  destruct (Ascii_split (pre ++ b :: post)) as [[h' pdu']|e|] eqn:E; [exfalso|eauto|done].
  destruct (ascii_adu_bounds h pdu Hh Hp) as [Hok _]. rewrite Hadu in Hok.
  apply bytes_ok_app_inv in Hok as [Hpre [Ha Hpost]%bytes_ok_cons_inv].
  apply Ascii_split_inv in E as (Hs & Hh' & Hp'); [|auto with bytes].
  unfold same_case in Hs. rewrite fmap_app, fmap_cons in Hs.
  pose proof (ascii_adu_upper h pdu Hh Hp) as Hup. rewrite Hadu in Hup at 1.
  rewrite fmap_app, fmap_cons in Hup. rewrite Hadu in Hup.
  apply app_inj_1 in Hup as [Hup1 Hup2]; [|by rewrite length_fmap].
  injection Hup2 as Hup2 Hup3. rewrite Hup1, Hup3 in Hs.
  destruct Hp as [Hpb Hpl], Hp' as [Hpb' Hpl'].
  assert (bytes_ok (with_lrc (unit_id_0 h :: pdu))) as Hx by (apply with_lrc_ok; auto with bytes).
  assert (bytes_ok (with_lrc (unit_id_0 h' :: pdu'))) as Hy by (apply with_lrc_ok; auto with bytes).
  apply Hne. symmetry. unfold ascii_adu in Hadu, Hs. destruct pre as [|p pre].
  - injection Hadu as <- _. injection Hs as <- _. done.
  - injection Hadu as _ Hadu. injection Hs as _ Hs.
    apply (ascii_codewords_distance _ _ pre _ _ post Hx Hy); auto using with_lrc_sum.
Qed.

(** A Read Holding Registers request to unit 17 whose function code digit was
    altered. *)
Lemma ascii_single_char_corruption_witness :
  ∃ e, Ascii_split ([58; 49; 49; 48] ++ 52 :: [48; 48; 54; 66; 48; 48; 48; 51; 55; 69; 13; 10])
       = Err e.
Proof.
  apply (ascii_single_char_corruption (mkUnitId 17) [3; 0; 107; 0; 3] [58; 49; 49; 48] 51).
  - vm_compute. split; intros [=].
  - split; [repeat constructor; vm_compute; intros [=]|vm_compute; split; intros [=]].
  - vm_compute. reflexivity.
  - vm_compute. split; intros [=].
  - vm_compute. intros [=].
Defined.
