(* ===== verification/Tests.v ===== *)
(** * Running the crate's unit tests on the model

    A test of the crate is a function that returns or panics.  Here it is a
    [Result unit]: an assertion that fails, or an [expect] of an error, is
    [Panic], and a test passes when it returns [Ok tt].  The files [*Tests.v] hold
    the unit tests of the source files under their own names, written over the
    definitions of the model in the place of the functions of the crate. *)

From S2P Require Import Prelude.
From S2P Require Import Errors.

(** [assert_eq!], [assert_ne!], [assert!]. *)
Definition assert_eq {A} `{EqDecision A} (left_ right_ : A) : Result unit :=
  if decide (left_ = right_) then Ok tt else Panic.
Definition assert_ne {A} `{EqDecision A} (left_ right_ : A) : Result unit :=
  if decide (left_ = right_) then Panic else Ok tt.
Definition assert (b : bool) : Result unit := if b then Ok tt else Panic.

(** [Result::expect] and [Result::expect_err] in a test. *)
Definition unwrap {A} (r : Result A) : Result A :=
  match r with Ok a => Ok a | _ => Panic end.
Definition unwrap_err {A} (r : Result A) : Result Error :=
  match r with Err e => Ok e | _ => Panic end.

(** [for x in xs { .. }]. *)
Fixpoint for_each {A} (xs : list A) (body : A → Result unit) : Result unit :=
  match xs with [] => Ok tt | x :: xs' => body x;; for_each xs' body end.

(** The range [lo..=hi], the two bytes of [u16::to_be_bytes], [slice::swap] and a
    byte string. *)
Definition upto (lo hi : Z) : list Z := seqZ lo (hi - lo + 1).
Definition be_bytes (v : Z) : Z * Z := (Z.shiftr v 8, Z.land v 0xFF).
Definition swap (i j : nat) (bs : list Z) : list Z :=
  match bs !! i, bs !! j with
  | Some x, Some y => <[i := y]> (<[j := x]> bs)
  | _, _ => bs
  end.
Definition ascii_bytes (text : string) : list Z :=
  (λ c, Z.of_nat (Ascii.nat_of_ascii c)) <$> String.list_ascii_of_string text.

Definition passes (test : Result unit) : Prop := test = Ok tt.

#[export] Instance passes_dec test : Decision (passes test) := _.

(** [run_tests]: a list of tests passes when each of them, run, returns. *)
Ltac run_tests := apply (bool_decide_unpack _); vm_compute; exact I.
