(* ===== verification/PduTests.v ===== *)
(** * Unit tests of the PDU codec ([src/frame/pdu.rs], [mod tests])

    Every test of the file, run on the model: the worked examples of the Modbus
    specification in both directions, the limits of every quantity, and every
    error the codec reports. *)

From S2P Require Import Prelude.
From S2P Require Import Errors.
From S2P Require Import Tests.
From S2P Require Import Parse.
From S2P Require Import Value.
From S2P Require Import Function.
From S2P Require Import Exception.
From S2P Require Import Diagnostics.
From S2P Require Import Wire.
From S2P Require Import Mei.
From S2P Require Import FileRecord.
From S2P Require Import Pdu.

Section tests.
Local Existing Instance winnow_model.

(** FR-R-016 *)
Definition ut_request_reports_its_function : Result unit :=
  request ← unwrap (RequestPdu_decode [0x03; 0x00; 0x6B; 0x00; 0x03]);
  assert_eq (RequestPdu_function request) FC_ReadHoldingRegisters;;
  assert_eq (RequestPdu_function (Req_Custom 0x65 [])) (FC_Custom 0x65).

(** FR-R-016 *)
Definition ut_response_reports_its_function : Result unit :=
  response ← unwrap (ResponsePdu_decode [0x83; 0x02]);
  assert_eq (ResponsePdu_function response) FC_ReadHoldingRegisters;;
  assert_eq (ResponsePdu_function (Resp_ReadCoils [true])) FC_ReadCoils.

(** FR-R-160 *)
Definition ut_boundary_addresses_valid_in_every_table : Result unit :=
  for_each [(0, 0x00, 0x00); (0xFFFF, 0xFF, 0xFF)] (λ '(raw, hi, lo),
    let address := mkAddress raw in
    let one := mkQuantity 1 in
    let cases := [(Req_ReadCoils address one, [0x01; hi; lo; 0x00; 0x01]);
        (Req_ReadDiscreteInputs address one, [0x02; hi; lo; 0x00; 0x01]);
        (Req_ReadHoldingRegisters address one, [0x03; hi; lo; 0x00; 0x01]);
        (Req_ReadInputRegisters address one, [0x04; hi; lo; 0x00; 0x01]);
        (Req_WriteSingleCoil address true, [0x05; hi; lo; 0xFF; 0x00]);
        (Req_WriteSingleRegister address (mkRegisterValue 0x1234), [0x06; hi; lo; 0x12; 0x34]);
        (Req_WriteMultipleCoils address [true], [0x0F; hi; lo; 0x00; 0x01; 0x01; 0x01]);
        (Req_WriteMultipleRegisters address [mkRegisterValue 0x1234], [0x10; hi; lo; 0x00; 0x01;
        0x02; 0x12; 0x34])] in
    for_each cases (λ '(request, bytes),
      assert_eq (RequestPdu_encode request) (Ok bytes);;
      assert_eq (RequestPdu_decode bytes) (Ok request))).

Definition spec_example_coils : list bool :=
  [0xCD; 0x6B; 0x05] ≫= λ byte,
    (λ bit, negb (Z.land byte (Z.shiftl 1 bit) =? 0)) <$> upto 0 7.

Definition every_pdu : (list RequestPdu) * (list ResponsePdu) :=
  let requests := [Req_ReadCoils (mkAddress 0x0013) (mkQuantity 0x0013); Req_ReadDiscreteInputs
      (mkAddress 0x00C4) (mkQuantity 0x0016); Req_ReadHoldingRegisters (mkAddress 0x006B)
      (mkQuantity 3); Req_ReadInputRegisters (mkAddress 8) (mkQuantity 1); Req_WriteSingleCoil
      (mkAddress 0x00AC) true; Req_WriteSingleRegister (mkAddress 1) (mkRegisterValue 3);
      Req_ReadExceptionStatus; Req_Diagnostics DS_ReturnQueryData [0xA5; 0x37];
      Req_GetCommEventCounter; Req_GetCommEventLog; Req_WriteMultipleCoils (mkAddress 0x0013)
      [true; false; true; true; false; false; true; true; true; false]; Req_WriteMultipleRegisters
      (mkAddress 1) [mkRegisterValue 0x000A; mkRegisterValue 0x0102]; Req_ReportServerId;
      Req_ReadFileRecord [mkFileRecordRead (mkFileNumber 4) (mkRecordNumber 1)
      (mkRecordLength 2)]; Req_WriteFileRecord [mkFileRecordWrite (mkFileNumber 4)
      (mkRecordNumber 7) [mkRegisterValue 0x06AF; mkRegisterValue 0x04BE]]; Req_MaskWriteRegister
      (mkAddress 4) (mkMask 0x00F2) (mkMask 0x0025); Req_ReadWriteMultipleRegisters (mkAddress 3)
      (mkQuantity 6) (mkAddress 0x000E) [mkRegisterValue 0x00FF; mkRegisterValue 0x00FF];
      Req_ReadFifoQueue (mkAddress 0x04DE); Req_EncapsulatedInterfaceTransport
      (MeiReq_ReadDeviceIdentification RDI_Basic 0x00); Req_Custom 0x65 [0x01; 0x02]] in
  let responses := [Resp_ReadCoils spec_example_coils; Resp_ReadDiscreteInputs
      (replicate 8%nat true); Resp_ReadHoldingRegisters [mkRegisterValue 0x022B; mkRegisterValue
      0x0000]; Resp_ReadInputRegisters [mkRegisterValue 0x000A]; Resp_WriteSingleCoil
      (mkAddress 0x00AC) true; Resp_WriteSingleRegister (mkAddress 1) (mkRegisterValue 3);
      Resp_ReadExceptionStatus (mkExceptionStatus 0x6D); Resp_Diagnostics DS_ReturnQueryData
      [0xA5; 0x37]; Resp_GetCommEventCounter 0xFFFF 0x0108; Resp_GetCommEventLog 0x0000 0x0108
      0x0121 [0x20; 0x00]; Resp_WriteMultipleCoils (mkAddress 0x0013) (mkQuantity 10);
      Resp_WriteMultipleRegisters (mkAddress 1) (mkQuantity 2); Resp_ReportServerId
      [0x11; 0xFF; 0xAB]; Resp_ReadFileRecord [mkFileRecordReadResponse [mkRegisterValue 0x0DFE;
      mkRegisterValue 0x0020; mkRegisterValue 0x33CD]]; Resp_WriteFileRecord
      [mkFileRecordWrite (mkFileNumber 4) (mkRecordNumber 7) [mkRegisterValue 0x06AF]];
      Resp_MaskWriteRegister (mkAddress 4) (mkMask 0x00F2) (mkMask 0x0025);
      Resp_ReadWriteMultipleRegisters [mkRegisterValue 0x00FE; mkRegisterValue 0x0ACD];
      Resp_ReadFifoQueue [mkRegisterValue 0x01B8; mkRegisterValue 0x1284];
      Resp_EncapsulatedInterfaceTransport (MeiResp_ReadDeviceIdentification RDI_Basic 0x01 false
      0x00 [mkDeviceIdObject 0x00 [0x41]]); Resp_Custom 0x65 [0x01; 0x02]; Resp_Exception
      (mkExceptionResponse FC_ReadHoldingRegisters EC_IllegalDataAddress)] in
  (requests, responses).

(** FR-R-156 *)
Definition ut_encode_into_matches_encode : Result unit :=
  let '(requests, responses) := every_pdu in
  for_each requests (λ request,
    let out := [] in
    let '(r1, out) := RequestPdu_encode_into request out in
    _ ← unwrap r1;
    assert_eq (Ok out) (RequestPdu_encode request));;
  for_each responses (λ response,
    let out := [] in
    let '(r2, out) := ResponsePdu_encode_into response out in
    _ ← unwrap r2;
    assert_eq (Ok out) (ResponsePdu_encode response)).

(** FR-R-140, FR-E-016 *)
Definition ut_encode_into_appends_after_existing_contents : Result unit :=
  let request := Req_ReadHoldingRegisters (mkAddress 0x006B) (mkQuantity 3) in
  let out := [0xDE; 0xAD] in
  let '(r1, out) := RequestPdu_encode_into request out in
  _ ← unwrap r1;
  assert_eq out [0xDE; 0xAD; 0x03; 0x00; 0x6B; 0x00; 0x03].

(** FR-R-142, FR-E-015 *)
Definition ut_failed_encode_into_restores_the_buffer : Result unit :=
  let out := [0xDE; 0xAD] in
  let before := out in
  let request := Req_ReadHoldingRegisters (mkAddress 0) (mkQuantity 126) in
  let '(r1, out) := RequestPdu_encode_into request out in
  assert (is_err r1);;
  assert_eq out before;;
  let response := Resp_ReadHoldingRegisters (replicate 126%nat (mkRegisterValue 0)) in
  let '(r2, out) := ResponsePdu_encode_into response out in
  assert (is_err r2);;
  assert_eq out before.

(** FR-R-001 *)
Definition ut_pdu_is_a_function_code_then_its_body : Result unit :=
  v1 ← unwrap (RequestPdu_encode (Req_ReadHoldingRegisters (mkAddress 107) (mkQuantity 3)));
  v2 ← unwrap (RequestPdu_encode (Req_WriteSingleRegister (mkAddress 1) (mkRegisterValue 3)));
  v3 ← unwrap (RequestPdu_encode Req_ReportServerId);
  v4 ← unwrap (ResponsePdu_encode (Resp_ReadHoldingRegisters
    [mkRegisterValue 0x022B; mkRegisterValue 0x0000; mkRegisterValue 0x0064]));
  let cases := [(v1, 0x03, [0x00; 0x6B; 0x00; 0x03]); (v2, 0x06, [0x00; 0x01; 0x00; 0x03]);
    (v3, 0x11, []); (v4, 0x03, [0x06; 0x02; 0x2B; 0x00; 0x00; 0x00; 0x64])] in
  for_each cases (λ '(encoded, code, body),
    match encoded with
    | first :: rest => assert_eq first code;; assert_eq rest body
    | [] => Panic
    end).

(** FR-R-020 *)
Definition ut_read_coils_request_bytes : Result unit :=
  let request := Req_ReadCoils (mkAddress 19) (mkQuantity 19) in
  let bytes := [0x01; 0x00; 0x13; 0x00; 0x13] in
  assert_eq (RequestPdu_encode request) (Ok bytes);;
  assert_eq (RequestPdu_decode bytes) (Ok request).

(** FR-R-023 *)
Definition ut_read_coils_response_bit_packing : Result unit :=
  let bytes := [0x01; 0x03; 0xCD; 0x6B; 0x05] in
  let response := Resp_ReadCoils spec_example_coils in
  assert_eq (ResponsePdu_decode bytes) (Ok response);;
  assert_eq (ResponsePdu_encode response) (Ok bytes);;
  let coils := spec_example_coils in
  assert_eq (head coils) (Some true);;
  assert_eq (coils !! 1%nat) (Some false).

(** FR-R-044, FR-DA-E-004 *)
Definition ut_bit_response_yields_byte_count_times_eight : Result unit :=
  let decoded := ResponsePdu_decode [0x01; 0x03; 0xCD; 0x6B; 0x05] in
  v1 ← unwrap decoded;
  match v1 with
  | Resp_ReadCoils coils =>
  assert_eq (len coils) 24
  | _ => Panic
  end.

(** FR-R-020 *)
Definition ut_read_discrete_inputs_spec_example : Result unit :=
  let request := Req_ReadDiscreteInputs (mkAddress 196) (mkQuantity 22) in
  let request_bytes := [0x02; 0x00; 0xC4; 0x00; 0x16] in
  assert_eq (RequestPdu_encode request) (Ok request_bytes);;
  assert_eq (RequestPdu_decode request_bytes) (Ok request);;
  let response_bytes := [0x02; 0x03; 0xAC; 0xDB; 0x35] in
  decoded ← unwrap (ResponsePdu_decode response_bytes);
  assert_eq (ResponsePdu_encode decoded) (Ok response_bytes).

(** FR-R-025 *)
Definition ut_read_holding_registers_spec_example : Result unit :=
  let request := Req_ReadHoldingRegisters (mkAddress 107) (mkQuantity 3) in
  let request_bytes := [0x03; 0x00; 0x6B; 0x00; 0x03] in
  assert_eq (RequestPdu_encode request) (Ok request_bytes);;
  assert_eq (RequestPdu_decode request_bytes) (Ok request);;
  let response := Resp_ReadHoldingRegisters [mkRegisterValue 0x022B; mkRegisterValue 0x0000;
      mkRegisterValue 0x0064] in
  let response_bytes := [0x03; 0x06; 0x02; 0x2B; 0x00; 0x00; 0x00; 0x64] in
  assert_eq (ResponsePdu_encode response) (Ok response_bytes);;
  assert_eq (ResponsePdu_decode response_bytes) (Ok response).

(** FR-R-025 *)
Definition ut_read_input_registers_spec_example : Result unit :=
  let request := Req_ReadInputRegisters (mkAddress 8) (mkQuantity 1) in
  let request_bytes := [0x04; 0x00; 0x08; 0x00; 0x01] in
  assert_eq (RequestPdu_encode request) (Ok request_bytes);;
  assert_eq (RequestPdu_decode request_bytes) (Ok request);;
  let response := Resp_ReadInputRegisters [mkRegisterValue 0x000A] in
  let response_bytes := [0x04; 0x02; 0x00; 0x0A] in
  assert_eq (ResponsePdu_encode response) (Ok response_bytes);;
  assert_eq (ResponsePdu_decode response_bytes) (Ok response).

(** FR-R-026 *)
Definition ut_write_single_coil_spec_example : Result unit :=
  let request := Req_WriteSingleCoil (mkAddress 172) true in
  let bytes := [0x05; 0x00; 0xAC; 0xFF; 0x00] in
  assert_eq (RequestPdu_encode request) (Ok bytes);;
  assert_eq (RequestPdu_decode bytes) (Ok request);;
  let response := Resp_WriteSingleCoil (mkAddress 172) true in
  assert_eq (ResponsePdu_encode response) (Ok bytes);;
  assert_eq (ResponsePdu_decode bytes) (Ok response).

(** FR-R-026 *)
Definition ut_write_single_coil_off : Result unit :=
  let request := Req_WriteSingleCoil (mkAddress 172) false in
  let bytes := [0x05; 0x00; 0xAC; 0x00; 0x00] in
  assert_eq (RequestPdu_encode request) (Ok bytes);;
  assert_eq (RequestPdu_decode bytes) (Ok request).

(** FR-R-027, FR-DA-E-006 *)
Definition ut_write_single_coil_value_illegal : Result unit :=
  for_each [0x0001; 0x00FF; 0xFF01; 0xFFFF] (λ value,
    let '(hi, lo) := be_bytes value in
    let expected := IllegalValue "coil value" value in
    assert_eq (RequestPdu_decode [0x05; 0x00; 0xAC; hi; lo]) (Err expected);;
    assert_eq (ResponsePdu_decode [0x05; 0x00; 0xAC; hi; lo]) (Err expected)).

(** FR-R-028 *)
Definition ut_write_single_register_spec_example : Result unit :=
  let request := Req_WriteSingleRegister (mkAddress 1) (mkRegisterValue 3) in
  let bytes := [0x06; 0x00; 0x01; 0x00; 0x03] in
  assert_eq (RequestPdu_encode request) (Ok bytes);;
  assert_eq (RequestPdu_decode bytes) (Ok request);;
  for_each [0x0000; 0x00FF; 0xFF00; 0xFFFF] (λ value,
    let '(hi, lo) := be_bytes value in
    assert_eq (RequestPdu_decode [0x06; 0x00; 0x01; hi; lo])
        (Ok (Req_WriteSingleRegister (mkAddress 1) (mkRegisterValue value)))).

(** FR-R-021, FR-DA-E-002 *)
Definition ut_coil_quantity_out_of_range : Result unit :=
  for_each [0; 2001; 65535] (λ quantity,
    let expected := OutOfRange "quantity" quantity 1 2000 in
    assert_eq (RequestPdu_encode (Req_ReadCoils (mkAddress 0) (mkQuantity quantity)))
        (Err expected);;
    let '(hi, lo) := be_bytes quantity in
    assert_eq (RequestPdu_decode [0x01; 0x00; 0x00; hi; lo]) (Err expected)).

(** FR-R-022, FR-DA-E-002 *)
Definition ut_register_quantity_out_of_range : Result unit :=
  for_each [0; 126; 2000] (λ quantity,
    let expected := OutOfRange "quantity" quantity 1 125 in
    assert_eq (RequestPdu_encode (Req_ReadHoldingRegisters (mkAddress 0) (mkQuantity quantity)))
        (Err expected);;
    let '(hi, lo) := be_bytes quantity in
    assert_eq (RequestPdu_decode [0x03; 0x00; 0x00; hi; lo]) (Err expected)).

(** FR-R-043, FR-DA-E-001 *)
Definition ut_byte_count_mismatch : Result unit :=
  assert_eq (ResponsePdu_decode [0x03; 0x06; 0x02; 0x2B; 0x00; 0x00])
      (Err (ByteCountMismatch 6 4));;
  assert_eq (ResponsePdu_decode [0x01; 0x03; 0xCD; 0x6B]) (Err (ByteCountMismatch 3 2)).

(** FR-R-046, FR-DA-E-003 *)
Definition ut_register_response_byte_count_must_be_even : Result unit :=
  assert_eq (ResponsePdu_decode [0x03; 0x03; 0x02; 0x2B; 0x00])
      (Err (IllegalValue "byte count" 3)).

(** FR-R-002 *)
Definition ut_pdu_exceeding_max_is_rejected : Result unit :=
  let response := Resp_ReadHoldingRegisters (replicate 126%nat (mkRegisterValue 0)) in
  assert_eq (ResponsePdu_encode response) (Err (PduTooLarge 254 MAX_PDU_LEN)).

(** FR-R-002 *)
Definition ut_max_size_pdu_is_accepted : Result unit :=
  let response := Resp_ReadHoldingRegisters (replicate 125%nat (mkRegisterValue 0)) in
  bytes ← unwrap (ResponsePdu_encode response);
  assert_eq (len bytes) 252.

(** FR-R-006 *)
Definition ut_oversized_pdu_does_not_decode : Result unit :=
  let bytes := [0x09] in
  let bytes := bytes ++ (replicate (Z.to_nat MAX_PDU_LEN) 0x00) in
  let expected := PduTooLarge 254 MAX_PDU_LEN in
  assert_eq (RequestPdu_decode bytes) (Err expected);;
  assert_eq (ResponsePdu_decode bytes) (Err expected).

(** FR-R-131, FR-E-002 *)
Definition ut_truncated_request_is_reported : Result unit :=
  assert_eq (RequestPdu_decode [0x01; 0x00; 0x13; 0x00]) (Err (Truncated 5 4)).

(** FR-R-132, FR-E-003 *)
Definition ut_trailing_bytes_are_rejected : Result unit :=
  assert_eq (RequestPdu_decode [0x01; 0x00; 0x13; 0x00; 0x13; 0xFF]) (Err (TrailingBytes 1)).

(** FR-R-081, FR-E-009 *)
Definition ut_response_decodes_exception : Result unit :=
  assert_eq (ResponsePdu_decode [0x83; 0x02])
      (Ok (Resp_Exception (mkExceptionResponse FC_ReadHoldingRegisters EC_IllegalDataAddress)));;
  assert_eq (ResponsePdu_decode [Z.lor 0x80 100; 0x0B])
      (Ok (Resp_Exception (mkExceptionResponse (FC_Custom 100)
      EC_GatewayTargetDeviceFailedToRespond))).

(** FR-R-030 *)
Definition ut_write_multiple_coils_spec_example : Result unit :=
  let coils := [true; false; true; true; false; false; true; true; true; false] in
  let request := Req_WriteMultipleCoils (mkAddress 19) coils in
  let request_bytes := [0x0F; 0x00; 0x13; 0x00; 0x0A; 0x02; 0xCD; 0x01] in
  assert_eq (RequestPdu_encode request) (Ok request_bytes);;
  assert_eq (RequestPdu_decode request_bytes) (Ok request);;
  let response := Resp_WriteMultipleCoils (mkAddress 19) (mkQuantity 10) in
  let response_bytes := [0x0F; 0x00; 0x13; 0x00; 0x0A] in
  assert_eq (ResponsePdu_encode response) (Ok response_bytes);;
  assert_eq (ResponsePdu_decode response_bytes) (Ok response).

(** FR-R-030 *)
Definition ut_write_multiple_coils_honours_quantity : Result unit :=
  let decoded := RequestPdu_decode [0x0F; 0x00; 0x13; 0x00; 0x0A; 0x02; 0xCD; 0x01] in
  let coils := match decoded with | (Ok (Req_WriteMultipleCoils _ coils)) => coils | _ => [] end
      in
  assert_eq (len coils) 10.

(** FR-R-031 *)
Definition ut_write_multiple_coils_quantity_out_of_range : Result unit :=
  for_each [0; 1969; 2000] (λ quantity,
    let expected := OutOfRange "quantity" quantity 1 1968 in
    assert_eq (RequestPdu_encode (Req_WriteMultipleCoils (mkAddress 0)
        (replicate (Z.to_nat quantity) false))) (Err expected)).

(** FR-R-032 *)
Definition ut_write_multiple_registers_spec_example : Result unit :=
  let request := Req_WriteMultipleRegisters (mkAddress 1) [mkRegisterValue 0x000A; mkRegisterValue
      0x0102] in
  let request_bytes := [0x10; 0x00; 0x01; 0x00; 0x02; 0x04; 0x00; 0x0A; 0x01; 0x02] in
  assert_eq (RequestPdu_encode request) (Ok request_bytes);;
  assert_eq (RequestPdu_decode request_bytes) (Ok request);;
  let response := Resp_WriteMultipleRegisters (mkAddress 1) (mkQuantity 2) in
  let response_bytes := [0x10; 0x00; 0x01; 0x00; 0x02] in
  assert_eq (ResponsePdu_encode response) (Ok response_bytes);;
  assert_eq (ResponsePdu_decode response_bytes) (Ok response).

(** FR-R-033 *)
Definition ut_write_multiple_registers_quantity_out_of_range : Result unit :=
  for_each [0; 124; 125] (λ quantity,
    let expected := OutOfRange "quantity" quantity 1 123 in
    assert_eq (RequestPdu_encode (Req_WriteMultipleRegisters (mkAddress 0)
        (replicate (Z.to_nat quantity) (mkRegisterValue 0)))) (Err expected)).

(** FR-R-035, FR-DA-R-001 *)
Definition ut_mask_write_register_spec_example : Result unit :=
  let request := Req_MaskWriteRegister (mkAddress 4) (mkMask 0x00F2) (mkMask 0x0025) in
  let bytes := [0x16; 0x00; 0x04; 0x00; 0xF2; 0x00; 0x25] in
  assert_eq (RequestPdu_encode request) (Ok bytes);;
  assert_eq (RequestPdu_decode bytes) (Ok request);;
  let response := Resp_MaskWriteRegister (mkAddress 4) (mkMask 0x00F2) (mkMask 0x0025) in
  assert_eq (ResponsePdu_encode response) (Ok bytes);;
  assert_eq (ResponsePdu_decode bytes) (Ok response).

(** FR-R-036 *)
Definition ut_mask_write_result_formula : Result unit :=
  assert_eq (mask_write_result (mkRegisterValue 0x0012) (mkMask 0x00F2) (mkMask 0x0025))
      (mkRegisterValue 0x0017);;
  assert_eq (mask_write_result (mkRegisterValue 0xABCD) (mkMask 0xFFFF) (mkMask 0x1234))
      (mkRegisterValue 0xABCD);;
  assert_eq (mask_write_result (mkRegisterValue 0xABCD) (mkMask 0x0000) (mkMask 0x1234))
      (mkRegisterValue 0x1234).

(** FR-R-037 *)
Definition ut_read_write_multiple_registers_spec_example : Result unit :=
  let request := Req_ReadWriteMultipleRegisters (mkAddress 4) (mkQuantity 6) (mkAddress 15)
      [mkRegisterValue 0x00FF; mkRegisterValue 0x00FF; mkRegisterValue 0x00FF] in
  let request_bytes := [0x17; 0x00; 0x04; 0x00; 0x06; 0x00; 0x0F; 0x00; 0x03; 0x06; 0x00; 0xFF;
      0x00; 0xFF; 0x00; 0xFF] in
  assert_eq (RequestPdu_encode request) (Ok request_bytes);;
  assert_eq (RequestPdu_decode request_bytes) (Ok request);;
  let response := Resp_ReadWriteMultipleRegisters [mkRegisterValue 0x00FE; mkRegisterValue 0x0ACD;
      mkRegisterValue 0x0001; mkRegisterValue 0x0003; mkRegisterValue 0x000D; mkRegisterValue
      0x00FF] in
  let response_bytes := [0x17; 0x0C; 0x00; 0xFE; 0x0A; 0xCD; 0x00; 0x01; 0x00; 0x03; 0x00; 0x0D;
      0x00; 0xFF] in
  assert_eq (ResponsePdu_encode response) (Ok response_bytes);;
  assert_eq (ResponsePdu_decode response_bytes) (Ok response).

(** FR-R-038 *)
Definition ut_read_write_multiple_registers_quantities_out_of_range : Result unit :=
  assert_eq (RequestPdu_encode (Req_ReadWriteMultipleRegisters (mkAddress 0) (mkQuantity 126)
      (mkAddress 0) (replicate 1%nat (mkRegisterValue 0))))
      (Err (OutOfRange "read quantity" 126 1 125));;
  assert_eq (RequestPdu_encode (Req_ReadWriteMultipleRegisters (mkAddress 0) (mkQuantity 1)
      (mkAddress 0) (replicate 122%nat (mkRegisterValue 0))))
      (Err (OutOfRange "write quantity" 122 1 121)).

(** FR-R-040 *)
Definition ut_read_fifo_queue_spec_example : Result unit :=
  let request := Req_ReadFifoQueue (mkAddress 0x04DE) in
  let request_bytes := [0x18; 0x04; 0xDE] in
  assert_eq (RequestPdu_encode request) (Ok request_bytes);;
  assert_eq (RequestPdu_decode request_bytes) (Ok request);;
  let response := Resp_ReadFifoQueue [mkRegisterValue 0x01B8; mkRegisterValue 0x1284] in
  let response_bytes := [0x18; 0x00; 0x06; 0x00; 0x02; 0x01; 0xB8; 0x12; 0x84] in
  assert_eq (ResponsePdu_encode response) (Ok response_bytes);;
  assert_eq (ResponsePdu_decode response_bytes) (Ok response).

(** FR-R-041 *)
Definition ut_read_fifo_queue_byte_count_includes_count_field : Result unit :=
  assert_eq (ResponsePdu_decode [0x18; 0x00; 0x04; 0x00; 0x02; 0x01; 0xB8; 0x12; 0x84])
      (Err (ByteCountMismatch 6 4)).

(** FR-R-042, FR-DA-E-007 *)
Definition ut_read_fifo_queue_count_above_31_rejected : Result unit :=
  assert_eq (ResponsePdu_decode [0x18; 0x00; 0x42; 0x00; 0x20])
      (Err (OutOfRange "FIFO count" 32 0 31)).

(** FR-R-047, FR-DA-E-005 *)
Definition ut_write_multiple_coils_rejects_nonzero_padding : Result unit :=
  assert_eq (RequestPdu_decode [0x0F; 0x00; 0x13; 0x00; 0x0A; 0x02; 0xCD; 0xFD])
      (Err (IllegalValue "coil padding" 0xFD)).

(** FR-R-050 *)
Definition ut_read_file_record_spec_example : Result unit :=
  let bytes := [0x14; 0x0E; 0x06; 0x00; 0x04; 0x00; 0x01; 0x00; 0x02; 0x06; 0x00; 0x03; 0x00;
      0x09; 0x00; 0x02] in
  let expected := Req_ReadFileRecord [mkFileRecordRead (mkFileNumber 4) (mkRecordNumber 1)
      (mkRecordLength 2); mkFileRecordRead (mkFileNumber 3) (mkRecordNumber 9) (mkRecordLength 2)]
      in
  assert_eq (RequestPdu_decode bytes) (Ok expected);;
  assert_eq (RequestPdu_encode expected) (Ok bytes).

(** FR-R-052 *)
Definition ut_read_file_record_response_spec_example : Result unit :=
  let bytes := [0x14; 0x0C; 0x05; 0x06; 0x0D; 0xFE; 0x00; 0x20; 0x05; 0x06; 0x33; 0xCD; 0x00;
      0x40] in
  let expected := Resp_ReadFileRecord [mkFileRecordReadResponse [mkRegisterValue 0x0DFE;
      mkRegisterValue 0x0020]; mkFileRecordReadResponse [mkRegisterValue 0x33CD; mkRegisterValue
      0x0040]] in
  assert_eq (ResponsePdu_decode bytes) (Ok expected);;
  assert_eq (ResponsePdu_encode expected) (Ok bytes).

(** FR-R-053, FR-DA-R-003 *)
Definition ut_write_file_record_spec_example : Result unit :=
  let bytes := [0x15; 0x0D; 0x06; 0x00; 0x04; 0x00; 0x07; 0x00; 0x03; 0x06; 0xAF; 0x04; 0xBE;
      0x10; 0x0D] in
  let records := [mkFileRecordWrite (mkFileNumber 4) (mkRecordNumber 7) [mkRegisterValue 0x06AF;
      mkRegisterValue 0x04BE; mkRegisterValue 0x100D]] in
  let request := Req_WriteFileRecord records in
  let response := Resp_WriteFileRecord records in
  assert_eq (RequestPdu_decode bytes) (Ok request);;
  assert_eq (RequestPdu_encode request) (Ok bytes);;
  assert_eq (ResponsePdu_decode bytes) (Ok response);;
  assert_eq (ResponsePdu_encode response) (Ok bytes).

(** FR-R-051, FR-DA-E-009 *)
Definition ut_read_file_record_byte_count_out_of_range : Result unit :=
  assert_eq (RequestPdu_decode [0x14; 0x00]) (Err (OutOfRange "request byte count" 0 7 245)).

(** FR-DA-R-002, FR-DA-E-010 *)
Definition ut_read_file_record_byte_count_not_multiple_of_seven : Result unit :=
  assert_eq (RequestPdu_decode [0x14; 0x08; 0x06; 0x00; 0x04; 0x00; 0x01; 0x00; 0x02; 0x00])
      (Err (IllegalValue "request byte count" 8)).

(** FR-R-055, FR-DA-E-008 *)
Definition ut_file_record_reference_type_must_be_six : Result unit :=
  assert_eq (RequestPdu_decode [0x14; 0x07; 0x07; 0x00; 0x04; 0x00; 0x01; 0x00; 0x02])
      (Err (ReferenceType 7));;
  assert_eq (ResponsePdu_decode [0x14; 0x07; 0x05; 0x05; 0x0D; 0xFE; 0x00; 0x20; 0x00])
      (Err (ReferenceType 5)).

(** FR-R-057, FR-DA-E-011 *)
Definition ut_file_response_length_must_cover_whole_registers : Result unit :=
  assert_eq (ResponsePdu_decode [0x14; 0x07; 0x06; 0x06; 0x0D; 0xFE; 0x00; 0x20; 0x00])
      (Err (IllegalValue "file response length" 6)).

(** FR-R-054 *)
Definition ut_write_file_record_data_length_out_of_range : Result unit :=
  assert_eq (RequestPdu_decode [0x15; 0x07; 0x06; 0x00; 0x04; 0x00; 0x07; 0x00; 0x00])
      (Err (OutOfRange "request data length" 7 9 251));;
  assert_eq (RequestPdu_decode [0x15; 0xFC]) (Err (OutOfRange "request data length" 252 9 251)).

(** FR-R-056, FR-R-058, FR-DA-E-012 *)
Definition ut_file_and_record_numbers_out_of_range : Result unit :=
  let file_zero := OutOfRange "file number" 0 1 U16_MAX in
  assert_eq (RequestPdu_decode [0x14; 0x07; 0x06; 0x00; 0x00; 0x00; 0x01; 0x00; 0x02])
      (Err file_zero);;
  assert_eq (RequestPdu_encode (Req_ReadFileRecord [mkFileRecordRead (mkFileNumber 0)
      (mkRecordNumber 1) (mkRecordLength 2)])) (Err file_zero);;
  let record_high := OutOfRange "record number" 10000 0 9999 in
  assert_eq (RequestPdu_decode [0x14; 0x07; 0x06; 0x00; 0x04; 0x27; 0x10; 0x00; 0x02])
      (Err record_high);;
  assert_eq (RequestPdu_encode (Req_ReadFileRecord [mkFileRecordRead (mkFileNumber 4)
      (mkRecordNumber 10000) (mkRecordLength 2)])) (Err record_high).

(** FR-R-052, FR-R-131, FR-DA-E-013 *)
Definition ut_file_record_sub_item_may_not_overrun_its_region : Result unit :=
  assert_eq (ResponsePdu_decode [0x14; 0x08; 0x0B; 0x06; 0x0D; 0xFE; 0x00; 0x20; 0x00; 0x00])
      (Err (Truncated 12 8)).

(** FR-R-060 *)
Definition ut_read_exception_status_spec_example : Result unit :=
  assert_eq (RequestPdu_decode [0x07]) (Ok Req_ReadExceptionStatus);;
  assert_eq (RequestPdu_encode Req_ReadExceptionStatus) (Ok [0x07]);;
  let response := Resp_ReadExceptionStatus (mkExceptionStatus 0x6D) in
  assert_eq (ResponsePdu_decode [0x07; 0x6D]) (Ok response);;
  assert_eq (ResponsePdu_encode response) (Ok [0x07; 0x6D]).

(** FR-R-061 *)
Definition ut_diagnostics_spec_example : Result unit :=
  let bytes := [0x08; 0x00; 0x00; 0xA5; 0x37] in
  let request := Req_Diagnostics DS_ReturnQueryData [0xA537] in
  let response := Resp_Diagnostics DS_ReturnQueryData [0xA537] in
  assert_eq (RequestPdu_decode bytes) (Ok request);;
  assert_eq (RequestPdu_encode request) (Ok bytes);;
  assert_eq (ResponsePdu_decode bytes) (Ok response);;
  assert_eq (ResponsePdu_encode response) (Ok bytes).

(** FR-R-061 *)
Definition ut_diagnostics_without_data_words : Result unit :=
  let bytes := [0x08; 0x00; 0x0A] in
  let request := Req_Diagnostics DS_ClearCountersAndDiagnosticRegister [] in
  assert_eq (RequestPdu_decode bytes) (Ok request);;
  assert_eq (RequestPdu_encode request) (Ok bytes).

(** FR-DA-R-004, FR-DA-E-018 *)
Definition ut_diagnostics_odd_data_length_rejected : Result unit :=
  assert_eq (RequestPdu_decode [0x08; 0x00; 0x00; 0xA5])
      (Err (IllegalValue "diagnostic data length" 1)).

(** FR-R-062 *)
Definition ut_all_fifteen_diagnostic_sub_functions_named : Result unit :=
  let named := [(0, DS_ReturnQueryData); (1, DS_RestartCommunicationsOption);
      (2, DS_ReturnDiagnosticRegister); (3, DS_ChangeAsciiInputDelimiter);
      (4, DS_ForceListenOnlyMode); (10, DS_ClearCountersAndDiagnosticRegister);
      (11, DS_ReturnBusMessageCount); (12, DS_ReturnBusCommunicationErrorCount);
      (13, DS_ReturnBusExceptionErrorCount); (14, DS_ReturnServerMessageCount);
      (15, DS_ReturnServerNoResponseCount); (16, DS_ReturnServerNakCount);
      (17, DS_ReturnServerBusyCount); (18, DS_ReturnBusCharacterOverrunCount);
      (20, DS_ClearOverrunCounterAndFlag)] in
  assert_eq (len named) 15;;
  for_each named (λ '(raw, code),
    assert_eq (DiagnosticSubFunction_decode raw) code;;
    assert_eq (DiagnosticSubFunction_encode code) (Ok raw)).

(** FR-R-063, FR-DA-E-025 *)
Definition ut_unnamed_diagnostic_sub_function_decodes : Result unit :=
  for_each [5; 6; 7; 8; 9; 19; 21; 0xFFFF] (λ raw,
    assert_eq (DiagnosticSubFunction_decode raw) (DS_Other raw);;
    assert_eq (DiagnosticSubFunction_encode (DS_Other raw)) (Ok raw)).

(** FR-DA-R-005, FR-DA-E-020 *)
Definition ut_diagnostic_other_holding_named_code_is_reserved_error : Result unit :=
  assert_eq (DiagnosticSubFunction_encode (DS_Other 11)) (Err (ReservedCode 11)).

(** FR-R-064 *)
Definition ut_get_comm_event_counter_spec_example : Result unit :=
  assert_eq (RequestPdu_decode [0x0B]) (Ok Req_GetCommEventCounter);;
  assert_eq (RequestPdu_encode Req_GetCommEventCounter) (Ok [0x0B]);;
  let bytes := [0x0B; 0xFF; 0xFF; 0x01; 0x08] in
  let response := Resp_GetCommEventCounter 0xFFFF 0x0108 in
  assert_eq (ResponsePdu_decode bytes) (Ok response);;
  assert_eq (ResponsePdu_encode response) (Ok bytes).

(** FR-R-068, FR-DA-E-026 *)
Definition ut_comm_event_status_word_carried_as_is : Result unit :=
  assert_eq (ResponsePdu_decode [0x0B; 0x12; 0x34; 0x00; 0x01])
      (Ok (Resp_GetCommEventCounter 0x1234 1)).

(** FR-R-065 *)
Definition ut_get_comm_event_log_spec_example : Result unit :=
  assert_eq (RequestPdu_decode [0x0C]) (Ok Req_GetCommEventLog);;
  assert_eq (RequestPdu_encode Req_GetCommEventLog) (Ok [0x0C]);;
  let bytes := [0x0C; 0x08; 0x00; 0x00; 0x01; 0x08; 0x01; 0x21; 0x20; 0x00] in
  let response := Resp_GetCommEventLog 0x0000 0x0108 0x0121 [0x20; 0x00] in
  assert_eq (ResponsePdu_decode bytes) (Ok response);;
  assert_eq (ResponsePdu_encode response) (Ok bytes).

(** FR-DA-R-006, FR-DA-E-019 *)
Definition ut_comm_event_log_byte_count_out_of_range : Result unit :=
  assert_eq (ResponsePdu_decode [0x0C; 0x05; 0x00; 0x00; 0x01; 0x08; 0x01])
      (Err (OutOfRange "byte count" 5 6 70)).

(** FR-R-066 *)
Definition ut_report_server_id_body_is_opaque : Result unit :=
  assert_eq (RequestPdu_decode [0x11]) (Ok Req_ReportServerId);;
  assert_eq (RequestPdu_encode Req_ReportServerId) (Ok [0x11]);;
  let bytes := [0x11; 0x03; 0xAA; 0xFF; 0x01] in
  let response := Resp_ReportServerId [0xAA; 0xFF; 0x01] in
  assert_eq (ResponsePdu_decode bytes) (Ok response);;
  assert_eq (ResponsePdu_encode response) (Ok bytes).

(** FR-R-067, FR-DA-E-016 *)
Definition ut_report_server_id_body_is_not_interpreted : Result unit :=
  let body := [0x41; 0x42; 0x42; 0x7F; 0x00; 0xFF; 0x99] in
  let bytes := [0x11; 0x07] in
  let bytes := bytes ++ body in
  decoded ← unwrap (ResponsePdu_decode bytes);
  assert_eq decoded (Resp_ReportServerId body);;
  assert_eq (ResponsePdu_encode decoded) (Ok bytes);;
  let lone := [0x11; 0x01; 0x42] in
  assert_eq (ResponsePdu_decode lone) (Ok (Resp_ReportServerId [0x42])).

Definition read_device_id_response_bytes : list Z :=
  foldl (λ out '(id, value), out ++ [id; len (ascii_bytes value)] ++ ascii_bytes value)
    [0x2B; 0x0E; 0x01; 0x01; 0x00; 0x00; 0x03]
    [(0x00, "Company"); (0x01, "Product"); (0x02, "V2.11")].

(** FR-R-011, FR-R-012, FR-E-006, FR-E-007 *)
Definition ut_custom_function_code_body_is_opaque : Result unit :=
  let bytes := [0x41; 0xDE; 0xAD; 0xBE; 0xEF] in
  let request := Req_Custom 0x41 [0xDE; 0xAD; 0xBE; 0xEF] in
  assert_eq (RequestPdu_decode bytes) (Ok request);;
  assert_eq (RequestPdu_encode request) (Ok bytes);;
  let response := Resp_Custom 0x41 [0xDE; 0xAD; 0xBE; 0xEF] in
  assert_eq (ResponsePdu_decode bytes) (Ok response);;
  assert_eq (ResponsePdu_encode response) (Ok bytes).

(** FR-R-012 *)
Definition ut_custom_body_may_be_empty : Result unit :=
  let request := Req_Custom 0x64 [] in
  assert_eq (RequestPdu_decode [0x64]) (Ok request);;
  assert_eq (RequestPdu_encode request) (Ok [0x64]).

(** FR-R-013, FR-E-008 *)
Definition ut_encoding_custom_with_named_code_is_reserved_error : Result unit :=
  assert_eq (RequestPdu_encode (Req_Custom 3 [0x00])) (Err (ReservedCode 3)).

(** FR-R-073 *)
Definition ut_read_device_identification_request_spec_example : Result unit :=
  let bytes := [0x2B; 0x0E; 0x01; 0x00] in
  let request := Req_EncapsulatedInterfaceTransport (MeiReq_ReadDeviceIdentification RDI_Basic
      0x00) in
  assert_eq (RequestPdu_decode bytes) (Ok request);;
  assert_eq (RequestPdu_encode request) (Ok bytes).

(** FR-R-075 *)
Definition ut_read_device_identification_response_spec_example : Result unit :=
  let bytes := read_device_id_response_bytes in
  let response := Resp_EncapsulatedInterfaceTransport (MeiResp_ReadDeviceIdentification RDI_Basic
      0x01 false 0x00 [mkDeviceIdObject 0x00 (ascii_bytes "Company"); mkDeviceIdObject 0x01
      (ascii_bytes "Product"); mkDeviceIdObject 0x02 (ascii_bytes "V2.11")]) in
  assert_eq (ResponsePdu_decode bytes) (Ok response);;
  assert_eq (ResponsePdu_encode response) (Ok bytes).

(** FR-R-074, FR-DA-E-014 *)
Definition ut_read_device_id_code_out_of_range : Result unit :=
  for_each [0x00; 0x05; 0xFF] (λ raw,
    assert_eq (RequestPdu_decode [0x2B; 0x0E; raw; 0x00])
        (Err (OutOfRange "read device id code" raw 1 4))).

(** FR-R-074 *)
Definition ut_read_device_id_codes_round_trip : Result unit :=
  for_each [(1, RDI_Basic); (2, RDI_Regular); (3, RDI_Extended); (4, RDI_Individual)]
      (λ '(raw, code),
    let bytes := [0x2B; 0x0E; raw; 0x00] in
    let request := Req_EncapsulatedInterfaceTransport (MeiReq_ReadDeviceIdentification code 0x00)
        in
    assert_eq (RequestPdu_decode bytes) (Ok request);;
    assert_eq (RequestPdu_encode request) (Ok bytes)).

(** FR-R-075 *)
Definition ut_read_device_identification_partial_response : Result unit :=
  let bytes := [0x2B; 0x0E; 0x03; 0x02; 0xFF; 0x80; 0x00] in
  let response := Resp_EncapsulatedInterfaceTransport (MeiResp_ReadDeviceIdentification
      RDI_Extended 0x02 true 0x80 []) in
  assert_eq (ResponsePdu_decode bytes) (Ok response);;
  assert_eq (ResponsePdu_encode response) (Ok bytes).

(** FR-R-076, FR-DA-E-015 *)
Definition ut_more_follows_indicator_illegal_value : Result unit :=
  assert_eq (ResponsePdu_decode [0x2B; 0x0E; 0x01; 0x01; 0x01; 0x00; 0x00])
      (Err (IllegalValue "more follows" 0x01)).

(** FR-DA-E-022 *)
Definition ut_device_id_object_cut_short_is_truncated : Result unit :=
  let bytes := [0x2B; 0x0E; 0x01; 0x01; 0x00; 0x00; 0x01; 0x00; 0x05; 0xAA; 0xBB] in
  match ResponsePdu_decode bytes with
  | Err (Truncated expected supplied) => assert_eq (expected - supplied) 3
  | _ => Panic
  end.

(** FR-DA-E-017 *)
Definition ut_report_server_id_zero_byte_count : Result unit :=
  assert_eq (ResponsePdu_decode [0x11; 0x00]) (Ok (Resp_ReportServerId [])).

(** FR-E-018 *)
Definition ut_pdu_size_bound_ignores_existing_buffer_contents : Result unit :=
  let out := replicate 100%nat 0xEE in
  let '(r1, out) := ResponsePdu_encode_into (Resp_ReadHoldingRegisters
      (replicate 125%nat (mkRegisterValue 0))) out in
  _ ← unwrap r1;
  assert_eq (len out) 352;;
  let out := replicate 100%nat 0xEE in
  let '(r2, out) := ResponsePdu_encode_into (Resp_ReadHoldingRegisters
      (replicate 126%nat (mkRegisterValue 0))) out in
  assert_eq r2 (Err (PduTooLarge 254 MAX_PDU_LEN)).

(** FR-R-077, FR-DA-E-021 *)
Definition ut_device_id_object_count_mismatch : Result unit :=
  let bytes := [0x2B; 0x0E; 0x01; 0x01; 0x00; 0x00; 0x03; 0x00; 0x02; 0xAA; 0xBB] in
  assert_eq (ResponsePdu_decode bytes) (Err (ByteCountMismatch 3 1)).

(** FR-R-072 *)
Definition ut_canopen_body_is_opaque : Result unit :=
  let bytes := [0x2B; 0x0D; 0x01; 0x02; 0x03] in
  let request := Req_EncapsulatedInterfaceTransport (MeiReq_CanOpen [0x01; 0x02; 0x03]) in
  assert_eq (RequestPdu_decode bytes) (Ok request);;
  assert_eq (RequestPdu_encode request) (Ok bytes);;
  let response := Resp_EncapsulatedInterfaceTransport (MeiResp_CanOpen [0x01; 0x02; 0x03]) in
  assert_eq (ResponsePdu_decode bytes) (Ok response);;
  assert_eq (ResponsePdu_encode response) (Ok bytes).

(** FR-R-071, FR-DA-E-024 *)
Definition ut_unknown_mei_type_is_opaque : Result unit :=
  let bytes := [0x2B; 0x7F; 0xAA] in
  let request := Req_EncapsulatedInterfaceTransport (MeiReq_Other 0x7F [0xAA]) in
  assert_eq (RequestPdu_decode bytes) (Ok request);;
  assert_eq (RequestPdu_encode request) (Ok bytes);;
  let response := Resp_EncapsulatedInterfaceTransport (MeiResp_Other 0x7F [0xAA]) in
  assert_eq (ResponsePdu_decode bytes) (Ok response);;
  assert_eq (ResponsePdu_encode response) (Ok bytes).

(** FR-R-133 *)
Definition ut_round_trips : Result unit :=
  let requests := [[0x01; 0x00; 0x13; 0x00; 0x13]; [0x02; 0x00; 0xC4; 0x00; 0x16];
      [0x03; 0x00; 0x6B; 0x00; 0x03]; [0x04; 0x00; 0x08; 0x00; 0x01]; [0x05; 0x00; 0xAC; 0xFF;
      0x00]; [0x05; 0x00; 0xAC; 0x00; 0x00]; [0x06; 0x00; 0x01; 0x00; 0x03];
      [0x0F; 0x00; 0x13; 0x00; 0x0A; 0x02; 0xCD; 0x01]; [0x10; 0x00; 0x01; 0x00; 0x02; 0x04; 0x00;
      0x0A; 0x01; 0x02]; [0x16; 0x00; 0x04; 0x00; 0xF2; 0x00; 0x25]; [0x17; 0x00; 0x04; 0x00;
      0x06; 0x00; 0x0F; 0x00; 0x03; 0x06; 0x00; 0xFF; 0x00; 0xFF; 0x00; 0xFF]; [0x18; 0x04; 0xDE];
      [0x07]; [0x08; 0x00; 0x00; 0xA5; 0x37]; [0x0B]; [0x0C]; [0x11]; [0x41; 0xDE; 0xAD];
      [0x2B; 0x0E; 0x01; 0x00]; [0x2B; 0x0D; 0x01; 0x02]; [0x2B; 0x7F; 0xAA];
      [0x14; 0x0E; 0x06; 0x00; 0x04; 0x00; 0x01; 0x00; 0x02; 0x06; 0x00; 0x03; 0x00; 0x09; 0x00;
      0x02]; [0x15; 0x0D; 0x06; 0x00; 0x04; 0x00; 0x07; 0x00; 0x03; 0x06; 0xAF; 0x04; 0xBE; 0x10;
      0x0D]] in
  for_each requests (λ bytes,
    decoded ← unwrap (RequestPdu_decode bytes);
    assert_eq (RequestPdu_encode decoded) (Ok bytes));;
  let responses := [[0x01; 0x03; 0xCD; 0x6B; 0x05]; [0x02; 0x03; 0xAC; 0xDB; 0x35];
      [0x03; 0x06; 0x02; 0x2B; 0x00; 0x00; 0x00; 0x64]; [0x04; 0x02; 0x00; 0x0A];
      [0x05; 0x00; 0xAC; 0xFF; 0x00]; [0x06; 0x00; 0x01; 0x00; 0x03]; [0x83; 0x02];
      [0x0F; 0x00; 0x13; 0x00; 0x0A]; [0x10; 0x00; 0x01; 0x00; 0x02]; [0x16; 0x00; 0x04; 0x00;
      0xF2; 0x00; 0x25]; [0x17; 0x0C; 0x00; 0xFE; 0x0A; 0xCD; 0x00; 0x01; 0x00; 0x03; 0x00; 0x0D;
      0x00; 0xFF]; [0x18; 0x00; 0x06; 0x00; 0x02; 0x01; 0xB8; 0x12; 0x84]; [0x07; 0x6D];
      [0x08; 0x00; 0x00; 0xA5; 0x37]; [0x0B; 0xFF; 0xFF; 0x01; 0x08]; [0x0C; 0x08; 0x00; 0x00;
      0x01; 0x08; 0x01; 0x21; 0x20; 0x00]; [0x11; 0x03; 0xAA; 0xFF; 0x01]; [0x41; 0xDE; 0xAD];
      [0x2B; 0x0D; 0x01; 0x02]; [0x2B; 0x7F; 0xAA]; [0x14; 0x0C; 0x05; 0x06; 0x0D; 0xFE; 0x00;
      0x20; 0x05; 0x06; 0x33; 0xCD; 0x00; 0x40]; [0x15; 0x0D; 0x06; 0x00; 0x04; 0x00; 0x07; 0x00;
      0x03; 0x06; 0xAF; 0x04; 0xBE; 0x10; 0x0D]] in
  for_each responses (λ bytes,
    decoded ← unwrap (ResponsePdu_decode bytes);
    assert_eq (ResponsePdu_encode decoded) (Ok bytes)).

Definition pdu_tests : list (Result unit) :=
  [ut_request_reports_its_function; ut_response_reports_its_function;
      ut_boundary_addresses_valid_in_every_table; ut_encode_into_matches_encode;
      ut_encode_into_appends_after_existing_contents; ut_failed_encode_into_restores_the_buffer;
      ut_pdu_is_a_function_code_then_its_body; ut_read_coils_request_bytes;
      ut_read_coils_response_bit_packing; ut_bit_response_yields_byte_count_times_eight;
      ut_read_discrete_inputs_spec_example; ut_read_holding_registers_spec_example;
      ut_read_input_registers_spec_example; ut_write_single_coil_spec_example;
      ut_write_single_coil_off; ut_write_single_coil_value_illegal;
      ut_write_single_register_spec_example; ut_coil_quantity_out_of_range;
      ut_register_quantity_out_of_range; ut_byte_count_mismatch;
      ut_register_response_byte_count_must_be_even; ut_pdu_exceeding_max_is_rejected;
      ut_max_size_pdu_is_accepted; ut_oversized_pdu_does_not_decode;
      ut_truncated_request_is_reported; ut_trailing_bytes_are_rejected;
      ut_response_decodes_exception; ut_write_multiple_coils_spec_example;
      ut_write_multiple_coils_honours_quantity; ut_write_multiple_coils_quantity_out_of_range;
      ut_write_multiple_registers_spec_example; ut_write_multiple_registers_quantity_out_of_range;
      ut_mask_write_register_spec_example; ut_mask_write_result_formula;
      ut_read_write_multiple_registers_spec_example;
      ut_read_write_multiple_registers_quantities_out_of_range; ut_read_fifo_queue_spec_example;
      ut_read_fifo_queue_byte_count_includes_count_field;
      ut_read_fifo_queue_count_above_31_rejected; ut_write_multiple_coils_rejects_nonzero_padding;
      ut_read_file_record_spec_example; ut_read_file_record_response_spec_example;
      ut_write_file_record_spec_example; ut_read_file_record_byte_count_out_of_range;
      ut_read_file_record_byte_count_not_multiple_of_seven;
      ut_file_record_reference_type_must_be_six;
      ut_file_response_length_must_cover_whole_registers;
      ut_write_file_record_data_length_out_of_range; ut_file_and_record_numbers_out_of_range;
      ut_file_record_sub_item_may_not_overrun_its_region; ut_read_exception_status_spec_example;
      ut_diagnostics_spec_example; ut_diagnostics_without_data_words;
      ut_diagnostics_odd_data_length_rejected; ut_all_fifteen_diagnostic_sub_functions_named;
      ut_unnamed_diagnostic_sub_function_decodes;
      ut_diagnostic_other_holding_named_code_is_reserved_error;
      ut_get_comm_event_counter_spec_example; ut_comm_event_status_word_carried_as_is;
      ut_get_comm_event_log_spec_example; ut_comm_event_log_byte_count_out_of_range;
      ut_report_server_id_body_is_opaque; ut_report_server_id_body_is_not_interpreted;
      ut_custom_function_code_body_is_opaque; ut_custom_body_may_be_empty;
      ut_encoding_custom_with_named_code_is_reserved_error;
      ut_read_device_identification_request_spec_example;
      ut_read_device_identification_response_spec_example; ut_read_device_id_code_out_of_range;
      ut_read_device_id_codes_round_trip; ut_read_device_identification_partial_response;
      ut_more_follows_indicator_illegal_value; ut_device_id_object_cut_short_is_truncated;
      ut_report_server_id_zero_byte_count; ut_pdu_size_bound_ignores_existing_buffer_contents;
      ut_device_id_object_count_mismatch; ut_canopen_body_is_opaque;
      ut_unknown_mei_type_is_opaque; ut_round_trips].

(** Every unit test of the PDU codec passes. *)
Lemma pdu_tests_pass : Forall passes pdu_tests.
Proof. run_tests. Qed.
End tests.
