(* ===== verification/FrameTests.v ===== *)
(** * Unit tests of the frame layer below and around the PDU codec

    The tests of [src/frame/]: [value.rs], [function.rs],
    [exception.rs], [mei.rs], [rtu.rs], [tcp.rs], [ascii.rs] and [framing.rs], run
    on the model with the CRC crate computing the CRC of the specification.  Left
    out are the tests of the serde derives, of the capacity a buffer reserves, and
    of what compiles. *)

From S2P Require Import Prelude.
From S2P Require Import Errors.
From S2P Require Import Tests.
From S2P Require Import Parse.
From S2P Require Import Value.
From S2P Require Import Function.
From S2P Require Import Exception.
From S2P Require Import Display.
From S2P Require Import Diagnostics.
From S2P Require Import Wire.
From S2P Require Import Mei.
From S2P Require Import FileRecord.
From S2P Require Import Pdu.
From S2P Require Import Framing.
From S2P Require Import Rtu.
From S2P Require Import RtuStream.
From S2P Require Import Tcp.
From S2P Require Import Ascii.

Section tests.
Local Existing Instance winnow_model.
Local Existing Instance crc_model.

(** ** [frame/value.rs] *)

(** FR-R-155 *)
Definition ut_values_are_transparent : Result unit :=
  assert_eq (unit_id_0 (value_from 0x11)) 0x11;;
  assert_eq (value_into (mkUnitId 0x11)) 0x11;;
  assert_eq (address_0 (value_from 0x006B)) 0x006B;;
  assert_eq (value_into (mkQuantity 3)) 3.

(** FR-R-155, FR-E-026 *)
Definition ut_values_impose_no_validation : Result unit :=
  assert_eq (unit_id_0 (mkUnitId 250)) 250;;
  assert_eq (unit_id_0 (mkUnitId U8_MAX)) U8_MAX;;
  assert_eq (quantity_0 (mkQuantity U16_MAX)) U16_MAX;;
  assert_eq (address_0 (mkAddress U16_MAX)) U16_MAX.

(** FR-R-152, FR-R-158 *)
Definition ut_values_display_bare : Result unit :=
  assert_eq (value_display (mkUnitId 17)) "17";;
  assert_eq (value_debug (mkUnitId 17)) "UnitId(17)".

(** FR-E-022 *)
Definition ut_display_of_protocol_illegal_value : Result unit :=
  assert_eq (value_display (mkUnitId 250)) "250";;
  assert_eq (value_display (mkQuantity 2001)) "2001".

Definition value_tests : list (Result unit) :=
  [ut_values_are_transparent; ut_values_impose_no_validation; ut_values_display_bare;
      ut_display_of_protocol_illegal_value].

(** ** [frame/function.rs] *)

(** FR-R-010 *)
Definition ut_all_nineteen_public_codes_named : Result unit :=
  assert_eq (len FunctionCode_NAMED) 19;;
  for_each FunctionCode_NAMED (λ '(byte, code),
    assert_eq (FunctionCode_decode byte) (Ok code);;
    assert_eq (FunctionCode_encode code) (Ok byte)).

(** FR-R-011, FR-E-006 *)
Definition ut_unnamed_code_becomes_custom : Result unit :=
  for_each [9; 10; 13; 14; 18; 19; 25; 42; 44; 65; 72; 100; 110; 127] (λ byte,
    assert_eq (FunctionCode_decode byte) (Ok (FC_Custom byte))).

(** FR-R-011 *)
Definition ut_every_code_in_range_decodes_once : Result unit :=
  for_each (upto 1 127) (λ byte,
    decoded ← unwrap (FunctionCode_decode byte);
    let named := existsb (λ '(b, _), b =? byte) FunctionCode_NAMED in
    assert_eq (match decoded with (FC_Custom _) => true | _ => false end) (negb named)).

(** FR-R-013, FR-E-008 *)
Definition ut_custom_with_named_code_is_reserved_error : Result unit :=
  for_each FunctionCode_NAMED (λ '(byte, _),
    assert_eq (FunctionCode_encode (FC_Custom byte)) (Err (ReservedCode byte))).

(** FR-R-014, FR-E-004 *)
Definition ut_code_zero_is_invalid : Result unit :=
  assert_eq (FunctionCode_decode 0) (Err (InvalidFunctionCode 0));;
  assert_eq (FunctionCode_encode (FC_Custom 0)) (Err (InvalidFunctionCode 0)).

(** FR-R-015, FR-E-005 *)
Definition ut_codes_above_127_invalid_as_request : Result unit :=
  for_each [128; 129; 131; 200; 255] (λ byte,
    assert_eq (FunctionCode_decode byte) (Err (InvalidFunctionCode byte));;
    assert_eq (FunctionCode_encode (FC_Custom byte)) (Err (InvalidFunctionCode byte))).

(** FR-R-133 *)
Definition ut_function_code_round_trips : Result unit :=
  for_each (upto 1 127) (λ byte,
    code ← unwrap (FunctionCode_decode byte);
    assert_eq (FunctionCode_encode code) (Ok byte)).

(** FR-R-153 *)
Definition ut_function_code_display_names_every_named_code : Result unit :=
  let expected := [(FC_ReadCoils, "Read Coils"); (FC_ReadDiscreteInputs, "Read Discrete Inputs");
      (FC_ReadHoldingRegisters, "Read Holding Registers"); (FC_ReadInputRegisters,
      "Read Input Registers"); (FC_WriteSingleCoil, "Write Single Coil"); (FC_WriteSingleRegister,
      "Write Single Register"); (FC_ReadExceptionStatus, "Read Exception Status");
      (FC_Diagnostics, "Diagnostics"); (FC_GetCommEventCounter, "Get Comm Event Counter");
      (FC_GetCommEventLog, "Get Comm Event Log"); (FC_WriteMultipleCoils, "Write Multiple Coils");
      (FC_WriteMultipleRegisters, "Write Multiple Registers");
      (FC_ReportServerId, "Report Server ID"); (FC_ReadFileRecord, "Read File Record");
      (FC_WriteFileRecord, "Write File Record"); (FC_MaskWriteRegister, "Mask Write Register");
      (FC_ReadWriteMultipleRegisters, "Read/Write Multiple Registers");
      (FC_ReadFifoQueue, "Read FIFO Queue"); (FC_EncapsulatedInterfaceTransport,
      "Encapsulated Interface Transport")] in
  assert_eq (len expected) 19;;
  for_each expected (λ '(code, name),
    assert_eq (FunctionCode_display code) name).

(** FR-R-153, FR-E-023 *)
Definition ut_function_code_display_custom : Result unit :=
  assert_eq (FunctionCode_display (FC_Custom 100)) "Custom function 100".

Definition function_tests : list (Result unit) :=
  [ut_all_nineteen_public_codes_named; ut_unnamed_code_becomes_custom;
      ut_every_code_in_range_decodes_once; ut_custom_with_named_code_is_reserved_error;
      ut_code_zero_is_invalid; ut_codes_above_127_invalid_as_request;
      ut_function_code_round_trips; ut_function_code_display_names_every_named_code;
      ut_function_code_display_custom].

(** ** [frame/exception.rs] *)

Definition exception_response (function : FunctionCode) (exception : ExceptionCode) :
    ExceptionResponse :=
  mkExceptionResponse function exception.

(** FR-R-080 *)
Definition ut_exception_sets_high_bit : Result unit :=
  pdu ← unwrap (ExceptionResponse_encode (exception_response FC_ReadHoldingRegisters
      EC_IllegalDataAddress));
  assert_eq pdu [0x83; 0x02].

(** FR-R-081, FR-E-009 *)
Definition ut_decode_reports_original_function_code : Result unit :=
  assert_eq (ExceptionResponse_decode [0x83; 0x02])
      (Ok (exception_response FC_ReadHoldingRegisters EC_IllegalDataAddress)).

(** FR-R-082 *)
Definition ut_all_nine_exception_codes_named : Result unit :=
  assert_eq (len ExceptionCode_NAMED) 9;;
  for_each ExceptionCode_NAMED (λ '(byte, code),
    assert_eq (ExceptionCode_decode byte) code;;
    assert_eq (ExceptionCode_encode code) (Ok byte)).

(** FR-R-083, FR-E-010 *)
Definition ut_unknown_exception_code_wrapped : Result unit :=
  for_each [0; 7; 9; 12; 13; 100; 255] (λ byte,
    assert_eq (ExceptionCode_decode byte) (EC_Other byte)).

(** FR-R-083, FR-E-010 *)
Definition ut_every_exception_byte_decodes : Result unit :=
  for_each (upto 0 255) (λ byte,
    let decoded := ExceptionCode_decode byte in
    let named := existsb (λ '(b, _), b =? byte) ExceptionCode_NAMED in
    assert_eq (match decoded with (EC_Other _) => true | _ => false end) (negb named)).

(** FR-R-084, FR-E-011 *)
Definition ut_other_holding_named_code_is_reserved_error : Result unit :=
  for_each ExceptionCode_NAMED (λ '(byte, _),
    assert_eq (ExceptionCode_encode (EC_Other byte)) (Err (ReservedCode byte))).

(** FR-R-085, FR-E-012 *)
Definition ut_exception_length_not_two_errors : Result unit :=
  for_each [[]; [0x83]; [0x83; 0x02; 0x00]; [0x83; 0x02; 0x00; 0x00]] (λ pdu,
    assert_eq (ExceptionResponse_decode pdu) (Err (InvalidLength 2 (len pdu)))).

(** FR-R-086, FR-E-013 *)
Definition ut_exception_for_custom_function_code : Result unit :=
  let decoded := ExceptionResponse_decode [Z.lor 0x80 100; 0x0B] in
  assert_eq decoded
      (Ok (exception_response (FC_Custom 100) EC_GatewayTargetDeviceFailedToRespond));;
  assert_eq (decoded ≫= ExceptionResponse_encode) (Ok [0xE4; 0x0B]).

(** FR-R-014 *)
Definition ut_exception_on_function_zero_is_invalid : Result unit :=
  assert_eq (ExceptionResponse_decode [0x80; 0x01]) (Err (InvalidFunctionCode 0)).

(** FR-R-081 *)
Definition ut_exception_requires_high_bit : Result unit :=
  assert_eq (ExceptionResponse_decode [0x03; 0x02]) (Err (InvalidFunctionCode 0x03)).

(** FR-R-133 *)
Definition ut_exception_round_trips : Result unit :=
  for_each (upto 1 127) (λ function,
    for_each [0; 1; 6; 11; 200; 255] (λ exception,
      let pdu := [Z.lor function EXCEPTION_FLAG; exception] in
      decoded ← unwrap (ExceptionResponse_decode pdu);
      assert_eq (ExceptionResponse_encode decoded) (Ok pdu))).

(** FR-R-154 *)
Definition ut_exception_code_display_names_every_named_code : Result unit :=
  let expected := [(EC_IllegalFunction, "Illegal Function"); (EC_IllegalDataAddress,
      "Illegal Data Address"); (EC_IllegalDataValue, "Illegal Data Value");
      (EC_ServerDeviceFailure, "Server Device Failure"); (EC_Acknowledge, "Acknowledge");
      (EC_ServerDeviceBusy, "Server Device Busy"); (EC_MemoryParityError, "Memory Parity Error");
      (EC_GatewayPathUnavailable, "Gateway Path Unavailable");
      (EC_GatewayTargetDeviceFailedToRespond, "Gateway Target Device Failed To Respond")] in
  assert_eq (len expected) 9;;
  for_each expected (λ '(code, name),
    assert_eq (ExceptionCode_display code) name).

(** FR-R-154, FR-E-023 *)
Definition ut_exception_code_display_other : Result unit :=
  assert_eq (ExceptionCode_display (EC_Other 0x7F)) "Other exception 127".

Definition exception_tests : list (Result unit) :=
  [ut_exception_sets_high_bit; ut_decode_reports_original_function_code;
      ut_all_nine_exception_codes_named; ut_unknown_exception_code_wrapped;
      ut_every_exception_byte_decodes; ut_other_holding_named_code_is_reserved_error;
      ut_exception_length_not_two_errors; ut_exception_for_custom_function_code;
      ut_exception_on_function_zero_is_invalid; ut_exception_requires_high_bit;
      ut_exception_round_trips; ut_exception_code_display_names_every_named_code;
      ut_exception_code_display_other].

(** ** [frame/mei.rs] *)

Definition mei_encode (response : MeiResponse) : Result (list Z) :=
  let '(r, out) := mei_encode_response_into response [] in
  _ ← r; mret out.

Definition mei_response (objects : list DeviceIdObject) : MeiResponse :=
  MeiResp_ReadDeviceIdentification RDI_Basic 0x01 false 0x00 objects.

(** FR-R-078, FR-DA-E-023 *)
Definition ut_device_id_response_object_count_above_255_rejected : Result unit :=
  let objects := (λ index, mkDeviceIdObject (index mod 256) []) <$> upto 0 255 in
  assert_eq (mei_encode (mei_response objects)) (Err (OutOfRange "object count" 256 0 255)).

(** FR-R-078, FR-DA-E-023 *)
Definition ut_device_id_response_object_value_above_255_bytes_rejected : Result unit :=
  let too_long := mei_response [mkDeviceIdObject 0x00 (replicate 256%nat 0x41)] in
  assert_eq (mei_encode too_long) (Err (OutOfRange "object length" 256 0 255));;
  let at_limit := mei_response [mkDeviceIdObject 0x00 (replicate 255%nat 0x41)] in
  encoded ← unwrap (mei_encode at_limit);
  assert_eq (slice_get 0 8 encoded) (Some [MEI_READ_DEVICE_ID; 0x01; 0x01; 0x00; 0x00; 0x01; 0x00;
      0xFF]);;
  assert_eq (len encoded) ((6 + 2) + 255).

Definition mei_tests : list (Result unit) :=
  [ut_device_id_response_object_count_above_255_rejected;
      ut_device_id_response_object_value_above_255_bytes_rejected].

(** ** [frame/rtu.rs] *)

Definition rtu_READ_HOLDING_REQUEST : list Z :=
  [0x11; 0x03; 0x00; 0x6B; 0x00; 0x03; 0x76; 0x87].
Definition rtu_READ_HOLDING_RESPONSE : list Z :=
  [0x11; 0x03; 0x06; 0x02; 0x2B; 0x00; 0x00; 0x00; 0x64; 0xC8; 0xBA].

(** FR-ADU-R-001 *)
Definition ut_crc16_is_public : Result unit :=
  assert_eq (crc16 [0x11; 0x03; 0x00; 0x6B; 0x00; 0x03]) 0x8776.

(** FR-R-090, FR-R-093 *)
Definition ut_rtu_request_spec_example : Result unit :=
  let pdu := Req_ReadHoldingRegisters (mkAddress 0x006B) (mkQuantity 3) in
  assert_eq (decode_request Rtu_framing rtu_READ_HOLDING_REQUEST) (Ok (mkUnitId 0x11, pdu));;
  assert_eq (encode_request Rtu_framing (mkUnitId 0x11) pdu) (Ok rtu_READ_HOLDING_REQUEST).

(** FR-R-090 *)
Definition ut_rtu_response_spec_example : Result unit :=
  let pdu := Resp_ReadHoldingRegisters [mkRegisterValue 0x022B; mkRegisterValue 0x0000;
      mkRegisterValue 0x0064] in
  assert_eq (decode_response Rtu_framing rtu_READ_HOLDING_RESPONSE) (Ok (mkUnitId 0x11, pdu));;
  assert_eq (encode_response Rtu_framing (mkUnitId 0x11) pdu) (Ok rtu_READ_HOLDING_RESPONSE).

(** FR-R-095, FR-ADU-E-001 *)
Definition ut_rtu_crc_mismatch_rejected : Result unit :=
  let bytes := rtu_READ_HOLDING_REQUEST in
  let bytes := alter (λ b, Z.lxor b 0xFF) 7%nat bytes in
  assert_eq (decode_request Rtu_framing bytes) (Err (Checksum 0x8776 0x7876)).

(** FR-R-094 *)
Definition ut_rtu_crc_is_low_byte_first : Result unit :=
  let bytes := rtu_READ_HOLDING_REQUEST in
  let bytes := swap 6 7 bytes in
  assert_eq (decode_request Rtu_framing bytes) (Err (Checksum 0x8776 0x7687)).

(** FR-R-096, FR-ADU-E-002, FR-ADU-E-003 *)
Definition ut_rtu_every_address_decodes : Result unit :=
  let pdu := Req_ReadHoldingRegisters (mkAddress 0x006B) (mkQuantity 3) in
  for_each [0x00; 0x01; 0xF7; 0xF8; 0xFF] (λ address,
    bytes ← unwrap (encode_request Rtu_framing (mkUnitId address) pdu);
    assert_eq (decode_request Rtu_framing bytes) (Ok (mkUnitId address, pdu))).

(** FR-R-091, FR-ADU-E-012 *)
Definition ut_rtu_adu_too_large : Result unit :=
  let bytes := replicate 257%nat 0x11 in
  assert_eq (decode_request Rtu_framing bytes) (Err (AduTooLarge 257 256)).

(** FR-R-122 *)
Definition ut_rtu_boundary_is_silence : Result unit :=
  assert (match boundary Rtu_framing with Silence => true | _ => false end).

(** FR-R-131 *)
Definition ut_rtu_adu_too_short : Result unit :=
  assert_eq (decode_request Rtu_framing [0x11; 0x03]) (Err (Truncated 4 2)).

(** FR-R-145 *)
Definition ut_rtu_over_tcp_bytes_are_identical_to_rtu : Result unit :=
  let pdu := Req_ReadHoldingRegisters (mkAddress 0x006B) (mkQuantity 3) in
  let header := mkUnitId 0x11 in
  rtu_bytes ← unwrap (encode_request Rtu_framing header pdu);
  rtu_over_tcp_bytes ← unwrap (encode_request RtuOverTcp_framing header pdu);
  assert_eq rtu_bytes rtu_over_tcp_bytes;;
  '(rtu_addr, rtu_pdu) ← unwrap (decode_request Rtu_framing rtu_bytes);
  '(rtu_over_tcp_addr, rtu_over_tcp_pdu) ← unwrap (decode_request RtuOverTcp_framing
      rtu_over_tcp_bytes);
  assert_eq rtu_addr rtu_over_tcp_addr;;
  assert_eq rtu_pdu rtu_over_tcp_pdu.

(** FR-R-146 *)
Definition ut_extent_needs_more_before_the_count_field : Result unit :=
  let adu := [0x11; 0x10; 0x01; 0x00; 0x00; 0x0A] in
  match derive_extent DirRequest adu with
  | Ok NeedMore => mret tt
  | _ => Panic
  end;;
  let adu := adu ++ [0x14] in
  let data := replicate 20%nat 0 in
  let adu := adu ++ data in
  let adu := adu ++ [0x00; 0x00] in
  match derive_extent DirRequest adu with
  | Ok (Complete n) => assert_eq n ((((((1 + 1) + 2) + 2) + 1) + 20) + 2)
  | _ => Panic
  end.

(** FR-R-148, FR-ADU-E-013 *)
Definition ut_extent_indeterminate_codes : Result unit :=
  let adu := [0x11; 0x08; 0x00; 0x00] in
  let adu := adu ++ [0x00; 0x00] in
  assert_eq (derive_extent DirRequest adu) (Err (IndeterminateLength 0x08));;
  let adu := [0x11; 0x2B; 0x0D] in
  let adu := adu ++ [0x00; 0x00] in
  assert_eq (derive_extent DirRequest adu) (Err (IndeterminateLength 0x2B));;
  assert_eq (derive_extent DirResponse adu) (Err (IndeterminateLength 0x2B));;
  let adu := [0x11; 0x50] in
  let adu := adu ++ [0x00; 0x00] in
  assert_eq (derive_extent DirRequest adu) (Err (IndeterminateLength 0x50)).

(** FR-ADU-E-014 *)
Definition ut_extent_custom_code_exception_response : Result unit :=
  let adu := [0x11; 0xD0; 0x01; 0x00; 0x00] in
  assert_eq (derive_extent DirResponse adu) (Ok (Complete 5));;
  assert_eq (derive_extent DirResponse [0x11; 0x50; 0x01; 0x00; 0x00])
      (Err (IndeterminateLength 0x50)).

(** FR-R-149, FR-ADU-E-015 *)
Definition ut_extent_above_max_adu_len : Result unit :=
  let adu := [0x11; 0x10; 0x00; 0x00; 0x00; 0x7D] in
  let adu := adu ++ [0xFA] in
  let adu := adu ++ (replicate 250%nat 0x00) in
  let adu := adu ++ [0x00; 0x00] in
  assert_eq (derive_extent DirRequest adu) (Err (AduTooLarge 259 256)).

(** FR-R-150 *)
Definition ut_rtu_over_tcp_is_not_self_locating : Result unit :=
  assert (negb (is_self_locating (boundary RtuOverTcp_framing))).

(** FR-R-147 *)
Definition ut_extent_agrees_with_the_encoder : Result unit :=
  let req := Req_ReadHoldingRegisters (mkAddress 0x006B) (mkQuantity 3) in
  let header := mkUnitId 0x11 in
  encoded ← unwrap (encode_request RtuOverTcp_framing header req);
  match derive_extent DirRequest encoded with
  | Ok (Complete n) => assert_eq n (len encoded)
  | _ => Panic
  end;;
  let resp := Resp_ReadHoldingRegisters [mkRegisterValue 0x022B; mkRegisterValue 0x0000;
      mkRegisterValue 0x0064] in
  encoded ← unwrap (encode_response RtuOverTcp_framing header resp);
  match derive_extent DirResponse encoded with
  | Ok (Complete n) => assert_eq n (len encoded)
  | _ => Panic
  end.

(** The nested helper of the test below. *)
Definition test_pdu (direction : Direction) (pdu : list Z) (expected_total_len : Z) : Result unit :=
  let adu := [0x11] ++ pdu ++ [0x00; 0x00] in
  match derive_extent direction adu with
  | Ok (Complete n) => assert_eq n expected_total_len
  | _ => Panic
  end.

(** FR-R-147, FR-ADU-E-014 *)
Definition ut_extent_table_over_every_derivable_code : Result unit :=
  test_pdu DirRequest [0x01; 0x00; 0x00; 0x00; 0x0A] 8;;
  test_pdu DirResponse [0x01; 0x02; 0xFF; 0x03] 7;;
  test_pdu DirRequest [0x03; 0x00; 0x6B; 0x00; 0x03] 8;;
  test_pdu DirResponse [0x03; 0x06; 0x02; 0x2B; 0x00; 0x00; 0x00; 0x64] 11;;
  test_pdu DirRequest [0x05; 0x00; 0xAC; 0xFF; 0x00] 8;;
  test_pdu DirResponse [0x05; 0x00; 0xAC; 0xFF; 0x00] 8;;
  test_pdu DirRequest [0x07] 4;;
  test_pdu DirResponse [0x07; 0xFF] 5;;
  test_pdu DirRequest [0x0F; 0x00; 0x00; 0x00; 0x0A; 0x02; 0xFF; 0x03] 11;;
  test_pdu DirResponse [0x0F; 0x00; 0x00; 0x00; 0x0A] 8;;
  test_pdu DirRequest [0x10; 0x00; 0x00; 0x00; 0x03; 0x06; 0xAA; 0xBB; 0xCC; 0xDD; 0xEE; 0xFF]
      15;;
  test_pdu DirResponse [0x10; 0x00; 0x00; 0x00; 0x03] 8;;
  test_pdu DirRequest [0x14; 0x07; 0x06; 0x00; 0x01; 0x00; 0x00; 0x00; 0x01] 12;;
  test_pdu DirResponse [0x14; 0x02; 0x02; 0x06] 7;;
  test_pdu DirRequest [0x17; 0x00; 0x00; 0x00; 0x03; 0x00; 0x00; 0x00; 0x02; 0x04; 0x12; 0x34;
      0x56; 0x78] 17;;
  test_pdu DirResponse [0x17; 0x06; 0x00; 0x01; 0x00; 0x02; 0x00; 0x03] 11;;
  test_pdu DirRequest [0x2B; 0x0E; 0x03; 0x00] 7;;
  test_pdu DirResponse [0x2B; 0x0E; 0x03; 0x82; 0x00; 0x00; 0x00] 10;;
  test_pdu DirResponse [0x81; 0x03] 5.

Definition rtu_tests : list (Result unit) :=
  [ut_crc16_is_public; ut_rtu_request_spec_example; ut_rtu_response_spec_example;
      ut_rtu_crc_mismatch_rejected; ut_rtu_crc_is_low_byte_first; ut_rtu_every_address_decodes;
      ut_rtu_adu_too_large; ut_rtu_boundary_is_silence; ut_rtu_adu_too_short;
      ut_rtu_over_tcp_bytes_are_identical_to_rtu; ut_extent_needs_more_before_the_count_field;
      ut_extent_indeterminate_codes; ut_extent_custom_code_exception_response;
      ut_extent_above_max_adu_len; ut_rtu_over_tcp_is_not_self_locating;
      ut_extent_agrees_with_the_encoder; ut_extent_table_over_every_derivable_code].

(** ** [frame/tcp.rs] *)

Definition tcp_READ_HOLDING_REQUEST : list Z :=
  [0x00; 0x01; 0x00; 0x00; 0x00; 0x06; 0x11; 0x03; 0x00; 0x6B; 0x00; 0x03].

Definition tcp_header : MbapHeader :=
  mkMbapHeader (mkTransactionId 0x0001) (mkUnitId 0x11).

(** FR-R-100, FR-R-101, FR-R-103 *)
Definition ut_tcp_request_spec_example : Result unit :=
  let pdu := Req_ReadHoldingRegisters (mkAddress 0x006B) (mkQuantity 3) in
  assert_eq (decode_request Tcp_framing tcp_READ_HOLDING_REQUEST) (Ok (tcp_header, pdu));;
  assert_eq (encode_request Tcp_framing tcp_header pdu) (Ok tcp_READ_HOLDING_REQUEST).

(** FR-R-103 *)
Definition ut_tcp_response_length_is_derived : Result unit :=
  let pdu := Resp_ReadHoldingRegisters [mkRegisterValue 0x022B; mkRegisterValue 0x0000;
      mkRegisterValue 0x0064] in
  let bytes := [0x00; 0x01; 0x00; 0x00; 0x00; 0x09; 0x11; 0x03; 0x06; 0x02; 0x2B; 0x00; 0x00;
      0x00; 0x64] in
  assert_eq (decode_response Tcp_framing bytes) (Ok (tcp_header, pdu));;
  assert_eq (encode_response Tcp_framing tcp_header pdu) (Ok bytes).

(** FR-R-102, FR-ADU-E-009 *)
Definition ut_mbap_protocol_identifier_must_be_zero : Result unit :=
  let bytes := tcp_READ_HOLDING_REQUEST in
  let bytes := <[3%nat := 0x01]> bytes in
  assert_eq (decode_request Tcp_framing bytes) (Err (ProtocolIdentifier 1)).

(** FR-R-105, FR-ADU-E-010 *)
Definition ut_mbap_length_out_of_range : Result unit :=
  for_each [(0x0000, 0); (0x00FF, 255); (0xFFFF, 65535)] (λ '(raw, value),
    let bytes := tcp_READ_HOLDING_REQUEST in
    v1 ← unwrap (ok_or Malformed (u8_try_from (Z.shiftr raw 8)));
    let bytes := <[4%nat := v1]> bytes in
    v2 ← unwrap (ok_or Malformed (u8_try_from (Z.land raw 0xFF)));
    let bytes := <[5%nat := v2]> bytes in
    assert_eq (decode_request Tcp_framing bytes) (Err (OutOfRange "MBAP length" value 1 254))).

(** FR-R-106, FR-ADU-E-011 *)
Definition ut_mbap_length_must_match_supplied : Result unit :=
  let bytes := tcp_READ_HOLDING_REQUEST in
  let bytes := <[5%nat := 0x07]> bytes in
  assert_eq (decode_request Tcp_framing bytes) (Err (InvalidLength 7 6)).

(** FR-R-104, FR-ADU-E-012 *)
Definition ut_tcp_adu_too_large : Result unit :=
  let bytes := replicate 261%nat 0x00 in
  assert_eq (decode_request Tcp_framing bytes) (Err (AduTooLarge 261 260)).

(** FR-R-122 *)
Definition ut_tcp_boundary_is_prefixed : Result unit :=
  match boundary Tcp_framing with
  | Prefixed prefix total =>
  assert_eq prefix 6;;
  assert_eq (total (take 6 tcp_READ_HOLDING_REQUEST)) (Ok 12)
  | _ => Panic
  end.

(** FR-R-122, FR-R-105 *)
Definition ut_tcp_boundary_rejects_an_invalid_length : Result unit :=
  match boundary Tcp_framing with
  | Prefixed _ total =>
  assert_eq (total [0x00; 0x01; 0x00; 0x00; 0x00; 0x00]) (Err (OutOfRange "MBAP length" 0 1 254))
  | _ => Panic
  end.

(** FR-R-131 *)
Definition ut_tcp_adu_too_short : Result unit :=
  assert_eq (decode_request Tcp_framing [0x00; 0x01; 0x00; 0x00; 0x00]) (Err (Truncated 8 5)).

Definition tcp_tests : list (Result unit) :=
  [ut_tcp_request_spec_example; ut_tcp_response_length_is_derived;
      ut_mbap_protocol_identifier_must_be_zero; ut_mbap_length_out_of_range;
      ut_mbap_length_must_match_supplied; ut_tcp_adu_too_large; ut_tcp_boundary_is_prefixed;
      ut_tcp_boundary_rejects_an_invalid_length; ut_tcp_adu_too_short].

(** ** [frame/ascii.rs] *)

Definition ascii_READ_HOLDING_REQUEST : list Z :=
  ascii_bytes ":1103006B00037E" ++ [13; 10].

Definition ascii_read_holding : RequestPdu :=
  Req_ReadHoldingRegisters (mkAddress 0x006B) (mkQuantity 3).

(** FR-ADU-R-002 *)
Definition ut_lrc_is_public : Result unit :=
  assert_eq (lrc [0x11; 0x03; 0x00; 0x6B; 0x00; 0x03]) 0x7E.

(** FR-R-110, FR-R-111, FR-R-114 *)
Definition ut_ascii_request_spec_example : Result unit :=
  assert_eq (decode_request Ascii_framing ascii_READ_HOLDING_REQUEST)
      (Ok (mkUnitId 0x11, ascii_read_holding));;
  assert_eq (encode_request Ascii_framing (mkUnitId 0x11) ascii_read_holding)
      (Ok ascii_READ_HOLDING_REQUEST).

(** FR-R-110 *)
Definition ut_ascii_response_spec_example : Result unit :=
  let bytes := ascii_bytes ":110306022B0000006455" ++ [13; 10] in
  let pdu := Resp_ReadHoldingRegisters [mkRegisterValue 0x022B; mkRegisterValue 0x0000;
      mkRegisterValue 0x0064] in
  assert_eq (decode_response Ascii_framing bytes) (Ok (mkUnitId 0x11, pdu));;
  assert_eq (encode_response Ascii_framing (mkUnitId 0x11) pdu) (Ok bytes).

(** FR-R-112, FR-R-119, FR-ADU-R-003, FR-ADU-E-008 *)
Definition ut_ascii_lowercase_reencodes_uppercase : Result unit :=
  let lowercase := ascii_bytes ":1103006b00037e" ++ [13; 10] in
  '(address, pdu) ← unwrap (decode_request Ascii_framing lowercase);
  assert_eq (address, pdu) (mkUnitId 0x11, ascii_read_holding);;
  uppercase ← unwrap (encode_request Ascii_framing address pdu);
  assert_eq uppercase ascii_READ_HOLDING_REQUEST;;
  assert_eq (decode_request Ascii_framing uppercase) (Ok (address, pdu)).

(** FR-R-122 *)
Definition ut_ascii_boundary_is_delimited : Result unit :=
  match boundary Ascii_framing with
  | Delimited start end_ =>
  assert_eq (start, end_) (58, ascii_bytes "" ++ [13; 10])
  | _ => Panic
  end.

(** FR-R-118 *)
Definition ut_ascii_carries_exception_responses : Result unit :=
  let pdu := Resp_Exception (mkExceptionResponse FC_ReadHoldingRegisters EC_IllegalDataAddress) in
  bytes ← unwrap (encode_response Ascii_framing (mkUnitId 0x11) pdu);
  assert_eq bytes (ascii_bytes ":1183026A" ++ [13; 10]);;
  assert_eq (decode_response Ascii_framing bytes) (Ok (mkUnitId 0x11, pdu)).

(** FR-R-114, FR-R-115, FR-ADU-E-007 *)
Definition ut_ascii_lrc_mismatch_rejected : Result unit :=
  assert_eq (decode_request Ascii_framing (ascii_bytes ":1103006B00037F" ++ [13; 10]))
      (Err (Checksum 0x7E 0x7F)).

(** FR-ADU-R-004, FR-ADU-E-006 *)
Definition ut_ascii_invalid_hexadecimal_character : Result unit :=
  assert_eq (decode_request Ascii_framing (ascii_bytes ":1103006B0003GE" ++ [13; 10]))
      (Err (InvalidCharacter 71)).

(** FR-R-116, FR-ADU-E-004, FR-ADU-E-005 *)
Definition ut_ascii_framing_errors : Result unit :=
  assert_eq (decode_request Ascii_framing (ascii_bytes "1103006B00037E" ++ [13; 10]))
      (Err (FramingError "start character"));;
  assert_eq (decode_request Ascii_framing (ascii_bytes ":1103006B00037E" ++ [10; 13]))
      (Err (FramingError "terminator"));;
  assert_eq (decode_request Ascii_framing (ascii_bytes ":1103006B00037" ++ [13; 10]))
      (Err (FramingError "hexadecimal character count")).

(** FR-R-113, FR-ADU-E-012 *)
Definition ut_ascii_adu_too_large : Result unit :=
  let bytes := replicate 514%nat 48 in
  assert_eq (decode_request Ascii_framing bytes) (Err (AduTooLarge 514 513)).

(** FR-R-131 *)
Definition ut_ascii_adu_too_short : Result unit :=
  assert_eq (decode_request Ascii_framing (ascii_bytes ":11" ++ [13; 10])) (Err (Truncated 9 5)).

(** FR-R-117, FR-R-118 *)
Definition ut_ascii_and_rtu_agree_on_address_and_pdu : Result unit :=
  for_each [0x00; 0x01; 0xF7; 0xFF] (λ address,
    ascii ← unwrap (encode_request Ascii_framing (mkUnitId address) ascii_read_holding);
    rtu ← unwrap (encode_request Rtu_framing (mkUnitId address) ascii_read_holding);
    assert_eq (decode_request Ascii_framing ascii) (decode_request Rtu_framing rtu)).

Definition ascii_tests : list (Result unit) :=
  [ut_lrc_is_public; ut_ascii_request_spec_example; ut_ascii_response_spec_example;
      ut_ascii_lowercase_reencodes_uppercase; ut_ascii_boundary_is_delimited;
      ut_ascii_carries_exception_responses; ut_ascii_lrc_mismatch_rejected;
      ut_ascii_invalid_hexadecimal_character; ut_ascii_framing_errors; ut_ascii_adu_too_large;
      ut_ascii_adu_too_short; ut_ascii_and_rtu_agree_on_address_and_pdu].

(** ** [frame/framing.rs] *)

Definition framing_request : RequestPdu :=
  Req_ReadHoldingRegisters (mkAddress 0x006B) (mkQuantity 3).

Definition unencodable : RequestPdu :=
  Req_WriteMultipleRegisters (mkAddress 0) (replicate 124%nat (mkRegisterValue 0)).

Definition framing_response : ResponsePdu :=
  Resp_ReadHoldingRegisters [mkRegisterValue 0x022B].

(** FR-R-144 *)
Definition ut_boundary_self_locating_by_framing : Result unit :=
  assert (is_self_locating (boundary Rtu_framing));;
  assert (is_self_locating (boundary Ascii_framing));;
  assert (negb (is_self_locating (boundary Tcp_framing))).

(** FR-R-140, FR-R-156.  The same bytes appended and allocated, for one framing. *)
Definition appending_encode_holds (F : Framing) (header : Header F) : Result unit :=
  allocating ← unwrap (encode_request F header framing_request);
  let out := [0xAA; 0xBB] in
  let '(r1, out) := encode_request_into F header framing_request out in
  _ ← unwrap r1;
  assert_eq (head out) (Some 0xAA);;
  assert_eq (out !! 1%nat) (Some 0xBB);;
  assert_eq (slice_get 2 (len out) out) (Some allocating);;
  allocating ← unwrap (encode_response F header framing_response);
  let '(r2, out) := encode_response_into F header framing_response [] in
  _ ← unwrap r2;
  assert_eq out allocating.

(** FR-R-142.  A failure leaves the buffer as it was found. *)
Definition failed_encode_restores (F : Framing) (header : Header F) : Result unit :=
  let out := [0x01; 0x02; 0x03] in
  let '(r, out) := encode_request_into F header unencodable out in
  assert (is_err r);;
  assert_eq out [0x01; 0x02; 0x03].

Definition ut_rtu_appending_encode : Result unit :=
  appending_encode_holds Rtu_framing (mkUnitId 0x11);;
  failed_encode_restores Rtu_framing (mkUnitId 0x11).

Definition ut_tcp_appending_encode : Result unit :=
  let header := mkMbapHeader (mkTransactionId 0x0001) (mkUnitId 0x11) in
  appending_encode_holds Tcp_framing header;;
  failed_encode_restores Tcp_framing header.

Definition ut_ascii_appending_encode : Result unit :=
  appending_encode_holds Ascii_framing (mkUnitId 0x11);;
  failed_encode_restores Ascii_framing (mkUnitId 0x11).

Definition framing_tests : list (Result unit) :=
  [ut_boundary_self_locating_by_framing; ut_rtu_appending_encode; ut_tcp_appending_encode;
      ut_ascii_appending_encode].

(** Every unit test of the frame layer passes. *)
Lemma frame_tests_pass : Forall passes (value_tests ++ function_tests ++ exception_tests ++ mei_tests ++ rtu_tests ++ tcp_tests ++ ascii_tests ++ framing_tests).
Proof. run_tests. Qed.
End tests.
