(* ===== verification/Adu.v ===== *)
(** * Properties every framing has

    Proved once against the interface [LawfulFraming], which RTU, RTU over a
    stream, TCP and ASCII discharge, and stated of those four. *)

From S2P Require Import Prelude.
From S2P Require Import Errors.
From S2P Require Import Parse.
From S2P Require Import Value.
From S2P Require Import Pdu.
From S2P Require Import PduSpec.
From S2P Require Import PduRoundtrip.
From S2P Require Import Framing.
From S2P Require Import Rtu.
From S2P Require Import RtuStream.
From S2P Require Import Tcp.
From S2P Require Import Ascii.

(** The framings of the crate, each with the relation between an ADU it accepts
    and the ADU it would have sent: equality, or for ASCII equality up to the
    case of the hexadecimal characters. *)
Definition crate_framings {w : Winnow} {c : Crc16} : list (Framing * (list Z → list Z → Prop)) :=
  [(Rtu_framing, eq); (RtuOverTcp_framing, eq); (Tcp_framing, eq); (Ascii_framing, same_case)].

Section adu.
Context {w : Winnow} {ws : WinnowSpec w} {c : Crc16} {cs : Crc16Spec c}.

(** Each of them keeps the promises of [LawfulFraming]. *)
Lemma crate_framing_lawful F den :
  (F, den) ∈ crate_framings → ∃ L : LawfulFraming F, denotes = den.
Proof.
  unfold crate_framings. rewrite !elem_of_cons.
  intros [[= -> ->]|[[= -> ->]|[[= -> ->]|[[= -> ->]|[]%not_elem_of_nil]]]].
  - by exists Rtu_lawful.
  - by exists RtuOverTcp_lawful.
  - by exists Tcp_lawful.
  - by exists Ascii_lawful.
Qed.

(** C6. Round trip of a whole ADU, for RTU, RTU over a stream, TCP and ASCII: a
    well-formed header with a well-formed PDU in canonical form (bits of a response
    in whole bytes; an encapsulated interface type under its own form) that encodes
    decodes to the same header and PDU, in both directions, and the ADU is a byte
    string within the framing's maximum (FR-R-091, FR-R-104, FR-R-113). *)
Theorem adu_roundtrip F den :
  (F, den) ∈ crate_framings →
  (∀ h r adu, wf h → wf r → request_canonical r = true → encode_request F h r = Ok adu →
     decode_request F adu = Ok (h, r) ∧ bytes_ok adu ∧ 1 ≤ len adu ≤ MAX_ADU_LEN F) ∧
  (∀ h r adu, wf h → wf r → response_canonical r = true → encode_response F h r = Ok adu →
     decode_response F adu = Ok (h, r) ∧ bytes_ok adu ∧ 1 ≤ len adu ≤ MAX_ADU_LEN F).
Proof.
  intros HF. destruct (crate_framing_lawful F den HF) as [L _].
  split; intros h r adu Hh Hr Hc He.
  - by apply request_adu_roundtrip.
  - by apply response_adu_roundtrip.
Qed.

(** Decoding an ADU and encoding the result gives back the ADU the input
    stands for: the input itself, or for ASCII its upper-case form. *)
Theorem adu_reencode F den bs :
  (F, den) ∈ crate_framings → bytes_ok bs →
  (∀ h r, decode_request F bs = Ok (h, r) →
     ∃ adu, encode_request F h r = Ok adu ∧ den bs adu ∧ wf h ∧ wf r) ∧
  (∀ h r, decode_response F bs = Ok (h, r) →
     ∃ adu, encode_response F h r = Ok adu ∧ den bs adu ∧ wf h ∧ wf r).
Proof.
  intros HF Hb. destruct (crate_framing_lawful F den HF) as [L <-]. split; intros h r Hd.
  - by apply request_adu_reencode.
  - by apply response_adu_reencode.
Qed.

(** Appending an ADU to a buffer is all or nothing, for every framing of
    the crate: on success the buffer gains exactly one frame at its end, on
    failure it is as it was (FR-R-140, FR-R-142), and no input panics. *)
Theorem adu_encode_atomic F den h out :
  (F, den) ∈ crate_framings → wf h → vec_ok out →
  (∀ r, wf r →
     (∃ adu, encode_request_into F h r out = (Ok tt, out ++ adu) ∧
        encode_request F h r = Ok adu) ∨
     (∃ e, encode_request_into F h r out = (Err e, out) ∧ encode_request F h r = Err e)) ∧
  (∀ r, wf r →
     (∃ adu, encode_response_into F h r out = (Ok tt, out ++ adu) ∧
        encode_response F h r = Ok adu) ∨
     (∃ e, encode_response_into F h r out = (Err e, out) ∧ encode_response F h r = Err e)).
Proof.
  intros HF Hh Ho. destruct (crate_framing_lawful F den HF) as [L _]. split; intros r Hr.
  - rewrite encode_request_into_frame, encode_request_frame by done.
    pose proof (request_bytes_no_panic r). unfold appended.
    destruct (request_bytes r) as [pdu|e|]; [left|right|done]; eauto.
  - rewrite encode_response_into_frame, encode_response_frame by done.
    pose proof (response_bytes_no_panic r). unfold appended.
    destruct (response_bytes r) as [pdu|e|]; [left|right|done]; eauto.
Qed.

(** Decoding an ADU is total on bytes: in none of the crate's framings does
    any input make the decoder of requests or of responses panic. *)
Theorem adu_decode_total F den bs :
  (F, den) ∈ crate_framings → bytes_ok bs →
  decode_request F bs ≠ Panic ∧ decode_response F bs ≠ Panic.
Proof.
  intros HF Hb. destruct (crate_framing_lawful F den HF) as [L _].
  split; [by apply decode_request_total|by apply decode_response_total].
Qed.
End adu.

(** ** Witnesses *)

Section witnesses.
Local Existing Instance winnow_model.
Local Existing Instance winnow_model_spec.
Local Existing Instance crc_model.
Local Existing Instance crc_model_spec.

Definition request_1 : RequestPdu := Req_WriteSingleCoil (mkAddress 172) true.
Definition mbap_1 : MbapHeader := mkMbapHeader (mkTransactionId 7) (mkUnitId 1).

Lemma crate_tcp : (Tcp_framing, eq) ∈ crate_framings.
Proof. unfold crate_framings. rewrite !elem_of_cons. auto. Qed.
Lemma crate_ascii : (Ascii_framing, same_case) ∈ crate_framings.
Proof. unfold crate_framings. rewrite !elem_of_cons. auto 6. Qed.
Lemma crate_rtu : (Rtu_framing, eq) ∈ crate_framings.
Proof. unfold crate_framings. rewrite !elem_of_cons. auto. Qed.

Lemma adu_roundtrip_witness :
  decode_request Tcp_framing [0; 7; 0; 0; 0; 6; 1; 5; 0; 172; 255; 0] = Ok (mbap_1, request_1).
Proof.
  apply (proj1 (adu_roundtrip Tcp_framing eq crate_tcp) mbap_1 request_1); by_eval.
Defined.

(** A lower-case ASCII frame. *)
Lemma adu_reencode_witness :
  ∃ adu, encode_request Ascii_framing (mkUnitId 1) request_1 = Ok adu ∧
    same_case [58; 48; 49; 48; 53; 48; 48; 97; 99; 102; 102; 48; 48; 52; 102; 13; 10] adu ∧
    wf (mkUnitId 1) ∧ wf request_1.
Proof.
  refine (proj1 (adu_reencode Ascii_framing same_case _ crate_ascii _) (mkUnitId 1) request_1 _);
    by_eval.
Defined.

(** A quantity out of range leaves the buffer alone. *)
Definition request_2 : RequestPdu := Req_ReadCoils (mkAddress 0) (mkQuantity 2001).

Lemma adu_encode_atomic_witness :
  (∃ adu, encode_request_into Rtu_framing (mkUnitId 1) request_2 [9] = (Ok tt, [9] ++ adu) ∧
    encode_request Rtu_framing (mkUnitId 1) request_2 = Ok adu) ∨
  (∃ e, encode_request_into Rtu_framing (mkUnitId 1) request_2 [9] = (Err e, [9]) ∧
    encode_request Rtu_framing (mkUnitId 1) request_2 = Err e).
Proof. apply (adu_encode_atomic Rtu_framing eq); [apply crate_rtu|by_eval..]. Defined.

Lemma adu_decode_total_witness :
  decode_request Tcp_framing [0; 1; 0; 0; 0; 3; 1; 43; 14] ≠ Panic ∧
  decode_response Tcp_framing [0; 1; 0; 0; 0; 3; 1; 43; 14] ≠ Panic.
Proof. apply (adu_decode_total Tcp_framing eq); [apply crate_tcp|by_eval]. Defined.
End witnesses.
