(* ===== verification/Serial.v ===== *)
(** * Serial lines ([src/transport/serial.rs], [rs485.rs], and
    [TransportConfig] of [mod.rs])

    A [Duration] is a count of nanoseconds.  What the kernel and the serial
    backend do is an input. *)

From S2P Require Import Prelude.
From S2P Require Import Errors.
From S2P Require Import Parse.
From S2P Require Import Value.

Definition FIXED_INTERVAL_ABOVE_BAUD : Z := 19200.
Definition FIXED_INTERVAL : Z := 1750 * 1000.

Inductive DataBits := Five | Six | Seven | Eight.
Inductive Parity := ParityNone | Odd | Even.
Inductive StopBits := One | Two.
Inductive FlowControl := FlowNone | Software | Hardware.
Inductive RtsPolarity := High | Low.

Record Rs485Config := mkRs485Config {
  rts_on_send : RtsPolarity;
  delay_before_send : Z;
  delay_after_send : Z;
}.

Record SerialConfig := mkSerialConfig {
  baud_rate : Z;
  data_bits : DataBits;
  parity : Parity;
  stop_bits : StopBits;
  flow_control : FlowControl;
  rs485 : option Rs485Config;
}.

(** [Default for SerialConfig]. *)
Definition SerialConfig_default : SerialConfig :=
  mkSerialConfig 19200 Eight Even One FlowNone None.

Definition bits_per_character (c : SerialConfig) : Z :=
  let data := match data_bits c with Five => 5 | Six => 6 | Seven => 7 | Eight => 8 end in
  let parity := match parity c with ParityNone => 0 | Odd | Even => 1 end in
  let stop := match stop_bits c with One => 1 | Two => 2 end in
  1 + data + parity + stop.

Definition u64_saturating_mul (a b : Z) : Z := Z.min (a * b) U64_MAX.

(** [SerialConfig::inter_frame_interval]; [saturating_div] by zero panics. *)
Definition inter_frame_interval (c : SerialConfig) : Result Z :=
  if baud_rate c =? 0 then Err (Configuration "baud_rate") else
  if FIXED_INTERVAL_ABOVE_BAUD <? baud_rate c then Ok FIXED_INTERVAL else
  let divisor := u64_saturating_mul (baud_rate c) 2 in
  if divisor =? 0 then Panic else
  Ok (u64_saturating_mul (bits_per_character c) 7000000000 / divisor).

(** [TransportConfig], its default and [from_serial]. *)
Record TransportConfig := mkTransportConfig {
  tc_inter_frame_interval : Z;
  tc_ascii_inter_character_timeout : Z;
}.

Definition TransportConfig_default : TransportConfig := mkTransportConfig 2005208 (10 ^ 9).

Definition from_serial (c : SerialConfig) : Result TransportConfig :=
  interval ← inter_frame_interval c;
  Ok (mkTransportConfig interval (tc_ascii_inter_character_timeout TransportConfig_default)).

(** ** RS-485 *)

Definition SER_RS485_ENABLED : Z := Z.shiftl 1 0.
Definition SER_RS485_RTS_ON_SEND : Z := Z.shiftl 1 1.
Definition SER_RS485_RTS_AFTER_SEND : Z := Z.shiftl 1 2.

Record KernelRs485 := mkKernelRs485 {
  flags : Z;
  delay_rts_before_send : Z;
  delay_rts_after_send : Z;
  padding : list Z;
}.

(** [truncate_to_millis] and [build]. *)
Definition truncate_to_millis (delay : Z) (field : string) : Result Z :=
  let millis := delay / 1000000 in
  if millis <=? U32_MAX then Ok millis else Err (Configuration field).

Definition build (config : Rs485Config) : Result KernelRs485 :=
  let flags := match rts_on_send config with
    | High => Z.lor SER_RS485_ENABLED SER_RS485_RTS_ON_SEND
    | Low => Z.lor SER_RS485_ENABLED SER_RS485_RTS_AFTER_SEND
    end in
  before ← truncate_to_millis (delay_before_send config) "delay_before_send";
  after ← truncate_to_millis (delay_after_send config) "delay_after_send";
  Ok (mkKernelRs485 flags before after (replicate 5 0)).

(** The errno constants [issue_ioctl] names, and the outcome of the call: success
    or [last_os_error]. *)
Record IoctlErrno := { ENOTTY : Z; EINVAL : Z; ENOSYS : Z }.

Definition issue_ioctl (c : IoctlErrno) (outcome : option (ErrorKind * option Z)) : Result unit :=
  match outcome with
  | None => Ok tt
  | Some (kind, raw) =>
      match raw with
      | Some n => if (n =? ENOTTY c) || (n =? EINVAL c) || (n =? ENOSYS c)
                  then Err Rs485Unsupported else Err (Io kind raw)
      | None => Err (Io kind raw)
      end
  end.

(** [apply], on Linux and elsewhere. *)
Definition apply_rs485 (c : IoctlErrno) (linux : bool) (outcome : option (ErrorKind * option Z))
    (config : Rs485Config) : Result unit :=
  if linux then _ ← build config; issue_ioctl c outcome else Err Rs485Unsupported.

(** ** Properties *)

#[export] Instance Wf_SerialConfig : Wf SerialConfig := λ c, 0 ≤ baud_rate c ≤ U32_MAX.

Lemma bits_per_character_bounds c : 7 ≤ bits_per_character c ≤ 12.
Proof.
  unfold bits_per_character. destruct (data_bits c), (parity c), (stop_bits c); lia.
Qed.

Lemma inter_frame_interval_slow c :
  1 ≤ baud_rate c ≤ 19200 →
  inter_frame_interval c = Ok (bits_per_character c * 7000000000 / (baud_rate c * 2)).
Proof.
  intros Hb. unfold inter_frame_interval, FIXED_INTERVAL_ABOVE_BAUD, u64_saturating_mul, U64_MAX.
  pose proof (bits_per_character_bounds c).
  rewrite !Z.min_l by lia.
  destruct (Z.eqb_spec (baud_rate c) 0); [lia|]. destruct (Z.ltb_spec 19200 (baud_rate c)); [lia|].
  by destruct (Z.eqb_spec (baud_rate c * 2) 0); [lia|].
Qed.

(** C34. The silence between RTU frames is 3.5 characters, to the nanosecond
    rounded down, for every rate up to 19200 baud, and 1.75 ms above; the only
    rate refused is zero; no arithmetic saturates; and the crate's default
    interval is the one of the default line (TR-R-011, TR-R-086). *)
Theorem inter_frame_interval_spec c :
  wf c →
  (inter_frame_interval c = Err (Configuration "baud_rate") ↔ baud_rate c = 0) ∧
  (19200 < baud_rate c → inter_frame_interval c = Ok 1750000) ∧
  (1 ≤ baud_rate c ≤ 19200 → ∃ nanos, inter_frame_interval c = Ok nanos ∧
     2 * baud_rate c * nanos ≤ 7 * bits_per_character c * 10 ^ 9 < 2 * baud_rate c * (nanos + 1) ∧
     1276041 ≤ nanos) ∧
  from_serial SerialConfig_default = Ok TransportConfig_default.
Proof.
  intros Hw. unfold wf, Wf_SerialConfig, U32_MAX in Hw. split_and!; [| | |done].
  - unfold inter_frame_interval, FIXED_INTERVAL_ABOVE_BAUD. split.
    + destruct (baud_rate c =? 0) eqn:E; [by apply Z.eqb_eq in E|].
      destruct (19200 <? baud_rate c); [discriminate|]. cbn zeta. case_match; discriminate.
    + by intros ->.
  - intros Hf. unfold inter_frame_interval, FIXED_INTERVAL_ABOVE_BAUD.
    destruct (Z.eqb_spec (baud_rate c) 0); [lia|]. by destruct (Z.ltb_spec 19200 (baud_rate c)); [|lia].
  - intros Hb. rewrite inter_frame_interval_slow by done. eexists. split; [done|].
    pose proof (bits_per_character_bounds c). set (b := bits_per_character c) in *.
    pose proof (Z.div_mod (b * 7000000000) (baud_rate c * 2) ltac:(lia)).
    pose proof (Z.mod_pos_bound (b * 7000000000) (baud_rate c * 2) ltac:(lia)).
    split; [lia|]. apply Z.div_le_lower_bound; lia.
Qed.

(** RS-485 direction control is all or nothing: the driver is asked for
    exactly one of the two RTS levels and for the delays in whole milliseconds,
    and a delay beyond 32 bits is refused instead of wrapping (TR-R-056,
    TR-R-057, TR-R-093). *)
Theorem rs485_build_spec config :
  0 ≤ delay_before_send config → 0 ≤ delay_after_send config →
  (∀ k, build config = Ok k →
     Z.testbit (flags k) 0 = true ∧ Z.testbit (flags k) 1 = negb (Z.testbit (flags k) 2) ∧
     (Z.testbit (flags k) 1 = true ↔ rts_on_send config = High) ∧
     0 ≤ flags k < 8 ∧
     delay_rts_before_send k * 10 ^ 6 ≤ delay_before_send config < (delay_rts_before_send k + 1) * 10 ^ 6 ∧
     delay_rts_after_send k * 10 ^ 6 ≤ delay_after_send config < (delay_rts_after_send k + 1) * 10 ^ 6 ∧
     0 ≤ delay_rts_before_send k ≤ U32_MAX ∧ 0 ≤ delay_rts_after_send k ≤ U32_MAX) ∧
  (is_err (build config) = true ↔
     (U32_MAX + 1) * 10 ^ 6 ≤ delay_before_send config ∨
     (U32_MAX + 1) * 10 ^ 6 ≤ delay_after_send config).
Proof.
  intros H1 H2. unfold build, truncate_to_millis, U32_MAX.
  pose proof (Z.div_mod (delay_before_send config) 1000000 ltac:(lia)).
  pose proof (Z.mod_pos_bound (delay_before_send config) 1000000 ltac:(lia)).
  pose proof (Z.div_mod (delay_after_send config) 1000000 ltac:(lia)).
  pose proof (Z.mod_pos_bound (delay_after_send config) 1000000 ltac:(lia)).
  set (a := delay_before_send config / 1000000) in *. set (b := delay_after_send config / 1000000) in *.
  destruct (a <=? 4294967295) eqn:Ea; [apply Z.leb_le in Ea|apply Z.leb_gt in Ea];
    (destruct (b <=? 4294967295) eqn:Eb; [apply Z.leb_le in Eb|apply Z.leb_gt in Eb]); cbn.
  all: split; [|split; [intros|]; try done; try lia; intros [?|?]; try done; lia].
  all: try (intros k [=]; fail).
  intros k [= <-]. cbn [flags delay_rts_before_send delay_rts_after_send].
  destruct (rts_on_send config); (split_and!; try done; try lia).
Qed.

(** ** Witnesses *)

(** 9600 baud, eight data bits, no parity, two stop bits. *)
Definition slow_line : SerialConfig := mkSerialConfig 9600 Eight ParityNone Two FlowNone None.

Lemma inter_frame_interval_spec_witness :
  ∃ nanos, inter_frame_interval slow_line = Ok nanos ∧
    2 * 9600 * nanos ≤ 7 * 11 * 10 ^ 9 < 2 * 9600 * (nanos + 1) ∧ 1276041 ≤ nanos.
Proof.
  destruct (inter_frame_interval_spec slow_line) as (_ & _ & H & _).
  - unfold wf, Wf_SerialConfig, U32_MAX. cbn. lia.
  - apply H. cbn. lia.
Defined.

Lemma rs485_build_spec_witness :
  is_err (build (mkRs485Config High 0 (2 ^ 32 * 10 ^ 6))) = true.
Proof.
  apply (rs485_build_spec (mkRs485Config High 0 (2 ^ 32 * 10 ^ 6))); cbn; [lia|lia|].
  right. unfold U32_MAX. lia.
Defined.
