(* ===== verification/Transport.v ===== *)
(** * The framed transport ([src/transport/mod.rs])

    A receive runs over the trace of what the byte stream and the clock do
    while it waits: [Ready r] is a completed read, [Quiet] is a wait long enough
    for an armed timer to elapse (a wait without a timer goes on).  The loops
    are structural on the trace; a receive still waiting when the trace ends is
    [Pending], which is also what a dropped future leaves behind. *)

From S2P Require Import Prelude.
From S2P Require Import Errors.
From S2P Require Import Parse.
From S2P Require Import Value.
From S2P Require Import Pdu.
From S2P Require Import PduSpec.
From S2P Require Import PduRoundtrip.
From S2P Require Import Framing.

(** What one [stream.read] yields: bytes (none of them at the end of the
    stream) or an I/O error. *)
Inductive ReadResult :=
  | Bytes (bs : list Z)
  | Failed (kind : ErrorKind) (raw_os_error : option Z).

Inductive Event :=
  | Ready (r : ReadResult)
  | Quiet.

(** Outcome of a receive: its result with the buffer and the trace left, or the
    buffer of a wait that the trace does not end. *)
Inductive Recv (A : Type) :=
  | Done (r : Result A) (buffer : list Z) (trace : list Event)
  | Pending (buffer : list Z).
Arguments Done {A} r buffer trace.
Arguments Pending {A} buffer.

Definition READ_CHUNK : Z := 513.

Definition is_empty (buffer : list Z) : bool :=
  match buffer with [] => true | _ => false end.

(** [windows(needle.len()).position(..)] and [find]. *)
Fixpoint window_position (needle haystack : list Z) : option Z :=
  match haystack with
  | [] => None
  | _ :: haystack' =>
      if bool_decide (take (length needle) haystack = needle) then Some 0
      else (λ offset, offset + 1) <$> window_position needle haystack'
  end.

Definition find (haystack needle : list Z) (from : Z) : option Z :=
  tail ← slice_get from (len haystack) haystack;
  (λ offset, saturating_add offset from) <$> window_position needle tail.

(** [iter().position(|byte| *byte == start)]. *)
Fixpoint position (start : Z) (buffer : list Z) : option Z :=
  match buffer with
  | [] => None
  | b :: buffer' =>
      if b =? start then Some 0 else (λ offset, offset + 1) <$> position start buffer'
  end.

(** [take]: [drain(..len)] panics beyond the end. *)
Definition take_adu (buffer : list Z) (n : Z) : Result (list Z) * list Z :=
  if n <=? len buffer then (Ok (take (Z.to_nat n) buffer), drop (Z.to_nat n) buffer)
  else (Panic, buffer).

Definition finish_take (buffer : list Z) (n : Z) (trace : list Event) : Recv (list Z) :=
  let '(r, buffer') := take_adu buffer n in Done r buffer' trace.

(** [read_more], on a completed read. *)
Definition read_more (mid_adu : bool) (r : ReadResult) (buffer : list Z)
    : Result unit * list Z :=
  match r with
  | Failed kind raw_os_error => (Err (Io kind raw_os_error), buffer)
  | Bytes [] =>
      (Err (if mid_adu then ConnectionClosed else Io UnexpectedEof None), buffer)
  | Bytes chunk =>
      if READ_CHUNK <? len chunk then (Panic, buffer) else (Ok tt, buffer ++ chunk)
  end.

Section with_framing.
Context (F : Framing).

(** [check_buffer_bound]. *)
Definition check_buffer_bound (buffer : list Z) : Result unit :=
  if MAX_ADU_LEN F <=? len buffer then Err (AduTooLarge (len buffer) (MAX_ADU_LEN F)) else Ok tt.

(** [fill_to]: the check, then the loop. *)
Fixpoint fill_loop (n : Z) (trace : list Event) (buffer : list Z) : Recv unit :=
  if n <=? len buffer then Done (Ok tt) buffer trace else
  match trace with
  | [] => Pending buffer
  | Quiet :: trace' => fill_loop n trace' buffer
  | Ready r :: trace' =>
      match read_more (negb (is_empty buffer)) r buffer with
      | (Ok _, buffer') => fill_loop n trace' buffer'
      | (Err e, buffer') => Done (Err e) buffer' trace'
      | (Panic, buffer') => Done Panic buffer' trace'
      end
  end.

Definition fill_to (n : Z) (trace : list Event) (buffer : list Z) : Recv unit :=
  if MAX_ADU_LEN F <? n then Done (Err (AduTooLarge n (MAX_ADU_LEN F))) buffer trace
  else fill_loop n trace buffer.

(** [read_prefixed]. *)
Definition read_prefixed (prefix : Z) (total : list Z → Result Z)
    (trace : list Event) (buffer : list Z) : Recv (list Z) :=
  match fill_to prefix trace buffer with
  | Pending buffer => Pending buffer
  | Done (Err e) buffer trace => Done (Err e) buffer trace
  | Done Panic buffer trace => Done Panic buffer trace
  | Done (Ok _) buffer trace =>
      match (head ← expect (slice_get 0 prefix buffer); total head) with
      | Err e => Done (Err e) buffer trace
      | Panic => Done Panic buffer trace
      | Ok n =>
          match fill_to n trace buffer with
          | Pending buffer => Pending buffer
          | Done (Err e) buffer trace => Done (Err e) buffer trace
          | Done Panic buffer trace => Done Panic buffer trace
          | Done (Ok _) buffer trace => finish_take buffer n trace
          end
      end
  end.

(** One pass of the search in [read_delimited]: the end of the ADU in hand, or
    the buffer and the offset searched so far. *)
Definition scan (start : Z) (end_ : list Z) (buffer : list Z) (searched : Z)
    : (Z * list Z) + (list Z * Z) :=
  match position start buffer with
  | Some offset =>
      let buffer' := if 0 <? offset then drop (Z.to_nat offset) buffer else buffer in
      let searched' := if 0 <? offset then 0 else searched in
      match find buffer' end_ searched' with
      | Some at_ => inl (saturating_add at_ (len end_), buffer')
      | None => inr (buffer', saturating_sub (len buffer') (saturating_sub (len end_) 1))
      end
  | None => inr ([], 0)
  end.

(** [read_delimited]. *)
Fixpoint read_delimited (start : Z) (end_ : list Z) (trace : list Event) (buffer : list Z)
    (searched : Z) : Recv (list Z) :=
  match scan start end_ buffer searched with
  | inl (n, buffer) => finish_take buffer n trace
  | inr (buffer, searched) =>
      match check_buffer_bound buffer with
      | Err e => Done (Err e) buffer trace
      | Panic => Done Panic buffer trace
      | Ok _ =>
          match trace with
          | [] => Pending buffer
          | Quiet :: trace' =>
              if is_empty buffer then read_delimited start end_ trace' buffer searched
              else Done (Err (Timeout "ascii inter-character")) buffer trace'
          | Ready r :: trace' =>
              match read_more (negb (is_empty buffer)) r buffer with
              | (Ok _, buffer') => read_delimited start end_ trace' buffer' searched
              | (Err e, buffer') => Done (Err e) buffer' trace'
              | (Panic, buffer') => Done Panic buffer' trace'
              end
          end
      end
  end.

(** [read_until_silence]. *)
Fixpoint read_until_silence (trace : list Event) (buffer : list Z) : Recv (list Z) :=
  if is_empty buffer then
    match trace with
    | [] => Pending buffer
    | Quiet :: trace' => read_until_silence trace' buffer
    | Ready r :: trace' =>
        match read_more false r buffer with
        | (Ok _, buffer') => read_until_silence trace' buffer'
        | (Err e, buffer') => Done (Err e) buffer' trace'
        | (Panic, buffer') => Done Panic buffer' trace'
        end
    end
  else
    match check_buffer_bound buffer with
    | Err e => Done (Err e) buffer trace
    | Panic => Done Panic buffer trace
    | Ok _ =>
        match trace with
        | [] => Pending buffer
        | Quiet :: trace' => finish_take buffer (len buffer) trace'
        | Ready r :: trace' =>
            match read_more true r buffer with
            | (Ok _, buffer') => read_until_silence trace' buffer'
            | (Err ConnectionClosed, buffer') => finish_take buffer' (len buffer') trace'
            | (Err e, buffer') => Done (Err e) buffer' trace'
            | (Panic, buffer') => Done Panic buffer' trace'
            end
        end
    end.

(** [read_content_length]: the loop, then the whole. *)
Fixpoint content_loop (extent : list Z → Result Extent) (trace : list Event)
    (buffer : list Z) : Recv (list Z) :=
  match extent buffer with
  | Err e => Done (Err e) buffer trace
  | Panic => Done Panic buffer trace
  | Ok (Complete n) => finish_take buffer n trace
  | Ok NeedMore =>
      match check_buffer_bound buffer with
      | Err e => Done (Err e) buffer trace
      | Panic => Done Panic buffer trace
      | Ok _ =>
          match trace with
          | [] => Pending buffer
          | Quiet :: trace' => content_loop extent trace' buffer
          | Ready r :: trace' =>
              match read_more true r buffer with
              | (Ok _, buffer') => content_loop extent trace' buffer'
              | (Err e, buffer') => Done (Err e) buffer' trace'
              | (Panic, buffer') => Done Panic buffer' trace'
              end
          end
      end
  end.

Definition read_content_length (min : Z) (extent : Direction → list Z → Result Extent)
    (direction : Direction) (trace : list Event) (buffer : list Z) : Recv (list Z) :=
  match fill_to min trace buffer with
  | Pending buffer => Pending buffer
  | Done (Err e) buffer trace => Done (Err e) buffer trace
  | Done Panic buffer trace => Done Panic buffer trace
  | Done (Ok _) buffer trace => content_loop (extent direction) trace buffer
  end.

(** [read_adu]. *)
Definition read_adu (direction : Direction) (trace : list Event) (buffer : list Z)
    : Recv (list Z) :=
  match boundary F with
  | Prefixed prefix total => read_prefixed prefix total trace buffer
  | Delimited start end_ => read_delimited start end_ trace buffer 0
  | Silence => read_until_silence trace buffer
  | ContentLength min extent => read_content_length min extent direction trace buffer
  end.

(** The receiving state of a [FrameTransport]: the surplus and the latch. *)
Record RecvState := mkRecvState {
  buffer : list Z;
  receiving : bool;
}.

(** The outcome of a receive method: result, state and trace, or a wait whose
    future holds the latch. *)
Inductive Received (A : Type) :=
  | Returned (r : Result A) (st : RecvState) (trace : list Event)
  | Waiting (st : RecvState).

(** [recv_adu]. *)
Definition recv_adu (direction : Direction) (st : RecvState) (trace : list Event)
    : Received (list Z) :=
  if receiving st then Returned _ (Err (Timeout "receive")) st trace else
  match read_adu direction trace (buffer st) with
  | Pending b => Waiting _ (mkRecvState b true)
  | Done r b trace' =>
      let b' := if is_err r && is_self_locating (boundary F) then [] else b in
      Returned _ r (mkRecvState b' false) trace'
  end.

(** Decoding what was received: [recv_request] and [recv_response]. *)
Definition recv_request (st : RecvState) (trace : list Event)
    : Received (Header F * RequestPdu) :=
  match recv_adu DirRequest st trace with
  | Waiting _ st => Waiting _ st
  | Returned _ r st trace => Returned _ (adu ← r; decode_request F adu) st trace
  end.

Definition recv_response (st : RecvState) (trace : list Event)
    : Received (Header F * ResponsePdu) :=
  match recv_adu DirResponse st trace with
  | Waiting _ st => Waiting _ st
  | Returned _ r st trace => Returned _ (adu ← r; decode_response F adu) st trace
  end.
End with_framing.
Arguments Returned {A} r st trace.
Arguments Waiting {A} st.
