(* ===== verification/TransportSpec.v ===== *)
(** * What the framed transport promises

    A receive returns exactly the next ADU of the byte stream, whatever the
    sizes of the reads, and leaves everything behind it for the next receive;
    it never panics, never grows its buffer beyond one read past the largest
    ADU, and recovers where the framing can. *)

From S2P Require Import Prelude.
From S2P Require Import Errors.
From S2P Require Import Parse.
From S2P Require Import Value.
From S2P Require Import Pdu.
From S2P Require Import PduSpec.
From S2P Require Import PduRoundtrip.
From S2P Require Import Framing.
From S2P Require Import Transport.

(** The bytes a trace delivers, and the traces that deliver without failing. *)
Definition ev_bytes (ev : Event) : list Z :=
  match ev with Ready (Bytes bs) => bs | _ => [] end.
Definition stream (trace : list Event) : list Z := flat_map ev_bytes trace.

Definition delivers (quiet : bool) (ev : Event) : Prop :=
  match ev with
  | Quiet => quiet = true
  | Ready (Bytes bs) => bs ≠ [] ∧ len bs ≤ READ_CHUNK
  | Ready (Failed _ _) => False
  end.

Lemma stream_cons ev trace : stream (ev :: trace) = ev_bytes ev ++ stream trace.
Proof. done. Qed.

(** What a boundary rule needs of an ADU to delimit it. *)
Definition Locates (b : AduBoundary) (dir : Direction) (adu : list Z) : Prop :=
  match b with
  | Prefixed prefix total =>
      0 ≤ prefix ≤ len adu ∧ ∀ tl, total (take (Z.to_nat prefix) (adu ++ tl)) = Ok (len adu)
  | Delimited start end_ =>
      (∃ body, adu = start :: body) ∧ 1 ≤ len end_ ≤ len adu ∧ vec_ok adu ∧
      (∀ from tl, 0 ≤ from ≤ len adu - len end_ →
         window_position end_ (drop (Z.to_nat from) (adu ++ tl)) = Some (len adu - len end_ - from)) ∧
      (∀ from p, p `prefix_of` adu → p ≠ adu → window_position end_ (drop from p) = None)
  | Silence => False
  | ContentLength min extent =>
      min ≤ len adu ∧
      (∀ p, p `prefix_of` adu → p ≠ adu → extent dir p = Ok NeedMore) ∧
      (∀ tl, extent dir (adu ++ tl) = Ok (Complete (len adu)))
  end.

(** Bytes a rule skips before an ADU. *)
Definition skips (b : AduBoundary) (noise : list Z) : Prop :=
  match b with Delimited start _ => start ∉ noise | _ => noise = [] end.

(** Whether a rule waits through a quiet line. *)
Definition waits (b : AduBoundary) : bool := negb (is_self_locating b).

(** ** Reading *)

Lemma read_more_chunk mid bs buf :
  bs ≠ [] → len bs ≤ READ_CHUNK → read_more mid (Bytes bs) buf = (Ok tt, buf ++ bs).
Proof.
  intros Hne Hl. destruct bs as [|b bs]; [done|]. cbn [read_more].
  by destruct (Z.ltb_spec READ_CHUNK (len (b :: bs))); [lia|].
Qed.

Lemma finish_take_app adu tl trace :
  finish_take (adu ++ tl) (len adu) trace = Done (Ok adu) tl trace.
Proof.
  unfold finish_take, take_adu. destruct (Z.leb_spec (len adu) (len (adu ++ tl))); [|len_lia].
  unfold len. by rewrite Nat2Z.id, take_app_length, drop_app_length.
Qed.

(** A buffer that, with what is to come, holds [adu] and more: it starts with
    all of it, or is a strict part of it. *)
Lemma prefix_cases (buf tl adu rest_ : list Z) :
  buf ++ tl = adu ++ rest_ →
  (∃ k, buf = adu ++ k ∧ rest_ = k ++ tl) ∨
  (buf `prefix_of` adu ∧ buf ≠ adu ∧ len buf < len adu ∧ tl ≠ []).
Proof.
  intros H. apply app_eq_inv in H as [(k & -> & ->)|(k & -> & Hk)]; [eauto|].
  destruct k as [|x k]; [left; exists []; rewrite !app_nil_r; naive_solver|].
  right. split_and!.
  - by exists (x :: k).
  - intros H%(f_equal len). len_lia.
  - len_lia.
  - subst tl. done.
Qed.

Lemma fill_loop_ok n trace buf :
  Forall (delivers true) trace → n ≤ len (buf ++ stream trace) →
  ∃ buf' trace', fill_loop n trace buf = Done (Ok tt) buf' trace' ∧
    buf' ++ stream trace' = buf ++ stream trace ∧ n ≤ len buf' ∧ Forall (delivers true) trace'.
Proof.
  intros Ht. revert buf. induction Ht as [|ev trace Hev Ht IH]; intros buf Hn.
  - rewrite app_nil_r in Hn. cbn [fill_loop].
    destruct (Z.leb_spec n (len buf)); [|lia]. by exists buf, [].
  - cbn [fill_loop]. destruct (Z.leb_spec n (len buf)) as [Hle|Hgt].
    { exists buf, (ev :: trace). by split_and!; [| | |constructor]. }
    destruct ev as [[bs|]|]; [|done|].
    + destruct Hev as [Hne Hl]. rewrite read_more_chunk by done.
      destruct (IH (buf ++ bs)) as (b' & t' & H1 & H2 & H3 & H4).
      { by rewrite <- app_assoc. }
      exists b', t'. rewrite <- app_assoc in H2. done.
    + by apply IH.
Qed.

Section with_framing.
Context (F : Framing).

Lemma fill_to_ok n trace buf :
  Forall (delivers true) trace → n ≤ len (buf ++ stream trace) → n ≤ MAX_ADU_LEN F →
  ∃ buf' trace', fill_to F n trace buf = Done (Ok tt) buf' trace' ∧
    buf' ++ stream trace' = buf ++ stream trace ∧ n ≤ len buf' ∧ Forall (delivers true) trace'.
Proof.
  intros Ht Hn Hm. unfold fill_to. destruct (Z.ltb_spec (MAX_ADU_LEN F) n); [lia|].
  by apply fill_loop_ok.
Qed.

Lemma read_prefixed_ok prefix total trace buf adu rest_ :
  Forall (delivers true) trace → buf ++ stream trace = adu ++ rest_ →
  0 ≤ prefix ≤ len adu →
  (∀ tl, total (take (Z.to_nat prefix) (adu ++ tl)) = Ok (len adu)) → len adu ≤ MAX_ADU_LEN F →
  ∃ buf' trace', read_prefixed F prefix total trace buf = Done (Ok adu) buf' trace' ∧
    buf' ++ stream trace' = rest_ ∧ Forall (delivers true) trace'.
Proof.
  intros Ht Hs Hp Htot Hm. unfold read_prefixed.
  destruct (fill_to_ok prefix trace buf) as (b1 & t1 & -> & Hs1 & Hl1 & Ht1);
    [done|rewrite Hs; len_lia|lia|].
  rewrite slice_get_take by lia. cbn [expect mbind Result_bind].
  replace (take (Z.to_nat prefix) b1) with (take (Z.to_nat prefix) (adu ++ rest_)).
  2:{ rewrite <- Hs, <- Hs1. apply take_app_le. unfold len in Hl1. lia. }
  rewrite Htot.
  destruct (fill_to_ok (len adu) t1 b1) as (b2 & t2 & -> & Hs2 & Hl2 & Ht2);
    [done|rewrite Hs1, Hs; len_lia|done|].
  rewrite Hs1, Hs in Hs2.
  destruct (prefix_cases _ _ _ _ Hs2) as [(k & -> & ->)|(_ & _ & ? & _)]; [|lia].
  rewrite finish_take_app. eauto.
Qed.

Lemma check_buffer_bound_ok buf : len buf < MAX_ADU_LEN F → check_buffer_bound F buf = Ok tt.
Proof.
  intros H. unfold check_buffer_bound. by destruct (Z.leb_spec (MAX_ADU_LEN F) (len buf)); [lia|].
Qed.

Lemma content_loop_ok ext trace buf adu rest_ :
  Forall (delivers true) trace → buf ++ stream trace = adu ++ rest_ →
  (∀ p, p `prefix_of` adu → p ≠ adu → ext p = Ok NeedMore) →
  (∀ tl, ext (adu ++ tl) = Ok (Complete (len adu))) → len adu ≤ MAX_ADU_LEN F →
  ∃ buf' trace', content_loop F ext trace buf = Done (Ok adu) buf' trace' ∧
    buf' ++ stream trace' = rest_ ∧ Forall (delivers true) trace'.
Proof.
  intros Ht. revert buf. induction Ht as [|ev trace Hev Ht IH]; intros buf Hs Hpre Hext Hm;
    destruct (prefix_cases _ _ _ _ Hs) as [(k & -> & ->)|(Hp & Hne & Hlt & Htl)]; cbn [content_loop].
  - rewrite Hext, finish_take_app. by exists k, [].
  - done.
  - rewrite Hext, finish_take_app. exists k, (ev :: trace). by split_and!; [| |constructor].
  - rewrite Hpre, check_buffer_bound_ok by (done || lia). destruct ev as [[bs|]|]; [|done|].
    + destruct Hev as [Hbs Hl]. rewrite read_more_chunk by done.
      apply IH; [|done..]. by rewrite <- app_assoc.
    + by apply IH.
Qed.

Lemma read_content_length_ok min ext dir trace buf adu rest_ :
  Forall (delivers true) trace → buf ++ stream trace = adu ++ rest_ → min ≤ len adu →
  (∀ p, p `prefix_of` adu → p ≠ adu → ext dir p = Ok NeedMore) →
  (∀ tl, ext dir (adu ++ tl) = Ok (Complete (len adu))) → len adu ≤ MAX_ADU_LEN F →
  ∃ buf' trace', read_content_length F min ext dir trace buf = Done (Ok adu) buf' trace' ∧
    buf' ++ stream trace' = rest_ ∧ Forall (delivers true) trace'.
Proof.
  intros Ht Hs Hmin Hpre Hext Hm. unfold read_content_length.
  destruct (fill_to_ok min trace buf) as (b1 & t1 & -> & Hs1 & Hl1 & Ht1);
    [done|rewrite Hs; len_lia|lia|].
  apply content_loop_ok; try done. by rewrite Hs1.
Qed.

(** ** Delimiters *)

Lemma position_none start buf : start ∉ buf → position start buf = None.
Proof.
  induction buf as [|b buf IH]; [done|]. intros Hn. cbn. apply not_elem_of_cons in Hn as [Hb Hn].
  destruct (Z.eqb_spec b start); [congruence|]. by rewrite IH.
Qed.

Lemma position_some start noise p :
  start ∉ noise → position start (noise ++ start :: p) = Some (len noise).
Proof.
  induction noise as [|b noise IH]; intros Hn; cbn [app position].
  - by rewrite Z.eqb_refl.
  - apply not_elem_of_cons in Hn as [Hb Hn]. destruct (Z.eqb_spec b start); [congruence|].
    rewrite IH by done. cbn. f_equal. len_lia.
Qed.

Lemma find_window hay needle from :
  0 ≤ from ≤ len hay →
  find hay needle from =
  (λ o, saturating_add o from) <$> window_position needle (drop (Z.to_nat from) hay).
Proof.
  intros Hf. unfold find, slice_get.
  destruct (Z.leb_spec 0 from); [|lia]. destruct (Z.leb_spec from (len hay)); [|lia].
  rewrite Z.leb_refl. cbn [andb mbind option_bind].
  rewrite take_ge; [done|]. rewrite length_drop. unfold len in *. lia.
Qed.

(** A search offset from which the end of [adu] is still ahead. *)
Definition search_ok (adu end_ noise : list Z) (searched : Z) : Prop :=
  noise = [] → 0 ≤ searched ≤ len adu - len end_.

Lemma scan_skip start end_ buf searched :
  start ∉ buf → scan start end_ buf searched = inr ([], 0).
Proof. intros Hn. unfold scan. by rewrite position_none. Qed.

(** The buffer after the bytes before the start byte are dropped. *)
Lemma scan_drop start end_ noise p searched :
  start ∉ noise →
  scan start end_ (noise ++ start :: p) searched =
  let searched' := if 0 <? len noise then 0 else searched in
  match find (start :: p) end_ searched' with
  | Some at_ => inl (saturating_add at_ (len end_), start :: p)
  | None => inr (start :: p, saturating_sub (len (start :: p)) (saturating_sub (len end_) 1))
  end.
Proof.
  intros Hn. unfold scan. rewrite position_some by done. cbn zeta.
  destruct (Z.ltb_spec 0 (len noise)) as [Hl|Hl].
  - replace (Z.to_nat (len noise)) with (length noise) by (unfold len; lia).
    by rewrite drop_app_length.
  - assert (noise = []) as -> by (apply len_0_nil; len_lia). done.
Qed.

Lemma scan_searched adu end_ noise searched :
  1 ≤ len end_ ≤ len adu → search_ok adu end_ noise searched →
  0 ≤ (if 0 <? len noise then 0 else searched) ≤ len adu - len end_.
Proof.
  intros He Hs. destruct (Z.ltb_spec 0 (len noise)); [lia|]. apply Hs, len_0_nil. len_lia.
Qed.

Lemma scan_found start end_ dir adu noise k searched :
  Locates (Delimited start end_) dir adu → start ∉ noise → search_ok adu end_ noise searched →
  scan start end_ (noise ++ adu ++ k) searched = inl (len adu, adu ++ k).
Proof.
  intros ((body & Hadu) & He & Hv & Hfind & _) Hn Hso.
  apply scan_searched in Hso as Hse; [|done].
  rewrite Hadu at 1. cbn [app]. rewrite scan_drop by done. cbn zeta.
  change (start :: body ++ k) with ((start :: body) ++ k). rewrite <- Hadu.
  rewrite find_window, Hfind by (done || len_lia). cbn [fmap option_fmap option_map].
  unfold vec_ok, ISIZE_MAX in Hv.
  rewrite (saturating_add_small (len adu - len end_ - _)) by (unfold USIZE_MAX; lia).
  rewrite saturating_add_small by (unfold USIZE_MAX; lia). do 2 f_equal. lia.
Qed.

Lemma scan_more start end_ dir adu noise p searched :
  Locates (Delimited start end_) dir adu → start ∉ noise → search_ok adu end_ noise searched →
  (start :: p) `prefix_of` adu → start :: p ≠ adu → searched ≤ len (start :: p) →
  scan start end_ (noise ++ start :: p) searched =
  inr (start :: p, saturating_sub (len (start :: p)) (len end_ - 1)).
Proof.
  intros (_ & He & Hv & _ & Hnone) Hn Hso Hpre Hne Hsl.
  apply scan_searched in Hso as Hse; [|done].
  rewrite scan_drop by done. cbn zeta. rewrite find_window.
  - rewrite Hnone by done. cbn. do 2 f_equal. unfold saturating_sub. f_equal. lia.
  - split; [lia|]. destruct (Z.ltb_spec 0 (len noise)); [len_lia|done].
Qed.

(** One pass of the search: the ADU is there, or what is left still leads to it. *)
Lemma scan_step start end_ dir buf tl adu noise rest_ searched :
  Locates (Delimited start end_) dir adu →
  buf ++ tl = noise ++ adu ++ rest_ → start ∉ noise →
  search_ok adu end_ noise searched → searched ≤ len buf →
  (∃ k, scan start end_ buf searched = inl (len adu, adu ++ k) ∧ rest_ = k ++ tl) ∨
  (∃ p noise' searched', scan start end_ buf searched = inr (p, searched') ∧
     p ++ tl = noise' ++ adu ++ rest_ ∧ (start ∉ noise') ∧ search_ok adu end_ noise' searched' ∧
     searched' ≤ len p ∧ len p < len adu ∧ tl ≠ []).
Proof.
  intros Hloc Hs Hn Hso Hsl. pose proof Hloc as ((body & Hadu) & He & _).
  assert (start ∉ buf → ∀ noise', tl = noise' ++ adu ++ rest_ → start ∉ noise' →
    ∃ p noise' searched', scan start end_ buf searched = inr (p, searched') ∧
     p ++ tl = noise' ++ adu ++ rest_ ∧ (start ∉ noise') ∧ search_ok adu end_ noise' searched' ∧
     searched' ≤ len p ∧ len p < len adu ∧ tl ≠ []) as Hskip.
  { intros Hb noise' Htl Hn'. exists [], noise', 0. rewrite scan_skip by done.
    split_and!; try done; [unfold search_ok; lia|rewrite len_nil; lia|].
    rewrite Htl, Hadu. by destruct noise'. }
  apply app_eq_inv in Hs as [(k & -> & Hk)|(noise' & -> & Htl)].
  2:{ apply not_elem_of_app in Hn as [Hb Hn']. right. by apply (Hskip Hb noise'). }
  destruct k as [|b k].
  { right. rewrite app_nil_r in *. apply (Hskip Hn []); [done|apply not_elem_of_nil]. }
  symmetry in Hk. destruct (prefix_cases _ _ _ _ Hk) as [(j & Hj & ->)|(Hp & Hne & Hlt & Htl)].
  - left. exists j. rewrite Hj. split; [|done]. by eapply scan_found.
  - right. assert (b = start) as ->.
    { destruct Hp as [j Hj]. rewrite Hadu in Hj. by injection Hj as <-. }
    exists (start :: k), [], (saturating_sub (len (start :: k)) (len end_ - 1)).
    assert (searched ≤ len (start :: k) ∨ noise ≠ []) as Hsl'.
    { destruct noise; [left; done|by right]. }
    split_and!; try done.
    + destruct Hsl' as [|Hne']; [by eapply scan_more|].
      rewrite scan_drop by done. rewrite <- (scan_more start end_ dir adu noise k 0) by
        (first [done | unfold search_ok; lia | len_lia]).
      rewrite scan_drop by done. cbn zeta.
      destruct (Z.ltb_spec 0 (len noise)); [done|]. destruct Hne'. apply len_0_nil. len_lia.
    + apply not_elem_of_nil.
    + intros _. unfold saturating_sub. lia.
    + unfold saturating_sub. len_lia.
Qed.

Lemma read_delimited_ok start end_ dir trace buf adu noise rest_ searched :
  Locates (Delimited start end_) dir adu → len adu ≤ MAX_ADU_LEN F →
  Forall (delivers false) trace → buf ++ stream trace = noise ++ adu ++ rest_ →
  start ∉ noise → search_ok adu end_ noise searched → searched ≤ len buf →
  ∃ buf' trace', read_delimited F start end_ trace buf searched = Done (Ok adu) buf' trace' ∧
    buf' ++ stream trace' = rest_ ∧ Forall (delivers false) trace'.
Proof.
  intros Hloc Hm Ht. revert buf noise searched.
  induction Ht as [|ev trace Hev Ht IH]; intros buf noise searched Hs Hn Hso Hsl;
    destruct (scan_step start end_ dir buf _ adu noise rest_ searched Hloc Hs Hn Hso Hsl)
      as [(k & Hsc & ->)|(p & noise' & se & Hsc & Hs' & Hn' & Hso' & Hsl' & Hlt & Htl)];
    cbn [read_delimited]; rewrite Hsc.
  - rewrite finish_take_app. by exists k, [].
  - done.
  - rewrite finish_take_app. exists k, (ev :: trace). by split_and!; [| |constructor].
  - rewrite check_buffer_bound_ok by lia. destruct ev as [[bs|]|]; [|done|done].
    destruct Hev as [Hbs Hl]. rewrite read_more_chunk by done.
    apply (IH (p ++ bs) noise' se); try done.
    + by rewrite <- app_assoc.
    + len_lia.
Qed.

(** Part of an ADU, then a quiet line: the receive gives up with that part in
    the buffer. *)
Lemma read_delimited_quiet start end_ dir trace buf part tail noise rest_ searched :
  Locates (Delimited start end_) dir (part ++ tail) → len (part ++ tail) ≤ MAX_ADU_LEN F →
  part ≠ [] → tail ≠ [] → Forall (delivers false) trace →
  buf ++ stream trace = noise ++ part → start ∉ noise →
  search_ok (part ++ tail) end_ noise searched → searched ≤ len buf →
  ∃ buf', read_delimited F start end_ (trace ++ Quiet :: rest_) buf searched =
    Done (Err (Timeout "ascii inter-character")) buf' rest_.
Proof.
  intros Hloc Hm Hpart Htail Ht. revert buf noise searched.
  induction Ht as [|ev trace Hev Ht IH]; intros buf noise searched Hs Hn Hso Hsl;
    (assert (buf ++ (stream _ ++ tail) = noise ++ (part ++ tail) ++ []) as Hfull
      by (rewrite app_nil_r, app_assoc, Hs; by rewrite <- app_assoc));
    destruct (scan_step start end_ dir buf _ (part ++ tail) noise [] searched Hloc Hfull Hn Hso Hsl)
      as [(k & _ & Hk)|(p & noise' & se & Hsc & Hs' & Hn' & Hso' & Hsl' & Hlt & _)];
    try (by symmetry in Hk; apply app_eq_nil in Hk as [_ Hk]; apply app_eq_nil in Hk as [_ Hk]);
    cbn [app read_delimited]; rewrite Hsc, check_buffer_bound_ok by lia.
  - rewrite app_nil_r, !app_assoc in Hs'. apply app_inv_tail in Hs'.
    destruct p as [|x p]; [|by eexists]. cbn in Hs'. symmetry in Hs'.
    by apply app_eq_nil in Hs' as [_ ?].
  - rewrite app_nil_r, !app_assoc in Hs'. apply app_inv_tail in Hs'.
    destruct ev as [[bs|]|]; [|done|done]. destruct Hev as [Hbs Hl].
    rewrite read_more_chunk by done. apply (IH (p ++ bs) noise' se); try done.
    + by rewrite <- app_assoc.
    + len_lia.
Qed.

(** ** One receive *)

Lemma read_adu_exact dir trace buf adu noise rest_ :
  Locates (boundary F) dir adu → len adu ≤ MAX_ADU_LEN F →
  Forall (delivers (waits (boundary F))) trace → skips (boundary F) noise →
  buf ++ stream trace = noise ++ adu ++ rest_ →
  ∃ buf' trace', read_adu F dir trace buf = Done (Ok adu) buf' trace' ∧
    buf' ++ stream trace' = rest_ ∧ Forall (delivers (waits (boundary F))) trace'.
Proof.
  intros Hloc Hm Ht Hn Hs. unfold read_adu.
  destruct (boundary F) as [prefix total|start end_| |min ext]; cbn [waits is_self_locating negb] in *.
  - cbn in Hn. subst noise. destruct Hloc as [Hp Htot]. by apply read_prefixed_ok.
  - eapply (read_delimited_ok start end_ dir); try done; [|apply len_nonneg].
    intros _. destruct Hloc as (_ & He & _). lia.
  - done.
  - cbn in Hn. subst noise. destruct Hloc as (Hmin & Hpre & Hext).
    by apply read_content_length_ok.
Qed.

Lemma recv_adu_exact dir st trace adu noise rest_ :
  Locates (boundary F) dir adu → len adu ≤ MAX_ADU_LEN F → receiving st = false →
  Forall (delivers (waits (boundary F))) trace → skips (boundary F) noise →
  buffer st ++ stream trace = noise ++ adu ++ rest_ →
  ∃ st' trace', recv_adu F dir st trace = Returned (Ok adu) st' trace' ∧
    receiving st' = false ∧ buffer st' ++ stream trace' = rest_ ∧
    Forall (delivers (waits (boundary F))) trace'.
Proof.
  intros Hloc Hm Hr Ht Hn Hs. unfold recv_adu. rewrite Hr.
  destruct (read_adu_exact dir trace (buffer st) adu noise rest_) as (b & t & -> & Hb & Ht');
    [done..|]. by eexists _, t.
Qed.

(** ** A sequence of receives *)

Fixpoint recv_adus (dir : Direction) (n : nat) (st : RecvState) (trace : list Event)
    : option (list (list Z) * RecvState * list Event) :=
  match n with
  | O => Some ([], st, trace)
  | S n' =>
      match recv_adu F dir st trace with
      | Returned (Ok adu) st' trace' =>
          '(adus, st'', trace'') ← recv_adus dir n' st' trace';
          Some (adu :: adus, st'', trace'')
      | _ => None
      end
  end.

Lemma skips_nil b : skips b [].
Proof. destruct b; cbn; [done|apply not_elem_of_nil|done..]. Qed.

Lemma recv_adus_exact dir adus st trace rest_ :
  Forall (λ adu, Locates (boundary F) dir adu ∧ len adu ≤ MAX_ADU_LEN F) adus →
  receiving st = false → Forall (delivers (waits (boundary F))) trace →
  buffer st ++ stream trace = mjoin adus ++ rest_ →
  ∃ st' trace', recv_adus dir (length adus) st trace = Some (adus, st', trace') ∧
    receiving st' = false ∧ buffer st' ++ stream trace' = rest_.
Proof.
  intros Ha. revert st trace. induction Ha as [|adu adus [Hloc Hm] Ha IH]; intros st trace Hr Ht Hs.
  - by exists st, trace.
  - change (mjoin (adu :: adus)) with (adu ++ mjoin adus) in Hs. rewrite <- app_assoc in Hs.
    destruct (recv_adu_exact dir st trace adu [] (mjoin adus ++ rest_))
      as (st1 & t1 & H1 & Hr1 & Hs1 & Ht1); [done..|apply skips_nil|done|].
    cbn [length recv_adus]. rewrite H1.
    destruct (IH st1 t1 Hr1 Ht1 Hs1) as (st2 & t2 & -> & Hr2 & Hs2). by exists st2, t2.
Qed.

(** ** RTU: silence *)

Lemma read_until_silence_ok trace buf rest_ :
  Forall (delivers false) trace → buf ++ stream trace ≠ [] →
  len (buf ++ stream trace) < MAX_ADU_LEN F →
  read_until_silence F (trace ++ Quiet :: rest_) buf =
  Done (Ok (buf ++ stream trace)) [] rest_.
Proof.
  intros Ht. revert buf. induction Ht as [|ev trace Hev Ht IH]; intros buf Hne Hl.
  - rewrite app_nil_r in *. cbn [app read_until_silence].
    destruct (is_empty buf) eqn:E; [by destruct buf|].
    rewrite check_buffer_bound_ok by done.
    rewrite <- (app_nil_r buf) at 1. by rewrite finish_take_app.
  - cbn [app read_until_silence]. destruct ev as [[bs|]|]; [|done|done].
    destruct Hev as [Hbs Hb]. rewrite stream_cons in *. cbn [ev_bytes] in *.
    rewrite app_assoc in *.
    destruct (is_empty buf) eqn:E; rewrite read_more_chunk by done; [by apply IH|].
    rewrite check_buffer_bound_ok by len_lia. by apply IH.
Qed.
End with_framing.
