(* ===== verification/TransportSafety.v ===== *)
(** * Receiving is safe on any trace

    Whatever the peer sends and however the stream fails, a receive does not
    panic, what it returns and what it keeps are bytes, and the buffer never
    exceeds one read beyond the largest ADU of the framing. *)

From S2P Require Import Prelude.
From S2P Require Import Errors.
From S2P Require Import Parse.
From S2P Require Import Value.
From S2P Require Import Pdu.
From S2P Require Import PduSpec.
From S2P Require Import PduRoundtrip.
From S2P Require Import Framing.
From S2P Require Import Transport.

(** What the stream guarantees of each completed read. *)
Definition ev_ok (ev : Event) : Prop :=
  match ev with Ready (Bytes bs) => bytes_ok bs ∧ len bs ≤ READ_CHUNK | _ => True end.

(** What the rule of a framing guarantees. *)
Definition boundary_ok (b : AduBoundary) : Prop :=
  match b with
  | Prefixed prefix total => 0 ≤ prefix ∧ ∀ bs, bytes_ok bs → total bs ≠ Panic
  | ContentLength _ extent => ∀ dir bs, bytes_ok bs →
      extent dir bs ≠ Panic ∧ ∀ n, extent dir bs = Ok (Complete n) → n ≤ len bs
  | _ => True
  end.

Definition read_limit (F : Framing) : Z := MAX_ADU_LEN F - 1 + READ_CHUNK.

Definition buf_ok (F : Framing) (buf : list Z) : Prop :=
  bytes_ok buf ∧ len buf ≤ read_limit F.

(** A good outcome: no panic, a bounded buffer of bytes, a good value. *)
Definition good {A} (F : Framing) (Q : A → list Z → Prop) (r : Recv A) : Prop :=
  match r with
  | Pending b => buf_ok F b
  | Done (Ok a) b t => buf_ok F b ∧ Forall ev_ok t ∧ Q a b
  | Done (Err _) b t => buf_ok F b ∧ Forall ev_ok t
  | Done Panic _ _ => False
  end.

Definition good_adu (adu _rest : list Z) : Prop := bytes_ok adu.

Section safety.
Context (F : Framing) (HF : 1 ≤ MAX_ADU_LEN F).

Lemma buf_ok_drop n buf : buf_ok F buf → buf_ok F (drop n buf).
Proof. intros [Hb Hl]. split; [by apply bytes_ok_drop|]. rewrite len_drop. len_lia. Qed.

Lemma buf_ok_nil : buf_ok F [].
Proof. split; [constructor|]. unfold read_limit, READ_CHUNK. rewrite len_nil. lia. Qed.

(** A read into a buffer that may still grow. *)
Lemma read_more_good mid r buf :
  ev_ok (Ready r) → buf_ok F buf → len buf < MAX_ADU_LEN F →
  match read_more mid r buf with
  | (Ok _, b) => buf_ok F b
  | (Err _, b) => buf_ok F b
  | (Panic, _) => False
  end.
Proof.
  intros Hr [Hb Hl] Hlt. destruct r as [[|x bs]|k o]; cbn [read_more]; [done| |done].
  destruct Hr as [Hbs Hc]. destruct (Z.ltb_spec READ_CHUNK (len (x :: bs))); [lia|].
  split; [auto with bytes|]. unfold read_limit. len_lia.
Qed.

Lemma finish_take_good buf n trace :
  buf_ok F buf → Forall ev_ok trace → n ≤ len buf →
  good F good_adu (finish_take buf n trace).
Proof.
  intros Hb Ht Hn. unfold finish_take, take_adu. destruct (Z.leb_spec n (len buf)); [|lia].
  split_and!; [by apply buf_ok_drop|done|]. apply bytes_ok_take, Hb.
Qed.

Lemma fill_loop_good n trace buf :
  n ≤ MAX_ADU_LEN F → buf_ok F buf → Forall ev_ok trace →
  good F (λ _ b, n ≤ len b) (fill_loop n trace buf).
Proof.
  intros Hn Hb Ht. revert buf Hb. induction Ht as [|ev trace Hev Ht IH]; intros buf Hb;
    cbn [fill_loop]; destruct (Z.leb_spec n (len buf)) as [Hle|Hgt].
  - done.
  - done.
  - split_and!; [done|by constructor|done].
  - destruct ev as [r|]; [|by apply IH].
    pose proof (read_more_good (negb (is_empty buf)) r buf Hev Hb ltac:(lia)) as Hr.
    destruct (read_more _ r buf) as [[u|e|] b]; [by apply IH|done|done].
Qed.

Lemma fill_to_good n trace buf :
  buf_ok F buf → Forall ev_ok trace → good F (λ _ b, n ≤ len b) (fill_to F n trace buf).
Proof.
  intros Hb Ht. unfold fill_to. destruct (Z.ltb_spec (MAX_ADU_LEN F) n); [done|].
  by apply fill_loop_good.
Qed.

Lemma read_prefixed_good prefix total trace buf :
  boundary_ok (Prefixed prefix total) → buf_ok F buf → Forall ev_ok trace →
  good F good_adu (read_prefixed F prefix total trace buf).
Proof.
  intros [Hp Htot] Hb Ht. unfold read_prefixed.
  pose proof (fill_to_good prefix trace buf Hb Ht) as H1.
  destruct (fill_to F prefix trace buf) as [[u|e|] b1 t1|b1]; [|done..].
  destruct H1 as (Hb1 & Ht1 & Hl1). rewrite slice_get_take by lia. cbn [expect mbind Result_bind].
  pose proof (Htot (take (Z.to_nat prefix) b1) (bytes_ok_take _ _ (proj1 Hb1))) as Hn.
  destruct (total _) as [n|e|]; [|done|done].
  pose proof (fill_to_good n t1 b1 Hb1 Ht1) as H2.
  destruct (fill_to F n t1 b1) as [[u'|e|] b2 t2|b2]; [|done..].
  destruct H2 as (Hb2 & Ht2 & Hl2). by apply finish_take_good.
Qed.

Lemma check_bound_cases buf :
  (check_buffer_bound F buf = Ok tt ∧ len buf < MAX_ADU_LEN F) ∨
  (∃ e, check_buffer_bound F buf = Err e).
Proof.
  unfold check_buffer_bound. destruct (Z.leb_spec (MAX_ADU_LEN F) (len buf)); eauto.
Qed.

Lemma content_loop_good ext trace buf :
  (∀ bs, bytes_ok bs → ext bs ≠ Panic ∧ ∀ n, ext bs = Ok (Complete n) → n ≤ len bs) →
  buf_ok F buf → Forall ev_ok trace → good F good_adu (content_loop F ext trace buf).
Proof.
  intros Hext Hb Ht. revert buf Hb. induction Ht as [|ev trace Hev Ht IH]; intros buf Hb;
    cbn [content_loop]; destruct (Hext buf (proj1 Hb)) as [Hnp Hc];
    destruct (ext buf) as [[|n]|e|]; try done.
  2,4: apply finish_take_good; [done|by try constructor|by apply Hc].
  1-3: try (split; [done|by constructor]);
    destruct (check_bound_cases buf) as [[-> Hlt]|[e' ->]]; try done.
  1: destruct ev as [r|]; [|by apply IH].
  1: pose proof (read_more_good true r buf Hev Hb Hlt) as Hr;
     destruct (read_more true r buf) as [[u|e|] b]; [by apply IH|done|done].
  split; [done|by constructor].
Qed.

Lemma window_position_bound needle hay o :
  window_position needle hay = Some o → 0 ≤ o ∧ o + len needle ≤ len hay.
Proof.
  revert o. induction hay as [|x hay IH]; intros o; cbn [window_position]; [done|].
  case_bool_decide as Hd.
  - intros [= <-]. rewrite <- Hd at 1. rewrite len_take. lia.
  - destruct (window_position needle hay) as [o'|] eqn:E; [|done]. intros [= <-].
    destruct (IH o' eq_refl). len_lia.
Qed.

Lemma find_bound hay needle from at_ :
  find hay needle from = Some at_ → saturating_add at_ (len needle) ≤ len hay.
Proof.
  unfold find, slice_get. intros H.
  destruct ((0 <=? from) && (from <=? len hay) && (len hay <=? len hay)) eqn:E; [|done].
  split_guards. cbn [mbind option_bind] in H.
  destruct (window_position needle _) as [o|] eqn:Hw; [|done]. injection H as <-.
  apply window_position_bound in Hw as [Ho Hl].
  rewrite len_take, len_drop in Hl. pose proof (len_nonneg needle).
  generalize dependent (len hay). generalize dependent (len needle). intros m Hm h **.
  unfold saturating_add. lia.
Qed.

Lemma scan_good start end_ buf searched :
  buf_ok F buf →
  match scan start end_ buf searched with
  | inl (n, b) => buf_ok F b ∧ n ≤ len b
  | inr (b, _) => buf_ok F b
  end.
Proof.
  intros Hb. unfold scan. destruct (position start buf) as [o|]; [|apply buf_ok_nil].
  set (b := if 0 <? o then drop (Z.to_nat o) buf else buf).
  assert (buf_ok F b) as Hb' by (unfold b; case_match; [by apply buf_ok_drop|done]).
  destruct (find b end_ _) as [at_|] eqn:Hf; [|done]. split; [done|]. by eapply find_bound.
Qed.

Lemma read_delimited_good start end_ trace buf searched :
  buf_ok F buf → Forall ev_ok trace →
  good F good_adu (read_delimited F start end_ trace buf searched).
Proof.
  intros Hb Ht. revert buf searched Hb. induction Ht as [|ev trace Hev Ht IH];
    intros buf searched Hb; cbn [read_delimited];
    pose proof (scan_good start end_ buf searched Hb) as Hsc;
    destruct (scan start end_ buf searched) as [[n b]|[b s]].
  - destruct Hsc. by apply finish_take_good.
  - destruct (check_bound_cases b) as [[-> Hlt]|[e' ->]]; done.
  - destruct Hsc. apply finish_take_good; [done|by constructor|done].
  - destruct (check_bound_cases b) as [[-> Hlt]|[e' ->]]; [|split; [done|by constructor]].
    destruct ev as [r|]; [|destruct (is_empty b); [by apply IH|done]].
    pose proof (read_more_good (negb (is_empty b)) r b Hev Hsc Hlt) as Hr.
    destruct (read_more _ r b) as [[u|e|] b']; [by apply IH|done|done].
Qed.

Lemma read_until_silence_good trace buf :
  buf_ok F buf → Forall ev_ok trace → good F good_adu (read_until_silence F trace buf).
Proof.
  intros Hb Ht. revert buf Hb. induction Ht as [|ev trace Hev Ht IH]; intros buf Hb;
    cbn [read_until_silence]; destruct (is_empty buf) eqn:E.
  - done.
  - destruct (check_bound_cases buf) as [[-> Hlt]|[e' ->]]; done.
  - destruct ev as [r|]; [|by apply IH]. destruct buf; [|done].
    pose proof (read_more_good false r [] Hev Hb ltac:(rewrite len_nil; lia)) as Hr.
    destruct (read_more false r []) as [[u|e|] b]; [by apply IH|done|done].
  - destruct (check_bound_cases buf) as [[-> Hlt]|[e' ->]]; [|split; [done|by constructor]].
    destruct ev as [r|]; [|by apply finish_take_good].
    pose proof (read_more_good true r buf Hev Hb Hlt) as Hr.
    destruct (read_more true r buf) as [[u|e|] b]; [by apply IH| |done].
    destruct e; try done. by apply finish_take_good.
Qed.

Lemma read_adu_good dir trace buf :
  boundary_ok (boundary F) → buf_ok F buf → Forall ev_ok trace →
  good F good_adu (read_adu F dir trace buf).
Proof.
  intros Hbo Hb Ht. unfold read_adu. destruct (boundary F) as [prefix total|start end_| |min ext].
  - by apply read_prefixed_good.
  - by apply read_delimited_good.
  - by apply read_until_silence_good.
  - unfold read_content_length. pose proof (fill_to_good min trace buf Hb Ht) as H1.
    destruct (fill_to F min trace buf) as [[u|e|] b1 t1|b1]; [|done..].
    destruct H1 as (Hb1 & Ht1 & _). apply content_loop_good; [|done..]. apply Hbo.
Qed.
End safety.
