(* ===== verification/TransportTheorems.v ===== *)
(** * Properties of the framed transport

    The rules of the four framings delimit what they encode, so a stream of
    frames is received in order whatever the sizes of the reads. *)

From S2P Require Import Prelude.
From S2P Require Import Errors.
From S2P Require Import Parse.
From S2P Require Import Value.
From S2P Require Import Wire.
From S2P Require Import Pdu.
From S2P Require Import PduSpec.
From S2P Require Import PduRoundtrip.
From S2P Require Import Framing.
From S2P Require Import Rtu.
From S2P Require Import RtuStream.
From S2P Require Import Tcp.
From S2P Require Import Ascii.
From S2P Require Import Transport.
From S2P Require Import TransportSpec.
From S2P Require Import TransportSafety.

(** ** The rules delimit the frames *)

Lemma Tcp_locates {w : Winnow} h pdu dir :
  is_pdu pdu → Locates (boundary Tcp_framing) dir (mbap h pdu).
Proof.
  intros Hp. cbn [boundary Tcp_framing Locates]. split.
  - destruct Hp as [_ Hl]. unfold LENGTH_PREFIX_LEN, mbap. len_lia.
  - intros tl. by apply adu_len_mbap.
Qed.

Lemma RtuOverTcp_locates_request {w : Winnow} {c : Crc16} h r pdu :
  wf r → determinate_request r = true → request_bytes r = Ok pdu →
  Locates (boundary RtuOverTcp_framing) DirRequest (rtu_adu h pdu).
Proof.
  intros Hw Hd Hr. cbn [boundary RtuOverTcp_framing Locates].
  pose proof (request_bytes_pdu r pdu Hw Hr) as [_ Hl]. rewrite len_rtu_adu. split; [lia|].
  split.
  - intros p Hp Hne. rewrite (derive_request_extent r pdu p), <- (len_rtu_adu h); try done.
    + by rewrite extent_at_prefix.
    + apply (rtu_adu_sees h pdu []). by rewrite app_nil_r.
  - intros tl. rewrite (derive_request_extent r pdu), <- (len_rtu_adu h); try done.
    + by rewrite extent_at_extend.
    + by apply (rtu_adu_sees h pdu tl).
Qed.

Lemma RtuOverTcp_locates_response {w : Winnow} {c : Crc16} h r pdu :
  wf r → determinate_response r = true → response_bytes r = Ok pdu →
  Locates (boundary RtuOverTcp_framing) DirResponse (rtu_adu h pdu).
Proof.
  intros Hw Hd Hr. cbn [boundary RtuOverTcp_framing Locates].
  pose proof (response_bytes_pdu r pdu Hw Hr) as [_ Hl]. rewrite len_rtu_adu. split; [lia|].
  split.
  - intros p Hp Hne. rewrite (derive_response_extent r pdu p), <- (len_rtu_adu h); try done.
    + by rewrite extent_at_prefix.
    + apply (rtu_adu_sees h pdu []). by rewrite app_nil_r.
  - intros tl. rewrite (derive_response_extent r pdu), <- (len_rtu_adu h); try done.
    + by rewrite extent_at_extend.
    + by apply (rtu_adu_sees h pdu tl).
Qed.

(** A terminator is found where it is, and not before it is all there. *)
Lemma window_found l tl :
  13 ∉ l → window_position TERMINATOR (l ++ TERMINATOR ++ tl) = Some (len l).
Proof.
  induction l as [|x l IH]; intros Hn; [done|]. cbn [app window_position].
  apply not_elem_of_cons in Hn as [Hx Hn]. rewrite bool_decide_false.
  - rewrite IH by done. cbn. f_equal. len_lia.
  - unfold TERMINATOR. cbn. intros [=]. congruence.
Qed.

Lemma window_absent l : 10 ∉ l → window_position TERMINATOR l = None.
Proof.
  induction l as [|x l IH]; intros Hn; [done|]. cbn [window_position].
  apply not_elem_of_cons in Hn as [Hx Hn]. rewrite bool_decide_false, IH by
    (done || (unfold TERMINATOR; cbn; destruct l as [|y l]; intros [=]; subst;
      apply Hn; apply list_elem_of_here)). done.
Qed.

Lemma hexes_no_lf bs : bytes_ok bs → 10 ∉ hexes bs.
Proof.
  induction 1 as [|b bs Hb Hbs IH]; [apply not_elem_of_nil|]. rewrite hexes_cons.
  apply not_elem_of_app. split; [|done]. unfold hex. revert b Hb.
  apply (byte_forall_dec (λ b, 10 ∉ [hex_digit (Z.shiftr b 4); hex_digit (Z.land b 0x0F)])).
  vm_compute. reflexivity.
Qed.

Lemma strict_prefix_init {A} (p l : list A) x :
  p `prefix_of` l ++ [x] → p ≠ l ++ [x] → p `prefix_of` l.
Proof.
  intros Hp Hne. destruct Hp as [k Hk]. destruct k as [|y k _] using rev_ind.
  { rewrite app_nil_r in Hk. congruence. }
  rewrite app_assoc in Hk. apply app_inj_tail in Hk as [-> _]. by exists k.
Qed.

Lemma elem_of_drop_inv {A} n (l : list A) x : x ∈ drop n l → x ∈ l.
Proof. intros H. rewrite <- (take_drop n l). apply elem_of_app. by right. Qed.

Lemma Ascii_locates {w : Winnow} h pdu dir :
  wf h → is_pdu pdu → Locates (boundary Ascii_framing) dir (ascii_adu h pdu).
Proof.
  intros Hh Hp. cbn [boundary Ascii_framing Locates].
  destruct (ascii_adu_bounds h pdu Hh Hp) as [_ Hl]. destruct Hp as [Hpb Hpl].
  assert (bytes_ok (with_lrc (unit_id_0 h :: pdu))) as Hx by (apply with_lrc_ok; auto with bytes).
  unfold ascii_adu in *. set (hx := hexes (with_lrc (unit_id_0 h :: pdu))) in *.
  assert (13 ∉ [START] ++ hx) as H13.
  { apply not_elem_of_app. split; [by intros [=]%list_elem_of_singleton|].
    intros H. by apply hexes_alphabet in H as [_ ?]. }
  assert (10 ∉ [START] ++ hx) as H10.
  { apply not_elem_of_app. split; [by intros [=]%list_elem_of_singleton|].
    by apply hexes_no_lf. }
  rewrite app_assoc in *. set (l := [START] ++ hx) in *.
  assert (len (l ++ TERMINATOR) = len l + 2) as Hll by (unfold TERMINATOR; len_lia).
  change (len TERMINATOR) with 2. split_and!.
  - by exists (hx ++ TERMINATOR).
  - lia.
  - lia.
  - unfold vec_ok, ISIZE_MAX. lia.
  - intros from tl Hf. rewrite <- app_assoc. rewrite drop_app_le by (unfold len in *; lia).
    rewrite window_found; [|intros H; by eapply H13, elem_of_drop_inv].
    f_equal. rewrite len_drop. lia.
  - intros from p Hp Hne. apply window_absent. intros H.
    change TERMINATOR with ([13] ++ [10]) in Hp, Hne. rewrite app_assoc in Hp, Hne.
    apply strict_prefix_init in Hp as [k Hk]; [|done].
    apply elem_of_drop_inv in H.
    assert (10 ∈ l ++ [13]) as Hin by (rewrite Hk; by apply elem_of_app; left).
    apply elem_of_app in Hin as [?|[=]%list_elem_of_singleton]. done.
Qed.

(** ** A frame that never ends *)

Lemma find_absent hay from : 10 ∉ hay → find hay TERMINATOR from = None.
Proof.
  intros Hn. unfold find. destruct (slice_get from (len hay) hay) as [tl|] eqn:E; [|done]. cbn.
  rewrite window_absent; [done|]. unfold slice_get in E.
  destruct (_ && _); [|done]. injection E as <-. intros H. apply Hn.
  apply elem_of_take in H as (i & H & _). apply list_elem_of_lookup_2 in H.
  by eapply elem_of_drop_inv.
Qed.

(** A pass of the search over the bytes of such a frame, some of them in hand. *)
Lemma scan_unterminated buf tl noise body searched :
  buf ++ tl = noise ++ START :: body → START ∉ noise → 10 ∉ body →
  ∃ p noise' searched', scan START TERMINATOR buf searched = inr (p, searched') ∧
    p ++ tl = noise' ++ START :: body ∧ (START ∉ noise') ∧ len p ≤ len (START :: body) ∧
    (tl = [] → p ≠ []).
Proof.
  intros Hs Hn H10. pose proof (len_nonneg body).
  apply app_eq_inv in Hs as [(k & -> & Hk)|(k & -> & Hk)]; [destruct k as [|x k]|].
  - rewrite app_nil_r. exists [], [], 0. rewrite scan_skip by done. cbn in Hk. rewrite <- Hk.
    split_and!; try done; apply not_elem_of_nil.
  - injection Hk as <- ->. apply not_elem_of_app in H10 as [Hk _].
    eexists (START :: k), [], _. rewrite scan_drop by done. cbn zeta.
    rewrite find_absent by (by apply not_elem_of_cons). split_and!; try done; [apply not_elem_of_nil|len_lia].
  - apply not_elem_of_app in Hn as [Hb Hk']. exists [], k, 0. rewrite scan_skip by done.
    subst tl. split_and!; try done. by destruct k.
Qed.

(** Whatever comes before a start byte, and whatever follows it but a line feed,
    in any reads: a quiet line ends the receive. *)
Lemma read_delimited_unterminated F trace buf noise body rest_ searched :
  Forall (delivers false) trace → buf ++ stream trace = noise ++ START :: body →
  START ∉ noise → 10 ∉ body → len (START :: body) < MAX_ADU_LEN F →
  ∃ buf', read_delimited F START TERMINATOR (trace ++ Quiet :: rest_) buf searched =
    Done (Err (Timeout "ascii inter-character")) buf' rest_.
Proof.
  intros Ht. revert buf noise searched.
  induction Ht as [|ev trace Hev Ht IH]; intros buf noise searched Hs Hn H10 Hm;
    destruct (scan_unterminated buf _ noise body searched Hs Hn H10)
      as (p & noise' & se & Hsc & Hs' & Hn' & Hl & Hp);
    cbn [app read_delimited]; rewrite Hsc, check_buffer_bound_ok by lia.
  - destruct p as [|x p]; [by destruct (Hp eq_refl)|by eexists].
  - destruct ev as [[bs|]|]; [|done|done]. destruct Hev as [Hbs Hc].
    rewrite read_more_chunk by done. apply (IH (p ++ bs) noise' se); try done. by rewrite <- app_assoc.
Qed.

(** ** Frames arrive in order *)

Section in_order.
Context {w : Winnow} {ws : WinnowSpec w} (F : Framing) {L : LawfulFraming F}.

(** [n] calls of [recv_request], or of [recv_response], that all succeed. *)
Fixpoint recv_requests (n : nat) (st : RecvState) (trace : list Event)
    : option (list (Header F * RequestPdu) * RecvState * list Event) :=
  match n with
  | O => Some ([], st, trace)
  | S n' =>
      match recv_request F st trace with
      | Returned (Ok m) st' trace' =>
          '(ms, st'', trace'') ← recv_requests n' st' trace'; Some (m :: ms, st'', trace'')
      | _ => None
      end
  end.

Fixpoint recv_responses (n : nat) (st : RecvState) (trace : list Event)
    : option (list (Header F * ResponsePdu) * RecvState * list Event) :=
  match n with
  | O => Some ([], st, trace)
  | S n' =>
      match recv_response F st trace with
      | Returned (Ok m) st' trace' =>
          '(ms, st'', trace'') ← recv_responses n' st' trace'; Some (m :: ms, st'', trace'')
      | _ => None
      end
  end.

(** A message and its frame, which the rule of the framing delimits. *)
Definition request_framed (m : Header F * RequestPdu) (adu : list Z) : Prop :=
  wf (fst m) ∧ wf (snd m) ∧ request_canonical (snd m) = true ∧
  encode_request F (fst m) (snd m) = Ok adu ∧ Locates (boundary F) DirRequest adu.

Definition response_framed (m : Header F * ResponsePdu) (adu : list Z) : Prop :=
  wf (fst m) ∧ wf (snd m) ∧ response_canonical (snd m) = true ∧
  encode_response F (fst m) (snd m) = Ok adu ∧ Locates (boundary F) DirResponse adu.

Lemma recv_request_exact m adu st trace noise rest_ :
  request_framed m adu → receiving st = false →
  Forall (delivers (waits (boundary F))) trace → skips (boundary F) noise →
  buffer st ++ stream trace = noise ++ adu ++ rest_ →
  ∃ st' trace', recv_request F st trace = Returned (Ok m) st' trace' ∧ receiving st' = false ∧
    buffer st' ++ stream trace' = rest_ ∧ Forall (delivers (waits (boundary F))) trace'.
Proof.
  destruct m as [h r]. intros (Hh & Hr & Hc & He & Hl) Hst Ht Hn Hs. cbn [fst snd] in *.
  destruct (request_adu_roundtrip h r adu) as (Hd & _ & _ & Hm); [done..|].
  destruct (recv_adu_exact F DirRequest st trace adu noise rest_)
    as (st' & t' & H1 & H2 & H3 & H4); [done..|].
  unfold recv_request. rewrite H1. cbn [mbind Result_bind]. rewrite Hd. by exists st', t'.
Qed.

Lemma recv_response_exact m adu st trace noise rest_ :
  response_framed m adu → receiving st = false →
  Forall (delivers (waits (boundary F))) trace → skips (boundary F) noise →
  buffer st ++ stream trace = noise ++ adu ++ rest_ →
  ∃ st' trace', recv_response F st trace = Returned (Ok m) st' trace' ∧ receiving st' = false ∧
    buffer st' ++ stream trace' = rest_ ∧ Forall (delivers (waits (boundary F))) trace'.
Proof.
  destruct m as [h r]. intros (Hh & Hr & Hc & He & Hl) Hst Ht Hn Hs. cbn [fst snd] in *.
  destruct (response_adu_roundtrip h r adu) as (Hd & _ & _ & Hm); [done..|].
  destruct (recv_adu_exact F DirResponse st trace adu noise rest_)
    as (st' & t' & H1 & H2 & H3 & H4); [done..|].
  unfold recv_response. rewrite H1. cbn [mbind Result_bind]. rewrite Hd. by exists st', t'.
Qed.

Lemma recv_requests_exact ms adus st trace rest_ :
  Forall2 request_framed ms adus → receiving st = false →
  Forall (delivers (waits (boundary F))) trace →
  buffer st ++ stream trace = mjoin adus ++ rest_ →
  ∃ st' trace', recv_requests (length ms) st trace = Some (ms, st', trace') ∧
    buffer st' ++ stream trace' = rest_.
Proof.
  intros Hm. revert st trace. induction Hm as [|m adu ms adus Hm Hms IH]; intros st trace Hr Ht Hs.
  - by exists st, trace.
  - change (mjoin (adu :: adus)) with (adu ++ mjoin adus) in Hs. rewrite <- app_assoc in Hs.
    destruct (recv_request_exact m adu st trace [] (mjoin adus ++ rest_))
      as (st1 & t1 & H1 & Hr1 & Hs1 & Ht1); [done..|apply skips_nil|done|].
    cbn [length recv_requests]. rewrite H1.
    destruct (IH st1 t1 Hr1 Ht1 Hs1) as (st2 & t2 & -> & Hs2). by exists st2, t2.
Qed.

Lemma recv_responses_exact ms adus st trace rest_ :
  Forall2 response_framed ms adus → receiving st = false →
  Forall (delivers (waits (boundary F))) trace →
  buffer st ++ stream trace = mjoin adus ++ rest_ →
  ∃ st' trace', recv_responses (length ms) st trace = Some (ms, st', trace') ∧
    buffer st' ++ stream trace' = rest_.
Proof.
  intros Hm. revert st trace. induction Hm as [|m adu ms adus Hm Hms IH]; intros st trace Hr Ht Hs.
  - by exists st, trace.
  - change (mjoin (adu :: adus)) with (adu ++ mjoin adus) in Hs. rewrite <- app_assoc in Hs.
    destruct (recv_response_exact m adu st trace [] (mjoin adus ++ rest_))
      as (st1 & t1 & H1 & Hr1 & Hs1 & Ht1); [done..|apply skips_nil|done|].
    cbn [length recv_responses]. rewrite H1.
    destruct (IH st1 t1 Hr1 Ht1 Hs1) as (st2 & t2 & -> & Hs2). by exists st2, t2.
Qed.
End in_order.

(** The encodable messages of a framing, in the direction of a receive. *)
Definition encodable_request (F : Framing) (m : Header F * RequestPdu) (adu : list Z) : Prop :=
  wf (fst m) ∧ wf (snd m) ∧ request_canonical (snd m) = true ∧
  encode_request F (fst m) (snd m) = Ok adu.
Definition encodable_response (F : Framing) (m : Header F * ResponsePdu) (adu : list Z) : Prop :=
  wf (fst m) ∧ wf (snd m) ∧ response_canonical (snd m) = true ∧
  encode_response F (fst m) (snd m) = Ok adu.

Definition fresh : RecvState := mkRecvState [] false.

Section claims.
Context {w : Winnow} {ws : WinnowSpec w} {c : Crc16} {cs : Crc16Spec c}.

(** Over TCP, requests are received in the order sent and exactly as sent,
    whatever the sizes of the reads and however long the line is quiet between
    them; what follows them stays for later receives (TR-R-004, TR-R-010). *)
Theorem tcp_requests_in_order ms adus trace rest_ :
  Forall2 (encodable_request Tcp_framing) ms adus → Forall (delivers true) trace →
  stream trace = mjoin adus ++ rest_ →
  ∃ st' trace', recv_requests Tcp_framing (length ms) fresh trace = Some (ms, st', trace') ∧
    buffer st' ++ stream trace' = rest_.
Proof.
  intros Hm Ht Hs. apply (recv_requests_exact Tcp_framing ms adus fresh); try done.
  eapply Forall2_impl; [exact Hm|]. intros [h r] adu (Hh & Hr & Hc & He). cbn [fst snd] in *.
  split_and!; try done.
  apply encode_request_inv in He as (pdu & -> & _ & Hp); [|done..]. by apply Tcp_locates.
Qed.

(** Over ASCII, a response is received exactly as sent even when bytes
    that belong to no frame precede it: they are discarded, and what follows
    stays (TR-R-012, TR-R-087). *)
Lemma ascii_response_after_noise m adu trace noise rest_ :
  encodable_response Ascii_framing m adu → Forall (delivers false) trace → START ∉ noise →
  stream trace = noise ++ adu ++ rest_ →
  ∃ st' trace', recv_response Ascii_framing fresh trace = Returned (Ok m) st' trace' ∧
    receiving st' = false ∧ buffer st' ++ stream trace' = rest_.
Proof.
  intros Hm Ht Hn Hs.
  destruct (recv_response_exact Ascii_framing m adu fresh trace noise rest_)
    as (st' & t' & H1 & H2 & H3 & _); try done; [|eauto].
  destruct m as [h r]. destruct Hm as (Hh & Hr & Hc & He). cbn [fst snd] in *.
  split_and!; try done.
  apply encode_response_inv in He as (pdu & -> & _ & Hp); [|done..]. by apply Ascii_locates.
Qed.

(** RTU over a byte stream receives responses in order and exactly,
    whatever the sizes of the reads, for every function code whose length the
    PDU determines (TR-R-045, FR-R-146). *)
Lemma rtu_over_tcp_responses_in_order ms adus trace rest_ :
  Forall2 (encodable_response RtuOverTcp_framing) ms adus →
  Forall (λ m, determinate_response (snd m) = true) ms → Forall (delivers true) trace →
  stream trace = mjoin adus ++ rest_ →
  ∃ st' trace', recv_responses RtuOverTcp_framing (length ms) fresh trace = Some (ms, st', trace') ∧
    buffer st' ++ stream trace' = rest_.
Proof.
  intros Hm Hd Ht Hs. apply (recv_responses_exact RtuOverTcp_framing ms adus fresh); try done.
  clear Hs. revert Hd. induction Hm as [|[h r] adu ms adus (Hh & Hr & Hc & He) Hms IH];
    intros Hd; [constructor|].
  apply Forall_cons in Hd as [Hd Hds]. constructor; [|by apply IH]. cbn [fst snd] in *.
  split_and!; try done.
  apply encode_response_inv in He as (pdu & -> & Hb & Hp); [|done..].
  by eapply RtuOverTcp_locates_response.
Qed.

(** Over a serial line, an RTU ADU shorter than the largest one, whose
    bytes arrive without a gap, is returned whole when the line falls silent,
    and nothing is left behind (TR-R-011). *)
Theorem rtu_frame_ends_at_silence dir m adu trace rest_ :
  encodable_request Rtu_framing m adu → len adu < 256 →
  Forall (delivers false) trace → stream trace = adu →
  recv_adu Rtu_framing dir fresh (trace ++ Quiet :: rest_) = Returned (Ok adu) fresh rest_ ∧
  decode_request Rtu_framing adu = Ok m.
Proof.
  destruct m as [h r]. intros (Hh & Hr & Hc & He) Hl Ht <-. cbn [fst snd] in *.
  destruct (request_adu_roundtrip h r (stream trace)) as (Hd & _ & Hb & _); [done..|].
  split; [|done]. unfold recv_adu, read_adu. cbn [receiving buffer fresh boundary Rtu_framing].
  rewrite read_until_silence_ok; try done. cbn [app].
  intros Hnil. rewrite Hnil in Hb. by cbn in Hb.
Qed.

(** Over ASCII a frame that breaks off costs itself and no more: when the
    line falls quiet inside it the receive fails with the inter-character
    timeout, what was gathered is discarded, and the next frame is received
    exactly (TR-R-044, TR-R-076, TR-E-006). *)
Theorem ascii_recovers_after_a_broken_frame m0 part tail noise trace1 m adu trace2 rest_ :
  encodable_request Ascii_framing m0 (part ++ tail) → part ≠ [] → tail ≠ [] →
  Forall (delivers false) trace1 → stream trace1 = noise ++ part → START ∉ noise →
  encodable_request Ascii_framing m adu → Forall (delivers false) trace2 →
  stream trace2 = adu ++ rest_ →
  recv_request Ascii_framing fresh (trace1 ++ Quiet :: trace2) =
    Returned (Err (Timeout "ascii inter-character")) fresh trace2 ∧
  ∃ st' trace', recv_request Ascii_framing fresh trace2 = Returned (Ok m) st' trace' ∧
    buffer st' ++ stream trace' = rest_.
Proof.
  intros H0 Hp Htl Ht1 Hs1 Hn Hm Ht2 Hs2.
  assert (∀ m adu, encodable_request Ascii_framing m adu →
    Locates (boundary Ascii_framing) DirRequest adu ∧ len adu ≤ MAX_ADU_LEN Ascii_framing) as Hloc.
  { intros [h r] x (Hh & Hr & Hc & He). cbn [fst snd] in *.
    destruct (request_adu_roundtrip (F := Ascii_framing) h r x) as (_ & _ & _ & Hl); [done..|].
    split; [|done].
    apply encode_request_inv in He as (pdu & -> & _ & Hpdu); [|done..]. by apply Ascii_locates. }
  destruct (Hloc _ _ H0) as [HL0 Hl0]. split.
  - unfold recv_request, recv_adu, read_adu. cbn [receiving buffer fresh boundary Ascii_framing].
    destruct (read_delimited_quiet Ascii_framing START TERMINATOR DirRequest trace1 [] part tail
      noise trace2 0) as [b ->]; try done.
    intros _. destruct HL0 as (_ & He & _). lia.
  - destruct (recv_request_exact Ascii_framing m adu fresh trace2 [] rest_)
      as (st' & t' & H1 & _ & H2 & _); try done; [|apply not_elem_of_nil|by exists st', t'].
    destruct Hm as (Hh & Hr & Hc & He). split_and!; try done. by apply (Hloc m).
Qed.

Lemma boundaries_ok :
  boundary_ok (boundary Tcp_framing) ∧ boundary_ok (boundary Rtu_framing) ∧
  boundary_ok (boundary Ascii_framing) ∧ boundary_ok (boundary RtuOverTcp_framing).
Proof.
  split; [|split; [done|split; [done|]]].
  - split; [done|]. intros bs _. apply adu_len_no_panic.
  - intros dir bs Hb. pose proof (derive_extent_sound dir bs Hb) as Hs.
    destruct (derive_extent dir bs) as [[|n]|e|]; try done. split; [done|].
    intros m [= <-]. cbn in Hs. lia.
Qed.

(** Receiving is safe for all four framings on any trace of reads,
    failures and timeouts: it never panics, hands only bytes to the decoder, and
    keeps at most one read beyond the largest ADU in its buffer. *)
Theorem recv_adu_safe F dir st trace :
  F ∈ [Tcp_framing; Rtu_framing; Ascii_framing; RtuOverTcp_framing] →
  buf_ok F (buffer st) → Forall ev_ok trace →
  match recv_adu F dir st trace with
  | Returned r st' trace' =>
      r ≠ Panic ∧ buf_ok F (buffer st') ∧ (∀ adu, r = Ok adu → bytes_ok adu)
  | Waiting st' => buf_ok F (buffer st')
  end.
Proof.
  intros HF Hb Ht. destruct boundaries_ok as (B1 & B2 & B3 & B4).
  assert (boundary_ok (boundary F) ∧ 1 ≤ MAX_ADU_LEN F) as [HB HM].
  { repeat (apply elem_of_cons in HF as [->|HF]; [done|]). by apply elem_of_nil in HF. }
  unfold recv_adu. destruct (receiving st); [by split_and!|].
  pose proof (read_adu_good F HM dir trace (buffer st) HB Hb Ht) as Hg.
  destruct (read_adu F dir trace (buffer st)) as [[adu|e|] b t|b]; [| |done|done].
  - destruct Hg as (Hb' & _ & Ha). split_and!; [done|done|]. by intros ? [= <-].
  - destruct Hg as [Hb' _]. split_and!; [done| |done]. cbn [buffer].
    case_match; [by apply buf_ok_nil|done].
Qed.
End claims.

(** The receive latch and recovery: a transport whose receive was abandoned
    refuses every later one without touching the stream (TR-R-090); and after a
    failed receive a framing that finds boundaries on the wire starts over with
    an empty buffer (TR-R-044). *)
Lemma recv_latch_and_recovery F dir st trace :
  (receiving st = true → recv_adu F dir st trace = Returned (Err (Timeout "receive")) st trace) ∧
  (∀ st', recv_adu F dir st trace = Waiting st' → receiving st' = true) ∧
  (∀ e st' trace', receiving st = false → recv_adu F dir st trace = Returned (Err e) st' trace' →
     receiving st' = false ∧ (is_self_locating (boundary F) = true → buffer st' = [])).
Proof.
  unfold recv_adu. split_and!.
  - by intros ->.
  - intros st' H. destruct (receiving st); [done|]. case_match; [done|]. by injection H as <-.
  - intros e st' trace' -> H. case_match; [|done]. injection H as -> <- <-. split; [done|].
    intros Hs. by rewrite Hs.
Qed.

(** ** The largest RTU ADU *)

Lemma read_until_silence_full F trace buf rest_ :
  1 ≤ MAX_ADU_LEN F → Forall (delivers false) trace →
  len (buf ++ stream trace) = MAX_ADU_LEN F →
  ∃ b t, read_until_silence F (trace ++ Quiet :: rest_) buf =
    Done (Err (AduTooLarge (MAX_ADU_LEN F) (MAX_ADU_LEN F))) b t.
Proof.
  intros HM Ht. revert buf. induction Ht as [|ev trace Hev Ht IH]; intros buf Hl.
  - rewrite app_nil_r in Hl. cbn [app read_until_silence].
    destruct (is_empty buf) eqn:E; [destruct buf; [rewrite len_nil in Hl; lia|done]|].
    unfold check_buffer_bound. rewrite Hl, Z.leb_refl. by do 2 eexists.
  - cbn [app read_until_silence]. destruct ev as [[bs|]|]; [|done|done].
    destruct Hev as [Hbs Hb]. rewrite stream_cons in Hl. cbn [ev_bytes] in Hl.
    assert (0 < len bs) by (destruct bs; [done|len_lia]).
    destruct (is_empty buf) eqn:E; rewrite read_more_chunk by done.
    + apply IH. by rewrite <- app_assoc.
    + rewrite check_buffer_bound_ok by len_lia. apply IH. by rewrite <- app_assoc.
Qed.

(** C35. The largest RTU ADU cannot be received over a serial line: a request
    that encodes to exactly 256 bytes, the maximum the framing permits, is
    refused as too large by the silence rule, however it arrives. *)
Theorem rtu_largest_frame_refused {w : Winnow} {c : Crc16} dir m adu trace rest_ :
  encodable_request Rtu_framing m adu → len adu = 256 →
  Forall (delivers false) trace → stream trace = adu →
  ∃ trace', recv_adu Rtu_framing dir fresh (trace ++ Quiet :: rest_) =
    Returned (Err (AduTooLarge 256 256)) fresh trace'.
Proof.
  intros _ Hl Ht <-. unfold recv_adu, read_adu.
  cbn [receiving buffer fresh boundary Rtu_framing].
  destruct (read_until_silence_full Rtu_framing trace [] rest_) as (b & t & ->); try done.
  by exists t.
Qed.

(** ** Witnesses *)

Definition sample_request : RequestPdu :=
  Req_ReadHoldingRegisters (mkAddress 0x6B) (mkQuantity 3).
Definition sample_mbap : MbapHeader := mkMbapHeader (mkTransactionId 1) (mkUnitId 17).

(** One request in two reads with a pause, and the start of another. *)
Lemma tcp_requests_in_order_witness :
  ∃ st' trace', recv_requests (Tcp_framing (w := winnow_model)) 1 fresh
      [Ready (Bytes [0; 1; 0; 0; 0]); Quiet; Ready (Bytes [6; 17; 3; 0; 107; 0; 3; 9])]
    = Some ([(sample_mbap, sample_request)], st', trace') ∧
    buffer st' ++ stream trace' = [9].
Proof.
  apply (@tcp_requests_in_order winnow_model winnow_model_spec
    [(sample_mbap, sample_request)] [[0; 1; 0; 0; 0; 6; 17; 3; 0; 107; 0; 3]]).
  - constructor; [|constructor]. unfold encodable_request. by_eval.
  - by_eval.
  - vm_compute. reflexivity.
Defined.

Definition sample_response : ResponsePdu := Resp_ReadHoldingRegisters [mkRegisterValue 0x022B].

(** An ASCII response after line noise, in three reads. *)
Lemma ascii_response_after_noise_witness :
  ∃ st' trace', recv_response (Ascii_framing (w := winnow_model)) fresh
      [Ready (Bytes [255; 10]); Ready (Bytes [7; 58; 49; 49; 48; 51; 48]);
       Ready (Bytes [50; 48; 50; 50; 66; 66; 68; 13; 10; 58])]
    = Returned (Ok (mkUnitId 17, sample_response)) st' trace' ∧
    receiving st' = false ∧ buffer st' ++ stream trace' = [58].
Proof.
  apply (@ascii_response_after_noise winnow_model winnow_model_spec
    (mkUnitId 17, sample_response)
    [58; 49; 49; 48; 51; 48; 50; 48; 50; 50; 66; 66; 68; 13; 10] _ [255; 10; 7]).
  - unfold encodable_response. by_eval.
  - by_eval.
  - rewrite !not_elem_of_cons. by_eval. apply not_elem_of_nil.
  - vm_compute. reflexivity.
Defined.

Lemma rtu_over_tcp_responses_in_order_witness :
  ∃ st' trace', recv_responses (RtuOverTcp_framing (w := winnow_model) (c := crc_model)) 1 fresh
      [Ready (Bytes [17; 3]); Quiet; Ready (Bytes [2; 2; 43; 56; 248])]
    = Some ([(mkUnitId 17, sample_response)], st', trace') ∧
    buffer st' ++ stream trace' = [].
Proof.
  apply (@rtu_over_tcp_responses_in_order winnow_model winnow_model_spec crc_model crc_model_spec
    [(mkUnitId 17, sample_response)] [[17; 3; 2; 2; 43; 56; 248]]).
  - constructor; [|constructor]. unfold encodable_response. by_eval.
  - by_eval.
  - by_eval.
  - vm_compute. reflexivity.
Defined.

Lemma rtu_frame_ends_at_silence_witness :
  recv_adu (Rtu_framing (w := winnow_model) (c := crc_model)) DirRequest fresh
    ([Ready (Bytes [17; 3; 0; 107]); Ready (Bytes [0; 3; 118; 135])] ++ Quiet :: [])
    = Returned (Ok [17; 3; 0; 107; 0; 3; 118; 135]) fresh [] ∧
  decode_request (Rtu_framing (w := winnow_model) (c := crc_model))
    [17; 3; 0; 107; 0; 3; 118; 135] = Ok (mkUnitId 17, sample_request).
Proof.
  apply (@rtu_frame_ends_at_silence winnow_model winnow_model_spec crc_model crc_model_spec
    DirRequest (mkUnitId 17, sample_request)).
  - unfold encodable_request. by_eval.
  - vm_compute. reflexivity.
  - by_eval.
  - vm_compute. reflexivity.
Defined.

(** An oversized length prefix. *)
Lemma recv_adu_safe_witness :
  match recv_adu (Tcp_framing (w := winnow_model)) DirRequest fresh
          [Ready (Bytes [0; 1; 0; 0; 255; 255; 1])] with
  | Returned r st' trace' =>
      r ≠ Panic ∧ buf_ok (Tcp_framing (w := winnow_model)) (buffer st') ∧
      (∀ adu, r = Ok adu → bytes_ok adu)
  | Waiting st' => buf_ok (Tcp_framing (w := winnow_model)) (buffer st')
  end.
Proof.
  apply (@recv_adu_safe winnow_model crc_model).
  - apply list_elem_of_here.
  - split; by_eval.
  - constructor; [split; by_eval|constructor].
Defined.

(** A custom function with 252 bytes of data: 256 bytes on the line. *)
Definition largest_request : RequestPdu := Req_Custom 65 (replicate 252 0).
Definition largest_adu : list Z := rtu_adu (c := crc_model) (mkUnitId 1) (65 :: replicate 252 0).

Lemma rtu_largest_frame_refused_witness :
  ∃ trace', recv_adu (Rtu_framing (w := winnow_model) (c := crc_model)) DirRequest fresh
      ([Ready (Bytes (take 200 largest_adu)); Ready (Bytes (drop 200 largest_adu))] ++ Quiet :: [])
    = Returned (Err (AduTooLarge 256 256)) fresh trace'.
Proof.
  apply (@rtu_largest_frame_refused winnow_model crc_model DirRequest
    (mkUnitId 1, largest_request) largest_adu).
  - unfold encodable_request. by_eval.
  - vm_compute. reflexivity.
  - by_eval.
  - vm_compute. reflexivity.
Defined.

(** A request cut after five characters, then the whole of it. *)
Lemma ascii_recovers_after_a_broken_frame_witness :
  let adu := [58; 49; 49; 48; 51; 48; 48; 54; 66; 48; 48; 48; 51; 55; 69; 13; 10] in
  recv_request (Ascii_framing (w := winnow_model)) fresh
    [Ready (Bytes [58; 49; 49; 48; 51]); Quiet; Ready (Bytes adu)] =
    Returned (Err (Timeout "ascii inter-character")) fresh [Ready (Bytes adu)] ∧
  ∃ st' trace', recv_request (Ascii_framing (w := winnow_model)) fresh [Ready (Bytes adu)] =
    Returned (Ok (mkUnitId 17, sample_request)) st' trace' ∧ buffer st' ++ stream trace' = [].
Proof.
  intros adu. apply (@ascii_recovers_after_a_broken_frame winnow_model winnow_model_spec
    (mkUnitId 17, sample_request) [58; 49; 49; 48; 51]
    [48; 48; 54; 66; 48; 48; 48; 51; 55; 69; 13; 10] []
    [Ready (Bytes [58; 49; 49; 48; 51])] (mkUnitId 17, sample_request) adu).
  all: unfold encodable_request; try (by_eval; fail). all: try done.
  apply not_elem_of_nil.
Defined.
