(* ===== verification/Timed.v ===== *)
(** * Receiving in real time ([src/transport/mod.rs])

    The receive loops with the clock they run on: [TransportConfig] gives the
    two silences, a read completes when its bytes are there, and a timer that was
    armed for an instant fires at it or later.  A line is the reads it will
    satisfy with the instants at which they are ready.  The loops of [Transport.v]
    run over the events an observer of that line sees; here the observer is
    derived from the clock, and the two are proved to agree.  Instants and
    durations are nanoseconds. *)

From S2P Require Import Prelude.
From S2P Require Import Errors.
From S2P Require Import Parse.
From S2P Require Import Value.
From S2P Require Import Wire.
From S2P Require Import Pdu.
From S2P Require Import PduSpec.
From S2P Require Import PduRoundtrip.
From S2P Require Import Framing.
From S2P Require Import Rtu.
From S2P Require Import RtuStream.
From S2P Require Import Tcp.
From S2P Require Import Ascii.
From S2P Require Import Serial.
From S2P Require Import Transport.
From S2P Require Import TransportSpec.
From S2P Require Import TransportSafety.
From S2P Require Import TransportTheorems.

(** When a timer fires that was armed for an instant.  It is never early; how
    late it may be is the granularity of the runtime's timers. *)
Class Clock := { fires : Z → Z }.

Class ClockSpec (c : Clock) (granularity : Z) : Prop := {
  never_early d : d ≤ fires d;
  late_by_at_most d : fires d ≤ d + granularity;
}.

(** The reads of a line, in order, with the instants they are ready at. *)
Definition Line : Type := list (Z * ReadResult).

(** Outcome of a timed receive: as [Recv], with the instant it returned at. *)
Inductive TRecv (A : Type) :=
  | TDone (r : Result A) (buffer : list Z) (now : Z) (line : Line)
  | TPending (buffer : list Z).
Arguments TDone {A} r buffer now line.
Arguments TPending {A} buffer.

Section timed.
Context {C : Clock} (F : Framing) (config : TransportConfig).

(** [fill_to]. *)
Fixpoint fill_loop_timed (n now : Z) (line : Line) (buffer : list Z) : TRecv unit :=
  if n <=? len buffer then TDone (Ok tt) buffer now line else
  match line with
  | [] => TPending buffer
  | (at_, r) :: line' =>
      match read_more (negb (is_empty buffer)) r buffer with
      | (Ok _, buffer') => fill_loop_timed n (Z.max now at_) line' buffer'
      | (Err e, buffer') => TDone (Err e) buffer' (Z.max now at_) line'
      | (Panic, buffer') => TDone Panic buffer' (Z.max now at_) line'
      end
  end.

Definition fill_to_timed (n now : Z) (line : Line) (buffer : list Z) : TRecv unit :=
  if MAX_ADU_LEN F <? n then TDone (Err (AduTooLarge n (MAX_ADU_LEN F))) buffer now line
  else fill_loop_timed n now line buffer.

Definition finish_take_timed (buffer : list Z) (n now : Z) (line : Line) : TRecv (list Z) :=
  let '(r, buffer') := take_adu buffer n in TDone r buffer' now line.

(** [read_prefixed]. *)
Definition read_prefixed_timed (prefix : Z) (total : list Z → Result Z) (now : Z) (line : Line)
    (buffer : list Z) : TRecv (list Z) :=
  match fill_to_timed prefix now line buffer with
  | TPending buffer => TPending buffer
  | TDone (Err e) buffer now line => TDone (Err e) buffer now line
  | TDone Panic buffer now line => TDone Panic buffer now line
  | TDone (Ok _) buffer now line =>
      match (head ← expect (slice_get 0 prefix buffer); total head) with
      | Err e => TDone (Err e) buffer now line
      | Panic => TDone Panic buffer now line
      | Ok n =>
          match fill_to_timed n now line buffer with
          | TPending buffer => TPending buffer
          | TDone (Err e) buffer now line => TDone (Err e) buffer now line
          | TDone Panic buffer now line => TDone Panic buffer now line
          | TDone (Ok _) buffer now line => finish_take_timed buffer n now line
          end
      end
  end.

(** [read_delimited]: the inter-character timer runs once a frame has begun. *)
Fixpoint read_delimited_timed (start : Z) (end_ : list Z) (now : Z) (line : Line)
    (buffer : list Z) (searched : Z) : TRecv (list Z) :=
  match scan start end_ buffer searched with
  | inl (n, buffer) => finish_take_timed buffer n now line
  | inr (buffer, searched) =>
      match check_buffer_bound F buffer with
      | Err e => TDone (Err e) buffer now line
      | Panic => TDone Panic buffer now line
      | Ok _ =>
          let expiry := fires (now + tc_ascii_inter_character_timeout config) in
          let elapsed := TDone (Err (Timeout "ascii inter-character")) buffer expiry line in
          match line with
          | [] => if is_empty buffer then TPending buffer else elapsed
          | (at_, r) :: line' =>
              if negb (is_empty buffer) && (expiry <? Z.max now at_) then elapsed else
              match read_more (negb (is_empty buffer)) r buffer with
              | (Ok _, buffer') =>
                  read_delimited_timed start end_ (Z.max now at_) line' buffer' searched
              | (Err e, buffer') => TDone (Err e) buffer' (Z.max now at_) line'
              | (Panic, buffer') => TDone Panic buffer' (Z.max now at_) line'
              end
          end
      end
  end.

(** [read_until_silence]: the inter-frame timer runs once a frame has begun. *)
Fixpoint read_until_silence_timed (now : Z) (line : Line) (buffer : list Z) : TRecv (list Z) :=
  if is_empty buffer then
    match line with
    | [] => TPending buffer
    | (at_, r) :: line' =>
        match read_more false r buffer with
        | (Ok _, buffer') => read_until_silence_timed (Z.max now at_) line' buffer'
        | (Err e, buffer') => TDone (Err e) buffer' (Z.max now at_) line'
        | (Panic, buffer') => TDone Panic buffer' (Z.max now at_) line'
        end
    end
  else
    match check_buffer_bound F buffer with
    | Err e => TDone (Err e) buffer now line
    | Panic => TDone Panic buffer now line
    | Ok _ =>
        let expiry := fires (now + tc_inter_frame_interval config) in
        match line with
        | [] => finish_take_timed buffer (len buffer) expiry line
        | (at_, r) :: line' =>
            if expiry <? Z.max now at_ then finish_take_timed buffer (len buffer) expiry line else
            match read_more true r buffer with
            | (Ok _, buffer') => read_until_silence_timed (Z.max now at_) line' buffer'
            | (Err ConnectionClosed, buffer') =>
                finish_take_timed buffer' (len buffer') (Z.max now at_) line'
            | (Err e, buffer') => TDone (Err e) buffer' (Z.max now at_) line'
            | (Panic, buffer') => TDone Panic buffer' (Z.max now at_) line'
            end
        end
    end.

(** [read_content_length]. *)
Fixpoint content_loop_timed (extent : list Z → Result Extent) (now : Z) (line : Line)
    (buffer : list Z) : TRecv (list Z) :=
  match extent buffer with
  | Err e => TDone (Err e) buffer now line
  | Panic => TDone Panic buffer now line
  | Ok (Complete n) => finish_take_timed buffer n now line
  | Ok NeedMore =>
      match check_buffer_bound F buffer with
      | Err e => TDone (Err e) buffer now line
      | Panic => TDone Panic buffer now line
      | Ok _ =>
          match line with
          | [] => TPending buffer
          | (at_, r) :: line' =>
              match read_more true r buffer with
              | (Ok _, buffer') => content_loop_timed extent (Z.max now at_) line' buffer'
              | (Err e, buffer') => TDone (Err e) buffer' (Z.max now at_) line'
              | (Panic, buffer') => TDone Panic buffer' (Z.max now at_) line'
              end
          end
      end
  end.

Definition read_content_length_timed (min : Z) (extent : Direction → list Z → Result Extent)
    (direction : Direction) (now : Z) (line : Line) (buffer : list Z) : TRecv (list Z) :=
  match fill_to_timed min now line buffer with
  | TPending buffer => TPending buffer
  | TDone (Err e) buffer now line => TDone (Err e) buffer now line
  | TDone Panic buffer now line => TDone Panic buffer now line
  | TDone (Ok _) buffer now line => content_loop_timed (extent direction) now line buffer
  end.

(** [read_adu]. *)
Definition read_adu_timed (direction : Direction) (now : Z) (line : Line) (buffer : list Z)
    : TRecv (list Z) :=
  match boundary F with
  | Prefixed prefix total => read_prefixed_timed prefix total now line buffer
  | Delimited start end_ => read_delimited_timed start end_ now line buffer 0
  | Silence => read_until_silence_timed now line buffer
  | ContentLength min extent => read_content_length_timed min extent direction now line buffer
  end.

(** [recv_adu]: the latch, and recovery after a failure. *)
Inductive TReceived (A : Type) :=
  | TReturned (r : Result A) (st : RecvState) (now : Z) (line : Line)
  | TWaiting (st : RecvState).
Arguments TReturned {A} r st now line.
Arguments TWaiting {A} st.

Definition recv_adu_timed (direction : Direction) (st : RecvState) (now : Z) (line : Line)
    : TReceived (list Z) :=
  if receiving st then TReturned (Err (Timeout "receive")) st now line else
  match read_adu_timed direction now line (buffer st) with
  | TPending b => TWaiting (mkRecvState b true)
  | TDone r b now' line' =>
      let b' := if is_err r && is_self_locating (boundary F) then [] else b in
      TReturned r (mkRecvState b' false) now' line'
  end.

(** ** What an observer sees

    The events of a line for a reader whose timer runs for [limit]: a read, or
    first the silence the timer reports before it. *)
Definition timer : Z :=
  match boundary F with
  | Delimited _ _ => tc_ascii_inter_character_timeout config
  | _ => tc_inter_frame_interval config
  end.

Fixpoint events (now : Z) (line : Line) : list Event :=
  match line with
  | [] => [Quiet]
  | (at_, r) :: line' =>
      let later := Ready r :: events (Z.max now at_) line' in
      if fires (now + timer) <? Z.max now at_ then Quiet :: later else later
  end.
End timed.
Arguments TReturned {A} r st now line.
Arguments TWaiting {A} st.

(** ** The clock and its observer agree *)

Section agree.
Context {C : Clock} {granularity : Z} {CS : ClockSpec C granularity}.
Context (F : Framing) (config : TransportConfig) (Htimer : 0 ≤ timer F config).

Local Abbreviation ev := (events F config).

(** What is left of a line after a timed receive, and of its events: the silence
    that ended the receive may still be the next thing seen. *)
Definition resumes (now : Z) (line : Line) (trace : list Event) : Prop :=
  ev now line = trace ∨ ev now line = Quiet :: trace.

Definition agrees {A} (left_ : Z → Line → list Event → Prop) (t : TRecv A) (u : Recv A) : Prop :=
  match t with
  | TPending b => u = Pending b
  | TDone r b now line => ∃ trace, u = Done r b trace ∧ left_ now line trace
  end.

Definition exactly (now : Z) (line : Line) (trace : list Event) : Prop := ev now line = trace.

Lemma agrees_resumes {A} (t : TRecv A) u : agrees exactly t u → agrees resumes t u.
Proof. destruct t; [|done]. intros (trace & -> & H). exists trace. split; [done|by left]. Qed.

Lemma finish_take_agrees b n now line trace :
  resumes now line trace → agrees resumes (finish_take_timed b n now line) (finish_take b n trace).
Proof. intros H. unfold finish_take_timed, finish_take. destruct (take_adu b n). by exists trace. Qed.

(** A timer that fired before the next read. *)
Lemma elapsed_resumes now line at_ r :
  (fires (now + timer F config) <? Z.max now at_) = true →
  resumes (fires (now + timer F config)) ((at_, r) :: line) (Ready r :: ev (Z.max now at_) line).
Proof.
  intros Hlt%Z.ltb_lt. pose proof (never_early (now + timer F config)) as He.
  unfold resumes. cbn [events]. replace (Z.max (fires _) at_) with (Z.max now at_) by lia.
  case_match; [by right|by left].
Qed.

Lemma fill_loop_agrees n now line b :
  agrees exactly (fill_loop_timed n now line b) (fill_loop n (ev now line) b).
Proof.
  revert now b. induction line as [|[at_ r] line IH]; intros now b; cbn [fill_loop_timed events].
  - cbn [fill_loop]. destruct (n <=? len b) eqn:E; [by exists [Quiet]|]. done.
  - assert (agrees exactly
      (match read_more (negb (is_empty b)) r b with
       | (Ok _, b') => fill_loop_timed n (Z.max now at_) line b'
       | (Err e, b') => TDone (Err e) b' (Z.max now at_) line
       | (Panic, b') => TDone Panic b' (Z.max now at_) line
       end)
      (match read_more (negb (is_empty b)) r b with
       | (Ok _, b') => fill_loop n (ev (Z.max now at_) line) b'
       | (Err e, b') => Done (Err e) b' (ev (Z.max now at_) line)
       | (Panic, b') => Done Panic b' (ev (Z.max now at_) line)
       end)) as Hr.
    { destruct (read_more _ r b) as [[u|e|] b']; [apply IH|by eexists..]. }
    destruct (n <=? len b) eqn:En.
    { eexists. split; [|done]. cbn [events]. destruct (_ <? _); cbn [fill_loop]; by rewrite En. }
    destruct (fires _ <? Z.max now at_); cbn [fill_loop]; by rewrite ?En.
Qed.

Lemma fill_to_agrees n now line b :
  agrees exactly (fill_to_timed F n now line b) (fill_to F n (ev now line) b).
Proof.
  unfold fill_to_timed, fill_to. destruct (_ <? n); [by eexists|apply fill_loop_agrees].
Qed.

Lemma read_prefixed_agrees prefix total now line b :
  agrees resumes (read_prefixed_timed F prefix total now line b)
    (read_prefixed F prefix total (ev now line) b).
Proof.
  unfold read_prefixed_timed, read_prefixed.
  pose proof (fill_to_agrees prefix now line b) as H1.
  destruct (fill_to_timed F prefix now line b) as [[u|e|] b1 now1 line1|b1]; cbn in H1;
    [destruct H1 as (? & -> & <-)..|by rewrite H1]; [|by eexists; split; [|left]..].
  destruct (head ← _; total head) as [n|e|]; [|by eexists; split; [|left]..].
  pose proof (fill_to_agrees n now1 line1 b1) as H2.
  destruct (fill_to_timed F n now1 line1 b1) as [[u2|e|] b2 now2 line2|b2]; cbn in H2;
    [destruct H2 as (? & -> & <-)..|by rewrite H2]; [|by eexists; split; [|left]..].
  apply finish_take_agrees. by left.
Qed.

(** A loop that decides before it reads leaves its trace alone. *)
Lemma content_loop_eq ext trace b :
  content_loop F ext trace b =
  match ext b with
  | Err e => Done (Err e) b trace
  | Panic => Done Panic b trace
  | Ok (Complete n) => finish_take b n trace
  | Ok NeedMore =>
      match check_buffer_bound F b with
      | Err e => Done (Err e) b trace
      | Panic => Done Panic b trace
      | Ok _ =>
          match trace with
          | [] => Pending b
          | Quiet :: trace' => content_loop F ext trace' b
          | Ready r :: trace' =>
              match read_more true r b with
              | (Ok _, b') => content_loop F ext trace' b'
              | (Err e, b') => Done (Err e) b' trace'
              | (Panic, b') => Done Panic b' trace'
              end
          end
      end
  end.
Proof. by destruct trace. Qed.

Lemma decided {A} (r : Result A) b now line :
  agrees resumes (TDone r b now line) (Done r b (ev now line)).
Proof. eexists. split; [done|by left]. Qed.

Lemma content_loop_agrees ext now line b :
  agrees resumes (content_loop_timed F ext now line b) (content_loop F ext (ev now line) b).
Proof.
  revert now b. induction line as [|[at_ r] line IH]; intros now b; cbn [content_loop_timed];
    rewrite content_loop_eq; (destruct (ext b) as [[|n]|e|] eqn:E;
      [|apply finish_take_agrees; by left|apply decided..]);
    (destruct (check_buffer_bound F b) as [u|e|] eqn:Eb; [|apply decided..]); cbn [events].
  - by rewrite content_loop_eq, E, Eb.
  - assert (agrees resumes
      (match read_more true r b with
       | (Ok _, b') => content_loop_timed F ext (Z.max now at_) line b'
       | (Err e, b') => TDone (Err e) b' (Z.max now at_) line
       | (Panic, b') => TDone Panic b' (Z.max now at_) line
       end)
      (match read_more true r b with
       | (Ok _, b') => content_loop F ext (ev (Z.max now at_) line) b'
       | (Err e, b') => Done (Err e) b' (ev (Z.max now at_) line)
       | (Panic, b') => Done Panic b' (ev (Z.max now at_) line)
       end)) as Hr by (destruct (read_more _ r b) as [[u'|e|] b']; [apply IH|apply decided..]).
    destruct (fires _ <? Z.max now at_); [|done]. by rewrite content_loop_eq, E, Eb.
Qed.

Lemma read_content_length_agrees min ext dir now line b :
  agrees resumes (read_content_length_timed F min ext dir now line b)
    (read_content_length F min ext dir (ev now line) b).
Proof.
  unfold read_content_length_timed, read_content_length.
  pose proof (fill_to_agrees min now line b) as H1.
  destruct (fill_to_timed F min now line b) as [[u|e|] b1 now1 line1|b1]; cbn in H1;
    [destruct H1 as (? & -> & <-)..|by rewrite H1]; [|apply decided..].
  apply content_loop_agrees.
Qed.

Lemma read_delimited_eq start end_ trace b searched :
  read_delimited F start end_ trace b searched =
  match scan start end_ b searched with
  | inl (n, b) => finish_take b n trace
  | inr (b, searched) =>
      match check_buffer_bound F b with
      | Err e => Done (Err e) b trace
      | Panic => Done Panic b trace
      | Ok _ =>
          match trace with
          | [] => Pending b
          | Quiet :: trace' =>
              if is_empty b then read_delimited F start end_ trace' b searched
              else Done (Err (Timeout "ascii inter-character")) b trace'
          | Ready r :: trace' =>
              match read_more (negb (is_empty b)) r b with
              | (Ok _, b') => read_delimited F start end_ trace' b' searched
              | (Err e, b') => Done (Err e) b' trace'
              | (Panic, b') => Done Panic b' trace'
              end
          end
      end
  end.
Proof. by destruct trace. Qed.

Lemma scan_nil start end_ searched : scan start end_ [] searched = inr ([], 0).
Proof. done. Qed.

(** Nothing in hand is nothing searched. *)
Lemma scan_nothing start end_ b searched sd :
  scan start end_ b searched = inr ([], sd) → sd = 0.
Proof.
  unfold scan. destruct (position start b) as [o|]; [|by intros [= <-]].
  set (b' := if 0 <? o then _ else _). destruct (find _ _ _); [done|]. intros [= Hb <-].
  rewrite Hb. unfold saturating_sub. rewrite len_nil. lia.
Qed.

Lemma read_delimited_agrees start end_ now line b searched :
  boundary F = Delimited start end_ →
  agrees resumes (read_delimited_timed F config start end_ now line b searched)
    (read_delimited F start end_ (ev now line) b searched).
Proof.
  intros HB. assert (timer F config = tc_ascii_inter_character_timeout config) as HT
    by (unfold timer; by rewrite HB).
  revert now b searched. induction line as [|[at_ r] line IH]; intros now b searched;
    cbn [read_delimited_timed]; rewrite read_delimited_eq;
    (destruct (scan start end_ b searched) as [[n b1]|[b1 sd]] eqn:E;
      [apply finish_take_agrees; by left|]);
    (destruct (check_buffer_bound F b1) as [u|e|] eqn:Eb; [|apply decided..]);
    rewrite <- HT; cbn [events].
  - destruct b1 as [|x b1]; cbn [is_empty]; [|by eexists; split; [|right]].
    apply scan_nothing in E as ->. by rewrite read_delimited_eq, scan_nil, Eb.
  - assert (agrees resumes
      (match read_more (negb (is_empty b1)) r b1 with
       | (Ok _, b') => read_delimited_timed F config start end_ (Z.max now at_) line b' sd
       | (Err e, b') => TDone (Err e) b' (Z.max now at_) line
       | (Panic, b') => TDone Panic b' (Z.max now at_) line
       end)
      (match read_more (negb (is_empty b1)) r b1 with
       | (Ok _, b') => read_delimited F start end_ (ev (Z.max now at_) line) b' sd
       | (Err e, b') => Done (Err e) b' (ev (Z.max now at_) line)
       | (Panic, b') => Done Panic b' (ev (Z.max now at_) line)
       end)) as Hr by (destruct (read_more _ r b1) as [[u'|e|] b']; [apply IH|apply decided..]).
    destruct (fires _ <? Z.max now at_) eqn:El; [|by rewrite andb_false_r].
    destruct b1 as [|x b1]; cbn [is_empty negb andb].
    + apply scan_nothing in E as ->. by rewrite read_delimited_eq, scan_nil, Eb.
    + eexists. split; [done|]. by apply elapsed_resumes.
Qed.

Lemma read_until_silence_eq trace b :
  read_until_silence F trace b =
  if is_empty b then
    match trace with
    | [] => Pending b
    | Quiet :: trace' => read_until_silence F trace' b
    | Ready r :: trace' =>
        match read_more false r b with
        | (Ok _, b') => read_until_silence F trace' b'
        | (Err e, b') => Done (Err e) b' trace'
        | (Panic, b') => Done Panic b' trace'
        end
    end
  else
    match check_buffer_bound F b with
    | Err e => Done (Err e) b trace
    | Panic => Done Panic b trace
    | Ok _ =>
        match trace with
        | [] => Pending b
        | Quiet :: trace' => finish_take b (len b) trace'
        | Ready r :: trace' =>
            match read_more true r b with
            | (Ok _, b') => read_until_silence F trace' b'
            | (Err ConnectionClosed, b') => finish_take b' (len b') trace'
            | (Err e, b') => Done (Err e) b' trace'
            | (Panic, b') => Done Panic b' trace'
            end
        end
    end.
Proof. by destruct trace. Qed.

Lemma read_until_silence_agrees now line b :
  boundary F = Silence →
  agrees resumes (read_until_silence_timed F config now line b)
    (read_until_silence F (ev now line) b).
Proof.
  intros HB. assert (timer F config = tc_inter_frame_interval config) as HT
    by (unfold timer; by rewrite HB).
  revert now b. induction line as [|[at_ r] line IH]; intros now b;
    cbn [read_until_silence_timed]; rewrite read_until_silence_eq;
    (destruct (is_empty b) eqn:Ee;
      [|destruct (check_buffer_bound F b) as [u|e|] eqn:Eb; [|apply decided..]]);
    rewrite <- ?HT; cbn [events].
  - by rewrite read_until_silence_eq, Ee.
  - apply finish_take_agrees. by right.
  - assert (agrees resumes
      (match read_more false r b with
       | (Ok _, b') => read_until_silence_timed F config (Z.max now at_) line b'
       | (Err e, b') => TDone (Err e) b' (Z.max now at_) line
       | (Panic, b') => TDone Panic b' (Z.max now at_) line
       end)
      (match read_more false r b with
       | (Ok _, b') => read_until_silence F (ev (Z.max now at_) line) b'
       | (Err e, b') => Done (Err e) b' (ev (Z.max now at_) line)
       | (Panic, b') => Done Panic b' (ev (Z.max now at_) line)
       end)) as Hr by (destruct (read_more _ r b) as [[u'|e|] b']; [apply IH|apply decided..]).
    destruct (fires _ <? Z.max now at_); [|done]. by rewrite read_until_silence_eq, Ee.
  - destruct (fires _ <? Z.max now at_) eqn:El.
    { apply finish_take_agrees. by apply elapsed_resumes. }
    destruct (read_more true r b) as [[u'|e|] b']; [apply IH| |apply decided].
    destruct e; try apply decided. apply finish_take_agrees. by left.
Qed.

Lemma read_adu_agrees dir now line b :
  agrees resumes (read_adu_timed F config dir now line b) (read_adu F dir (ev now line) b).
Proof.
  unfold read_adu_timed, read_adu. destruct (boundary F) as [prefix total|start end_| |min ext] eqn:E.
  - apply read_prefixed_agrees.
  - by apply read_delimited_agrees.
  - by apply read_until_silence_agrees.
  - apply read_content_length_agrees.
Qed.

(** C25. The clock and the trace agree: for every framing, configuration, line
    and instant, a receive that runs its timers on a clock returns what the
    receive over the observed events returns, and leaves the same state and, but
    for a silence that may still be the first of them, the same events to come; a
    receive that waits forever on the one waits on the other (TR-R-011, TR-R-042,
    TR-R-076). *)
Theorem timed_receive_refines dir st now line :
  match recv_adu_timed F config dir st now line with
  | TReturned r st' now' line' =>
      ∃ trace', recv_adu F dir st (events F config now line) = Returned r st' trace' ∧
        (events F config now' line' = trace' ∨ events F config now' line' = Quiet :: trace')
  | TWaiting st' => recv_adu F dir st (events F config now line) = Waiting st'
  end.
Proof.
  unfold recv_adu_timed, recv_adu. destruct (receiving st); [eexists; split; [done|by left]|].
  pose proof (read_adu_agrees dir now line (buffer st)) as H.
  destruct (read_adu_timed F config dir now line (buffer st)) as [r b now' line'|b]; cbn in H.
  - destruct H as (trace & -> & H). by exists trace.
  - by rewrite H.
Qed.
End agree.

(** ** Frames on a serial line *)

(** A transmission: its first bytes, and those that follow, with the instants the
    receiver can read them at. *)
Definition Burst : Type := list (Z * list Z).
Record Transmission := mkTransmission { tx_start : Z; tx_first : list Z; tx_rest : Burst }.

Definition burst_line (burst : Burst) : Line := (λ '(at_, bs), (at_, Bytes bs)) <$> burst.
Definition burst_bytes (burst : Burst) : list Z := mjoin (snd <$> burst).

Definition tx_line (tx : Transmission) : Line :=
  burst_line ((tx_start tx, tx_first tx) :: tx_rest tx).
Definition tx_bytes (tx : Transmission) : list Z := tx_first tx ++ burst_bytes (tx_rest tx).

(** The instant of the last bytes. *)
Fixpoint burst_end (at_ : Z) (burst : Burst) : Z :=
  match burst with [] => at_ | (at', _) :: burst' => burst_end at' burst' end.
Lemma burst_end_app at_ burst burst' :
  burst_end at_ (burst ++ burst') = burst_end (burst_end at_ burst) burst'.
Proof. revert at_. induction burst as [|[at' bs] burst IH]; intros at_; [done|apply IH]. Qed.

Definition tx_end (tx : Transmission) : Z := burst_end (tx_start tx) (tx_rest tx).

(** Bytes one read can return. *)
Definition readable (bs : list Z) : Prop := bs ≠ [] ∧ len bs ≤ READ_CHUNK.

(** No pause longer than [gap]. *)
Fixpoint paced (gap at_ : Z) (burst : Burst) : Prop :=
  match burst with
  | [] => True
  | (at', bs) :: burst' => at_ ≤ at' ≤ at_ + gap ∧ readable bs ∧ paced gap at' burst'
  end.

(** Receiving one request after another, with [delays] between a receive and the
    next: the requests and the instants they were returned at. *)
Fixpoint recv_requests_timed {C : Clock} (F : Framing) (config : TransportConfig)
    (delays : list Z) (st : RecvState) (now : Z) (line : Line)
    : option (list (Result (Header F * RequestPdu) * Z)) :=
  match delays with
  | [] => Some []
  | delay :: delays' =>
      match recv_adu_timed F config DirRequest st now line with
      | TWaiting _ => None
      | TReturned r st' now' line' =>
          rest_ ← recv_requests_timed F config delays' st' (now' + delay) line';
          Some ((adu ← r; decode_request F adu, now') :: rest_)
      end
  end.

(** Transmissions with the time the receiver takes after each: paced, and each
    after a silence that covers the interval, the timer's granularity and that
    time. *)
Fixpoint scheduled (interval granularity gap ready : Z) (txs : list (Transmission * Z)) : Prop :=
  match txs with
  | [] => True
  | (tx, delay) :: txs' =>
      ready < tx_start tx ∧ readable (tx_first tx) ∧ paced gap (tx_start tx) (tx_rest tx) ∧
      0 ≤ delay ∧
      scheduled interval granularity gap (tx_end tx + interval + granularity + delay) txs'
  end.

Section rtu_line.
Context {C : Clock} {granularity : Z} {CS : ClockSpec C granularity}.
Context {w : Winnow} {ws : WinnowSpec w} {c : Crc16} {cs : Crc16Spec c}.
Context (config : TransportConfig).

Local Abbreviation interval := (tc_inter_frame_interval config).

Lemma finish_take_all b now line : finish_take_timed b (len b) now line = TDone (Ok b) [] now line.
Proof.
  unfold finish_take_timed, take_adu. rewrite (proj2 (Z.leb_le _ _)) by done.
  unfold len. by rewrite Nat2Z.id, firstn_all, drop_all.
Qed.

(** No pause the timer reports. *)
Fixpoint unbroken (at_ : Z) (burst : Burst) : Prop :=
  match burst with
  | [] => True
  | (at', bs) :: burst' =>
      at_ ≤ at' ≤ fires (at_ + interval) ∧ readable bs ∧ unbroken at' burst'
  end.

Lemma paced_unbroken gap at_ burst : gap ≤ interval → paced gap at_ burst → unbroken at_ burst.
Proof.
  intros Hg. revert at_. induction burst as [|[at' bs] burst IH]; intros at_; [done|].
  intros (H1 & H2 & H3). split_and!; [lia| |done|by apply IH].
  pose proof (never_early (at_ + interval)). lia.
Qed.

Lemma unbroken_app at_ burst burst' :
  unbroken at_ (burst ++ burst') ↔ unbroken at_ burst ∧ unbroken (burst_end at_ burst) burst'.
Proof.
  revert at_. induction burst as [|[at' bs] burst IH]; intros at_; cbn; [tauto|].
  rewrite IH. tauto.
Qed.

Lemma silence_ends_burst now burst buf rest_ :
  buf ≠ [] → unbroken now burst → len (buf ++ burst_bytes burst) < 256 →
  match rest_ with (at_, _) :: _ => fires (burst_end now burst + interval) < at_ | [] => True end →
  read_until_silence_timed Rtu_framing config now (burst_line burst ++ rest_) buf =
  TDone (Ok (buf ++ burst_bytes burst)) [] (fires (burst_end now burst + interval)) rest_.
Proof.
  revert now buf. induction burst as [|[at_ bs] burst IH]; intros now buf Hne Hp Hl Hr;
    (assert (is_empty buf = false) as He by (by destruct buf)).
  - cbn [burst_line burst_bytes fmap list_fmap mjoin list_join burst_end app] in *.
    rewrite app_nil_r in *.
    destruct rest_ as [|[at_ r] rest_]; cbn [read_until_silence_timed];
      rewrite He, (check_buffer_bound_ok Rtu_framing) by done; [apply finish_take_all|].
    rewrite (proj2 (Z.ltb_lt _ _)) by lia. apply finish_take_all.
  - destruct Hp as (Hat & [Hb1 Hb2] & Hp).
    change (burst_bytes ((at_, bs) :: burst)) with (bs ++ burst_bytes burst) in *.
    rewrite app_assoc in *.
    assert (len buf ≤ len ((buf ++ bs) ++ burst_bytes burst)) by len_lia.
    cbn [burst_line fmap list_fmap app read_until_silence_timed burst_end] in *.
    rewrite He, (check_buffer_bound_ok Rtu_framing) by (change (MAX_ADU_LEN Rtu_framing) with 256; lia).
    rewrite (proj2 (Z.ltb_ge _ _)) by lia. rewrite read_more_chunk by done.
    replace (Z.max now at_) with at_ by lia. apply IH; try done. by destruct buf.
Qed.

Lemma rtu_receives_transmission now tx rest_ :
  now ≤ tx_start tx → readable (tx_first tx) → unbroken (tx_start tx) (tx_rest tx) →
  len (tx_bytes tx) < 256 →
  match rest_ with (at_, _) :: _ => fires (tx_end tx + interval) < at_ | [] => True end →
  recv_adu_timed Rtu_framing config DirRequest fresh now (tx_line tx ++ rest_) =
  TReturned (Ok (tx_bytes tx)) fresh (fires (tx_end tx + interval)) rest_.
Proof.
  destruct tx as [start bs burst]. intros Hn [Hb1 Hb2] Hp Hl Hr.
  cbn [tx_start tx_first tx_rest] in *.
  unfold recv_adu_timed, read_adu_timed. cbn [receiving buffer fresh boundary Rtu_framing].
  unfold tx_line. cbn [tx_start tx_first tx_rest burst_line fmap list_fmap app read_until_silence_timed].
  cbn [is_empty]. rewrite read_more_chunk by done. replace (Z.max now start) with start by lia.
  by rewrite silence_ends_burst.
Qed.

Lemma scheduled_sooner g gap ready ready' txs :
  ready' ≤ ready → scheduled interval g gap ready txs → scheduled interval g gap ready' txs.
Proof. intros Hr. destruct txs as [|[tx delay] txs]; [done|]. intros (? & H). split; [lia|done]. Qed.

(** One and a half characters are within the interval. *)
Lemma conformant_gap serial gap :
  wf serial → from_serial serial = Ok config →
  2 * baud_rate serial * gap ≤ 3 * bits_per_character serial * 10 ^ 9 → gap ≤ interval.
Proof.
  intros Hs Hf Hgap. unfold wf, Wf_SerialConfig in Hs. unfold from_serial in Hf.
  apply Result_bind_inv in Hf as (nanos & Hi & [= <-]). cbn [tc_inter_frame_interval].
  pose proof (bits_per_character_bounds serial).
  destruct (decide (baud_rate serial = 0)) as [H0|H0].
  { unfold inter_frame_interval in Hi. by rewrite H0 in Hi. }
  destruct (decide (baud_rate serial ≤ 19200)).
  - rewrite inter_frame_interval_slow in Hi by lia. injection Hi as <-.
    apply Z.div_le_lower_bound; nia.
  - unfold inter_frame_interval, FIXED_INTERVAL_ABOVE_BAUD, FIXED_INTERVAL in Hi.
    destruct (Z.eqb_spec (baud_rate serial) 0); [done|].
    destruct (Z.ltb_spec 19200 (baud_rate serial)); [|lia]. injection Hi as <-. nia.
Qed.

(** C24. RTU in real time: on a serial line whose configuration gives the
    interval, frames of fewer than 256 bytes that pause for no more than one and a
    half characters inside, and are followed by a silence that covers the interval,
    the granularity of the timers and the time the receiver takes, are received each
    as sent and in order, whatever the reads; and each is returned once its silence
    has lasted the interval, at most the granularity late (TR-R-011, TR-R-086). *)
Theorem rtu_frames_in_time serial gap now txs ms :
  wf serial → from_serial serial = Ok config →
  2 * baud_rate serial * gap ≤ 3 * bits_per_character serial * 10 ^ 9 →
  scheduled interval granularity gap now txs →
  Forall2 (λ tx m, encodable_request Rtu_framing m (tx_bytes (fst tx)) ∧ len (tx_bytes (fst tx)) < 256)
    txs ms →
  recv_requests_timed Rtu_framing config (snd <$> txs) fresh now (mjoin (tx_line ∘ fst <$> txs)) =
    Some (zip (Ok <$> ms) ((λ tx, fires (tx_end (fst tx) + interval)) <$> txs)) ∧
  Forall (λ tx, tx_end (fst tx) + interval ≤ fires (tx_end (fst tx) + interval)
                ≤ tx_end (fst tx) + interval + granularity) txs.
Proof.
  intros Hs Hfrom Hgap.
  pose proof (conformant_gap serial gap Hs Hfrom Hgap) as Hg. clear Hs Hfrom Hgap.
  intros Hsch Hms. split.
  - revert now Hsch. induction Hms as [|[tx delay] [h r] txs ms [(Hh & Hr & Hc & He) Hl] Hms IH];
      intros now Hsch; [done|].
    destruct Hsch as (Hst & Hrd & Hp & Hd & Hsch).
    pose proof (never_early (tx_end tx + interval)). pose proof (late_by_at_most (tx_end tx + interval)).
    cbn [fmap list_fmap fst snd compose mjoin list_join recv_requests_timed zip zip_with] in *.
    rewrite rtu_receives_transmission; try done; [|lia|by eapply paced_unbroken|].
    + rewrite IH by (eapply scheduled_sooner; [|exact Hsch]; lia).
      destruct (request_adu_roundtrip (F := Rtu_framing) h r (tx_bytes tx)) as (Hdec & _); [done..|].
      by rewrite Result_bind_ok, Hdec.
    + destruct txs as [|[tx' delay'] txs]; [done|]. destruct Hsch as (Hst' & _).
      change (fires (tx_end tx + interval) < tx_start tx'). lia.
  - apply Forall_forall. intros tx _. split; [apply never_early|apply late_by_at_most].
Qed.

(** C36. Where the timer is coarser than the line, frames are lost: when a frame
    follows another before the timer of the first has fired, the two, fewer than
    256 bytes together, are received as one ADU, even though the silence between
    them was longer than the interval that ends a frame (TR-R-011). *)
Theorem rtu_close_frames_merge gap now tx tx' rest_ :
  gap ≤ interval → now ≤ tx_start tx →
  readable (tx_first tx) → paced gap (tx_start tx) (tx_rest tx) →
  readable (tx_first tx') → paced gap (tx_start tx') (tx_rest tx') →
  tx_end tx + interval < tx_start tx' ≤ fires (tx_end tx + interval) → 0 ≤ gap →
  len (tx_bytes tx ++ tx_bytes tx') < 256 →
  match rest_ with (at_, _) :: _ => fires (tx_end tx' + interval) < at_ | [] => True end →
  recv_adu_timed Rtu_framing config DirRequest fresh now (tx_line tx ++ tx_line tx' ++ rest_) =
  TReturned (Ok (tx_bytes tx ++ tx_bytes tx')) fresh (fires (tx_end tx' + interval)) rest_.
Proof.
  intros Hg Hn Hr Hp Hr' Hp' Hbetween H0 Hl Hrest.
  pose (both := mkTransmission (tx_start tx) (tx_first tx)
    (tx_rest tx ++ (tx_start tx', tx_first tx') :: tx_rest tx')).
  assert (tx_end both = tx_end tx') as Hend.
  { apply burst_end_app. }
  assert (tx_bytes both = tx_bytes tx ++ tx_bytes tx') as Hb.
  { unfold tx_bytes, burst_bytes. cbn. by rewrite fmap_app, join_app, <- app_assoc. }
  assert (tx_line tx ++ tx_line tx' ++ rest_ = tx_line both ++ rest_) as ->.
  { unfold tx_line, burst_line. cbn. by rewrite fmap_app, <- app_assoc. }
  rewrite (rtu_receives_transmission now both rest_); try done.
  - by rewrite Hb, Hend.
  - cbn. apply unbroken_app. split; [by eapply paced_unbroken|]. fold (tx_end tx). split_and!; [lia|lia|done..|].
    by eapply paced_unbroken.
  - by rewrite Hb.
  - by rewrite Hend.
Qed.
End rtu_line.

(** ** Witnesses *)

Section witnesses.
Local Existing Instance winnow_model.
Local Existing Instance winnow_model_spec.
Local Existing Instance crc_model.
Local Existing Instance crc_model_spec.

(** Timers of one millisecond, as tokio documents its own: an instant is rounded
    up. *)
Definition ms_clock : Clock := {| fires d := (d + 999999) / 1000000 * 1000000 |}.

Lemma ms_clock_spec : ClockSpec ms_clock 999999.
Proof.
  split; intros d; cbn; pose proof (Z.div_mod (d + 999999) 1000000 ltac:(lia));
    pose proof (Z.mod_pos_bound (d + 999999) 1000000 ltac:(lia)); lia.
Qed.

(** A request in two reads, half a millisecond apart, and one in a single read. *)
Definition read_request_adu : list Z := rtu_adu (mkUnitId 17) [3; 0; 107; 0; 3].
Definition in_two (start : Z) : Transmission :=
  mkTransmission start (take 3 read_request_adu) [(start + 500000, drop 3 read_request_adu)].
Definition in_one (start : Z) : Transmission := mkTransmission start read_request_adu [].

Definition read_request_message : Header Rtu_framing * RequestPdu :=
  (mkUnitId 17, Req_ReadHoldingRegisters (mkAddress 107) (mkQuantity 3)).

Lemma timed_receive_refines_witness :
  match recv_adu_timed (C := ms_clock) Rtu_framing TransportConfig_default DirRequest fresh 0
    (tx_line (in_two 0)) with
  | TReturned r st' now' line' =>
      ∃ trace', recv_adu Rtu_framing DirRequest fresh
        [Ready (Bytes (take 3 read_request_adu)); Ready (Bytes (drop 3 read_request_adu)); Quiet] =
        Returned r st' trace' ∧
        (events (C := ms_clock) Rtu_framing TransportConfig_default now' line' = trace' ∨
         events (C := ms_clock) Rtu_framing TransportConfig_default now' line' = Quiet :: trace')
  | TWaiting st' => False
  end.
Proof.
  exact (timed_receive_refines (CS := ms_clock_spec) Rtu_framing TransportConfig_default
    ltac:(done) DirRequest fresh 0 (tx_line (in_two 0))).
Defined.

(** Two requests on the default line, the second eight milliseconds later. *)
Lemma rtu_frames_in_time_witness :
  recv_requests_timed (C := ms_clock) Rtu_framing TransportConfig_default [1000000; 0] fresh 0
    (tx_line (in_two 1) ++ tx_line (in_one 8000000) ++ []) =
  Some [(Ok read_request_message, 3000000); (Ok read_request_message, 11000000)].
Proof.
  destruct (rtu_frames_in_time (CS := ms_clock_spec) TransportConfig_default SerialConfig_default
    500000 0 [(in_two 1, 1000000); (in_one 8000000, 0)]
    [read_request_message; read_request_message]) as [H _]; [done..| | |exact H].
  - repeat split; vm_compute; done.
  - unfold encodable_request. repeat constructor; by_eval.
Defined.

(** Above 19200 baud, a silence of 1.9 ms is longer than the interval of 1.75 ms and
    shorter than two ticks. *)
Definition fast_line : TransportConfig := mkTransportConfig 1750000 (10 ^ 9).

Lemma rtu_close_frames_merge_witness :
  recv_adu_timed (C := ms_clock) Rtu_framing fast_line DirRequest fresh 0
    (tx_line (in_one 0) ++ tx_line (in_one 1900000) ++ []) =
  TReturned (Ok (read_request_adu ++ read_request_adu)) fresh 4000000 [].
Proof.
  apply (rtu_close_frames_merge (CS := ms_clock_spec) fast_line 0 0 (in_one 0) (in_one 1900000) []);
    repeat split; vm_compute; done.
Defined.
End witnesses.
