(* ===== verification/Outgoing.v ===== *)
(** * Sending ([src/transport/mod.rs], [src/transport/udp.rs])

    The write half of the stream transport and the datagram transport.  What
    the operating system does with a write is an input: a write of the whole
    buffer succeeds, or fails after some prefix of it reached the wire. *)

From S2P Require Import Prelude.
From S2P Require Import Errors.
From S2P Require Import Parse.
From S2P Require Import Value.
From S2P Require Import Wire.
From S2P Require Import Pdu.
From S2P Require Import PduSpec.
From S2P Require Import PduRoundtrip.
From S2P Require Import Framing.
From S2P Require Import Rtu.
From S2P Require Import RtuStream.
From S2P Require Import Tcp.
From S2P Require Import Ascii.

(** Outcome of [write_all] (with the count of bytes that got through when it
    fails) and of [flush]. *)
Inductive WriteAll :=
  | WroteAll
  | WriteFailed (through : nat) (kind : ErrorKind) (raw_os_error : option Z).

Inductive Flush :=
  | Flushed
  | FlushFailed (kind : ErrorKind) (raw_os_error : option Z).

(** The write side of a [FrameTransport]: its encoding buffer, and the bytes the
    stream has accepted. *)
Record Writer := mkWriter {
  outgoing : list Z;
  accepted : list Z;
}.

(** [shared::send]. *)
Definition send (wr : WriteAll) (fl : Flush) (t : Writer) : Result unit * Writer :=
  match wr with
  | WriteFailed n kind raw =>
      (Err (Io kind raw), mkWriter (outgoing t) (accepted t ++ take n (outgoing t)))
  | WroteAll =>
      let t' := mkWriter (outgoing t) (accepted t ++ outgoing t) in
      match fl with
      | FlushFailed kind raw => (Err (Io kind raw), t')
      | Flushed => (Ok tt, mkWriter [] (accepted t'))
      end
  end.

(** Encoding into the cleared buffer, then [shared::send]. *)
Definition encode_then_send (enc : W unit) (wr : WriteAll) (fl : Flush) (t : Writer)
    : Result unit * Writer :=
  let cleared : list Z := [] in
  match enc cleared with
  | (Ok _, out) => send wr fl (mkWriter out (accepted t))
  | (Err e, out) => (Err e, mkWriter out (accepted t))
  | (Panic, out) => (Panic, mkWriter out (accepted t))
  end.

Definition send_request (F : Framing) (header : Header F) (pdu : RequestPdu)
    : WriteAll → Flush → Writer → Result unit * Writer :=
  encode_then_send (encode_request_into F header pdu).

Definition send_response (F : Framing) (header : Header F) (pdu : ResponsePdu)
    : WriteAll → Flush → Writer → Result unit * Writer :=
  encode_then_send (encode_response_into F header pdu).

(** [core::net::SocketAddr]. *)
Inductive IpAddr := V4 (octets : Z) | V6 (octets : Z).
Record SocketAddr := mkSocketAddr { ip : IpAddr; port : Z }.
#[export] Instance IpAddr_eq_dec : EqDecision IpAddr.
Proof. solve_decision. Defined.
#[export] Instance SocketAddr_eq_dec : EqDecision SocketAddr.
Proof. solve_decision. Defined.

(** ** Datagrams

    A datagram socket delivers one datagram per receive, cut to the buffer it is
    received into. *)

Inductive SocketRecv :=
  | Datagram (bs : list Z)
  | SocketFailed (kind : ErrorKind) (raw_os_error : option Z).

(** [socket.recv(&mut incoming)]: the count and the buffer after it. *)
Definition socket_recv (r : SocketRecv) (incoming : list Z) : Result Z * list Z :=
  match r with
  | SocketFailed kind raw => (Err (Io kind raw), incoming)
  | Datagram bs =>
      let n := Nat.min (length bs) (length incoming) in
      (Ok (Z.of_nat n), take n bs ++ drop n incoming)
  end.

(** [UdpTransport::recv_request] and [recv_response]. *)
Definition udp_recv {A} (decode : list Z → Result A) (r : SocketRecv) (incoming : list Z)
    : Result A * list Z :=
  let '(received, incoming') := socket_recv r incoming in
  (n ← received; bytes ← expect (slice_get 0 n incoming'); decode bytes, incoming').

Definition udp_recv_request (F : Framing) := udp_recv (decode_request F).
Definition udp_recv_response (F : Framing) := udp_recv (decode_response F).

(** [recv_datagram_request]: the request with the address [recv_from] reports. *)
Definition recv_datagram_request (F : Framing) (r : SocketRecv) (peer : SocketAddr)
    (buf : list Z) : Result (Header F * RequestPdu * SocketAddr) * list Z :=
  let '(received, buf') := socket_recv r buf in
  (n ← received; bytes ← expect (slice_get 0 n buf');
   '(header, pdu) ← decode_request F bytes; Ok (header, pdu, peer), buf').

(** [UdpTransport::new]. *)
Definition udp_incoming (F : Framing) : list Z := replicate (Z.to_nat (MAX_ADU_LEN F)) 0.

(** [UdpTransport::send_request] and [send_response]: one datagram, or none. *)
Inductive SocketSend := SentDatagram | SendFailed (kind : ErrorKind) (raw_os_error : option Z).

Record DatagramWriter := mkDatagramWriter {
  udp_outgoing : list Z;
  datagrams : list (list Z);
}.

Definition udp_send (enc : W unit) (s : SocketSend) (t : DatagramWriter)
    : Result unit * DatagramWriter :=
  match enc [] with
  | (Ok _, out) =>
      match s with
      | SentDatagram => (Ok tt, mkDatagramWriter [] (datagrams t ++ [out]))
      | SendFailed kind raw => (Err (Io kind raw), mkDatagramWriter out (datagrams t))
      end
  | (Err e, out) => (Err e, mkDatagramWriter out (datagrams t))
  | (Panic, out) => (Panic, mkDatagramWriter out (datagrams t))
  end.

Definition udp_send_request (F : Framing) (header : Header F) (pdu : RequestPdu) :=
  udp_send (encode_request_into F header pdu).
Definition udp_send_response (F : Framing) (header : Header F) (pdu : ResponsePdu) :=
  udp_send (encode_response_into F header pdu).

(** [send_datagram_response_into]: the buffer is the caller's, and is left
    holding the datagram. *)
Definition send_datagram_response_into (F : Framing) (header : Header F) (pdu : ResponsePdu)
    (s : SocketSend) (out : list Z) : Result unit * list Z * list (list Z) :=
  match encode_response_into F header pdu [] with
  | (Ok _, out') =>
      match s with
      | SentDatagram => (Ok tt, out', [out'])
      | SendFailed kind raw => (Err (Io kind raw), out', [])
      end
  | (Err e, out') => (Err e, out', [])
  | (Panic, out') => (Panic, out', [])
  end.

(** ** Properties *)

Section sending.
Context {w : Winnow} {ws : WinnowSpec w} (F : Framing) {L : LawfulFraming F}.

Lemma encode_into_cleared h r :
  wf h → wf r →
  encode_request_into F h r [] =
  match encode_request F h r with
  | Ok adu => (Ok tt, adu) | Err e => (Err e, []) | Panic => (Panic, [])
  end.
Proof.
  intros Hh Hr. rewrite encode_request_frame, encode_request_into_frame by done.
  by destruct (request_bytes r).
Qed.

Lemma encode_response_into_cleared h r :
  wf h → wf r →
  encode_response_into F h r [] =
  match encode_response F h r with
  | Ok adu => (Ok tt, adu) | Err e => (Err e, []) | Panic => (Panic, [])
  end.
Proof.
  intros Hh Hr. rewrite encode_response_frame, encode_response_into_frame by done.
  by destruct (response_bytes r).
Qed.

(** Sending a request writes its frame and nothing else, whatever an
    earlier failed send left in the buffer: all of it on success, a prefix of it
    when the stream fails, and not a byte when the request does not encode
    (TR-R-003, TR-R-043). *)
Theorem send_request_exact h r wr fl stale sent res t' :
  wf h → wf r → send_request F h r wr fl (mkWriter stale sent) = (res, t') →
  match encode_request F h r with
  | Ok adu => ∃ p, accepted t' = sent ++ p ∧ p `prefix_of` adu ∧
      (res = Ok tt → p = adu ∧ outgoing t' = []) ∧ (res ≠ Ok tt → ∃ k o, res = Err (Io k o))
  | Err e => res = Err e ∧ accepted t' = sent
  | Panic => False
  end.
Proof.
  intros Hh Hr H. unfold send_request, encode_then_send in H. rewrite encode_into_cleared in H by done.
  pose proof (request_bytes_no_panic r) as Hn. rewrite encode_request_frame in * by done.
  destruct (request_bytes r) as [pdu|e|]; [|by injection H as <- <-|done]. cbn [fmap] in *.
  set (adu := frame h pdu) in *. unfold send in H. cbn [Result_fmap outgoing accepted] in *.
  destruct wr as [|n k o]; [destruct fl as [|k o]|]; injection H as <- <-; cbn [accepted outgoing].
  - exists adu. by split_and!; [| | |].
  - exists adu. split_and!; [done..|]. intros _. by eexists _, _.
  - exists (take n adu). split_and!; [done|apply prefix_take|done|]. intros _. by eexists _, _.
Qed.

(** A datagram that fits the buffer is decoded whole, whatever the buffer held. *)
Lemma udp_recv_fits {A} (decode : list Z → Result A) bs incoming :
  (length bs ≤ length incoming)%nat → fst (udp_recv decode (Datagram bs) incoming) = decode bs.
Proof.
  intros Hl. unfold udp_recv, socket_recv. rewrite Nat.min_l by done. cbn [fst].
  rewrite Result_bind_ok, take_ge by lia.
  replace (slice_get 0 _ _) with (Some bs); [done|].
  rewrite slice_get_take by (unfold len; rewrite length_app, length_drop; lia).
  by rewrite Nat2Z.id, take_app_length.
Qed.

Lemma length_udp_incoming : 0 ≤ MAX_ADU_LEN F → len (udp_incoming F) = MAX_ADU_LEN F.
Proof. intros H. unfold len, udp_incoming. rewrite length_replicate. lia. Qed.

Lemma length_udp_recv {A} (decode : list Z → Result A) r incoming :
  length (snd (udp_recv decode r incoming)) = length incoming.
Proof.
  destruct r as [bs|k o]; [|done]. unfold udp_recv, socket_recv. cbn [snd].
  rewrite length_app, length_take, length_drop. lia.
Qed.

(** Over datagrams, one datagram carries one message: a request sent is
    the datagram that decodes to it, and neither what was received before nor
    what failed to decode before matters (TR-R-073, TR-R-074, TR-R-098). *)
Theorem udp_one_datagram_one_request h r t t' before :
  wf h → wf r → request_canonical r = true →
  udp_send_request F h r SentDatagram t = (Ok tt, t') →
  ∃ adu, datagrams t' = datagrams t ++ [adu] ∧ udp_outgoing t' = [] ∧
    let '(_, incoming) := udp_recv_request F before (udp_incoming F) in
    fst (udp_recv_request F (Datagram adu) incoming) = Ok (h, r).
Proof.
  intros Hh Hr Hc H. unfold udp_send_request, udp_send in H. rewrite encode_into_cleared in H by done.
  destruct (encode_request F h r) as [adu|e|] eqn:E; [|done..]. injection H as <-.
  exists adu. split_and!; [done..|].
  destruct (request_adu_roundtrip h r adu) as (Hd & _ & Hl); [done..|].
  destruct (udp_recv_request F before (udp_incoming F)) as [x incoming] eqn:Eb.
  unfold udp_recv_request in *. rewrite udp_recv_fits; [done|].
  replace incoming with (snd (udp_recv (decode_request F) before (udp_incoming F))) by (by rewrite Eb).
  rewrite length_udp_recv. pose proof (length_udp_incoming ltac:(lia)). unfold len in *. lia.
Qed.

Lemma udp_recv_cut h r adu extra :
  wf h → wf r → request_canonical r = true → encode_request F h r = Ok adu →
  len adu = MAX_ADU_LEN F →
  fst (udp_recv_request F (Datagram (adu ++ extra)) (udp_incoming F)) = Ok (h, r).
Proof.
  intros Hh Hr Hc He Hl. destruct (request_adu_roundtrip h r adu) as (Hd & _ & Hb); [done..|].
  pose proof (length_udp_incoming ltac:(lia)) as Hi.
  assert (length (udp_incoming F) = length adu) as Hlen by (unfold len in *; lia).
  rewrite <- Hd. rewrite <- (udp_recv_fits (decode_request F) adu (udp_incoming F)) by lia.
  unfold udp_recv_request, udp_recv, socket_recv. cbn [fst].
  rewrite length_app, Nat.min_r, Nat.min_l by lia. rewrite Hlen.
  by rewrite take_app_length, take_ge by lia.
Qed.
End sending.

(** A datagram longer than the largest ADU is not refused: the socket cuts
    it to the receive buffer, so a largest frame followed by further bytes is
    received as that frame alone, although no Modbus TCP request decodes from
    the datagram as a whole. *)
Theorem udp_oversized_datagram_accepted {w : Winnow} {ws : WinnowSpec w} h r adu extra :
  wf h → wf r → request_canonical r = true → encode_request Tcp_framing h r = Ok adu →
  len adu = MAX_ADU_LEN Tcp_framing → bytes_ok extra → extra ≠ [] →
  fst (udp_recv_request Tcp_framing (Datagram (adu ++ extra)) (udp_incoming Tcp_framing))
    = Ok (h, r) ∧
  ∀ m, decode_request Tcp_framing (adu ++ extra) ≠ Ok m.
Proof.
  intros Hh Hr Hc He Hl Hb Hne. split; [by apply (udp_recv_cut Tcp_framing)|]. intros [h' r'] Hd.
  destruct (request_adu_roundtrip (F := Tcp_framing) h r adu) as (_ & Hab & _); [done..|].
  apply (decode_by_denotes Tcp_split mbap eq Tcp_split_inv RequestPdu_decode) in Hd
    as (pdu & Heq & Hh' & Hp & _); [|by apply bytes_ok_app].
  pose proof (mbap_bounds h' pdu Hh' Hp) as [_ Hm]. rewrite <- Heq in Hm.
  change (MAX_ADU_LEN Tcp_framing) with 260 in Hl. destruct extra; [done|].
  revert Hm. rewrite len_app, len_cons. pose proof (len_nonneg extra). lia.
Qed.

(** ** Witnesses *)

Section witnesses.
Local Existing Instance winnow_model.
Local Existing Instance winnow_model_spec.

(** A write that fails after three bytes, over a stale buffer. *)
Lemma send_request_exact_witness :
  let '(res, t') := send_request Tcp_framing (mkMbapHeader (mkTransactionId 1) (mkUnitId 17))
    Req_ReportServerId (WriteFailed 3 OtherKind None) Flushed (mkWriter [9; 9] [7]) in
  ∃ p, accepted t' = [7] ++ p ∧ p `prefix_of` [0; 1; 0; 0; 0; 2; 17; 17] ∧
    (res = Ok tt → p = [0; 1; 0; 0; 0; 2; 17; 17] ∧ outgoing t' = []) ∧
    (res ≠ Ok tt → ∃ k o, res = Err (Io k o)).
Proof.
  destruct (send_request _ _ _ _ _ _) as [res t'] eqn:E.
  apply (send_request_exact Tcp_framing) in E; [|by_eval..]. exact E.
Defined.

Lemma udp_one_datagram_one_request_witness :
  ∃ adu, [[0; 1; 0; 0; 0; 2; 17; 17]] = [] ++ [adu] ∧ @nil Z = [] ∧
    let '(_, incoming) := udp_recv_request Tcp_framing (Datagram [1; 2; 3])
      (udp_incoming Tcp_framing) in
    fst (udp_recv_request Tcp_framing (Datagram adu) incoming) =
    Ok (mkMbapHeader (mkTransactionId 1) (mkUnitId 17), Req_ReportServerId).
Proof.
  apply (udp_one_datagram_one_request Tcp_framing
    (mkMbapHeader (mkTransactionId 1) (mkUnitId 17)) Req_ReportServerId
    (mkDatagramWriter [] []) (mkDatagramWriter [] [[0; 1; 0; 0; 0; 2; 17; 17]])); by_eval.
Defined.

Lemma udp_oversized_datagram_accepted_witness :
  let adu := mbap (mkMbapHeader (mkTransactionId 1) (mkUnitId 17)) (65 :: replicate 252 0) in
  fst (udp_recv_request Tcp_framing (Datagram (adu ++ [1; 2])) (udp_incoming Tcp_framing)) =
    Ok (mkMbapHeader (mkTransactionId 1) (mkUnitId 17), Req_Custom 65 (replicate 252 0)) ∧
  ∀ m, decode_request Tcp_framing (adu ++ [1; 2]) ≠ Ok m.
Proof.
  apply (udp_oversized_datagram_accepted (mkMbapHeader (mkTransactionId 1) (mkUnitId 17))
    (Req_Custom 65 (replicate 252 0))); by_eval.
Defined.
End witnesses.
