(* ===== verification/Framed.v ===== *)
(** * Transports as values ([src/transport/mod.rs], [src/transport/udp.rs])

    [FrameTransport], the halves it splits into, the read-only [AduReader], the
    datagram transport with its halves, and the trait [ClientTransport] the
    client is generic over.  A stream is what its reads and writes will meet: the
    arrivals a receive consumes, the outcomes of the successive sends, and the
    bytes it has accepted.  An operation that the stream does not let complete is
    [Unfinished], and leaves what a dropped future leaves. *)

From S2P Require Import Prelude.
From S2P Require Import Errors.
From S2P Require Import Parse.
From S2P Require Import Value.
From S2P Require Import Wire.
From S2P Require Import Pdu.
From S2P Require Import PduSpec.
From S2P Require Import PduRoundtrip.
From S2P Require Import Framing.
From S2P Require Import Rtu.
From S2P Require Import RtuStream.
From S2P Require Import Tcp.
From S2P Require Import Ascii.
From S2P Require Import Serial.
From S2P Require Import Transport.
From S2P Require Import TransportSpec.
From S2P Require Import TransportSafety.
From S2P Require Import TransportTheorems.
From S2P Require Import Outgoing.

(** A future driven as far as its environment lets it go. *)
Inductive Poll (T A : Type) :=
  | Finished (r : Result A) (t : T)
  | Unfinished (t : T).
Arguments Finished {T A} r t.
Arguments Unfinished {T A} t.

(** The reply of a poll and the value after it. *)
Definition reply {T A} (p : Poll T A) : option (Result A) :=
  match p with Finished r _ => Some r | Unfinished _ => None end.
Definition after {T A} (p : Poll T A) : T :=
  match p with Finished _ t => t | Unfinished t => t end.

(** A duplex byte stream, and [tokio::io::split] of it. *)
Record ReadHalf := mkReadHalf { arrivals : list Event }.
Record WriteHalf := mkWriteHalf { departures : list (WriteAll * Flush); on_wire : list Z }.
Record Stream := mkStream { read_half : ReadHalf; write_half : WriteHalf }.

Definition io_split (s : Stream) : ReadHalf * WriteHalf := (read_half s, write_half s).

(** ** The framed transport *)

(** [FrameTransport]. *)
Record FrameTransport (F : Framing) := mkFrameTransport {
  ft_stream : Stream;
  ft_buffer : list Z;
  ft_outgoing : list Z;
  ft_config : TransportConfig;
  ft_receiving : bool;
}.
Arguments mkFrameTransport {F}.
Arguments ft_stream {F}.
Arguments ft_buffer {F}.
Arguments ft_outgoing {F}.
Arguments ft_config {F}.
Arguments ft_receiving {F}.

(** [FrameTransportReader] and [FrameTransportWriter]. *)
Record FrameTransportReader (F : Framing) := mkFrameTransportReader {
  rd_stream : ReadHalf;
  rd_buffer : list Z;
  rd_config : TransportConfig;
  rd_receiving : bool;
}.
Arguments mkFrameTransportReader {F}.
Arguments rd_stream {F}.
Arguments rd_buffer {F}.
Arguments rd_config {F}.
Arguments rd_receiving {F}.

Record FrameTransportWriter (F : Framing) := mkFrameTransportWriter {
  wt_stream : WriteHalf;
  wt_outgoing : list Z;
}.
Arguments mkFrameTransportWriter {F}.
Arguments wt_stream {F}.
Arguments wt_outgoing {F}.

(** [AduReader]. *)
Record AduReader (F : Framing) := mkAduReader {
  ar_stream : ReadHalf;
  ar_buffer : list Z;
  ar_config : TransportConfig;
  ar_receiving : bool;
  ar_direction : Direction;
}.
Arguments mkAduReader {F}.
Arguments ar_stream {F}.
Arguments ar_buffer {F}.
Arguments ar_config {F}.
Arguments ar_receiving {F}.
Arguments ar_direction {F}.

(** A receive over borrowed fields: what it leaves in them. *)
Definition received {A} (out : Received A) : Poll (RecvState * ReadHalf) A :=
  match out with
  | Returned r st trace => Finished r (st, mkReadHalf trace)
  | Waiting st => Unfinished (st, mkReadHalf [])
  end.

(** A poll whose state is a part of a larger value. *)
Definition lift_poll {T U A} (put : T → U) (p : Poll T A) : Poll U A :=
  match p with
  | Finished r t => Finished r (put t)
  | Unfinished t => Unfinished (put t)
  end.

(** Encoding into the cleared buffer, then [shared::send] over a write half; the
    encoding fails before the stream is touched. *)
Definition send_over (enc : W unit) (wh : WriteHalf) : Poll (WriteHalf * list Z) unit :=
  match enc [] with
  | (Ok _, out) =>
      match departures wh with
      | [] => Unfinished (wh, out)
      | (wr, fl) :: later =>
          let '(r, t) := send wr fl (mkWriter out (on_wire wh)) in
          Finished r (mkWriteHalf later (accepted t), outgoing t)
      end
  | (Err e, out) => Finished (Err e) (wh, out)
  | (Panic, out) => Finished Panic (wh, out)
  end.

Section transports.
Context {F : Framing}.

(** [FrameTransport::with_config], [new] and [into_inner]. *)
Definition FrameTransport_with_config (stream : Stream) (config : TransportConfig)
    : FrameTransport F :=
  mkFrameTransport stream [] [] config false.

Definition FrameTransport_new (stream : Stream) : FrameTransport F :=
  FrameTransport_with_config stream TransportConfig_default.

Definition FrameTransport_into_inner (t : FrameTransport F) : Stream := ft_stream t.

(** Its receives and its sends. *)
Definition ft_after_recv (t : FrameTransport F) (s : RecvState * ReadHalf) : FrameTransport F :=
  mkFrameTransport (mkStream s.2 (write_half (ft_stream t))) (buffer s.1) (ft_outgoing t)
    (ft_config t) (receiving s.1).

Definition ft_after_send (t : FrameTransport F) (s : WriteHalf * list Z) : FrameTransport F :=
  mkFrameTransport (mkStream (read_half (ft_stream t)) s.1) (ft_buffer t) s.2
    (ft_config t) (ft_receiving t).

Definition ft_recv_request (t : FrameTransport F)
    : Poll (FrameTransport F) (Header F * RequestPdu) :=
  lift_poll (ft_after_recv t) (received
    (recv_request F (mkRecvState (ft_buffer t) (ft_receiving t))
       (arrivals (read_half (ft_stream t))))).

Definition ft_recv_response (t : FrameTransport F)
    : Poll (FrameTransport F) (Header F * ResponsePdu) :=
  lift_poll (ft_after_recv t) (received
    (recv_response F (mkRecvState (ft_buffer t) (ft_receiving t))
       (arrivals (read_half (ft_stream t))))).

Definition ft_send_request (header : Header F) (pdu : RequestPdu) (t : FrameTransport F)
    : Poll (FrameTransport F) unit :=
  lift_poll (ft_after_send t)
    (send_over (encode_request_into F header pdu) (write_half (ft_stream t))).

Definition ft_send_response (header : Header F) (pdu : ResponsePdu) (t : FrameTransport F)
    : Poll (FrameTransport F) unit :=
  lift_poll (ft_after_send t)
    (send_over (encode_response_into F header pdu) (write_half (ft_stream t))).

(** [FrameTransport::split]. *)
Definition ft_split (t : FrameTransport F) : FrameTransportReader F * FrameTransportWriter F :=
  let '(read_half, write_half) := io_split (ft_stream t) in
  (mkFrameTransportReader read_half (ft_buffer t) (ft_config t) (ft_receiving t),
   mkFrameTransportWriter write_half (ft_outgoing t)).

(** The methods of the halves. *)
Definition rd_after_recv (t : FrameTransportReader F) (s : RecvState * ReadHalf)
    : FrameTransportReader F :=
  mkFrameTransportReader s.2 (buffer s.1) (rd_config t) (receiving s.1).

Definition rd_recv_request (t : FrameTransportReader F)
    : Poll (FrameTransportReader F) (Header F * RequestPdu) :=
  lift_poll (rd_after_recv t) (received
    (recv_request F (mkRecvState (rd_buffer t) (rd_receiving t)) (arrivals (rd_stream t)))).

Definition rd_recv_response (t : FrameTransportReader F)
    : Poll (FrameTransportReader F) (Header F * ResponsePdu) :=
  lift_poll (rd_after_recv t) (received
    (recv_response F (mkRecvState (rd_buffer t) (rd_receiving t)) (arrivals (rd_stream t)))).

Definition wt_after_send (s : WriteHalf * list Z) : FrameTransportWriter F :=
  mkFrameTransportWriter s.1 s.2.

Definition wt_send_request (header : Header F) (pdu : RequestPdu) (t : FrameTransportWriter F)
    : Poll (FrameTransportWriter F) unit :=
  lift_poll wt_after_send (send_over (encode_request_into F header pdu) (wt_stream t)).

Definition wt_send_response (header : Header F) (pdu : ResponsePdu) (t : FrameTransportWriter F)
    : Poll (FrameTransportWriter F) unit :=
  lift_poll wt_after_send (send_over (encode_response_into F header pdu) (wt_stream t)).

(** [AduReader::with_config], [new], [into_inner] and [recv_adu]. *)
Definition AduReader_with_config (stream : ReadHalf) (direction : Direction)
    (config : TransportConfig) : AduReader F :=
  mkAduReader stream [] config false direction.

Definition AduReader_new (stream : ReadHalf) (direction : Direction) : AduReader F :=
  AduReader_with_config stream direction TransportConfig_default.

Definition AduReader_into_inner (t : AduReader F) : ReadHalf := ar_stream t.

Definition ar_recv_adu (t : AduReader F) : Poll (AduReader F) (list Z) :=
  lift_poll (λ s, mkAduReader s.2 (buffer s.1) (ar_config t) (receiving s.1) (ar_direction t))
    (received (recv_adu F (ar_direction t) (mkRecvState (ar_buffer t) (ar_receiving t))
                 (arrivals (ar_stream t)))).
End transports.

(** ** The datagram transport *)

(** A socket associated with one peer: the datagrams it will deliver, the
    outcomes of its sends, and the datagrams it sent. *)
Record UdpSocket := mkUdpSocket {
  deliveries : list SocketRecv;
  dispatches : list SocketSend;
  dispatched : list (list Z);
}.

(** [UdpTransport] and its halves.  The halves share the socket; the reader uses
    its deliveries and the writer the rest. *)
Record UdpTransport (F : Framing) := mkUdpTransport {
  ut_socket : UdpSocket;
  ut_outgoing : list Z;
  ut_incoming : list Z;
}.
Arguments mkUdpTransport {F}.
Arguments ut_socket {F}.
Arguments ut_outgoing {F}.
Arguments ut_incoming {F}.

Record UdpTransportReader (F : Framing) := mkUdpTransportReader {
  ur_deliveries : list SocketRecv;
  ur_incoming : list Z;
}.
Arguments mkUdpTransportReader {F}.
Arguments ur_deliveries {F}.
Arguments ur_incoming {F}.

Record UdpTransportWriter (F : Framing) := mkUdpTransportWriter {
  uw_dispatches : list SocketSend;
  uw_dispatched : list (list Z);
  uw_outgoing : list Z;
}.
Arguments mkUdpTransportWriter {F}.
Arguments uw_dispatches {F}.
Arguments uw_dispatched {F}.
Arguments uw_outgoing {F}.

(** One receive of the next delivery, and one send meeting the next outcome. *)
Definition udp_recv_over {A} (decode : list Z → Result A) (due : list SocketRecv)
    (incoming : list Z) : Poll (list SocketRecv * list Z) A :=
  match due with
  | [] => Unfinished ([], incoming)
  | r :: due' => let '(res, incoming') := udp_recv decode r incoming in
                 Finished res (due', incoming')
  end.

Definition udp_send_over (enc : W unit) (due : list SocketSend) (sent : list (list Z))
    : Poll (list SocketSend * list (list Z) * list Z) unit :=
  match enc [] with
  | (Ok _, out) =>
      match due with
      | [] => Unfinished ([], sent, out)
      | s :: due' =>
          let '(res, t) := udp_send enc s (mkDatagramWriter [] sent) in
          Finished res (due', datagrams t, udp_outgoing t)
      end
  | (Err e, out) => Finished (Err e) (due, sent, out)
  | (Panic, out) => Finished Panic (due, sent, out)
  end.

Section datagrams.
Context {F : Framing}.

(** [UdpTransport::new] and [into_inner]. *)
Definition UdpTransport_new (socket : UdpSocket) : UdpTransport F :=
  mkUdpTransport socket [] (udp_incoming F).

Definition UdpTransport_into_inner (t : UdpTransport F) : UdpSocket := ut_socket t.

Definition ut_after_recv (t : UdpTransport F) (s : list SocketRecv * list Z) : UdpTransport F :=
  mkUdpTransport (mkUdpSocket s.1 (dispatches (ut_socket t)) (dispatched (ut_socket t)))
    (ut_outgoing t) s.2.

Definition ut_after_send (t : UdpTransport F) (s : list SocketSend * list (list Z) * list Z)
    : UdpTransport F :=
  mkUdpTransport (mkUdpSocket (deliveries (ut_socket t)) s.1.1 s.1.2) s.2 (ut_incoming t).

(** [UdpTransport::send_request], [send_response], [recv_request],
    [recv_response] and [split]. *)
Definition ut_send_request (header : Header F) (pdu : RequestPdu) (t : UdpTransport F)
    : Poll (UdpTransport F) unit :=
  lift_poll (ut_after_send t) (udp_send_over (encode_request_into F header pdu)
    (dispatches (ut_socket t)) (dispatched (ut_socket t))).

Definition ut_send_response (header : Header F) (pdu : ResponsePdu) (t : UdpTransport F)
    : Poll (UdpTransport F) unit :=
  lift_poll (ut_after_send t) (udp_send_over (encode_response_into F header pdu)
    (dispatches (ut_socket t)) (dispatched (ut_socket t))).

Definition ut_recv_request (t : UdpTransport F) : Poll (UdpTransport F) (Header F * RequestPdu) :=
  lift_poll (ut_after_recv t)
    (udp_recv_over (decode_request F) (deliveries (ut_socket t)) (ut_incoming t)).

Definition ut_recv_response (t : UdpTransport F) : Poll (UdpTransport F) (Header F * ResponsePdu) :=
  lift_poll (ut_after_recv t)
    (udp_recv_over (decode_response F) (deliveries (ut_socket t)) (ut_incoming t)).

Definition ut_split (t : UdpTransport F) : UdpTransportReader F * UdpTransportWriter F :=
  (mkUdpTransportReader (deliveries (ut_socket t)) (ut_incoming t),
   mkUdpTransportWriter (dispatches (ut_socket t)) (dispatched (ut_socket t)) (ut_outgoing t)).

(** The methods of the halves. *)
Definition ur_after_recv (s : list SocketRecv * list Z) : UdpTransportReader F :=
  mkUdpTransportReader s.1 s.2.

Definition ur_recv_request (t : UdpTransportReader F)
    : Poll (UdpTransportReader F) (Header F * RequestPdu) :=
  lift_poll ur_after_recv (udp_recv_over (decode_request F) (ur_deliveries t) (ur_incoming t)).

Definition ur_recv_response (t : UdpTransportReader F)
    : Poll (UdpTransportReader F) (Header F * ResponsePdu) :=
  lift_poll ur_after_recv (udp_recv_over (decode_response F) (ur_deliveries t) (ur_incoming t)).

Definition uw_after_send (s : list SocketSend * list (list Z) * list Z) : UdpTransportWriter F :=
  mkUdpTransportWriter s.1.1 s.1.2 s.2.

Definition uw_send_request (header : Header F) (pdu : RequestPdu) (t : UdpTransportWriter F)
    : Poll (UdpTransportWriter F) unit :=
  lift_poll uw_after_send
    (udp_send_over (encode_request_into F header pdu) (uw_dispatches t) (uw_dispatched t)).

Definition uw_send_response (header : Header F) (pdu : ResponsePdu) (t : UdpTransportWriter F)
    : Poll (UdpTransportWriter F) unit :=
  lift_poll uw_after_send
    (udp_send_over (encode_response_into F header pdu) (uw_dispatches t) (uw_dispatched t)).
End datagrams.

(** [UdpConfig] carries nothing.  [connect_udp]: [bind] and [associate] are what
    the operating system answers, the local address follows the family of the
    peer. *)
Record UdpConfig := mkUdpConfig {}.

Definition unspecified_for (peer : SocketAddr) : SocketAddr :=
  match ip peer with
  | V4 _ => mkSocketAddr (V4 0) 0
  | V6 _ => mkSocketAddr (V6 0) 0
  end.

Definition connect_udp {w : Winnow} (bind : SocketAddr → Result UdpSocket)
    (associate : UdpSocket → SocketAddr → Result unit) (peer : SocketAddr) (_config : UdpConfig)
    : Result (UdpTransport Tcp_framing) :=
  let local := unspecified_for peer in
  socket ← bind local;
  _ ← associate socket peer;
  Ok (UdpTransport_new socket).

(** ** The interface of the client *)

(** The trait [ClientTransport]. *)
Class ClientTransport (F : Framing) (T : Type) := {
  ct_send_request : Header F → RequestPdu → T → Poll T unit;
  ct_recv_response : T → Poll T (Header F * ResponsePdu);
}.

#[export] Instance FrameTransport_ClientTransport F : ClientTransport F (FrameTransport F) := {|
  ct_send_request := ft_send_request;
  ct_recv_response := ft_recv_response;
|}.

#[export] Instance UdpTransport_ClientTransport F : ClientTransport F (UdpTransport F) := {|
  ct_send_request := ut_send_request;
  ct_recv_response := ut_recv_response;
|}.
