(* ===== verification/FramedTheorems.v ===== *)
(** * Split transports and the bytes a receive consumes

    A transport that is split behaves as before it was: any interleaving of
    receives and sends on the halves gives the replies of the same calls on the
    whole, and the receives do not see the sends.  Below it, what a receive takes
    off the stream: the measure that makes the loops over a transport end. *)

From S2P Require Import Prelude.
From S2P Require Import Errors.
From S2P Require Import Parse.
From S2P Require Import Value.
From S2P Require Import Wire.
From S2P Require Import Pdu.
From S2P Require Import PduSpec.
From S2P Require Import PduRoundtrip.
From S2P Require Import Framing.
From S2P Require Import Rtu.
From S2P Require Import RtuStream.
From S2P Require Import Tcp.
From S2P Require Import Ascii.
From S2P Require Import Serial.
From S2P Require Import Transport.
From S2P Require Import TransportSpec.
From S2P Require Import TransportSafety.
From S2P Require Import TransportTheorems.
From S2P Require Import Outgoing.
From S2P Require Import Framed.

(** ** Calls on a transport and on its halves *)

Inductive TransportCall (F : Framing) :=
  | RecvRequest
  | RecvResponse
  | SendRequest (header : Header F) (pdu : RequestPdu)
  | SendResponse (header : Header F) (pdu : ResponsePdu).
Arguments RecvRequest {F}.
Arguments RecvResponse {F}.
Arguments SendRequest {F} header pdu.
Arguments SendResponse {F} header pdu.

(** What a call answers; [None] while it waits. *)
Inductive TransportAnswer (F : Framing) :=
  | AnsRequest (r : option (Result (Header F * RequestPdu)))
  | AnsResponse (r : option (Result (Header F * ResponsePdu)))
  | AnsSent (r : option (Result unit)).
Arguments AnsRequest {F} r.
Arguments AnsResponse {F} r.
Arguments AnsSent {F} r.

(** A transport that can be used from both ends, and one read or write half. *)
Class Duplex (F : Framing) (T : Type) := {
  dx_recv_request : T → Poll T (Header F * RequestPdu);
  dx_recv_response : T → Poll T (Header F * ResponsePdu);
  dx_send_request : Header F → RequestPdu → T → Poll T unit;
  dx_send_response : Header F → ResponsePdu → T → Poll T unit;
}.

Class Halves (F : Framing) (R W : Type) := {
  hv_recv_request : R → Poll R (Header F * RequestPdu);
  hv_recv_response : R → Poll R (Header F * ResponsePdu);
  hv_send_request : Header F → RequestPdu → W → Poll W unit;
  hv_send_response : Header F → ResponsePdu → W → Poll W unit;
}.

Section calls.
Context {F : Framing}.

Definition on_whole {T} `{Duplex F T} (c : TransportCall F) (t : T) : TransportAnswer F * T :=
  match c with
  | RecvRequest => let p := dx_recv_request t in (AnsRequest (reply p), after p)
  | RecvResponse => let p := dx_recv_response t in (AnsResponse (reply p), after p)
  | SendRequest h pdu => let p := dx_send_request h pdu t in (AnsSent (reply p), after p)
  | SendResponse h pdu => let p := dx_send_response h pdu t in (AnsSent (reply p), after p)
  end.

Definition on_halves {R W} `{Halves F R W} (c : TransportCall F) (t : R * W) : TransportAnswer F * (R * W) :=
  match c with
  | RecvRequest => let p := hv_recv_request t.1 in (AnsRequest (reply p), (after p, t.2))
  | RecvResponse => let p := hv_recv_response t.1 in (AnsResponse (reply p), (after p, t.2))
  | SendRequest h pdu => let p := hv_send_request h pdu t.2 in (AnsSent (reply p), (t.1, after p))
  | SendResponse h pdu => let p := hv_send_response h pdu t.2 in (AnsSent (reply p), (t.1, after p))
  end.

(** A run of calls, one after the other. *)
Fixpoint run_calls {T} (step : TransportCall F → T → TransportAnswer F * T) (cs : list (TransportCall F)) (t : T)
    : list (TransportAnswer F) * T :=
  match cs with
  | [] => ([], t)
  | c :: cs' =>
      let '(a, t') := step c t in
      let '(answers, t'') := run_calls step cs' t' in (a :: answers, t'')
  end.

Definition is_recv (c : TransportCall F) : bool :=
  match c with RecvRequest | RecvResponse => true | _ => false end.

Definition is_recv_answer (a : TransportAnswer F) : bool :=
  match a with AnsSent _ => false | _ => true end.
End calls.

(** What a split promises: a call on the whole and the same call on the half
    concerned give the same answer and the same parts. *)
Class SplitLaws (F : Framing) (T R W : Type) `{Duplex F T} `{Halves F R W} := {
  split_of : T → R * W;
  split_step c t :
    on_halves c (split_of t) = ((on_whole c t).1, split_of (on_whole c t).2);
}.

#[export] Instance FrameTransport_Duplex F : Duplex F (FrameTransport F) := {|
  dx_recv_request := ft_recv_request; dx_recv_response := ft_recv_response;
  dx_send_request := ft_send_request; dx_send_response := ft_send_response;
|}.

#[export] Instance FrameTransport_Halves F :
    Halves F (FrameTransportReader F) (FrameTransportWriter F) := {|
  hv_recv_request := rd_recv_request; hv_recv_response := rd_recv_response;
  hv_send_request := wt_send_request; hv_send_response := wt_send_response;
|}.

#[export] Instance UdpTransport_Duplex F : Duplex F (UdpTransport F) := {|
  dx_recv_request := ut_recv_request; dx_recv_response := ut_recv_response;
  dx_send_request := ut_send_request; dx_send_response := ut_send_response;
|}.

#[export] Instance UdpTransport_Halves F :
    Halves F (UdpTransportReader F) (UdpTransportWriter F) := {|
  hv_recv_request := ur_recv_request; hv_recv_response := ur_recv_response;
  hv_send_request := uw_send_request; hv_send_response := uw_send_response;
|}.

Lemma reply_lift {T U A} (put : T → U) (p : Poll T A) : reply (lift_poll put p) = reply p.
Proof. by destruct p. Qed.

Lemma after_lift {T U A} (put : T → U) (p : Poll T A) : after (lift_poll put p) = put (after p).
Proof. by destruct p. Qed.

#[export] Program Instance FrameTransport_split F :
    SplitLaws F (FrameTransport F) (FrameTransportReader F) (FrameTransportWriter F) :=
  {| split_of := ft_split |}.
Next Obligation.
  intros F [ | |h pdu|h pdu] [[rh wh] b o cfg latch]; cbn -[send_over];
    unfold ft_recv_request, ft_recv_response, ft_send_request, ft_send_response,
      rd_recv_request, rd_recv_response, wt_send_request, wt_send_response;
    by rewrite !reply_lift, !after_lift.
Qed.

#[export] Program Instance UdpTransport_split F :
    SplitLaws F (UdpTransport F) (UdpTransportReader F) (UdpTransportWriter F) :=
  {| split_of := ut_split |}.
Next Obligation.
  intros F [ | |h pdu|h pdu] [[dl ds sent] o i]; cbn -[udp_send_over udp_recv_over];
    unfold ut_recv_request, ut_recv_response, ut_send_request, ut_send_response,
      ur_recv_request, ur_recv_response, uw_send_request, uw_send_response;
    by rewrite !reply_lift, !after_lift.
Qed.

Section split.
Context {F : Framing} {T R W : Type} `{SL : SplitLaws F T R W}.

Lemma run_calls_cons {S} (step : TransportCall F → S → TransportAnswer F * S) c cs (t : S) :
  run_calls step (c :: cs) t =
  ((step c t).1 :: (run_calls step cs (step c t).2).1, (run_calls step cs (step c t).2).2).
Proof. cbn. destruct (step c t) as [a t']. cbn. by destruct (run_calls step cs t'). Qed.

Lemma run_split cs (t : T) :
  run_calls on_halves cs (split_of t) =
  ((run_calls on_whole cs t).1, split_of (run_calls on_whole cs t).2).
Proof.
  revert t. induction cs as [|c cs IH]; intros t; [done|].
  by rewrite !run_calls_cons, split_step; cbn [fst snd]; rewrite IH.
Qed.

(** The calls on one half see that half only. *)
Lemma halves_recvs cs (r : R) (w w' : W) :
  List.filter is_recv_answer (run_calls on_halves cs (r, w)).1 =
  (run_calls on_halves (List.filter is_recv cs) (r, w')).1.
Proof.
  revert r w w'. induction cs as [|c cs IH]; intros r w w'; [done|].
  rewrite run_calls_cons. destruct c; cbn [List.filter is_recv is_recv_answer on_halves fst snd];
    [rewrite run_calls_cons; cbn [on_halves fst snd]; f_equal..| |]; apply IH.
Qed.

Lemma halves_sends cs (r r' : R) (w : W) :
  List.filter (λ a, negb (is_recv_answer a)) (run_calls on_halves cs (r, w)).1 =
  (run_calls on_halves (List.filter (λ c, negb (is_recv c)) cs) (r', w)).1.
Proof.
  revert r r' w. induction cs as [|c cs IH]; intros r r' w; [done|].
  rewrite run_calls_cons.
  destruct c; cbn [List.filter is_recv is_recv_answer on_halves fst snd negb];
    [| |rewrite run_calls_cons; cbn [on_halves fst snd]; f_equal..]; apply IH.
Qed.

Lemma split_transparent cs (t : T) :
  let whole := run_calls on_whole cs t in
  run_calls on_halves cs (split_of t) = (whole.1, split_of whole.2) ∧
  List.filter is_recv_answer whole.1 =
    (run_calls on_whole (List.filter is_recv cs) t).1 ∧
  List.filter (λ a, negb (is_recv_answer a)) whole.1 =
    (run_calls on_whole (List.filter (λ c, negb (is_recv c)) cs) t).1.
Proof.
  cbn zeta. destruct (split_of t) as [r w] eqn:E.
  assert (∀ cs, (run_calls on_whole cs t).1 = (run_calls on_halves cs (r, w)).1) as Hw.
  { intros l. by rewrite <- E, run_split. }
  split_and!; [by rewrite <- E, run_split|rewrite !Hw; apply halves_recvs|].
  rewrite !Hw. apply halves_sends.
Qed.
End split.

(** C22. Splitting a transport changes nothing.  For streams and datagrams
    alike, any interleaving of receives and sends on the two halves answers what
    the same calls on the unsplit transport answer, and leaves the halves of what
    they leave: the bytes buffered, the latch of an abandoned receive and the
    configuration stay with the reader.  The answers of the receives (of the sends)
    are those of the receives (sends) made alone. *)
Theorem split_is_transparent F (cs : list (TransportCall F)) (t : FrameTransport F) (u : UdpTransport F) :
  (let whole := run_calls on_whole cs t in
   run_calls on_halves cs (ft_split t) = (whole.1, ft_split whole.2) ∧
   List.filter is_recv_answer whole.1 =
     (run_calls on_whole (List.filter is_recv cs) t).1 ∧
   List.filter (λ a, negb (is_recv_answer a)) whole.1 =
     (run_calls on_whole (List.filter (λ c, negb (is_recv c)) cs) t).1) ∧
  (let whole := run_calls on_whole cs u in
   run_calls on_halves cs (ut_split u) = (whole.1, ut_split whole.2) ∧
   List.filter is_recv_answer whole.1 =
     (run_calls on_whole (List.filter is_recv cs) u).1 ∧
   List.filter (λ a, negb (is_recv_answer a)) whole.1 =
     (run_calls on_whole (List.filter (λ c, negb (is_recv c)) cs) u).1).
Proof. split; [exact (split_transparent cs t)|exact (split_transparent cs u)]. Qed.

(** The read-only reader and the transport delimit alike: decoding what
    [AduReader::recv_adu] yields is what a receive of that direction answers. *)
Lemma adu_reader_agrees {F : Framing} (t : FrameTransport F) :
  let reader dir := mkAduReader (F := F) (read_half (ft_stream t)) (ft_buffer t) (ft_config t)
                      (ft_receiving t) dir in
  reply (ft_recv_request t) =
    (λ r, adu ← r; decode_request F adu) <$> reply (ar_recv_adu (reader DirRequest)) ∧
  reply (ft_recv_response t) =
    (λ r, adu ← r; decode_response F adu) <$> reply (ar_recv_adu (reader DirResponse)).
Proof.
  cbn. unfold ft_recv_request, ft_recv_response, ar_recv_adu, recv_request, recv_response.
  rewrite !reply_lift. cbn. split; by destruct (recv_adu _ _ _ _).
Qed.

(** ** What a receive takes off the stream *)

(** Bytes not yet handed to a caller. *)
Definition pending_bytes (buf : list Z) (trace : list Event) : nat :=
  (length buf + length (stream trace))%nat.

(** Nothing is read twice and nothing appears from nowhere: what is returned and
    what is left fits in what was there, and the trace left is the end of it. *)
Definition consumes {A} (size : A → nat) (buf : list Z) (trace : list Event) (r : Recv A) : Prop :=
  match r with
  | Done (Ok a) b t => (size a + pending_bytes b t ≤ pending_bytes buf trace)%nat ∧
      t `suffix_of` trace
  | Done _ b t => (pending_bytes b t ≤ pending_bytes buf trace)%nat ∧ t `suffix_of` trace
  | Pending b => (length b ≤ pending_bytes buf trace)%nat
  end.

Lemma consumes_mono {A} (size : A → nat) b1 t1 b2 t2 (r : Recv A) :
  (pending_bytes b1 t1 ≤ pending_bytes b2 t2)%nat → t1 `suffix_of` t2 →
  consumes size b1 t1 r → consumes size b2 t2 r.
Proof.
  intros Hle Hs. destruct r as [[a|e|] b t|b]; cbn; [intros [??]; split; [lia|by etrans]..|lia].
Qed.

Lemma pending_cons buf ev trace :
  pending_bytes buf (ev :: trace) = (length buf + length (ev_bytes ev) + length (stream trace))%nat.
Proof. unfold pending_bytes. rewrite stream_cons, length_app. lia. Qed.

Lemma read_more_length mid r buf :
  (length (read_more mid r buf).2 ≤ length buf + length (ev_bytes (Ready r)))%nat.
Proof.
  destruct r as [[|b bs]|k o]; cbn [read_more ev_bytes snd]; [lia| |cbn; lia].
  case_match; cbn [snd]; rewrite ?length_app; lia.
Qed.

(** Steps of the read loops: a wait that goes on, a read, a cut. *)
Lemma consumes_later {A} (size : A → nat) ev b buf trace (r : Recv A) :
  (length b ≤ length buf + length (ev_bytes ev))%nat →
  consumes size b trace r → consumes size buf (ev :: trace) r.
Proof.
  intros Hl. apply consumes_mono; [rewrite pending_cons; unfold pending_bytes; lia|].
  by apply suffix_cons_r.
Qed.

Lemma consumes_read {A} (size : A → nat) mid r buf trace (k : list Z → Recv A) :
  (∀ b, consumes size b trace (k b)) →
  consumes size buf (Ready r :: trace)
    (match read_more mid r buf with
     | (Ok _, b) => k b
     | (Err e, b) => Done (Err e) b trace
     | (Panic, b) => Done Panic b trace
     end).
Proof.
  intros Hk. pose proof (read_more_length mid r buf) as Hl.
  destruct (read_more mid r buf) as [[u|e|] b]; cbn [snd] in Hl;
    apply (consumes_later _ _ b); try done; apply Hk.
Qed.

Lemma consumes_finish buf n trace : consumes length buf trace (finish_take buf n trace).
Proof.
  unfold finish_take, take_adu, pending_bytes. destruct (n <=? len buf); cbn; [|done].
  unfold pending_bytes. rewrite length_take, length_drop. split; [lia|done].
Qed.

Lemma consumes_shorter {A} (size : A → nat) b buf trace (r : Recv A) :
  (length b ≤ length buf)%nat → consumes size b trace r → consumes size buf trace r.
Proof. intros Hl. apply consumes_mono; [unfold pending_bytes; lia|done]. Qed.

Section consumption.
Context (F : Framing).

Lemma fill_loop_consumes n trace buf : consumes (λ _, 0%nat) buf trace (fill_loop n trace buf).
Proof.
  revert buf. induction trace as [|ev trace IH]; intros buf; cbn [fill_loop];
    (destruct (n <=? len buf); [by split|]); [cbn; unfold pending_bytes; cbn; lia|].
  destruct ev as [r|]; [by apply consumes_read|].
  apply (consumes_later _ _ buf); [cbn; lia|apply IH].
Qed.

Lemma fill_to_consumes n trace buf : consumes (λ _, 0%nat) buf trace (fill_to F n trace buf).
Proof. unfold fill_to. destruct (_ <? _); [by split|apply fill_loop_consumes]. Qed.

(** What follows a [fill_to] consumes what it left. *)
Lemma consumes_filled n trace buf (k : list Z → list Event → Recv (list Z)) :
  (∀ b t, consumes length b t (k b t)) →
  consumes length buf trace
    (match fill_to F n trace buf with
     | Pending b => Pending b
     | Done (Err e) b t => Done (Err e) b t
     | Done Panic b t => Done Panic b t
     | Done (Ok _) b t => k b t
     end).
Proof.
  intros Hk. pose proof (fill_to_consumes n trace buf) as Hf.
  destruct (fill_to F n trace buf) as [[u|e|] b t|b]; cbn in Hf; [|done..].
  destruct Hf as [Hl Hs]. apply (consumes_mono _ b t); [lia|done|apply Hk].
Qed.

Lemma content_loop_consumes ext trace buf :
  consumes length buf trace (content_loop F ext trace buf).
Proof.
  revert buf. induction trace as [|ev trace IH]; intros buf; cbn [content_loop];
    (destruct (ext buf) as [[|n]|e|]; [|apply consumes_finish|by split..]);
    (destruct (check_buffer_bound F buf); [|by split..]).
  - cbn. unfold pending_bytes. lia.
  - destruct ev as [r|]; [by apply consumes_read|].
    apply (consumes_later _ _ buf); [cbn; lia|apply IH].
Qed.

Lemma scan_shorter start end_ buf searched :
  match scan start end_ buf searched with
  | inl (_, b) => (length b ≤ length buf)%nat
  | inr (b, _) => (length b ≤ length buf)%nat
  end.
Proof.
  unfold scan. destruct (position start buf) as [o|]; cbn; [|lia].
  destruct (find _ _ _); destruct (0 <? o); rewrite ?length_drop; lia.
Qed.

Lemma read_delimited_consumes start end_ trace buf searched :
  consumes length buf trace (read_delimited F start end_ trace buf searched).
Proof.
  revert buf searched. induction trace as [|ev trace IH]; intros buf searched;
    cbn [read_delimited]; pose proof (scan_shorter start end_ buf searched) as Hs;
    (destruct (scan start end_ buf searched) as [[n b]|[b sd]];
     apply (consumes_shorter _ b _ _ _ Hs); [apply consumes_finish|]);
    (destruct (check_buffer_bound F b); [|by split..]).
  - cbn. unfold pending_bytes. lia.
  - destruct ev as [r|]; [apply consumes_read; intros; apply IH|].
    apply (consumes_later _ _ b); [cbn; lia|]. destruct (is_empty b); [apply IH|by split].
Qed.

Lemma read_until_silence_consumes trace buf :
  consumes length buf trace (read_until_silence F trace buf).
Proof.
  revert buf. induction trace as [|ev trace IH]; intros buf; cbn [read_until_silence];
    (destruct (is_empty buf); [|destruct (check_buffer_bound F buf); [|by split..]]).
  1,2: cbn; unfold pending_bytes; lia.
  - destruct ev as [r|]; [by apply consumes_read|].
    apply (consumes_later _ _ buf); [cbn; lia|apply IH].
  - destruct ev as [r|]; [|apply (consumes_later _ _ buf); [cbn; lia|apply consumes_finish]].
    pose proof (read_more_length true r buf) as Hl.
    destruct (read_more true r buf) as [[u|e|] b]; cbn [snd] in Hl;
      apply (consumes_later _ _ b); try done.
    destruct e; by apply consumes_finish || split.
Qed.

Lemma read_adu_consumes dir trace buf : consumes length buf trace (read_adu F dir trace buf).
Proof.
  unfold read_adu. destruct (boundary F) as [prefix total|start end_| |min ext].
  - apply consumes_filled. intros b t. destruct (_ ≫= _) as [n|e|]; [|by split..].
    apply consumes_filled. intros b' t'. apply consumes_finish.
  - apply read_delimited_consumes.
  - apply read_until_silence_consumes.
  - apply consumes_filled. intros b t. apply content_loop_consumes.
Qed.
End consumption.

(** ** Transports that run dry *)

(** No framing decodes a message from no bytes. *)
Class NonEmptyAdu (F : Framing) : Prop := {
  decode_request_nil m : decode_request F [] ≠ Ok m;
  decode_response_nil m : decode_response F [] ≠ Ok m;
}.

Lemma lawful_non_empty {w : Winnow} {F : Framing} {L : LawfulFraming F} :
  (∀ adu, denotes [] adu → adu = []) → NonEmptyAdu F.
Proof.
  intros Hd. split; intros [h r] H.
  - apply decode_request_denotes in H as (pdu & Hn & Hh & Hp & _); [|constructor].
    pose proof (frame_bounds h pdu Hh Hp) as [_ Hl]. rewrite (Hd _ Hn), len_nil in Hl. lia.
  - apply decode_response_denotes in H as (pdu & Hn & Hh & Hp & _); [|constructor].
    pose proof (frame_bounds h pdu Hh Hp) as [_ Hl]. rewrite (Hd _ Hn), len_nil in Hl. lia.
Qed.

#[export] Instance Tcp_non_empty {w : Winnow} {ws : WinnowSpec w} : NonEmptyAdu Tcp_framing.
Proof. apply lawful_non_empty. by intros adu <-. Qed.
#[export] Instance Rtu_non_empty {w : Winnow} {ws : WinnowSpec w} {c : Crc16} {cs : Crc16Spec c} :
  NonEmptyAdu Rtu_framing.
Proof. apply lawful_non_empty. by intros adu <-. Qed.
#[export] Instance RtuOverTcp_non_empty {w : Winnow} {ws : WinnowSpec w} {c : Crc16}
  {cs : Crc16Spec c} : NonEmptyAdu RtuOverTcp_framing.
Proof. apply lawful_non_empty. by intros adu <-. Qed.
#[export] Instance Ascii_non_empty {w : Winnow} {ws : WinnowSpec w} : NonEmptyAdu Ascii_framing.
Proof. apply lawful_non_empty. intros adu H. by destruct adu. Qed.

(** A transport with a bound on the messages it can still deliver. *)
Class DrainingTransport (F : Framing) (T : Type) `{ClientTransport F T} := {
  unread : T → nat;
  recv_drains t m t' : ct_recv_response t = Finished (Ok m) t' → (unread t' < unread t)%nat;
  send_keeps h pdu t : unread (after (ct_send_request h pdu t)) = unread t;
}.

Definition ft_unread {F : Framing} (t : FrameTransport F) : nat :=
  pending_bytes (ft_buffer t) (arrivals (read_half (ft_stream t))).

(** A receive that returns leaves less to receive, by the ADU at least. *)
Lemma recv_adu_consumes F dir st trace r st' trace' :
  recv_adu F dir st trace = Returned r st' trace' →
  (match r with Ok adu => length adu | _ => 0%nat end + pending_bytes (buffer st') trace'
     ≤ pending_bytes (buffer st) trace)%nat ∧ trace' `suffix_of` trace.
Proof.
  unfold recv_adu. destruct (receiving st); [by intros [= <- <- <-]|].
  pose proof (read_adu_consumes F dir trace (buffer st)) as Hc.
  destruct (read_adu F dir trace (buffer st)) as [res b t|b]; [|done].
  intros [= <- <- <-]. destruct res as [adu|e|]; cbn in *; [done| |done].
  destruct Hc as [Hl Hs]. split; [|done].
  destruct (is_self_locating _); cbn; unfold pending_bytes in *; cbn; lia.
Qed.

Lemma ft_recv_response_drains {F : Framing} {N : NonEmptyAdu F} (t : FrameTransport F) m t' :
  ft_recv_response t = Finished (Ok m) t' → (ft_unread t' < ft_unread t)%nat.
Proof.
  unfold ft_recv_response, recv_response, ft_unread.
  destruct (recv_adu F _ _ _) as [r st tr|st] eqn:E; [|done]. cbn. intros [= Hr <-].
  destruct r as [adu|e|]; cbn in Hr; [|done..].
  apply recv_adu_consumes in E as [Hl _]. cbn in *.
  destruct adu; [by apply decode_response_nil in Hr|].
  unfold pending_bytes, stream in *. cbn in *. lia.
Qed.

#[export] Program Instance FrameTransport_draining F `{NonEmptyAdu F} :
    DrainingTransport F (FrameTransport F) := {| unread := ft_unread |}.
Next Obligation. intros F N t m t'. apply ft_recv_response_drains. Qed.
Next Obligation.
  intros F N h pdu t. cbn. unfold ft_send_request. by rewrite after_lift.
Qed.

#[export] Program Instance UdpTransport_draining F : DrainingTransport F (UdpTransport F) :=
  {| unread t := length (deliveries (ut_socket t)) |}.
Next Obligation.
  intros F [[dl ds sent] o i] m t'. cbn. unfold ut_recv_response. cbn.
  destruct dl as [|r dl]; [done|]. cbn. destruct (udp_recv _ _ _). intros [= _ <-]. cbn. lia.
Qed.
Next Obligation. intros F h pdu t. cbn. unfold ut_send_request. by rewrite after_lift. Qed.
