(* ===== verification/TcpConn.v ===== *)
(** * TCP sockets ([src/transport/tcp.rs])

    Connecting, binding and accepting.  The operating system and the clock are
    inputs: what a connection attempt yields, or that the timer elapses first,
    what [set_nodelay], [bind] and [accept] answer. *)

From S2P Require Import Prelude.
From S2P Require Import Errors.
From S2P Require Import Parse.
From S2P Require Import Value.
From S2P Require Import Wire.
From S2P Require Import Framing.
From S2P Require Import Tcp.
From S2P Require Import Serial.
From S2P Require Import Transport.
From S2P Require Import Outgoing.
From S2P Require Import Framed.

(** [std::io::Error], by what the crate keeps of it, and [From] into [Error]. *)
Record IoError := mkIoError { io_kind : ErrorKind; io_raw_os_error : option Z }.

Definition Error_from (e : IoError) : Error := Io (io_kind e) (io_raw_os_error e).

Definition io_result {A} (r : A + IoError) : Result A :=
  match r with inl a => Ok a | inr e => Err (Error_from e) end.

(** [TcpConfig] and its default; durations are in nanoseconds. *)
Record TcpConfig := mkTcpConfig { connect_timeout : Z; nodelay : bool }.

Definition TcpConfig_default : TcpConfig := mkTcpConfig (5 * 10 ^ 9) true.

(** A future raced with a timer: it completes after some time, or never. *)
Inductive Attempt (A : Type) :=
  | CompletesAfter (elapsed : Z) (a : A)
  | Never.
Arguments CompletesAfter {A} elapsed a.
Arguments Never {A}.

(** [tokio::time::timeout]; a future that completes by the deadline wins. *)
Definition timeout {A} (limit : Z) (attempt : Attempt A) : option A :=
  match attempt with
  | CompletesAfter elapsed a => if elapsed <=? limit then Some a else None
  | Never => None
  end.

(** [with_connect_timeout]. *)
Definition with_connect_timeout (limit : Z) (attempt : Attempt (Stream + IoError)) : Result Stream :=
  match timeout limit attempt with
  | Some result => io_result result
  | None => Err (Timeout "connect")
  end.

(** [connect_tcp_framed] and [connect_tcp]. *)
Definition connect_tcp_framed (F : Framing) (config : TcpConfig)
    (attempt : Attempt (Stream + IoError)) (set_nodelay : bool → unit + IoError)
    : Result (FrameTransport F) :=
  stream ← with_connect_timeout (connect_timeout config) attempt;
  _ ← io_result (set_nodelay (nodelay config));
  Ok (FrameTransport_new stream).

Definition connect_tcp {w : Winnow} := connect_tcp_framed Tcp_framing.

(** [TcpListener]: the bound socket, by the address it reports and the
    connections it will yield. *)
Record TcpListener := mkTcpListener {
  bound : SocketAddr + IoError;
  backlog : list ((Stream * SocketAddr) + IoError);
}.

(** [bind] and [local_addr]. *)
Definition TcpListener_bind (outcome : TcpListener + IoError) : Result TcpListener :=
  io_result outcome.

Definition local_addr (l : TcpListener) : Result SocketAddr := io_result (bound l).

(** [accept_tcp_only], [accept_framed] and [accept]; a call on an empty backlog
    waits. *)
Definition accept_tcp_only (l : TcpListener) : Poll TcpListener (Stream * SocketAddr) :=
  match backlog l with
  | [] => Unfinished l
  | r :: later => Finished (io_result r) (mkTcpListener (bound l) later)
  end.

Definition accept_framed (F : Framing) (l : TcpListener)
    : Poll TcpListener (FrameTransport F * SocketAddr) :=
  match accept_tcp_only l with
  | Unfinished l' => Unfinished l'
  | Finished r l' => Finished ('(stream, peer) ← r; Ok (FrameTransport_new stream, peer)) l'
  end.

Definition accept {w : Winnow} := accept_framed Tcp_framing.

(** ** Properties *)

(** A transport as connecting and accepting make it. *)
Definition pristine {F : Framing} (t : FrameTransport F) : Prop :=
  ft_buffer t = [] ∧ ft_outgoing t = [] ∧ ft_receiving t = false ∧
  ft_config t = TransportConfig_default.

(** A connect that runs out of time is a timeout and never an I/O error,
    and any other failure is the I/O error of the attempt or of the socket
    option; a connection made in time gives a transport with nothing buffered and
    no receive under way, over the stream connected (TR-R-021, TR-R-089). *)
Theorem connect_tcp_outcome F config attempt set_nodelay :
  match connect_tcp_framed F config attempt set_nodelay with
  | Ok t => ∃ elapsed, attempt = CompletesAfter elapsed (inl (ft_stream t)) ∧
      elapsed ≤ connect_timeout config ∧ set_nodelay (nodelay config) = inl tt ∧ pristine t
  | Err (Timeout what) => what = "connect"%string ∧
      ∀ elapsed r, attempt = CompletesAfter elapsed r → connect_timeout config < elapsed
  | Err (Io kind raw) => ∃ elapsed, elapsed ≤ connect_timeout config ∧
      (attempt = CompletesAfter elapsed (inr (mkIoError kind raw)) ∨
       ∃ stream, attempt = CompletesAfter elapsed (inl stream) ∧
         set_nodelay (nodelay config) = inr (mkIoError kind raw))
  | _ => False
  end.
Proof.
  unfold connect_tcp_framed, with_connect_timeout, timeout.
  destruct attempt as [elapsed r|]; [|by split].
  destruct (Z.leb_spec elapsed (connect_timeout config)).
  - destruct r as [stream|[kind raw]]; cbn; [|by exists elapsed; split; [|left]].
    destruct (set_nodelay (nodelay config)) as [[]|[kind raw]] eqn:E; cbn.
    + exists elapsed. split_and!; done.
    + exists elapsed. split; [done|right]. by exists stream.
  - cbn. split; [done|]. by intros e r' [= <- _].
Qed.
