(* ===== verification/SerialPort.v ===== *)
(** * Opening a serial port ([src/transport/rtu.rs])

    The backend that opens the device and the kernel call that sets the RS-485
    mode are parameters; the settings handed to the backend are values of its own
    types, one constructor each. *)

From S2P Require Import Prelude.
From S2P Require Import Errors.
From S2P Require Import Parse.
From S2P Require Import Value.
From S2P Require Import Framing.
From S2P Require Import Serial.
From S2P Require Import Transport.
From S2P Require Import Outgoing.
From S2P Require Import Framed.

(** The backend's settings. *)
Inductive TsDataBits := TsFive | TsSix | TsSeven | TsEight.
Inductive TsParity := TsNoParity | TsOdd | TsEven.
Inductive TsStopBits := TsOne | TsTwo.
Inductive TsFlowControl := TsNoFlow | TsSoftware | TsHardware.

(** [data_bits], [parity], [stop_bits] and [flow_control]. *)
Definition ts_data_bits (bits : DataBits) : TsDataBits :=
  match bits with Five => TsFive | Six => TsSix | Seven => TsSeven | Eight => TsEight end.
Definition ts_parity (p : Parity) : TsParity :=
  match p with ParityNone => TsNoParity | Odd => TsOdd | Even => TsEven end.
Definition ts_stop_bits (bits : StopBits) : TsStopBits :=
  match bits with One => TsOne | Two => TsTwo end.
Definition ts_flow_control (flow : FlowControl) : TsFlowControl :=
  match flow with FlowNone => TsNoFlow | Software => TsSoftware | Hardware => TsHardware end.

(** The builder [open_serial] fills in. *)
Record PortSettings := mkPortSettings {
  ps_path : string;
  ps_baud_rate : Z;
  ps_data_bits : TsDataBits;
  ps_parity : TsParity;
  ps_stop_bits : TsStopBits;
  ps_flow_control : TsFlowControl;
}.

(** [tokio_serial::ErrorKind] and [convert]. *)
Inductive BackendKind := NoDevice | BackendInvalidInput | BackendIo (kind : ErrorKind) | Unknown.

Definition convert_backend (kind : BackendKind) : Error :=
  Io (match kind with
      | NoDevice => NotFound
      | BackendInvalidInput => InvalidInput
      | BackendIo kind => kind
      | Unknown => OtherKind
      end) None.

(** What surrounds the crate: the backend, the platform and its [TIOCSRS485]. *)
Record SerialHost := mkSerialHost {
  open_native_async : PortSettings → Stream + BackendKind;
  is_linux : bool;
  errnos : IoctlErrno;
  tiocsrs485 : option (ErrorKind * option Z);
}.

(** [open_serial]. *)
Definition open_serial (F : Framing) (host : SerialHost) (path : string) (config : SerialConfig)
    : Result (FrameTransport F) :=
  transport ← from_serial config;
  port ← (match open_native_async host (mkPortSettings path (baud_rate config)
                  (ts_data_bits (data_bits config)) (ts_parity (parity config))
                  (ts_stop_bits (stop_bits config)) (ts_flow_control (flow_control config))) with
          | inl port => Ok port
          | inr kind => Err (convert_backend kind)
          end);
  _ ← (match rs485 config with
       | Some rs485_config => apply_rs485 (errnos host) (is_linux host) (tiocsrs485 host) rs485_config
       | None => Ok tt
       end);
  Ok (FrameTransport_with_config port transport).

(** The backend's settings say which line was asked for. *)
Definition line_of (s : PortSettings) (rs : option Rs485Config) : SerialConfig :=
  mkSerialConfig (ps_baud_rate s)
    (match ps_data_bits s with TsFive => Five | TsSix => Six | TsSeven => Seven | TsEight => Eight end)
    (match ps_parity s with TsNoParity => ParityNone | TsOdd => Odd | TsEven => Even end)
    (match ps_stop_bits s with TsOne => One | TsTwo => Two end)
    (match ps_flow_control s with TsNoFlow => FlowNone | TsSoftware => Software | TsHardware => Hardware end)
    rs.

(** Opening a serial port: a line that implies no character time is
    refused whatever the backend would do; otherwise the device is opened with
    exactly the settings configured, the transport returned keeps the silence of
    that line, and where direction control is configured it is in force, so that
    no transport is returned on which applying it failed (TR-R-030, TR-R-031,
    TR-R-053). *)
Theorem open_serial_outcome F host path config :
  (baud_rate config = 0 →
     open_serial F host path config = Err (Configuration "baud_rate")) ∧
  ∀ t : FrameTransport F, open_serial F host path config = Ok t →
    ∃ settings interval, open_native_async host settings = inl (ft_stream t) ∧
      ps_path settings = path ∧ line_of settings (rs485 config) = config ∧
      inter_frame_interval config = Ok interval ∧
      tc_inter_frame_interval (ft_config t) = interval ∧
      tc_ascii_inter_character_timeout (ft_config t) = 10 ^ 9 ∧
      ft_buffer t = [] ∧ ft_outgoing t = [] ∧ ft_receiving t = false ∧
      ∀ rs, rs485 config = Some rs →
        is_linux host = true ∧ tiocsrs485 host = None ∧ ∃ k, build rs = Ok k.
Proof.
  split.
  - intros Hb. unfold open_serial, from_serial, inter_frame_interval. by rewrite Hb.
  - intros t. unfold open_serial, from_serial.
    destruct (inter_frame_interval config) as [interval|e|] eqn:Ei; [|done..].
    rewrite !Result_bind_ok. cbn [mbind Result_bind].
    set (settings := mkPortSettings _ _ _ _ _ _).
    destruct (open_native_async host settings) as [port|kind] eqn:Eo; [|done].
    cbn [mbind Result_bind]. intros Ht.
    assert (∀ rs, rs485 config = Some rs →
      is_linux host = true ∧ tiocsrs485 host = None ∧ ∃ k, build rs = Ok k) as Hrs.
    { intros rs Hrs. rewrite Hrs in Ht. unfold apply_rs485 in Ht.
      destruct (is_linux host); [|done]. destruct (build rs) as [k|e|]; [|done..].
      unfold issue_ioctl in Ht. cbn [mbind Result_bind] in Ht.
      destruct (tiocsrs485 host) as [[kind [n|]]|]; [by destruct (_ || _)|done|]. by eauto. }
    destruct (match rs485 config with Some _ => _ | None => _ end) as [u|e|]; [|done..].
    injection Ht as <-. exists settings, interval. split_and!; try done.
    unfold line_of. cbn. destruct config as [b d p s f r]. cbn.
    by destruct d, p, s, f.
Qed.

(** ** Witness *)

(** A Linux host that opens every device, and one without the RS-485 mode. *)
Definition willing_host : SerialHost :=
  mkSerialHost (λ _, inl (mkStream (mkReadHalf []) (mkWriteHalf [] []))) true
    {| ENOTTY := 25; EINVAL := 22; ENOSYS := 38 |} None.

Lemma opens_and_refuses (F : Framing) :
  (∃ t : FrameTransport F, open_serial F willing_host "/dev/ttyUSB0"
     (mkSerialConfig 9600 Eight Even One FlowNone (Some (mkRs485Config High 0 0))) = Ok t) ∧
  open_serial F (mkSerialHost (open_native_async willing_host) true (errnos willing_host)
      (Some (OtherKind, Some 25))) "/dev/ttyUSB0"
    (mkSerialConfig 9600 Eight Even One FlowNone (Some (mkRs485Config High 0 0))) =
  Err Rs485Unsupported.
Proof. split; [by eexists|done]. Qed.
