(* ===== verification/Client.v ===== *)
(** * The client ([src/client/framing.rs], [src/client/mod.rs])

    A client over any transport.  What the transport does during one exchange
    is the [World] of that exchange: the outcome of the write, the results of
    the successive receives that complete before the response deadline (the
    deadline elapses when there are no more), and the requests written so far. *)

From S2P Require Import Prelude.
From S2P Require Import Errors.
From S2P Require Import Parse.
From S2P Require Import Value.
From S2P Require Import Function.
From S2P Require Import Exception.
From S2P Require Import Diagnostics.
From S2P Require Import Wire.
From S2P Require Import Mei.
From S2P Require Import FileRecord.
From S2P Require Import Pdu.
From S2P Require Import PduSpec.
From S2P Require Import PduRoundtrip.
From S2P Require Import Framing.
From S2P Require Import Rtu.
From S2P Require Import RtuStream.
From S2P Require Import Tcp.
From S2P Require Import Ascii.

(** The trait [ClientFraming]. *)
Class ClientFraming (F : Framing) := {
  request_header : UnitId → TransactionId → Header F;
  is_response_to : Header F → Header F → bool;
  is_broadcast : UnitId → bool;
}.

#[export] Instance Tcp_client {w : Winnow} : ClientFraming Tcp_framing := {|
  request_header unit transaction := mkMbapHeader transaction unit : Header Tcp_framing;
  is_response_to sent received := bool_decide (sent = received);
  is_broadcast _ := false;
|}.

(** [serial_framing!]: the header is the address, address 0 broadcasts. *)
#[export] Instance Rtu_client {w : Winnow} {c : Crc16} : ClientFraming Rtu_framing := {|
  request_header unit _ := unit : Header Rtu_framing;
  is_response_to sent received := bool_decide (sent = received);
  is_broadcast unit := bool_decide (unit = BROADCAST_UNIT);
|}.

#[export] Instance Ascii_client {w : Winnow} : ClientFraming Ascii_framing := {|
  request_header unit _ := unit : Header Ascii_framing;
  is_response_to sent received := bool_decide (sent = received);
  is_broadcast unit := bool_decide (unit = BROADCAST_UNIT);
|}.

#[export] Instance RtuOverTcp_client {w : Winnow} {c : Crc16} :
    ClientFraming RtuOverTcp_framing := {|
  request_header unit _ := unit : Header RtuOverTcp_framing;
  is_response_to sent received := bool_decide (sent = received);
  is_broadcast unit := bool_decide (unit = BROADCAST_UNIT);
|}.

(** [UnusableReason] and [ClientState]. *)
Inductive UnusableReason :=
  | PeerClosed
  | UnusableIo (kind : ErrorKind)
  | Silent
  | Undecodable.

Inductive ClientState :=
  | Untried
  | Answered
  | Unanswered
  | Unusable (reason : UnusableReason).

#[export] Instance UnusableReason_eq_dec : EqDecision UnusableReason.
Proof. solve_decision. Defined.
#[export] Instance ClientState_eq_dec : EqDecision ClientState.
Proof. solve_decision. Defined.

(** The fields of [Client] besides its transport and its configuration. *)
Record Client := mkClient {
  next_transaction : TransactionId;
  state : ClientState;
}.

(** [Client::with_config]. *)
Definition Client_new : Client := mkClient (mkTransactionId 1) Untried.

(** [is_desynchronized]. *)
Definition is_desynchronized (c : Client) : bool :=
  match state c with Unusable _ => true | _ => false end.

(** [next], on [u16::checked_add]. *)
Definition next (current : TransactionId) : TransactionId :=
  if transaction_id_0 current + 1 <=? U16_MAX
  then mkTransactionId (transaction_id_0 current + 1) else mkTransactionId 1.

(** [classify_unusable_reason]. *)
Definition classify_unusable_reason (error : Error) : UnusableReason :=
  match error with
  | ConnectionClosed => PeerClosed
  | Io kind _ => if bool_decide (kind = UnexpectedEof) then PeerClosed else UnusableIo kind
  | Timeout _ => Silent
  | _ => Undecodable
  end.

(** [truncate] and [mismatch]. *)
Definition truncate (bits : list bool) (quantity : Quantity) : list bool :=
  take (Z.to_nat (quantity_0 quantity)) bits.

Definition mismatch (expected : FunctionCode) (actual : ResponsePdu) : Error :=
  UnexpectedFunction expected (ResponsePdu_function actual).

(** [CommEventCounter] and [CommEventLog]. *)
Record CommEventCounter := mkCommEventCounter { cec_status : Z; cec_event_count : Z }.
Record CommEventLog := mkCommEventLog {
  cel_status : Z; cel_event_count : Z; cel_message_count : Z; cel_events : list Z;
}.

Section client.
Context (F : Framing) {CF : ClientFraming F}.

(** One exchange of the transport. *)
Record World := mkWorld {
  write_outcome : Result unit;
  inbox : list (Result (Header F * ResponsePdu));
  wire : list (Header F * RequestPdu);
}.

Definition set_state (s : ClientState) (c : Client) : Client := mkClient (next_transaction c) s.

(** The state an undecodable or failed receive leaves behind. *)
Definition state_after_error (error : Error) : ClientState :=
  if ends_stream error || negb (is_self_locating (boundary F))
  then Unusable (classify_unusable_reason error) else Unanswered.

(** The loop of [call]: what answers the request, and what is left unread. *)
Fixpoint await (header : Header F) (expected : FunctionCode) (c : Client)
    (inbox : list (Result (Header F * ResponsePdu)))
    : Result (option ResponsePdu) * Client * list (Result (Header F * ResponsePdu)) :=
  match inbox with
  | [] => (Err (Timeout "response"), set_state (Unusable Silent) c, [])
  | Err error :: inbox' => (Err error, set_state (state_after_error error) c, inbox')
  | Panic :: inbox' => (Panic, c, inbox')
  | Ok (header_in, response) :: inbox' =>
      if negb (is_response_to header header_in) then await header expected c inbox' else
      let c' := set_state Answered c in
      let actual := ResponsePdu_function response in
      if negb (bool_decide (actual = expected))
      then (Err (UnexpectedFunction expected actual), c', inbox')
      else (Ok (Some response), c', inbox')
  end.

(** [Client::call]. *)
Definition call (unit : UnitId) (request : RequestPdu) (c : Client) (wd : World)
    : Result (option ResponsePdu) * Client * World :=
  if is_desynchronized c then (Err Desynchronized, c, wd) else
  let expected := RequestPdu_function request in
  match RequestPdu_encode request with
  | Err e => (Err e, c, wd)
  | Panic => (Panic, c, wd)
  | Ok _ =>
      let transaction := next_transaction c in
      let header := request_header unit transaction in
      let wire' := wire wd ++ [(header, request)] in
      match write_outcome wd with
      | Err error =>
          (Err error, set_state (Unusable (classify_unusable_reason error)) c,
           mkWorld (write_outcome wd) (inbox wd) wire')
      | Panic => (Panic, c, mkWorld (write_outcome wd) (inbox wd) wire')
      | Ok _ =>
          let c' := mkClient (next transaction) (state c) in
          if is_broadcast unit
          then (Ok None, c', mkWorld (write_outcome wd) (inbox wd) wire')
          else
            let '(r, c'', inbox') := await header expected c' (inbox wd) in
            (r, c'', mkWorld (write_outcome wd) inbox' wire')
      end
  end.

(** A client method: its result, the client and the world after it. *)
Definition Cl (A : Type) : Type := Client → World → Result A * Client * World.

#[global] Instance Cl_ret : MRet Cl := λ A a c wd, (Ok a, c, wd).
#[global] Instance Cl_bind : MBind Cl := λ A B k m c wd,
  match m c wd with
  | (Ok a, c', wd') => k a c' wd'
  | (Err e, c', wd') => (Err e, c', wd')
  | (Panic, c', wd') => (Panic, c', wd')
  end.
Definition throw {A} (e : Error) : Cl A := λ c wd, (Err e, c, wd).

(** [Client::exchange]. *)
Definition exchange (unit : UnitId) (request : RequestPdu) : Cl ResponsePdu :=
  if is_broadcast unit then throw (IllegalValue "broadcast read" 0) else
  answer ← call unit request;
  match answer with
  | None => throw Desynchronized
  | Some (Resp_Exception exception) =>
      throw (ExceptionError (er_function exception) (er_exception exception))
  | Some response => mret response
  end.

(** [Client::write]. *)
Definition write (u : UnitId) (request : RequestPdu) : Cl unit :=
  if is_broadcast u then _ ← call u request; mret tt
  else _ ← exchange u request; mret tt.

(** The typed methods. *)
Definition read_coils (u : UnitId) (address : Address) (quantity : Quantity) : Cl (list bool) :=
  response ← exchange u (Req_ReadCoils address quantity);
  match response with
  | Resp_ReadCoils coils => mret (truncate coils quantity)
  | other => throw (mismatch FC_ReadCoils other)
  end.

Definition read_discrete_inputs (u : UnitId) (address : Address) (quantity : Quantity)
    : Cl (list bool) :=
  response ← exchange u (Req_ReadDiscreteInputs address quantity);
  match response with
  | Resp_ReadDiscreteInputs inputs => mret (truncate inputs quantity)
  | other => throw (mismatch FC_ReadDiscreteInputs other)
  end.

Definition read_holding_registers (u : UnitId) (address : Address) (quantity : Quantity)
    : Cl (list RegisterValue) :=
  response ← exchange u (Req_ReadHoldingRegisters address quantity);
  match response with
  | Resp_ReadHoldingRegisters registers => mret registers
  | other => throw (mismatch FC_ReadHoldingRegisters other)
  end.

Definition read_input_registers (u : UnitId) (address : Address) (quantity : Quantity)
    : Cl (list RegisterValue) :=
  response ← exchange u (Req_ReadInputRegisters address quantity);
  match response with
  | Resp_ReadInputRegisters registers => mret registers
  | other => throw (mismatch FC_ReadInputRegisters other)
  end.

Definition write_single_coil (u : UnitId) (address : Address) (value : bool) : Cl unit :=
  write u (Req_WriteSingleCoil address value).

Definition write_single_register (u : UnitId) (address : Address) (value : RegisterValue)
    : Cl unit :=
  write u (Req_WriteSingleRegister address value).

Definition write_multiple_coils (u : UnitId) (address : Address) (coils : list bool) : Cl unit :=
  write u (Req_WriteMultipleCoils address coils).

Definition write_multiple_registers (u : UnitId) (address : Address)
    (registers : list RegisterValue) : Cl unit :=
  write u (Req_WriteMultipleRegisters address registers).

Definition mask_write_register (u : UnitId) (address : Address) (and_mask or_mask : Mask)
    : Cl unit :=
  write u (Req_MaskWriteRegister address and_mask or_mask).

Definition read_write_multiple_registers (u : UnitId) (read_address : Address)
    (read_quantity : Quantity) (write_address : Address) (registers : list RegisterValue)
    : Cl (list RegisterValue) :=
  response ← exchange u
    (Req_ReadWriteMultipleRegisters read_address read_quantity write_address registers);
  match response with
  | Resp_ReadWriteMultipleRegisters registers => mret registers
  | other => throw (mismatch FC_ReadWriteMultipleRegisters other)
  end.

Definition read_exception_status (u : UnitId) : Cl ExceptionStatus :=
  response ← exchange u Req_ReadExceptionStatus;
  match response with
  | Resp_ReadExceptionStatus status => mret status
  | other => throw (mismatch FC_ReadExceptionStatus other)
  end.

Definition diagnostics (u : UnitId) (sub_function : DiagnosticSubFunction) (data : list Z)
    : Cl (list Z) :=
  response ← exchange u (Req_Diagnostics sub_function data);
  match response with
  | Resp_Diagnostics _ data => mret data
  | other => throw (mismatch FC_Diagnostics other)
  end.

Definition get_comm_event_counter (u : UnitId) : Cl CommEventCounter :=
  response ← exchange u Req_GetCommEventCounter;
  match response with
  | Resp_GetCommEventCounter status event_count => mret (mkCommEventCounter status event_count)
  | other => throw (mismatch FC_GetCommEventCounter other)
  end.

Definition get_comm_event_log (u : UnitId) : Cl CommEventLog :=
  response ← exchange u Req_GetCommEventLog;
  match response with
  | Resp_GetCommEventLog status event_count message_count events =>
      mret (mkCommEventLog status event_count message_count events)
  | other => throw (mismatch FC_GetCommEventLog other)
  end.

Definition report_server_id (u : UnitId) : Cl (list Z) :=
  response ← exchange u Req_ReportServerId;
  match response with
  | Resp_ReportServerId data => mret data
  | other => throw (mismatch FC_ReportServerId other)
  end.

Definition read_file_record (u : UnitId) (records : list FileRecordRead)
    : Cl (list FileRecordReadResponse) :=
  response ← exchange u (Req_ReadFileRecord records);
  match response with
  | Resp_ReadFileRecord records => mret records
  | other => throw (mismatch FC_ReadFileRecord other)
  end.

Definition write_file_record (u : UnitId) (records : list FileRecordWrite) : Cl unit :=
  write u (Req_WriteFileRecord records).

Definition read_fifo_queue (u : UnitId) (address : Address) : Cl (list RegisterValue) :=
  response ← exchange u (Req_ReadFifoQueue address);
  match response with
  | Resp_ReadFifoQueue values => mret values
  | other => throw (mismatch FC_ReadFifoQueue other)
  end.

Definition encapsulated_interface_transport (u : UnitId) (request : MeiRequest) : Cl MeiResponse :=
  response ← exchange u (Req_EncapsulatedInterfaceTransport request);
  match response with
  | Resp_EncapsulatedInterfaceTransport response => mret response
  | other => throw (mismatch FC_EncapsulatedInterfaceTransport other)
  end.
End client.
