(* ===== verification/ClientTheorems.v ===== *)
(** * Properties of the client *)

From S2P Require Import Prelude.
From S2P Require Import Errors.
From S2P Require Import Parse.
From S2P Require Import Value.
From S2P Require Import Function.
From S2P Require Import Exception.
From S2P Require Import Diagnostics.
From S2P Require Import Wire.
From S2P Require Import Mei.
From S2P Require Import FileRecord.
From S2P Require Import Pdu.
From S2P Require Import PduSpec.
From S2P Require Import PduRoundtrip.
From S2P Require Import Framing.
From S2P Require Import Rtu.
From S2P Require Import RtuStream.
From S2P Require Import Tcp.
From S2P Require Import Ascii.
From S2P Require Import Transport.
From S2P Require Import TransportSpec.
From S2P Require Import TransportTheorems.
From S2P Require Import Client.

(** ** The receive loop *)

Section await.
Context (F : Framing) {CF : ClientFraming F}.

(** A frame that answers some other request. *)
Definition skipped (header : Header F) (m : Result (Header F * ResponsePdu)) : Prop :=
  match m with Ok (h, _) => is_response_to header h = false | _ => False end.

Lemma await_skip header expected c pre inbox :
  Forall (skipped header) pre →
  await F header expected c (pre ++ inbox) = await F header expected c inbox.
Proof.
  induction 1 as [|m pre Hm Hpre IH]; [done|]. cbn [app await].
  destruct m as [[h r]|e|]; [|done..]. cbn in Hm. rewrite Hm. exact IH.
Qed.

(** Every inbox is frames to skip, then nothing, a failure or an answer. *)
Lemma inbox_cases header (inbox : list (Result (Header F * ResponsePdu))) :
  Forall (skipped header) inbox ∨
  ∃ pre m rest_, inbox = pre ++ m :: rest_ ∧ Forall (skipped header) pre ∧ ¬ skipped header m.
Proof.
  induction inbox as [|m inbox IH]; [by left; constructor|].
  assert (Decision (skipped header m)) as Hd.
  { destruct m as [[h r]|e|]; cbn; apply _. }
  destruct (decide (skipped header m)) as [Hs|Hs].
  - destruct IH as [IH|(pre & m' & rest_ & -> & Hpre & Hm)]; [left; by constructor|].
    right. exists (m :: pre), m', rest_. by split_and!; [|constructor|].
  - right. by exists [], m, inbox.
Qed.

(** The first frame that is not another's is determined. *)
Lemma first_unskipped header pre m r pre' m' r' :
  Forall (skipped header) pre → Forall (skipped header) pre' →
  ¬ skipped header m → ¬ skipped header m' → pre ++ m :: r = pre' ++ m' :: r' → m = m'.
Proof.
  intros Hp Hp' Hm Hm' H.
  apply app_eq_inv in H as [(k & -> & Hk)|(k & -> & Hk)]; destruct k as [|y k];
    injection Hk; intros; subst; try done; exfalso.
  - apply Forall_app in Hp as [_ Hp]. by apply Forall_cons in Hp as [? _].
  - apply Forall_app in Hp' as [_ Hp']. by apply Forall_cons in Hp' as [? _].
Qed.

Lemma not_all_skipped header pre m r :
  ¬ skipped header m → ¬ Forall (skipped header) (pre ++ m :: r).
Proof. intros Hm Hs. apply Forall_app in Hs as [_ Hs]. by apply Forall_cons in Hs as [? _]. Qed.

Lemma await_ok_inv header expected c inbox resp c' rest_ :
  await F header expected c inbox = (Ok (Some resp), c', rest_) →
  ∃ pre h, inbox = pre ++ Ok (h, resp) :: rest_ ∧ Forall (skipped header) pre ∧
    is_response_to header h = true ∧ ResponsePdu_function resp = expected ∧
    c' = set_state Answered c.
Proof.
  intros H. destruct (inbox_cases header inbox) as [Hs|(pre & m & r & -> & Hpre & Hm)].
  - rewrite <- (app_nil_r inbox), await_skip in H by done. discriminate H.
  - rewrite await_skip in H by done. cbn [await] in H.
    destruct m as [[h x]|e|]; [|done..]. cbn in Hm. apply not_false_is_true in Hm as Hm'.
    rewrite Hm' in H. cbn [negb] in H. case_bool_decide as Hf; [|done].
    cbn [negb] in H. injection H as <- <- <-. by exists pre, h.
Qed.

Lemma await_answer header expected c pre h resp rest_ :
  Forall (skipped header) pre → is_response_to header h = true →
  ResponsePdu_function resp = expected →
  await F header expected c (pre ++ Ok (h, resp) :: rest_) =
  (Ok (Some resp), set_state Answered c, rest_).
Proof.
  intros Hpre Hh Hf. rewrite await_skip by done. cbn [await]. rewrite Hh. cbn [negb].
  by rewrite bool_decide_true.
Qed.
End await.

Section answered.
Context (F : Framing) {CF : ClientFraming F}.

Lemma call_answered unit request resp c wd pdu pre h rest_ :
  is_desynchronized c = false → is_broadcast unit = false → write_outcome F wd = Ok tt →
  RequestPdu_encode request = Ok pdu →
  inbox F wd = pre ++ Ok (h, resp) :: rest_ →
  Forall (skipped F (request_header unit (next_transaction c))) pre →
  is_response_to (request_header unit (next_transaction c)) h = true →
  ResponsePdu_function resp = RequestPdu_function request →
  call F unit request c wd =
  (Ok (Some resp), mkClient (next (next_transaction c)) Answered,
   mkWorld F (Ok tt) rest_ (wire F wd ++ [(request_header unit (next_transaction c), request)])).
Proof.
  intros Hd Hb Hw He Hi Hpre Hh Hf. unfold call. rewrite Hd, He, Hw, Hb, Hi.
  by rewrite await_answer.
Qed.
End answered.

(** ** Claims *)

Section claims.
Context (F : Framing) {CF : ClientFraming F}.

(** C13. [call] returns a response exactly when it should: the client is usable,
    the request encodes and is written, its unit is not a broadcast, and among
    the frames received before the deadline the first whose header answers the
    request carries that response with the request's function code (CL-R-020 to
    CL-R-022).  Frames that answer something else are discarded (CL-R-021), the
    transaction identifier advances, and one request is on the wire. *)
Theorem call_answered_iff unit request resp c wd c' wd' :
  call F unit request c wd = (Ok (Some resp), c', wd') ↔
  is_desynchronized c = false ∧ is_broadcast unit = false ∧ write_outcome F wd = Ok tt ∧
  (∃ pdu, RequestPdu_encode request = Ok pdu) ∧
  let header := request_header unit (next_transaction c) in
  ∃ pre h rest_, inbox F wd = pre ++ Ok (h, resp) :: rest_ ∧ Forall (skipped F header) pre ∧
    is_response_to header h = true ∧
    ResponsePdu_function resp = RequestPdu_function request ∧
    c' = mkClient (next (next_transaction c)) Answered ∧
    wd' = mkWorld F (Ok tt) rest_ (wire F wd ++ [(header, request)]).
Proof.
  split.
  - intros H. unfold call in H. destruct (is_desynchronized c); [done|].
    destruct (RequestPdu_encode request) as [pdu|e|]; [|done..].
    destruct (write_outcome F wd) as [[]|e|] eqn:Hw; [|done..].
    destruct (is_broadcast unit); [done|].
    destruct (await _ _ _ _ _) as [[r c2] rest_] eqn:Ha. injection H as -> <- <-.
    apply await_ok_inv in Ha as (pre & h & Hi & Hpre & Hh & Hf & ->).
    split_and!; try done; [by eexists|]. exists pre, h, rest_. by rewrite <- Hw.
  - intros (Hd & Hb & Hw & [pdu He] & pre & h & rest_ & Hi & Hpre & Hh & Hf & -> & ->).
    by eapply call_answered.
Qed.

(** When an awaited call makes a usable client unusable: exactly when the
    write fails, when nothing answers before the deadline, or when the first
    frame that is not another's fails to be received and either the stream ended
    or the framing cannot find the next frame (CL-R-013, CL-R-031, CL-R-098). *)
Theorem call_unusable_iff unit request c wd pdu :
  is_desynchronized c = false → is_broadcast unit = false →
  RequestPdu_encode request = Ok pdu → write_outcome F wd ≠ Panic → Panic ∉ inbox F wd →
  let '(_, c', _) := call F unit request c wd in
  let header := request_header unit (next_transaction c) in
  is_desynchronized c' = true ↔
  (∃ e, write_outcome F wd = Err e) ∨
  (write_outcome F wd = Ok tt ∧
   (Forall (skipped F header) (inbox F wd) ∨
    ∃ pre e rest_, inbox F wd = pre ++ Err e :: rest_ ∧ Forall (skipped F header) pre ∧
      (ends_stream e = true ∨ is_self_locating (boundary F) = false))).
Proof.
  intros Hd Hb He Hw Hp. unfold call. rewrite Hd, He.
  destruct (write_outcome F wd) as [[]|e|]; [|split; eauto|done]. rewrite Hb.
  set (header := request_header unit (next_transaction c)).
  destruct (inbox_cases F header (inbox F wd)) as [Hs|(pre & m & r & Hi & Hpre & Hm)].
  - rewrite <- (app_nil_r (inbox F wd)), await_skip by done. cbn [await].
    rewrite app_nil_r. split; [|done]. intros _. right. by split; [|left].
  - rewrite Hi, await_skip by done. cbn [await]. destruct m as [[h x]|e|].
    + cbn in Hm. apply not_false_is_true in Hm as Hm'. rewrite Hm'. cbn [negb].
      case_bool_decide; cbn [negb]; (split; [done|]);
      intros [[e [=]]|[_ [Hs|(pre' & e & rest_ & Hi' & Hpre' & _)]]]; exfalso;
        (by apply (not_all_skipped F header pre (Ok (h, x)) r)) ||
        by eapply (first_unskipped F header) in Hi'; [|done|done|done|intros []].
    + cbn [is_desynchronized set_state state]. unfold state_after_error. split.
      * intros H. right. split; [done|]. right. exists pre, e, r. split_and!; try done.
        destruct (ends_stream e); [by left|]. right.
        by destruct (is_self_locating (boundary F)).
      * intros [[e' [=]]|[_ [Hs|(pre' & e' & rest_ & Hi' & Hpre' & Ho)]]].
        -- exfalso. by apply (not_all_skipped F header pre (Err e) r).
        -- eapply (first_unskipped F header) in Hi' as [= ->]; [|done|done|done|intros []].
           destruct Ho as [->| ->]; [done|]. by rewrite orb_true_r.
    + exfalso. apply Hp. rewrite Hi. apply elem_of_app. right. apply list_elem_of_here.
Qed.

(** An exception is never a success: when the first frame that answers a
    request is the exception for its function, [exchange], through which every
    typed read and every unicast write goes, fails with that exception, and the
    client stays usable (CL-R-040). *)
Theorem exception_is_an_error unit request c wd pdu e pre h rest_ :
  is_desynchronized c = false → is_broadcast unit = false →
  RequestPdu_encode request = Ok pdu → write_outcome F wd = Ok tt →
  let header := request_header unit (next_transaction c) in
  inbox F wd = pre ++ Ok (h, Resp_Exception e) :: rest_ → Forall (skipped F header) pre →
  is_response_to header h = true → er_function e = RequestPdu_function request →
  ∃ c' wd', exchange F unit request c wd =
    (Err (ExceptionError (er_function e) (er_exception e)), c', wd') ∧
    is_desynchronized c' = false ∧ inbox F wd' = rest_.
Proof.
  intros Hd Hb He Hw header Hi Hpre Hh Hf. unfold exchange. rewrite Hb. unfold mbind, Cl_bind.
  rewrite (call_answered F unit request (Resp_Exception e) c wd pdu pre h rest_) by done.
  by eexists _, _.
Qed.
End claims.

(** ** Transaction identifiers *)

Definition nth_transaction (n : nat) : TransactionId := Nat.iter n next (mkTransactionId 1).

Lemma nth_transaction_value n : nth_transaction n = mkTransactionId (1 + Z.of_nat n mod 65535).
Proof.
  induction n as [|n IH]; [done|]. change (nth_transaction (S n)) with (next (nth_transaction n)).
  rewrite IH. unfold next. cbn [transaction_id_0]. unfold U16_MAX.
  pose proof (Z.mod_pos_bound (Z.of_nat n) 65535 ltac:(lia)) as Hb.
  pose proof (Z.div_mod (Z.of_nat n) 65535 ltac:(lia)) as Hd.
  case_match eqn:E; f_equal.
  - apply Z.leb_le in E. rewrite <- (Z.mod_unique (Z.of_nat (S n)) 65535 (Z.of_nat n / 65535)
      (Z.of_nat n mod 65535 + 1)); lia.
  - apply Z.leb_gt in E. rewrite <- (Z.mod_unique (Z.of_nat (S n)) 65535 (Z.of_nat n / 65535 + 1) 0);
      lia.
Qed.

(** The identifiers a client spends are 1, 2, ..., 65535 and over again:
    each fits sixteen bits, none is zero, and two requests share one only when a
    multiple of 65535 requests separates them (CL-R-011). *)
Theorem transaction_ids_cycle n m :
  wf (nth_transaction n) ∧ nth_transaction n ≠ mkTransactionId 0 ∧
  (nth_transaction n = nth_transaction m ↔ Z.of_nat n mod 65535 = Z.of_nat m mod 65535).
Proof.
  rewrite !nth_transaction_value.
  pose proof (Z.mod_pos_bound (Z.of_nat n) 65535 ltac:(lia)).
  split_and!; [unfold wf, Wf_TransactionId, is_u16; cbn; lia|intros [=]; lia|].
  split; [intros [=]; lia|congruence].
Qed.

(** ** From the bytes of the connection to the caller *)

Section end_to_end.
Context {w : Winnow} {ws : WinnowSpec w}.

(** What a peer that read [cs] sends decodes to [cs] with the padding of the
    last byte, which the request's quantity removes. *)
Lemma read_coils_padding cs :
  let padded := bits_from_bytes (bits_bytes cs) in
  response_bytes (Resp_ReadCoils padded) = response_bytes (Resp_ReadCoils cs) ∧
  response_canonical (Resp_ReadCoils padded) = true ∧
  truncate padded (mkQuantity (len cs)) = cs.
Proof.
  cbn zeta. set (padded := bits_from_bytes _).
  assert (bits_bytes padded = bits_bytes cs) as Hb
    by (apply bits_bytes_from_bytes, bits_bytes_ok).
  split_and!.
  - cbn [response_bytes]. by rewrite <- !len_bits_bytes, Hb.
  - cbn [response_canonical]. unfold padded. rewrite len_bits_from_bytes.
    rewrite Z.mul_comm, Z.mod_mul by lia. done.
  - unfold truncate, padded. rewrite bits_from_bits_bytes. cbn [quantity_0].
    unfold len at 1. rewrite Nat2Z.id. apply take_app_length.
Qed.

(** The frames a connection delivers, as the receives of an exchange see them. *)
Lemma tcp_responses_received ms adus trace rest_ :
  Forall2 (encodable_response Tcp_framing) ms adus → Forall (delivers true) trace →
  stream trace = mjoin adus ++ rest_ →
  ∃ st' trace', recv_responses Tcp_framing (length ms) fresh trace = Some (ms, st', trace') ∧
    buffer st' ++ stream trace' = rest_.
Proof.
  intros Hm Ht Hs. apply (recv_responses_exact Tcp_framing ms adus fresh); try done.
  eapply Forall2_impl; [exact Hm|]. intros [h r] adu (Hh & Hr & Hc & He). cbn [fst snd] in *.
  split_and!; try done.
  apply encode_response_inv in He as (pdu & -> & _ & Hp); [|done..]. by apply Tcp_locates.
Qed.

(** Reading coils over TCP, from the bytes of the connection to the value
    the caller gets: whatever the sizes of the reads, and after any number of
    late answers to other transactions, a peer that answers with the coils it
    read gives the caller exactly those coils, as many as were asked for
    although the wire carries whole bytes (CL-R-041, CL-R-021). *)
Theorem read_coils_end_to_end c u address cs late late_adus adu trace rest_ sent :
  let header := mkMbapHeader (next_transaction c) u in
  let quantity := mkQuantity (len cs) in
  is_desynchronized c = false → wf (next_transaction c) → wf u → wf address →
  1 ≤ len cs ≤ 2000 →
  Forall2 (encodable_response Tcp_framing) late late_adus →
  Forall (λ m, fst m ≠ header) late →
  encode_response Tcp_framing header (Resp_ReadCoils cs) = Ok adu →
  Forall (delivers true) trace → stream trace = mjoin late_adus ++ adu ++ rest_ →
  ∃ ms st' trace',
    recv_responses Tcp_framing (length late + 1) fresh trace = Some (ms, st', trace') ∧
    buffer st' ++ stream trace' = rest_ ∧
    read_coils Tcp_framing u address quantity c (mkWorld Tcp_framing (Ok tt) (Ok <$> ms) sent) =
    (Ok cs, mkClient (next (next_transaction c)) Answered,
     mkWorld Tcp_framing (Ok tt) [] (sent ++ [(header, Req_ReadCoils address quantity)])).
Proof.
  intros header quantity Hd Hwt Hwu Hwa Hq Hlate Hskip He Ht Hs.
  destruct (read_coils_padding cs) as (Hb & Hc & Htr).
  set (padded := bits_from_bytes _) in *. set (answer := (header, Resp_ReadCoils padded)).
  assert (wf (header : Header Tcp_framing)) as Hwh by (split; done).
  destruct (tcp_responses_received (late ++ [answer]) (late_adus ++ [adu]) trace rest_)
    as (st' & t' & Hr & Hbuf); [|done| |].
  { apply Forall2_app; [done|]. constructor; [|constructor].
    split_and!; [done|exact I|exact Hc|]. cbn [fst snd answer].
    rewrite (encode_response_frame (F := Tcp_framing)), Hb by done.
    by rewrite <- (encode_response_frame (F := Tcp_framing)). }
  { rewrite join_app. cbn. by rewrite app_nil_r, <- app_assoc. }
  rewrite length_app in Hr. exists (late ++ [answer]), st', t'. split_and!; [done..|].
  assert (∃ pdu, RequestPdu_encode (Req_ReadCoils address quantity) = Ok pdu) as [pdu Hpdu].
  { rewrite RequestPdu_encode_bytes. cbn [request_bytes]. unfold read_layout.
    rewrite check_range_ok by done. by eexists. }
  unfold read_coils, exchange, mbind, Cl_bind. cbn [is_broadcast Tcp_client].
  rewrite (call_answered Tcp_framing u (Req_ReadCoils address quantity) (Resp_ReadCoils padded)
    c _ pdu (Ok <$> late) header []); try done.
  - unfold mret, Cl_ret, quantity. by rewrite Htr.
  - cbn [inbox]. by rewrite fmap_app.
  - apply Forall_fmap. eapply Forall_impl; [exact Hskip|]. intros [h r] Hne. cbn in *.
    by apply bool_decide_false.
  - cbn. by apply bool_decide_true.
Qed.
End end_to_end.

(** ** Witnesses *)

Section witnesses.
Local Existing Instance winnow_model.
Local Existing Instance winnow_model_spec.

Definition empty_world : World Tcp_framing := mkWorld Tcp_framing (Ok tt) [] [].

(** A peer that never answers. *)
Lemma call_unusable_iff_witness :
  let '(_, c', _) := call Tcp_framing (mkUnitId 1) Req_ReportServerId Client_new empty_world in
  is_desynchronized c' = true.
Proof.
  refine (proj2 (call_unusable_iff Tcp_framing (mkUnitId 1) Req_ReportServerId Client_new
    empty_world [17] eq_refl eq_refl _ _ _) _).
  - vm_compute. reflexivity.
  - done.
  - apply not_elem_of_nil.
  - right. split; [done|]. left. constructor.
Defined.

Definition busy : ExceptionResponse := mkExceptionResponse FC_ReportServerId EC_ServerDeviceBusy.
Definition busy_world : World Tcp_framing :=
  mkWorld Tcp_framing (Ok tt)
    [Ok (mkMbapHeader (mkTransactionId 9) (mkUnitId 1), Resp_ReportServerId []);
     Ok (mkMbapHeader (mkTransactionId 1) (mkUnitId 1), Resp_Exception busy)] [].

Lemma exception_is_an_error_witness :
  ∃ c' wd', exchange Tcp_framing (mkUnitId 1) Req_ReportServerId Client_new busy_world =
    (Err (ExceptionError FC_ReportServerId EC_ServerDeviceBusy), c', wd') ∧
    is_desynchronized c' = false ∧ inbox Tcp_framing wd' = [].
Proof.
  apply (exception_is_an_error Tcp_framing (mkUnitId 1) Req_ReportServerId Client_new busy_world
    [17] busy [Ok (mkMbapHeader (mkTransactionId 9) (mkUnitId 1), Resp_ReportServerId [])]
    (mkMbapHeader (mkTransactionId 1) (mkUnitId 1) : Header Tcp_framing) []);
    try (vm_compute; reflexivity).
  repeat constructor.
Defined.

(** Three coils in two reads, after a late answer to transaction 9. *)
Lemma read_coils_end_to_end_witness :
  ∃ ms st' trace',
    recv_responses Tcp_framing 2 fresh
      [Ready (Bytes [0; 9; 0; 0; 0; 3; 1; 17; 0; 0; 1; 0]); Quiet;
       Ready (Bytes [0; 0; 4; 1; 1; 1; 5])] = Some (ms, st', trace') ∧
    buffer st' ++ stream trace' = [] ∧
    read_coils Tcp_framing (mkUnitId 1) (mkAddress 0) (mkQuantity 3) Client_new
      (mkWorld Tcp_framing (Ok tt) (Ok <$> ms) []) =
    (Ok [true; false; true], mkClient (mkTransactionId 2) Answered,
     mkWorld Tcp_framing (Ok tt) []
       [(mkMbapHeader (mkTransactionId 1) (mkUnitId 1),
         Req_ReadCoils (mkAddress 0) (mkQuantity 3))]).
Proof.
  apply (read_coils_end_to_end Client_new (mkUnitId 1) (mkAddress 0) [true; false; true]
    [(mkMbapHeader (mkTransactionId 9) (mkUnitId 1), Resp_ReportServerId [])]
    [[0; 9; 0; 0; 0; 3; 1; 17; 0]] [0; 1; 0; 0; 0; 4; 1; 1; 1; 5] _ [] []).
  all: unfold encodable_response; by_eval.
Defined.
End witnesses.
