(* ===== verification/ClientOver.v ===== *)
(** * The client over a transport ([src/client/mod.rs])

    [Client.call] as it runs over any [ClientTransport]: the request is written
    to the transport and responses are received from it until one answers.  The
    loop is bounded by fuel; the transport runs dry before it does.  The transport
    has what it delivers before the response deadline, so a receive that does not
    finish is one the deadline cuts off; [Deadline.v] runs the same loop on a clock
    with the deadline as an instant. *)

From S2P Require Import Prelude.
From S2P Require Import Errors.
From S2P Require Import Parse.
From S2P Require Import Value.
From S2P Require Import Function.
From S2P Require Import Wire.
From S2P Require Import Pdu.
From S2P Require Import PduSpec.
From S2P Require Import PduRoundtrip.
From S2P Require Import Framing.
From S2P Require Import Rtu.
From S2P Require Import RtuStream.
From S2P Require Import Tcp.
From S2P Require Import Ascii.
From S2P Require Import Serial.
From S2P Require Import Transport.
From S2P Require Import TransportSpec.
From S2P Require Import TransportSafety.
From S2P Require Import TransportTheorems.
From S2P Require Import Outgoing.
From S2P Require Import Framed.
From S2P Require Import FramedTheorems.
From S2P Require Import Client.

(** [ClientConfig] and its default, in nanoseconds. *)
Record ClientConfig := mkClientConfig { response_timeout : Z }.

Definition ClientConfig_default : ClientConfig := mkClientConfig (10 ^ 9).

(** [Client], with its transport. *)
Record ClientOver (T : Type) := mkClientOver {
  co_transport : T;
  co_config : ClientConfig;
  co_client : Client;
}.
Arguments mkClientOver {T}.
Arguments co_transport {T}.
Arguments co_config {T}.
Arguments co_client {T}.

Section over.
Context {F : Framing} {CF : ClientFraming F} {T : Type} {CT : ClientTransport F T}.

(** [Client::with_config], [new] and [into_inner]. *)
Definition Client_with_config (transport : T) (config : ClientConfig) : ClientOver T :=
  mkClientOver transport config Client_new.

Definition Client_over (transport : T) : ClientOver T :=
  Client_with_config transport ClientConfig_default.

Definition Client_into_inner (cl : ClientOver T) : T := co_transport cl.

(** The loop of [call]. *)
Fixpoint await_over (fuel : nat) (header : Header F) (expected : FunctionCode) (c : Client) (t : T)
    : option (Result (option ResponsePdu) * Client * T) :=
  match fuel with
  | O => None
  | S fuel =>
      match ct_recv_response t with
      | Unfinished t' => Some (Err (Timeout "response"), set_state (Unusable Silent) c, t')
      | Finished (Err error) t' => Some (Err error, set_state (state_after_error F error) c, t')
      | Finished Panic t' => Some (Panic, c, t')
      | Finished (Ok (header_in, response)) t' =>
          if negb (is_response_to header header_in) then await_over fuel header expected c t' else
          let c' := set_state Answered c in
          let actual := ResponsePdu_function response in
          if negb (bool_decide (actual = expected))
          then Some (Err (UnexpectedFunction expected actual), c', t')
          else Some (Ok (Some response), c', t')
      end
  end.

(** [Client::call]; the write has no deadline, so it may never finish. *)
Definition call_over (fuel : nat) (unit : UnitId) (request : RequestPdu) (cl : ClientOver T)
    : option (Poll (ClientOver T) (option ResponsePdu)) :=
  let '(mkClientOver t config c) := cl in
  if is_desynchronized c then Some (Finished (Err Desynchronized) cl) else
  let expected := RequestPdu_function request in
  match RequestPdu_encode request with
  | Err e => Some (Finished (Err e) cl)
  | Panic => Some (Finished Panic cl)
  | Ok _ =>
      let transaction := next_transaction c in
      let header := request_header unit transaction in
      match ct_send_request header request t with
      | Unfinished t' => Some (Unfinished (mkClientOver t' config c))
      | Finished (Err error) t' =>
          Some (Finished (Err error)
            (mkClientOver t' config (set_state (Unusable (classify_unusable_reason error)) c)))
      | Finished Panic t' => Some (Finished Panic (mkClientOver t' config c))
      | Finished (Ok _) t' =>
          let c' := mkClient (next transaction) (state c) in
          if is_broadcast unit then Some (Finished (Ok None) (mkClientOver t' config c'))
          else
            '(r, c'', t'') ← await_over fuel header expected c' t';
            Some (Finished r (mkClientOver t'' config c''))
      end
  end.

(** ** The exchange the client of [Client.v] sees *)

(** The receives that finish, in order. *)
Fixpoint inbox_of (fuel : nat) (t : T) : list (Result (Header F * ResponsePdu)) :=
  match fuel with
  | O => []
  | S fuel =>
      match ct_recv_response t with
      | Finished r t' => r :: inbox_of fuel t'
      | Unfinished _ => []
      end
  end.

(** The world of one call over a transport. *)
Definition world_of (fuel : nat) (unit : UnitId) (request : RequestPdu) (c : Client) (t : T)
    : World F :=
  let p := ct_send_request (request_header unit (next_transaction c)) request t in
  mkWorld F (default (Ok tt) (reply p)) (inbox_of fuel (after p)) [].

Context {DT : DrainingTransport F T}.

Lemma await_over_refines header expected fuel c t :
  (unread t < fuel)%nat →
  ∃ r c' t' left_,
    await F header expected c (inbox_of fuel t) = (r, c', left_) ∧
    ∀ fuel', (unread t < fuel')%nat → await_over fuel' header expected c t = Some (r, c', t').
Proof.
  revert t. induction fuel as [|fuel IH]; intros t Hf; [lia|]. cbn [inbox_of].
  destruct (ct_recv_response t) as [[[hin resp]|e|] t'|t'] eqn:E; cbn [await].
  2-4: eexists _, _, t', _; (split; [done|]);
    intros [|fuel'] Hf'; [lia|]; cbn; by rewrite E.
  destruct (is_response_to header hin) eqn:Hr; cbn [negb].
  - destruct (bool_decide _) eqn:Hb; cbn [negb]; eexists _, _, t', _; (split; [done|]);
      (intros [|fuel'] Hf'; [lia|]); cbn [await_over]; by rewrite E, Hr, Hb.
  - pose proof (recv_drains _ _ _ E) as Hd.
    destruct (IH t' ltac:(lia)) as (r & c' & t'' & left_ & H1 & H2).
    exists r, c', t'', left_. split; [done|]. intros [|fuel'] Hf'; [lia|]. cbn [await_over].
    rewrite E, Hr. apply H2. lia.
Qed.
End over.

(** A call over a transport ends, with what the transport delivers before the
    deadline: once the request is written, fuel for one receive more than that is
    enough, and any more changes nothing; and the call does to the client what
    [Client::call] does in the world its write and its receives make up
    (CL-R-021).  The only call that does not end is one whose write does not.  The
    deadline itself is an instant of a clock in [Deadline.v]. *)
Lemma call_over_terminates {F : Framing} {CF : ClientFraming F} {T : Type}
    {CT : ClientTransport F T} {DT : DrainingTransport F T} u request (cl : ClientOver T) :
  ∃ p, (∀ fuel, (unread (co_transport cl) < fuel)%nat → call_over fuel u request cl = Some p) ∧
  match p with
  | Finished r cl' =>
      ∃ wd', call F u request (co_client cl)
        (world_of (S (unread (co_transport cl))) u request (co_client cl) (co_transport cl))
        = (r, co_client cl', wd')
  | Unfinished cl' =>
      ct_send_request (request_header u (next_transaction (co_client cl))) request
        (co_transport cl) = Unfinished (co_transport cl')
  end.
Proof.
  destruct cl as [t cfg c]. cbn [co_transport co_client]. unfold call_over, call, world_of.
  destruct (is_desynchronized c); [eexists; split; [done|]; by eexists|].
  destruct (RequestPdu_encode request) as [bs|e|]; [|eexists; (split; [done|]); by eexists..].
  pose proof (send_keeps (request_header u (next_transaction c)) request t) as Hk.
  destruct (ct_send_request _ _ t) as [[[]|e|] t'|t'] eqn:E; cbn [reply after default] in *;
    [|eexists; (split; [done|]); by eexists..|by eexists].
  cbn [write_outcome inbox wire].
  destruct (is_broadcast u); [eexists; (split; [done|]); by eexists|].
  destruct (await_over_refines (request_header u (next_transaction c))
    (RequestPdu_function request) (S (unread t)) (mkClient (next (next_transaction c)) (state c)) t'
    ltac:(lia)) as (r & c' & t'' & left_ & H1 & H2).
  eexists. split.
  - intros fuel Hf. rewrite H2 by lia. done.
  - eexists. by rewrite H1.
Qed.

(** ** Calls over bytes *)

Section over_bytes.
Context {w : Winnow} {ws : WinnowSpec w} {F : Framing} {L : LawfulFraming F} {CF : ClientFraming F}.

(** What is still to be read of a transport. *)
Definition ft_pending (t : FrameTransport F) : list Z :=
  ft_buffer t ++ stream (arrivals (read_half (ft_stream t))).

(** A transport in order: no receive abandoned, a stream that delivers. *)
Definition ft_delivers (t : FrameTransport F) : Prop :=
  ft_receiving t = false ∧
  Forall (delivers (waits (boundary F))) (arrivals (read_half (ft_stream t))).

Lemma ft_recv_response_exact m adu t rest_ :
  response_framed F m adu → ft_delivers t → ft_pending t = adu ++ rest_ →
  ∃ t', ft_recv_response t = Finished (Ok m) t' ∧ ft_delivers t' ∧ ft_pending t' = rest_ ∧
    write_half (ft_stream t') = write_half (ft_stream t).
Proof.
  intros Hm [Hr Hd] Hp. unfold ft_recv_response.
  destruct (recv_response_exact F m adu (mkRecvState (ft_buffer t) (ft_receiving t))
    (arrivals (read_half (ft_stream t))) [] rest_) as (st & tr & -> & H1 & H2 & H3);
    [done..|apply skips_nil|done|]. cbn. eexists. by split_and!.
Qed.

Lemma await_over_stale header expected c hdr resp adu stale adus t rest_ fuel :
  Forall2 (response_framed F) stale adus →
  Forall (λ m, is_response_to header (fst m) = false) stale →
  response_framed F (hdr, resp) adu → is_response_to header hdr = true →
  ResponsePdu_function resp = expected →
  ft_delivers t → ft_pending t = mjoin adus ++ adu ++ rest_ → (length stale < fuel)%nat →
  ∃ t', await_over fuel header expected c t = Some (Ok (Some resp), set_state Answered c, t') ∧
    ft_delivers t' ∧ ft_pending t' = rest_ ∧ write_half (ft_stream t') = write_half (ft_stream t).
Proof.
  intros Hs. revert t fuel. induction Hs as [|m a stale adus Hm Hs IH];
    intros t [|fuel] Hst Ha Hh Hf Hd Hp Hl; try lia; cbn [await_over]; cbn in Hl.
  - destruct (ft_recv_response_exact (hdr, resp) adu t rest_) as (t' & E & H1 & H2 & H3); [done..|].
    cbn [ct_recv_response FrameTransport_ClientTransport]. rewrite E, Hh. cbn [negb].
    rewrite bool_decide_true by done. by exists t'.
  - apply Forall_cons in Hst as [Hst Hsts].
    change (mjoin (a :: adus)) with (a ++ mjoin adus) in Hp. rewrite <- app_assoc in Hp.
    destruct (ft_recv_response_exact m a t (mjoin adus ++ adu ++ rest_))
      as (t' & E & H1 & H2 & H3); [done..|].
    cbn [ct_recv_response FrameTransport_ClientTransport]. rewrite E. destruct m as [hm rm].
    cbn [fst] in Hst. rewrite Hst. cbn [negb].
    destruct (IH t' fuel) as (t'' & E' & H1' & H2' & H3'); try done; [lia|].
    exists t''. by rewrite H3' by done.
Qed.

(** A send that the stream lets through. *)
Lemma ft_send_request_all h r adu fl_later wire t :
  wf h → wf r → encode_request F h r = Ok adu →
  write_half (ft_stream t) = mkWriteHalf ((WroteAll, Flushed) :: fl_later) wire →
  ∃ t', ft_send_request h r t = Finished (Ok tt) t' ∧
    ft_pending t' = ft_pending t ∧ (ft_delivers t → ft_delivers t') ∧
    write_half (ft_stream t') = mkWriteHalf fl_later (wire ++ adu).
Proof.
  intros Hh Hr He Hw. unfold ft_send_request, send_over. rewrite Hw.
  rewrite (encode_into_cleared F), He by done. cbn. by eexists.
Qed.
End over_bytes.

(** A call over a byte stream, for the claims below. *)
Lemma call_over_aux {w : Winnow} {ws : WinnowSpec w} u request resp c cfg stale adus adu adu'
    (t : FrameTransport Tcp_framing) later wire_ rest_ :
  let header := mkMbapHeader (next_transaction c) u : Header Tcp_framing in
  is_desynchronized c = false → wf header → wf request →
  encode_request Tcp_framing header request = Ok adu →
  write_half (ft_stream t) = mkWriteHalf ((WroteAll, Flushed) :: later) wire_ →
  Forall2 (encodable_response Tcp_framing) stale adus → Forall (λ m, fst m ≠ header) stale →
  encodable_response Tcp_framing (header, resp) adu' →
  ResponsePdu_function resp = RequestPdu_function request →
  ft_delivers t → ft_pending t = mjoin adus ++ adu' ++ rest_ →
  ∃ t' c', state c' = Answered ∧ next_transaction c' = next (next_transaction c) ∧
    call_over (S (length stale)) u request (mkClientOver t cfg c) =
      Some (Finished (Ok (Some resp)) (mkClientOver t' cfg c')) ∧
    write_half (ft_stream t') = mkWriteHalf later (wire_ ++ adu) ∧
    ft_delivers t' ∧ ft_pending t' = rest_.
Proof.
  intros header Hc Hh Hr He Hw Hs Hne Ha Hf Hd Hp.
  assert (∀ m a, encodable_response Tcp_framing m a → response_framed Tcp_framing m a) as Hloc.
  { intros [h r] a (H1 & H2 & H3 & H4). split_and!; try done.
    apply encode_response_inv in H4 as (pdu & -> & _ & Hpdu); [|done..]. by apply Tcp_locates. }
  destruct (ft_send_request_all header request adu later wire_ t) as (t1 & E & H1 & H2 & H3); [done..|].
  assert (∃ pdu, RequestPdu_encode request = Ok pdu) as [pdu Epdu].
  { apply encode_request_inv in He as (pdu & _ & Hb & _); [|done..]. exists pdu.
    by rewrite RequestPdu_encode_bytes. }
  destruct (await_over_stale header (RequestPdu_function request)
    (mkClient (next (next_transaction c)) (state c)) header resp adu' stale adus t1 rest_
    (S (length stale))) as (t' & Ew & D & P & W).
  - eapply Forall2_impl; [exact Hs|apply Hloc].
  - eapply Forall_impl; [exact Hne|]. intros m Hm. apply bool_decide_eq_false. intros Heq. by apply Hm.
  - by apply Hloc.
  - by apply bool_decide_eq_true.
  - done.
  - by apply H2.
  - by rewrite H1.
  - lia.
  - exists t', (set_state Answered (mkClient (next (next_transaction c)) (state c))).
    split_and!; [done|done| |congruence|done|done].
    unfold call_over. rewrite Hc, Epdu.
    cbn [ct_send_request FrameTransport_ClientTransport request_header Tcp_client is_broadcast].
    fold header. rewrite E. cbn beta iota zeta. by rewrite Ew.
Qed.

(** A call over a byte stream: whatever the sizes of the reads, and
    whatever late responses to other requests come first, a call on a usable
    client writes the frame of its request and nothing else, returns the response
    that answers it, and leaves the bytes that follow for the next call
    (CL-R-010, CL-R-020, CL-R-021). *)
Theorem call_over_bytes {w : Winnow} {ws : WinnowSpec w} u request resp c cfg stale adus adu adu'
    (t : FrameTransport Tcp_framing) later wire_ rest_ :
  let header := mkMbapHeader (next_transaction c) u : Header Tcp_framing in
  is_desynchronized c = false → wf header → wf request →
  encode_request Tcp_framing header request = Ok adu →
  write_half (ft_stream t) = mkWriteHalf ((WroteAll, Flushed) :: later) wire_ →
  Forall2 (encodable_response Tcp_framing) stale adus → Forall (λ m, fst m ≠ header) stale →
  encodable_response Tcp_framing (header, resp) adu' →
  ResponsePdu_function resp = RequestPdu_function request →
  ft_delivers t → ft_pending t = mjoin adus ++ adu' ++ rest_ →
  ∃ t' c', state c' = Answered ∧ next_transaction c' = next (next_transaction c) ∧
    call_over (S (length stale)) u request (mkClientOver t cfg c) =
      Some (Finished (Ok (Some resp)) (mkClientOver t' cfg c')) ∧
    write_half (ft_stream t') = mkWriteHalf later (wire_ ++ adu) ∧
    ft_delivers t' ∧ ft_pending t' = rest_.
Proof. apply call_over_aux. Qed.

(** ** Witnesses *)

Section witnesses.
Local Existing Instance winnow_model.
Local Existing Instance winnow_model_spec.

(** A late response to another transaction, then the answer, in odd reads. *)
Definition late_then_mine : FrameTransport Tcp_framing :=
  FrameTransport_new (mkStream
    (mkReadHalf [Ready (Bytes [0; 9; 0; 0; 0; 4; 1]); Quiet;
                 Ready (Bytes [17; 1; 41; 0; 1; 0; 0]); Ready (Bytes [0; 4; 1; 17; 1; 42; 7])])
    (mkWriteHalf [(WroteAll, Flushed)] [])).

Lemma call_over_bytes_witness :
  ∃ t' c', state c' = Answered ∧ next_transaction c' = mkTransactionId 2 ∧
    call_over 2 (mkUnitId 1) Req_ReportServerId
      (mkClientOver late_then_mine ClientConfig_default Client_new) =
      Some (Finished (Ok (Some (Resp_ReportServerId [42])))
              (mkClientOver t' ClientConfig_default c')) ∧
    write_half (ft_stream t') = mkWriteHalf [] ([] ++ [0; 1; 0; 0; 0; 2; 1; 17]) ∧
    ft_delivers t' ∧ ft_pending t' = [7].
Proof.
  apply (call_over_bytes (mkUnitId 1) Req_ReportServerId (Resp_ReportServerId [42]) Client_new
    ClientConfig_default [(mkMbapHeader (mkTransactionId 9) (mkUnitId 1), Resp_ReportServerId [41])]
    [[0; 9; 0; 0; 0; 4; 1; 17; 1; 41]] [0; 1; 0; 0; 0; 2; 1; 17] [0; 1; 0; 0; 0; 4; 1; 17; 1; 42]
    late_then_mine [] [] [7]); by_eval;
    unfold encodable_request, encodable_response, ft_delivers; by_eval.
Defined.

(** The same call, with fuel for every byte. *)
Lemma call_over_terminates_witness :
  ∃ p, (∀ fuel, (21 < fuel)%nat → call_over fuel (mkUnitId 1) Req_ReportServerId
      (mkClientOver late_then_mine ClientConfig_default Client_new) = Some p) ∧
  match p with
  | Finished r cl' =>
      ∃ wd', call Tcp_framing (mkUnitId 1) Req_ReportServerId Client_new
        (world_of 22 (mkUnitId 1) Req_ReportServerId Client_new late_then_mine)
        = (r, co_client cl', wd')
  | Unfinished cl' =>
      ct_send_request (request_header (mkUnitId 1) (mkTransactionId 1)) Req_ReportServerId
        late_then_mine = Unfinished (co_transport cl')
  end.
Proof.
  exact (call_over_terminates (F := Tcp_framing) (mkUnitId 1) Req_ReportServerId
    (mkClientOver late_then_mine ClientConfig_default Client_new)).
Defined.
End witnesses.
