(* ===== verification/Deadline.v ===== *)
(** * The response deadline of a call ([src/client/mod.rs])

    [Client::call] on a clock.  The deadline is one instant, fixed when the
    request has been written: [response_timeout] later.  Each receive of the loop
    runs under [timeout_at] that instant; a receive that is complete by the time
    the timer fires wins over it.  A transport gives each receive with the instant
    it completes at: a byte stream with the reads of a [Line], on which the
    receives of [Timed.v] run, or a socket with the instants of its datagrams.
    What the client computes between two awaits takes no time. *)

From S2P Require Import Prelude.
From S2P Require Import Errors.
From S2P Require Import Parse.
From S2P Require Import Value.
From S2P Require Import Function.
From S2P Require Import Wire.
From S2P Require Import Pdu.
From S2P Require Import PduSpec.
From S2P Require Import PduRoundtrip.
From S2P Require Import Framing.
From S2P Require Import Rtu.
From S2P Require Import RtuStream.
From S2P Require Import Tcp.
From S2P Require Import Ascii.
From S2P Require Import Serial.
From S2P Require Import Transport.
From S2P Require Import TransportSpec.
From S2P Require Import TransportSafety.
From S2P Require Import TransportTheorems.
From S2P Require Import Timed.
From S2P Require Import Outgoing.
From S2P Require Import Framed.
From S2P Require Import FramedTheorems.
From S2P Require Import Client.
From S2P Require Import ClientOver.

(** ** Transports in time *)

(** [recv_response], begun at an instant: its result, the instant it completes
    at and the transport after it, or nothing if what is to come does not complete
    it. *)
Class TimedTransport (F : Framing) (R : Type) := {
  tt_recv : Z → R → option (Result (Header F * ResponsePdu) * Z * R);
}.

(** Time does not run backwards, and there is only so much to receive. *)
Class TimedTransportSpec (F : Framing) (R : Type) {TT : TimedTransport F R} := {
  tt_unread : R → nat;
  tt_later now t r at_ t' : tt_recv now t = Some (r, at_, t') → now ≤ at_;
  tt_drains now t m at_ t' : tt_recv now t = Some (Ok m, at_, t') → (tt_unread t' < tt_unread t)%nat;
}.

(** A framed stream, with the configuration of its transport: the receiving state
    and the reads to come. *)
Record LineTransport (F : Framing) (config : TransportConfig) := mkLineTransport {
  lt_state : RecvState;
  lt_line : Line;
}.
Arguments mkLineTransport {F config}.
Arguments lt_state {F config}.
Arguments lt_line {F config}.

#[export] Instance LineTransport_timed {C : Clock} (F : Framing) (config : TransportConfig) :
    TimedTransport F (LineTransport F config) := {|
  tt_recv now t :=
    match recv_adu_timed F config DirResponse (lt_state t) now (lt_line t) with
    | TReturned r st at_ line =>
        Some (adu ← r; decode_response F adu, at_, mkLineTransport st line)
    | TWaiting _ => None
    end;
|}.

(** A datagram socket: the datagrams to come, with their instants, and the
    buffer they are received into. *)
Record DatagramTransport (F : Framing) := mkDatagramTransport {
  dg_due : list (Z * SocketRecv);
  dg_incoming : list Z;
}.
Arguments mkDatagramTransport {F}.
Arguments dg_due {F}.
Arguments dg_incoming {F}.

#[export] Instance DatagramTransport_timed (F : Framing) : TimedTransport F (DatagramTransport F) := {|
  tt_recv now t :=
    match dg_due t with
    | [] => None
    | (at_, d) :: due =>
        let '(r, incoming) := udp_recv (decode_response F) d (dg_incoming t) in
        Some (r, Z.max now at_, mkDatagramTransport due incoming)
    end;
|}.

(** ** The call *)

Section timed_call.
Context {C : Clock} {F : Framing} {CF : ClientFraming F} {R : Type} {TT : TimedTransport F R}.

(** The loop of [call], the timer of its deadline firing at [expiry]: the result,
    the client and the instant it ends at; the transport is the caller's again
    unless a receive was cut off in it. *)
Fixpoint await_timed (fuel : nat) (expiry : Z) (header : Header F) (expected : FunctionCode)
    (c : Client) (now : Z) (t : R) : option (Result (option ResponsePdu) * Client * Z * option R) :=
  match fuel with
  | O => None
  | S fuel =>
      let elapsed := Some (Err (Timeout "response"), set_state (Unusable Silent) c, expiry, None) in
      match tt_recv now t with
      | None => elapsed
      | Some (received, at_, t') =>
          if expiry <? at_ then elapsed else
          match received with
          | Err error => Some (Err error, set_state (state_after_error F error) c, at_, Some t')
          | Panic => Some (Panic, c, at_, Some t')
          | Ok (header_in, response) =>
              if negb (is_response_to header header_in)
              then await_timed fuel expiry header expected c at_ t' else
              let c' := set_state Answered c in
              let actual := ResponsePdu_function response in
              if negb (bool_decide (actual = expected))
              then Some (Err (UnexpectedFunction expected actual), c', at_, Some t')
              else Some (Ok (Some response), c', at_, Some t')
          end
      end
  end.

(** [Client::call], begun at [now]; its write ends at [sent], with [wrote]. *)
Definition call_timed (fuel : nat) (u : UnitId) (request : RequestPdu) (config : ClientConfig)
    (c : Client) (now sent : Z) (wrote : Result unit) (t : R)
    : option (Result (option ResponsePdu) * Client * Z * option R) :=
  if is_desynchronized c then Some (Err Desynchronized, c, now, Some t) else
  let expected := RequestPdu_function request in
  match RequestPdu_encode request with
  | Err e => Some (Err e, c, now, Some t)
  | Panic => Some (Panic, c, now, Some t)
  | Ok _ =>
      let transaction := next_transaction c in
      let header := request_header u transaction in
      match wrote with
      | Err error =>
          Some (Err error, set_state (Unusable (classify_unusable_reason error)) c, sent, Some t)
      | Panic => Some (Panic, c, sent, Some t)
      | Ok _ =>
          let c' := mkClient (next transaction) (state c) in
          if is_broadcast u then Some (Ok None, c', sent, Some t) else
          let deadline := sent + response_timeout config in
          await_timed fuel (fires deadline) header expected c' sent t
      end
  end.

(** The receives that are complete by the time the timer fires, in order. *)
Fixpoint due_by (fuel : nat) (expiry now : Z) (t : R) : list (Result (Header F * ResponsePdu)) :=
  match fuel with
  | O => []
  | S fuel =>
      match tt_recv now t with
      | Some (received, at_, t') =>
          if expiry <? at_ then [] else received :: due_by fuel expiry at_ t'
      | None => []
      end
  end.

(** Frames that answer another request. *)
Definition unrelated (header : Header F) (received : Result (Header F * ResponsePdu)) : Prop :=
  match received with Ok (header_in, _) => is_response_to header header_in = false | _ => False end.

Context {TS : TimedTransportSpec F R}.

(** The loop ends by the timer, and as the loop of [Client.v] does over what is
    due; if nothing due concerns the request, when the timer fires. *)
Lemma await_timed_ends header expected fuel expiry c now t :
  now ≤ expiry → (tt_unread t < fuel)%nat →
  ∃ r c' at_ t' left_, await_timed fuel expiry header expected c now t = Some (r, c', at_, t') ∧
    now ≤ at_ ≤ expiry ∧ await F header expected c (due_by fuel expiry now t) = (r, c', left_) ∧
    (Forall (unrelated header) (due_by fuel expiry now t) → at_ = expiry).
Proof.
  revert now t. induction fuel as [|fuel IH]; intros now t Hn Hf; [lia|]. cbn [await_timed due_by].
  destruct (tt_recv now t) as [[[received at_] t']|] eqn:E.
  2: { eexists _, _, expiry, _, _. by split_and!. }
  pose proof (tt_later _ _ _ _ _ E) as Hl.
  destruct (Z.ltb_spec expiry at_); [eexists _, _, expiry, _, _; by split_and!|].
  destruct received as [[hin resp]|e|]; cbn [await].
  2-3: eexists _, _, at_, _, _; split_and!; try done; by intros []%Forall_cons.
  destruct (is_response_to header hin) eqn:Hr; cbn [negb].
  - destruct (bool_decide _); cbn [negb]; eexists _, _, at_, _, _; split_and!; try done;
      intros [Hu _]%Forall_cons; cbn in Hu; congruence.
  - pose proof (tt_drains _ _ _ _ _ E) as Hd.
    destruct (IH at_ t') as (r & c' & a & t'' & left_ & H1 & H2 & H3 & H4); [lia..|].
    exists r, c', a, t'', left_. split_and!; try done; [lia|lia|]. intros [_ Hu]%Forall_cons. auto.
Qed.
End timed_call.

(** ** The transports keep their promises *)

(** The instant a timed receive returns at. *)
Definition not_before {A} (now : Z) (t : TRecv A) : Prop :=
  match t with TDone _ _ at_ _ => now ≤ at_ | TPending _ => True end.

Section lines.
Context {C : Clock} {granularity : Z} {CS : ClockSpec C granularity}.
Context (F : Framing) (config : TransportConfig).
Context (Hframe : 0 ≤ tc_inter_frame_interval config).
Context (Hchar : 0 ≤ tc_ascii_inter_character_timeout config).

Lemma not_before_mono {A} now now' (t : TRecv A) : now ≤ now' → not_before now' t → not_before now t.
Proof. destruct t; cbn; [lia|done]. Qed.

Lemma finish_take_not_before now b n at_ line : now ≤ at_ → not_before now (finish_take_timed b n at_ line).
Proof. unfold finish_take_timed. by destruct (take_adu b n). Qed.

(** A read, then the rest of a loop. *)
Lemma read_not_before {A} now at_ mid r b line (k : list Z → TRecv A) :
  (∀ b, not_before (Z.max now at_) (k b)) →
  not_before now
    (match read_more mid r b with
     | (Ok _, b') => k b'
     | (Err e, b') => TDone (Err e) b' (Z.max now at_) line
     | (Panic, b') => TDone Panic b' (Z.max now at_) line
     end).
Proof.
  intros Hk. destruct (read_more mid r b) as [[u|e|] b']; [|cbn; lia..].
  eapply not_before_mono; [|apply Hk]. lia.
Qed.

Lemma fill_loop_not_before n now line b : not_before now (fill_loop_timed n now line b).
Proof.
  revert now b. induction line as [|[at_ r] line IH]; intros now b; cbn [fill_loop_timed];
    (destruct (n <=? len b); [cbn; lia|]); [done|]. by apply read_not_before.
Qed.

Lemma fill_to_not_before n now line b : not_before now (fill_to_timed F n now line b).
Proof. unfold fill_to_timed. destruct (_ <? n); [cbn; lia|apply fill_loop_not_before]. Qed.

(** A fill, then what is done with it. *)
Lemma filled_not_before {A} n now line b (k : list Z → Z → Line → TRecv A) :
  (∀ b at_ line, now ≤ at_ → not_before now (k b at_ line)) →
  not_before now
    (match fill_to_timed F n now line b with
     | TPending b => TPending b
     | TDone (Err e) b at_ line => TDone (Err e) b at_ line
     | TDone Panic b at_ line => TDone Panic b at_ line
     | TDone (Ok _) b at_ line => k b at_ line
     end).
Proof.
  intros Hk. pose proof (fill_to_not_before n now line b) as Hf.
  destruct (fill_to_timed F n now line b) as [[u|e|] b' at_ line'|b']; cbn in Hf; [by apply Hk|done..].
Qed.

Lemma content_loop_not_before ext now line b : not_before now (content_loop_timed F ext now line b).
Proof.
  revert now b. induction line as [|[at_ r] line IH]; intros now b; cbn [content_loop_timed];
    (destruct (ext b) as [[|n]|e|]; [|apply finish_take_not_before; lia|cbn; lia..]);
    (destruct (check_buffer_bound F b); [|cbn; lia..]); [done|]. by apply read_not_before.
Qed.

Lemma read_delimited_not_before start end_ now line b searched :
  not_before now (read_delimited_timed F config start end_ now line b searched).
Proof.
  revert now b searched. induction line as [|[at_ r] line IH]; intros now b searched;
    cbn [read_delimited_timed];
    pose proof (never_early (now + tc_ascii_inter_character_timeout config)) as He;
    (destruct (scan start end_ b searched) as [[n b']|[b' sd]]; [apply finish_take_not_before; lia|]);
    (destruct (check_buffer_bound F b'); [|cbn; lia..]).
  - destruct (is_empty b'); [done|cbn; lia].
  - destruct (negb _ && _); [cbn; lia|]. apply read_not_before. intros. apply IH.
Qed.

Lemma read_until_silence_not_before now line b :
  not_before now (read_until_silence_timed F config now line b).
Proof.
  revert now b. induction line as [|[at_ r] line IH]; intros now b; cbn [read_until_silence_timed];
    pose proof (never_early (now + tc_inter_frame_interval config)) as He;
    (destruct (is_empty b); [|destruct (check_buffer_bound F b); [|cbn; lia..]]).
  - done.
  - apply finish_take_not_before. lia.
  - by apply read_not_before.
  - destruct (_ <? _); [apply finish_take_not_before; lia|].
    destruct (read_more true r b) as [[u'|e|] b']; [| |cbn; lia].
    + eapply not_before_mono; [|apply IH]. lia.
    + destruct e; first [apply finish_take_not_before; lia | cbn; lia].
Qed.

Lemma read_adu_not_before dir now line b : not_before now (read_adu_timed F config dir now line b).
Proof.
  unfold read_adu_timed. destruct (boundary F) as [prefix total|start end_| |min ext].
  - apply filled_not_before. intros b1 at1 line1 H1. destruct (_ ≫= total) as [n|e|]; [|done..].
    eapply not_before_mono; [done|]. apply filled_not_before. intros. by apply finish_take_not_before.
  - apply read_delimited_not_before.
  - apply read_until_silence_not_before.
  - apply filled_not_before. intros b1 at1 line1 H1.
    eapply not_before_mono; [done|apply content_loop_not_before].
Qed.

(** The bytes still to be read of a line are those of its events. *)
Definition line_bytes (line : Line) : list Z := stream ((λ x, Ready (snd x)) <$> line).

Lemma events_stream now line : stream (events F config now line) = line_bytes line.
Proof.
  revert now. induction line as [|[at_ r] line IH]; intros now; [done|]. cbn [events].
  assert (stream (Ready r :: events F config (Z.max now at_) line) = line_bytes ((at_, r) :: line)) as H.
  { rewrite stream_cons, IH. done. }
  by destruct (_ <? _).
Qed.

Lemma timer_nonneg : 0 ≤ timer F config.
Proof. unfold timer. by destruct (boundary F). Qed.

(** A timed receive takes its ADU off the line. *)
Lemma recv_adu_timed_consumes dir st now line adu st' at_ line' :
  recv_adu_timed F config dir st now line = TReturned (Ok adu) st' at_ line' →
  (length adu + (length (buffer st') + length (line_bytes line')) ≤
   length (buffer st) + length (line_bytes line))%nat.
Proof.
  unfold recv_adu_timed. destruct (receiving st); [done|].
  pose proof (read_adu_agrees F config timer_nonneg dir now line (buffer st)) as Ha.
  pose proof (read_adu_consumes F dir (events F config now line) (buffer st)) as Hc.
  destruct (read_adu_timed F config dir now line (buffer st)) as [r b a l|b]; [|done].
  destruct Ha as (trace & Ha & Hl). rewrite Ha in Hc. intros [= -> <- <- <-]. destruct Hc as [Hc _].
  assert (stream trace = line_bytes l) as Hs
    by (rewrite <- (events_stream a); destruct Hl as [->| ->]; done).
  unfold pending_bytes in Hc. rewrite events_stream, Hs in Hc. cbn in *. lia.
Qed.
End lines.

(** A configuration whose silences are durations. *)
Class DurationsOk (config : TransportConfig) : Prop := {
  dok_frame : 0 ≤ tc_inter_frame_interval config;
  dok_char : 0 ≤ tc_ascii_inter_character_timeout config;
}.

#[export] Instance default_durations : DurationsOk TransportConfig_default.
Proof. by split. Qed.

#[export] Program Instance LineTransport_spec {C : Clock} {granularity : Z} {CS : ClockSpec C granularity}
    (F : Framing) {N : NonEmptyAdu F} (config : TransportConfig) {D : DurationsOk config} :
    TimedTransportSpec F (LineTransport F config) := {|
  tt_unread t := (length (buffer (lt_state t)) + length (line_bytes (lt_line t)))%nat;
|}.
Next Obligation.
  intros C g CS F N config D now [st line] r at_ t'. cbn [tt_recv LineTransport_timed lt_state lt_line].
  unfold recv_adu_timed. destruct (receiving st); [intros [= _ <- _]; lia|].
  pose proof (read_adu_not_before F config dok_frame dok_char DirResponse now line (buffer st)) as H.
  destruct (read_adu_timed _ _ _ _ _ _) as [res b a l|b]; [|done]. by intros [= _ <- _].
Qed.
Next Obligation.
  intros C g CS F N config D now [st line] m at_ t'. cbn [tt_recv LineTransport_timed lt_state lt_line].
  destruct (recv_adu_timed F config DirResponse st now line) as [r st' a l|st'] eqn:E; [|done].
  intros [= Hr _ <-]. destruct r as [adu|e|]; cbn in Hr; [|done..].
  apply recv_adu_timed_consumes in E; [|apply dok_frame|apply dok_char]. cbn [lt_state lt_line].
  destruct adu; [by apply decode_response_nil in Hr|]. cbn in E. lia.
Qed.

#[export] Program Instance DatagramTransport_spec (F : Framing) :
    TimedTransportSpec F (DatagramTransport F) := {| tt_unread t := length (dg_due t) |}.
Next Obligation.
  intros F now [due incoming] r at_ t'. cbn. destruct due as [|[a d] due]; [done|].
  destruct (udp_recv _ _ _). intros [= _ <- _]. lia.
Qed.
Next Obligation.
  intros F now [due incoming] m at_ t'. cbn. destruct due as [|[a d] due]; [done|].
  destruct (udp_recv _ _ _). intros [= _ _ <-]. cbn. lia.
Qed.

(** ** Claim *)


(** ** Witness *)

Section witnesses.
Local Existing Instance winnow_model.
Local Existing Instance winnow_model_spec.
Local Existing Instance ms_clock.
Local Existing Instance ms_clock_spec.

Definition holding_request : RequestPdu :=
  Req_ReadHoldingRegisters (mkAddress 0x006B) (mkQuantity 3).
Definition stale_adu : list Z := [3; 0xE7; 0; 0; 0; 5; 0x11; 3; 2; 2; 0x2B].

(** The test [ut_discarding_does_not_extend_the_deadline]: a peer that repeats a
    response to another request every 600 milliseconds, from when it received the
    request on. *)
Definition chatty (n : nat) : LineTransport Tcp_framing TransportConfig_default :=
  mkLineTransport fresh ((λ k, (Z.of_nat k * 600000000, Bytes stale_adu)) <$> seq 0 n).

Definition ut_discarding_does_not_extend_the_deadline : bool :=
  match call_timed 133 (mkUnitId 0x11) holding_request ClientConfig_default Client_new 0 0 (Ok tt)
    (chatty 12) with
  | Some (Err (Timeout what), c, at_, _) =>
      bool_decide (what = "response") && is_desynchronized c && (at_ =? 1000000000)
  | _ => false
  end.

Lemma discarding_does_not_extend_the_deadline : ut_discarding_does_not_extend_the_deadline = true.
Proof. vm_compute. reflexivity. Qed.

End witnesses.
