(* ===== verification/Sync.v ===== *)
(** * The blocking client ([src/client/sync.rs])

    Each method refuses to run on a thread that drives a runtime and otherwise
    runs the method of the async client of the same name to completion.  Whether
    the thread drives a runtime ([Handle::try_current]) and whether a runtime can
    be built are inputs. *)

From S2P Require Import Prelude.
From S2P Require Import Errors.
From S2P Require Import Parse.
From S2P Require Import Value.
From S2P Require Import Function.
From S2P Require Import Exception.
From S2P Require Import Diagnostics.
From S2P Require Import Wire.
From S2P Require Import Mei.
From S2P Require Import FileRecord.
From S2P Require Import Pdu.
From S2P Require Import Framing.
From S2P Require Import Tcp.
From S2P Require Import Serial.
From S2P Require Import Transport.
From S2P Require Import Outgoing.
From S2P Require Import Framed.
From S2P Require Import TcpConn.
From S2P Require Import SerialPort.
From S2P Require Import Client.
From S2P Require Import ClientOver.

(** [refuse_inside_a_runtime] and [build_runtime]. *)
Definition refuse_inside_a_runtime (in_runtime : bool) : Result unit :=
  if in_runtime then Err BlockingInAsyncContext else Ok tt.

Definition build_runtime (built : unit + IoError) : Result unit := io_result built.

(** [SyncClient], and its constructors [connect] and [open]. *)
Record SyncClient (F : Framing) := mkSyncClient { sync_client : ClientOver (FrameTransport F) }.
Arguments mkSyncClient {F}.
Arguments sync_client {F}.

Definition sync_connect (F : Framing) (in_runtime : bool) (built : unit + IoError)
    (attempt : Attempt (Stream + IoError)) (set_nodelay : bool → unit + IoError)
    (tcp : TcpConfig) (client : ClientConfig) : Result (SyncClient F) :=
  _ ← refuse_inside_a_runtime in_runtime;
  _ ← build_runtime built;
  transport ← connect_tcp_framed F tcp attempt set_nodelay;
  Ok (mkSyncClient (Client_with_config transport client)).

Definition sync_open (F : Framing) (in_runtime : bool) (built : unit + IoError)
    (host : SerialHost) (path : string) (serial : SerialConfig) (client : ClientConfig)
    : Result (SyncClient F) :=
  _ ← refuse_inside_a_runtime in_runtime;
  _ ← build_runtime built;
  transport ← open_serial F host path serial;
  Ok (mkSyncClient (Client_with_config transport client)).

(** [is_desynchronized] and [state] enter no runtime. *)
Definition sync_is_desynchronized {F : Framing} (s : SyncClient F) : bool :=
  is_desynchronized (co_client (sync_client s)).

Definition sync_state {F : Framing} (s : SyncClient F) : ClientState :=
  state (co_client (sync_client s)).

Section methods.
Context (F : Framing) {CF : ClientFraming F}.

(** [refuse_inside_a_runtime()?] in front of a client method. *)
Definition refusing (in_runtime : bool) : Cl F unit :=
  λ c wd, (refuse_inside_a_runtime in_runtime, c, wd).

(** The methods. *)
Definition sync_call (in_runtime : bool) (u : UnitId) (request : RequestPdu) : Cl F (option ResponsePdu) :=
  _ ← refusing in_runtime; call F u request.

Definition sync_read_coils (in_runtime : bool) (u : UnitId) (address : Address) (quantity : Quantity) : Cl F (list bool) :=
  _ ← refusing in_runtime; read_coils F u address quantity.

Definition sync_read_discrete_inputs (in_runtime : bool) (u : UnitId) (address : Address) (quantity : Quantity) : Cl F (list bool) :=
  _ ← refusing in_runtime; read_discrete_inputs F u address quantity.

Definition sync_read_holding_registers (in_runtime : bool) (u : UnitId) (address : Address) (quantity : Quantity) : Cl F (list RegisterValue) :=
  _ ← refusing in_runtime; read_holding_registers F u address quantity.

Definition sync_read_input_registers (in_runtime : bool) (u : UnitId) (address : Address) (quantity : Quantity) : Cl F (list RegisterValue) :=
  _ ← refusing in_runtime; read_input_registers F u address quantity.

Definition sync_write_single_coil (in_runtime : bool) (u : UnitId) (address : Address) (value : bool) : Cl F unit :=
  _ ← refusing in_runtime; write_single_coil F u address value.

Definition sync_write_single_register (in_runtime : bool) (u : UnitId) (address : Address) (value : RegisterValue) : Cl F unit :=
  _ ← refusing in_runtime; write_single_register F u address value.

Definition sync_write_multiple_coils (in_runtime : bool) (u : UnitId) (address : Address) (coils : list bool) : Cl F unit :=
  _ ← refusing in_runtime; write_multiple_coils F u address coils.

Definition sync_write_multiple_registers (in_runtime : bool) (u : UnitId) (address : Address) (registers : list RegisterValue) : Cl F unit :=
  _ ← refusing in_runtime; write_multiple_registers F u address registers.

Definition sync_mask_write_register (in_runtime : bool) (u : UnitId) (address : Address) (and_mask or_mask : Mask) : Cl F unit :=
  _ ← refusing in_runtime; mask_write_register F u address and_mask or_mask.

Definition sync_read_write_multiple_registers (in_runtime : bool) (u : UnitId) (read_address : Address) (read_quantity : Quantity)
    (write_address : Address) (registers : list RegisterValue) : Cl F (list RegisterValue) :=
  _ ← refusing in_runtime; read_write_multiple_registers F u read_address read_quantity write_address registers.

Definition sync_read_exception_status (in_runtime : bool) (u : UnitId) : Cl F ExceptionStatus :=
  _ ← refusing in_runtime; read_exception_status F u.

Definition sync_diagnostics (in_runtime : bool) (u : UnitId) (sub_function : DiagnosticSubFunction) (data : list Z) : Cl F (list Z) :=
  _ ← refusing in_runtime; diagnostics F u sub_function data.

Definition sync_get_comm_event_counter (in_runtime : bool) (u : UnitId) : Cl F CommEventCounter :=
  _ ← refusing in_runtime; get_comm_event_counter F u.

Definition sync_get_comm_event_log (in_runtime : bool) (u : UnitId) : Cl F CommEventLog :=
  _ ← refusing in_runtime; get_comm_event_log F u.

Definition sync_report_server_id (in_runtime : bool) (u : UnitId) : Cl F (list Z) :=
  _ ← refusing in_runtime; report_server_id F u.

Definition sync_read_file_record (in_runtime : bool) (u : UnitId) (records : list FileRecordRead) : Cl F (list FileRecordReadResponse) :=
  _ ← refusing in_runtime; read_file_record F u records.

Definition sync_write_file_record (in_runtime : bool) (u : UnitId) (records : list FileRecordWrite) : Cl F unit :=
  _ ← refusing in_runtime; write_file_record F u records.

Definition sync_read_fifo_queue (in_runtime : bool) (u : UnitId) (address : Address) : Cl F (list RegisterValue) :=
  _ ← refusing in_runtime; read_fifo_queue F u address.

Definition sync_encapsulated_interface_transport (in_runtime : bool) (u : UnitId) (request : MeiRequest) : Cl F MeiResponse :=
  _ ← refusing in_runtime; encapsulated_interface_transport F u request.

(** The methods as data, by the type of their answer. *)
Inductive Op : Type → Type :=
  | OpCall (u : UnitId) (request : RequestPdu) : Op (option ResponsePdu)
  | OpReadCoils (u : UnitId) (address : Address) (quantity : Quantity) : Op (list bool)
  | OpReadDiscreteInputs (u : UnitId) (address : Address) (quantity : Quantity) : Op (list bool)
  | OpReadHoldingRegisters (u : UnitId) (address : Address) (quantity : Quantity) : Op (list RegisterValue)
  | OpReadInputRegisters (u : UnitId) (address : Address) (quantity : Quantity) : Op (list RegisterValue)
  | OpWriteSingleCoil (u : UnitId) (address : Address) (value : bool) : Op unit
  | OpWriteSingleRegister (u : UnitId) (address : Address) (value : RegisterValue) : Op unit
  | OpWriteMultipleCoils (u : UnitId) (address : Address) (coils : list bool) : Op unit
  | OpWriteMultipleRegisters (u : UnitId) (address : Address) (registers : list RegisterValue) : Op unit
  | OpMaskWriteRegister (u : UnitId) (address : Address) (and_mask or_mask : Mask) : Op unit
  | OpReadWriteMultipleRegisters (u : UnitId) (read_address : Address) (read_quantity : Quantity)
    (write_address : Address) (registers : list RegisterValue) : Op (list RegisterValue)
  | OpReadExceptionStatus (u : UnitId) : Op ExceptionStatus
  | OpDiagnostics (u : UnitId) (sub_function : DiagnosticSubFunction) (data : list Z) : Op (list Z)
  | OpGetCommEventCounter (u : UnitId) : Op CommEventCounter
  | OpGetCommEventLog (u : UnitId) : Op CommEventLog
  | OpReportServerId (u : UnitId) : Op (list Z)
  | OpReadFileRecord (u : UnitId) (records : list FileRecordRead) : Op (list FileRecordReadResponse)
  | OpWriteFileRecord (u : UnitId) (records : list FileRecordWrite) : Op unit
  | OpReadFifoQueue (u : UnitId) (address : Address) : Op (list RegisterValue)
  | OpEncapsulatedInterfaceTransport (u : UnitId) (request : MeiRequest) : Op MeiResponse.

Definition run_async {A} (op : Op A) : Cl F A :=
  match op with
  | OpCall u request => call F u request
  | OpReadCoils u address quantity => read_coils F u address quantity
  | OpReadDiscreteInputs u address quantity => read_discrete_inputs F u address quantity
  | OpReadHoldingRegisters u address quantity => read_holding_registers F u address quantity
  | OpReadInputRegisters u address quantity => read_input_registers F u address quantity
  | OpWriteSingleCoil u address value => write_single_coil F u address value
  | OpWriteSingleRegister u address value => write_single_register F u address value
  | OpWriteMultipleCoils u address coils => write_multiple_coils F u address coils
  | OpWriteMultipleRegisters u address registers => write_multiple_registers F u address registers
  | OpMaskWriteRegister u address and_mask or_mask => mask_write_register F u address and_mask or_mask
  | OpReadWriteMultipleRegisters u read_address read_quantity write_address registers => read_write_multiple_registers F u read_address read_quantity write_address registers
  | OpReadExceptionStatus u => read_exception_status F u
  | OpDiagnostics u sub_function data => diagnostics F u sub_function data
  | OpGetCommEventCounter u => get_comm_event_counter F u
  | OpGetCommEventLog u => get_comm_event_log F u
  | OpReportServerId u => report_server_id F u
  | OpReadFileRecord u records => read_file_record F u records
  | OpWriteFileRecord u records => write_file_record F u records
  | OpReadFifoQueue u address => read_fifo_queue F u address
  | OpEncapsulatedInterfaceTransport u request => encapsulated_interface_transport F u request
  end.

Definition run_sync (in_runtime : bool) {A} (op : Op A) : Cl F A :=
  match op with
  | OpCall u request => sync_call in_runtime u request
  | OpReadCoils u address quantity => sync_read_coils in_runtime u address quantity
  | OpReadDiscreteInputs u address quantity => sync_read_discrete_inputs in_runtime u address quantity
  | OpReadHoldingRegisters u address quantity => sync_read_holding_registers in_runtime u address quantity
  | OpReadInputRegisters u address quantity => sync_read_input_registers in_runtime u address quantity
  | OpWriteSingleCoil u address value => sync_write_single_coil in_runtime u address value
  | OpWriteSingleRegister u address value => sync_write_single_register in_runtime u address value
  | OpWriteMultipleCoils u address coils => sync_write_multiple_coils in_runtime u address coils
  | OpWriteMultipleRegisters u address registers => sync_write_multiple_registers in_runtime u address registers
  | OpMaskWriteRegister u address and_mask or_mask => sync_mask_write_register in_runtime u address and_mask or_mask
  | OpReadWriteMultipleRegisters u read_address read_quantity write_address registers => sync_read_write_multiple_registers in_runtime u read_address read_quantity write_address registers
  | OpReadExceptionStatus u => sync_read_exception_status in_runtime u
  | OpDiagnostics u sub_function data => sync_diagnostics in_runtime u sub_function data
  | OpGetCommEventCounter u => sync_get_comm_event_counter in_runtime u
  | OpGetCommEventLog u => sync_get_comm_event_log in_runtime u
  | OpReportServerId u => sync_report_server_id in_runtime u
  | OpReadFileRecord u records => sync_read_file_record in_runtime u records
  | OpWriteFileRecord u records => sync_write_file_record in_runtime u records
  | OpReadFifoQueue u address => sync_read_fifo_queue in_runtime u address
  | OpEncapsulatedInterfaceTransport u request => sync_encapsulated_interface_transport in_runtime u request
  end.

(** A program of calls, each on a thread of its own choosing, and its answers. *)
Definition AnyOp : Type := {A : Type & Op A}.
Definition AnyResult : Type := {A : Type & Result A}.

Fixpoint sync_program (calls : list (bool * AnyOp)) (c : Client) (wd : World F)
    : list AnyResult * Client * World F :=
  match calls with
  | [] => ([], c, wd)
  | (in_runtime, existT A op) :: calls' =>
      let '(r, c', wd') := run_sync in_runtime op c wd in
      let '(rs, c'', wd'') := sync_program calls' c' wd' in (existT A r :: rs, c'', wd'')
  end.

Fixpoint async_program (ops : list AnyOp) (c : Client) (wd : World F)
    : list AnyResult * Client * World F :=
  match ops with
  | [] => ([], c, wd)
  | existT A op :: ops' =>
      let '(r, c', wd') := run_async op c wd in
      let '(rs, c'', wd'') := async_program ops' c' wd' in (existT A r :: rs, c'', wd'')
  end.

(** The calls of a program that are not refused, and their answers put back in
    their places among the refusals. *)
Definition permitted (calls : list (bool * AnyOp)) : list AnyOp :=
  omap (λ call, if call.1 : bool then None else Some call.2) calls.

Fixpoint merge (calls : list (bool * AnyOp)) (rs : list AnyResult) : list AnyResult :=
  match calls, rs with
  | (true, existT A _) :: calls', _ => existT A (Err BlockingInAsyncContext) :: merge calls' rs
  | (false, _) :: calls', r :: rs' => r :: merge calls' rs'
  | _, _ => []
  end.

Lemma run_sync_outside {A} (op : Op A) c wd : run_sync false op c wd = run_async op c wd.
Proof. by destruct op. Qed.

Lemma run_sync_inside {A} (op : Op A) c wd :
  run_sync true op c wd = (Err BlockingInAsyncContext, c, wd).
Proof. by destruct op. Qed.

(** The blocking client is the async client.  A program of blocking calls
    does to the client and to the transport what the async methods of the same
    names do, for every method; the calls made on a thread that drives a runtime
    are refused, answer nothing else, and leave no trace (CL-R-071, CL-R-072,
    CL-R-075). *)
Lemma blocking_client_equivalent calls c wd :
  sync_program calls c wd =
  (let '(rs, c', wd') := async_program (permitted calls) c wd in (merge calls rs, c', wd')).
Proof.
  revert c wd. induction calls as [|[[] [A op]] calls IH]; intros c wd; [done|..].
  - cbn [sync_program permitted omap list_omap fst]. rewrite run_sync_inside, IH.
    unfold permitted. by destruct (async_program _ c wd) as [[rs c'] wd'].
  - cbn [sync_program permitted omap list_omap fst snd async_program]. rewrite run_sync_outside.
    destruct (run_async op c wd) as [[r c'] wd']. rewrite IH. unfold permitted.
    by destruct (async_program _ c' wd') as [[rs c''] wd''].
Qed.
End methods.

(** A blocking client is refused, built and connected in this order, so that a
    refusal leaves nothing half made (CL-R-075, CL-R-076). *)
Lemma sync_connect_outcome F in_runtime built attempt set_nodelay tcp client :
  sync_connect F in_runtime built attempt set_nodelay tcp client =
  if in_runtime then Err BlockingInAsyncContext else
  match built with
  | inr e => Err (Error_from e)
  | inl _ => (λ t, mkSyncClient (Client_with_config t client)) <$>
      connect_tcp_framed F tcp attempt set_nodelay
  end.
Proof.
  unfold sync_connect, build_runtime, io_result. destruct in_runtime; [done|].
  destruct built as [[]|e]; [|done]. cbn. by destruct (connect_tcp_framed F tcp attempt set_nodelay).
Qed.
