(* ===== verification/Server.v ===== *)
(** * The server ([src/server/framing.rs], [service.rs], [mod.rs])

    A connection is served over a list of turns: what each pass of the loop
    sees, the shutdown signal or a completed receive, with what the stream does
    to the answer.  A connection still waiting when the turns end is [Idle]. *)

From S2P Require Import Prelude.
From S2P Require Import Errors.
From S2P Require Import Parse.
From S2P Require Import Value.
From S2P Require Import Function.
From S2P Require Import Exception.
From S2P Require Import Pdu.
From S2P Require Import PduSpec.
From S2P Require Import PduRoundtrip.
From S2P Require Import Framing.
From S2P Require Import Rtu.
From S2P Require Import RtuStream.
From S2P Require Import Tcp.
From S2P Require Import Ascii.
From S2P Require Import Outgoing.

(** The trait [ServerFraming]: [unit] and [is_broadcast]. *)
Class ServerFraming (F : Framing) := {
  unit_of : Header F → UnitId;
  addresses_all : UnitId → bool;
}.

#[export] Instance Tcp_server {w : Winnow} : ServerFraming Tcp_framing := {|
  unit_of := (unit_id : Header Tcp_framing → UnitId);
  addresses_all _ := false;
|}.

#[export] Instance Rtu_server {w : Winnow} {c : Crc16} : ServerFraming Rtu_framing := {|
  unit_of := ((λ header, header) : Header Rtu_framing → UnitId);
  addresses_all unit := bool_decide (unit = BROADCAST_UNIT);
|}.

#[export] Instance Ascii_server {w : Winnow} : ServerFraming Ascii_framing := {|
  unit_of := ((λ header, header) : Header Ascii_framing → UnitId);
  addresses_all unit := bool_decide (unit = BROADCAST_UNIT);
|}.

#[export] Instance RtuOverTcp_server {w : Winnow} {c : Crc16} :
    ServerFraming RtuOverTcp_framing := {|
  unit_of := ((λ header, header) : Header RtuOverTcp_framing → UnitId);
  addresses_all unit := bool_decide (unit = BROADCAST_UNIT);
|}.

(** ** The service interface *)

Record ConnectionId := mkConnectionId { connection_id_0 : Z }.

(** A [CertificateDer], by its bytes. *)
Definition CertificateDer : Type := list Z.

Record Connection := mkConnection {
  id : ConnectionId;
  peer : option SocketAddr;
  peer_cert : option CertificateDer;
}.

(** [Connection::new] and [with_peer_cert]. *)
Definition Connection_new (id : ConnectionId) (peer : option SocketAddr) : Connection :=
  mkConnection id peer None.

Definition with_peer_cert (conn : Connection) (cert : option CertificateDer) : Connection :=
  mkConnection (id conn) (peer conn) cert.

Inductive Acceptance := Accept | Reject.

Inductive AcceptErrorAction := ContinueServing | StopServing.

Inductive Disconnect :=
  | Closed
  | Rejected
  | DisconnectFailed (error : Error)
  | ShuttingDown.

#[export] Instance ConnectionId_eq_dec : EqDecision ConnectionId.
Proof. solve_decision. Defined.
#[export] Instance Acceptance_eq_dec : EqDecision Acceptance.
Proof. solve_decision. Defined.
#[export] Instance AcceptErrorAction_eq_dec : EqDecision AcceptErrorAction.
Proof. solve_decision. Defined.
#[export] Instance Disconnect_eq_dec : EqDecision Disconnect.
Proof. solve_decision. Defined.

(** The trait [Service]; the implementor's state, behind its own lock, is
    threaded through the calls.  [on_request] answers, withholds ([inl None]) or
    refuses ([inr]).  The hooks of the trait are futures: a function here is what
    the hook does when it completes.  [Suspending] has [on_request] as a future
    that acts on the state at each of its polls. *)
Record Service := mkService {
  SvcState : Type;
  on_request : Connection → UnitId → RequestPdu → SvcState →
    (option ResponsePdu + ExceptionCode) * SvcState;
  on_connect : Connection → SvcState → Acceptance * SvcState;
  on_disconnect : Connection → Disconnect → SvcState → SvcState;
  on_error : Connection → Error → SvcState → SvcState;
  on_accept_error : Error → SvcState → AcceptErrorAction * SvcState;
  on_receive_error : Error → SvcState → AcceptErrorAction * SvcState;
  on_tls_handshake_failed : SocketAddr → Error → SvcState → SvcState;
}.

(** The default methods. *)
Section defaults.
Context {S : Type}.
Definition default_on_connect (conn : Connection) (s : S) : Acceptance * S := (Accept, s).
Definition default_on_disconnect (conn : Connection) (reason : Disconnect) (s : S) : S := s.
Definition default_on_error (conn : Connection) (error : Error) (s : S) : S := s.
Definition default_on_accept_error (error : Error) (s : S) : AcceptErrorAction * S :=
  (StopServing, s).
Definition default_on_receive_error (c : LibcErrno) (t : Target) (error : Error) (s : S)
    : AcceptErrorAction * S :=
  (match listener_failure c t error with
   | Some Transient => ContinueServing
   | _ => StopServing
   end, s).
Definition default_on_tls_handshake_failed (peer : SocketAddr) (error : Error) (s : S) : S := s.
End defaults.

(** [ServerConfig]. *)
Record ServerConfig := mkServerConfig { config_unit : option UnitId }.

(** Whether [config.unit.is_some_and(|configured| configured != unit)]. *)
Definition foreign (config : ServerConfig) (u : UnitId) : bool :=
  match config_unit config with
  | Some configured => negb (bool_decide (configured = u))
  | None => false
  end.

(** The response an answer of the service becomes, if any. *)
Definition response_of (function : FunctionCode) (answer : option ResponsePdu + ExceptionCode)
    : option ResponsePdu :=
  match answer with
  | inl response => response
  | inr exception => Some (Resp_Exception (mkExceptionResponse function exception))
  end.

(** ** One connection *)

Section serving.
Context (F : Framing) {SF : ServerFraming F} (svc : Service).
Context (config : ServerConfig) (conn : Connection).

Inductive Turn :=
  | TurnShutdown
  | TurnReceived (received : Result (Header F * RequestPdu)) (wr : WriteAll) (fl : Flush).

Inductive Step :=
  | Next
  | End (reason : Disconnect)
  | Panicked.

(** The body of the loop of [exchange], from a decoded request on. *)
Definition answer_request (header : Header F) (request : RequestPdu) (wr : WriteAll) (fl : Flush)
    (s : SvcState svc) (t : Writer) : Step * SvcState svc * Writer :=
  let unit := unit_of header in
  let broadcast := addresses_all unit in
  if negb broadcast && foreign config unit then (Next, s, t) else
  let function := RequestPdu_function request in
  let '(answer, s') := on_request svc conn unit request s in
  match response_of function answer with
  | None => (Next, s', t)
  | Some response =>
      if broadcast then (Next, s', t) else
      match send_response F header response wr fl t with
      | (Ok _, t') => (Next, s', t')
      | (Err error, t') =>
          let s'' := on_error svc conn error s' in
          if ends_stream error then (End (DisconnectFailed error), s'', t') else (Next, s'', t')
      | (Panic, t') => (Panicked, s', t')
      end
  end.

(** One pass of the loop of [exchange]. *)
Definition turn (tn : Turn) (s : SvcState svc) (t : Writer) : Step * SvcState svc * Writer :=
  match tn with
  | TurnShutdown => (End ShuttingDown, s, t)
  | TurnReceived (Ok (header, request)) wr fl => answer_request header request wr fl s t
  | TurnReceived (Err (Io UnexpectedEof _)) _ _ => (End Closed, s, t)
  | TurnReceived (Err error) _ _ =>
      let s' := on_error svc conn error s in
      if ends_stream error || negb (is_self_locating (boundary F))
      then (End (DisconnectFailed error), s', t) else (Next, s', t)
  | TurnReceived Panic _ _ => (Panicked, s, t)
  end.

Inductive Served :=
  | Ended (reason : Disconnect)
  | Idle
  | Crashed.

(** [exchange]. *)
Fixpoint exchange_loop (turns : list Turn) (s : SvcState svc) (t : Writer)
    : Served * SvcState svc * Writer :=
  match turns with
  | [] => (Idle, s, t)
  | tn :: turns' =>
      match turn tn s t with
      | (Next, s', t') => exchange_loop turns' s' t'
      | (End reason, s', t') => (Ended reason, s', t')
      | (Panicked, s', t') => (Crashed, s', t')
      end
  end.

(** [serve_connection]: its outcome once the connection ended. *)
Definition serve_connection (turns : list Turn) (s : SvcState svc) (t : Writer)
    : option (Result unit) * SvcState svc * Writer :=
  match on_connect svc conn s with
  | (Reject, s') => (Some (Ok tt), on_disconnect svc conn Rejected s', t)
  | (Accept, s') =>
      match exchange_loop turns s' t with
      | (Idle, s'', t') => (None, s'', t')
      | (Crashed, s'', t') => (Some Panic, s'', t')
      | (Ended reason, s'', t') =>
          let outcome := match reason with DisconnectFailed error => Err error | _ => Ok tt end in
          (Some outcome, on_disconnect svc conn reason s'', t')
      end
  end.
End serving.

Arguments TurnShutdown {F}.
Arguments TurnReceived {F} received wr fl.

(** ** Datagrams *)

Definition UDP_CONNECTION : ConnectionId := mkConnectionId 0.

(** [serve_datagram]: the datagrams sent and the service after it. *)
Definition serve_datagram {w : Winnow} (svc : Service) (config : ServerConfig) (conn : Connection)
    (header : MbapHeader) (request : RequestPdu) (sent : SocketSend) (s : SvcState svc)
    : list (list Z) * SvcState svc :=
  let unit := unit_of (F := Tcp_framing) header in
  if foreign config unit then ([], s) else
  let function := RequestPdu_function request in
  let '(answer, s') := on_request svc conn unit request s in
  match response_of function answer with
  | None => ([], s')
  | Some response =>
      match send_datagram_response_into Tcp_framing header response sent [] with
      | (Err error, _, out) => (out, on_error svc conn error s')
      | (_, _, out) => (out, s')
      end
  end.

(** ** Waiting for a connection or a datagram *)

(** [Accepted]. *)
Inductive Accepted (T : Type) :=
  | Got (accepted : T)
  | DoneServing (result : Result unit).
Arguments Got {T} accepted.
Arguments DoneServing {T} result.

(** What the selects of [next_accept] and [next_datagram] see: the shutdown
    signal, or an outcome of the listener or socket.  An error hook runs to
    completion unless the next event is the signal, which drops it. *)
Inductive Arrival (T : Type) :=
  | SignalSeen
  | Arrived (r : Result T).
Arguments SignalSeen {T}.
Arguments Arrived {T} r.

Section waiting.
Context (svc : Service) {T : Type}.

(** What an error of the listener does, once reported to [hook]. *)
Definition after_error (hook : Error → SvcState svc → AcceptErrorAction * SvcState svc)
    (error : Error) (s : SvcState svc) : option (Accepted T) * SvcState svc :=
  match hook error s with
  | (StopServing, s') => (Some (DoneServing (Err error)), s')
  | (ContinueServing, s') => (None, s')
  end.

(** [next_accept]; [None] when it is still waiting at the end of the trace. *)
Fixpoint next_accept (trace : list (Arrival T)) (s : SvcState svc)
    : option (Accepted T) * SvcState svc * list (Arrival T) :=
  match trace with
  | [] => (None, s, [])
  | SignalSeen :: trace' => (Some (DoneServing (Ok tt)), s, trace')
  | Arrived (Ok accepted) :: trace' => (Some (Got accepted), s, trace')
  | Arrived Panic :: trace' => (Some (DoneServing Panic), s, trace')
  | Arrived (Err error) :: trace' =>
      match trace' with
      | SignalSeen :: trace'' => (Some (DoneServing (Ok tt)), s, trace'')
      | _ =>
          match after_error (on_accept_error svc) error s with
          | (Some done_, s') => (Some done_, s', trace')
          | (None, s') => next_accept trace' s'
          end
      end
  end.

(** [next_datagram]. *)
Fixpoint next_datagram (trace : list (Arrival T)) (s : SvcState svc)
    : option (Accepted T) * SvcState svc * list (Arrival T) :=
  match trace with
  | [] => (None, s, [])
  | SignalSeen :: trace' => (Some (DoneServing (Ok tt)), s, trace')
  | Arrived (Ok datagram) :: trace' => (Some (Got datagram), s, trace')
  | Arrived Panic :: trace' => (Some (DoneServing Panic), s, trace')
  | Arrived (Err (Io kind raw)) :: trace' =>
      match trace' with
      | SignalSeen :: trace'' => (Some (DoneServing (Ok tt)), s, trace'')
      | _ =>
          match after_error (on_receive_error svc) (Io kind raw) s with
          | (Some done_, s') => (Some done_, s', trace')
          | (None, s') => next_datagram trace' s'
          end
      end
  | Arrived (Err error) :: trace' =>
      next_datagram trace' (on_error svc (Connection_new UDP_CONNECTION None) error s)
  end.
End waiting.

(** [next_id], on [AtomicU64::fetch_add]. *)
Definition next_id (next_connection : Z) : ConnectionId * Z :=
  (mkConnectionId next_connection, (next_connection + 1) mod 2 ^ 64).
