(* ===== verification/ServerTheorems.v ===== *)
(** * Properties of the server *)

From S2P Require Import Prelude.
From S2P Require Import Errors.
From S2P Require Import Parse.
From S2P Require Import Value.
From S2P Require Import Function.
From S2P Require Import Exception.
From S2P Require Import Wire.
From S2P Require Import Pdu.
From S2P Require Import PduSpec.
From S2P Require Import PduRoundtrip.
From S2P Require Import Framing.
From S2P Require Import Rtu.
From S2P Require Import RtuStream.
From S2P Require Import Tcp.
From S2P Require Import Ascii.
From S2P Require Import Transport.
From S2P Require Import TransportSpec.
From S2P Require Import TransportTheorems.
From S2P Require Import Client.
From S2P Require Import ClientTheorems.
From S2P Require Import Outgoing.
From S2P Require Import Server.

(** ** What client and server owe each other

    The two halves of a framing's addressing agree. *)
Class DuplexFraming (F : Framing) {CF : ClientFraming F} {SF : ServerFraming F} := {
  request_header_unit u t : unit_of (request_header u t) = u;
  response_to_itself h : is_response_to h h = true;
  same_broadcast u : is_broadcast u = addresses_all u;
}.

#[export] Instance Tcp_duplex {w : Winnow} : DuplexFraming Tcp_framing.
Proof. split; try done. intros h. by apply bool_decide_true. Qed.
#[export] Instance Rtu_duplex {w : Winnow} {c : Crc16} : DuplexFraming Rtu_framing.
Proof. split; try done. intros h. by apply bool_decide_true. Qed.
#[export] Instance Ascii_duplex {w : Winnow} : DuplexFraming Ascii_framing.
Proof. split; try done. intros h. by apply bool_decide_true. Qed.
#[export] Instance RtuOverTcp_duplex {w : Winnow} {c : Crc16} : DuplexFraming RtuOverTcp_framing.
Proof. split; try done. intros h. by apply bool_decide_true. Qed.

(** ** The serving loop *)

(** A service that also keeps what it was asked, and what it answered, in order. *)
Definition Asked : Type := UnitId * RequestPdu * (option ResponsePdu + ExceptionCode).

Definition recording (svc : Service) : Service := {|
  SvcState := SvcState svc * list Asked;
  on_request conn u request '(s, log) :=
    let '(a, s') := on_request svc conn u request s in (a, (s', log ++ [(u, request, a)]));
  on_connect conn '(s, log) := let '(a, s') := on_connect svc conn s in (a, (s', log));
  on_disconnect conn reason '(s, log) := (on_disconnect svc conn reason s, log);
  on_error conn error '(s, log) := (on_error svc conn error s, log);
  on_accept_error error '(s, log) := let '(a, s') := on_accept_error svc error s in (a, (s', log));
  on_receive_error error '(s, log) := let '(a, s') := on_receive_error svc error s in (a, (s', log));
  on_tls_handshake_failed peer error '(s, log) := (on_tls_handshake_failed svc peer error s, log);
|}.

Section loop.
Context (F : Framing) {SF : ServerFraming F} (svc : Service).
Context (config : ServerConfig) (conn : Connection).

Lemma exchange_loop_app pre post s t s1 t1 :
  exchange_loop F svc config conn pre s t = (Idle, s1, t1) → exchange_loop F svc config conn (pre ++ post) s t = exchange_loop F svc config conn post s1 t1.
Proof.
  revert s t. induction pre as [|tn pre IH]; intros s t; cbn [app exchange_loop].
  - by intros [= <- <-].
  - destruct (turn F svc config conn tn s t) as [[[] s'] t']; [apply IH|done..].
Qed.

(** What a server owes an answer to: the requests of its turns that are
    broadcast or for a unit it serves, each with what the stream does to the
    answer. *)
Definition admitted (tn : Turn F) : option (Header F * RequestPdu * WriteAll) :=
  match tn with
  | TurnReceived (Ok (h, request)) wr _ =>
      if addresses_all (unit_of h) || negb (foreign config (unit_of h))
      then Some (h, request, wr) else None
  | _ => None
  end.

(** What a dispatched request is, as its service sees it. *)
Definition asked_of (m : Header F * RequestPdu * WriteAll) : UnitId * RequestPdu :=
  let '(h, request, _) := m in (unit_of h, request).

(** The bytes the stream takes for a request and the service's answer to it: the
    whole ADU, or the part of it a failing write took; none for a broadcast, a
    withheld answer, or one that does not encode. *)
Definition wire_of (m : Header F * RequestPdu * WriteAll) (answer : option ResponsePdu + ExceptionCode)
    : list Z :=
  let '(h, request, wr) := m in
  if addresses_all (unit_of h) then [] else
  match response_of (RequestPdu_function request) answer with
  | None => []
  | Some response =>
      match encode_response F h response with
      | Ok adu => match wr with WroteAll => adu | WriteFailed n _ _ => take n adu end
      | _ => []
      end
  end.

Lemma send_response_wire h resp wr fl t res t' :
  send_response F h resp wr fl t = (res, t') →
  accepted t' = accepted t ++
    match encode_response F h resp with
    | Ok adu => match wr with WroteAll => adu | WriteFailed n _ _ => take n adu end
    | _ => []
    end.
Proof.
  unfold send_response, encode_then_send, encode_response.
  destruct (encode_response_into F h resp []) as [[[]|e|] out]; cbn;
    [|intros [= <- <-]; cbn; by rewrite app_nil_r..].
  unfold send. cbn [outgoing accepted].
  destruct wr as [|n k o]; [destruct fl|]; by intros [= <- <-].
Qed.

(** A turn with a service that records: the service goes through the same, the
    record grows by the request the turn admits and its answer, and the stream
    takes the bytes of that answer. *)
Lemma turn_recorded tn s log t st s' log' t' :
  turn F (recording svc) config conn tn (s, log) t = (st, (s', log'), t') →
  turn F svc config conn tn s t = (st, s', t') ∧
  ∃ answers, log' = log ++ zip (asked_of <$> omap admitted [tn]) answers ∧
    length answers = length (omap admitted [tn]) ∧
    accepted t' = accepted t ++ mjoin (zip_with wire_of (omap admitted [tn]) answers).
Proof.
  assert (∀ (t0 : Writer) (log0 : list Asked), ∃ answers : list (option ResponsePdu + ExceptionCode),
    log0 = log0 ++ zip [] answers ∧ length answers = 0%nat ∧
    accepted t0 = accepted t0 ++ mjoin (zip_with wire_of [] answers)) as Hnone.
  { intros. exists []. cbn. by rewrite !app_nil_r. }
  destruct tn as [|[[h request]|e|] wr fl]; cbn [turn].
  - intros [= <- <- <- <-]. split; [done|]. apply Hnone.
  - cbn [omap list_omap admitted]. unfold answer_request.
    destruct (addresses_all (unit_of h)) eqn:Eb; cbn [negb andb orb].
    2: destruct (foreign config (unit_of h)) eqn:Ef; cbn [negb];
      [intros [= <- <- <- <-]; split; [done|apply Hnone]|].
    all: cbn [recording on_request on_error SvcState];
      destruct (on_request svc conn _ request s) as [a s1]; intros H;
      (assert (∀ later : list Z,
        accepted t' = accepted t ++ later → wire_of (h, request, wr) a = later →
        log' = log ++ [(unit_of h, request, a)] →
        ∃ answers, log' = log ++ zip (asked_of <$> [(h, request, wr)]) answers ∧
          length answers = length [(h, request, wr)] ∧
          accepted t' = accepted t ++ mjoin (zip_with wire_of [(h, request, wr)] answers)) as Hone
        by (intros later H1 H2 H3; exists [a]; split_and!; [done|done|];
            cbn [zip_with mjoin list_join]; by rewrite app_nil_r, H2)).
    + destruct (response_of _ a) eqn:Er; injection H as <- <- <- <-;
        (split; [done|]; apply (Hone []); [by rewrite app_nil_r| |done]); unfold wire_of; by rewrite Eb.
    + destruct (response_of _ a) as [resp|] eqn:Er.
      2: { injection H as <- <- <- <-. split; [done|]. apply (Hone []); [by rewrite app_nil_r| |done].
           unfold wire_of. by rewrite Eb, Er. }
      destruct (send_response _ _ _ _ _ _) as [res t1] eqn:Es. apply send_response_wire in Es.
      destruct res as [[]|e|]; [|destruct (ends_stream e)|]; injection H as <- <- <- <-;
        (split; [done|]; eapply Hone; [exact Es| |done]); unfold wire_of; by rewrite Eb, Er.
  - cbn [omap list_omap admitted recording on_error SvcState]. intros H.
    destruct e as []; try (destruct (_ || _)); try (destruct kind; try (destruct (_ || _)));
      injection H as <- <- <- <-; (split; [done|apply Hnone]).
  - intros [= <- <- <- <-]. split; [done|]. apply Hnone.
Qed.

Lemma exchange_recorded turns s log t r s' log' t' :
  exchange_loop F (recording svc) config conn turns (s, log) t = (r, (s', log'), t') →
  exchange_loop F svc config conn turns s t = (r, s', t') ∧
  ∃ seen unseen answers, turns = seen ++ unseen ∧ (r = Idle → unseen = []) ∧
    log' = log ++ zip (asked_of <$> omap admitted seen) answers ∧
    length answers = length (omap admitted seen) ∧
    accepted t' = accepted t ++ mjoin (zip_with wire_of (omap admitted seen) answers).
Proof.
  revert s log t. induction turns as [|tn turns IH]; intros s log t; cbn [exchange_loop].
  { intros [= <- <- <- <-]. split; [done|]. exists [], [], []. cbn. by rewrite !app_nil_r. }
  destruct (turn F (recording svc) config conn tn (s, log) t) as [[st [s1 log1]] t1] eqn:Et.
  apply turn_recorded in Et as (-> & answers & -> & Hl & Ha).
  destruct st; [|intros [= <- <- <- <-]; split; [done|]; by exists [tn], turns, answers..].
  intros H. apply IH in H as (H & seen & unseen & answers' & -> & Hi & -> & Hl' & Ha').
  split; [done|]. exists (tn :: seen), unseen, (answers ++ answers').
  assert (omap admitted (tn :: seen) = omap admitted [tn] ++ omap admitted seen) as ->
    by apply (omap_app _ [tn] seen).
  rewrite fmap_app, !zip_with_app, length_app, length_app, Hl, Hl' by (by rewrite ?length_fmap).
  rewrite join_app, Ha', Ha, <- !app_assoc. by split_and!.
Qed.
End loop.

(** ** Claims *)

(** C19. A server asks its service exactly what it received, and writes exactly
    what the service answered.  Whatever the turns of a connection bring, a service
    that records goes through the same states; of the turns the connection went
    through (all of them, unless one ended it), each request that was broadcast or
    for a unit the server serves was dispatched, once and in the order received,
    and no other; and the bytes the stream took are those answers and nothing
    else, in that order: each the whole ADU of what the service said, or of the
    exception for the request's function where it refused, under the header of its
    request, or the part of it taken by a write that failed; none for a broadcast,
    an answer withheld or one that does not encode (SV-R-011 to SV-R-013, SV-R-021,
    SV-R-023). *)
Theorem server_writes_only_answers (F : Framing) {SF : ServerFraming F} svc config conn turns s t
    r s' log t' :
  exchange_loop F (recording svc) config conn turns (s, []) t = (r, (s', log), t') →
  exchange_loop F svc config conn turns s t = (r, s', t') ∧
  ∃ seen unseen answers, turns = seen ++ unseen ∧ (r = Idle → unseen = []) ∧
    log = zip (asked_of F <$> omap (admitted F config) seen) answers ∧
    length answers = length (omap (admitted F config) seen) ∧
    accepted t' = accepted t ++ mjoin (zip_with (wire_of F) (omap (admitted F config) seen) answers).
Proof.
  intros H. destruct (exchange_recorded F svc config conn turns s [] t r s' log t' H)
    as (H1 & seen & unseen & answers & H2 & H3 & H4 & H5). split; [done|]. by exists seen, unseen, answers.
Qed.

(** On RTU and on ASCII a frame that does not decode costs exactly that
    frame: serving goes on as if it had not arrived, but for the report; on
    framings that lose the next boundary with it, it ends the connection
    (SV-R-050, SV-R-065, FR-R-144). *)
Theorem bad_frame_costs_itself (F : Framing) {SF : ServerFraming F} svc config conn pre post e wr fl
    s t s1 t1 :
  ends_stream e = false → exchange_loop F svc config conn pre s t = (Idle, s1, t1) →
  exchange_loop F svc config conn (pre ++ TurnReceived (Err e) wr fl :: post) s t =
  if is_self_locating (boundary F)
  then exchange_loop F svc config conn post (on_error svc conn e s1) t1
  else (Ended (DisconnectFailed e), on_error svc conn e s1, t1).
Proof.
  intros He H. rewrite (exchange_loop_app F svc config conn pre _ s t s1 t1) by done.
  cbn [exchange_loop turn]. destruct e; try discriminate He; cbn [ends_stream orb];
    by destruct (is_self_locating (boundary F)).
Qed.

(** A datagram that does not decode is reported and costs nothing else: whatever
    the hooks answer, waiting goes on (SV-R-075, SV-R-080). *)
Lemma undecodable_datagrams_skipped svc {T} (errors : list Error) (rest_ : list (Arrival T)) s :
  Forall (λ e, ∀ k o, e ≠ Io k o) errors →
  next_datagram svc (((λ e, Arrived (Err e)) <$> errors) ++ rest_) s =
  next_datagram svc rest_
    (foldl (λ s e, on_error svc (Connection_new UDP_CONNECTION None) e s) s errors).
Proof.
  intros H. revert s. induction H as [|e errors He Hes IH]; intros s; [done|].
  rewrite fmap_cons. cbn [app foldl]. rewrite <- IH.
  destruct e; try done. by destruct (He kind raw_os_error).
Qed.

(** Serving datagrams fails only with an error of the socket the service chose to
    stop on (SV-R-073, SV-R-078). *)
Lemma next_datagram_failure svc {T} (trace : list (Arrival T)) s e s' rest_ :
  next_datagram svc trace s = (Some (DoneServing (Err e)), s', rest_) →
  ∃ s0 k o, e = Io k o ∧ on_receive_error svc e s0 = (StopServing, s').
Proof.
  revert s. induction trace as [|a trace IH]; intros s; [done|].
  destruct a as [|[d|error|]]; [done|done| |done]. cbn [next_datagram].
  destruct error; try (by apply IH).
  destruct trace as [|[|r] trace]; [|done|]; unfold after_error;
    (destruct (on_receive_error svc (Io kind raw_os_error) s) as [[] s1] eqn:E; [apply IH|]);
    intros [= <- <- _]; by exists s, kind, raw_os_error.
Qed.

(** ** The notifications of a connection *)

Inductive Notification :=
  | Connected
  | Requested (u : UnitId) (request : RequestPdu)
  | Erred (error : Error)
  | Disconnected (reason : Disconnect).

(** A service that also keeps the notifications it got, in order. *)
Definition logged (svc : Service) : Service := {|
  SvcState := SvcState svc * list Notification;
  on_request conn u request '(s, log) :=
    let '(a, s') := on_request svc conn u request s in (a, (s', log ++ [Requested u request]));
  on_connect conn '(s, log) :=
    let '(a, s') := on_connect svc conn s in (a, (s', log ++ [Connected]));
  on_disconnect conn reason '(s, log) :=
    (on_disconnect svc conn reason s, log ++ [Disconnected reason]);
  on_error conn error '(s, log) := (on_error svc conn error s, log ++ [Erred error]);
  on_accept_error error '(s, log) :=
    let '(a, s') := on_accept_error svc error s in (a, (s', log));
  on_receive_error error '(s, log) :=
    let '(a, s') := on_receive_error svc error s in (a, (s', log));
  on_tls_handshake_failed peer error '(s, log) := (on_tls_handshake_failed svc peer error s, log);
|}.

Definition during (n : Notification) : Prop :=
  match n with Requested _ _ | Erred _ => True | _ => False end.

Section notifications.
Context (F : Framing) {SF : ServerFraming F} (svc : Service).
Context (config : ServerConfig) (conn : Connection).

(** A pass of the loop only appends notifications of requests and errors. *)
Definition appends (log log' : list Notification) : Prop :=
  ∃ mid, log' = log ++ mid ∧ Forall during mid.

Lemma appends_refl log : appends log log.
Proof. exists []. by rewrite app_nil_r. Qed.

Lemma appends_snoc log log' n : appends log log' → during n → appends log (log' ++ [n]).
Proof.
  intros (mid & -> & Hm) Hn. exists (mid ++ [n]). rewrite app_assoc. split; [done|].
  apply Forall_app. by split; [|constructor].
Qed.

Lemma appends_trans l1 l2 l3 : appends l1 l2 → appends l2 l3 → appends l1 l3.
Proof.
  intros (m1 & -> & H1) (m2 & -> & H2). exists (m1 ++ m2). rewrite app_assoc.
  split; [done|]. by apply Forall_app.
Qed.

Lemma turn_log tn s log t st s' log' t' :
  turn F (logged svc) config conn tn (s, log) t = (st, (s', log'), t') → appends log log'.
Proof.
  destruct tn as [|[[h request]|e|] wr fl]; cbn [turn].
  - intros [= <- <- <- <-]. apply appends_refl.
  - unfold answer_request. destruct (negb _ && _); [intros [= <- <- <- <-]; apply appends_refl|].
    cbn [logged on_request on_error SvcState].
    destruct (on_request svc conn _ request s) as [a s1].
    assert (appends log (log ++ [Requested (unit_of h) request])) as H1
      by (by apply appends_snoc; [apply appends_refl|]).
    destruct (response_of _ a); [|by intros [= <- <- <- <-]].
    destruct (addresses_all _); [by intros [= <- <- <- <-]|].
    destruct (send_response _ _ _ _ _ _) as [[[]|e|] t1]; try (by intros [= <- <- <- <-]).
    destruct (ends_stream e); intros [= <- <- <- <-]; by apply appends_snoc.
  - assert (appends log (log ++ [Erred e])) as H1 by (by apply appends_snoc; [apply appends_refl|]).
    intros H. destruct e as []; try (destruct (_ || _); by injection H as <- <- <- <-).
    destruct kind; try (destruct (_ || _); by injection H as <- <- <- <-).
    injection H as <- <- <- <-. apply appends_refl.
  - intros [= <- <- <- <-]. apply appends_refl.
Qed.

Lemma exchange_log turns s log t r s' log' t' :
  exchange_loop F (logged svc) config conn turns (s, log) t = (r, (s', log'), t') →
  appends log log'.
Proof.
  revert s log t. induction turns as [|tn turns IH]; intros s log t; cbn [exchange_loop].
  { intros [= <- <- <- <-]. apply appends_refl. }
  destruct (turn _ _ _ _ _ _ _) as [[st [s1 log1]] t1] eqn:Et. apply turn_log in Et.
  destruct st; [|by intros [= <- <- <- <-]..]. intros H. apply IH in H. by eapply appends_trans.
Qed.

(** C29. The notifications of a connection that ended: it is announced first,
    ends exactly once and last, and only requests and errors come between; what
    [serve_connection] returns is what the last notification says, and a
    rejected connection is closed unread and unwritten (SV-R-032, SV-R-033,
    SV-R-062). *)
Theorem connection_lifecycle turns s t outcome s' log t' :
  serve_connection F (logged svc) config conn turns (s, []) t = (Some outcome, (s', log), t') →
  outcome ≠ Panic →
  ∃ mid reason, log = [Connected] ++ mid ++ [Disconnected reason] ∧ Forall during mid ∧
    outcome = match reason with DisconnectFailed e => Err e | _ => Ok tt end ∧
    (fst (on_connect svc conn s) = Reject → reason = Rejected ∧ mid = [] ∧ t' = t).
Proof.
  unfold serve_connection. cbn [logged on_connect on_disconnect SvcState].
  destruct (on_connect svc conn s) as [[] s1]; cbn [app fst].
  - destruct (exchange_loop _ _ _ _ _ _ _) as [[[reason| |] [s2 log2]] t2] eqn:E; try done;
      [|by intros [= <- <- <- <-]]. apply exchange_log in E as (mid & -> & Hm).
    intros [= <- <- <- <-] _. exists mid, reason. by split_and!.
  - intros [= <- <- <- <-] _. by exists [], Rejected.
Qed.
End notifications.

(** ** Witnesses *)

Section witnesses.
Local Existing Instance winnow_model.
Local Existing Instance winnow_model_spec.
Local Existing Instance crc_model.

(** A service that counts its requests: it names itself to unit 1, refuses
    everybody else, and otherwise keeps the defaults. *)
Definition counting : Service := {|
  SvcState := nat;
  on_request _ u _ n :=
    (if bool_decide (u = mkUnitId 1) then inl (Some (Resp_ReportServerId [42]))
     else inr EC_IllegalFunction, S n);
  on_connect := default_on_connect;
  on_disconnect := default_on_disconnect;
  on_error := default_on_error;
  on_accept_error := default_on_accept_error;
  on_receive_error e n := (StopServing, n);
  on_tls_handshake_failed := default_on_tls_handshake_failed;
|}.

Definition any_unit : ServerConfig := mkServerConfig None.
Definition link : Connection := Connection_new (mkConnectionId 1) None.
Definition blank : Writer := mkWriter [] [].

Definition rtu_turns : list (Turn Rtu_framing) :=
  [TurnReceived (F := Rtu_framing) (Ok (mkUnitId 0, Req_ReportServerId)) WroteAll Flushed;
   TurnReceived (F := Rtu_framing) (Ok (mkUnitId 1, Req_ReportServerId)) WroteAll Flushed].

Definition rtu_asked : list Asked :=
  [(mkUnitId 0, Req_ReportServerId, inr EC_IllegalFunction);
   (mkUnitId 1, Req_ReportServerId, inl (Some (Resp_ReportServerId [42])))].

Lemma server_writes_only_answers_witness :
  exchange_loop Rtu_framing counting any_unit link rtu_turns 0%nat blank =
    (Idle, 2%nat, mkWriter [] (rtu_adu (mkUnitId 1) [17; 1; 42])) ∧
  ∃ seen unseen answers, rtu_turns = seen ++ unseen ∧ (Idle = Idle → unseen = []) ∧
    rtu_asked = zip (asked_of Rtu_framing <$> omap (admitted Rtu_framing any_unit) seen) answers ∧
    length answers = length (omap (admitted Rtu_framing any_unit) seen) ∧
    rtu_adu (mkUnitId 1) [17; 1; 42] = [] ++
      mjoin (zip_with (wire_of Rtu_framing) (omap (admitted Rtu_framing any_unit) seen) answers).
Proof.
  apply (server_writes_only_answers Rtu_framing counting any_unit link rtu_turns 0%nat blank
    Idle 2%nat rtu_asked (mkWriter [] (rtu_adu (mkUnitId 1) [17; 1; 42]))).
  vm_compute. reflexivity.
Defined.

Lemma bad_frame_costs_itself_witness :
  exchange_loop Rtu_framing counting any_unit link
    ([] ++ TurnReceived (Err (Checksum 1 2)) WroteAll Flushed :: rtu_turns) 0%nat blank =
  exchange_loop Rtu_framing counting any_unit link rtu_turns 0%nat blank.
Proof.
  apply (bad_frame_costs_itself Rtu_framing counting any_unit link [] rtu_turns
    (Checksum 1 2) WroteAll Flushed 0%nat blank 0%nat blank); reflexivity.
Defined.

Lemma connection_lifecycle_witness :
  ∃ mid reason,
    [Connected; Requested (mkUnitId 0) Req_ReportServerId;
     Requested (mkUnitId 1) Req_ReportServerId; Disconnected ShuttingDown] =
    [Connected] ++ mid ++ [Disconnected reason] ∧ Forall during mid ∧
    Ok tt = match reason with DisconnectFailed e => Err e | _ => Ok tt end ∧
    (Accept = Reject → reason = Rejected ∧ mid = [] ∧
     mkWriter [] (rtu_adu (mkUnitId 1) [17; 1; 42]) = blank).
Proof.
  apply (connection_lifecycle Rtu_framing counting any_unit link (rtu_turns ++ [TurnShutdown])
    0%nat blank (Ok tt) 2%nat).
  - vm_compute. reflexivity.
  - done.
Defined.
End witnesses.
