(* ===== verification/StackTests.v ===== *)
(** * Unit tests of the layers around the frames

    The tests of [src/parse.rs], [src/error.rs], [src/transport/serial.rs],
    [rs485.rs] and [rtu.rs], [src/client/framing.rs], [src/server/framing.rs] and
    [src/server/service.rs], run on the model.  What a test takes from its
    machine (the [errno] numbers, a device that is not there, a terminal that
    refuses an [ioctl]) is an input of the model and given here.  Left out are the
    tests of the serde derives, of an [impl] that must exist, and of hardware. *)

From S2P Require Import Prelude.
From S2P Require Import Errors.
From S2P Require Import Tests.
From S2P Require Import Parse.
From S2P Require Import Value.
From S2P Require Import Function.
From S2P Require Import Exception.
From S2P Require Import Display.
From S2P Require Import Pdu.
From S2P Require Import Framing.
From S2P Require Import Rtu.
From S2P Require Import RtuStream.
From S2P Require Import Tcp.
From S2P Require Import Ascii.
From S2P Require Import Serial.
From S2P Require Import Transport.
From S2P Require Import Outgoing.
From S2P Require Import Framed.
From S2P Require Import TcpConn.
From S2P Require Import SerialPort.
From S2P Require Import Client.
From S2P Require Import Server.

#[export] Instance ListenerFailure_eq_dec : EqDecision ListenerFailure.
Proof. solve_decision. Defined.
#[export] Instance DataBits_eq_dec : EqDecision DataBits.
Proof. solve_decision. Defined.
#[export] Instance Parity_eq_dec : EqDecision Parity.
Proof. solve_decision. Defined.
#[export] Instance StopBits_eq_dec : EqDecision StopBits.
Proof. solve_decision. Defined.
#[export] Instance FlowControl_eq_dec : EqDecision FlowControl.
Proof. solve_decision. Defined.
#[export] Instance RtsPolarity_eq_dec : EqDecision RtsPolarity.
Proof. solve_decision. Defined.
#[export] Instance Rs485Config_eq_dec : EqDecision Rs485Config.
Proof. solve_decision. Defined.
#[export] Instance SerialConfig_eq_dec : EqDecision SerialConfig.
Proof. solve_decision. Defined.
#[export] Instance TsDataBits_eq_dec : EqDecision TsDataBits.
Proof. solve_decision. Defined.
#[export] Instance TsParity_eq_dec : EqDecision TsParity.
Proof. solve_decision. Defined.
#[export] Instance TsStopBits_eq_dec : EqDecision TsStopBits.
Proof. solve_decision. Defined.
#[export] Instance TsFlowControl_eq_dec : EqDecision TsFlowControl.
Proof. solve_decision. Defined.
#[export] Instance KernelRs485_eq_dec : EqDecision KernelRs485.
Proof. solve_decision. Defined.

Section tests.
Local Existing Instance winnow_model.
Local Existing Instance crc_model.

(** ** [parse.rs] *)

(** FR-R-003 *)
Definition ut_reads_u16_big_endian : Result unit :=
  assert_eq (run [0x12; 0x34] be_u16) (Ok 0x1234).

(** FR-R-131, FR-E-002 *)
Definition ut_truncated_reports_expected_and_supplied : Result unit :=
  assert_eq (run [0x12] be_u16) (Err (Truncated 2 1)).

(** FR-R-130, FR-E-001 *)
Definition ut_empty_input_errors : Result unit := assert_eq (run [] be_u8) (Err (Truncated 1 0)).

(** FR-R-132, FR-E-003 *)
Definition ut_trailing_bytes_rejected : Result unit :=
  assert_eq (run [0x12; 0x34; 0x56] be_u16) (Err (TrailingBytes 1)).

(** FR-R-133 *)
Definition ut_exact_consumption_succeeds : Result unit := assert_eq (run [0xAB] be_u8) (Ok 0xAB).

(** FR-R-043 *)
Definition ut_domain_error_propagates : Result unit :=
  let parser := fail (A := Z) (TrailingBytes 7) in
  assert_eq (run [0x00] parser) (Err (TrailingBytes 7)).

(** FR-R-130 *)
Definition ut_structural_failure_is_malformed : Result unit :=
  let parser : P Z := λ _, PErr (Backtrack (mkParseFailure None)) in
  assert_eq (run [0x00] parser) (Err Malformed).

(** FR-R-159 *)
Definition ut_residual_decode_failure_is_malformed : Result unit :=
  let parser : P Z := λ _, PErr (Cut (mkParseFailure None)) in
  assert_eq (run_all [0x00; 0x01] parser) (Err Malformed).

Definition parse_tests : list (Result unit) :=
  [ut_reads_u16_big_endian; ut_truncated_reports_expected_and_supplied; ut_empty_input_errors;
   ut_trailing_bytes_rejected; ut_exact_consumption_succeeds; ut_domain_error_propagates;
   ut_structural_failure_is_malformed; ut_residual_decode_failure_is_malformed].

(** ** [error.rs]

    The kinds the tests name and the model does not: their places in the
    standard library's enumeration. *)
Definition ConnectionRefused : ErrorKind := KindNo 2.
Definition BrokenPipe : ErrorKind := KindNo 11.
Definition WouldBlock : ErrorKind := KindNo 13.
Definition Interrupted : ErrorKind := KindNo 35.
Definition OutOfMemory : ErrorKind := KindNo 38.

(** The numbers of Linux. *)
Definition test_errno : LibcErrno := {|
  ECONNABORTED := 103; ECONNRESET := 104; EINTR := 4; EAGAIN := 11; EWOULDBLOCK := 11;
  EMFILE := 24; ENFILE := 23; ENOBUFS := 105; ENOMEM := 12; EPERM := 1; ETIMEDOUT := 110;
  ENETDOWN := 100; EPROTO := 71; ENOPROTOOPT := 92; EHOSTDOWN := 112; ENONET := 64;
  EHOSTUNREACH := 113; EOPNOTSUPP := 95; ENETUNREACH := 101;
|}.
(** [std::io::Error::from_raw_os_error], whose kind no test looks at, and
    [std::io::Error::from]. *)
Definition from_raw_os_error (code : Z) : IoError := mkIoError OtherKind (Some code).
Definition from_kind (kind : ErrorKind) : IoError := mkIoError kind None.

Definition EBADF : Z := 9.
Definition ENOTSOCK : Z := 88.

Definition ut_stream_failures_are_distinguished_from_frame_failures : Result unit :=
  assert (ends_stream (Io BrokenPipe None));;
  assert (ends_stream ConnectionClosed);;
  assert (ends_stream (Timeout "response"));;
  assert (negb (ends_stream Malformed));;
  assert (negb (ends_stream (Checksum 1 2)));;
  assert (negb (ends_stream (Truncated 8 3)));;
  assert (negb (ends_stream (InvalidFunctionCode 0x99))).

(** TR-R-067 *)
Definition ut_tls_handshake_is_distinct_from_io_and_timeout : Result unit :=
  let handshake := TlsHandshake 0 None in
  assert_ne handshake (Io OtherKind None);;
  assert_ne handshake (Timeout "connect").

(** TR-R-040, TR-R-099 *)
Definition ut_io_error_maps_to_kind : Result unit :=
  let error := Error_from (from_kind ConnectionRefused) in
  assert_eq error (Io ConnectionRefused None).

(** TR-R-099 *)
Definition ut_io_error_keeps_raw_os_error : Result unit :=
  let os := from_raw_os_error 5 in
  let kind := io_kind os in
  assert_eq (Error_from os) (Io kind (Some 5));;
  match Error_from (from_kind OtherKind) with
  | Io _ raw_os_error => assert_eq raw_os_error None
  | _ => Panic
  end.

(** TR-R-100 *)
Definition ut_io_display_appends_os_code : Result unit :=
  let kind := OtherKind in
  let display := Error_display (λ _, "") in
  assert_eq (display (Io kind (Some 105))) "I/O error: other error (os error 105)";;
  assert_eq (display (Io kind None)) "I/O error: other error".

(** TR-R-101 *)
Definition ut_listener_failure_is_none_off_io : Result unit :=
  let failure := listener_failure test_errno Linux in
  assert_eq (failure Malformed) None;;
  assert_eq (failure ConnectionClosed) None;;
  assert_eq (failure (Timeout "connect")) None.

Definition classify_os (code : Z) : option ListenerFailure :=
  listener_failure test_errno Linux (Error_from (from_raw_os_error code)).

(** TR-R-102, TR-R-104 *)
Definition ut_unix_transient_codes_classify_transient : Result unit :=
  let c := test_errno in
  let codes := [ECONNABORTED c; ECONNRESET c; EINTR c; EAGAIN c; EWOULDBLOCK c; EMFILE c; ENFILE c;
    ENOBUFS c; ENOMEM c; EPERM c; ETIMEDOUT c; ENETDOWN c; EPROTO c; ENOPROTOOPT c; EHOSTDOWN c;
    ENONET c; EHOSTUNREACH c; EOPNOTSUPP c; ENETUNREACH c] in
  for_each codes (λ code, assert_eq (classify_os code) (Some Transient)).

(** TR-R-103 *)
Definition ut_other_os_codes_classify_fatal : Result unit :=
  for_each [EBADF; EINVAL {| ENOTTY := 25; EINVAL := 22; ENOSYS := 38 |}; ENOTSOCK] (λ code,
    assert_eq (classify_os code) (Some Fatal)).

(** TR-R-103, TR-E-049 *)
Definition ut_io_without_os_code_is_fatal : Result unit :=
  for_each [WouldBlock; Interrupted] (λ kind,
    assert_eq (listener_failure test_errno Linux (Io kind None)) (Some Fatal)).

(** TR-E-048 *)
Definition ut_empty_table_classifies_everything_fatal : Result unit :=
  assert_eq (classify (Some 10054) []) Fatal;;
  assert_eq (classify None []) Fatal.

(** TR-R-102, TR-R-105, SV-E-039, SV-E-042 *)
Definition ut_windows_transient_table : Result unit :=
  assert_eq (len WINDOWS_TRANSIENT) 7;;
  for_each [10054; 10053; 10024; 10055; 10004; 10035; 10040] (λ code,
    assert (existsb (Z.eqb code) WINDOWS_TRANSIENT));;
  assert_eq (classify (Some 10054) WINDOWS_TRANSIENT) Transient;;
  assert_eq (classify (Some 10040) WINDOWS_TRANSIENT) Transient.

Definition error_tests : list (Result unit) :=
  [ut_stream_failures_are_distinguished_from_frame_failures;
   ut_tls_handshake_is_distinct_from_io_and_timeout; ut_io_error_maps_to_kind;
   ut_io_error_keeps_raw_os_error; ut_io_display_appends_os_code;
   ut_listener_failure_is_none_off_io; ut_unix_transient_codes_classify_transient;
   ut_other_os_codes_classify_fatal; ut_io_without_os_code_is_fatal;
   ut_empty_table_classifies_everything_fatal; ut_windows_transient_table].

(** ** [transport/serial.rs] *)

Definition from_micros (n : Z) : Z := n * 1000.
Definition from_millis (n : Z) : Z := n * 1000000.

Definition with_baud_rate (rate : Z) (c : SerialConfig) : SerialConfig :=
  mkSerialConfig rate (data_bits c) (parity c) (stop_bits c) (flow_control c) (rs485 c).
Definition with_parity (p : Parity) (c : SerialConfig) : SerialConfig :=
  mkSerialConfig (baud_rate c) (data_bits c) p (stop_bits c) (flow_control c) (rs485 c).
Definition with_stop_bits (s : StopBits) (c : SerialConfig) : SerialConfig :=
  mkSerialConfig (baud_rate c) (data_bits c) (parity c) s (flow_control c) (rs485 c).
Definition with_rs485 (r : option Rs485Config) (c : SerialConfig) : SerialConfig :=
  mkSerialConfig (baud_rate c) (data_bits c) (parity c) (stop_bits c) (flow_control c) r.

(** TR-R-031 *)
Definition ut_serial_defaults_are_19200_8e1 : Result unit :=
  assert_eq SerialConfig_default (mkSerialConfig 19200 Eight Even One FlowNone None).

(** TR-R-011 *)
Definition ut_interframe_interval_from_baud : Result unit :=
  let at_9600 := with_baud_rate 9600 SerialConfig_default in
  assert_eq (inter_frame_interval at_9600) (Ok 4010416);;
  let no_parity := with_parity ParityNone at_9600 in
  assert_eq (inter_frame_interval no_parity) (Ok 3645833);;
  let two_stop := with_stop_bits Two at_9600 in
  assert_eq (inter_frame_interval two_stop) (Ok 4375000).

(** TR-R-011, TR-R-086 *)
Definition ut_interframe_interval_is_fixed_above_19200 : Result unit :=
  assert_eq (inter_frame_interval SerialConfig_default) (Ok 2005208);;
  for_each [19201; 38400; 57600; 115200] (λ rate,
    let config := with_baud_rate rate SerialConfig_default in
    assert_eq (inter_frame_interval config) (Ok (from_micros 1750))).

(** TR-R-031 *)
Definition ut_zero_baud_rate_is_a_configuration_error : Result unit :=
  let config := with_baud_rate 0 SerialConfig_default in
  assert_eq (inter_frame_interval config) (Err (Configuration "baud_rate")).

(** TR-R-052, TR-R-092 *)
Definition ut_rs485_field_default_is_none : Result unit :=
  assert_eq (rs485 SerialConfig_default) None.

Definition serial_tests : list (Result unit) :=
  [ut_serial_defaults_are_19200_8e1; ut_interframe_interval_from_baud;
   ut_interframe_interval_is_fixed_above_19200; ut_zero_baud_rate_is_a_configuration_error;
   ut_rs485_field_default_is_none].

(** ** [transport/rs485.rs] *)

(** TR-R-050 *)
Definition ut_rs485_flags_and_delays_assembled : Result unit :=
  let config := mkRs485Config High (from_millis 3) (from_millis 7) in
  kernel ← unwrap (build config);
  assert_ne (Z.land (flags kernel) SER_RS485_ENABLED) 0;;
  assert_eq (delay_rts_before_send kernel) 3;;
  assert_eq (delay_rts_after_send kernel) 7.

(** TR-R-057 *)
Definition ut_rs485_after_send_is_complement_of_on_send : Result unit :=
  high ← unwrap (build (mkRs485Config High 0 0));
  assert_ne (Z.land (flags high) SER_RS485_RTS_ON_SEND) 0;;
  assert_eq (Z.land (flags high) SER_RS485_RTS_AFTER_SEND) 0;;
  low ← unwrap (build (mkRs485Config Low 0 0));
  assert_eq (Z.land (flags low) SER_RS485_RTS_ON_SEND) 0;;
  assert_ne (Z.land (flags low) SER_RS485_RTS_AFTER_SEND) 0.

(** TR-R-056, TR-E-030 *)
Definition ut_rs485_delay_truncated_to_milliseconds : Result unit :=
  let config := mkRs485Config High (from_micros 2999) (from_micros 1001) in
  kernel ← unwrap (build config);
  assert_eq (delay_rts_before_send kernel) 2;;
  assert_eq (delay_rts_after_send kernel) 1.

(** TR-R-093 *)
Definition ut_rs485_delay_overflow_is_configuration_error : Result unit :=
  let too_long := from_millis (U32_MAX + 1) in
  let config := mkRs485Config High too_long 0 in
  assert_eq (build config) (Err (Configuration "delay_before_send")).

(** What [/dev/null], or a pseudo-terminal, does with [TIOCSRS485]. *)
Definition ioctl_errno : IoctlErrno := {| ENOTTY := 25; EINVAL := 22; ENOSYS := 38 |}.
Definition not_a_tty : option (ErrorKind * option Z) := Some (OtherKind, Some 25).

(** TR-R-054 *)
Definition ut_rs485_ioctl_maps_enotty_to_unsupported : Result unit :=
  _ ← unwrap (build (mkRs485Config High 0 0));
  assert_eq (issue_ioctl ioctl_errno not_a_tty) (Err Rs485Unsupported).

Definition rs485_tests : list (Result unit) :=
  [ut_rs485_flags_and_delays_assembled; ut_rs485_after_send_is_complement_of_on_send;
   ut_rs485_delay_truncated_to_milliseconds; ut_rs485_delay_overflow_is_configuration_error;
   ut_rs485_ioctl_maps_enotty_to_unsupported].

(** ** [transport/rtu.rs] *)

(** A host without the device, and one on which it is a pseudo-terminal that
    delivers [trace]. *)
Definition no_such_device : SerialHost :=
  mkSerialHost (λ _, inr NoDevice) true ioctl_errno not_a_tty.
Definition pty (trace : list Event) : SerialHost :=
  mkSerialHost (λ _, inl (mkStream (mkReadHalf trace) (mkWriteHalf [] []))) true ioctl_errno not_a_tty.

(** TR-R-030 *)
Definition ut_open_serial_missing_device_is_io_error : Result unit :=
  match open_serial Rtu_framing no_such_device "/dev/rust-modbus-no-such-device"
          SerialConfig_default with
  | Err (Io _ _) => mret tt
  | _ => Panic
  end.

(** TR-R-031 *)
Definition ut_open_serial_rejects_an_unusable_configuration : Result unit :=
  let config := with_baud_rate 0 SerialConfig_default in
  error ← unwrap_err (open_serial Rtu_framing no_such_device
    "/dev/rust-modbus-no-such-device" config);
  assert_eq error (Configuration "baud_rate").

(** TR-R-031 *)
Definition ut_serial_settings_translate_to_the_backend : Result unit :=
  assert_eq (ts_data_bits Five) TsFive;;
  assert_eq (ts_data_bits Six) TsSix;;
  assert_eq (ts_data_bits Seven) TsSeven;;
  assert_eq (ts_data_bits Eight) TsEight;;
  assert_eq (ts_parity ParityNone) TsNoParity;;
  assert_eq (ts_parity Odd) TsOdd;;
  assert_eq (ts_parity Even) TsEven;;
  assert_eq (ts_stop_bits One) TsOne;;
  assert_eq (ts_stop_bits Two) TsTwo;;
  assert_eq (ts_flow_control FlowNone) TsNoFlow;;
  assert_eq (ts_flow_control Software) TsSoftware;;
  assert_eq (ts_flow_control Hardware) TsHardware.

(** TR-R-040 *)
Definition ut_backend_error_kinds_map_to_io_kinds : Result unit :=
  assert_eq (convert_backend NoDevice) (Io NotFound None);;
  assert_eq (convert_backend BackendInvalidInput) (Io InvalidInput None);;
  assert_eq (convert_backend (BackendIo BrokenPipe)) (Io BrokenPipe None);;
  assert_eq (convert_backend Unknown) (Io OtherKind None).

(** TR-R-053 *)
Definition ut_open_serial_applies_rs485_at_open : Result unit :=
  let configured := with_rs485 (Some (mkRs485Config High 0 0)) SerialConfig_default in
  error ← unwrap_err (open_serial Rtu_framing (pty []) "/dev/pts/7" configured);
  assert_eq error Rs485Unsupported;;
  _ ← unwrap (open_serial Rtu_framing (pty []) "/dev/pts/7" SerialConfig_default);
  mret tt.

(** TR-R-076: a partial frame, then silence for as long as the timer runs. *)
Definition ut_open_serial_ascii_applies_inter_character_timeout : Result unit :=
  let line := pty [Ready (Bytes (ascii_bytes ":1103")); Quiet] in
  transport ← unwrap (open_serial Ascii_framing line "/dev/pts/7" SerialConfig_default);
  match ft_recv_request transport with
  | Finished received _ => assert_eq received (Err (Timeout "ascii inter-character"))
  | Unfinished _ => Panic
  end.

Definition port_tests : list (Result unit) :=
  [ut_open_serial_missing_device_is_io_error; ut_open_serial_rejects_an_unusable_configuration;
   ut_serial_settings_translate_to_the_backend; ut_backend_error_kinds_map_to_io_kinds;
   ut_open_serial_applies_rs485_at_open; ut_open_serial_ascii_applies_inter_character_timeout].

(** ** [client/framing.rs] *)

(** CL-R-010 *)
Definition ut_request_header_per_framing : Result unit :=
  assert_eq (request_header (F := Tcp_framing) (mkUnitId 0x11) (mkTransactionId 7) : MbapHeader)
    (mkMbapHeader (mkTransactionId 7) (mkUnitId 0x11));;
  assert_eq (request_header (F := Rtu_framing) (mkUnitId 0x11) (mkTransactionId 7) : UnitId)
    (mkUnitId 0x11);;
  assert_eq (request_header (F := Ascii_framing) (mkUnitId 0x11) (mkTransactionId 7) : UnitId)
    (mkUnitId 0x11).

(** CL-R-020 *)
Definition ut_tcp_matches_on_both_header_fields : Result unit :=
  let header u t := request_header (F := Tcp_framing) (mkUnitId u) (mkTransactionId t) in
  let sent := header 0x11 7 in
  assert (is_response_to (F := Tcp_framing) sent sent);;
  assert (negb (is_response_to (F := Tcp_framing) sent (header 0x12 7)));;
  assert (negb (is_response_to (F := Tcp_framing) sent (header 0x11 8))).

(** CL-R-050 *)
Definition ut_broadcast_is_a_framing_property : Result unit :=
  assert (is_broadcast (F := Rtu_framing) (mkUnitId 0));;
  assert (is_broadcast (F := Ascii_framing) (mkUnitId 0));;
  assert (negb (is_broadcast (F := Rtu_framing) (mkUnitId 1)));;
  assert (negb (is_broadcast (F := Tcp_framing) (mkUnitId 0))).

(** CL-R-050 *)
Definition ut_rtu_over_tcp_client_framing_matches_rtu : Result unit :=
  assert_eq (request_header (F := RtuOverTcp_framing) (mkUnitId 0x11) (mkTransactionId 7) : UnitId)
    (mkUnitId 0x11);;
  assert (is_response_to (F := RtuOverTcp_framing) (mkUnitId 0x11) (mkUnitId 0x11));;
  assert (negb (is_response_to (F := RtuOverTcp_framing) (mkUnitId 0x11) (mkUnitId 0x12)));;
  assert (is_broadcast (F := RtuOverTcp_framing) (mkUnitId 0));;
  assert (negb (is_broadcast (F := RtuOverTcp_framing) (mkUnitId 1))).

Definition client_framing_tests : list (Result unit) :=
  [ut_request_header_per_framing; ut_tcp_matches_on_both_header_fields;
   ut_broadcast_is_a_framing_property; ut_rtu_over_tcp_client_framing_matches_rtu].

(** ** [server/framing.rs] *)

(** SV-R-010 *)
Definition ut_unit_comes_out_of_any_header : Result unit :=
  assert_eq (unit_of (F := Tcp_framing) (mkMbapHeader (mkTransactionId 7) (mkUnitId 0x11)))
    (mkUnitId 0x11);;
  assert_eq (unit_of (F := Rtu_framing) (mkUnitId 0x11)) (mkUnitId 0x11);;
  assert_eq (unit_of (F := Ascii_framing) (mkUnitId 0x11)) (mkUnitId 0x11).

(** SV-R-023 *)
Definition ut_broadcast_is_a_framing_property_for_the_server : Result unit :=
  assert (addresses_all (F := Rtu_framing) (mkUnitId 0));;
  assert (addresses_all (F := Ascii_framing) (mkUnitId 0));;
  assert (negb (addresses_all (F := Rtu_framing) (mkUnitId 1)));;
  assert (negb (addresses_all (F := Tcp_framing) (mkUnitId 0))).

(** SV-R-023 *)
Definition ut_rtu_over_tcp_server_framing_matches_rtu : Result unit :=
  assert_eq (unit_of (F := RtuOverTcp_framing) (mkUnitId 0x11)) (mkUnitId 0x11);;
  assert (addresses_all (F := RtuOverTcp_framing) (mkUnitId 0));;
  assert (negb (addresses_all (F := RtuOverTcp_framing) (mkUnitId 1))).

Definition server_framing_tests : list (Result unit) :=
  [ut_unit_comes_out_of_any_header; ut_broadcast_is_a_framing_property_for_the_server;
   ut_rtu_over_tcp_server_framing_matches_rtu].

(** ** [server/service.rs] *)

(** A service whose only method is [on_request]. *)
Definition only_requests (answer : option ResponsePdu + ExceptionCode) : Service := {|
  SvcState := unit;
  on_request _ _ _ s := (answer, s);
  on_connect := default_on_connect;
  on_disconnect := default_on_disconnect;
  on_error := default_on_error;
  on_accept_error := default_on_accept_error;
  on_receive_error := default_on_receive_error test_errno Linux;
  on_tls_handshake_failed := default_on_tls_handshake_failed;
|}.

Definition Minimal : Service :=
  only_requests (inl (Some (Resp_ReadHoldingRegisters [mkRegisterValue 7]))).
Definition Withholding : Service := only_requests (inl None).

Definition a_connection : Connection := Connection_new (mkConnectionId 3) None.

(** SV-R-059 *)
Definition ut_default_on_accept_error_answers_stop : Result unit :=
  let error := Io OutOfMemory None in
  assert_eq (fst (on_accept_error Minimal error tt)) StopServing.

(** SV-R-074, SV-E-040, SV-E-039, SV-E-042 *)
Definition ut_default_on_receive_error_classifies : Result unit :=
  let transient := Error_from (from_raw_os_error (ENOBUFS test_errno)) in
  assert_eq (fst (on_receive_error Minimal transient tt)) ContinueServing;;
  let fatal := Error_from (from_raw_os_error EBADF) in
  assert_eq (fst (on_receive_error Minimal fatal tt)) StopServing;;
  let no_code := Io OtherKind None in
  assert_eq (fst (on_receive_error Minimal no_code tt)) StopServing;;
  assert_eq (fst (on_receive_error Minimal Malformed tt)) StopServing.

(** SV-R-004, SV-R-032 *)
Definition ut_minimal_service_accepts_by_default : Result unit :=
  assert_eq (fst (on_connect Minimal a_connection tt)) Accept.

(** SV-R-004 *)
Definition ut_default_notifications_are_inert : Result unit :=
  let conn := a_connection in
  let s := on_disconnect Minimal conn Closed tt in
  assert_eq (on_error Minimal conn Malformed s : unit) tt.

(** SV-R-010 *)
Definition ut_request_reaches_the_service : Result unit :=
  assert_eq (fst (on_request Minimal a_connection (mkUnitId 9)
      (Req_ReadHoldingRegisters (mkAddress 0) (mkQuantity 1)) tt))
    (inl (Some (Resp_ReadHoldingRegisters [mkRegisterValue 7]))).

(** SV-R-024 *)
Definition ut_on_request_may_withhold_its_answer : Result unit :=
  assert_eq (fst (on_request Withholding a_connection (mkUnitId 9)
      (Req_ReadHoldingRegisters (mkAddress 0) (mkQuantity 1)) tt))
    (inl None).

(** SV-R-031, SV-R-036 *)
Definition ut_connection_reports_its_identity : Result unit :=
  let address := mkSocketAddr (V4 0x7F000001) 502 in
  let conn := Connection_new (mkConnectionId 1) (Some address) in
  assert_eq (id conn) (mkConnectionId 1);;
  assert_eq (peer conn) (Some address).

(** SV-R-031 *)
Definition ut_serial_connection_has_no_peer : Result unit := assert_eq (peer a_connection) None.

(** SV-R-055 *)
Definition ut_peer_cert_is_none_on_plain_tcp : Result unit :=
  let address := mkSocketAddr (V4 0x7F000001) 502 in
  assert_eq (peer_cert (Connection_new (mkConnectionId 1) (Some address))) None.

(** SV-R-055 *)
Definition ut_peer_cert_is_none_on_rtu_ascii : Result unit :=
  assert_eq (peer_cert a_connection) None.

(** SV-R-055 *)
Definition ut_peer_cert_is_some_under_require : Result unit :=
  let cert : CertificateDer := [1; 2; 3] in
  let conn := with_peer_cert a_connection (Some cert) in
  assert_eq (peer_cert conn) (Some cert).

(** SV-R-055 *)
Definition ut_peer_cert_is_none_under_client_cert_policy_none : Result unit :=
  assert_eq (peer_cert (with_peer_cert a_connection None)) None.

Definition service_tests : list (Result unit) :=
  [ut_default_on_accept_error_answers_stop; ut_default_on_receive_error_classifies;
   ut_minimal_service_accepts_by_default; ut_default_notifications_are_inert;
   ut_request_reaches_the_service; ut_on_request_may_withhold_its_answer;
   ut_connection_reports_its_identity; ut_serial_connection_has_no_peer;
   ut_peer_cert_is_none_on_plain_tcp; ut_peer_cert_is_none_on_rtu_ascii;
   ut_peer_cert_is_some_under_require; ut_peer_cert_is_none_under_client_cert_policy_none].

(** Every unit test of these files passes. *)
Lemma stack_tests_pass :
  Forall passes (parse_tests ++ error_tests ++ serial_tests ++ rs485_tests ++ port_tests ++
    client_framing_tests ++ server_framing_tests ++ service_tests).
Proof. run_tests. Qed.
End tests.
