(* ===== verification/TransportTests.v ===== *)
(** * Unit tests of the transport ([src/transport/mod.rs])

    The tests of its five test modules, run on the model.  An in-memory duplex is
    the events its reader sees: what the peer wrote before the receive, at most a
    pipe's worth at a time.  A test on the paused clock gives the instants of the
    writes, and runs on a clock of millisecond granularity.  Left out are the two
    tests about the capacity of a buffer and the one of the serde derives. *)

From S2P Require Import Prelude.
From S2P Require Import Errors.
From S2P Require Import Tests.
From S2P Require Import Parse.
From S2P Require Import Value.
From S2P Require Import Function.
From S2P Require Import FileRecord.
From S2P Require Import Pdu.
From S2P Require Import Framing.
From S2P Require Import Rtu.
From S2P Require Import RtuStream.
From S2P Require Import Tcp.
From S2P Require Import Ascii.
From S2P Require Import Serial.
From S2P Require Import Transport.
From S2P Require Import TransportTheorems.
From S2P Require Import Timed.
From S2P Require Import Outgoing.
From S2P Require Import Framed.
From S2P Require Import Client.
From S2P Require Import ClientOver.
From S2P Require Import StackTests.

(** ** The test double

    A pipe of [capacity] bytes: what one read finds of bytes written before it. *)
Fixpoint pieces (fuel n : nat) (bs : list Z) : list (list Z) :=
  match fuel, bs with
  | O, _ | _, [] => []
  | S fuel', _ => take n bs :: pieces fuel' n (drop n bs)
  end.

Definition pipe (capacity : nat) (bs : list Z) : list Event :=
  (λ c, Ready (Bytes c)) <$> pieces (length bs) (capacity `min` Z.to_nat READ_CHUNK) bs.

(** A peer that dropped its end: reads return no bytes. *)
Definition dropped : list Event := [Ready (Bytes [])].

(** The stream of one end, with room for every write of the test. *)
Definition end_of (trace : list Event) : Stream :=
  mkStream (mkReadHalf trace) (mkWriteHalf (replicate 8 (WroteAll, Flushed)) []).

(** [.await] of a receive or a send that must complete. *)
Definition completes {T A} (p : Poll T A) : Result (Result A * T) :=
  match p with Finished r t => Ok (r, t) | Unfinished _ => Panic end.

(** What has arrived at a transport since, and what it has written. *)
Definition deliver {F} (events : list Event) (t : FrameTransport F) : FrameTransport F :=
  mkFrameTransport
    (mkStream (mkReadHalf (arrivals (read_half (ft_stream t)) ++ events)) (write_half (ft_stream t)))
    (ft_buffer t) (ft_outgoing t) (ft_config t) (ft_receiving t).

Definition deliver_adus {F} (events : list Event) (t : AduReader F) : AduReader F :=
  mkAduReader (mkReadHalf (arrivals (ar_stream t) ++ events))
    (ar_buffer t) (ar_config t) (ar_receiving t) (ar_direction t).

(** [assert_eq!(t.recv_request().await, expected)], and of an [AduReader]. *)
Definition assert_recv (F : Framing) (t : FrameTransport F) (expected : Result (Header F * RequestPdu))
    : Result (FrameTransport F) :=
  match ft_recv_request t with
  | Finished received t' => assert_eq received expected;; mret t'
  | Unfinished _ => Panic
  end.

Definition assert_adu (F : Framing) (t : AduReader F) (expected : Result (list Z)) : Result (AduReader F) :=
  match ar_recv_adu t with
  | Finished received t' => assert_eq received expected;; mret t'
  | Unfinished _ => Panic
  end.

Definition wrote {F} (t : FrameTransport F) : list Z := on_wire (write_half (ft_stream t)).

Section tests.
Local Existing Instance winnow_model.
Local Existing Instance crc_model.

(** ** [mod tests] *)

Definition header_1_11 : MbapHeader := mkMbapHeader (mkTransactionId 1) (mkUnitId 0x11).

Definition read_holding : RequestPdu := Req_ReadHoldingRegisters (mkAddress 0x006B) (mkQuantity 3).

Definition TCP_REQUEST_ADU : list Z :=
  [0x00; 0x01; 0x00; 0x00; 0x00; 0x06; 0x11; 0x03; 0x00; 0x6B; 0x00; 0x03].

Local Abbreviation tcp := (FrameTransport Tcp_framing).

Definition registers_022B : ResponsePdu := Resp_ReadHoldingRegisters [mkRegisterValue 0x022B].

(** TR-R-075: the two halves of the generic [exchange], between which the peer
    runs. *)
Definition exchange_send {T} {CT : ClientTransport Tcp_framing T} (client : T) : Result T :=
  '(sent, client) ← completes (ct_send_request (F := Tcp_framing) header_1_11 read_holding client);
  _ ← sent; mret client.

Definition exchange_recv {T} {CT : ClientTransport Tcp_framing T} (client : T)
    : Result (Result (MbapHeader * ResponsePdu)) :=
  '(received, _) ← completes (ct_recv_response (F := Tcp_framing) client);
  mret received.

Definition ut_client_transport_is_implemented_by_frame_and_udp_transports : Result unit :=
  let client : tcp := FrameTransport_new (end_of []) in
  client ← exchange_send client;
  let server : tcp := FrameTransport_new (end_of (pipe 1024 (wrote client))) in
  '(received, server) ← completes (ft_recv_request server);
  '(received_header, request) ← unwrap received;
  assert_eq request read_holding;;
  '(sent, server) ← completes (ft_send_response (F := Tcp_framing) received_header registers_022B server);
  _ ← unwrap sent;
  answer ← exchange_recv (deliver (pipe 1024 (wrote server)) client);
  assert_eq answer (Ok (header_1_11, registers_022B));;
  let client : UdpTransport Tcp_framing :=
    UdpTransport_new (mkUdpSocket [] [SentDatagram] []) in
  client ← exchange_send client;
  let peer : UdpTransport Tcp_framing :=
    UdpTransport_new (mkUdpSocket (Datagram <$> dispatched (ut_socket client)) [SentDatagram] []) in
  '(received, peer) ← completes (ut_recv_request peer);
  '(received_header, request) ← unwrap received;
  assert_eq request read_holding;;
  '(sent, peer) ← completes (ut_send_response (F := Tcp_framing) received_header registers_022B peer);
  _ ← unwrap sent;
  let client := mkUdpTransport
    (mkUdpSocket (Datagram <$> dispatched (ut_socket peer)) [] (dispatched (ut_socket client)))
    (ut_outgoing client) (ut_incoming client) in
  answer ← exchange_recv client;
  assert_eq answer (Ok (header_1_11, registers_022B)).

(** TR-R-084, TR-E-016 *)
Definition ut_outgoing_buffer_length_stays_within_the_maximum_adu : Result unit :=
  let client : tcp := FrameTransport_new (end_of []) in
  let largest := Req_WriteFileRecord [mkFileRecordWrite (mkFileNumber 4) (mkRecordNumber 7)
    (replicate 122 (mkRegisterValue 0))] in
  '(sent, client) ← completes (ft_send_request (F := Tcp_framing) header_1_11 largest client);
  _ ← unwrap sent;
  assert (len (ft_outgoing client) <=? MAX_ADU_LEN Tcp_framing);;
  assert_eq (len (wrote client)) (MAX_ADU_LEN Tcp_framing);;
  let oversized := Resp_ReadHoldingRegisters (replicate 126 (mkRegisterValue 0)) in
  '(sent, client) ← completes (ft_send_response (F := Tcp_framing) header_1_11 oversized client);
  assert_eq sent (Err (PduTooLarge 254 253));;
  assert (len (ft_outgoing client) <=? MAX_ADU_LEN Tcp_framing).

(** TR-R-001, and TR-R-003 on a pipe of one byte: what a client sends over a pipe
    of [capacity], a server receives. *)
Definition over_a_duplex_of (capacity : nat) : Result unit :=
  let client : tcp := FrameTransport_new (end_of []) in
  '(sent, client) ← completes (ft_send_request (F := Tcp_framing) header_1_11 read_holding client);
  _ ← unwrap sent;
  let server : tcp := FrameTransport_new (end_of (pipe capacity (wrote client))) in
  _ ← assert_recv Tcp_framing server (Ok (header_1_11, read_holding));
  mret tt.

Definition ut_transport_works_over_a_duplex_pair : Result unit := over_a_duplex_of 64.
Definition ut_send_writes_every_byte : Result unit := over_a_duplex_of 1.

(** TR-R-004, TR-R-082, TR-E-001 *)
Definition ut_two_adus_in_one_read_are_delivered_separately : Result unit :=
  let server : tcp := FrameTransport_new (end_of (pipe 64 (TCP_REQUEST_ADU ++ TCP_REQUEST_ADU))) in
  server ← assert_recv Tcp_framing server (Ok (header_1_11, read_holding));
  _ ← assert_recv Tcp_framing server (Ok (header_1_11, read_holding));
  mret tt.

(** TR-R-010, TR-E-002 *)
Definition ut_tcp_boundary_from_mbap_length : Result unit :=
  let server : tcp := FrameTransport_new
    (end_of (pipe 64 (take 5 TCP_REQUEST_ADU) ++ pipe 64 (drop 5 TCP_REQUEST_ADU))) in
  _ ← assert_recv Tcp_framing server (Ok (header_1_11, read_holding));
  mret tt.

(** TR-R-005, TR-E-007 *)
Definition ut_decode_failure_leaves_transport_usable : Result unit :=
  let bytes := [0x00; 0x01; 0x00; 0x00; 0x00; 0x02; 0x11; 0x00] ++ TCP_REQUEST_ADU in
  let server : tcp := FrameTransport_new (end_of (pipe 64 bytes)) in
  server ← assert_recv Tcp_framing server (Err (InvalidFunctionCode 0));
  _ ← assert_recv Tcp_framing server (Ok (header_1_11, read_holding));
  mret tt.

(** TR-R-010, TR-R-085, FR-R-105 *)
Definition ut_tcp_invalid_length_is_rejected_before_reading : Result unit :=
  let server : tcp := FrameTransport_new (end_of (pipe 64 [0x00; 0x01; 0x00; 0x00; 0xFF; 0xFF])) in
  _ ← assert_recv Tcp_framing server (Err (OutOfRange "MBAP length" 65535 1 254));
  mret tt.

(** TR-R-014, TR-R-088, TR-E-020, TR-E-021, TR-E-026 *)
Definition ut_eof_between_adus_vs_mid_adu : Result unit :=
  let server : tcp := FrameTransport_new (end_of dropped) in
  _ ← assert_recv Tcp_framing server (Err (Io UnexpectedEof None));
  let server : tcp := FrameTransport_new (end_of (pipe 64 (take 7 TCP_REQUEST_ADU) ++ dropped)) in
  _ ← assert_recv Tcp_framing server (Err ConnectionClosed);
  mret tt.

Definition transport_tests : list (Result unit) :=
  [ut_client_transport_is_implemented_by_frame_and_udp_transports;
   ut_outgoing_buffer_length_stays_within_the_maximum_adu; ut_transport_works_over_a_duplex_pair;
   ut_send_writes_every_byte; ut_two_adus_in_one_read_are_delivered_separately;
   ut_tcp_boundary_from_mbap_length; ut_decode_failure_leaves_transport_usable;
   ut_tcp_invalid_length_is_rejected_before_reading; ut_eof_between_adus_vs_mid_adu].

(** ** [mod ascii_tests] *)

Definition ASCII_REQUEST_ADU : list Z := ascii_bytes ":1103006B00037E" ++ [13; 10].

Local Abbreviation ascii := (FrameTransport Ascii_framing).
Local Abbreviation rtu_over_tcp := (FrameTransport RtuOverTcp_framing).

(** TR-R-012, TR-R-087, TR-E-005 *)
Definition ut_ascii_boundary_and_leading_garbage : Result unit :=
  let bytes := ascii_bytes "line noise" ++ [13; 10] ++ ASCII_REQUEST_ADU in
  let server : ascii := FrameTransport_new (end_of (pipe 64 bytes)) in
  _ ← assert_recv Ascii_framing server (Ok (mkUnitId 0x11, read_holding));
  mret tt.

(** TR-R-087, TR-E-005; what the receive holds is the length of its buffer. *)
Definition ut_ascii_unbounded_leading_garbage_is_discarded : Result unit :=
  let bytes := replicate (3 * Z.to_nat (MAX_ADU_LEN Ascii_framing)) 120 ++ ASCII_REQUEST_ADU in
  let server : ascii := FrameTransport_new (end_of (pipe 64 bytes)) in
  server ← assert_recv Ascii_framing server (Ok (mkUnitId 0x11, read_holding));
    assert (len (ft_buffer server) <=? MAX_ADU_LEN Ascii_framing).

(** TR-R-004, TR-R-082, TR-E-001 *)
Definition ut_ascii_two_frames_in_one_read : Result unit :=
  let server : ascii :=
    FrameTransport_new (end_of (pipe 128 (ASCII_REQUEST_ADU ++ ASCII_REQUEST_ADU))) in
  server ← assert_recv Ascii_framing server (Ok (mkUnitId 0x11, read_holding));
  _ ← assert_recv Ascii_framing server (Ok (mkUnitId 0x11, read_holding));
  mret tt.

(** TR-R-013, TR-E-008 *)
Definition ut_oversized_adu_does_not_grow_buffer : Result unit :=
  let max := MAX_ADU_LEN Ascii_framing in
  let bytes := [58] ++ replicate (Z.to_nat (max - 1)) 48 in
  let server : ascii := FrameTransport_new (end_of (pipe 1024 bytes)) in
  _ ← assert_recv Ascii_framing server (Err (AduTooLarge max max));
  mret tt.

(** TR-R-045, TR-E-011 *)
Definition ut_rtu_over_tcp_boundary_from_content : Result unit :=
  let req := Req_ReadHoldingRegisters (mkAddress 0x006B) (mkQuantity 3) in
  let header := mkUnitId 0x11 in
  encoded ← unwrap (encode_request RtuOverTcp_framing header req);
  let server : rtu_over_tcp := FrameTransport_new (end_of (pipe 1 encoded)) in
  _ ← assert_recv RtuOverTcp_framing server (Ok (header, req));
  mret tt.

(** TR-R-004, TR-R-082, TR-E-012 *)
Definition ut_rtu_over_tcp_two_adus_in_one_read : Result unit :=
  let req := Req_ReadHoldingRegisters (mkAddress 0x006B) (mkQuantity 3) in
  let header := mkUnitId 0x11 in
  adu ← unwrap (encode_request RtuOverTcp_framing header req);
  let server : rtu_over_tcp := FrameTransport_new (end_of (pipe 1024 (adu ++ adu))) in
  server ← assert_recv RtuOverTcp_framing server (Ok (header, req));
  _ ← assert_recv RtuOverTcp_framing server (Ok (header, req));
  mret tt.

(** TR-R-046, TR-E-013 *)
Definition ut_rtu_over_tcp_failed_derivation_retains_the_attempt : Result unit :=
  let req := Req_ReadHoldingRegisters (mkAddress 0x006B) (mkQuantity 3) in
  let header := mkUnitId 0x11 in
  adu ← unwrap (encode_request RtuOverTcp_framing header req);
  let corrupted := alter (λ b, Z.lxor b 0xFF) (length adu - 1)%nat adu in
  let server : rtu_over_tcp := FrameTransport_new (end_of (pipe 1024 corrupted)) in
  '(result, server) ← completes (ft_recv_request server);
  assert (is_err result);;
  _ ← assert_recv RtuOverTcp_framing (deliver (pipe 1024 adu) server) (Ok (header, req));
  mret tt.

(** TR-R-048, TR-E-014: one byte, ten seconds, then the rest one at a time. *)
Definition ut_rtu_over_tcp_ignores_the_inter_frame_interval : Result unit :=
  let req := Req_ReadHoldingRegisters (mkAddress 0x006B) (mkQuantity 3) in
  let header := mkUnitId 0x11 in
  adu ← unwrap (encode_request RtuOverTcp_framing header req);
  let server : rtu_over_tcp :=
    FrameTransport_new (end_of (pipe 1 (take 1 adu) ++ [Quiet] ++ pipe 1 (drop 1 adu))) in
  _ ← assert_recv RtuOverTcp_framing server (Ok (header, req));
  mret tt.

Definition ascii_transport_tests : list (Result unit) :=
  [ut_ascii_boundary_and_leading_garbage; ut_ascii_unbounded_leading_garbage_is_discarded;
   ut_ascii_two_frames_in_one_read; ut_oversized_adu_does_not_grow_buffer;
   ut_rtu_over_tcp_boundary_from_content; ut_rtu_over_tcp_two_adus_in_one_read;
   ut_rtu_over_tcp_failed_derivation_retains_the_attempt;
   ut_rtu_over_tcp_ignores_the_inter_frame_interval].

(** ** Tests on the paused clock *)

Local Existing Instance ms_clock.

(** Receive after receive from the instant [now]: what each returned. *)
Fixpoint recv_each (F : Framing) (config : TransportConfig) (n : nat) (st : RecvState) (now : Z)
    (line : Line) : list (Result (Header F * RequestPdu)) :=
  match n with
  | O => []
  | S n' =>
      match recv_adu_timed F config DirRequest st now line with
      | TReturned r st' now' line' =>
          (adu ← r; decode_request F adu) :: recv_each F config n' st' now' line'
      | TWaiting _ => []
      end
  end.

(** Writes of a peer, each followed by a sleep. *)
Fixpoint written_at (now gap : Z) (writes : list (list Z)) : Line :=
  match writes with
  | [] => []
  | bs :: writes' => (now, Bytes bs) :: written_at (now + gap) gap writes'
  end.

Definition three_at_a_time (bs : list Z) : list (list Z) := pieces (length bs) 3 bs.

(** TR-R-076, TR-E-006: the second frame is written once the first receive has
    returned, 50 ms and more after the fragment. *)
Definition ut_ascii_inter_character_timeout_abandons_stalled_frame : Result unit :=
  let config := mkTransportConfig (tc_inter_frame_interval TransportConfig_default)
    (from_millis 50) in
  let line := [(0, Bytes (ascii_bytes ":110300")); (from_millis 51, Bytes ASCII_REQUEST_ADU)] in
  assert_eq (recv_each Ascii_framing config 2 fresh 0 line)
    [Err (Timeout "ascii inter-character"); Ok (mkUnitId 0x11, read_holding)].

(** TR-R-012 *)
Definition ut_ascii_split_terminator_still_terminates : Result unit :=
  let n := (length ASCII_REQUEST_ADU - 1)%nat in
  let line := [(0, Bytes (take n ASCII_REQUEST_ADU));
               (from_millis 10, Bytes (drop n ASCII_REQUEST_ADU))] in
  assert_eq (recv_each Ascii_framing TransportConfig_default 1 fresh 0 line)
    [Ok (mkUnitId 0x11, read_holding)].

Definition RTU_REQUEST_ADU : list Z := [0x11; 0x03; 0x00; 0x6B; 0x00; 0x03; 0x76; 0x87].
Definition SHORT_GAP : Z := from_micros 500.
Definition LONG_GAP : Z := from_millis 5.

(** TR-R-044, TR-E-009 *)
Definition ut_failed_read_discards_the_attempt_on_rtu : Result unit :=
  let max := MAX_ADU_LEN Rtu_framing in
  let rubbish := replicate (Z.to_nat max) 0xFF in
  let config := TransportConfig_default in
  match recv_adu_timed Rtu_framing config DirRequest fresh 0
          [(0, Bytes rubbish); (LONG_GAP, Bytes RTU_REQUEST_ADU)] with
  | TReturned r st now line =>
      assert_eq r (Err (AduTooLarge max max));;
      assert_eq (buffer st) [];;
      assert_eq (recv_each Rtu_framing config 1 st now line) [Ok (mkUnitId 0x11, read_holding)]
  | TWaiting _ => Panic
  end.

(** TR-R-011, TR-E-004 *)
Definition ut_rtu_boundary_on_idle_gap : Result unit :=
  let line := written_at 0 LONG_GAP [RTU_REQUEST_ADU; RTU_REQUEST_ADU] in
  assert_eq (recv_each Rtu_framing TransportConfig_default 2 fresh 0 line)
    [Ok (mkUnitId 0x11, read_holding); Ok (mkUnitId 0x11, read_holding)].

(** TR-R-011, TR-E-003 *)
Definition ut_rtu_short_gap_does_not_end_a_frame : Result unit :=
  let line := written_at 0 SHORT_GAP (three_at_a_time RTU_REQUEST_ADU) in
  assert_eq (recv_each Rtu_framing TransportConfig_default 1 fresh 0 line)
    [Ok (mkUnitId 0x11, read_holding)].

(** TR-R-011 *)
Definition ut_rtu_interval_follows_the_configuration : Result unit :=
  config ← unwrap (from_serial (with_baud_rate 1200 SerialConfig_default));
  assert_eq (tc_inter_frame_interval config) 32083333;;
  let line := written_at 0 LONG_GAP (three_at_a_time RTU_REQUEST_ADU) in
  assert_eq (recv_each Rtu_framing config 1 fresh 0 line) [Ok (mkUnitId 0x11, read_holding)].

(** ** The rest of [mod rtu_tests] *)

(** TR-R-083, TR-E-010 *)
Definition ut_failed_read_retains_the_attempt_on_tcp : Result unit :=
  let client : tcp := FrameTransport_new (end_of (pipe 64 [0x00; 0x01; 0x00; 0x00; 0x00; 0x00])) in
  '(received, client) ← completes (ft_recv_response client);
  assert (is_err received);;
  assert_ne (ft_buffer client) [].

(** TR-R-041, TR-R-090, TR-E-024: the timeout drops the receive that waits. *)
Definition ut_timeout_mid_adu_marks_desynchronized : Result unit :=
  let server : tcp :=
    FrameTransport_new (end_of (pipe 64 [0x00; 0x01; 0x00; 0x00; 0x00; 0x06; 0x11])) in
  match ft_recv_request server with
  | Finished _ _ => Panic
  | Unfinished server =>
      '(received, _) ← completes (ft_recv_request server);
      assert_eq received (Err (Timeout "receive"))
  end.

Definition rtu_transport_tests : list (Result unit) :=
  [ut_ascii_inter_character_timeout_abandons_stalled_frame;
   ut_ascii_split_terminator_still_terminates; ut_failed_read_discards_the_attempt_on_rtu;
   ut_rtu_boundary_on_idle_gap; ut_rtu_short_gap_does_not_end_a_frame;
   ut_rtu_interval_follows_the_configuration; ut_failed_read_retains_the_attempt_on_tcp;
   ut_timeout_mid_adu_marks_desynchronized].

(** ** [mod reader_tests] *)

(** TR-R-077: the stream of an [AduReader] is a read half. *)
Definition ut_reader_never_requires_a_write_half : Result unit :=
  let stream := mkReadHalf [Ready (Bytes TCP_REQUEST_ADU)] in
  let reader : AduReader Tcp_framing := AduReader_new stream DirRequest in
  '(adu, _) ← completes (ar_recv_adu reader);
  assert_eq adu (Ok TCP_REQUEST_ADU).

(** TR-R-079 *)
Definition ut_reader_yields_raw_undecoded_bytes : Result unit :=
  let reader : AduReader Tcp_framing :=
    AduReader_new (mkReadHalf (pipe 64 TCP_REQUEST_ADU)) DirRequest in
  '(received, _) ← completes (ar_recv_adu reader);
  adu ← unwrap received;
  assert_eq adu TCP_REQUEST_ADU;;
  '(header, pdu) ← unwrap (decode_request Tcp_framing adu);
  assert_eq (unit_id header) (mkUnitId 0x11);;
  assert_eq pdu (Req_ReadHoldingRegisters (mkAddress 0x006B) (mkQuantity 3)).

(** TR-R-078 *)
Definition ut_reader_direction_governs_content_length_boundary_only : Result unit :=
  for_each [DirRequest; DirResponse] (λ direction,
    let reader : AduReader Tcp_framing :=
      AduReader_new (mkReadHalf (pipe 64 TCP_REQUEST_ADU)) direction in
    '(adu, _) ← completes (ar_recv_adu reader);
    assert_eq adu (Ok TCP_REQUEST_ADU));;
  let req := Req_ReadHoldingRegisters (mkAddress 0x006B) (mkQuantity 3) in
  adu ← unwrap (encode_request RtuOverTcp_framing (mkUnitId 0x11) req);
  assert_eq (len adu) 8;;
  let correct : AduReader RtuOverTcp_framing :=
    AduReader_new (mkReadHalf (pipe 64 adu)) DirRequest in
  _ ← assert_adu RtuOverTcp_framing correct (Ok adu);
  let wrong : AduReader RtuOverTcp_framing :=
    AduReader_new (mkReadHalf (pipe 64 adu)) DirResponse in
  '(received, _) ← completes (ar_recv_adu wrong);
  assert_eq received (Ok (take 5 adu)).

(** TR-R-080 *)
Definition ut_reader_recovers_after_self_locating_boundary_failure : Result unit :=
  let max := MAX_ADU_LEN Ascii_framing in
  let bytes := [58] ++ replicate (Z.to_nat (max - 1)) 48 in
  let reader : AduReader Ascii_framing :=
    AduReader_new (mkReadHalf (pipe 1024 bytes)) DirRequest in
  reader ← assert_adu Ascii_framing reader (Err (AduTooLarge max max));
  '(received, _) ← completes (ar_recv_adu (deliver_adus (pipe 1024 ASCII_REQUEST_ADU) reader));
  adu ← unwrap received;
  assert_eq adu ASCII_REQUEST_ADU;;
  '(header, _) ← unwrap (decode_request Ascii_framing adu);
  assert_eq header (mkUnitId 0x11).

(** TR-R-080 *)
Definition ut_reader_is_terminal_after_content_length_boundary_failure : Result unit :=
  let reader : AduReader RtuOverTcp_framing :=
    AduReader_new (mkReadHalf (pipe 64 [0x11; 0x08; 0x00; 0x00])) DirRequest in
  '(received, reader) ← completes (ar_recv_adu reader);
  assert (is_err received);;
  good ← unwrap (encode_request RtuOverTcp_framing (mkUnitId 0x11)
    (Req_ReadHoldingRegisters (mkAddress 0x006B) (mkQuantity 3)));
  '(received, _) ← completes (ar_recv_adu (deliver_adus (pipe 64 good) reader));
  assert (is_err received).

Definition reader_tests : list (Result unit) :=
  [ut_reader_never_requires_a_write_half; ut_reader_yields_raw_undecoded_bytes;
   ut_reader_direction_governs_content_length_boundary_only;
   ut_reader_recovers_after_self_locating_boundary_failure;
   ut_reader_is_terminal_after_content_length_boundary_failure].

(** ** [mod failure_tests]

    [Faulty]: reads fail with [read_failure] or wait forever; writes accept
    [write_budget] bytes, fail once, and then accept everything. *)
Definition Faulty (read_failure : option ErrorKind) (write_budget : option nat) : Stream :=
  mkStream
    (mkReadHalf (match read_failure with
                 | Some kind => replicate 8 (Ready (Failed kind None))
                 | None => []
                 end))
    (mkWriteHalf (match write_budget with
                  | Some budget => [(WriteFailed budget BrokenPipe None, Flushed)]
                  | None => []
                  end ++ replicate 8 (WroteAll, Flushed)) []).

(** TR-E-017 *)
Definition ut_send_failed_mid_write_is_not_resent : Result unit :=
  let transport : tcp := FrameTransport_new (Faulty None (Some 5%nat)) in
  let first := mkMbapHeader (mkTransactionId 1) (mkUnitId 0x11) in
  let second := mkMbapHeader (mkTransactionId 2) (mkUnitId 0x11) in
  '(sent, transport) ← completes (ft_send_request (F := Tcp_framing) first read_holding transport);
  assert_eq sent (Err (Io BrokenPipe None));;
  let abandoned_len := len (wrote transport) in
  assert_eq abandoned_len 5;;
  '(sent, transport) ← completes (ft_send_request (F := Tcp_framing) second read_holding transport);
  _ ← unwrap sent;
  assert_eq (slice_get abandoned_len (len (wrote transport)) (wrote transport))
    (Some [0x00; 0x02; 0x00; 0x00; 0x00; 0x06; 0x11; 0x03; 0x00; 0x6B; 0x00; 0x03]).

(** TR-E-022 *)
Definition ut_rtu_close_after_a_whole_frame_delivers_it : Result unit :=
  let server : FrameTransport Rtu_framing :=
    FrameTransport_new (end_of (pipe 64 RTU_REQUEST_ADU ++ dropped)) in
  _ ← assert_recv Rtu_framing server (Ok (mkUnitId 0x11, read_holding));
  mret tt.

(** [client.call(..).await]. *)
Definition calls {F : Framing} {CF : ClientFraming F} {T : Type} {CT : ClientTransport F T}
    (unit : UnitId) (request : RequestPdu) (client : ClientOver T)
    : Result (Result (option ResponsePdu) * ClientOver T) :=
  match call_over 8 unit request client with
  | Some p => completes p
  | None => Panic
  end.

(** TR-E-025 *)
Definition ut_vanished_serial_device_surfaces_its_kind_and_ends_the_link : Result unit :=
  let kind := OtherKind in
  let client := Client_over (FrameTransport_new (F := Rtu_framing) (Faulty (Some kind) None)) in
  '(called, client) ← calls (F := Rtu_framing) (mkUnitId 0x11) read_holding client;
  assert_eq called (Err (Io kind None));;
  assert_eq (state (co_client client)) (Unusable (UnusableIo kind));;
  '(called, client) ← calls (F := Rtu_framing) (mkUnitId 0x11) read_holding client;
  assert_eq called (Err Desynchronized).

Definition failure_tests : list (Result unit) :=
  [ut_send_failed_mid_write_is_not_resent; ut_rtu_close_after_a_whole_frame_delivers_it;
   ut_vanished_serial_device_surfaces_its_kind_and_ends_the_link].

(** Every unit test of the transport passes. *)
Lemma transport_tests_pass :
  Forall passes (transport_tests ++ ascii_transport_tests ++ rtu_transport_tests ++ reader_tests ++
    failure_tests).
Proof. run_tests. Qed.
End tests.
