(* ===== verification/SocketTests.v ===== *)
(** * Unit tests of the socket transports ([src/transport/udp.rs], [tcp.rs])

    A socket is what arrives at it and what it is allowed to send; the loopback of
    a test carries the datagrams one side has sent to the other.  Left out are the
    test of the capacity of a buffer and the one of the serde derives. *)

From S2P Require Import Prelude.
From S2P Require Import Errors.
From S2P Require Import Tests.
From S2P Require Import Parse.
From S2P Require Import Value.
From S2P Require Import Pdu.
From S2P Require Import Framing.
From S2P Require Import Tcp.
From S2P Require Import Serial.
From S2P Require Import Transport.
From S2P Require Import Outgoing.
From S2P Require Import Framed.
From S2P Require Import TcpConn.
From S2P Require Import StackTests.
From S2P Require Import TransportTests.

#[export] Instance TcpConfig_eq_dec : EqDecision TcpConfig.
Proof. solve_decision. Defined.

Section tests.
Local Existing Instance winnow_model.

Local Abbreviation udp := (UdpTransport Tcp_framing).

Definition free_socket (arriving : list SocketRecv) : UdpSocket :=
  mkUdpSocket arriving (replicate 8 SentDatagram) [].

(** TR-R-071: binding and associating an address need no peer. *)
Definition ut_connect_udp_succeeds_with_nothing_listening : Result unit :=
  let addr := mkSocketAddr (V4 0x7F000001) 40000 in
  _ ← unwrap (connect_udp (λ _, Ok (free_socket [])) (λ _ _, Ok tt) addr mkUdpConfig);
  mret tt.

(** TR-R-098 *)
Definition ut_decode_failure_leaves_udp_transport_usable : Result unit :=
  let garbage := [0x00; 0x01; 0x00; 0x00; 0x00; 0x02; 0x11; 0x00] in
  let header := mkMbapHeader (mkTransactionId 2) (mkUnitId 0x11) in
  let peer : udp := UdpTransport_new (free_socket []) in
  '(sent, peer) ← completes (ut_send_request (F := Tcp_framing) header read_holding peer);
  _ ← unwrap sent;
  let arriving := Datagram <$> garbage :: dispatched (UdpTransport_into_inner (F := Tcp_framing) peer) in
  let server_side : udp := UdpTransport_new (free_socket arriving) in
  '(received, server_side) ← completes (ut_recv_request (F := Tcp_framing) server_side);
  assert_eq received (Err (InvalidFunctionCode 0));;
  '(received, _) ← completes (ut_recv_request (F := Tcp_framing) server_side);
  assert_eq received (Ok (header, read_holding)).

(** 126 registers need a 254-byte PDU, 125 a 252-byte one. *)
Definition oversized : ResponsePdu := Resp_ReadHoldingRegisters (replicate 126 (mkRegisterValue 0)).
Definition largest : ResponsePdu := Resp_ReadHoldingRegisters (replicate 125 (mkRegisterValue 0)).

(** TR-R-097 *)
Definition ut_oversized_adu_is_refused_before_any_io : Result unit :=
  let near : udp := UdpTransport_new (free_socket []) in
  '(refused, near) ← completes (ut_send_response (F := Tcp_framing) header_1_11 oversized near);
  assert_eq refused (Err (PduTooLarge 254 253));;
  '(sent, near) ← completes (ut_send_response (F := Tcp_framing) header_1_11 largest near);
  _ ← unwrap sent;
  datagram ← expect (head (dispatched (UdpTransport_into_inner (F := Tcp_framing) near)));
  assert_eq (len datagram) 259.

(** TR-R-097 *)
Definition ut_datagram_response_oversized_adu_is_refused_before_any_io : Result unit :=
  let '(refused, out, sent1) :=
    send_datagram_response_into Tcp_framing header_1_11 oversized SentDatagram [] in
  assert_eq refused (Err (PduTooLarge 254 253));;
  let '(sent, out, sent2) :=
    send_datagram_response_into Tcp_framing header_1_11 largest SentDatagram out in
  _ ← unwrap sent;
  datagram ← expect (head (sent1 ++ sent2));
  assert_eq (len datagram) 259.

(** TR-R-089, TR-E-019 *)
Definition ut_connect_timeout_is_a_timeout_error : Result unit :=
  match with_connect_timeout (5 * 10 ^ 9) Never with
  | Err e => assert_eq e (Timeout "connect")
  | _ => Panic
  end.

(** TR-R-021, TR-R-022 *)
Definition ut_tcp_config_defaults : Result unit :=
  assert_eq TcpConfig_default (mkTcpConfig (5 * 10 ^ 9) true).

Definition socket_tests : list (Result unit) :=
  [ut_connect_udp_succeeds_with_nothing_listening; ut_decode_failure_leaves_udp_transport_usable;
   ut_oversized_adu_is_refused_before_any_io;
   ut_datagram_response_oversized_adu_is_refused_before_any_io;
   ut_connect_timeout_is_a_timeout_error; ut_tcp_config_defaults].

(** Every unit test of the socket transports passes. *)
Lemma socket_tests_pass : Forall passes socket_tests.
Proof. run_tests. Qed.
End tests.
