(* ===== verification/ClientTests.v ===== *)
(** * Unit tests of the client ([src/client/mod.rs])

    Its tests, run on the model.  A test that is about bytes runs the client over
    a framed transport: the peer is a function of the bytes the call writes, and
    gives the events the client then sees.  A test of a typed method runs it in
    the world of one exchange, its response carried through the TCP frame.  Left
    out are the tests of the serde derives, of what compiles, of dropping a
    transport, and of the length of the response deadline, which the model does
    not measure. *)

From S2P Require Import Prelude.
From S2P Require Import Errors.
From S2P Require Import Tests.
From S2P Require Import Parse.
From S2P Require Import Value.
From S2P Require Import Function.
From S2P Require Import Exception.
From S2P Require Import Diagnostics.
From S2P Require Import Mei.
From S2P Require Import FileRecord.
From S2P Require Import Pdu.
From S2P Require Import Framing.
From S2P Require Import Rtu.
From S2P Require Import Tcp.
From S2P Require Import Serial.
From S2P Require Import Transport.
From S2P Require Import Outgoing.
From S2P Require Import Framed.
From S2P Require Import Client.
From S2P Require Import ClientOver.
From S2P Require Import StackTests.
From S2P Require Import TransportTests.

#[export] Instance CommEventCounter_eq_dec : EqDecision CommEventCounter.
Proof. solve_decision. Defined.
#[export] Instance CommEventLog_eq_dec : EqDecision CommEventLog.
Proof. solve_decision. Defined.
#[export] Instance ClientConfig_eq_dec : EqDecision ClientConfig.
Proof. solve_decision. Defined.

Section tests.
Local Existing Instance winnow_model.
Local Existing Instance crc_model.

(** ** A client over a stream, and its peer *)

Definition client_registers : ResponsePdu := Resp_ReadHoldingRegisters [mkRegisterValue 0x022B].
Definition refusal : ResponsePdu :=
  Resp_Exception (mkExceptionResponse FC_ReadHoldingRegisters EC_IllegalDataAddress).

Section over_stream.
Context (F : Framing) {CF : ClientFraming F}.

Local Abbreviation client := (ClientOver (FrameTransport F)).

Definition new_client : client := Client_over (FrameTransport_new (end_of [])).

(** A client whose peer is gone: nothing can be written to it. *)
Definition peerless_client : client :=
  Client_over (FrameTransport_new (Faulty None (Some 0%nat))).

Definition sees (events : list Event) (cl : client) : client :=
  mkClientOver (deliver events (co_transport cl)) (co_config cl) (co_client cl).

(** The bytes a call writes; they do not depend on what arrives after them. *)
Definition asks (u : UnitId) (request : RequestPdu) (cl : client) : Result (list Z) :=
  match call_over 8 u request cl with
  | Some p => mret (drop (length (wrote (co_transport cl))) (wrote (co_transport (after p))))
  | None => Panic
  end.

(** [client.call(..)] while [peer] answers: what it returned and the client. *)
Definition call_with (peer : list Z → Result (list Event)) (u : UnitId) (request : RequestPdu)
    (cl : client) : Result (Result (option ResponsePdu) * client) :=
  asked ← asks u request cl;
  events ← peer asked;
  calls u request (sees events cl).

(** [assert_eq!(client.call(..).await, expected)], and a call that must fail. *)
Definition assert_call (peer : list Z → Result (list Event)) (u : UnitId) (request : RequestPdu)
    (cl : client) (expected : Result (option ResponsePdu)) : Result client :=
  match call_with peer u request cl with
  | Ok (called, cl') => assert_eq called expected;; mret cl'
  | _ => Panic
  end.

Definition assert_call_fails (peer : list Z → Result (list Event)) (u : UnitId)
    (request : RequestPdu) (cl : client) : Result (Error * client) :=
  match call_with peer u request cl with
  | Ok (Err e, cl') => mret (e, cl')
  | _ => Panic
  end.

(** Peers: silence; a close; bytes written whatever was asked; and a server that
    receives the request and sends its responses, each a frame of its own. *)
Definition silent (_ : list Z) : Result (list Event) := mret [].
Definition closes (_ : list Z) : Result (list Event) := mret dropped.
Definition writes (events : list Event) (_ : list Z) : Result (list Event) := mret events.

Fixpoint frames (responses : list (Header F * ResponsePdu)) : Result (list Event) :=
  match responses with
  | [] => mret []
  | (header, response) :: responses' =>
      adu ← unwrap (encode_response F header response);
      events ← frames responses';
      mret (pipe 1024 adu ++ [Quiet] ++ events)
  end.
End over_stream.

Definition answers (F : Framing) (reply : Header F → RequestPdu → list (Header F * ResponsePdu))
    (asked : list Z) : Result (list Event) :=
  '(header, request) ← unwrap (decode_request F asked);
  frames F (reply header request).

(** The server of most tests: it answers with [response]. *)
Definition with_response (F : Framing) (response : ResponsePdu) : list Z → Result (list Event) :=
  answers F (λ header _, [(header, response)]).

Definition unit_11 : UnitId := mkUnitId 0x11.

(** ** Exchanges *)

(** CL-R-010, CL-R-061 *)
Definition ut_call_round_trips_a_request : Result unit :=
  let client := new_client Tcp_framing in
  asked ← asks Tcp_framing unit_11 read_holding client;
  '(_, request) ← unwrap (decode_request Tcp_framing asked);
  assert_eq request read_holding;;
  _ ← assert_call Tcp_framing (with_response Tcp_framing client_registers) unit_11 read_holding client
    (Ok (Some client_registers));
  mret tt.

(** CL-R-080 *)
Definition ut_client_is_generic_over_udp_transport : Result unit :=
  adu ← unwrap (encode_response Tcp_framing header_1_11 client_registers);
  let client : ClientOver (UdpTransport Tcp_framing) :=
    Client_over (UdpTransport_new (mkUdpSocket [Datagram adu] [SentDatagram] [])) in
  '(called, client) ← calls (F := Tcp_framing) unit_11 read_holding client;
  assert_eq called (Ok (Some client_registers));;
  asked ← expect (head (dispatched (ut_socket (co_transport client))));
  assert_eq (decode_request Tcp_framing asked) (Ok (header_1_11, read_holding)).

(** Two calls, and the transaction each request carried. *)
Definition transactions_of_two_calls (client : ClientOver (FrameTransport Tcp_framing))
    : Result (TransactionId * TransactionId) :=
  asked1 ← asks Tcp_framing unit_11 read_holding client;
  '(header1, _) ← unwrap (decode_request Tcp_framing asked1);
  client ← assert_call Tcp_framing (with_response Tcp_framing client_registers) unit_11 read_holding client
    (Ok (Some client_registers));
  asked2 ← asks Tcp_framing unit_11 read_holding client;
  '(header2, _) ← unwrap (decode_request Tcp_framing asked2);
  _ ← assert_call Tcp_framing (with_response Tcp_framing client_registers) unit_11 read_holding client
    (Ok (Some client_registers));
  mret (transaction_id header1, transaction_id header2).

(** CL-R-011 *)
Definition ut_transaction_ids_start_at_one_and_advance : Result unit :=
  seen ← transactions_of_two_calls (new_client Tcp_framing);
  assert_eq seen (mkTransactionId 1, mkTransactionId 2).

(** CL-R-011 *)
Definition ut_transaction_ids_wrap_past_zero : Result unit :=
  let client := new_client Tcp_framing in
  seen ← transactions_of_two_calls (mkClientOver (co_transport client) (co_config client)
    (mkClient (mkTransactionId U16_MAX) Untried));
  assert_eq seen (mkTransactionId U16_MAX, mkTransactionId 1).

(** CL-R-021, CL-E-002 *)
Definition ut_unmatched_response_is_discarded : Result unit :=
  let answering := answers Tcp_framing (λ header _,
    let stale := mkMbapHeader (mkTransactionId 999) (unit_id header) in
    [(stale, Resp_ReadHoldingRegisters []); (header, client_registers)]) in
  _ ← assert_call Tcp_framing answering unit_11 read_holding (new_client Tcp_framing)
    (Ok (Some client_registers));
  mret tt.

(** CL-R-022, CL-E-003; CL-R-036, CL-E-022 *)
Definition ut_wrong_function_code_is_an_error : Result unit :=
  client ← assert_call Tcp_framing (with_response Tcp_framing (Resp_ReadCoils [true]))
    unit_11 read_holding (new_client Tcp_framing)
    (Err (UnexpectedFunction FC_ReadHoldingRegisters FC_ReadCoils));
  mret tt.

(** CL-R-036, CL-E-022 *)
Definition ut_unexpected_function_counts_as_answered : Result unit :=
  client ← assert_call Tcp_framing (with_response Tcp_framing (Resp_ReadCoils [true]))
    unit_11 read_holding (new_client Tcp_framing)
    (Err (UnexpectedFunction FC_ReadHoldingRegisters FC_ReadCoils));
  assert_eq (state (co_client client)) Answered.

(** CL-R-040, CL-R-042, CL-E-004 *)
Definition ut_call_returns_an_exception_response_verbatim : Result unit :=
  client ← assert_call Tcp_framing (with_response Tcp_framing refusal) unit_11 read_holding
    (new_client Tcp_framing) (Ok (Some refusal));
  assert (negb (is_desynchronized (co_client client)));;
  _ ← assert_call Tcp_framing (with_response Tcp_framing refusal) unit_11 read_holding client
    (Ok (Some refusal));
  mret tt.

(** ** Silence, damage and closed connections *)

(** CL-R-030, CL-R-031, CL-E-001; CL-R-037, CL-E-028; CL-E-009: on one framing. *)
Definition silence_times_out (F : Framing) {CF : ClientFraming F} : Result unit :=
  client ← assert_call F silent unit_11 read_holding (new_client F) (Err (Timeout "response"));
  assert (is_desynchronized (co_client client));;
  assert_eq (state (co_client client)) (Unusable Silent).

Definition ut_silence_times_out_and_desynchronizes : Result unit := silence_times_out Tcp_framing.
Definition ut_timeout_reports_silent : Result unit := silence_times_out Tcp_framing.
Definition ut_timeout_still_desynchronizes_on_rtu : Result unit := silence_times_out Rtu_framing.

(** A TCP response whose byte count does not match its data. *)
Definition undecodable : list Z :=
  [0x00; 0x01; 0x00; 0x00; 0x00; 0x05; 0x11; 0x03; 0x04; 0x00; 0x2A].

(** CL-R-023, CL-R-098, CL-E-006 *)
Definition ut_undecodable_response_desynchronizes_on_tcp : Result unit :=
  client ← assert_call Tcp_framing (writes (pipe 1024 undecodable)) unit_11 read_holding
    (new_client Tcp_framing) (Err (ByteCountMismatch 4 2));
  assert (is_desynchronized (co_client client)).

(** CL-R-037, CL-E-029 *)
Definition ut_undecodable_response_on_tcp_reports_undecodable : Result unit :=
  '(_, client) ← assert_call_fails Tcp_framing (writes (pipe 1024 undecodable)) unit_11 read_holding
    (new_client Tcp_framing);
  assert_eq (state (co_client client)) (Unusable Undecodable).

(** A response on the RTU line, and the same with its last CRC byte flipped. *)
Definition good_frame : Result (list Z) := unwrap (encode_response Rtu_framing unit_11 client_registers).
Definition corrupt (adu : list Z) : list Z := alter (λ b, Z.lxor b 0xFF) (length adu - 1)%nat adu.
Definition then_silence (adu : list Z) : list Event := [Ready (Bytes adu); Quiet].

Definition is_checksum (e : Error) : bool := match e with Checksum _ _ => true | _ => false end.

(** CL-R-023, CL-R-098, CL-E-007 *)
Definition ut_undecodable_response_costs_one_frame_on_rtu : Result unit :=
  good ← good_frame;
  '(failed, client) ← assert_call_fails Rtu_framing (writes (then_silence (corrupt good)))
    unit_11 read_holding (new_client Rtu_framing);
  assert (is_checksum failed);;
  assert (negb (is_desynchronized (co_client client)));;
  _ ← assert_call Rtu_framing (writes (then_silence good)) unit_11 read_holding client
    (Ok (Some client_registers));
  mret tt.

(** CL-R-034, CL-R-101, CL-E-023 *)
Definition ut_undecodable_response_on_rtu_reports_unanswered : Result unit :=
  good ← good_frame;
  '(failed, client) ← assert_call_fails Rtu_framing (writes (then_silence (corrupt good)))
    unit_11 read_holding (new_client Rtu_framing);
  assert (is_checksum failed);;
  assert_eq (state (co_client client)) Unanswered;;
  assert (negb (is_desynchronized (co_client client))).

(** CL-R-099 *)
Definition ut_undecodable_response_ends_the_wait : Result unit :=
  good ← good_frame;
  '(failed, _) ← assert_call_fails Rtu_framing
    (writes (then_silence (corrupt good) ++ then_silence good)) unit_11 read_holding
    (new_client Rtu_framing);
  assert (is_checksum failed).

(** CL-E-008 *)
Definition ut_frame_split_by_a_spurious_gap_costs_two_frames : Result unit :=
  let response := Resp_ReadHoldingRegisters
    [mkRegisterValue 0x022B; mkRegisterValue 0x0000; mkRegisterValue 0x0064] in
  whole ← unwrap (encode_response Rtu_framing unit_11 response);
  '(first, client) ← assert_call_fails Rtu_framing
    (writes (then_silence (take 5 whole) ++ then_silence (drop 5 whole))) unit_11 read_holding
    (new_client Rtu_framing);
  assert (is_checksum first);;
  assert (negb (is_desynchronized (co_client client)));;
  '(second, client) ← assert_call_fails Rtu_framing silent unit_11 read_holding client;
  assert (is_checksum second);;
  assert (negb (is_desynchronized (co_client client)));;
  _ ← assert_call Rtu_framing (writes (then_silence whole)) unit_11 read_holding client
    (Ok (Some response));
  mret tt.

(** CL-R-032, CL-E-017 *)
Definition ut_desynchronized_client_writes_nothing : Result unit :=
  '(_, client) ← assert_call_fails Tcp_framing silent unit_11 read_holding (new_client Tcp_framing);
  let before := wrote (co_transport client) in
  client ← assert_call Tcp_framing silent unit_11 read_holding client (Err Desynchronized);
  assert_eq (wrote (co_transport client)) before.

(** CL-R-024: the response comes once the first call has given up. *)
Definition ut_late_response_is_never_delivered_to_a_later_request : Result unit :=
  client ← assert_call Tcp_framing silent unit_11 read_holding (new_client Tcp_framing)
    (Err (Timeout "response"));
  late ← frames Tcp_framing [(header_1_11, client_registers)];
  _ ← assert_call Tcp_framing (writes late) unit_11 read_holding client (Err Desynchronized);
  mret tt.

(** CL-R-013, CL-R-031, CL-E-016 *)
Definition ut_failed_write_desynchronizes : Result unit :=
  '(_, client) ← assert_call_fails Tcp_framing silent unit_11 read_holding
    (peerless_client Tcp_framing);
  assert (is_desynchronized (co_client client));;
  _ ← assert_call Tcp_framing silent unit_11 read_holding client (Err Desynchronized);
  mret tt.

(** CL-R-037, CL-E-026, CL-E-027 *)
Definition ut_write_failure_reports_the_io_kind : Result unit :=
  '(_, client) ← assert_call_fails Tcp_framing silent unit_11 read_holding
    (peerless_client Tcp_framing);
  match state (co_client client) with
  | Unusable (UnusableIo kind) => assert_ne kind UnexpectedEof
  | _ => Panic
  end.

(** CL-R-037, CL-E-025 *)
Definition ut_peer_close_before_a_response_reports_peer_closed : Result unit :=
  '(_, client) ← assert_call_fails Tcp_framing closes unit_11 read_holding (new_client Tcp_framing);
  assert_eq (state (co_client client)) (Unusable PeerClosed).

(** CL-E-014 *)
Definition ut_peer_close_before_a_response_is_unexpected_eof : Result unit :=
  client ← assert_call Tcp_framing closes unit_11 read_holding (new_client Tcp_framing)
    (Err (Io UnexpectedEof None));
  assert (is_desynchronized (co_client client)).

(** CL-E-015, CL-E-025 *)
Definition ut_peer_close_mid_adu_is_connection_closed : Result unit :=
  let head := [0x00; 0x01; 0x00; 0x00; 0x00; 0x05; 0x11; 0x03] in
  client ← assert_call Tcp_framing (writes (pipe 1024 head ++ dropped)) unit_11 read_holding
    (new_client Tcp_framing) (Err ConnectionClosed);
  assert (is_desynchronized (co_client client));;
  assert_eq (state (co_client client)) (Unusable PeerClosed).

(** CL-R-012 *)
Definition ut_unencodable_request_writes_nothing : Result unit :=
  let unencodable := Req_ReadHoldingRegisters (mkAddress 0) (mkQuantity 0xFFFF) in
  '(error, client) ← assert_call_fails Tcp_framing silent unit_11 unencodable
    (new_client Tcp_framing);
  assert (match error with OutOfRange _ _ _ _ => true | _ => false end);;
  assert (negb (is_desynchronized (co_client client)));;
  asked ← asks Tcp_framing unit_11 read_holding client;
  '(header, _) ← unwrap (decode_request Tcp_framing asked);
  _ ← assert_call Tcp_framing (with_response Tcp_framing client_registers) unit_11 read_holding client
    (Ok (Some client_registers));
  assert_eq (transaction_id header) (mkTransactionId 1).

(** CL-R-100 *)
Definition ut_default_response_timeout : Result unit :=
  assert_eq ClientConfig_default (mkClientConfig (from_millis 1000)).

(** ** The state a client reports *)

(** CL-R-035, CL-E-020 *)
Definition ut_new_client_is_untried : Result unit :=
  assert_eq (state (co_client (new_client Tcp_framing))) Untried.

(** CL-R-035, CL-E-022 *)
Definition ut_answered_after_a_matched_response : Result unit :=
  client ← assert_call Tcp_framing (with_response Tcp_framing client_registers) unit_11 read_holding
    (new_client Tcp_framing) (Ok (Some client_registers));
  assert_eq (state (co_client client)) Answered.

(** CL-R-038, CL-E-030: the report is a field, and writes nothing. *)
Definition ut_state_reports_without_touching_the_transport : Result unit :=
  let client := new_client Tcp_framing in
  assert_eq (state (co_client client)) Untried;;
  assert (negb (is_desynchronized (co_client client)));;
  assert_eq (wrote (co_transport client)) [].

(** ** Broadcasts

    The typed write of a broadcast is the call itself. *)

Definition broadcast_write : RequestPdu :=
  Req_WriteSingleRegister (mkAddress 0x0001) (mkRegisterValue 0x0003).

(** CL-R-102, CL-E-021, CL-E-024 *)
Definition ut_broadcast_write_leaves_state_unchanged : Result unit :=
  client ← assert_call Rtu_framing silent (mkUnitId 0) broadcast_write (new_client Rtu_framing) (Ok None);
  assert_eq (state (co_client client)) Untried;;
  client ← assert_call Rtu_framing (with_response Rtu_framing client_registers) unit_11 read_holding client
    (Ok (Some client_registers));
  assert_eq (state (co_client client)) Answered;;
  client ← assert_call Rtu_framing silent (mkUnitId 0) broadcast_write client (Ok None);
  assert_eq (state (co_client client)) Answered.

(** CL-R-053 *)
Definition ut_broadcast_call_yields_no_response : Result unit :=
  let client := new_client Rtu_framing in
  asked ← asks Rtu_framing (mkUnitId 0) read_holding client;
  _ ← assert_call Rtu_framing silent (mkUnitId 0) read_holding client (Ok None);
  assert_eq (decode_request Rtu_framing asked) (Ok (mkUnitId 0, read_holding)).

(** CL-E-010: what the server answers the broadcast with is there when the next
    exchange starts. *)
Definition exchange_after_answered_broadcast (from : UnitId) (expected : Result (option ResponsePdu))
    : Result unit :=
  let stale := Resp_WriteSingleRegister (mkAddress 0x0001) (mkRegisterValue 0x0003) in
  client ← assert_call Rtu_framing silent (mkUnitId 0) broadcast_write (new_client Rtu_framing) (Ok None);
  stale_frame ← frames Rtu_framing [(from, stale)];
  _ ← assert_call Rtu_framing (with_response Rtu_framing client_registers) unit_11 read_holding
    (sees Rtu_framing stale_frame client) expected;
  mret tt.

Definition ut_reply_to_a_broadcast_desynchronizes_the_next_exchange : Result unit :=
  exchange_after_answered_broadcast unit_11
    (Err (UnexpectedFunction FC_ReadHoldingRegisters FC_WriteSingleRegister)).

Definition ut_unit_zero_reply_to_a_broadcast_is_discarded_by_the_next_exchange : Result unit :=
  exchange_after_answered_broadcast (mkUnitId 0) (Ok (Some client_registers)).

Definition call_tests : list (Result unit) :=
  [ut_call_round_trips_a_request; ut_client_is_generic_over_udp_transport;
   ut_transaction_ids_start_at_one_and_advance; ut_transaction_ids_wrap_past_zero;
   ut_unmatched_response_is_discarded; ut_wrong_function_code_is_an_error;
   ut_unexpected_function_counts_as_answered; ut_call_returns_an_exception_response_verbatim;
   ut_silence_times_out_and_desynchronizes; ut_timeout_reports_silent;
   ut_timeout_still_desynchronizes_on_rtu; ut_undecodable_response_desynchronizes_on_tcp;
   ut_undecodable_response_on_tcp_reports_undecodable;
   ut_undecodable_response_costs_one_frame_on_rtu;
   ut_undecodable_response_on_rtu_reports_unanswered; ut_undecodable_response_ends_the_wait;
   ut_frame_split_by_a_spurious_gap_costs_two_frames; ut_desynchronized_client_writes_nothing;
   ut_late_response_is_never_delivered_to_a_later_request; ut_failed_write_desynchronizes;
   ut_write_failure_reports_the_io_kind; ut_peer_close_before_a_response_reports_peer_closed;
   ut_peer_close_before_a_response_is_unexpected_eof; ut_peer_close_mid_adu_is_connection_closed;
   ut_unencodable_request_writes_nothing; ut_default_response_timeout; ut_new_client_is_untried;
   ut_answered_after_a_matched_response; ut_state_reports_without_touching_the_transport;
   ut_broadcast_write_leaves_state_unchanged; ut_broadcast_call_yields_no_response;
   ut_reply_to_a_broadcast_desynchronizes_the_next_exchange;
   ut_unit_zero_reply_to_a_broadcast_is_discarded_by_the_next_exchange].

(** ** Typed methods

    [responder]: the method runs in a world whose server answers with what [reply]
    makes of its request, and must return [expected]; the request it made and the
    client are handed back.  The request is the one the method writes when nobody
    answers. *)
Definition responder {A} `{EqDecision A} (reply : RequestPdu → ResponsePdu)
    (method : Cl Tcp_framing A) (c : Client) (expected : Result A) : Result (RequestPdu * Client) :=
  let '(_, _, asked) := method c (mkWorld Tcp_framing (Ok tt) [] []) in
  match wire Tcp_framing asked with
  | [(header, request)] =>
      adu ← unwrap (encode_response Tcp_framing header (reply request));
      let '(r, c', _) :=
        method c (mkWorld Tcp_framing (Ok tt) [decode_response Tcp_framing adu] []) in
      assert_eq r expected;; mret (request, c')
  | _ => Panic
  end.

(** CL-R-060 *)
Definition ut_typed_reads_issue_their_own_function : Result unit :=
  let reply request :=
    match request with
    | Req_ReadCoils _ _ =>
        Resp_ReadCoils [true; false; true; false; false; false; false; false]
    | Req_ReadDiscreteInputs _ _ =>
        Resp_ReadDiscreteInputs [false; true; false; false; false; false; false; false]
    | Req_ReadHoldingRegisters _ _ =>
        Resp_ReadHoldingRegisters [mkRegisterValue 0x022B; mkRegisterValue 0x0064]
    | _ => Resp_ReadInputRegisters [mkRegisterValue 0x000A]
    end in
  '(r1, c) ← responder reply (read_coils Tcp_framing unit_11 (mkAddress 0x0013) (mkQuantity 3))
    Client_new (Ok [true; false; true]);
  '(r2, c) ← responder reply
    (read_discrete_inputs Tcp_framing unit_11 (mkAddress 0x00C4) (mkQuantity 2)) c
    (Ok [false; true]);
  '(r3, c) ← responder reply
    (read_holding_registers Tcp_framing unit_11 (mkAddress 0x006B) (mkQuantity 2)) c
    (Ok [mkRegisterValue 0x022B; mkRegisterValue 0x0064]);
  '(r4, c) ← responder reply
    (read_input_registers Tcp_framing unit_11 (mkAddress 0x0008) (mkQuantity 1)) c
    (Ok [mkRegisterValue 0x000A]);
  assert_eq [r1; r2; r3; r4]
    [Req_ReadCoils (mkAddress 0x0013) (mkQuantity 3);
     Req_ReadDiscreteInputs (mkAddress 0x00C4) (mkQuantity 2);
     Req_ReadHoldingRegisters (mkAddress 0x006B) (mkQuantity 2);
     Req_ReadInputRegisters (mkAddress 0x0008) (mkQuantity 1)].

(** CL-R-062 *)
Definition ut_bit_reads_discard_padding : Result unit :=
  let reply _ := Resp_ReadCoils [true; false; true; true; true; true; true; true] in
  _ ← responder reply (read_coils Tcp_framing unit_11 (mkAddress 0) (mkQuantity 3)) Client_new
    (Ok [true; false; true]);
  mret tt.

(** CL-R-060 *)
Definition ut_typed_writes_issue_their_own_function : Result unit :=
  let reply request :=
    match request with
    | Req_WriteSingleCoil address value => Resp_WriteSingleCoil address value
    | Req_WriteSingleRegister address value => Resp_WriteSingleRegister address value
    | Req_WriteMultipleCoils address coils =>
        Resp_WriteMultipleCoils address (mkQuantity (len coils))
    | Req_WriteMultipleRegisters address client_registers =>
        Resp_WriteMultipleRegisters address (mkQuantity (len client_registers))
    | Req_MaskWriteRegister address and_mask or_mask =>
        Resp_MaskWriteRegister address and_mask or_mask
    | _ => Resp_ReadWriteMultipleRegisters [mkRegisterValue 0x00FF]
    end in
  '(_, c) ← responder reply (write_single_coil Tcp_framing unit_11 (mkAddress 0x00AC) true)
    Client_new (Ok tt);
  '(_, c) ← responder reply
    (write_single_register Tcp_framing unit_11 (mkAddress 0x0001) (mkRegisterValue 0x0003)) c (Ok tt);
  '(r3, c) ← responder reply
    (write_multiple_coils Tcp_framing unit_11 (mkAddress 0x0013) [true; false]) c (Ok tt);
  '(_, c) ← responder reply
    (write_multiple_registers Tcp_framing unit_11 (mkAddress 0x0001)
       [mkRegisterValue 0x000A; mkRegisterValue 0x0102]) c (Ok tt);
  '(_, c) ← responder reply
    (mask_write_register Tcp_framing unit_11 (mkAddress 0x0004) (mkMask 0x00F2) (mkMask 0x0025)) c
    (Ok tt);
  '(r6, _) ← responder reply
    (read_write_multiple_registers Tcp_framing unit_11 (mkAddress 0x0003) (mkQuantity 1)
       (mkAddress 0x000E) [mkRegisterValue 0x00FF]) c (Ok [mkRegisterValue 0x00FF]);
  assert_eq r3 (Req_WriteMultipleCoils (mkAddress 0x0013) [true; false]);;
  assert_eq r6 (Req_ReadWriteMultipleRegisters (mkAddress 0x0003) (mkQuantity 1) (mkAddress 0x000E)
    [mkRegisterValue 0x00FF]).

(** CL-R-040, CL-R-042, CL-E-004; CL-R-036, CL-E-022 *)
Definition ut_typed_method_fails_on_an_exception : Result unit :=
  let reply _ := refusal in
  let read := read_holding_registers Tcp_framing unit_11 (mkAddress 0x9999) (mkQuantity 1) in
  let failure := Err (ExceptionError FC_ReadHoldingRegisters EC_IllegalDataAddress) in
  '(_, c) ← responder reply read Client_new failure;
  assert (negb (is_desynchronized c));;
  _ ← responder reply read c failure;
  mret tt.

Definition ut_exception_counts_as_answered : Result unit :=
  '(_, c) ← responder (λ _, refusal)
    (read_holding_registers Tcp_framing unit_11 (mkAddress 0x006B) (mkQuantity 3)) Client_new
    (Err (ExceptionError FC_ReadHoldingRegisters EC_IllegalDataAddress));
  assert_eq (state c) Answered.

(** CL-R-041, CL-E-005 *)
Definition ut_unnamed_exception_code_reaches_the_caller : Result unit :=
  let reply _ := Resp_Exception (mkExceptionResponse FC_ReadCoils (EC_Other 0x7F)) in
  _ ← responder reply (read_coils Tcp_framing unit_11 (mkAddress 0) (mkQuantity 1)) Client_new
    (Err (ExceptionError FC_ReadCoils (EC_Other 0x7F)));
  mret tt.

(** CL-R-064, CL-E-032 *)
Definition ut_echoed_fields_are_not_compared : Result unit :=
  let reply _ := Resp_WriteSingleRegister (mkAddress 0xDEAD) (mkRegisterValue 0xBEEF) in
  _ ← responder reply
    (write_single_register Tcp_framing unit_11 (mkAddress 0x0001) (mkRegisterValue 0x0003)) Client_new
    (Ok tt);
  mret tt.

(** CL-R-063 *)
Definition ut_range_validation_comes_from_encoding : Result unit :=
  let '(r, _, _) := read_holding_registers Tcp_framing unit_11 (mkAddress 0) (mkQuantity 126)
    Client_new (mkWorld Tcp_framing (Ok tt) [] []) in
  assert_eq r (Err (OutOfRange "quantity" 126 1 125)).

(** CL-R-051 *)
Definition ut_broadcast_write_is_not_awaited : Result unit :=
  let '(r, _, wd) := write_single_coil Rtu_framing (mkUnitId 0) (mkAddress 0x00AC) true
    Client_new (mkWorld Rtu_framing (Ok tt) [] []) in
  _ ← unwrap r;
  assert_eq (wire Rtu_framing wd) [(mkUnitId 0, Req_WriteSingleCoil (mkAddress 0x00AC) true)].

(** CL-R-052, CL-E-018 *)
Definition ut_broadcast_read_is_rejected_before_writing : Result unit :=
  let '(r, _, wd) := read_coils Rtu_framing (mkUnitId 0) (mkAddress 0) (mkQuantity 1)
    Client_new (mkWorld Rtu_framing (Ok tt) [] []) in
  assert_eq r (Err (IllegalValue "broadcast read" 0));;
  assert_eq (wire Rtu_framing wd) [].

(** CL-R-060 *)
Definition ut_typed_diagnostic_methods : Result unit :=
  let reply request :=
    match request with
    | Req_ReadExceptionStatus => Resp_ReadExceptionStatus (mkExceptionStatus 0x6D)
    | Req_Diagnostics sub_function data => Resp_Diagnostics sub_function data
    | Req_GetCommEventCounter => Resp_GetCommEventCounter 0xFFFF 0x0108
    | Req_GetCommEventLog => Resp_GetCommEventLog 0x0000 0x0108 0x0121 [0x20; 0x00]
    | _ => Resp_ReportServerId [0x11; 0xFF]
    end in
  '(_, c) ← responder reply (read_exception_status Tcp_framing unit_11) Client_new
    (Ok (mkExceptionStatus 0x6D));
  '(_, c) ← responder reply (diagnostics Tcp_framing unit_11 DS_ReturnQueryData [0xA537]) c
    (Ok [0xA537]);
  '(_, c) ← responder reply (get_comm_event_counter Tcp_framing unit_11) c
    (Ok (mkCommEventCounter 0xFFFF 0x0108));
  '(_, c) ← responder reply (get_comm_event_log Tcp_framing unit_11) c
    (Ok (mkCommEventLog 0x0000 0x0108 0x0121 [0x20; 0x00]));
  _ ← responder reply (report_server_id Tcp_framing unit_11) c (Ok [0x11; 0xFF]);
  mret tt.

(** CL-R-060 *)
Definition ut_typed_record_and_transport_methods : Result unit :=
  let identification := MeiResp_ReadDeviceIdentification RDI_Basic 0x01 false 0x00 [] in
  let record := mkFileRecordReadResponse
    [mkRegisterValue 0x0DFE; mkRegisterValue 0x0000; mkRegisterValue 0x0001] in
  let reply request :=
    match request with
    | Req_ReadFileRecord _ => Resp_ReadFileRecord [record]
    | Req_WriteFileRecord records => Resp_WriteFileRecord records
    | Req_ReadFifoQueue _ => Resp_ReadFifoQueue [mkRegisterValue 0x01B8]
    | _ => Resp_EncapsulatedInterfaceTransport identification
    end in
  let read := mkFileRecordRead (mkFileNumber 4) (mkRecordNumber 1) (mkRecordLength 1) in
  '(_, c) ← responder reply (read_file_record Tcp_framing unit_11 [read]) Client_new (Ok [record]);
  let write := mkFileRecordWrite (mkFileNumber 4) (mkRecordNumber 7) [mkRegisterValue 0x06AF] in
  '(_, c) ← responder reply (write_file_record Tcp_framing unit_11 [write]) c (Ok tt);
  '(_, c) ← responder reply (read_fifo_queue Tcp_framing unit_11 (mkAddress 0x04DE)) c
    (Ok [mkRegisterValue 0x01B8]);
  _ ← responder reply (encapsulated_interface_transport Tcp_framing unit_11
      (MeiReq_ReadDeviceIdentification RDI_Basic 0x00)) c (Ok identification);
  mret tt.

Definition typed_tests : list (Result unit) :=
  [ut_typed_reads_issue_their_own_function; ut_bit_reads_discard_padding;
   ut_typed_writes_issue_their_own_function; ut_typed_method_fails_on_an_exception;
   ut_exception_counts_as_answered; ut_unnamed_exception_code_reaches_the_caller;
   ut_echoed_fields_are_not_compared; ut_range_validation_comes_from_encoding;
   ut_broadcast_write_is_not_awaited; ut_broadcast_read_is_rejected_before_writing;
   ut_typed_diagnostic_methods; ut_typed_record_and_transport_methods].

(** Every unit test of the client passes. *)
Lemma client_tests_pass : Forall passes (call_tests ++ typed_tests).
Proof. run_tests. Qed.
End tests.
