(* ===== verification/Tls.v ===== *)
(** * TLS over TCP ([src/transport/tls.rs])

    What the crate builds around rustls: root stores, configurations, the two
    verifiers it supplies, and the handshakes on either side.  The TLS libraries
    are the parameter [Rustls]; what is assumed of a server-side handshake is the
    class [RustlsSpec]: a full handshake consults the verifier of the configuration,
    and one that resumes a session has the certificate its session was established
    with, without consulting it again.  A rustls error is a number, a certificate its bytes. *)

From S2P Require Import Prelude.
From S2P Require Import Errors.
From S2P Require Import Parse.
From S2P Require Import Value.
From S2P Require Import Wire.
From S2P Require Import Framing.
From S2P Require Import Tcp.
From S2P Require Import Serial.
From S2P Require Import Transport.
From S2P Require Import Outgoing.
From S2P Require Import Framed.
From S2P Require Import TcpConn.
From S2P Require Import Server.

Definition MODBUS_TLS_PORT : Z := 802.

(** The task-local [REJECTED_CLIENT_CERT]: unset outside its scope. *)
Definition Cell : Type := option (option CertificateDer).

(** An [io::Error] out of a handshake: its text, and the rustls error inside it
    when there is one. *)
Record TlsIoError := mkTlsIoError { tls_message : string; tls_inner : option Z }.

(** What an accepted TLS stream offers. *)
Record TlsStream := mkTlsStream {
  tls_stream : Stream;
  peer_certificates : option (list CertificateDer);
}.

(** The values of the libraries. *)
Class RustlsTypes := {
  RootCertStore : Type;
  PrivateKeyDer : Type;
  UnixTime : Type;
  DistinguishedName : Type;
  DigitallySigned : Type;
}.

(** The traits [ClientCertVerifier] and [ServerCertVerifier]; verifying a client
    may touch the task-local. *)
Record ClientCertVerifier `{RustlsTypes} := mkClientCertVerifier {
  offer_client_auth : bool;
  client_auth_mandatory : bool;
  root_hint_subjects : list DistinguishedName;
  verify_client_cert : CertificateDer → list CertificateDer → UnixTime → Cell → (unit + Z) * Cell;
  cv_verify_tls12_signature : list Z → CertificateDer → DigitallySigned → unit + Z;
  cv_verify_tls13_signature : list Z → CertificateDer → DigitallySigned → unit + Z;
  cv_supported_verify_schemes : list Z;
  requires_raw_public_keys : bool;
}.

Record ServerCertVerifier `{RustlsTypes} := mkServerCertVerifier {
  verify_server_cert : CertificateDer → list CertificateDer → IpAddr → list Z → UnixTime → unit + Z;
  sv_verify_tls12_signature : list Z → CertificateDer → DigitallySigned → unit + Z;
  sv_verify_tls13_signature : list Z → CertificateDer → DigitallySigned → unit + Z;
  sv_supported_verify_schemes : list Z;
}.

(** What a [rustls::ClientConfig] or [ServerConfig] was built with. *)
Inductive ServerTrust `{RustlsTypes} :=
  | TrustRoots (store : RootCertStore)
  | TrustVerifier (v : ServerCertVerifier).

Record RustlsClientConfig `{RustlsTypes} := mkRustlsClientConfig {
  rc_trust : ServerTrust;
  rc_auth : option (list CertificateDer * PrivateKeyDer);
}.

Record RustlsServerConfig `{RustlsTypes} := mkRustlsServerConfig {
  rs_verifier : option ClientCertVerifier;
  rs_cert : list CertificateDer * PrivateKeyDer;
}.

Arguments mkRustlsClientConfig {_}.
Arguments mkRustlsServerConfig {_}.

(** The functions of the libraries.  The methods of [ClientCertVerifier] that
    have a default body are values here; a handshake that is not over is [None]. *)
Class Rustls `{RustlsTypes} := {
  general : string → Z;
  store_empty : RootCertStore;
  store_add : CertificateDer → RootCertStore → RootCertStore + Z;
  store_add_parsable : list CertificateDer → RootCertStore → RootCertStore;
  load_native_certs : list CertificateDer;
  pem_slice_iter : list Z → list (CertificateDer + Z);
  key_from_pem_slice : list Z → PrivateKeyDer + Z;
  safe_default_protocol_versions : unit + Z;
  client_auth_cert_ok : list CertificateDer → PrivateKeyDer → unit + Z;
  single_cert_ok : list CertificateDer → PrivateKeyDer → unit + Z;
  provider_tls12_signature : list Z → CertificateDer → DigitallySigned → unit + Z;
  provider_tls13_signature : list Z → CertificateDer → DigitallySigned → unit + Z;
  provider_schemes : list Z;
  webpki_client_verifier : RootCertStore → ClientCertVerifier + string;
  default_offer_client_auth : bool;
  default_client_auth_mandatory : bool;
  default_requires_raw_public_keys : bool;
  tls_connect : RustlsClientConfig → IpAddr → Stream → Attempt (Stream + TlsIoError);
  tls_accept : RustlsServerConfig → Stream → Cell → option ((TlsStream + TlsIoError) * Cell);
}.

Section tls.
Context `{RL : Rustls}.

(** [tls_error_source]. *)
Definition tls_error_source (e : TlsIoError) : Z :=
  match tls_inner e with Some source => source | None => general (tls_message e) end.

Definition handshake_error (source : Z) : Error := TlsHandshake source None.

Definition tls_result {A} (r : A + Z) : Result A :=
  match r with inl a => Ok a | inr source => Err (handshake_error source) end.

(** [load_pem_cert_chain] and [load_pem_private_key]; collecting stops at the
    first item that is not a certificate. *)
Definition load_pem_cert_chain (pem : list Z) : Result (list CertificateDer) :=
  ok_or (Configuration "pem")
    (mapM (λ item, match item with inl cert => Some cert | inr _ => None end) (pem_slice_iter pem)).

Definition load_pem_private_key (pem : list Z) : Result PrivateKeyDer :=
  match key_from_pem_slice pem with inl key => Ok key | inr _ => Err (Configuration "pem") end.

(** [RootStore]: [empty], [native] (the default) and [add_pem], which adds as it
    goes. *)
Record RootStore := mkRootStore { roots : RootCertStore }.

Definition RootStore_empty : RootStore := mkRootStore store_empty.

Definition RootStore_native : RootStore :=
  mkRootStore (store_add_parsable load_native_certs store_empty).

Fixpoint add_certs (certs : list CertificateDer) (store : RootCertStore)
    : Result unit * RootCertStore :=
  match certs with
  | [] => (Ok tt, store)
  | cert :: certs' =>
      match store_add cert store with
      | inl store' => add_certs certs' store'
      | inr _ => (Err (Configuration "pem"), store)
      end
  end.

Definition add_pem (pem : list Z) (store : RootStore) : Result unit * RootStore :=
  match load_pem_cert_chain pem with
  | Ok certs => let '(r, store') := add_certs certs (roots store) in (r, mkRootStore store')
  | Err e => (Err e, store)
  | Panic => (Panic, store)
  end.

(** [ServerCertVerification], [ClientIdentity] and [TlsClientConfig]. *)
Inductive ServerCertVerification :=
  | Verify (store : RootStore)
  | DangerousDisableVerification.

Definition ServerCertVerification_default : ServerCertVerification := Verify RootStore_native.

Record ClientIdentity := mkClientIdentity {
  ci_cert_chain : list CertificateDer;
  ci_key : PrivateKeyDer;
}.

Record TlsClientConfig := mkTlsClientConfig {
  server_cert : ServerCertVerification;
  client_identity : option ClientIdentity;
}.

(** [NoServerCertVerification]. *)
Definition NoServerCertVerification : ServerCertVerifier := {|
  verify_server_cert _ _ _ _ _ := inl tt;
  sv_verify_tls12_signature := provider_tls12_signature;
  sv_verify_tls13_signature := provider_tls13_signature;
  sv_supported_verify_schemes := provider_schemes;
|}.

(** [client_config]. *)
Definition client_config (config : TlsClientConfig) : Result RustlsClientConfig :=
  _ ← tls_result safe_default_protocol_versions;
  let trust := match server_cert config with
    | Verify store => TrustRoots (roots store)
    | DangerousDisableVerification => TrustVerifier NoServerCertVerification
    end in
  match client_identity config with
  | Some identity =>
      _ ← tls_result (client_auth_cert_ok (ci_cert_chain identity) (ci_key identity));
      Ok (mkRustlsClientConfig trust (Some (ci_cert_chain identity, ci_key identity)))
  | None => Ok (mkRustlsClientConfig trust None)
  end.

(** Attempts in sequence: what follows a success takes its own time. *)
Definition then_attempt {A B} (a : Attempt (Result A)) (k : A → Attempt (Result B))
    : Attempt (Result B) :=
  match a with
  | Never => Never
  | CompletesAfter d (Ok x) =>
      match k x with CompletesAfter d' r => CompletesAfter (d + d') r | Never => Never end
  | CompletesAfter d (Err e) => CompletesAfter d (Err e)
  | CompletesAfter d Panic => CompletesAfter d Panic
  end.

Definition map_attempt {A B} (f : A → B) (a : Attempt A) : Attempt B :=
  match a with CompletesAfter d x => CompletesAfter d (f x) | Never => Never end.

(** [connect_tls_framed] and [connect_tls]: one timeout over the TCP connect, the
    socket option and the handshake together. *)
Definition tls_attempt (config : RustlsClientConfig) (addr : SocketAddr) (tcp : TcpConfig)
    (connect : Attempt (Stream + IoError)) (set_nodelay : bool → unit + IoError)
    : Attempt (Result Stream) :=
  then_attempt (map_attempt io_result connect) (λ tcp_stream,
    then_attempt (CompletesAfter 0 (io_result (set_nodelay (nodelay tcp)))) (λ _,
      map_attempt (λ r, match r with
        | inl stream => Ok stream
        | inr e => Err (TlsHandshake (tls_error_source e) None)
        end) (tls_connect config (ip addr) tcp_stream))).

Definition connect_tls_framed (F : Framing) (addr : SocketAddr) (tcp : TcpConfig)
    (tls : TlsClientConfig) (connect : Attempt (Stream + IoError))
    (set_nodelay : bool → unit + IoError) : Result (FrameTransport F) :=
  config ← client_config tls;
  match timeout (connect_timeout tcp) (tls_attempt config addr tcp connect set_nodelay) with
  | Some result => stream ← result; Ok (FrameTransport_new stream)
  | None => Err (Timeout "connect")
  end.

Definition connect_tls {w : Winnow} := connect_tls_framed Tcp_framing.

(** [ClientCertPolicy] and [TlsServerConfig]. *)
Inductive ClientCertPolicy :=
  | PolicyRequire (store : RootStore)
  | PolicyAllowAny
  | PolicyNone.

Record TlsServerConfig := mkTlsServerConfig {
  cert_chain : list CertificateDer;
  server_key : PrivateKeyDer;
  client_certs : ClientCertPolicy;
}.

(** [try_with]: a write to the task-local, if it is set. *)
Definition note_rejected (cert : CertificateDer) (cell : Cell) : Cell :=
  match cell with Some _ => Some (Some cert) | None => None end.

(** [CapturingClientCertVerifier]. *)
Definition CapturingClientCertVerifier (inner : ClientCertVerifier) : ClientCertVerifier := {|
  offer_client_auth := offer_client_auth inner;
  client_auth_mandatory := client_auth_mandatory inner;
  root_hint_subjects := root_hint_subjects inner;
  verify_client_cert end_entity intermediates now cell :=
    let '(result, cell') := verify_client_cert inner end_entity intermediates now cell in
    match result with
    | inr _ => (result, note_rejected end_entity cell')
    | inl _ => (result, cell')
    end;
  cv_verify_tls12_signature := cv_verify_tls12_signature inner;
  cv_verify_tls13_signature := cv_verify_tls13_signature inner;
  cv_supported_verify_schemes := cv_supported_verify_schemes inner;
  requires_raw_public_keys := requires_raw_public_keys inner;
|}.

(** [AllowAnyClientCertVerifier]. *)
Definition AllowAnyClientCertVerifier : ClientCertVerifier := {|
  offer_client_auth := default_offer_client_auth;
  client_auth_mandatory := default_client_auth_mandatory;
  root_hint_subjects := [];
  verify_client_cert _ _ _ cell := (inl tt, cell);
  cv_verify_tls12_signature := provider_tls12_signature;
  cv_verify_tls13_signature := provider_tls13_signature;
  cv_supported_verify_schemes := provider_schemes;
  requires_raw_public_keys := default_requires_raw_public_keys;
|}.

(** [server_config]. *)
Definition server_config (config : TlsServerConfig) : Result RustlsServerConfig :=
  _ ← tls_result safe_default_protocol_versions;
  verifier ← (match client_certs config with
    | PolicyRequire store =>
        match webpki_client_verifier (roots store) with
        | inl verifier => Ok (Some (CapturingClientCertVerifier verifier))
        | inr message => Err (handshake_error (general message))
        end
    | PolicyAllowAny => Ok (Some AllowAnyClientCertVerifier)
    | PolicyNone => Ok None
    end);
  _ ← tls_result (single_cert_ok (cert_chain config) (server_key config));
  Ok (mkRustlsServerConfig verifier (cert_chain config, server_key config)).

(** [TlsListener]: [bind], [local_addr], [accept_tcp_only]. *)
Record TlsListener := mkTlsListener { tls_inner_listener : TcpListener; acceptor : RustlsServerConfig }.

Definition TlsListener_bind (config : TlsServerConfig) (outcome : TcpListener + IoError)
    : Result TlsListener :=
  acceptor ← server_config config;
  inner ← TcpListener_bind outcome;
  Ok (mkTlsListener inner acceptor).

Definition tls_local_addr (l : TlsListener) : Result SocketAddr := local_addr (tls_inner_listener l).

Definition with_inner (l : TlsListener) (inner : TcpListener) : TlsListener :=
  mkTlsListener inner (acceptor l).

Definition tls_accept_tcp_only (l : TlsListener) : Poll TlsListener (Stream * SocketAddr) :=
  lift_poll (with_inner l) (accept_tcp_only (tls_inner_listener l)).

(** [handshake_framed]: the task-local is set for this handshake only; [None]
    while the peer has not finished it. *)
Definition handshake_framed (F : Framing) (config : RustlsServerConfig) (stream : Stream)
    : option (Result (FrameTransport F * option CertificateDer)) :=
  '(result, cell) ← tls_accept config stream (Some None);
  let rejected_cert := match cell with Some taken => taken | None => None end in
  Some (match result with
        | inl tls => Ok (FrameTransport_new (tls_stream tls), peer_certificates tls ≫= head)
        | inr io_error => Err (TlsHandshake (tls_error_source io_error) rejected_cert)
        end).

(** [accept_framed] and [accept]. *)
Definition tls_accept_framed (F : Framing) (l : TlsListener)
    : Poll TlsListener (FrameTransport F * SocketAddr * option CertificateDer) :=
  match tls_accept_tcp_only l with
  | Unfinished l' => Unfinished l'
  | Finished (Err e) l' => Finished (Err e) l'
  | Finished Panic l' => Finished Panic l'
  | Finished (Ok (stream, peer)) l' =>
      match handshake_framed F (acceptor l) stream with
      | None => Unfinished l'
      | Some r => Finished ('(transport, cert) ← r; Ok (transport, peer, cert)) l'
      end
  end.

Definition tls_accept_tcp {w : Winnow} := tls_accept_framed Tcp_framing.
End tls.

(** ** What is assumed of the libraries *)

(** The client certificate a peer offers in a handshake, if it does; and the
    connection whose session a handshake resumes, if it does not run in full: the
    server configuration leaves the session storage of rustls on. *)
Class TlsPeers `{RustlsTypes} := {
  client_offer : RustlsServerConfig → Stream → option (CertificateDer * list CertificateDer * UnixTime);
  resumes : RustlsServerConfig → Stream → option Stream;
}.

(** A finished server-side handshake that runs in full has consulted the configured
    verifier about the certificate offered, and nothing else has touched the
    task-local; it fails with the error of a verifier that rejects, and when a
    mandatory certificate is missing; a certificate it reports is the one offered.
    A handshake that resumes a session asks for no certificate and consults no
    verifier: it reports the certificates stored with the session, those of the
    full handshake the session comes from, which succeeded under the same
    configuration.  The library's own verifier knows nothing of the crate's
    task-local and wants a certificate, and so does one that keeps the default
    methods. *)
Class RustlsSpec `{RL : Rustls, TP : !TlsPeers} : Prop := {
  accept_cell cfg stream cell r cell' : tls_accept cfg stream cell = Some (r, cell') →
    cell' = match rs_verifier cfg, client_offer cfg stream with
            | Some v, Some (cert, inter, now) => (verify_client_cert v cert inter now cell).2
            | _, _ => cell
            end;
  accept_rejects cfg stream cell r cell' v cert inter now e :
    tls_accept cfg stream cell = Some (r, cell') → rs_verifier cfg = Some v →
    client_offer cfg stream = Some (cert, inter, now) →
    (verify_client_cert v cert inter now cell).1 = inr e →
    ∃ message, r = inr (mkTlsIoError message (Some e));
  accept_mandatory cfg stream cell r cell' v :
    tls_accept cfg stream cell = Some (r, cell') → rs_verifier cfg = Some v →
    resumes cfg stream = None →
    client_auth_mandatory v = true → client_offer cfg stream = None → ∃ e, r = inr e;
  accept_certs cfg stream cell tls cell' :
    tls_accept cfg stream cell = Some (inl tls, cell') → resumes cfg stream = None →
    peer_certificates tls = match rs_verifier cfg, client_offer cfg stream with
                            | Some _, Some (cert, inter, _) => Some (cert :: inter)
                            | _, _ => None
                            end;
  resumed_offers_nothing cfg stream original :
    resumes cfg stream = Some original → client_offer cfg stream = None;
  accept_resumed cfg stream cell tls cell' original :
    tls_accept cfg stream cell = Some (inl tls, cell') → resumes cfg stream = Some original →
    ∃ tls0 cell0, tls_accept cfg original (Some None) = Some (inl tls0, cell0) ∧
      resumes cfg original = None ∧ peer_certificates tls = peer_certificates tls0;
  webpki_pure store v cert inter now cell : webpki_client_verifier store = inl v →
    (verify_client_cert v cert inter now cell).2 = cell;
  webpki_mandatory store v : webpki_client_verifier store = inl v → client_auth_mandatory v = true;
  default_mandatory : default_client_auth_mandatory = true;
}.

Section tls_properties.
Context `{RS : RustlsSpec}.

(** The verdict of a root store on an offer. *)
Definition verdict (store : RootStore) (cert : CertificateDer) (inter : list CertificateDer)
    (now : UnixTime) : option (unit + Z) :=
  match webpki_client_verifier (roots store) with
  | inl v => Some (verify_client_cert v cert inter now (Some None)).1
  | inr _ => None
  end.

Lemma server_config_verifier config cfg :
  server_config config = Ok cfg →
  match client_certs config with
  | PolicyRequire store => ∃ v, webpki_client_verifier (roots store) = inl v ∧
      rs_verifier cfg = Some (CapturingClientCertVerifier v)
  | PolicyAllowAny => rs_verifier cfg = Some AllowAnyClientCertVerifier
  | PolicyNone => rs_verifier cfg = None
  end.
Proof.
  unfold server_config. destruct (tls_result safe_default_protocol_versions) as [[]|e|]; [|done..].
  rewrite Result_bind_ok. destruct (client_certs config) as [store| |].
  1: destruct (webpki_client_verifier (roots store)) as [v|m]; [|done].
  all: rewrite Result_bind_ok; destruct (tls_result (single_cert_ok _ _)) as [[]|e|]; [|done..];
    intros [= <-]; eauto.
Qed.

(** The capturing verifier decides as the one it wraps, and notes a rejection. *)
Lemma capturing_verdict store v cert inter now :
  webpki_client_verifier store = inl v →
  verify_client_cert (CapturingClientCertVerifier v) cert inter now (Some None) =
  (let d := (verify_client_cert v cert inter now (Some None)).1 in
   (d, Some (match d with inl _ => None | inr _ => Some cert end))).
Proof.
  intros Hv. cbn. pose proof (webpki_pure store v cert inter now (Some None) Hv) as Hp.
  destruct (verify_client_cert v cert inter now (Some None)) as [[u|e] c]; cbn in *; by subst.
Qed.

(** What a finished handshake leaves in the task-local, by policy. *)
Lemma handshake_cell config cfg stream r cell :
  server_config config = Ok cfg → tls_accept cfg stream (Some None) = Some (r, cell) →
  cell = Some (match client_certs config, client_offer cfg stream with
               | PolicyRequire store, Some (c, inter, now) =>
                   match verdict store c inter now with Some (inr _) => Some c | _ => None end
               | _, _ => None
               end).
Proof.
  intros Hc Ha. apply accept_cell in Ha. apply server_config_verifier in Hc.
  destruct (client_certs config) as [store| |]; [destruct Hc as (v & Hv & Hc)|..];
    rewrite Hc in Ha; [|by repeat case_match|done].
  destruct (client_offer cfg stream) as [[[c inter] now]|]; [|done].
  rewrite (capturing_verdict _ v) in Ha by done. unfold verdict. rewrite Hv, Ha. cbn.
  by destruct (verify_client_cert v c inter now (Some None)).1.
Qed.

(** A rejected certificate is a failed handshake, with the verifier's error. *)
Lemma handshake_rejected config cfg stream r cell store c inter now e :
  server_config config = Ok cfg → tls_accept cfg stream (Some None) = Some (r, cell) →
  client_certs config = PolicyRequire store → client_offer cfg stream = Some (c, inter, now) →
  verdict store c inter now = Some (inr e) → ∃ message, r = inr (mkTlsIoError message (Some e)).
Proof.
  intros Hc Ha Hp Ho Hd. apply server_config_verifier in Hc. rewrite Hp in Hc.
  destruct Hc as (v & Hv & Hc). eapply accept_rejects; [done..|].
  rewrite (capturing_verdict _ v) by done. unfold verdict in Hd. rewrite Hv in Hd.
  injection Hd as Hd. by rewrite Hd.
Qed.

Lemma handshake_wants_certificate config cfg stream r cell :
  server_config config = Ok cfg → tls_accept cfg stream (Some None) = Some (r, cell) →
  client_certs config ≠ PolicyNone → resumes cfg stream = None → client_offer cfg stream = None →
  ∃ e, r = inr e.
Proof.
  intros Hc Ha Hp Hr Ho. apply server_config_verifier in Hc.
  destruct (client_certs config) as [store| |]; [destruct Hc as (v & Hv & Hc)|..]; [| |done];
    (eapply accept_mandatory; [done..| |done]); cbn;
    [by eapply webpki_mandatory|apply default_mandatory].
Qed.

(** The connection whose handshake the session of a connection comes from. *)
Definition session_of (cfg : RustlsServerConfig) (stream : Stream) : Stream :=
  default stream (resumes cfg stream).

(** Whether a connection carries what the policy asks of the peer's offer, in its
    own handshake or in that of the session it resumes. *)
Definition admitted_by (policy : ClientCertPolicy) (cfg : RustlsServerConfig) (stream : Stream)
    (cert : option CertificateDer) : Prop :=
  match policy with
  | PolicyRequire store => ∃ c inter now,
      client_offer cfg (session_of cfg stream) = Some (c, inter, now) ∧
      cert = Some c ∧ verdict store c inter now = Some (inl tt)
  | PolicyAllowAny => ∃ c inter now,
      client_offer cfg (session_of cfg stream) = Some (c, inter, now) ∧ cert = Some c
  | PolicyNone => cert = None
  end.

(** A handshake in full, and one that resumes. *)
Lemma full_handshake_admits config cfg stream tls cell :
  server_config config = Ok cfg → tls_accept cfg stream (Some None) = Some (inl tls, cell) →
  resumes cfg stream = None → admitted_by (client_certs config) cfg stream (peer_certificates tls ≫= head).
Proof.
  intros Hc Ha Hr. pose proof (server_config_verifier _ _ Hc) as Hv.
  pose proof (accept_certs _ _ _ _ _ Ha Hr) as Hp.
  pose proof (handshake_wants_certificate _ _ _ _ _ Hc Ha) as Hw.
  unfold admitted_by, session_of. rewrite Hr. cbn [default].
  destruct (client_offer cfg stream) as [[[c inter] now]|] eqn:Eo.
  - rewrite Hp. destruct (client_certs config) as [store| |] eqn:Ec.
    + destruct Hv as (v & Hv & Hcv). rewrite Hcv. exists c, inter, now. split_and!; [done..|].
      unfold verdict. rewrite Hv. f_equal.
      destruct (verify_client_cert v c inter now (Some None)).1 as [[]|e] eqn:Ed; [done|].
      destruct (handshake_rejected _ _ _ _ _ store c inter now e Hc Ha) as [m Hm]; try done.
      unfold verdict. by rewrite Hv, Ed.
    + rewrite Hv. by exists c, inter, now.
    + by rewrite Hv.
  - destruct (client_certs config) as [store| |]; [by destruct Hw..|]. by rewrite Hp, Hv.
Qed.

Lemma handshake_admits config cfg stream tls cell :
  server_config config = Ok cfg → tls_accept cfg stream (Some None) = Some (inl tls, cell) →
  admitted_by (client_certs config) cfg stream (peer_certificates tls ≫= head).
Proof.
  intros Hc Ha. destruct (resumes cfg stream) as [original|] eqn:Er; [|by eapply full_handshake_admits].
  destruct (accept_resumed _ _ _ _ _ _ Ha Er) as (tls0 & cell0 & Ha0 & Er0 & ->).
  pose proof (full_handshake_admits _ _ _ _ _ Hc Ha0 Er0) as Hfull.
  unfold admitted_by, session_of in *. rewrite Er0 in Hfull. by rewrite Er.
Qed.

(** Client certificates over TLS.  A connection is accepted under
    [Require] only with a certificate the root store verified, under [AllowAny]
    only with one offered, in its own handshake or in that of the session it
    resumes, and under [None] without any, and the connection
    carries exactly that certificate; a handshake that fails reports a
    certificate exactly when the root store rejected it in that very handshake,
    with the store's error, and never one left over from another handshake; and
    every failure is a handshake failure (SV-R-055, TR-R-066, TR-R-067,
    TR-R-069). *)
Lemma tls_client_certificates config cfg F stream r :
  server_config config = Ok cfg → handshake_framed F cfg stream = Some r →
  match r with
  | Ok (t, cert) => pristine t ∧ admitted_by (client_certs config) cfg stream cert
  | Err (TlsHandshake source peer_cert) => ∀ c, peer_cert = Some c ↔
      ∃ store inter now, client_certs config = PolicyRequire store ∧
        client_offer cfg stream = Some (c, inter, now) ∧
        verdict store c inter now = Some (inr source)
  | _ => False
  end.
Proof.
  intros Hc Hh. unfold handshake_framed in Hh.
  destruct (tls_accept cfg stream (Some None)) as [[res cell]|] eqn:Ha; [|done].
  pose proof (handshake_cell _ _ _ _ _ Hc Ha) as Hcell. cbn in Hh. injection Hh as <-.
  destruct res as [tls|e]; [split; [done|by eapply handshake_admits]|].
  intros c. rewrite Hcell. split.
  - destruct (client_certs config) as [store| |] eqn:Ec; [|done..].
    destruct (client_offer cfg stream) as [[[c' inter] now]|] eqn:Eo; [|done].
    destruct (verdict store c' inter now) as [[|source]|] eqn:Ed; [done| |done]. intros [= <-].
    destruct (handshake_rejected _ _ _ _ _ store c' inter now source Hc Ha) as [m Hm]; [done..|].
    injection Hm as ->. by exists store, inter, now.
  - intros (store & inter & now & -> & -> & ->). done.
Qed.
End tls_properties.

Section tls_client.
Context `{RL : Rustls}.

(** The verifier that accepts everything is installed under its own name only. *)
Lemma client_config_trust tls cfg :
  client_config tls = Ok cfg →
  match server_cert tls with
  | Verify store => rc_trust cfg = TrustRoots (roots store)
  | DangerousDisableVerification => rc_trust cfg = TrustVerifier NoServerCertVerification
  end.
Proof.
  unfold client_config. destruct (tls_result safe_default_protocol_versions) as [[]|e|]; [|done..].
  rewrite Result_bind_ok. destruct (client_identity tls) as [identity|].
  1: destruct (tls_result (client_auth_cert_ok _ _)) as [[]|e|]; [|done..].
  all: intros [= <-]; by destruct (server_cert tls).
Qed.

Lemma client_config_errors tls :
  match client_config tls with
  | Ok _ => True | Err (TlsHandshake _ cert) => cert = None | _ => False
  end.
Proof.
  unfold client_config, tls_result. destruct safe_default_protocol_versions; [|done]. cbn.
  destruct (client_identity tls) as [i|]; [|done]. by destruct (client_auth_cert_ok _ _).
Qed.

(** C33. Connecting over TLS: a transport is returned only when the TCP
    connect, the socket option and the handshake all succeeded within the one
    connect timeout, under the trust asked for, so that verification is skipped
    only when the configuration says so by name; expiry is a timeout, a failed
    handshake is a handshake failure without a peer certificate, and the rest are
    I/O errors (TR-R-021, TR-R-062, TR-R-065, TR-R-067). *)
Theorem connect_tls_outcome F addr tcp tls connect set_nodelay :
  match connect_tls_framed F addr tcp tls connect set_nodelay with
  | Ok t => pristine t ∧ ∃ cfg d1 stream d2, client_config tls = Ok cfg ∧
      connect = CompletesAfter d1 (inl stream) ∧ set_nodelay (nodelay tcp) = inl tt ∧
      tls_connect cfg (ip addr) stream = CompletesAfter d2 (inl (ft_stream t)) ∧
      d1 + d2 ≤ connect_timeout tcp ∧
      (∀ v, rc_trust cfg = TrustVerifier v → server_cert tls = DangerousDisableVerification) ∧
      (∀ store, server_cert tls = Verify store → rc_trust cfg = TrustRoots (roots store))
  | Err (Timeout what) => what = "connect"%string ∧ ∃ cfg, client_config tls = Ok cfg ∧
      ∀ d r, tls_attempt cfg addr tcp connect set_nodelay = CompletesAfter d r →
        connect_timeout tcp < d
  | Err (TlsHandshake _ peer_cert) => peer_cert = None
  | Err (Io kind raw) =>
      (∃ d, connect = CompletesAfter d (inr (mkIoError kind raw))) ∨
      set_nodelay (nodelay tcp) = inr (mkIoError kind raw)
  | _ => False
  end.
Proof.
  unfold connect_tls_framed. pose proof (client_config_errors tls) as He.
  destruct (client_config tls) as [cfg|e|] eqn:Ec; [|by destruct e|done]. rewrite Result_bind_ok.
  unfold timeout. destruct (tls_attempt cfg addr tcp connect set_nodelay) as [d r|] eqn:Ea;
    [|split; [done|]; exists cfg; split; [done|]; congruence].
  destruct (Z.leb_spec d (connect_timeout tcp));
    [|split; [done|]; exists cfg; split; [done|]; congruence].
  unfold tls_attempt in Ea. destruct connect as [d1 [stream|[kind raw]]|]; [| |done]; cbn in Ea.
  2: injection Ea as <- <-; left; by exists d1.
  destruct (set_nodelay (nodelay tcp)) as [[]|[kind raw]] eqn:En; cbn in Ea; [|injection Ea as <- <-; by right].
  destruct (tls_connect cfg (ip addr) stream) as [d2 [tls_s|e]|] eqn:Et; [| |done]; cbn in Ea;
    injection Ea as <- <-; [|done].
  split; [done|]. exists cfg, d1, stream, d2. pose proof (client_config_trust _ _ Ec) as Hq.
  split_and!; try done.
  - intros v Hv. destruct (server_cert tls); [congruence|done].
  - intros store Hs. by rewrite Hs in Hq.
Qed.

(** Adding a document to a root store stops at the first certificate it cannot
    add and keeps those before it. *)
Lemma add_certs_prefix certs store r store' :
  add_certs certs store = (r, store') →
  ∃ added rest_, certs = added ++ rest_ ∧ add_certs added store = (Ok tt, store') ∧
    match r with
    | Ok _ => rest_ = []
    | Err e => e = Configuration "pem" ∧ ∃ bad more e', rest_ = bad :: more ∧ store_add bad store' = inr e'
    | Panic => False
    end.
Proof.
  revert store. induction certs as [|c certs IH]; intros store; cbn [add_certs].
  { intros [= <- <-]. by exists [], []. }
  destruct (store_add c store) as [store1|e] eqn:Ea.
  - intros Hs. destruct (IH _ Hs) as (added & rest_ & -> & H1 & H2). exists (c :: added), rest_.
    split_and!; [done| |done]. cbn [add_certs]. by rewrite Ea.
  - intros [= <- <-]. exists [], (c :: certs). split_and!; [done..|]. by eauto.
Qed.
End tls_client.

(** ** Witnesses *)

(** A small TLS library: a root store is a list of trusted certificates, a full
    handshake consults the verifier about the peer's certificate, which is the
    first arrival on its stream; a first arrival of the byte 1 resumes the session
    of a peer with the certificate 9, 9, if that one is accepted. *)
Module Toy.

#[local] Instance types : RustlsTypes := {|
  RootCertStore := list (list Z); PrivateKeyDer := unit; UnixTime := Z;
  DistinguishedName := list Z; DigitallySigned := list Z;
|}.

Definition trusts (store : list (list Z)) (cert : list Z) : unit + Z :=
  if bool_decide (cert ∈ store) then inl tt else inr 7.

Definition verifier (store : list (list Z)) : ClientCertVerifier := {|
  offer_client_auth := true; client_auth_mandatory := true; root_hint_subjects := [];
  verify_client_cert cert _ _ cell := (trusts store cert, cell);
  cv_verify_tls12_signature _ _ _ := inl tt; cv_verify_tls13_signature _ _ _ := inl tt;
  cv_supported_verify_schemes := []; requires_raw_public_keys := false;
|}.

Definition offer (stream : Stream) : option (list Z * list (list Z) * Z) :=
  match arrivals (read_half stream) with Ready (Bytes cert) :: _ => Some (cert, [], 0) | _ => None end.

(** What follows the certificate is the decrypted stream. *)
Definition decrypted (stream : Stream) : Stream :=
  mkStream (mkReadHalf (drop 1 (arrivals (read_half stream)))) (write_half stream).

Definition toy_full (cfg : RustlsServerConfig) (stream : Stream) (cell : Cell)
    : option ((TlsStream + TlsIoError) * Cell) :=
  match rs_verifier cfg, offer stream with
  | None, _ => Some (inl (mkTlsStream stream None), cell)
  | Some v, None => Some (if client_auth_mandatory v then inr (mkTlsIoError "no certificate" (Some 1))
                          else inl (mkTlsStream stream None), cell)
  | Some v, Some (cert, inter, now) =>
      let '(d, cell') := verify_client_cert v cert inter now cell in
      Some (match d with
            | inl _ => inl (mkTlsStream (decrypted stream) (Some (cert :: inter)))
            | inr e => inr (mkTlsIoError "rejected" (Some e))
            end, cell')
  end.

Definition friend : Stream := mkStream (mkReadHalf [Ready (Bytes [9; 9])]) (mkWriteHalf [] []).

Definition toy_resumes (cfg : RustlsServerConfig) (stream : Stream) : option Stream :=
  match arrivals (read_half stream), toy_full cfg friend (Some None) with
  | Ready (Bytes [1]) :: _, Some (inl _, _) => Some friend
  | _, _ => None
  end.

Definition toy_accept (cfg : RustlsServerConfig) (stream : Stream) (cell : Cell)
    : option ((TlsStream + TlsIoError) * Cell) :=
  match toy_resumes cfg stream with
  | None => toy_full cfg stream cell
  | Some original =>
      match toy_full cfg original (Some None) with
      | Some (inl tls, _) => Some (inl (mkTlsStream (decrypted stream) (peer_certificates tls)), cell)
      | _ => None
      end
  end.

#[local] Instance rustls : Rustls := {|
  general _ := 0; store_empty := []; store_add cert store := inl (cert :: store);
  store_add_parsable certs store := certs ++ store; load_native_certs := [];
  pem_slice_iter _ := []; key_from_pem_slice _ := inl tt; safe_default_protocol_versions := inl tt;
  client_auth_cert_ok _ _ := inl tt; single_cert_ok _ _ := inl tt;
  provider_tls12_signature _ _ _ := inl tt; provider_tls13_signature _ _ _ := inl tt;
  provider_schemes := []; webpki_client_verifier store := inl (verifier store);
  default_offer_client_auth := true; default_client_auth_mandatory := true;
  default_requires_raw_public_keys := false;
  tls_connect _ _ stream := CompletesAfter 1 (inl stream); tls_accept := toy_accept;
|}.

#[local] Instance peers : TlsPeers := {|
  client_offer cfg stream := match toy_resumes cfg stream with Some _ => None | None => offer stream end;
  resumes := toy_resumes;
|}.

Lemma toy_resumes_friend cfg stream original :
  toy_resumes cfg stream = Some original →
  original = friend ∧ toy_resumes cfg friend = None ∧
  ∃ tls cell, toy_full cfg friend (Some None) = Some (inl tls, cell).
Proof.
  intros H. assert (original = friend ∧ ∃ tls cell, toy_full cfg friend (Some None) = Some (inl tls, cell))
    as [-> Hf] by (unfold toy_resumes in H; repeat case_match; simplify_eq; eauto).
  split_and!; [done|done|exact Hf].
Qed.

#[local] Instance spec : RustlsSpec.
Proof.
  split; cbn; unfold toy_accept.
  - intros cfg stream cell r cell' H. destruct (toy_resumes cfg stream) as [s0|] eqn:Er.
    { apply toy_resumes_friend in Er as (-> & _ & tls & c & E). rewrite E in H. injection H as _ <-.
      by destruct (rs_verifier cfg). }
    unfold toy_full in H. destruct (rs_verifier cfg) as [v|]; [|by injection H as _ <-].
    destruct (offer stream) as [[[c i] n]|]; [|by injection H as _ <-].
    destruct (verify_client_cert v c i n cell) as [d cl]. by injection H as _ <-.
  - intros cfg stream cell r cell' v c i n e H Hv Ho Hd.
    destruct (toy_resumes cfg stream); [done|]. unfold toy_full in H. rewrite Hv, Ho in H. cbn in H.
    destruct (verify_client_cert v c i n cell) as [d cl]. cbn in Hd. subst d.
    injection H as <- _. by eexists.
  - intros cfg stream cell r cell' v H Hv Hr Hm Ho. rewrite Hr in H, Ho. unfold toy_full in H.
    rewrite Hv, Ho, Hm in H. injection H as <- _. by eexists.
  - intros cfg stream cell tls cell' H Hr. rewrite Hr in H |- *. unfold toy_full in H.
    destruct (rs_verifier cfg) as [v|]; [|by injection H as <- _].
    destruct (offer stream) as [[[c i] n]|].
    + destruct (verify_client_cert v c i n cell) as [[u|e] cl]; [|done]. by injection H as <- _.
    + destruct (client_auth_mandatory v); [done|]. by injection H as <- _.
  - intros cfg stream s0 Hr. by rewrite Hr.
  - intros cfg stream cell tls cell' s0 H Hr. rewrite Hr in H.
    apply toy_resumes_friend in Hr as (-> & Hn & tls0 & c & E). rewrite E in H. injection H as <- _.
    exists tls0, c. by rewrite Hn, E.
  - by intros store v c i n cell [= <-].
  - by intros store v [= <-].
  - done.
Qed.

(** A peer that offers a certificate the store does not trust. *)
Definition stranger : Stream :=
  mkStream (mkReadHalf [Ready (Bytes [4; 2])]) (mkWriteHalf [] []).

Definition demanding : TlsServerConfig :=
  mkTlsServerConfig [[1]] tt (PolicyRequire (mkRootStore [[9; 9]])).

Lemma tls_client_certificates_witness :
  ∃ store inter now, client_certs demanding = PolicyRequire store ∧
    offer stranger = Some ([4; 2], inter, now) ∧ verdict store [4; 2] inter now = Some (inr 7).
Proof.
  exact (proj1 (tls_client_certificates demanding
    (mkRustlsServerConfig (Some (CapturingClientCertVerifier (verifier [[9; 9]]))) ([[1]], tt))
    (Tcp_framing (w := winnow_model)) stranger (Err (TlsHandshake 7 (Some [4; 2])))
    eq_refl eq_refl [4; 2]) eq_refl).
Defined.
End Toy.
