(* ===== verification/Link.v ===== *)
(** * Serving one transport ([src/server/mod.rs])

    [exchange], [serve_connection] and [Server::serve_link] over a
    [FrameTransport]: requests are received from its stream and answers written
    to it.  [signals] says, pass by pass, whether the shutdown signal is seen
    before the receive of the pass completes; the transport is dropped when
    serving it ends. *)

From S2P Require Import Prelude.
From S2P Require Import Errors.
From S2P Require Import Parse.
From S2P Require Import Value.
From S2P Require Import Function.
From S2P Require Import Exception.
From S2P Require Import Wire.
From S2P Require Import Pdu.
From S2P Require Import PduSpec.
From S2P Require Import PduRoundtrip.
From S2P Require Import Framing.
From S2P Require Import Rtu.
From S2P Require Import RtuStream.
From S2P Require Import Tcp.
From S2P Require Import Ascii.
From S2P Require Import Serial.
From S2P Require Import Transport.
From S2P Require Import TransportSpec.
From S2P Require Import TransportSafety.
From S2P Require Import TransportTheorems.
From S2P Require Import Outgoing.
From S2P Require Import Framed.
From S2P Require Import FramedTheorems.
From S2P Require Import Server.
From S2P Require Import ServerTheorems.

Section link.
Context (F : Framing) {SF : ServerFraming F} (svc : Service).
Context (config : ServerConfig) (conn : Connection).

(** How a pass of the loop leaves it. *)
Inductive Pass :=
  | PassNext
  | PassEnd (reason : Disconnect)
  | PassPanic
  | PassBlocked.

(** The body of the loop, from a decoded request on. *)
Definition answer_over (header : Header F) (request : RequestPdu) (s : SvcState svc)
    (t : FrameTransport F) : Pass * SvcState svc * FrameTransport F :=
  let unit := unit_of header in
  let broadcast := addresses_all unit in
  if negb broadcast && foreign config unit then (PassNext, s, t) else
  let function := RequestPdu_function request in
  let '(answer, s') := on_request svc conn unit request s in
  match response_of function answer with
  | None => (PassNext, s', t)
  | Some response =>
      if broadcast then (PassNext, s', t) else
      match ft_send_response header response t with
      | Unfinished t' => (PassBlocked, s', t')
      | Finished (Ok _) t' => (PassNext, s', t')
      | Finished (Err error) t' =>
          let s'' := on_error svc conn error s' in
          if ends_stream error then (PassEnd (DisconnectFailed error), s'', t')
          else (PassNext, s'', t')
      | Finished Panic t' => (PassPanic, s', t')
      end
  end.

(** [exchange]. *)
Fixpoint exchange_over (fuel : nat) (signals : list bool) (s : SvcState svc)
    (t : FrameTransport F) : option (Poll (SvcState svc * FrameTransport F) Disconnect) :=
  match fuel with
  | O => None
  | S fuel =>
      if hd false signals then Some (Finished (Ok ShuttingDown) (s, t)) else
      match ft_recv_request t with
      | Unfinished t' => Some (Unfinished (s, t'))
      | Finished Panic t' => Some (Finished Panic (s, t'))
      | Finished (Err (Io UnexpectedEof _)) t' => Some (Finished (Ok Closed) (s, t'))
      | Finished (Err error) t' =>
          let s' := on_error svc conn error s in
          if ends_stream error || negb (is_self_locating (boundary F))
          then Some (Finished (Ok (DisconnectFailed error)) (s', t'))
          else exchange_over fuel (tl signals) s' t'
      | Finished (Ok (header, request)) t' =>
          match answer_over header request s t' with
          | (PassNext, s', t'') => exchange_over fuel (tl signals) s' t''
          | (PassEnd reason, s', t'') => Some (Finished (Ok reason) (s', t''))
          | (PassPanic, s', t'') => Some (Finished Panic (s', t''))
          | (PassBlocked, s', t'') => Some (Unfinished (s', t''))
          end
      end
  end.

(** [serve_connection]. *)
Definition serve_connection_over (fuel : nat) (signals : list bool) (s : SvcState svc)
    (t : FrameTransport F) : option (Poll (SvcState svc * FrameTransport F) unit) :=
  match on_connect svc conn s with
  | (Reject, s') => Some (Finished (Ok tt) (on_disconnect svc conn Rejected s', t))
  | (Accept, s') =>
      p ← exchange_over fuel signals s' t;
      Some (match p with
            | Unfinished st => Unfinished st
            | Finished Panic st => Finished Panic st
            | Finished (Err e) st => Finished (Err e) st
            | Finished (Ok reason) (s'', t') =>
                let outcome := match reason with DisconnectFailed error => Err error | _ => Ok tt end in
                Finished outcome (on_disconnect svc conn reason s'', t')
            end)
  end.
End link.

(** [Server::serve_link]: the connection takes the next identifier and has no
    peer address. *)
Definition serve_link (F : Framing) {SF : ServerFraming F} (svc : Service) (config : ServerConfig)
    (next_connection : Z) (fuel : nat) (signals : list bool) (s : SvcState svc)
    (t : FrameTransport F) : option (Poll (SvcState svc * FrameTransport F) unit) :=
  let '(id, _) := next_id next_connection in
  serve_connection_over F svc config (Connection_new id None) fuel signals s t.

#[export] Instance Pass_eq_dec : EqDecision Pass.
Proof. solve_decision. Defined.

(** ** Refinement of the serving loop over turns *)

Definition writer_of {F : Framing} (t : FrameTransport F) : Writer :=
  mkWriter (ft_outgoing t) (on_wire (write_half (ft_stream t))).

Definition step_of (p : Pass) : Step :=
  match p with
  | PassNext | PassBlocked => Next
  | PassEnd reason => End reason
  | PassPanic => Panicked
  end.

Definition served_of {T} (p : Poll T Disconnect) : Served :=
  match p with
  | Finished (Ok reason) _ => Ended reason
  | Finished _ _ => Crashed
  | Unfinished _ => Idle
  end.

Section refines.
Context {F : Framing} {SF : ServerFraming F} (svc : Service).
Context (config : ServerConfig) (conn : Connection).

(** What a send over the transport is to a send over its writer. *)
Lemma send_response_over h r (t : FrameTransport F) p :
  ft_send_response h r t = p →
  match p with
  | Finished res t' => ∃ wr fl, send_response F h r wr fl (writer_of t) = (res, writer_of t')
  | Unfinished t' => departures (write_half (ft_stream t')) = []
  end.
Proof.
  intros <-. unfold ft_send_response, send_response, encode_then_send, send_over, writer_of.
  destruct (encode_response_into F h r []) as [[[]|e|] out]; cbn; [|by exists WroteAll, Flushed..].
  destruct (departures (write_half (ft_stream t))) as [|[wr fl] later] eqn:E; [done|].
  destruct (send wr fl _) as [res tw] eqn:Es. cbn. exists wr, fl. rewrite Es. by destruct tw.
Qed.

Lemma answer_over_refines h r s t ps s' t' :
  answer_over F svc config conn h r s t = (ps, s', t') → ps ≠ PassBlocked →
  ∃ wr fl, answer_request F svc config conn h r wr fl s (writer_of t) =
    (step_of ps, s', writer_of t').
Proof.
  unfold answer_over, answer_request.
  destruct (negb _ && _); [intros [= <- <- <-] _; by exists WroteAll, Flushed|].
  destruct (on_request svc conn _ r s) as [a s1].
  destruct (response_of _ a) as [resp|]; [|intros [= <- <- <-] _; by exists WroteAll, Flushed].
  destruct (addresses_all _); [intros [= <- <- <-] _; by exists WroteAll, Flushed|].
  pose proof (send_response_over h resp t _ eq_refl) as Hs.
  destruct (ft_send_response h resp t) as [[u|e|] t1|t1]; [| | |by intros [= <- <- <-]];
    destruct Hs as (wr & fl & Hs).
  2: destruct (ends_stream e) eqn:Ee.
  all: intros [= <- <- <-] _; exists wr, fl; rewrite Hs; try done; by rewrite Ee.
Qed.

Lemma recv_keeps_writer (t : FrameTransport F) : writer_of (after (ft_recv_request t)) = writer_of t.
Proof. unfold ft_recv_request. by rewrite after_lift. Qed.

Lemma answer_over_blocked h r s t s' t' :
  answer_over F svc config conn h r s t = (PassBlocked, s', t') →
  departures (write_half (ft_stream t')) = [].
Proof.
  unfold answer_over. destruct (negb _ && _); [done|].
  destruct (on_request svc conn _ r s) as [a s1]. destruct (response_of _ a) as [resp|]; [|done].
  destruct (addresses_all _); [done|].
  pose proof (send_response_over h resp t _ eq_refl) as Hs.
  destruct (ft_send_response h resp t) as [[u|e|] t1|t1]; [done| |done|by intros [= _ <-]].
  by destruct (ends_stream e).
Qed.

(** A pass that is not blocked is a turn. *)
Definition refined (s : SvcState svc) (t : FrameTransport F)
    (p : Poll (SvcState svc * FrameTransport F) Disconnect) : Prop :=
  (∃ turns, exchange_loop F svc config conn turns s (writer_of t) =
     (served_of p, (after p).1, writer_of (after p).2)) ∨
  (∃ s' t', p = Unfinished (s', t') ∧ departures (write_half (ft_stream t')) = []).

Lemma refined_turn tn s t s' t' p :
  turn F svc config conn tn s (writer_of t) = (Next, s', writer_of t') →
  refined s' t' p → refined s t p.
Proof.
  intros Ht [[turns Hl]|Hb]; [left|by right]. exists (tn :: turns). cbn [exchange_loop]. by rewrite Ht.
Qed.

Lemma refined_last tn s t st s' t' p :
  turn F svc config conn tn s (writer_of t) = (st, s', writer_of t') →
  after p = (s', t') →
  match st with End reason => served_of p = Ended reason | Panicked => served_of p = Crashed
              | Next => False end →
  refined s t p.
Proof.
  intros Ht Ha Hp. left. exists [tn]. cbn [exchange_loop]. rewrite Ht, Ha. destruct st; [done|..].
  all: by rewrite Hp.
Qed.

(** A failed receive, and what the loop does about it. *)
Definition is_eof (e : Error) : bool := match e with Io UnexpectedEof _ => true | _ => false end.

Definition gives_up (e : Error) : bool := ends_stream e || negb (is_self_locating (boundary F)).

Lemma turn_error e wr fl s wt :
  turn F svc config conn (TurnReceived (Err e) wr fl) s wt =
  if is_eof e then (End Closed, s, wt) else
  if gives_up e then (End (DisconnectFailed e), on_error svc conn e s, wt)
  else (Next, on_error svc conn e s, wt).
Proof. destruct e as []; try done. by destruct kind. Qed.

Lemma exchange_over_error fuel signals s t e t' :
  hd false signals = false → ft_recv_request t = Finished (Err e) t' →
  exchange_over F svc config conn (S fuel) signals s t =
  if is_eof e then Some (Finished (Ok Closed) (s, t')) else
  if gives_up e then Some (Finished (Ok (DisconnectFailed e)) (on_error svc conn e s, t'))
  else exchange_over F svc config conn fuel (tl signals) (on_error svc conn e s) t'.
Proof.
  intros Hs Hr. cbn [exchange_over]. rewrite Hs, Hr. destruct e as []; try done. by destruct kind.
Qed.

Lemma exchange_over_refines fuel signals s t p :
  exchange_over F svc config conn fuel signals s t = Some p → refined s t p.
Proof.
  revert signals s t. induction fuel as [|fuel IH]; intros signals s t; [done|].
  pose proof (recv_keeps_writer t) as Hk.
  destruct (hd false signals) eqn:Hs.
  { cbn [exchange_over]. rewrite Hs. intros [= <-]. by eapply (refined_last TurnShutdown). }
  destruct (ft_recv_request t) as [[[h r]|e|] t'|t'] eqn:Er; cbn [after] in Hk.
  - cbn [exchange_over]. rewrite Hs, Er.
    destruct (answer_over F svc config conn h r s t') as [[ps s'] t''] eqn:Ea.
    destruct (decide (ps = PassBlocked)) as [->|Hb].
    { intros [= <-]. right. exists s', t''. split; [done|]. by eapply answer_over_blocked. }
    apply answer_over_refines in Ea as (wr & fl & Ea); [|done]. rewrite Hk in Ea.
    destruct ps; [|intros [= <-]..|done].
    + intros H. eapply (refined_turn (TurnReceived (Ok (h, r)) wr fl)); [exact Ea|by eapply IH].
    + by eapply (refined_last (TurnReceived (Ok (h, r)) wr fl)).
    + by eapply (refined_last (TurnReceived (Ok (h, r)) wr fl)).
  - rewrite (exchange_over_error _ _ _ _ e t') by done.
    pose proof (turn_error e WroteAll Flushed s (writer_of t)) as Ht.
    destruct (is_eof e); [|destruct (gives_up e)].
    3: intros H; eapply refined_turn; [rewrite Ht; by rewrite <- Hk|by eapply IH].
    all: intros [= <-]; eapply refined_last; [rewrite Ht; by rewrite <- Hk|done..].
  - cbn [exchange_over]. rewrite Hs, Er. intros [= <-].
    eapply (refined_last (TurnReceived Panic WroteAll Flushed)); [cbn [turn]; by rewrite <- Hk|done..].
  - cbn [exchange_over]. rewrite Hs, Er. intros [= <-]. left. exists []. cbn. by rewrite Hk.
Qed.
End refines.

(** ** The loop ends *)

(** What the rules that find the next boundary on the wire need to make progress:
    an ADU has room for a byte, and the delimiter is not empty. *)
Class ProgressFraming (F : Framing) : Prop := {
  pf_max : 1 ≤ MAX_ADU_LEN F;
  pf_end start end_ : boundary F = Delimited start end_ → end_ ≠ [];
  pf_first :
    match boundary F with
    | Prefixed n _ | ContentLength n _ => 1 ≤ n ≤ MAX_ADU_LEN F
    | _ => True
    end;
}.

#[export] Instance Tcp_progress {w : Winnow} : ProgressFraming Tcp_framing.
Proof. by split. Qed.
#[export] Instance Rtu_progress {w : Winnow} {c : Crc16} : ProgressFraming Rtu_framing.
Proof. by split. Qed.
#[export] Instance RtuOverTcp_progress {w : Winnow} {c : Crc16} :
  ProgressFraming RtuOverTcp_framing.
Proof. by split. Qed.
#[export] Instance Ascii_progress {w : Winnow} : ProgressFraming Ascii_framing.
Proof. split; [done| |done]. by intros start end_ [= <- <-]. Qed.

Section progress.
Context {F : Framing} {P : ProgressFraming F}.

(** A receive that costs nothing ends the stream. *)
Definition costs (r : Recv (list Z)) : Prop :=
  match r with
  | Done (Ok adu) _ _ => adu ≠ []
  | Done (Err e) b _ => ends_stream e = true ∨ b ≠ []
  | _ => True
  end.

Lemma check_bound_costs b :
  match check_buffer_bound F b with Err _ => b ≠ [] | _ => True end.
Proof.
  unfold check_buffer_bound. destruct (Z.leb_spec (MAX_ADU_LEN F) (len b)); [|done].
  intros ->. pose proof pf_max. rewrite len_nil in *. lia.
Qed.

Lemma read_more_costs mid r b :
  match (read_more mid r b).1 with Err e => ends_stream e = true | _ => True end.
Proof. destruct r as [[|x bs]|k o]; [by destruct mid| |done]. unfold read_more. by destruct (_ <? _). Qed.

Lemma finish_take_costs b n t : 1 ≤ n → costs (finish_take b n t).
Proof.
  intros Hn. unfold finish_take, take_adu. destruct (Z.leb_spec n (len b)); [|done]. cbn.
  intros H0. apply (f_equal length) in H0. rewrite length_take in H0. cbn in H0. unfold len in *. lia.
Qed.

Lemma read_until_silence_costs trace buf : costs (read_until_silence F trace buf).
Proof.
  revert buf. induction trace as [|ev trace IH]; intros buf; cbn [read_until_silence];
    pose proof (check_bound_costs buf) as Hc;
    (destruct (is_empty buf) eqn:Hb;
     [|destruct (check_buffer_bound F buf); [|by right|done]]); try done.
  - destruct ev as [r|]; [|apply IH]. pose proof (read_more_costs false r buf) as Hr.
    destruct (read_more false r buf) as [[u|e|] b]; [apply IH|by left|done].
  - destruct ev as [r|]; [|apply finish_take_costs; destruct buf; [done|len_lia]].
    pose proof (read_more_costs true r buf) as Hr. pose proof (read_more_length true r buf) as Hl.
    destruct (read_more true r buf) as [[u|e|] b] eqn:E; [apply IH| |done]. cbn in Hr.
    destruct e; try done; [by left..|]. apply finish_take_costs.
    destruct r as [[|x bs]|k o]; unfold read_more in E; [|by destruct (_ <? _)|done]. injection E as <-.
    destruct buf; [done|len_lia].
Qed.

Lemma scan_end start end_ buf searched n b :
  end_ ≠ [] → scan start end_ buf searched = inl (n, b) → 1 ≤ n.
Proof.
  intros Hne. unfold scan. destruct (position start buf) as [o|]; [|done].
  set (b' := if 0 <? o then _ else _). set (k := if 0 <? o then _ else _).
  destruct (find b' end_ k) as [at_|] eqn:E; [|done]. intros [= <- _].
  assert (1 ≤ len end_) as Hl by (destruct end_; [done|len_lia]).
  revert E. unfold find. unfold slice_get.
  destruct ((0 <=? k) && _ && _) eqn:Eg; [|done]. split_guards. cbn [mbind option_bind].
  set (tl := take _ _).
  destruct (window_position end_ tl) as [o'|] eqn:Ew; [|done]. intros [= <-].
  apply window_position_bound in Ew as [Ho _]. unfold saturating_add, USIZE_MAX. lia.
Qed.

Lemma read_delimited_costs start end_ trace buf searched :
  end_ ≠ [] → costs (read_delimited F start end_ trace buf searched).
Proof.
  intros Hne. revert buf searched. induction trace as [|ev trace IH]; intros buf searched;
    cbn [read_delimited];
    (destruct (scan start end_ buf searched) as [[n b]|[b sd]] eqn:Es;
     [apply finish_take_costs; by eapply scan_end|]); pose proof (check_bound_costs b) as Hc;
    (destruct (check_buffer_bound F b); [|by right|done]); [done|].
  destruct ev as [r|]; [|destruct (is_empty b); [apply IH|by left]].
  pose proof (read_more_costs (negb (is_empty b)) r b) as Hr.
  destruct (read_more _ r b) as [[u|e|] b']; [apply IH|by left|done].
Qed.

Lemma read_adu_costs dir trace buf :
  is_self_locating (boundary F) = true → costs (read_adu F dir trace buf).
Proof.
  unfold read_adu. pose proof pf_end as Hend.
  destruct (boundary F) as [prefix total|start end_| |min ext]; [done| | |done]; intros _.
  - apply read_delimited_costs. by eapply Hend.
  - apply read_until_silence_costs.
Qed.

(** A failed receive the loop survives leaves less to receive. *)
Lemma ft_recv_error_drains (t : FrameTransport F) e t' :
  ft_recv_request t = Finished (Err e) t' → ends_stream e = false →
  is_self_locating (boundary F) = true → (ft_unread t' < ft_unread t)%nat.
Proof.
  unfold ft_recv_request, recv_request, recv_adu, ft_unread. intros H He Hs. revert H.
  cbn [receiving buffer].
  destruct (ft_receiving t); [by intros [= <- _]|].
  pose proof (read_adu_consumes F DirRequest (arrivals (read_half (ft_stream t))) (ft_buffer t)) as Hc.
  pose proof (read_adu_costs DirRequest (arrivals (read_half (ft_stream t))) (ft_buffer t) Hs) as Hk.
  destruct (read_adu _ _ _ _) as [[adu|e'|] b tr|b]; [| |done..]; cbn in Hk |- *; rewrite ?Hs; cbn.
  - intros [= _ <-]. destruct Hc as [Hc _]. destruct adu; [done|].
    unfold pending_bytes, stream in *. cbn in *. lia.
  - intros [= -> <-]. destruct Hc as [Hc _]. destruct Hk as [?|Hb]; [congruence|].
    destruct b; [done|]. unfold pending_bytes, stream in *. cbn in *. lia.
Qed.

Lemma ft_recv_request_drains {N : NonEmptyAdu F} (t : FrameTransport F) m t' :
  ft_recv_request t = Finished (Ok m) t' → (ft_unread t' < ft_unread t)%nat.
Proof.
  unfold ft_recv_request, recv_request, ft_unread.
  destruct (recv_adu F _ _ _) as [r st tr|st] eqn:E; [|done]. cbn. intros [= Hr <-].
  destruct r as [adu|e|]; cbn in Hr; [|done..].
  apply recv_adu_consumes in E as [Hl _]. cbn in *.
  destruct adu; [by apply decode_request_nil in Hr|].
  unfold pending_bytes, stream in *. cbn in *. lia.
Qed.
End progress.

Section terminates.
Context {F : Framing} {SF : ServerFraming F} {P : ProgressFraming F} {N : NonEmptyAdu F}.
Context (svc : Service) (config : ServerConfig) (conn : Connection).

(** Answering reads nothing. *)
Lemma answer_over_reads_nothing h r s t ps s' t' :
  answer_over F svc config conn h r s t = (ps, s', t') →
  read_half (ft_stream t') = read_half (ft_stream t) ∧ ft_buffer t' = ft_buffer t ∧
  ft_receiving t' = ft_receiving t.
Proof.
  unfold answer_over. destruct (negb _ && _); [by intros [= <- <- <-]|].
  destruct (on_request svc conn _ r s) as [a s1].
  destruct (response_of _ a) as [resp|]; [|by intros [= <- <- <-]].
  destruct (addresses_all _); [by intros [= <- <- <-]|]. unfold ft_send_response.
  destruct (send_over _ _) as [[u|e|] x|x]; cbn; [|destruct (ends_stream e)|..];
    by intros [= <- <- <-].
Qed.

Lemma answer_over_unread h r s t ps s' t' :
  answer_over F svc config conn h r s t = (ps, s', t') → ft_unread t' = ft_unread t.
Proof. unfold ft_unread. by intros (-> & -> & _)%answer_over_reads_nothing. Qed.

Lemma exchange_over_total n signals s t :
  (ft_unread t < n)%nat →
  ∃ p, ∀ fuel, (ft_unread t < fuel)%nat →
    exchange_over F svc config conn fuel signals s t = Some p.
Proof.
  revert signals s t. induction n as [|n IH]; intros signals s t Hn; [lia|].
  destruct (hd false signals) eqn:Hs.
  { eexists. intros [|fuel] Hf; [lia|]. cbn. by rewrite Hs. }
  destruct (ft_recv_request t) as [[[h r]|e|] t'|t'] eqn:Er.
  - pose proof (ft_recv_request_drains _ _ _ Er) as Hd.
    destruct (answer_over F svc config conn h r s t') as [[ps s'] t''] eqn:Ea.
    pose proof (answer_over_unread _ _ _ _ _ _ _ Ea) as Hu.
    destruct (IH (tl signals) s' t'' ltac:(lia)) as [p Hp].
    destruct ps; [exists p|eexists..];
      (intros [|fuel] Hf; [lia|]; cbn [exchange_over]; rewrite Hs, Er, Ea); [|done..].
    apply Hp. lia.
  - destruct (is_eof e) eqn:Ee; [|destruct (gives_up (F := F) e) eqn:Eg].
    1,2: eexists; (intros [|fuel] Hf; [lia|]);
      by rewrite (exchange_over_error _ _ _ _ _ _ _ e t'), Ee, ?Eg.
    unfold gives_up in Eg. apply orb_false_iff in Eg as [He Hl]. apply negb_false_iff in Hl.
    pose proof (ft_recv_error_drains _ _ _ Er He Hl) as Hd.
    destruct (IH (tl signals) (on_error svc conn e s) t' ltac:(lia)) as [p Hp]. exists p.
    intros [|fuel] Hf; [lia|]. rewrite (exchange_over_error _ _ _ _ _ _ _ e t'), Ee by done.
    unfold gives_up. rewrite He, Hl. apply Hp. lia.
  - eexists. intros [|fuel] Hf; [lia|]. cbn. by rewrite Hs, Er.
  - eexists. intros [|fuel] Hf; [lia|]. cbn. by rewrite Hs, Er.
Qed.

(** C14. The serving loop of a connection ends: one pass more than there are
    bytes to read is enough, for every framing, service, configuration and stream,
    with any sends that fail and any frames that do not decode, because every
    pass that goes on has taken bytes off the stream; and what the loop does to
    the service and to the wire is what the loop over turns does, unless the
    stream takes no more bytes and it waits to write (SV-R-015, SV-R-050). *)
Theorem exchange_over_terminates signals s t :
  ∃ p, (∀ fuel, (ft_unread t < fuel)%nat →
          exchange_over F svc config conn fuel signals s t = Some p) ∧
  ((∃ turns, exchange_loop F svc config conn turns s (writer_of t) =
      (served_of p, (after p).1, writer_of (after p).2)) ∨
   (∃ s' t', p = Unfinished (s', t') ∧ departures (write_half (ft_stream t')) = [])).
Proof.
  destruct (exchange_over_total (S (ft_unread t)) signals s t) as [p Hp]; [lia|].
  exists p. split; [done|]. eapply exchange_over_refines, (Hp (S (ft_unread t))). lia.
Qed.
End terminates.

(** ** A closed stream ends serving *)

(** A read that finds the end of the stream. *)
Definition EOF : Event := Ready (Bytes []).

(** The outcome of a receive over a trace that goes on with an end of stream: it
    returns; if it used the end up, it failed for good or took the last frame. *)
Definition ends_at {A} (more : A → list Z → Prop) (rest_ : list Event) (r : Recv A) : Prop :=
  match r with
  | Pending _ => False
  | Done res b t =>
      (∃ tr, t = tr ++ EOF :: rest_) ∨
      (t = rest_ ∧ match res with Ok a => more a b | Err e => ends_stream e = true | Panic => True end)
  end.

Lemma ends_at_mono {A} (m1 m2 : A → list Z → Prop) rest_ r :
  (∀ a b, m1 a b → m2 a b) → ends_at m1 rest_ r → ends_at m2 rest_ r.
Proof. intros Hm. destruct r as [[a|e|] b t|b]; cbn; [|done..]. intros [?|[??]]; eauto. Qed.

Section eof.
Context (F : Framing).

Definition never {A} (_ : A) (_ : list Z) : Prop := False.

(** A read of a loop whose trace goes on. *)
Lemma ends_at_read {A} (more : A → list Z → Prop) mid r b trace rest_ (k : list Z → Recv A) :
  (∀ b, ends_at more rest_ (k b)) →
  ends_at more rest_
    (match read_more mid r b with
     | (Ok _, b') => k b'
     | (Err e, b') => Done (Err e) b' (trace ++ EOF :: rest_)
     | (Panic, b') => Done Panic b' (trace ++ EOF :: rest_)
     end).
Proof.
  intros Hk. destruct (read_more mid r b) as [[u|e|] b']; [apply Hk|left; by exists trace..].
Qed.

Lemma ends_at_later {A} (more : A → list Z → Prop) res b trace rest_ :
  ends_at more rest_ (Done res b (trace ++ EOF :: rest_)).
Proof. left. by exists trace. Qed.

Lemma finish_take_eof more b n trace rest_ :
  ends_at more rest_ (finish_take b n (trace ++ EOF :: rest_)).
Proof. unfold finish_take. destruct (take_adu b n). apply ends_at_later. Qed.

Lemma fill_loop_eof n trace buf rest_ : ends_at never rest_ (fill_loop n (trace ++ EOF :: rest_) buf).
Proof.
  revert buf. induction trace as [|ev trace IH]; intros buf; cbn [app fill_loop].
  - destruct (n <=? len buf); [apply (ends_at_later _ _ _ [])|]. right. by destruct buf.
  - destruct (n <=? len buf); [apply (ends_at_later _ _ _ (ev :: trace))|].
    destruct ev as [r|]; [by apply ends_at_read|apply IH].
Qed.

Lemma fill_to_eof n trace buf rest_ : ends_at never rest_ (fill_to F n (trace ++ EOF :: rest_) buf).
Proof. unfold fill_to. destruct (_ <? _); [apply ends_at_later|apply fill_loop_eof]. Qed.

Lemma ends_at_filled more n trace buf rest_ (k : list Z → list Event → Recv (list Z)) :
  (∀ b tr, ends_at more rest_ (k b (tr ++ EOF :: rest_))) →
  ends_at more rest_
    (match fill_to F n (trace ++ EOF :: rest_) buf with
     | Pending b => Pending b
     | Done (Err e) b t => Done (Err e) b t
     | Done Panic b t => Done Panic b t
     | Done (Ok _) b t => k b t
     end).
Proof.
  intros Hk. pose proof (fill_to_eof n trace buf rest_) as Hf.
  destruct (fill_to F n _ buf) as [[u|e|] b t|b]; [|done..].
  destruct Hf as [[tr ->]|[_ []]]. apply Hk.
Qed.

Definition drained (_ : list Z) (b : list Z) : Prop := b = [].

Lemma content_loop_eof ext trace buf rest_ :
  ends_at drained rest_ (content_loop F ext (trace ++ EOF :: rest_) buf).
Proof.
  revert buf. induction trace as [|ev trace IH]; intros buf; cbn [app content_loop].
  - destruct (ext buf) as [[|n]|e|];
      [|apply (finish_take_eof _ _ _ [])|apply (ends_at_later _ _ _ [])..].
    destruct (check_buffer_bound F buf); [by right|apply (ends_at_later _ _ _ [])..].
  - destruct (ext buf) as [[|n]|e|];
      [|apply (finish_take_eof _ _ _ (ev :: trace))|apply (ends_at_later _ _ _ (ev :: trace))..].
    destruct (check_buffer_bound F buf); [|apply (ends_at_later _ _ _ (ev :: trace))..].
    destruct ev as [r|]; [by apply ends_at_read|apply IH].
Qed.

Lemma read_delimited_eof start end_ trace buf searched rest_ :
  ends_at drained rest_ (read_delimited F start end_ (trace ++ EOF :: rest_) buf searched).
Proof.
  revert buf searched. induction trace as [|ev trace IH]; intros buf searched;
    cbn [app read_delimited];
    destruct (scan start end_ buf searched) as [[n b]|[b sd]].
  - apply (finish_take_eof _ _ _ []).
  - destruct (check_buffer_bound F b); [|apply (ends_at_later _ _ _ [])..]. right. by destruct b.
  - apply (finish_take_eof _ _ _ (ev :: trace)).
  - destruct (check_buffer_bound F b); [|apply (ends_at_later _ _ _ (ev :: trace))..].
    destruct ev as [r|]; [by apply ends_at_read|].
    destruct (is_empty b); [apply IH|apply ends_at_later].
Qed.

Lemma read_until_silence_eof trace buf rest_ :
  ends_at drained rest_ (read_until_silence F (trace ++ EOF :: rest_) buf).
Proof.
  revert buf. induction trace as [|ev trace IH]; intros buf; cbn [app read_until_silence];
    (destruct (is_empty buf) eqn:Hb; [|destruct (check_buffer_bound F buf) as [u|e|]]).
  - by right.
  - cbn [EOF read_more]. unfold finish_take, take_adu. rewrite Z.leb_refl. right. split; [done|].
    unfold drained, len. rewrite Nat2Z.id. apply drop_all.
  - apply (ends_at_later _ _ _ []).
  - apply (ends_at_later _ _ _ []).
  - destruct ev as [r|]; [by apply ends_at_read|apply IH].
  - destruct ev as [r|]; [|apply finish_take_eof].
    destruct (read_more true r buf) as [[u'|e|] b]; [apply IH| |apply ends_at_later].
    destruct e; first [apply finish_take_eof | apply ends_at_later].
  - apply (ends_at_later _ _ _ (ev :: trace)).
  - apply (ends_at_later _ _ _ (ev :: trace)).
Qed.

Lemma read_adu_eof dir trace buf rest_ :
  ends_at drained rest_ (read_adu F dir (trace ++ EOF :: rest_) buf).
Proof.
  unfold read_adu. destruct (boundary F) as [prefix total|start end_| |min ext].
  - apply ends_at_filled. intros b tr. destruct (_ ≫= _) as [n|e|]; [|apply ends_at_later..].
    apply ends_at_filled. intros b' tr'. apply finish_take_eof.
  - apply read_delimited_eof.
  - apply read_until_silence_eof.
  - apply ends_at_filled. intros b tr. apply content_loop_eof.
Qed.

(** With nothing buffered, the end of the stream is all there is. *)
Lemma read_adu_nothing {P : ProgressFraming F} dir rest_ :
  read_adu F dir (EOF :: rest_) [] = Done (Err (Io UnexpectedEof None)) [] rest_.
Proof.
  pose proof pf_max as Hm. pose proof pf_first as Hf. unfold read_adu.
  destruct (boundary F) as [prefix total|start end_| |min ext]; [| |done|].
  1,3: cbn in Hf; unfold read_prefixed, read_content_length, fill_to;
    (rewrite (proj2 (Z.ltb_ge _ _)) by lia); cbn [fill_loop]; change (len []) with 0;
    by rewrite (proj2 (Z.leb_gt _ _)) by lia.
  cbn. unfold check_buffer_bound. rewrite len_nil. by destruct (Z.leb_spec (MAX_ADU_LEN F) 0); [lia|].
Qed.
End eof.

Section closing.
Context {F : Framing} {SF : ServerFraming F} {P : ProgressFraming F} {N : NonEmptyAdu F}.
Context (svc : Service) (config : ServerConfig) (conn : Connection).

(** A stream about to end, or one that has. *)
Definition closing (t : FrameTransport F) : Prop :=
  ft_receiving t = false ∧
  ((∃ tr, arrivals (read_half (ft_stream t)) = tr ++ [EOF; EOF]) ∨
   (arrivals (read_half (ft_stream t)) = [EOF] ∧ ft_buffer t = [])).

Lemma closing_recv t :
  closing t →
  ∃ res t', ft_recv_request t = Finished res t' ∧
    match res with
    | Ok _ => closing t'
    | Err e => ends_stream e = true ∨ closing t'
    | Panic => True
    end.
Proof.
  intros [Hr Hc]. unfold ft_recv_request, recv_request, recv_adu. cbn [receiving buffer].
  rewrite Hr. destruct Hc as [[tr ->]|[-> ->]].
  - pose proof (read_adu_eof F DirRequest tr (ft_buffer t) [EOF]) as He.
    destruct (read_adu _ _ _ _) as [res b t'|b]; [|done]. cbn.
    eexists _, _. split; [done|]. destruct res as [adu|e|]; cbn; [| |done].
    + assert (closing (ft_after_recv t (mkRecvState b false, mkReadHalf t'))) as Hcl.
      { split; [done|]. cbn. destruct He as [[tr' ->]|[-> Hb]]; [left; by exists tr'|by right]. }
      destruct (decode_request F adu); [done|by right|done].
    + destruct He as [[tr' ->]|[-> ?]]; [|by left]. right. split; [done|]. left. by exists tr'.
  - rewrite read_adu_nothing by done. cbn. eexists _, _. split; [done|]. by left.
Qed.

(** A send meets one outcome of the stream at most, and blocks only on none. *)
Lemma answer_over_departures h r s t ps s' t' :
  answer_over F svc config conn h r s t = (ps, s', t') →
  (length (departures (write_half (ft_stream t))) ≤
   S (length (departures (write_half (ft_stream t')))))%nat ∧
  (ps = PassBlocked → departures (write_half (ft_stream t)) = []).
Proof.
  unfold answer_over. destruct (negb _ && _); [intros [= <- <- <-]; split; [lia|done]|].
  destruct (on_request svc conn _ r s) as [a s1].
  destruct (response_of _ a) as [resp|]; [|intros [= <- <- <-]; split; [lia|done]].
  destruct (addresses_all _); [intros [= <- <- <-]; split; [lia|done]|].
  unfold ft_send_response, send_over.
  destruct (encode_response_into F h resp []) as [[u|e|] out]; cbn.
  - destruct (departures (write_half (ft_stream t))) as [|[wr fl] later] eqn:Ed; cbn.
    { intros [= <- <- <-]. cbn. rewrite Ed. split; [cbn; lia|done]. }
    destruct (send wr fl _) as [[u'|e'|] tw]; cbn; [|destruct (ends_stream e')|];
      intros [= <- <- <-]; cbn; (split; [lia|done]).
  - destruct (ends_stream e); intros [= <- <- <-]; cbn; (split; [lia|done]).
  - intros [= <- <- <-]; cbn; (split; [lia|done]).
Qed.

Lemma closing_exchange n signals s t :
  (ft_unread t < n)%nat → closing t →
  (ft_unread t ≤ length (departures (write_half (ft_stream t))))%nat →
  ∃ r st, exchange_over F svc config conn n signals s t = Some (Finished r st).
Proof.
  revert signals s t. induction n as [|n IH]; intros signals s t Hn Hc Hd; [lia|].
  destruct (hd false signals) eqn:Hs.
  { cbn [exchange_over]. rewrite Hs. eauto. }
  destruct (closing_recv t Hc) as (res & t' & Er & Ht').
  assert (write_half (ft_stream t') = write_half (ft_stream t)) as Hw.
  { pose proof Er as Er'. unfold ft_recv_request in Er'.
    destruct (received _) as [? x|x]; [|done]. by injection Er' as _ <-. }
  destruct res as [[h r]|e|].
  - pose proof (ft_recv_request_drains _ _ _ Er) as Hu. cbn [exchange_over]. rewrite Hs, Er.
    destruct (answer_over F svc config conn h r s t') as [[ps s'] t''] eqn:Ea.
    pose proof (answer_over_unread _ _ _ _ _ _ _ _ _ _ Ea) as Hu'.
    apply answer_over_departures in Ea as Hdep. rewrite Hw in Hdep. destruct Hdep as [Hl Hb].
    apply answer_over_reads_nothing in Ea as (Hrd & Hbuf & Hrcv).
    destruct ps; [|eauto..|rewrite (Hb eq_refl) in Hd; cbn in Hd; lia].
    apply IH; [lia| |lia]. unfold closing in *. by rewrite Hrd, Hbuf, Hrcv.
  - rewrite (exchange_over_error _ _ _ _ _ _ _ e t') by done.
    destruct (is_eof e); [eauto|]. destruct (gives_up (F := F) e) eqn:Eg; [eauto|].
    unfold gives_up in Eg. apply orb_false_iff in Eg as [He Hl]. apply negb_false_iff in Hl.
    pose proof (ft_recv_error_drains _ _ _ Er He Hl) as Hu.
    destruct Ht' as [?|Ht']; [congruence|]. apply IH; [lia|done|]. rewrite Hw. lia.
  - cbn [exchange_over]. rewrite Hs, Er. eauto.
Qed.

(** C28. A peer that closes its end ends the connection: over a stream whose
    reads find its end (and find it again when read again) the loop returns, with
    no shutdown needed and whatever was sent before, provided the stream takes
    the answers (SV-R-052, TR-R-014). *)
Theorem closed_stream_ends_serving signals s t tr :
  ft_receiving t = false → arrivals (read_half (ft_stream t)) = tr ++ [EOF; EOF] →
  (ft_unread t ≤ length (departures (write_half (ft_stream t))))%nat →
  ∃ r st, exchange_over F svc config conn (S (ft_unread t)) signals s t = Some (Finished r st).
Proof. intros Hr Ha Hd. apply closing_exchange; [lia| |done]. split; eauto. Qed.
End closing.

(** ** Noise on an ASCII line *)

(** C37. A burst of noise takes an ASCII device off its bus.  Let the line bring
    anything before a colon, and after it anything but a line feed that fits the
    buffer, cut into reads in any way, a lone colon among them, and then fall quiet;
    whatever comes next, a valid request for this unit included: the receive ends
    with the inter-character timeout, nothing is kept in the buffer, and serving
    the line ends there with that failure, nothing more read and nothing written,
    although a failed frame on a self-locating framing is meant to cost that frame
    alone. *)
Theorem ascii_noise_ends_serving {w : Winnow} svc config conn fuel signals s
    (t : FrameTransport Ascii_framing) noise body chunks later :
  ft_receiving t = false → ft_buffer t = [] → hd false signals = false →
  arrivals (read_half (ft_stream t)) = chunks ++ Quiet :: later →
  Forall (delivers false) chunks → stream chunks = noise ++ START :: body →
  START ∉ noise → 10 ∉ body → len (START :: body) < MAX_ADU_LEN Ascii_framing →
  ∃ t', exchange_over Ascii_framing svc config conn (S fuel) signals s t =
      Some (Finished (Ok (DisconnectFailed (Timeout "ascii inter-character")))
        (on_error svc conn (Timeout "ascii inter-character") s, t')) ∧
    arrivals (read_half (ft_stream t')) = later ∧ ft_buffer t' = [] ∧
    write_half (ft_stream t') = write_half (ft_stream t).
Proof.
  intros Hr Hb Hs Ha Hd Hst Hn H10 Hm.
  destruct (read_delimited_unterminated Ascii_framing chunks [] noise body later 0) as [b Hread]; [done..|].
  exists (ft_after_recv t (fresh, mkReadHalf later)). split; [|done].
  rewrite (exchange_over_error svc config conn fuel signals s t (Timeout "ascii inter-character")
    (ft_after_recv t (fresh, mkReadHalf later))); [done|done|].
  unfold ft_recv_request, recv_request, recv_adu, read_adu. rewrite Hr, Hb, Ha.
  cbn [receiving buffer boundary Ascii_framing]. by rewrite Hread.
Qed.

(** ** Witnesses *)

Section witnesses.
Local Existing Instance winnow_model.
Local Existing Instance winnow_model_spec.

(** A peer that sends one request in two reads and closes. *)
Definition hanging_up : FrameTransport Tcp_framing :=
  FrameTransport_new (mkStream
    (mkReadHalf [Ready (Bytes [0; 1; 0]); Ready (Bytes [0; 0; 2; 1; 17]); EOF; EOF])
    (mkWriteHalf (replicate 8 (WroteAll, Flushed)) [])).

Lemma exchange_over_terminates_witness :
  ∃ p, (∀ fuel, (ft_unread hanging_up < fuel)%nat →
    exchange_over Tcp_framing counting any_unit link fuel [] 0%nat hanging_up = Some p) ∧
  ((∃ turns, exchange_loop Tcp_framing counting any_unit link turns 0%nat (writer_of hanging_up) =
      (served_of p, (after p).1, writer_of (after p).2)) ∨
   (∃ s' t', p = Unfinished (s', t') ∧ departures (write_half (ft_stream t')) = [])).
Proof. apply (exchange_over_terminates (F := Tcp_framing) counting any_unit link). Defined.

Lemma closed_stream_ends_serving_witness :
  ∃ r st, exchange_over Tcp_framing counting any_unit link 9 [] 0%nat hanging_up =
    Some (Finished r st).
Proof.
  apply (closed_stream_ends_serving (F := Tcp_framing) counting any_unit link [] 0%nat hanging_up
    [Ready (Bytes [0; 1; 0]); Ready (Bytes [0; 0; 2; 1; 17])]); [done|done|vm_compute; lia].
Defined.

(** A line with a stray character and a colon on it, then a quiet line, then a
    request for this unit. *)
Definition noisy_line : FrameTransport Ascii_framing :=
  FrameTransport_new (mkStream
    (mkReadHalf ([Ready (Bytes [255]); Ready (Bytes [58; 7])] ++ Quiet ::
       [Ready (Bytes [58; 48; 49; 49; 49; 69; 69; 13; 10])]))
    (mkWriteHalf [(WroteAll, Flushed)] [])).

Lemma ascii_noise_ends_serving_witness :
  ∃ t', exchange_over Ascii_framing counting any_unit link 9 [] 0%nat noisy_line =
      Some (Finished (Ok (DisconnectFailed (Timeout "ascii inter-character"))) (0%nat, t')) ∧
    arrivals (read_half (ft_stream t')) = [Ready (Bytes [58; 48; 49; 49; 49; 69; 69; 13; 10])] ∧
    ft_buffer t' = [] ∧ write_half (ft_stream t') = mkWriteHalf [(WroteAll, Flushed)] [].
Proof.
  apply (ascii_noise_ends_serving counting any_unit link 8 [] 0%nat noisy_line [255] [7]
    [Ready (Bytes [255]); Ready (Bytes [58; 7])]); try done.
  - repeat constructor; done.
  - by intros [=]%list_elem_of_singleton.
  - by intros [=]%list_elem_of_singleton.
Defined.

(** The request alone is answered. *)
Lemma quiet_line_served :
  match exchange_over Ascii_framing counting any_unit link 9 [] 0%nat
    (FrameTransport_new (F := Ascii_framing) (mkStream
      (mkReadHalf [Ready (Bytes [58; 48; 49; 49; 49; 69; 69; 13; 10])])
      (mkWriteHalf [(WroteAll, Flushed)] []))) with
  | Some (Unfinished (n, t')) => Some (n, len (on_wire (write_half (ft_stream t'))))
  | _ => None
  end = Some (1%nat, 13).
Proof. vm_compute. reflexivity. Qed.

(** It is answered before it is closed. *)
Lemma hanging_up_served :
  match exchange_over Tcp_framing counting any_unit link 9 [] 0%nat hanging_up with
  | Some (Finished r (n, t')) => Some (r, n, on_wire (write_half (ft_stream t')))
  | _ => None
  end = Some (Ok Closed, 1%nat, [0; 1; 0; 0; 0; 4; 1; 17; 1; 42]).
Proof. vm_compute. reflexivity. Qed.
End witnesses.
