(* ===== verification/ServerTests.v ===== *)
(** * Unit tests of the server ([src/server/mod.rs])

    Its tests of one link, of datagrams and of the two error hooks, run on the
    model.  [Recorder] is the service of those tests: it answers as told and
    records what it was asked.  A link is the frames its client writes before it
    drops its end; the responses are read back off the wire by a client's
    transport.  The tests that wait on gates inside a hook and those of several
    connections at once are in [ServeTests]; the one of the serde derives is left
    out. *)

From S2P Require Import Prelude.
From S2P Require Import Errors.
From S2P Require Import Tests.
From S2P Require Import Parse.
From S2P Require Import Value.
From S2P Require Import Function.
From S2P Require Import Exception.
From S2P Require Import Pdu.
From S2P Require Import Framing.
From S2P Require Import Rtu.
From S2P Require Import Tcp.
From S2P Require Import Ascii.
From S2P Require Import Serial.
From S2P Require Import Transport.
From S2P Require Import Outgoing.
From S2P Require Import Framed.
From S2P Require Import Server.
From S2P Require Import Link.
From S2P Require Import StackTests.
From S2P Require Import TransportTests.

(** What a test service was asked to do, in order. *)
Inductive ServiceEvent :=
  | Connected_ (id : ConnectionId) (peer : option SocketAddr)
  | Requested (id : ConnectionId) (peer : option SocketAddr) (unit : UnitId) (request : RequestPdu)
  | FailedWith (error : Error)
  | Disconnected (reason : Disconnect).

#[export] Instance ServiceEvent_eq_dec : EqDecision ServiceEvent.
Proof. solve_decision. Defined.

(** [Recorder], without the gates. *)
Definition Recorder (reply : RequestPdu → ResponsePdu + ExceptionCode) (accept : Acceptance)
    : Service := {|
  SvcState := list ServiceEvent;
  on_request conn unit request events :=
    (match reply request with inl response => inl (Some response) | inr e => inr e end,
     events ++ [Requested (id conn) (peer conn) unit request]);
  on_connect conn events := (accept, events ++ [Connected_ (id conn) (peer conn)]);
  on_disconnect _ reason events := events ++ [Disconnected reason];
  on_error _ error events := events ++ [FailedWith error];
  on_accept_error := default_on_accept_error;
  on_receive_error := default_on_receive_error test_errno Linux;
  on_tls_handshake_failed := default_on_tls_handshake_failed;
|}.

Definition is_request (e : ServiceEvent) : bool :=
  match e with Requested _ _ _ _ => true | _ => false end.
Definition is_disconnect (e : ServiceEvent) : bool :=
  match e with Disconnected _ => true | _ => false end.
Definition requested_unit (e : ServiceEvent) : list UnitId :=
  match e with Requested _ _ unit _ => [unit] | _ => [] end.

Section tests.
Local Existing Instance winnow_model.
Local Existing Instance crc_model.

Definition server_registers : ResponsePdu := Resp_ReadHoldingRegisters [mkRegisterValue 0x022B].
Definition read_one : RequestPdu := Req_ReadHoldingRegisters (mkAddress 0x006B) (mkQuantity 1).
Definition read_two : RequestPdu := Req_ReadHoldingRegisters (mkAddress 0) (mkQuantity 2).
Definition mbap_header (transaction unit : Z) : MbapHeader :=
  mkMbapHeader (mkTransactionId transaction) (mkUnitId unit).

(** [Recorder::new(|_| Ok(registers()))] and [Recorder::refusing]. *)
Definition answering : Service := Recorder (λ _, inl server_registers) Accept.
Definition refusing_service : Service := Recorder (λ _, inr EC_IllegalFunction) Reject.
Definition any_unit_config : ServerConfig := mkServerConfig None.

(** ** One link *)

Section link.
Context (F : Framing) {SF : ServerFraming F}.

(** The frames of a client, each followed by silence. *)
Fixpoint asks_for (requests : list (Header F * RequestPdu)) : Result (list Event) :=
  match requests with
  | [] => mret []
  | (header, request) :: requests' =>
      adu ← unwrap (encode_request F header request);
      events ← asks_for requests';
      mret (pipe 1024 adu ++ [Quiet] ++ events)
  end.

(** [serve_link] over the events of a link, to its end: what it returned, what
    the service recorded, and the bytes it wrote. *)
Definition serves (svc : Service) (config : ServerConfig) (signals : list bool) (s : SvcState svc)
    (link : list Event) : Result (Result unit * SvcState svc * list Z) :=
  match serve_link F svc config 1 16 signals s (FrameTransport_new (end_of link)) with
  | Some (Finished r (s', t)) => mret (r, s', wrote t)
  | _ => Panic
  end.

(** The responses a client receives of those bytes. *)
Fixpoint receives (n : nat) (t : FrameTransport F) : Result (list (Header F * ResponsePdu)) :=
  match n with
  | O => mret []
  | S n' =>
      match ft_recv_response t with
      | Finished (Ok m) t' => ms ← receives n' t'; mret (m :: ms)
      | _ => Panic
      end
  end.

Definition assert_responses (wire : list Z) (expected : list (Header F * ResponsePdu))
    : Result unit :=
  got ← receives (length expected) (FrameTransport_new (end_of (pipe 1024 wire ++ [Quiet])));
  assert_eq got expected.
End link.

(** A recorder, its link with [requests] on it, closed by the client. *)
Definition link_of (reply : RequestPdu → ResponsePdu + ExceptionCode) (config : ServerConfig)
    (requests : list (MbapHeader * RequestPdu))
    : Result (Result unit * list ServiceEvent * list Z) :=
  asked ← asks_for Tcp_framing requests;
  serves Tcp_framing (Recorder reply Accept) config [] [] (asked ++ dropped).

(** The same with raw bytes on it. *)
Definition link_with (reply : RequestPdu → ResponsePdu + ExceptionCode) (bs : list Z)
    : Result (Result unit * list ServiceEvent * list Z) :=
  serves Tcp_framing (Recorder reply Accept) any_unit_config [] [] (pipe 1024 bs ++ dropped).

Definition always_registers (_ : RequestPdu) : ResponsePdu + ExceptionCode := inl server_registers.

(** SV-R-010, SV-R-011 *)
Definition ut_serve_link_answers_a_request : Result unit :=
  '(served, events, wire) ← link_of always_registers any_unit_config [(mbap_header 7 0x11, read_one)];
  assert_responses Tcp_framing wire [(mbap_header 7 0x11, server_registers)];;
  assert_eq served (Ok tt);;
  assert_eq events
    [Connected_ (mkConnectionId 1) None;
     Requested (mkConnectionId 1) None (mkUnitId 0x11) read_one;
     Disconnected Closed].

(** SV-R-012, SV-E-001 *)
Definition ut_refusal_becomes_an_exception_response : Result unit :=
  '(served, _, wire) ← link_of (λ _, inr EC_IllegalDataAddress) any_unit_config
    [(mbap_header 1 1, read_one)];
  assert_responses Tcp_framing wire [(mbap_header 1 1,
    Resp_Exception (mkExceptionResponse FC_ReadHoldingRegisters EC_IllegalDataAddress))];;
  assert_eq served (Ok tt).

(** SV-R-013, SV-E-014 *)
Definition ut_response_is_sent_unaltered : Result unit :=
  '(served, _, wire) ← link_of (λ _, inl (Resp_ReadCoils [true])) any_unit_config
    [(mbap_header 1 1, read_one)];
  assert_responses Tcp_framing wire [(mbap_header 1 1,
    Resp_ReadCoils [true; false; false; false; false; false; false; false])];;
  assert_eq served (Ok tt).

(** SV-R-014, SV-R-034, SV-E-013 *)
Definition ut_unencodable_response_reports_and_continues : Result unit :=
  let reply request :=
    match request with
    | Req_ReadHoldingRegisters _ (mkQuantity 1) =>
        inl (Resp_ReadHoldingRegisters (replicate 130 (mkRegisterValue 0)))
    | _ => inl server_registers
    end in
  '(served, events, wire) ← link_of reply any_unit_config
    [(mbap_header 1 1, read_one); (mbap_header 2 1, read_two)];
  assert_responses Tcp_framing wire [(mbap_header 2 1, server_registers)];;
  assert_eq served (Ok tt);;
  assert (existsb (λ event,
    match event with FailedWith (PduTooLarge _ _) => true | _ => false end) events).

(** SV-R-015 *)
Definition ut_successive_requests_on_one_link : Result unit :=
  let transactions := [1; 2; 3; 4] in
  '(served, events, wire) ← link_of always_registers any_unit_config
    ((λ transaction, (mbap_header transaction 1, read_one)) <$> transactions);
  assert_responses Tcp_framing wire
    ((λ transaction, (mbap_header transaction 1, server_registers)) <$> transactions);;
  assert_eq served (Ok tt);;
  assert_eq (len (List.filter is_request events)) 4.

(** SV-R-032, SV-E-019 *)
Definition ut_refused_connection_reads_nothing : Result unit :=
  asked ← asks_for Tcp_framing [(mbap_header 1 1, read_one)];
  '(served, events, wire) ← serves Tcp_framing refusing_service any_unit_config [] [] asked;
  assert_eq served (Ok tt);;
  assert_eq wire [];;
  assert_eq events [Connected_ (mkConnectionId 1) None; Disconnected Rejected].

(** Half a request, and a close. *)
Definition half_a_request : list Z := [0; 1; 0; 0; 0; 6; 1; 3; 0].

(** SV-R-062, SV-E-025 *)
Definition ut_serve_link_returns_the_error_of_a_failed_link : Result unit :=
  '(served, _, _) ← link_with always_registers half_a_request;
  assert_eq served (Err ConnectionClosed).

(** SV-R-062, SV-E-041 *)
Definition ut_serve_link_returns_ok_when_closed : Result unit :=
  '(served, events, _) ← link_with always_registers [];
  assert_eq served (Ok tt);;
  assert_eq (last events) (Some (Disconnected Closed)).

(** SV-R-062 *)
Definition ut_serve_link_returns_ok_when_rejected : Result unit :=
  '(served, events, _) ← serves Tcp_framing refusing_service any_unit_config [] [] [];
  assert_eq served (Ok tt);;
  assert_eq (last events) (Some (Disconnected Rejected)).

(** SV-R-062 *)
Definition ut_serve_link_returns_ok_when_shutting_down : Result unit :=
  '(served, events, _) ← serves Tcp_framing answering any_unit_config [true] [] [];
  assert_eq served (Ok tt);;
  assert_eq (last events) (Some (Disconnected ShuttingDown)).

(** SV-R-033, SV-R-052, SV-E-017 *)
Definition ut_clean_close_ends_the_connection_cleanly : Result unit :=
  '(served, events, _) ← link_with always_registers [];
  assert_eq served (Ok tt);;
  assert_eq (List.filter is_disconnect events) [Disconnected Closed].

(** SV-R-050, SV-E-003, SV-E-026 *)
Definition ut_undecodable_request_ends_the_connection_on_tcp : Result unit :=
  '(served, events, _) ← serves Tcp_framing answering any_unit_config [] []
    (pipe 1024 [0; 1; 0; 0; 0; 2; 1; 0]);
  assert_eq served (Err (InvalidFunctionCode 0));;
  assert (existsb (λ event, bool_decide (event = FailedWith (InvalidFunctionCode 0))) events);;
  assert_eq (last events) (Some (Disconnected (DisconnectFailed (InvalidFunctionCode 0)))).

(** SV-R-050, SV-R-065, SV-E-004: the server still waits when the client reads
    the reply. *)
Definition ut_undecodable_request_continues_on_rtu : Result unit :=
  good ← unwrap (encode_request Rtu_framing (mkUnitId 0x11) read_one);
  let corrupt := alter (λ b, Z.lxor b 0xFF) (length good - 1)%nat good in
  match serve_link Rtu_framing answering any_unit_config 1 16 [] []
          (FrameTransport_new (end_of [Ready (Bytes corrupt); Quiet; Ready (Bytes good); Quiet])) with
  | Some (Unfinished (events, t)) =>
      assert_eq (decode_response Rtu_framing (wrote t)) (Ok (mkUnitId 0x11, server_registers));;
      assert (existsb (λ event,
        match event with FailedWith (Checksum _ _) => true | _ => false end) events);;
      assert (negb (existsb is_disconnect events))
  | _ => Panic
  end.

(** SV-E-002 *)
Definition ut_unsupported_named_function_is_dispatched : Result unit :=
  '(served, events, wire) ← link_with (λ _, inr EC_IllegalFunction) [0; 9; 0; 0; 0; 2; 0x11; 0x11];
  assert_eq wire [0; 9; 0; 0; 0; 3; 0x11; 0x91; 0x01];;
  assert (existsb (λ event,
    match event with
    | Requested _ _ (mkUnitId 0x11) Req_ReportServerId => true
    | _ => false
    end) events);;
  assert_eq served (Ok tt).

(** SV-E-005 *)
Definition out_of_range (error : Error) : bool :=
  match error with OutOfRange _ 126 1 125 => true | _ => false end.

Definition ut_out_of_wire_range_quantity_is_undecodable : Result unit :=
  '(served, events, _) ← serves Tcp_framing answering any_unit_config [] []
    (pipe 1024 [0; 1; 0; 0; 0; 6; 1; 0x03; 0x00; 0x00; 0x00; 0x7E]);
  assert (match served with Err error => out_of_range error | _ => false end);;
  assert (existsb (λ event,
    match event with FailedWith error => out_of_range error | _ => false end) events);;
  assert (negb (existsb is_request events));;
  assert (match last events with
          | Some (Disconnected (DisconnectFailed error)) => out_of_range error
          | _ => false
          end).

(** SV-E-016: silence, and then a close. *)
Definition ut_silent_peer_is_held_open : Result unit :=
  match serve_link Tcp_framing answering any_unit_config 1 16 [] []
          (FrameTransport_new (end_of [Quiet; Quiet; Quiet])) with
  | Some (Unfinished (events, _)) => assert_eq events [Connected_ (mkConnectionId 1) None]
  | _ => Panic
  end;;
  '(served, events, _) ← serves Tcp_framing answering any_unit_config [] []
    ([Quiet; Quiet; Quiet] ++ dropped);
  assert_eq served (Ok tt);;
  assert_eq (last events) (Some (Disconnected Closed)).

(** SV-R-020, SV-R-021, SV-E-008 *)
Definition ut_configured_unit_ignores_other_units : Result unit :=
  '(served, events, wire) ← link_of always_registers (mkServerConfig (Some (mkUnitId 1)))
    [(mbap_header 1 2, read_one); (mbap_header 2 1, read_one)];
  assert_responses Tcp_framing wire [(mbap_header 2 1, server_registers)];;
  assert_eq served (Ok tt);;
  assert_eq (List.filter is_request events)
    [Requested (mkConnectionId 1) None (mkUnitId 1) read_one].

(** SV-R-008, SV-R-022, SV-E-011 *)
Definition ut_unconfigured_unit_dispatches_every_unit : Result unit :=
  let units := [2; 7; 247] in
  '(served, events, wire) ← link_of always_registers any_unit_config
    ((λ unit, (mbap_header unit unit, read_one)) <$> units);
  assert_responses Tcp_framing wire ((λ unit, (mbap_header unit unit, server_registers)) <$> units);;
  assert_eq served (Ok tt);;
  assert_eq (events ≫= requested_unit) [mkUnitId 2; mkUnitId 7; mkUnitId 247].

(** SV-R-023, SV-E-012 *)
Definition ut_broadcast_is_dispatched_but_unanswered : Result unit :=
  asked ← asks_for Rtu_framing [(mkUnitId 0, read_one); (mkUnitId 1, read_one)];
  '(served, events, wire) ← serves Rtu_framing answering (mkServerConfig (Some (mkUnitId 1))) [] []
    (asked ++ dropped);
  assert_responses Rtu_framing wire [(mkUnitId 1, server_registers)];;
  assert_eq served (Ok tt);;
  assert_eq (events ≫= requested_unit) [mkUnitId 0; mkUnitId 1].

(** SV-R-033, SV-R-050, SV-E-018 *)
Definition ut_close_mid_adu_ends_the_connection_as_a_failure : Result unit :=
  '(served, events, _) ← link_with always_registers half_a_request;
  assert_eq served (Err ConnectionClosed);;
  assert_eq (last events) (Some (Disconnected (DisconnectFailed ConnectionClosed)));;
  assert (existsb (λ event, bool_decide (event = FailedWith ConnectionClosed)) events).

(** SV-R-001, SV-R-007 *)
Definition ut_one_server_serves_ascii_too : Result unit :=
  asked ← asks_for Ascii_framing [(mkUnitId 0x11, read_one)];
  '(served, events, wire) ← serves Ascii_framing answering any_unit_config [] [] (asked ++ dropped);
  assert_responses Ascii_framing wire [(mkUnitId 0x11, server_registers)];;
  assert_eq served (Ok tt);;
  assert_eq (len (List.filter is_request events)) 1.

Definition link_tests : list (Result unit) :=
  [ut_serve_link_answers_a_request; ut_refusal_becomes_an_exception_response;
   ut_response_is_sent_unaltered; ut_unencodable_response_reports_and_continues;
   ut_successive_requests_on_one_link; ut_refused_connection_reads_nothing;
   ut_serve_link_returns_the_error_of_a_failed_link; ut_serve_link_returns_ok_when_closed;
   ut_serve_link_returns_ok_when_rejected; ut_serve_link_returns_ok_when_shutting_down;
   ut_clean_close_ends_the_connection_cleanly; ut_undecodable_request_ends_the_connection_on_tcp;
   ut_undecodable_request_continues_on_rtu; ut_unsupported_named_function_is_dispatched;
   ut_out_of_wire_range_quantity_is_undecodable; ut_silent_peer_is_held_open;
   ut_configured_unit_ignores_other_units; ut_unconfigured_unit_dispatches_every_unit;
   ut_broadcast_is_dispatched_but_unanswered; ut_close_mid_adu_ends_the_connection_as_a_failure;
   ut_one_server_serves_ascii_too].

(** ** Datagrams

    [serve_udp] on datagrams that arrive one after the other, each served before
    the next is received, until the handle shuts it down. *)

Section datagrams.
Context (svc : Service) (config : ServerConfig).

Fixpoint serves_udp (arriving : list (list Z * SocketAddr)) (s : SvcState svc)
    : Result (SvcState svc * list (list Z)) :=
  match arriving with
  | [] => mret (s, [])
  | (bs, peer) :: arriving' =>
      let received := fst (recv_datagram_request Tcp_framing (Datagram bs) peer
        (udp_incoming Tcp_framing)) in
      match next_datagram svc [Arrived received] s with
      | (Some (Got (header, request, peer)), s', _) =>
          let '(out, s'') := serve_datagram svc config
            (Connection_new UDP_CONNECTION (Some peer)) header request SentDatagram s' in
          '(end_, sent) ← serves_udp arriving' s'';
          mret (end_, out ++ sent)
      | (None, s', _) => serves_udp arriving' s'
      | _ => Panic
      end
  end.
End datagrams.

(** The address the tests' client is bound to, the datagrams it sends, and the
    responses it receives. *)
Definition client_addr : SocketAddr := mkSocketAddr (V4 0x7F000001) 40000.

Definition udp_requests (requests : list (MbapHeader * RequestPdu))
    : Result (list (list Z * SocketAddr)) :=
  mapM (λ '(header, request),
    adu ← unwrap (encode_request Tcp_framing header request); mret (adu, client_addr)) requests.

Definition udp_responses (sent : list (list Z)) : Result (list (MbapHeader * ResponsePdu)) :=
  mapM (λ datagram,
    unwrap (fst (udp_recv_response Tcp_framing (Datagram datagram) (udp_incoming Tcp_framing)))) sent.

(** A recorder served [requests] over UDP: its events and the responses. *)
Definition over_udp (config : ServerConfig) (arriving : list (list Z * SocketAddr))
    : Result (list ServiceEvent * list (MbapHeader * ResponsePdu)) :=
  '(events, sent) ← serves_udp answering config arriving [];
  responses ← udp_responses sent;
  mret (events, responses).

(** SV-R-057, SV-R-066 *)
Definition ut_serve_udp_answers_a_request_with_no_connection_lifecycle : Result unit :=
  arriving ← udp_requests [(mbap_header 1 0x11, read_one)];
  '(events, responses) ← over_udp any_unit_config arriving;
  assert_eq responses [(mbap_header 1 0x11, server_registers)];;
  assert_eq events [Requested (mkConnectionId 0) (Some client_addr) (mkUnitId 0x11) read_one].

(** SV-R-020 *)
Definition ut_configured_unit_ignores_other_units_over_udp : Result unit :=
  arriving ← udp_requests [(mbap_header 1 2, read_one); (mbap_header 2 1, read_one)];
  '(events, responses) ← over_udp (mkServerConfig (Some (mkUnitId 1))) arriving;
  assert_eq responses [(mbap_header 2 1, server_registers)];;
  assert_eq (len (List.filter is_request events)) 1.

(** SV-R-058, SV-R-080 *)
Definition udp_garbage : list Z * SocketAddr := ([0; 1; 0; 0; 0; 2; 1; 0], mkSocketAddr (V4 0x7F000001) 40001).

Definition ut_udp_decode_failure_does_not_disturb_other_datagrams : Result unit :=
  arriving ← udp_requests [(mbap_header 1 1, read_one)];
  '(events, responses) ← over_udp any_unit_config (udp_garbage :: arriving);
  assert_eq responses [(mbap_header 1 1, server_registers)];;
  assert (existsb (λ event, bool_decide (event = FailedWith (InvalidFunctionCode 0))) events).

(** ** The error hooks *)

(** What a watcher has seen, the failures reported to it, and the actions it will
    answer with. *)
Record Watched := mkWatched {
  seen : list Error;
  reported : list (ConnectionId * Error);
  actions : list AcceptErrorAction;
}.

Definition watching (actions : list AcceptErrorAction) : Watched := mkWatched [] [] actions.

(** The hook of both watchers: records the error, and answers the next action, or
    [Stop] when there is none. *)
Definition watch (error : Error) (w : Watched) : AcceptErrorAction * Watched :=
  let seen := seen w ++ [error] in
  match actions w with
  | action :: actions => (action, mkWatched seen (reported w) actions)
  | [] => (StopServing, mkWatched seen (reported w) [])
  end.

(** [AcceptWatcher] and [ReceiveWatcher], without their gates. *)
Definition AcceptWatcher : Service := {|
  SvcState := Watched;
  on_request _ _ _ w := (inr EC_IllegalFunction, w);
  on_connect _ w := (Accept, w);
  on_disconnect _ _ w := w;
  on_error _ _ w := w;
  on_accept_error := watch;
  on_receive_error := default_on_receive_error test_errno Linux;
  on_tls_handshake_failed := default_on_tls_handshake_failed;
|}.

Definition ReceiveWatcher : Service := {|
  SvcState := Watched;
  on_request _ _ request w :=
    (inl (Some (match request with
                | Req_ReadHoldingRegisters _ (mkQuantity 1) =>
                    Resp_ReadHoldingRegisters (replicate 130 (mkRegisterValue 0))
                | _ => server_registers
                end)), w);
  on_connect _ w := (Accept, w);
  on_disconnect _ _ w := w;
  on_error conn error w := mkWatched (seen w) (reported w ++ [(id conn, error)]) (actions w);
  on_accept_error := default_on_accept_error;
  on_receive_error := watch;
  on_tls_handshake_failed := default_on_tls_handshake_failed;
|}.

Definition io_error : Error := Io OutOfMemory None.
Definition got {T} (accepted : option (Accepted T)) : bool :=
  match accepted with Some (Got _) => true | _ => false end.

(** SV-R-073 *)
Definition ut_receive_error_is_reported_with_the_error : Result unit :=
  let '(received, watcher, _) := next_datagram ReceiveWatcher
    [Arrived (Err io_error); Arrived (Ok (mbap_header 1 1, read_one, client_addr))]
    (watching [ContinueServing]) in
  assert (got received);;
  assert_eq (seen watcher) [io_error].

(** SV-R-075 *)
Definition ut_udp_decode_failure_is_not_a_receive_error : Result unit :=
  let '(received, watcher, _) := next_datagram ReceiveWatcher
    [Arrived (Err Malformed); Arrived (Ok (mbap_header 1 1, read_one, client_addr))]
    (watching []) in
  assert (got received);;
  assert_eq (seen watcher) [].

(** SV-R-076 *)
Definition ut_udp_send_failure_is_not_a_receive_error : Result unit :=
  arriving ← udp_requests [(mbap_header 1 1, read_one); (mbap_header 2 1, read_two)];
  '(watcher, sent) ← serves_udp ReceiveWatcher any_unit_config arriving (watching []);
  responses ← udp_responses sent;
  assert_eq responses [(mbap_header 2 1, server_registers)];;
  assert_eq (seen watcher) [].

(** SV-R-080, SV-R-066 *)
Definition ut_udp_per_datagram_failures_reach_on_error_with_connection_zero : Result unit :=
  arriving ← udp_requests [(mbap_header 1 1, read_one); (mbap_header 2 1, read_two)];
  '(watcher, sent) ← serves_udp ReceiveWatcher any_unit_config (udp_garbage :: arriving) (watching []);
  responses ← udp_responses sent;
  assert_eq responses [(mbap_header 2 1, server_registers)];;
  assert_eq (len (reported watcher)) 2;;
  assert (forallb (λ r, bool_decide (fst r = UDP_CONNECTION)) (reported watcher));;
  assert (existsb (λ r, bool_decide (snd r = InvalidFunctionCode 0)) (reported watcher));;
  assert (existsb (λ r, match snd r with PduTooLarge _ _ => true | _ => false end)
            (reported watcher)).

(** SV-R-059 *)
Definition ut_accept_error_is_reported_with_the_error : Result unit :=
  let '(accepted, watcher, _) := next_accept AcceptWatcher
    [Arrived (Err io_error); Arrived (Ok 7)] (watching [ContinueServing]) in
  assert (match accepted with Some (Got 7) => true | _ => false end);;
  assert_eq (seen watcher) [io_error];;
  assert_eq (fst (next_id 1)) (mkConnectionId 1).

Definition datagram_tests : list (Result unit) :=
  [ut_serve_udp_answers_a_request_with_no_connection_lifecycle;
   ut_configured_unit_ignores_other_units_over_udp;
   ut_udp_decode_failure_does_not_disturb_other_datagrams;
   ut_receive_error_is_reported_with_the_error; ut_udp_decode_failure_is_not_a_receive_error;
   ut_udp_send_failure_is_not_a_receive_error;
   ut_udp_per_datagram_failures_reach_on_error_with_connection_zero;
   ut_accept_error_is_reported_with_the_error].

(** The unit tests of one link, and those of datagrams and of the error hooks,
    pass. *)
Lemma server_tests_pass : Forall passes (link_tests ++ datagram_tests).
Proof. run_tests. Qed.
End tests.
