(* ===== verification/Typed.v ===== *)
(** * Values stay in their types, end to end

    The wire gives bytes of any content and in any order.  [wf] on a transport
    says that what it holds and what its stream delivers are bytes within the
    buffer's bound; every operation keeps that, no operation panics on it, and
    what is received has every field within the width of its Rust type.  The
    client and the serving loop inherit this from the interfaces
    [TypedTransport] and [TypedFraming]. *)

From S2P Require Import Prelude.
From S2P Require Import Errors.
From S2P Require Import Parse.
From S2P Require Import Value.
From S2P Require Import Function.
From S2P Require Import Exception.
From S2P Require Import Wire.
From S2P Require Import Pdu.
From S2P Require Import PduSpec.
From S2P Require Import PduRoundtrip.
From S2P Require Import Framing.
From S2P Require Import Rtu.
From S2P Require Import RtuStream.
From S2P Require Import Tcp.
From S2P Require Import Ascii.
From S2P Require Import Serial.
From S2P Require Import Transport.
From S2P Require Import TransportSpec.
From S2P Require Import TransportSafety.
From S2P Require Import TransportTheorems.
From S2P Require Import Outgoing.
From S2P Require Import Framed.
From S2P Require Import FramedTheorems.
From S2P Require Import Client.
From S2P Require Import ClientOver.
From S2P Require Import Server.
From S2P Require Import ServerTheorems.
From S2P Require Import Link.

(** ** Well-formedness of the values that cross the interfaces *)

#[export] Instance Wf_unit : Wf unit := λ _, True.
#[export] Instance Wf_prod {A B} `{Wf A, Wf B} : Wf (A * B) := λ p, wf p.1 ∧ wf p.2.
#[export] Instance Wf_option {A} `{Wf A} : Wf (option A) :=
  λ o, match o with Some a => wf a | None => True end.
#[export] Instance Wf_sum {A B} `{Wf A, Wf B} : Wf (A + B) :=
  λ s, match s with inl a => wf a | inr b => wf b end.

(** A result is no panic, and its value is well-formed. *)
#[export] Instance Wf_Result {A} `{Wf A} : Wf (Result A) :=
  λ r, match r with Ok a => wf a | Err _ => True | Panic => False end.

#[export] Instance Wf_Poll {T A} `{Wf T, Wf A} : Wf (Poll T A) :=
  λ p, match p with Finished r t => wf r ∧ wf t | Unfinished t => wf t end.

#[export] Instance Wf_FrameTransport F : Wf (FrameTransport F) := λ t,
  buf_ok F (ft_buffer t) ∧ Forall ev_ok (arrivals (read_half (ft_stream t))) ∧
  bytes_ok (on_wire (write_half (ft_stream t))).

#[export] Instance Wf_SocketRecv : Wf SocketRecv :=
  λ r, match r with Datagram bs => bytes_ok bs | SocketFailed _ _ => True end.

#[export] Instance Wf_UdpTransport F : Wf (UdpTransport F) := λ t,
  wf (deliveries (ut_socket t)) ∧ Forall bytes_ok (dispatched (ut_socket t)) ∧
  bytes_ok (ut_incoming t).

#[export] Instance Wf_Client : Wf Client := λ c, wf (next_transaction c).
#[export] Instance Wf_ClientOver {T} `{Wf T} : Wf (ClientOver T) :=
  λ cl, wf (co_transport cl) ∧ wf (co_client cl).

(** What a framing gives beyond its laws: a rule that is safe to run. *)
Class TypedFraming (F : Framing) : Prop := {
  tf_max : 1 ≤ MAX_ADU_LEN F;
  tf_boundary : boundary_ok (boundary F);
}.

#[export] Instance Tcp_typed {w : Winnow} {ws : WinnowSpec w} : TypedFraming Tcp_framing.
Proof. split; [done|]. split; [done|]. intros bs _. apply adu_len_no_panic. Qed.
#[export] Instance Ascii_typed {w : Winnow} : TypedFraming Ascii_framing.
Proof. by split. Qed.
#[export] Instance Rtu_typed {w : Winnow} {c : Crc16} : TypedFraming Rtu_framing.
Proof. by split. Qed.
#[export] Instance RtuOverTcp_typed {w : Winnow} {ws : WinnowSpec w} {c : Crc16} {cs : Crc16Spec c} :
  TypedFraming RtuOverTcp_framing.
Proof. split; [done|apply boundaries_ok]. Qed.

(** What a client's framing gives: headers within their widths. *)
Class TypedHeaders (F : Framing) `{ClientFraming F} : Prop :=
  request_header_wf u tid : wf u → wf tid → wf (request_header u tid).

#[export] Instance Tcp_headers {w : Winnow} : TypedHeaders Tcp_framing.
Proof. by intros u tid Hu Ht. Qed.
#[export] Instance Rtu_headers {w : Winnow} {c : Crc16} : TypedHeaders Rtu_framing.
Proof. by intros u tid Hu Ht. Qed.
#[export] Instance Ascii_headers {w : Winnow} : TypedHeaders Ascii_framing.
Proof. by intros u tid Hu Ht. Qed.
#[export] Instance RtuOverTcp_headers {w : Winnow} {c : Crc16} : TypedHeaders RtuOverTcp_framing.
Proof. by intros u tid Hu Ht. Qed.

(** What the client needs of its transport. *)
Class TypedTransport (F : Framing) (T : Type) `{ClientTransport F T, Wf T} : Prop := {
  send_request_typed h r (t : T) : wf h → wf r → wf t → wf (ct_send_request h r t);
  recv_response_typed (t : T) : wf t → wf (ct_recv_response t);
}.

(** ** Transports *)

Section transports.
Context {w : Winnow} {ws : WinnowSpec w} {F : Framing} {L : LawfulFraming F} {TF : TypedFraming F}.

Lemma decode_request_typed bs : bytes_ok bs → wf (decode_request F bs).
Proof.
  intros Hb. pose proof (decode_request_total bs Hb).
  destruct (decode_request F bs) as [[h r]|e|] eqn:E; [|done..].
  by destruct (request_adu_reencode bs h r) as (adu & _ & _ & ? & ?).
Qed.

Lemma decode_response_typed bs : bytes_ok bs → wf (decode_response F bs).
Proof.
  intros Hb. pose proof (decode_response_total bs Hb).
  destruct (decode_response F bs) as [[h r]|e|] eqn:E; [|done..].
  by destruct (response_adu_reencode bs h r) as (adu & _ & _ & ? & ?).
Qed.

(** A receive, whatever decodes its ADU. *)
Lemma recv_typed {A} `{Wf A} (decode : list Z → Result A) dir st trace :
  (∀ adu, bytes_ok adu → wf (decode adu)) → buf_ok F (buffer st) → Forall ev_ok trace →
  match recv_adu F dir st trace with
  | Returned r st' trace' =>
      wf (adu ← r; decode adu) ∧ buf_ok F (buffer st') ∧ Forall ev_ok trace'
  | Waiting st' => buf_ok F (buffer st')
  end.
Proof.
  intros Hd Hb Ht. unfold recv_adu. destruct (receiving st); [done|].
  pose proof (read_adu_good F tf_max dir trace (buffer st) tf_boundary Hb Ht) as Hg.
  destruct (read_adu F dir trace (buffer st)) as [[adu|e|] b t|b]; [| |done|done].
  - destruct Hg as (Hb' & Ht' & Ha). split_and!; [|done|done]. by apply Hd.
  - destruct Hg as [Hb' Ht']. split_and!; [done| |done]. cbn [buffer].
    case_match; [apply buf_ok_nil, tf_max|done].
Qed.

Lemma ft_recv_request_typed (t : FrameTransport F) : wf t → wf (ft_recv_request t).
Proof.
  intros (Hb & Hr & Hw). unfold ft_recv_request, recv_request.
  pose proof (recv_typed (decode_request F) DirRequest (mkRecvState (ft_buffer t) (ft_receiving t))
    (arrivals (read_half (ft_stream t))) decode_request_typed Hb Hr) as Ht.
  destruct (recv_adu _ _ _ _) as [r st tr|st]; cbn; [|by split_and!].
  destruct Ht as (H1 & H2 & H3). by split_and!.
Qed.

Lemma ft_recv_response_typed (t : FrameTransport F) : wf t → wf (ft_recv_response t).
Proof.
  intros (Hb & Hr & Hw). unfold ft_recv_response, recv_response.
  pose proof (recv_typed (decode_response F) DirResponse (mkRecvState (ft_buffer t) (ft_receiving t))
    (arrivals (read_half (ft_stream t))) decode_response_typed Hb Hr) as Ht.
  destruct (recv_adu _ _ _ _) as [r st tr|st]; cbn; [|by split_and!].
  destruct Ht as (H1 & H2 & H3). by split_and!.
Qed.

(** An encoder that appends bytes or fails. *)
Definition writes_bytes (enc : W unit) : Prop :=
  match enc [] with (Ok _, out) => bytes_ok out | (Err _, _) => True | (Panic, _) => False end.

Lemma request_writes_bytes h r : wf h → wf r → writes_bytes (encode_request_into F h r).
Proof.
  intros Hh Hr. unfold writes_bytes. rewrite encode_request_into_frame by done.
  pose proof (request_bytes_no_panic r). destruct (request_bytes r) as [pdu|e|] eqn:E; [|done..].
  apply frame_bounds; [done|]. by eapply request_bytes_pdu.
Qed.

Lemma response_writes_bytes h r : wf h → wf r → writes_bytes (encode_response_into F h r).
Proof.
  intros Hh Hr. unfold writes_bytes. rewrite encode_response_into_frame by done.
  pose proof (response_bytes_no_panic r). destruct (response_bytes r) as [pdu|e|] eqn:E; [|done..].
  apply frame_bounds; [done|]. by eapply response_bytes_pdu.
Qed.

Lemma send_over_typed enc wh :
  writes_bytes enc → bytes_ok (on_wire wh) →
  match send_over enc wh with
  | Finished r s => wf r ∧ bytes_ok (on_wire s.1)
  | Unfinished s => bytes_ok (on_wire s.1)
  end.
Proof.
  unfold writes_bytes, send_over. intros He Hw. destruct (enc []) as [[u|e|] out]; [|done..].
  destruct (departures wh) as [|[wr fl] later]; [done|].
  destruct wr as [|n k o]; [destruct fl as [|k o]|]; cbn; (split; [done|]); eauto with bytes.
Qed.

Lemma ft_send_request_typed h r (t : FrameTransport F) :
  wf h → wf r → wf t → wf (ft_send_request h r t).
Proof.
  intros Hh Hr (Hb & Ha & Hw). unfold ft_send_request.
  pose proof (send_over_typed _ (write_half (ft_stream t)) (request_writes_bytes h r Hh Hr) Hw) as Hs.
  destruct (send_over _ _) as [res s|s]; cbn; [destruct Hs as [? ?]|]; by split_and!.
Qed.

Lemma ft_send_response_typed h r (t : FrameTransport F) :
  wf h → wf r → wf t → wf (ft_send_response h r t).
Proof.
  intros Hh Hr (Hb & Ha & Hw). unfold ft_send_response.
  pose proof (send_over_typed _ (write_half (ft_stream t)) (response_writes_bytes h r Hh Hr) Hw) as Hs.
  destruct (send_over _ _) as [res s|s]; cbn; [destruct Hs as [? ?]|]; by split_and!.
Qed.

#[export] Instance FrameTransport_typed : TypedTransport F (FrameTransport F).
Proof. split; [apply ft_send_request_typed|apply ft_recv_response_typed]. Qed.

(** Datagrams. *)
Lemma udp_recv_typed {A} `{Wf A} (decode : list Z → Result A) r incoming :
  (∀ adu, bytes_ok adu → wf (decode adu)) → wf r → bytes_ok incoming →
  wf (udp_recv decode r incoming).1 ∧ bytes_ok (udp_recv decode r incoming).2.
Proof.
  intros Hd Hr Hi. unfold udp_recv, socket_recv. destruct r as [bs|k o]; [|done].
  set (n := Nat.min _ _). cbn [fst snd Result_bind mbind].
  assert (bytes_ok (take n bs ++ drop n incoming)) as Hb
    by (apply bytes_ok_app; [by apply bytes_ok_take|by apply bytes_ok_drop]).
  split; [|done]. rewrite slice_get_take.
  - cbn. apply Hd. by apply bytes_ok_take.
  - rewrite len_app. unfold len. rewrite length_take. lia.
Qed.

Lemma udp_recv_over_typed {A} `{Wf A} (decode : list Z → Result A) due incoming :
  (∀ adu, bytes_ok adu → wf (decode adu)) → wf due → bytes_ok incoming →
  match udp_recv_over decode due incoming with
  | Finished r s => wf r ∧ wf s.1 ∧ bytes_ok s.2
  | Unfinished s => wf s.1 ∧ bytes_ok s.2
  end.
Proof.
  intros Hd Hdue Hi. destruct Hdue as [|r due Hr Hdue]; [split; [constructor|done]|].
  cbn. pose proof (udp_recv_typed decode r incoming Hd Hr Hi) as [H1 H2].
  by destruct (udp_recv decode r incoming).
Qed.

Lemma udp_send_over_typed enc due sent :
  writes_bytes enc → Forall bytes_ok sent →
  match udp_send_over enc due sent with
  | Finished r s => wf r ∧ Forall bytes_ok s.1.2
  | Unfinished s => Forall bytes_ok s.1.2
  end.
Proof.
  unfold writes_bytes, udp_send_over, udp_send. intros He Hs.
  destruct (enc []) as [[u|e|] out]; [|done..]. destruct due as [|[|k o] due]; cbn; [done| |done].
  split; [done|]. apply Forall_app. by split; [|constructor].
Qed.

Lemma ut_recv_request_typed (t : UdpTransport F) : wf t → wf (ut_recv_request t).
Proof.
  intros (Hd & Hs & Hi). unfold ut_recv_request.
  pose proof (udp_recv_over_typed _ _ _ decode_request_typed Hd Hi) as Hr.
  destruct (udp_recv_over _ _ _) as [r s|s]; cbn; [destruct Hr as (? & ? & ?)|destruct Hr as [? ?]];
    by split_and!.
Qed.

Lemma ut_recv_response_typed (t : UdpTransport F) : wf t → wf (ut_recv_response t).
Proof.
  intros (Hd & Hs & Hi). unfold ut_recv_response.
  pose proof (udp_recv_over_typed _ _ _ decode_response_typed Hd Hi) as Hr.
  destruct (udp_recv_over _ _ _) as [r s|s]; cbn; [destruct Hr as (? & ? & ?)|destruct Hr as [? ?]];
    by split_and!.
Qed.

Lemma ut_send_request_typed h r (t : UdpTransport F) :
  wf h → wf r → wf t → wf (ut_send_request h r t).
Proof.
  intros Hh Hr (Hd & Hs & Hi). unfold ut_send_request.
  pose proof (udp_send_over_typed _ (dispatches (ut_socket t)) _ (request_writes_bytes h r Hh Hr) Hs) as H.
  destruct (udp_send_over _ _ _) as [res s|s]; cbn; [destruct H as [? ?]|]; by split_and!.
Qed.

#[export] Instance UdpTransport_typed : TypedTransport F (UdpTransport F).
Proof. split; [apply ut_send_request_typed|apply ut_recv_response_typed]. Qed.
End transports.

(** ** The client *)

Lemma wf_next tid : wf tid → wf (next tid).
Proof.
  unfold next, wf, Wf_TransactionId, is_u16. intros H.
  destruct (Z.leb_spec (transaction_id_0 tid + 1) U16_MAX); cbn; unfold U16_MAX in *; lia.
Qed.

Section client.
Context {w : Winnow} {ws : WinnowSpec w} {F : Framing} {CF : ClientFraming F} {TH : TypedHeaders F}.
Context {T : Type} {CT : ClientTransport F T} {WT : Wf T} {TT : TypedTransport F T}.

Lemma await_over_typed fuel header expected c t res :
  wf c → wf t → await_over fuel header expected c t = Some res → wf res.
Proof.
  intros Hc. revert t. induction fuel as [|fuel IH]; intros t Ht; [done|]. cbn [await_over].
  pose proof (recv_response_typed t Ht) as Hr.
  destruct (ct_recv_response t) as [[[hin resp]|e|] t'|t'].
  - destruct Hr as [[_ Hresp] Ht']. destruct (negb (is_response_to header hin)); [by apply IH|].
    destruct (negb _); intros [= <-]; by split_and!.
  - destruct Hr as [_ Ht']. intros [= <-]. by split_and!.
  - by destruct Hr.
  - intros [= <-]. by split_and!.
Qed.

Context {DT : DrainingTransport F T}.

End client.

(** ** The serving loop *)

(** A service whose answers fit their types when the requests do, in every state
    its invariant allows. *)
Record TypedService (svc : Service) (I : SvcState svc → Prop) : Prop := {
  on_request_typed conn u r s : wf r → I s →
    wf (on_request svc conn u r s).1 ∧ I (on_request svc conn u r s).2;
  on_error_typed conn e s : I s → I (on_error svc conn e s);
}.

Lemma RequestPdu_function_wf (r : RequestPdu) : wf r → wf (RequestPdu_function r).
Proof. destruct r; try done. by intros [? _]. Qed.

Lemma response_of_typed (r : RequestPdu) answer :
  wf r → wf answer → wf (response_of (RequestPdu_function r) answer).
Proof.
  intros Hr Ha. destruct answer as [o|x]; [done|]. split; [by apply RequestPdu_function_wf|done].
Qed.

Section server.
Context {w : Winnow} {ws : WinnowSpec w} {F : Framing} {L : LawfulFraming F} {TF : TypedFraming F}.
Context {SF : ServerFraming F} (svc : Service) (I : SvcState svc → Prop) (HS : TypedService svc I).
Context (config : ServerConfig) (conn : Connection).

Lemma answer_over_typed h r s t :
  wf h → wf r → wf t → I s →
  match answer_over F svc config conn h r s t with
  | (PassPanic, _, _) => False
  | (_, s', t') => I s' ∧ wf t'
  end.
Proof.
  intros Hh Hr Ht Hs0. unfold answer_over. destruct (negb _ && _); [done|].
  destruct (on_request_typed _ _ HS conn (unit_of h) r s Hr Hs0) as [Ha Hs1].
  destruct (on_request svc conn _ r s) as [a s1]. cbn in Ha, Hs1.
  pose proof (response_of_typed r a Hr Ha) as Hresp.
  destruct (response_of _ a) as [resp|]; [|done]. destruct (addresses_all _); [done|].
  pose proof (ft_send_response_typed h resp t Hh Hresp Ht) as Hs.
  destruct (ft_send_response h resp t) as [[u|e|] t'|t']; [by destruct Hs| |by destruct Hs|done].
  destruct Hs as [_ Ht']. pose proof (on_error_typed _ _ HS conn e s1 Hs1).
  by destruct (ends_stream e).
Qed.

Lemma exchange_over_typed fuel signals s t p :
  wf t → I s → exchange_over F svc config conn fuel signals s t = Some p →
  reply p ≠ Some Panic ∧ I (after p).1 ∧ wf (after p).2.
Proof.
  revert signals s t. induction fuel as [|fuel IH]; intros signals s t Ht Hs0; [done|].
  destruct (hd false signals) eqn:Hs; [cbn [exchange_over]; rewrite Hs; by intros [= <-]|].
  pose proof (ft_recv_request_typed t Ht) as Hr.
  destruct (ft_recv_request t) as [[[h r]|e|] t'|t'] eqn:Er.
  - cbn [exchange_over]. rewrite Hs, Er. destruct Hr as [[Hh Hr] Ht'].
    pose proof (answer_over_typed h r s t' Hh Hr Ht' Hs0) as Ha.
    destruct (answer_over F svc config conn h r s t') as [[ps s'] t''].
    destruct ps; [destruct Ha; by apply IH|by intros [= <-]|done|by intros [= <-]].
  - destruct Hr as [_ Ht']. pose proof (on_error_typed _ _ HS conn e s Hs0). rewrite (exchange_over_error svc config conn _ _ _ _ e t') by done.
    destruct (is_eof e); [by intros [= <-]|]. destruct (gives_up e); [by intros [= <-]|by apply IH].
  - by destruct Hr.
  - cbn [exchange_over]. rewrite Hs, Er. by intros [= <-].
Qed.

(** C7. Serving is well typed, over every framing: with a service whose
    answers fit their types the loop of a connection ends without a panic
    whatever bytes the peer sends, exception responses included; it keeps the
    invariant of the service, and leaves a transport whose buffer is within its
    bound and whose output is bytes. *)
Theorem serving_well_typed {P : ProgressFraming F} {N : NonEmptyAdu F} signals s t :
  wf t → I s →
  ∃ p, (∀ fuel, (ft_unread t < fuel)%nat →
          exchange_over F svc config conn fuel signals s t = Some p) ∧
       reply p ≠ Some Panic ∧ I (after p).1 ∧ wf (after p).2.
Proof.
  intros Ht Hs0. destruct (exchange_over_total svc config conn (S (ft_unread t)) signals s t) as [p Hp];
    [lia|].
  exists p. split; [done|]. eapply exchange_over_typed; [done|done|]. apply (Hp (S (ft_unread t))). lia.
Qed.
End server.

(** ** Witnesses *)

Section witnesses.
Local Existing Instance winnow_model.
Local Existing Instance winnow_model_spec.


Lemma counting_typed : TypedService counting (λ _, True).
Proof. split; [|done]. intros cn u r n _ _. cbn. case_bool_decide; by split; by_eval. Qed.

(** A peer that sends bytes that are no request at all. *)
Definition babbling : FrameTransport Tcp_framing :=
  FrameTransport_new (mkStream (mkReadHalf [Ready (Bytes [0; 1; 0; 0; 0; 3; 9; 0x2B; 0xFF]); EOF])
    (mkWriteHalf [(WroteAll, Flushed)] [])).

Lemma serving_well_typed_witness :
  ∃ p, (∀ fuel, (ft_unread babbling < fuel)%nat →
          exchange_over Tcp_framing counting any_unit link fuel [] 0%nat babbling = Some p) ∧
       reply p ≠ Some Panic ∧ True ∧ wf (after p).2.
Proof.
  apply (serving_well_typed (F := Tcp_framing) counting (λ _, True) counting_typed any_unit link []
    0%nat babbling); [|done].
  split_and!; [split; by_eval|by_eval; split; by_eval|by_eval].
Defined.
End witnesses.
