(* ===== verification/Device.v ===== *)
(** * The in-memory device ([examples/interop_server.rs])

    The service the repository ships as its example of a data model: four tables
    of sixteen cells behind the [Service] trait.  A table is a [HashMap] keyed by
    the address; a request locks one table once, so it is one step on the state.
    What the methods print is left out.  The abstract device is four arrays, and
    the tables refine it. *)

From stdpp Require Import gmap.
From S2P Require Import Prelude.
From S2P Require Import Errors.
From S2P Require Import Parse.
From S2P Require Import Value.
From S2P Require Import Function.
From S2P Require Import Exception.
From S2P Require Import Wire.
From S2P Require Import Pdu.
From S2P Require Import PduSpec.
From S2P Require Import PduRoundtrip.
From S2P Require Import Framing.
From S2P Require Import Rtu.
From S2P Require Import RtuStream.
From S2P Require Import Tcp.
From S2P Require Import Ascii.
From S2P Require Import Transport.
From S2P Require Import TransportSpec.
From S2P Require Import TransportSafety.
From S2P Require Import TransportTheorems.
From S2P Require Import Outgoing.
From S2P Require Import Framed.
From S2P Require Import Server.
From S2P Require Import Link.
From S2P Require Import Typed.

(** ** The code *)

(** [SIZE]: how many addresses each table exposes. *)
Definition SIZE : Z := 16.

Record Device := mkDevice {
  coils : gmap Z bool;
  discrete : gmap Z bool;
  holding : gmap Z Z;
  input : gmap Z Z;
}.

(** [(0..SIZE).map(|at| (at, value(at))).collect()]. *)
Definition filled {T} (value : Z → T) : gmap Z T :=
  list_to_map ((λ at_, (at_, value at_)) <$> zrange (Z.to_nat SIZE)).

(** [Device::default]. *)
Definition Device_default : Device :=
  mkDevice (filled (λ _, false)) (filled (λ at_, at_ mod 2 =? 0)) (filled (λ at_, at_))
    (filled (λ at_, 100 + at_)).

Section tables.
Context {T : Type}.

(** [read]: the first address that is missing, or beyond [u16], ends it. *)
Fixpoint read_offsets (table : gmap Z T) (address : Address) (offsets : list Z)
    : list T + ExceptionCode :=
  match offsets with
  | [] => inl []
  | offset :: offsets' =>
      match u16_try_from (address_0 address + offset) with
      | None => inr EC_IllegalDataAddress
      | Some at_ =>
          match table !! at_ with
          | None => inr EC_IllegalDataAddress
          | Some value =>
              match read_offsets table address offsets' with
              | inl values => inl (value :: values)
              | inr e => inr e
              end
          end
      end
  end.

Definition device_read (table : gmap Z T) (address : Address) (quantity : Quantity)
    : list T + ExceptionCode :=
  read_offsets table address (zrange (Z.to_nat (quantity_0 quantity))).

(** [write]: the values before a refused one stay written. *)
Fixpoint write_values (table : gmap Z T) (address : Address) (offset : Z) (values : list T)
    : (unit + ExceptionCode) * gmap Z T :=
  match values with
  | [] => (inl tt, table)
  | value :: values' =>
      match u16_try_from offset with
      | None => (inr EC_IllegalDataValue, table)
      | Some offset =>
          match u16_try_from (address_0 address + offset) with
          | None => (inr EC_IllegalDataAddress, table)
          | Some at_ =>
              match table !! at_ with
              | None => (inr EC_IllegalDataAddress, table)
              | Some _ => write_values (<[at_ := value]> table) address (offset + 1) values'
              end
          end
      end
  end.

Definition device_write (table : gmap Z T) (address : Address) (values : list T)
    : (unit + ExceptionCode) * gmap Z T :=
  write_values table address 0 values.
End tables.

(** [Quantity(u16::try_from(n).unwrap_or(u16::MAX))]. *)
Definition saturated_quantity (n : Z) : Quantity := mkQuantity (unwrap_or U16_MAX (u16_try_from n)).

(** What [?] makes of a refused read or write. *)
Definition answered_by {A} (r : A + ExceptionCode) (k : A → ResponsePdu)
    : option ResponsePdu + ExceptionCode :=
  match r with inl a => inl (Some (k a)) | inr e => inr e end.

(** [Device::on_request]. *)
Definition device_on_request (conn : Connection) (unit : UnitId) (request : RequestPdu) (d : Device)
    : (option ResponsePdu + ExceptionCode) * Device :=
  match request with
  | Req_ReadCoils address quantity =>
      (answered_by (device_read (coils d) address quantity) Resp_ReadCoils, d)
  | Req_ReadDiscreteInputs address quantity =>
      (answered_by (device_read (discrete d) address quantity) Resp_ReadDiscreteInputs, d)
  | Req_ReadHoldingRegisters address quantity =>
      (answered_by (device_read (holding d) address quantity)
         (λ vs, Resp_ReadHoldingRegisters (mkRegisterValue <$> vs)), d)
  | Req_ReadInputRegisters address quantity =>
      (answered_by (device_read (input d) address quantity)
         (λ vs, Resp_ReadInputRegisters (mkRegisterValue <$> vs)), d)
  | Req_WriteSingleCoil address value =>
      let '(r, table) := device_write (coils d) address [value] in
      (answered_by r (λ _, Resp_WriteSingleCoil address value),
       mkDevice table (discrete d) (holding d) (input d))
  | Req_WriteSingleRegister address value =>
      let '(r, table) := device_write (holding d) address [register_value_0 value] in
      (answered_by r (λ _, Resp_WriteSingleRegister address value),
       mkDevice (coils d) (discrete d) table (input d))
  | Req_WriteMultipleCoils address values =>
      let '(r, table) := device_write (coils d) address values in
      (answered_by r (λ _, Resp_WriteMultipleCoils address (saturated_quantity (len values))),
       mkDevice table (discrete d) (holding d) (input d))
  | Req_WriteMultipleRegisters address registers =>
      let values := register_value_0 <$> registers in
      let '(r, table) := device_write (holding d) address values in
      (answered_by r (λ _, Resp_WriteMultipleRegisters address (saturated_quantity (len values))),
       mkDevice (coils d) (discrete d) table (input d))
  | _ => (inr EC_IllegalFunction, d)
  end.

(** [impl Service for Device]; the hooks it leaves out are the defaults. *)
Definition Device_service (errno : LibcErrno) (target : Target) : Service := {|
  SvcState := Device;
  on_request := device_on_request;
  on_connect _ d := (Accept, d);
  on_disconnect _ _ d := d;
  on_error _ _ d := d;
  on_accept_error := default_on_accept_error;
  on_receive_error := default_on_receive_error errno target;
  on_tls_handshake_failed := default_on_tls_handshake_failed;
|}.

(** The configuration [main] serves it with. *)
Definition interop_config : ServerConfig := mkServerConfig (Some (mkUnitId 1)).

(** ** The abstract device: four arrays *)

Record Memory := mkMemory {
  m_coils : list bool;
  m_discrete : list bool;
  m_holding : list Z;
  m_input : list Z;
}.

Section arrays.
Context {T : Type}.

(** A range of no cells is never refused; any other must lie within the array. *)
Definition in_range (a n : nat) : bool := (n =? 0)%nat || (a + n <=? Z.to_nat SIZE)%nat.

Definition refused (a n : nat) : unit + ExceptionCode :=
  if in_range a n then inl tt else inr EC_IllegalDataAddress.

Definition array_read (cells : list T) (a n : nat) : list T + ExceptionCode :=
  if in_range a n then inl (take n (drop a cells)) else inr EC_IllegalDataAddress.

(** The cells a table stands for. *)
Definition holds (table : gmap Z T) (cells : list T) : Prop :=
  length cells = Z.to_nat SIZE ∧
  ∀ at_, table !! at_ = if bool_decide (0 ≤ at_) then cells !! Z.to_nat at_ else None.

Lemma holds_lookup table cells (i : nat) : holds table cells → table !! Z.of_nat i = cells !! i.
Proof. intros [_ H]. by rewrite H, bool_decide_true, Nat2Z.id by lia. Qed.

Lemma holds_insert table cells (i : nat) v :
  holds table cells → (i < Z.to_nat SIZE)%nat → holds (<[Z.of_nat i := v]> table) (<[i := v]> cells).
Proof.
  intros [Hl H] Hi. split; [by rewrite length_insert|]. intros at_.
  destruct (decide (at_ = Z.of_nat i)) as [->|Hne].
  - rewrite lookup_insert_eq, bool_decide_true, Nat2Z.id by lia.
    by rewrite list_lookup_insert_eq by lia.
  - rewrite lookup_insert_ne, H by done. case_bool_decide; [|done].
    rewrite list_lookup_insert_ne; [done|lia].
Qed.

(** One cell: an address that fits, or one beyond every table. *)
Lemma cell_at (table : gmap Z T) cells address (k : nat) :
  wf address → holds table cells →
  match u16_try_from (address_0 address + Z.of_nat k) with
  | Some at_ => at_ = Z.of_nat (Z.to_nat (address_0 address) + k) ∧
      table !! at_ = cells !! (Z.to_nat (address_0 address) + k)%nat
  | None => (Z.to_nat SIZE ≤ Z.to_nat (address_0 address) + k)%nat
  end.
Proof.
  intros Ha Hh. unfold wf, Wf_Address, is_u16 in Ha. unfold u16_try_from, try_from_max.
  destruct (Z.leb_spec (address_0 address + Z.of_nat k) U16_MAX) as [Hle|Hgt].
  - replace (address_0 address + Z.of_nat k) with (Z.of_nat (Z.to_nat (address_0 address) + k)) by lia.
    split; [done|]. by apply holds_lookup.
  - unfold SIZE, U16_MAX in *. lia.
Qed.

Lemma read_offsets_array table cells address k n :
  wf address → holds table cells →
  read_offsets table address (Z.of_nat <$> seq k n) =
    array_read cells (Z.to_nat (address_0 address) + k) n.
Proof.
  intros Ha Hh. revert k. induction n as [|n IH]; intros k; cbn [seq fmap list_fmap read_offsets].
  { done. }
  pose proof (cell_at table cells address k Ha Hh) as Hc. pose proof (proj1 Hh) as Hl.
  rewrite IH. unfold array_read, in_range. rewrite Nat.add_succ_r. cbn [Nat.eqb orb].
  set (i := (Z.to_nat (address_0 address) + k)%nat) in *.
  destruct (u16_try_from _) as [at_|].
  - destruct Hc as [_ ->]. destruct (cells !! i) as [v|] eqn:E.
    + rewrite (drop_S cells v i E). cbn [take].
      apply lookup_lt_Some in E. rewrite Hl in E.
      destruct (Nat.leb_spec (i + S n) (Z.to_nat SIZE)), (Nat.leb_spec (S i + n) (Z.to_nat SIZE));
        try lia; destruct (Nat.eqb_spec n 0) as [->|]; cbn [orb]; try done; lia.
    + apply lookup_ge_None in E. rewrite Hl in E.
      destruct (Nat.leb_spec (i + S n) (Z.to_nat SIZE)); [lia|done].
  - destruct (Nat.leb_spec (i + S n) (Z.to_nat SIZE)); [lia|done].
Qed.

(** Writing beyond the array changes nothing. *)
Lemma inserts_beyond (cells values : list T) i :
  (length cells ≤ i)%nat → list_inserts i values cells = cells.
Proof.
  revert i. induction values as [|v values IH]; intros i Hi; [done|]. cbn.
  rewrite IH by lia. by apply list_insert_ge.
Qed.

Lemma write_values_array table cells address (k : nat) values :
  let a := Z.to_nat (address_0 address) in
  wf address → holds table cells → k = 0%nat ∨ (a + k ≤ Z.to_nat SIZE)%nat →
  (write_values table address (Z.of_nat k) values).1 = refused (a + k) (length values) ∧
  holds (write_values table address (Z.of_nat k) values).2 (list_inserts (a + k) values cells).
Proof.
  intros a Ha. revert table cells k. induction values as [|v values IH]; intros table cells k Hh Hk.
  { done. }
  pose proof (cell_at table cells address k Ha Hh) as Hc. pose proof (proj1 Hh) as Hl.
  cbn [write_values length]. fold a in Hc.
  unfold u16_try_from at 1 3, try_from_max. rewrite (proj2 (Z.leb_le _ _)) by (unfold SIZE, U16_MAX in *; lia).
  assert (Z.to_nat SIZE ≤ a + k → refused (a + k) (S (length values)) = inr EC_IllegalDataAddress ∧
    list_inserts (a + k) (v :: values) cells = cells)%nat as Hout.
  { intros Hge. split; [|apply inserts_beyond; lia]. unfold refused, in_range. cbn [Nat.eqb orb].
    destruct (Nat.leb_spec (a + k + S (length values)) (Z.to_nat SIZE)); [lia|done]. }
  destruct (u16_try_from _) as [at_|].
  - destruct Hc as [-> ->]. destruct (cells !! (a + k)%nat) as [c|] eqn:E.
    + apply lookup_lt_Some in E. rewrite Hl in E.
      destruct (IH (<[Z.of_nat (a + k) := v]> table) (<[(a + k)%nat := v]> cells) (S k))
        as [H1 H2]; [by apply holds_insert|right; lia|].
      replace (Z.of_nat k + 1) with (Z.of_nat (S k)) by lia. split.
      * rewrite H1. unfold refused, in_range. rewrite Nat.add_succ_r. cbn [Nat.eqb orb].
        destruct (Nat.leb_spec (a + k + S (length values)) (Z.to_nat SIZE)),
          (Nat.leb_spec (S (a + k) + length values) (Z.to_nat SIZE)); try lia;
          destruct (Nat.eqb_spec (length values) 0); cbn [orb]; try done; lia.
      * cbn [list_inserts]. rewrite list_insert_inserts_lt by lia. by rewrite <- Nat.add_succ_r.
    + apply lookup_ge_None in E. destruct Hout as [-> ->]; [lia|]. by split.
  - destruct Hout as [-> ->]; [lia|]. by split.
Qed.
End arrays.

(** The specification of a request: what it answers, and what it leaves in the
    arrays.  A write past the end is refused, and leaves what did fit. *)
Definition memory_on_request (request : RequestPdu) (m : Memory)
    : (option ResponsePdu + ExceptionCode) * Memory :=
  match request with
  | Req_ReadCoils address quantity =>
      (answered_by (array_read (m_coils m) (Z.to_nat (address_0 address))
         (Z.to_nat (quantity_0 quantity))) Resp_ReadCoils, m)
  | Req_ReadDiscreteInputs address quantity =>
      (answered_by (array_read (m_discrete m) (Z.to_nat (address_0 address))
         (Z.to_nat (quantity_0 quantity))) Resp_ReadDiscreteInputs, m)
  | Req_ReadHoldingRegisters address quantity =>
      (answered_by (array_read (m_holding m) (Z.to_nat (address_0 address))
         (Z.to_nat (quantity_0 quantity)))
         (λ vs, Resp_ReadHoldingRegisters (mkRegisterValue <$> vs)), m)
  | Req_ReadInputRegisters address quantity =>
      (answered_by (array_read (m_input m) (Z.to_nat (address_0 address))
         (Z.to_nat (quantity_0 quantity)))
         (λ vs, Resp_ReadInputRegisters (mkRegisterValue <$> vs)), m)
  | Req_WriteSingleCoil address value =>
      (answered_by (refused (Z.to_nat (address_0 address)) 1)
         (λ _, Resp_WriteSingleCoil address value),
       mkMemory (list_inserts (Z.to_nat (address_0 address)) [value] (m_coils m))
         (m_discrete m) (m_holding m) (m_input m))
  | Req_WriteSingleRegister address value =>
      (answered_by (refused (Z.to_nat (address_0 address)) 1)
         (λ _, Resp_WriteSingleRegister address value),
       mkMemory (m_coils m) (m_discrete m)
         (list_inserts (Z.to_nat (address_0 address)) [register_value_0 value] (m_holding m))
         (m_input m))
  | Req_WriteMultipleCoils address values =>
      (answered_by (refused (Z.to_nat (address_0 address)) (length values))
         (λ _, Resp_WriteMultipleCoils address (mkQuantity (len values))),
       mkMemory (list_inserts (Z.to_nat (address_0 address)) values (m_coils m))
         (m_discrete m) (m_holding m) (m_input m))
  | Req_WriteMultipleRegisters address registers =>
      (answered_by (refused (Z.to_nat (address_0 address)) (length registers))
         (λ _, Resp_WriteMultipleRegisters address (mkQuantity (len registers))),
       mkMemory (m_coils m) (m_discrete m)
         (list_inserts (Z.to_nat (address_0 address)) (register_value_0 <$> registers) (m_holding m))
         (m_input m))
  | _ => (inr EC_IllegalFunction, m)
  end.

(** The arrays of a new device. *)
Definition Memory_default : Memory :=
  mkMemory (replicate 16 false) ((λ i, i mod 2 =? 0) <$> zrange 16) (zrange 16)
    ((λ i, 100 + i) <$> zrange 16).

Definition represents (d : Device) (m : Memory) : Prop :=
  holds (coils d) (m_coils m) ∧ holds (discrete d) (m_discrete m) ∧
  holds (holding d) (m_holding m) ∧ holds (input d) (m_input m).

(** Requests one after another: what each is answered, and the state they leave. *)
Fixpoint device_run (conn : Connection) (u : UnitId) (requests : list RequestPdu) (d : Device)
    : list (option ResponsePdu + ExceptionCode) * Device :=
  match requests with
  | [] => ([], d)
  | r :: requests' =>
      let '(a, d') := device_on_request conn u r d in
      let '(answers, d'') := device_run conn u requests' d' in (a :: answers, d'')
  end.

Fixpoint memory_run (requests : list RequestPdu) (m : Memory)
    : list (option ResponsePdu + ExceptionCode) * Memory :=
  match requests with
  | [] => ([], m)
  | r :: requests' =>
      let '(a, m') := memory_on_request r m in
      let '(answers, m'') := memory_run requests' m' in (a :: answers, m'')
  end.

(** ** Refinement *)

Lemma device_read_array {T} (table : gmap Z T) cells address quantity :
  wf address → holds table cells →
  device_read table address quantity =
    array_read cells (Z.to_nat (address_0 address)) (Z.to_nat (quantity_0 quantity)).
Proof.
  intros Ha Hh. unfold device_read, zrange. rewrite (read_offsets_array table cells) by done.
  by rewrite Nat.add_0_r.
Qed.

Lemma device_write_array {T} (table : gmap Z T) cells address values :
  wf address → holds table cells →
  ∃ table', device_write table address values =
    (refused (Z.to_nat (address_0 address)) (length values), table') ∧
    holds table' (list_inserts (Z.to_nat (address_0 address)) values cells).
Proof.
  intros Ha Hh. destruct (write_values_array table cells address 0 values Ha Hh) as [H1 H2];
    [by left|]. rewrite Nat.add_0_r in *.
  exists (write_values table address (Z.of_nat 0) values).2. split; [|done].
  unfold device_write. change 0 with (Z.of_nat 0). rewrite <- H1. by destruct (write_values _ _ _ _).
Qed.

Lemma answered_quantity a n (k : Quantity → ResponsePdu) :
  answered_by (refused a n) (λ _, k (saturated_quantity (Z.of_nat n))) =
  answered_by (refused a n) (λ _, k (mkQuantity (Z.of_nat n))).
Proof.
  unfold refused, in_range. destruct (_ || _) eqn:E; [|done]. cbn. do 3 f_equal.
  unfold saturated_quantity, u16_try_from, try_from_max.
  rewrite (proj2 (Z.leb_le _ _)); [done|]. apply orb_true_iff in E as [E|E].
  - apply Nat.eqb_eq in E. unfold U16_MAX. lia.
  - apply Nat.leb_le in E. unfold U16_MAX, SIZE in *. lia.
Qed.

Lemma device_step conn u request d m :
  wf request → represents d m →
  (device_on_request conn u request d).1 = (memory_on_request request m).1 ∧
  represents (device_on_request conn u request d).2 (memory_on_request request m).2.
Proof.
  intros Hr (H1 & H2 & H3 & H4).
  destruct request; cbn [device_on_request memory_on_request fst snd];
    try (by split_and!); cbn [wf Wf_RequestPdu] in Hr.
  - destruct Hr as [Ha _]. by rewrite (device_read_array _ (m_coils m)).
  - destruct Hr as [Ha _]. by rewrite (device_read_array _ (m_discrete m)).
  - destruct Hr as [Ha _]. by rewrite (device_read_array _ (m_holding m)).
  - destruct Hr as [Ha _]. by rewrite (device_read_array _ (m_input m)).
  - destruct (device_write_array (coils d) (m_coils m) address [value]) as (t & -> & Ht); [done..|].
    by split_and!.
  - destruct Hr as [Ha _].
    destruct (device_write_array (holding d) (m_holding m) address [register_value_0 value])
      as (t & -> & Ht); [done..|]. by split_and!.
  - rename select (list bool) into values.
    destruct (device_write_array (coils d) (m_coils m) address values) as (t & -> & Ht); [done..|].
    unfold len. rewrite (answered_quantity _ _ (Resp_WriteMultipleCoils address)). by split_and!.
  - destruct Hr as [Ha _].
    destruct (device_write_array (holding d) (m_holding m) address (register_value_0 <$> registers))
      as (t & -> & Ht); [done..|].
    unfold len. rewrite length_fmap, (answered_quantity _ _ (Resp_WriteMultipleRegisters address)).
    by split_and!.
Qed.

Lemma default_represents : represents Device_default Memory_default.
Proof.
  assert (∀ {T} (f : Z → T), holds (filled f) (f <$> zrange 16)) as H.
  { intros T f. split; [by rewrite length_fmap|]. intros at_. case_bool_decide as Hp.
    - destruct (decide (at_ < 16)) as [Hl|Hl].
      + assert (∃ n : nat, (n < 16)%nat ∧ at_ = Z.of_nat n) as (n & Hn & ->)
          by (exists (Z.to_nat at_); lia).
        rewrite Nat2Z.id. do 16 (destruct n as [|n]; [done|]). lia.
      + rewrite lookup_ge_None_2 by (rewrite length_fmap; change (length (zrange 16)) with 16%nat; lia).
        apply not_elem_of_list_to_map_1. rewrite <- list_fmap_compose.
        intros (x & -> & Hx)%list_elem_of_fmap. apply list_elem_of_fmap in Hx as (n & -> & Hn).
        apply elem_of_seq in Hn. cbn in Hl. unfold SIZE in Hn. lia.
    - apply not_elem_of_list_to_map_1. rewrite <- list_fmap_compose.
      intros (x & -> & Hx)%list_elem_of_fmap. apply list_elem_of_fmap in Hx as (n & -> & Hn).
      cbn in Hp. lia. }
  split_and!; apply H.
Qed.

Lemma device_run_array conn u requests d m :
  Forall wf requests → represents d m →
  (device_run conn u requests d).1 = (memory_run requests m).1 ∧
  represents (device_run conn u requests d).2 (memory_run requests m).2.
Proof.
  intros Hr. revert d m. induction Hr as [|r requests Hr Hrs IH]; intros d m Hd; [done|].
  cbn [device_run memory_run]. destruct (device_step conn u r d m) as [H1 H2]; [done..|].
  destruct (device_on_request conn u r d) as [a d'], (memory_on_request r m) as [am m']. cbn in H1, H2.
  destruct (IH d' m' H2) as [H3 H4].
  destruct (device_run conn u requests d'), (memory_run requests m'). cbn in *. by subst.
Qed.

(** The device is its specification: starting from the tables of
    [Device::default] and serving any well-formed requests in any order, the hash
    maps behind the service answer each of them as four arrays of sixteen cells
    would, exceptions included, and stand for those arrays after it.  A write
    that runs past the end is refused after the values that fit were stored. *)
Lemma device_refines_memory conn u requests :
  Forall wf requests →
  (device_run conn u requests Device_default).1 = (memory_run requests Memory_default).1 ∧
  represents (device_run conn u requests Device_default).2
    (memory_run requests Memory_default).2.
Proof. intros Hr. apply device_run_array; [done|apply default_represents]. Qed.

(** ** Written registers read back *)

(** Whether a request writes holding register [i]. *)
Definition writes_register (r : RequestPdu) (i : nat) : Prop :=
  match r with
  | Req_WriteSingleRegister address _ => i = Z.to_nat (address_0 address)
  | Req_WriteMultipleRegisters address registers =>
      let a := Z.to_nat (address_0 address) in (a ≤ i < a + length registers)%nat
  | _ => False
  end.

Lemma inserts_elsewhere {T} (cells values : list T) a i :
  ¬ (a ≤ i < a + length values)%nat → list_inserts a values cells !! i = cells !! i.
Proof.
  intros Hi. destruct (decide (i < a)%nat).
  - by apply list_lookup_inserts_lt.
  - apply list_lookup_inserts_ge. lia.
Qed.

Lemma memory_frame r m i :
  ¬ writes_register r i → m_holding (memory_on_request r m).2 !! i = m_holding m !! i.
Proof.
  intros Hi. destruct r; try done; cbn [memory_on_request snd m_holding]; cbn in Hi.
  - apply inserts_elsewhere. cbn. lia.
  - apply inserts_elsewhere. rewrite length_fmap. lia.
Qed.

Lemma memory_run_frame requests m i :
  Forall (λ r, ¬ writes_register r i) requests →
  m_holding (memory_run requests m).2 !! i = m_holding m !! i.
Proof.
  intros Hr. revert m. induction Hr as [|r requests Hr Hrs IH]; intros m; [done|].
  cbn [memory_run]. pose proof (memory_frame r m i Hr) as H1.
  destruct (memory_on_request r m) as [a m']. specialize (IH m').
  destruct (memory_run requests m'). cbn in *. congruence.
Qed.

Lemma memory_run_app before later m :
  memory_run (before ++ later) m =
  ((memory_run before m).1 ++ (memory_run later (memory_run before m).2).1,
   (memory_run later (memory_run before m).2).2).
Proof.
  revert m. induction before as [|r before IH]; intros m; cbn [memory_run app fst snd].
  - by destruct (memory_run later m).
  - destruct (memory_on_request r m) as [a m']. rewrite IH. by destruct (memory_run before m').
Qed.

(** Every request keeps the sixteen cells. *)
Lemma memory_length requests m :
  length (m_holding (memory_run requests m).2) = length (m_holding m).
Proof.
  revert m. induction requests as [|r requests IH]; intros m; [done|]. cbn [memory_run].
  assert (length (m_holding (memory_on_request r m).2) = length (m_holding m)) as H1.
  { destruct r; try done; cbn [memory_on_request snd m_holding]; by rewrite length_inserts. }
  destruct (memory_on_request r m) as [a m']. specialize (IH m').
  destruct (memory_run requests m'). cbn in *. congruence.
Qed.

Lemma inserts_take {T} (cells values : list T) a :
  (a + length values ≤ length cells)%nat →
  take (length values) (drop a (list_inserts a values cells)) = values.
Proof.
  intros Hl. apply list_eq. intros i. destruct (decide (i < length values)%nat) as [Hi|Hi].
  - rewrite lookup_take_lt, lookup_drop by done. rewrite list_lookup_inserts by lia.
    by replace (a + i - a)%nat with i by lia.
  - rewrite lookup_take_ge by lia. symmetry. apply lookup_ge_None. lia.
Qed.

(** Registers written to the device read back: after any requests, a write
    of a range that lies within the table, and any further requests that write
    none of its cells, a read of the range is answered with the values written. *)
Theorem device_reads_back conn u before address registers later quantity :
  let write_it := Req_WriteMultipleRegisters address registers in
  let read_it := Req_ReadHoldingRegisters address quantity in
  Forall wf (before ++ write_it :: later ++ [read_it]) →
  address_0 address + len registers ≤ SIZE → quantity_0 quantity = len registers →
  (∀ i, writes_register write_it i → Forall (λ r, ¬ writes_register r i) later) →
  last (device_run conn u (before ++ write_it :: later ++ [read_it]) Device_default).1 =
    Some (inl (Some (Resp_ReadHoldingRegisters registers))).
Proof.
  intros write_it read_it Hwf Hfit Hq Hkeep.
  destruct (device_run_array conn u _ _ _ Hwf default_represents) as [-> _].
  assert (0 ≤ address_0 address) as Ha.
  { apply Forall_app in Hwf as [_ Hwf]. apply Forall_cons in Hwf as [[Hwa _] _]. by destruct Hwa. }
  change (before ++ write_it :: later ++ [read_it]) with (before ++ ([write_it] ++ later ++ [read_it])).
  rewrite 3!memory_run_app. cbn [fst snd].
  set (m0 := (memory_run before Memory_default).2). set (m1 := (memory_run [write_it] m0).2).
  set (m2 := (memory_run later m1).2). rewrite !last_app. cbn [memory_run memory_on_request read_it].
  cbn [fst last]. unfold array_read.
  assert (length (m_holding m0) = Z.to_nat SIZE) as Hl by (unfold m0; by rewrite memory_length).
  set (a := Z.to_nat (address_0 address)) in *. rewrite Hq. unfold len in *. rewrite Nat2Z.id.
  assert (in_range a (length registers) = true) as ->.
  { unfold in_range. apply orb_true_iff. right. apply Nat.leb_le. subst a. unfold SIZE in *. lia. }
  cbn [answered_by]. do 4 f_equal.
  assert (take (length registers) (drop a (m_holding m2)) = register_value_0 <$> registers) as ->.
  { transitivity (take (length registers) (drop a (m_holding m1))).
    - apply list_eq. intros i. destruct (decide (i < length registers)%nat) as [Hi|Hi].
      + rewrite !lookup_take_lt, !lookup_drop by done. apply memory_run_frame.
        apply Hkeep. cbn. fold a. lia.
      + by rewrite !lookup_take_ge by lia.
    - rewrite <- (length_fmap register_value_0 registers). apply inserts_take.
      rewrite length_fmap, Hl. subst a. unfold SIZE in *. lia. }
  rewrite <- list_fmap_compose. rewrite <- (list_fmap_id registers) at 2.
  apply list_fmap_ext. by intros i [v] _.
Qed.

(** ** The device keeps the server's promises *)

(** Sixteen cells in every table, and registers that are words. *)
Definition device_ok (d : Device) : Prop :=
  ∃ m, represents d m ∧ Forall is_u16 (m_holding m) ∧ Forall is_u16 (m_input m).

Lemma Forall_inserts {T} (P : T → Prop) a values cells :
  Forall P values → Forall P cells → Forall P (list_inserts a values cells).
Proof.
  intros Hv Hc. revert a. induction Hv as [|v values Hv Hvs IH]; intros a; [done|]. cbn.
  by apply Forall_insert.
Qed.

Lemma registers_wf (vs : list Z) : Forall is_u16 vs → wf (mkRegisterValue <$> vs).
Proof. intros H. apply Forall_fmap. eapply Forall_impl; [exact H|]. done. Qed.

(** An array read answers with cells of the array. *)
Lemma array_read_cells {T} (cells : list T) a n vs :
  array_read cells a n = inl vs → vs = take n (drop a cells).
Proof. unfold array_read. destruct (in_range a n); [|done]. by intros [= <-]. Qed.

Lemma array_read_error {T} (cells : list T) a n e :
  array_read cells a n = inr e → e = EC_IllegalDataAddress.
Proof. unfold array_read. destruct (in_range a n); [done|]. by intros [= <-]. Qed.

Lemma small_quantity a n : in_range a n = true → wf (mkQuantity (Z.of_nat n)).
Proof.
  intros [E%Nat.eqb_eq|E%Nat.leb_le]%orb_true_iff; unfold wf, Wf_Quantity, is_u16, SIZE, U16_MAX in *;
    cbn; lia.
Qed.

Lemma memory_answer_typed r m :
  wf r → Forall is_u16 (m_holding m) → Forall is_u16 (m_input m) → wf (memory_on_request r m).1.
Proof.
  intros Hr Hh Hi. destruct r; try done; cbn [memory_on_request fst]; cbn [wf Wf_RequestPdu] in Hr.
  - destruct (array_read _ _ _) as [vs|e] eqn:E; [done|by apply array_read_error in E as ->].
  - destruct (array_read _ _ _) as [vs|e] eqn:E; [done|by apply array_read_error in E as ->].
  - destruct (array_read _ _ _) as [vs|e] eqn:E; [|by apply array_read_error in E as ->].
    apply array_read_cells in E as ->. apply registers_wf. by apply Forall_take, Forall_drop.
  - destruct (array_read _ _ _) as [vs|e] eqn:E; [|by apply array_read_error in E as ->].
    apply array_read_cells in E as ->. apply registers_wf. by apply Forall_take, Forall_drop.
  - unfold refused. by destruct (in_range _ _).
  - unfold refused. by destruct (in_range _ _).
  - unfold refused. destruct (in_range _ _) eqn:E; [|done]. split; [done|]. by eapply small_quantity.
  - destruct Hr as [Ha _].
    unfold refused. destruct (in_range _ _) eqn:E; [|done]. split; [done|]. by eapply small_quantity.
Qed.

Lemma memory_keeps_words r m :
  wf r → Forall is_u16 (m_holding m) → Forall is_u16 (m_input m) →
  Forall is_u16 (m_holding (memory_on_request r m).2) ∧
  Forall is_u16 (m_input (memory_on_request r m).2).
Proof.
  intros Hr Hh Hi. destruct r; try done; cbn [memory_on_request snd m_holding m_input];
    destruct Hr as [_ Hv]; (split; [|done]); apply Forall_inserts; try done.
  - by constructor.
  - apply Forall_fmap. eapply Forall_impl; [exact Hv|]. done.
Qed.

Lemma device_typed errno target : TypedService (Device_service errno target) device_ok.
Proof.
  split; [|done]. intros conn u r d Hr (m & Hd & Hh & Hi).
  destruct (device_step conn u r d m Hr Hd) as [H1 H2]. cbn [on_request Device_service]. split.
  - change (wf (device_on_request conn u r d).1). rewrite H1. by apply memory_answer_typed.
  - exists (memory_on_request r m).2. split; [done|]. by apply memory_keeps_words.
Qed.

Lemma default_ok : device_ok Device_default.
Proof.
  exists Memory_default. split; [apply default_represents|].
  split; apply (bool_decide_unpack _); vm_compute; exact I.
Qed.

(** ** Witnesses *)

Definition console : Connection := Connection_new (mkConnectionId 1) None.

Definition word (n : Z) : RegisterValue := mkRegisterValue n.

Lemma device_refines_memory_witness :
  (device_run console (mkUnitId 1)
     [Req_WriteMultipleRegisters (mkAddress 14) [word 7; word 8; word 9];
      Req_ReadHoldingRegisters (mkAddress 14) (mkQuantity 2)] Device_default).1 =
  [inr EC_IllegalDataAddress; inl (Some (Resp_ReadHoldingRegisters [word 7; word 8]))].
Proof.
  destruct (device_refines_memory console (mkUnitId 1)
     [Req_WriteMultipleRegisters (mkAddress 14) [word 7; word 8; word 9];
      Req_ReadHoldingRegisters (mkAddress 14) (mkQuantity 2)]) as [-> _];
    [by_eval|vm_compute; reflexivity].
Defined.

Lemma device_reads_back_witness :
  last (device_run console (mkUnitId 1)
    ([Req_WriteSingleRegister (mkAddress 3) (word 1)] ++
     Req_WriteMultipleRegisters (mkAddress 3) [word 5; word 6] ::
     [Req_WriteSingleRegister (mkAddress 5) (word 2)] ++
     [Req_ReadHoldingRegisters (mkAddress 3) (mkQuantity 2)]) Device_default).1 =
    Some (inl (Some (Resp_ReadHoldingRegisters [word 5; word 6]))).
Proof.
  apply (device_reads_back console (mkUnitId 1) [Req_WriteSingleRegister (mkAddress 3) (word 1)]
    (mkAddress 3) [word 5; word 6] [Req_WriteSingleRegister (mkAddress 5) (word 2)] (mkQuantity 2));
    [by_eval|done|done|]. intros i Hi. constructor; [|done]. cbn in *. lia.
Defined.
