(* ===== verification/OverTheWire.v ===== *)
(** * Client and server over the wire

    The client of [ClientOver.v] and the serving loop of [Link.v], each over a
    [FrameTransport] of its own whose arrivals are the bytes the other one put on
    the wire, cut into reads in any way. *)

From S2P Require Import Prelude.
From S2P Require Import Errors.
From S2P Require Import Parse.
From S2P Require Import Value.
From S2P Require Import Function.
From S2P Require Import Exception.
From S2P Require Import Wire.
From S2P Require Import Pdu.
From S2P Require Import PduSpec.
From S2P Require Import PduRoundtrip.
From S2P Require Import Framing.
From S2P Require Import Rtu.
From S2P Require Import RtuStream.
From S2P Require Import Tcp.
From S2P Require Import Ascii.
From S2P Require Import Serial.
From S2P Require Import Transport.
From S2P Require Import TransportSpec.
From S2P Require Import TransportSafety.
From S2P Require Import TransportTheorems.
From S2P Require Import Outgoing.
From S2P Require Import Framed.
From S2P Require Import FramedTheorems.
From S2P Require Import Client.
From S2P Require Import ClientOver.
From S2P Require Import Server.
From S2P Require Import ServerTheorems.
From S2P Require Import Link.

(** A transport just made over a stream: what will arrive, and the outcomes of its
    writes. *)
Definition connected {F : Framing} (chunks : list Event) (outcomes : list (WriteAll * Flush))
    : FrameTransport F :=
  FrameTransport_new (mkStream (mkReadHalf chunks) (mkWriteHalf outcomes [])).

Lemma connected_delivers {F : Framing} chunks later :
  Forall (delivers (waits (boundary F))) chunks → ft_delivers (connected (F := F) chunks later).
Proof. by split. Qed.

Section requests.
Context {w : Winnow} {ws : WinnowSpec w} {F : Framing} {L : LawfulFraming F}.

Lemma ft_recv_request_exact m adu (t : FrameTransport F) rest_ :
  request_framed F m adu → ft_delivers t → ft_pending t = adu ++ rest_ →
  ∃ t', ft_recv_request t = Finished (Ok m) t' ∧ ft_delivers t' ∧ ft_pending t' = rest_ ∧
    write_half (ft_stream t') = write_half (ft_stream t).
Proof.
  intros Hm [Hr Hd] Hp. unfold ft_recv_request.
  destruct (recv_request_exact F m adu (mkRecvState (ft_buffer t) (ft_receiving t))
    (arrivals (read_half (ft_stream t))) [] rest_) as (st & tr & -> & H1 & H2 & H3);
    [done..|apply skips_nil|done|]. cbn. eexists. by split_and!.
Qed.

Lemma ft_send_response_all h r adu later wire_ (t : FrameTransport F) :
  wf h → wf r → encode_response F h r = Ok adu →
  write_half (ft_stream t) = mkWriteHalf ((WroteAll, Flushed) :: later) wire_ →
  ∃ t', ft_send_response h r t = Finished (Ok tt) t' ∧
    ft_pending t' = ft_pending t ∧ (ft_delivers t → ft_delivers t') ∧
    write_half (ft_stream t') = mkWriteHalf later (wire_ ++ adu).
Proof.
  intros Hh Hr He Hw. unfold ft_send_response, send_over. rewrite Hw.
  rewrite (encode_response_into_cleared F), He by done. cbn. by eexists.
Qed.
End requests.

(** A quiet stream with nothing pending keeps a receive waiting. *)
Lemma fill_loop_waits n tr :
  1 ≤ n → Forall (delivers true) tr → stream tr = [] → fill_loop n tr [] = Pending [].
Proof.
  intros Hn Hd. induction Hd as [|ev tr He Hd IH]; intros Hs; cbn [fill_loop];
    (rewrite len_nil; destruct (Z.leb_spec n 0); [lia|]); [done|].
  rewrite stream_cons in Hs. apply app_eq_nil in Hs as [H1 H2].
  destruct ev as [[bs|k o]|]; [|done|by apply IH]. destruct He as [Hne _]. by cbn in H1.
Qed.

(** ** Framings a session can run over *)

(** What the rule of a framing delimits on a byte stream, other than by silence,
    and that a receive with nothing to read waits. *)
Class SelfDelimiting {w : Winnow} (F : Framing) := {
  delimits_request : RequestPdu → bool;
  delimits_response : ResponsePdu → bool;
  request_located m adu : encodable_request F m adu → delimits_request (snd m) = true →
    Locates (boundary F) DirRequest adu;
  response_located m adu : encodable_response F m adu → delimits_response (snd m) = true →
    Locates (boundary F) DirResponse adu;
  not_by_silence : boundary F ≠ Silence;
  adu_waits dir tr : Forall (delivers (waits (boundary F))) tr → stream tr = [] →
    read_adu F dir tr [] = Pending [];
}.

(** A receive with nothing to read. *)
Lemma receive_waits {w : Winnow} {F : Framing} {SD : SelfDelimiting F} (t : FrameTransport F) :
  ft_delivers t → ft_pending t = [] →
  ∃ t', ft_recv_request t = Unfinished t' ∧ write_half (ft_stream t') = write_half (ft_stream t).
Proof.
  intros [Hr Hd] Hp. unfold ft_pending in Hp. apply app_eq_nil in Hp as [Hb Hs].
  unfold ft_recv_request, recv_request, recv_adu. cbn [receiving buffer].
  rewrite Hr, Hb, adu_waits by done. by eexists.
Qed.

Section locating.
Context {w : Winnow} {ws : WinnowSpec w}.

Lemma tcp_adu_waits dir tr :
  Forall (delivers true) tr → stream tr = [] → read_adu Tcp_framing dir tr [] = Pending [].
Proof.
  intros Hd Hs. unfold read_adu. cbn [boundary Tcp_framing]. unfold read_prefixed, fill_to.
  rewrite (proj2 (Z.ltb_ge _ _)) by done. by rewrite fill_loop_waits.
Qed.

Lemma ascii_adu_waits dir tr :
  Forall (delivers false) tr → stream tr = [] → read_adu Ascii_framing dir tr [] = Pending [].
Proof.
  intros Hd Hs. destruct Hd as [|[[bs|k o]|] tr He Hd]; [done| |done..].
  rewrite stream_cons in Hs. apply app_eq_nil in Hs as [Hs _]. cbn in Hs. subst bs. by destruct He.
Qed.

Lemma Tcp_request_located (m : Header Tcp_framing * RequestPdu) adu :
  encodable_request Tcp_framing m adu → Locates (boundary Tcp_framing) DirRequest adu.
Proof.
  destruct m as [h r]. intros (Hh & Hr & _ & He).
  apply encode_request_inv in He as (pdu & -> & _ & Hpdu); [|done..]. by apply Tcp_locates.
Qed.

Lemma Tcp_response_located (m : Header Tcp_framing * ResponsePdu) adu :
  encodable_response Tcp_framing m adu → Locates (boundary Tcp_framing) DirResponse adu.
Proof.
  destruct m as [h r]. intros (Hh & Hr & _ & He).
  apply encode_response_inv in He as (pdu & -> & _ & Hpdu); [|done..]. by apply Tcp_locates.
Qed.

Lemma Ascii_request_located (m : Header Ascii_framing * RequestPdu) adu :
  encodable_request Ascii_framing m adu → Locates (boundary Ascii_framing) DirRequest adu.
Proof.
  destruct m as [h r]. intros (Hh & Hr & _ & He).
  apply encode_request_inv in He as (pdu & -> & _ & Hpdu); [|done..]. by apply Ascii_locates.
Qed.

Lemma Ascii_response_located (m : Header Ascii_framing * ResponsePdu) adu :
  encodable_response Ascii_framing m adu → Locates (boundary Ascii_framing) DirResponse adu.
Proof.
  destruct m as [h r]. intros (Hh & Hr & _ & He).
  apply encode_response_inv in He as (pdu & -> & _ & Hpdu); [|done..]. by apply Ascii_locates.
Qed.

Context {c : Crc16} {cs : Crc16Spec c}.

Lemma RtuOverTcp_request_located (m : Header RtuOverTcp_framing * RequestPdu) adu :
  encodable_request RtuOverTcp_framing m adu → determinate_request (snd m) = true →
  Locates (boundary RtuOverTcp_framing) DirRequest adu.
Proof.
  destruct m as [h r]. intros (Hh & Hr & _ & He) Hd.
  apply encode_request_inv in He as (pdu & -> & Hb & _); [|done..].
  by eapply RtuOverTcp_locates_request.
Qed.

Lemma RtuOverTcp_response_located (m : Header RtuOverTcp_framing * ResponsePdu) adu :
  encodable_response RtuOverTcp_framing m adu → determinate_response (snd m) = true →
  Locates (boundary RtuOverTcp_framing) DirResponse adu.
Proof.
  destruct m as [h r]. intros (Hh & Hr & _ & He) Hd.
  apply encode_response_inv in He as (pdu & -> & Hb & _); [|done..].
  by eapply RtuOverTcp_locates_response.
Qed.

Lemma rtu_over_tcp_adu_waits dir tr :
  Forall (delivers true) tr → stream tr = [] → read_adu RtuOverTcp_framing dir tr [] = Pending [].
Proof.
  intros Hd Hs. unfold read_adu. cbn [boundary RtuOverTcp_framing].
  unfold read_content_length, fill_to. rewrite (proj2 (Z.ltb_ge _ _)) by done.
  by rewrite fill_loop_waits.
Qed.

#[export] Instance Tcp_delimiting : SelfDelimiting Tcp_framing := {|
  delimits_request _ := true;
  delimits_response _ := true;
  request_located m adu H _ := Tcp_request_located m adu H;
  response_located m adu H _ := Tcp_response_located m adu H;
  not_by_silence := ltac:(discriminate);
  adu_waits := tcp_adu_waits;
|}.

#[export] Instance Ascii_delimiting : SelfDelimiting Ascii_framing := {|
  delimits_request _ := true;
  delimits_response _ := true;
  request_located m adu H _ := Ascii_request_located m adu H;
  response_located m adu H _ := Ascii_response_located m adu H;
  not_by_silence := ltac:(discriminate);
  adu_waits := ascii_adu_waits;
|}.

#[export] Instance RtuOverTcp_delimiting : SelfDelimiting RtuOverTcp_framing := {|
  delimits_request := determinate_request;
  delimits_response := determinate_response;
  request_located := RtuOverTcp_request_located;
  response_located := RtuOverTcp_response_located;
  not_by_silence := ltac:(discriminate);
  adu_waits := rtu_over_tcp_adu_waits;
|}.
End locating.

(** ** A session *)

(** One request of the client with what the service answers, and the frames that
    carry them. *)
Record Exchange := mkExchange {
  ex_unit : UnitId;
  ex_request : RequestPdu;
  ex_response : ResponsePdu;
  ex_out : list Z;
  ex_in : list Z;
}.

(** What [xs] is, from transaction [tid] and service state [s] on: each request is
    for one unit, which the server speaks for; the service makes its response of
    it (or the exception that becomes one); and both have a frame that the rule
    of the framing delimits. *)
Fixpoint agreed {w : Winnow} (F : Framing) {CF : ClientFraming F} {SD : SelfDelimiting F}
    (svc : Service) (config : ServerConfig) (conn : Connection)
    (tid : TransactionId) (xs : list Exchange) (s s' : SvcState svc) : Prop :=
  match xs with
  | [] => s' = s
  | x :: xs' =>
      let header := request_header (F := F) (ex_unit x) tid in
      let '(answer, s1) := on_request svc conn (ex_unit x) (ex_request x) s in
      is_broadcast (F := F) (ex_unit x) = false ∧ foreign config (ex_unit x) = false ∧
      encodable_request F (header, ex_request x) (ex_out x) ∧
      delimits_request (F := F) (ex_request x) = true ∧
      response_of (RequestPdu_function (ex_request x)) answer = Some (ex_response x) ∧
      encodable_response F (header, ex_response x) (ex_in x) ∧
      delimits_response (F := F) (ex_response x) = true ∧
      ResponsePdu_function (ex_response x) = RequestPdu_function (ex_request x) ∧
      agreed F svc config conn (next tid) xs' s1 s'
  end.

(** Calls one after another on a client. *)
Fixpoint call_each {F : Framing} {CF : ClientFraming F} {T : Type} {CT : ClientTransport F T}
    (fuel : nat) (calls : list (UnitId * RequestPdu)) (cl : ClientOver T)
    : option (list (Result (option ResponsePdu)) * ClientOver T) :=
  match calls with
  | [] => Some ([], cl)
  | (u, request) :: calls' =>
      match call_over fuel u request cl with
      | Some (Finished r cl') =>
          '(rs, cl'') ← call_each fuel calls' cl'; Some (r :: rs, cl'')
      | _ => None
      end
  end.

(** A transport whose next [n] writes go through. *)
Definition writes_through (n : nat) (later : list (WriteAll * Flush)) : list (WriteAll * Flush) :=
  replicate n (WroteAll, Flushed) ++ later.

Section sessions.
Context {w : Winnow} {ws : WinnowSpec w} {F : Framing} {L : LawfulFraming F}.
Context {CF : ClientFraming F} {SF : ServerFraming F} {DF : DuplexFraming F} {SD : SelfDelimiting F}.

(** A call whose answer comes next. *)
Lemma session_call u request resp c cfg adu adu' (t : FrameTransport F) later wire_ rest_ :
  let header := request_header u (next_transaction c) in
  is_desynchronized c = false → is_broadcast (F := F) u = false →
  request_framed F (header, request) adu → response_framed F (header, resp) adu' →
  ResponsePdu_function resp = RequestPdu_function request →
  write_half (ft_stream t) = mkWriteHalf ((WroteAll, Flushed) :: later) wire_ →
  ft_delivers t → ft_pending t = adu' ++ rest_ →
  ∃ t' c', state c' = Answered ∧ next_transaction c' = next (next_transaction c) ∧
    call_over 1 u request (mkClientOver t cfg c) =
      Some (Finished (Ok (Some resp)) (mkClientOver t' cfg c')) ∧
    write_half (ft_stream t') = mkWriteHalf later (wire_ ++ adu) ∧
    ft_delivers t' ∧ ft_pending t' = rest_.
Proof.
  intros header Hc Hb (Hh & Hr & Hca & He & Hloc) Ha Hf Hw Hd Hp. cbn [fst snd] in *.
  destruct (ft_send_request_all header request adu later wire_ t) as (t1 & E & H1 & H2 & H3); [done..|].
  assert (∃ pdu, RequestPdu_encode request = Ok pdu) as [pdu Epdu].
  { apply encode_request_inv in He as (pdu & _ & Hpdu & _); [|done..]. exists pdu.
    by rewrite RequestPdu_encode_bytes. }
  destruct (await_over_stale header (RequestPdu_function request)
    (mkClient (next (next_transaction c)) (state c)) header resp adu' [] [] t1 rest_ 1)
    as (t' & Ew & D & P & W); try done; [apply response_to_itself|auto|by rewrite H1|cbn; lia|].
  exists t', (set_state Answered (mkClient (next (next_transaction c)) (state c))).
  split_and!; [done|done| |congruence|done|done].
  unfold call_over. rewrite Hc, Epdu. cbn [ct_send_request FrameTransport_ClientTransport].
  fold header. by rewrite E, Hb, Ew.
Qed.

(** The client's side of a session. *)
Lemma session_client svc config conn xs s s' c cfg (t : FrameTransport F) later wire_ rest_ :
  agreed F svc config conn (next_transaction c) xs s s' → is_desynchronized c = false →
  write_half (ft_stream t) = mkWriteHalf (writes_through (length xs) later) wire_ →
  ft_delivers t → ft_pending t = mjoin (ex_in <$> xs) ++ rest_ →
  ∃ t' c', call_each 1 ((λ x, (ex_unit x, ex_request x)) <$> xs) (mkClientOver t cfg c) =
      Some ((λ x, Ok (Some (ex_response x))) <$> xs, mkClientOver t' cfg c') ∧
    is_desynchronized c' = false ∧
    write_half (ft_stream t') = mkWriteHalf later (wire_ ++ mjoin (ex_out <$> xs)) ∧
    ft_pending t' = rest_.
Proof.
  revert s c t wire_. induction xs as [|x xs IH]; intros s c t wire_ Ha Hc Hw Hd Hp.
  { exists t, c. cbn in *. by rewrite app_nil_r. }
  cbn [agreed] in Ha. destruct (on_request svc conn _ _ s) as [a s1].
  destruct Ha as (Hb & Hf & Hreq & Hdr & Ho & Hresp & Hds & Hfun & Ha).
  pose proof (request_located _ _ Hreq Hdr). pose proof (response_located _ _ Hresp Hds).
  destruct Hreq as (Hh & Hr & Hca & He), Hresp as (_ & Hwr & Hca' & He').
  cbn [fmap list_fmap mjoin list_join] in Hp. rewrite <- app_assoc in Hp.
  destruct (session_call (ex_unit x) (ex_request x) (ex_response x) c cfg (ex_out x) (ex_in x)
    t (writes_through (length xs) later) wire_ (mjoin (ex_in <$> xs) ++ rest_))
    as (t1 & c1 & Hs1 & Hn1 & H1 & W1 & D1 & P1); try done.
  rewrite <- Hn1 in Ha.
  destruct (IH s1 c1 t1 (wire_ ++ ex_out x)) as (t' & c' & H2 & Hd2 & W2 & P2); try done.
  { unfold is_desynchronized. by rewrite Hs1. }
  exists t', c'. split_and!; [|done| |done].
  - cbn [fmap list_fmap call_each] in *. by rewrite H1, H2.
  - rewrite W2. cbn [fmap list_fmap mjoin list_join]. by rewrite app_assoc.
Qed.

(** The server's side of a session: it answers every request and waits. *)
Lemma session_server svc config conn xs s s' tid (t : FrameTransport F) later wire_ :
  agreed F svc config conn tid xs s s' →
  write_half (ft_stream t) = mkWriteHalf (writes_through (length xs) later) wire_ →
  ft_delivers t → ft_pending t = mjoin (ex_out <$> xs) →
  ∃ t', exchange_over F svc config conn (S (length xs)) [] s t = Some (Unfinished (s', t')) ∧
    write_half (ft_stream t') = mkWriteHalf later (wire_ ++ mjoin (ex_in <$> xs)).
Proof.
  revert s tid t wire_. induction xs as [|x xs IH]; intros s tid t wire_ Ha Hw Hd Hp.
  { cbn in Ha. subst s'. destruct (receive_waits t Hd Hp) as (t' & E & W). exists t'.
    cbn [exchange_over hd length]. rewrite E, W, Hw. cbn. by rewrite app_nil_r. }
  cbn [agreed] in Ha. set (header := request_header (ex_unit x) tid) in *.
  assert (unit_of header = ex_unit x) as Hunit by apply request_header_unit.
  destruct (on_request svc conn (ex_unit x) (ex_request x) s) as [a s1] eqn:Ho.
  destruct Ha as (Hb & Hf & Hreq & Hdr & Hresp & (_ & Hwr & _ & He') & _ & _ & Ha).
  rewrite same_broadcast in Hb. pose proof (request_located _ _ Hreq Hdr).
  destruct Hreq as (Hh & Hr & Hca & He). cbn [fst snd] in *.
  destruct (ft_recv_request_exact (header, ex_request x) (ex_out x) t (mjoin (ex_out <$> xs)))
    as (t1 & E1 & D1 & P1 & W1); [done..|].
  destruct (ft_send_response_all header (ex_response x) (ex_in x)
    (writes_through (length xs) later) wire_ t1) as (t2 & E2 & P2 & D2 & W2);
    [done..|by rewrite W1, Hw|].
  destruct (IH s1 (next tid) t2 (wire_ ++ ex_in x)) as (t' & E3 & W3); [done|done|auto|congruence|].
  exists t'. split.
  - cbn [length]. remember (S (length xs)) as fuel. cbn [exchange_over hd tl]. rewrite E1.
    unfold answer_over. by rewrite Hunit, Hb, Hf, Ho, Hresp, E2.
  - rewrite W3. cbn [fmap list_fmap mjoin list_join]. by rewrite app_assoc.
Qed.

(** C4. Client and server end to end and byte for byte, for a session of any
    number of calls on one connection, over TCP, over RTU on a byte stream and over
    ASCII.  Every request is for one unit that the server serves, not a broadcast;
    request and response are well formed and in canonical form (bits in whole
    bytes), encode, and have frames the framing delimits (on the RTU stream: a
    function code that fixes the length); and the service answers each with a
    response of the request's own function or an exception.  Then the client
    writes one frame per call and nothing else; however the network cuts those
    bytes, the server receives exactly those requests, dispatches each once and in
    order to the service, and writes one frame for each; and however those bytes
    are cut, call after call returns what the service made of it. *)
Theorem session_over_the_wire svc config conn c cfg xs s s' chunks chunks' later later' :
  let n := length xs in
  let client := connected (F := F) chunks' (writes_through n later) in
  let server := connected (F := F) chunks (writes_through n later') in
  is_desynchronized c = false → agreed F svc config conn (next_transaction c) xs s s' →
  Forall (delivers (waits (boundary F))) chunks → stream chunks = mjoin (ex_out <$> xs) →
  Forall (delivers (waits (boundary F))) chunks' → stream chunks' = mjoin (ex_in <$> xs) →
  (∃ t' c', call_each 1 ((λ x, (ex_unit x, ex_request x)) <$> xs) (mkClientOver client cfg c) =
      Some ((λ x, Ok (Some (ex_response x))) <$> xs, mkClientOver t' cfg c') ∧
      is_desynchronized c' = false ∧
      on_wire (write_half (ft_stream t')) = mjoin (ex_out <$> xs)) ∧
  ∃ t', exchange_over F svc config conn (S n) [] s server = Some (Unfinished (s', t')) ∧
    on_wire (write_half (ft_stream t')) = mjoin (ex_in <$> xs).
Proof.
  intros n client server Hc Ha Hd Hs Hd' Hs'. split.
  - destruct (session_client svc config conn xs s s' c cfg client later [] [])
      as (t' & c' & H1 & H2 & H3 & _); try done.
    { change (stream chunks' = mjoin (ex_in <$> xs) ++ []). by rewrite app_nil_r. }
    exists t', c'. by rewrite H3.
  - destruct (session_server svc config conn xs s s' (next_transaction c) server later' [])
      as (t' & H1 & H2); try done.
    exists t'. by rewrite H2.
Qed.
End sessions.

(** ** Witnesses *)

Section witnesses.
Local Existing Instance winnow_model.
Local Existing Instance winnow_model_spec.

(** Two calls: one the service answers, one it refuses. *)
Definition two_calls : list Exchange :=
  [mkExchange (mkUnitId 1) Req_ReportServerId (Resp_ReportServerId [42])
     [0; 1; 0; 0; 0; 2; 1; 17] [0; 1; 0; 0; 0; 4; 1; 17; 1; 42];
   mkExchange (mkUnitId 2) Req_ReadExceptionStatus
     (Resp_Exception (mkExceptionResponse FC_ReadExceptionStatus EC_IllegalFunction))
     [0; 2; 0; 0; 0; 2; 2; 7] [0; 2; 0; 0; 0; 3; 2; 0x87; 1]].

(** Requests cut across their boundary with a pause, responses byte by byte. *)
Definition in_pieces : list Event :=
  [Ready (Bytes [0; 1; 0; 0]); Quiet; Ready (Bytes [0; 2; 1; 17; 0; 2; 0]);
   Ready (Bytes [0; 0; 2; 2; 7])].
Definition byte_by_byte : list Event :=
  (λ b, Ready (Bytes [b])) <$>
    [0; 1; 0; 0; 0; 4; 1; 17; 1; 42; 0; 2; 0; 0; 0; 3; 2; 0x87; 1].

Lemma session_over_the_wire_witness :
  let client := connected (F := Tcp_framing) byte_by_byte (writes_through 2 []) in
  let server := connected (F := Tcp_framing) in_pieces (writes_through 2 []) in
  (∃ t' c', call_each 1 [(mkUnitId 1, Req_ReportServerId); (mkUnitId 2, Req_ReadExceptionStatus)]
      (mkClientOver client ClientConfig_default Client_new) =
      Some ([Ok (Some (Resp_ReportServerId [42]));
             Ok (Some (Resp_Exception (mkExceptionResponse FC_ReadExceptionStatus EC_IllegalFunction)))],
            mkClientOver t' ClientConfig_default c') ∧
      is_desynchronized c' = false ∧
      on_wire (write_half (ft_stream t')) = mjoin (ex_out <$> two_calls)) ∧
  ∃ t', exchange_over Tcp_framing counting any_unit ServerTheorems.link 3 [] 0%nat server =
      Some (Unfinished (2%nat, t')) ∧
    on_wire (write_half (ft_stream t')) = mjoin (ex_in <$> two_calls).
Proof.
  apply (session_over_the_wire (F := Tcp_framing) counting any_unit ServerTheorems.link Client_new
    ClientConfig_default two_calls 0%nat 2%nat in_pieces byte_by_byte [] []); [done| |by_eval..].
  split_and!; try done; unfold encodable_request, encodable_response; by_eval.
Defined.
End witnesses.
