(* ===== verification/Growing.v ===== *)
(** * Receives over a stream that grows

    The trace a receive runs over is what has arrived so far.  When more arrives
    a receive that had returned returns the same, and one that had not sees the
    rest; when the stream breaks instead, a receive that waits fails. *)

From S2P Require Import Prelude.
From S2P Require Import Errors.
From S2P Require Import Parse.
From S2P Require Import Value.
From S2P Require Import Pdu.
From S2P Require Import PduSpec.
From S2P Require Import PduRoundtrip.
From S2P Require Import Framing.
From S2P Require Import Transport.
From S2P Require Import TransportSpec.
From S2P Require Import Outgoing.
From S2P Require Import Framed.
From S2P Require Import ClientOver.

(** What a receive returns, with the trace it leaves, is kept when the trace is
    extended. *)
Definition grown {A} (ext : list Event) (before after : Recv A) : Prop :=
  ∀ r buf tr, before = Done r buf tr → after = Done r buf (tr ++ ext).

(** The reads that end a stream: its end, or a failure. *)
Definition breaks (r : ReadResult) : Prop :=
  match r with Bytes (_ :: _) => False | _ => True end.

(** A wait that the break of the stream ends. *)
Definition breaks_off {A B} (before : Recv A) (after : Recv B) : Prop :=
  ∀ buf, before = Pending buf → ∃ e buf', after = Done (Err e) buf' [] ∧ ends_stream e = true.

Lemma read_more_breaks mid r buf :
  breaks r → ∃ e, read_more mid r buf = (Err e, buf) ∧ ends_stream e = true.
Proof. destruct r as [[|b bs]|k o]; [|done|]; intros _; eexists; split; try done; by destruct mid. Qed.

Section growing.
Context (F : Framing).

Lemma finish_take_grows buf n tr ext : grown ext (finish_take buf n tr) (finish_take buf n (tr ++ ext)).
Proof. unfold grown, finish_take. destruct (take_adu buf n). by intros ??? [= <- <- <-]. Qed.

Lemma finish_take_done {B} buf n tr (x : Recv B) : breaks_off (finish_take buf n tr) x.
Proof. intros b. unfold finish_take. by destruct (take_adu buf n). Qed.

Lemma fill_loop_grows n tr ext buf : grown ext (fill_loop n tr buf) (fill_loop n (tr ++ ext) buf).
Proof.
  revert buf. induction tr as [|[rd|] tr IH]; intros buf r b tr'; cbn [fill_loop app].
  - destruct (n <=? len buf) eqn:E; [|done]. intros [= <- <- <-].
    destruct ext; cbn [fill_loop]; by rewrite E.
  - destruct (n <=? len buf); [by intros [= <- <- <-]|].
    destruct (read_more _ rd buf) as [[[]|e|] b']; [apply IH|by intros [= <- <- <-]..].
  - destruct (n <=? len buf); [by intros [= <- <- <-]|apply IH].
Qed.

Lemma fill_loop_breaks n tr rd buf :
  breaks rd → breaks_off (fill_loop n tr buf) (fill_loop n (tr ++ [Ready rd]) buf).
Proof.
  intros Hb. revert buf. induction tr as [|[r|] tr IH]; intros buf b; cbn [fill_loop app].
  - destruct (n <=? len buf); [done|]. intros _.
    destruct (read_more_breaks (negb (is_empty buf)) rd buf Hb) as (e & -> & He). eauto.
  - destruct (n <=? len buf); [done|].
    destruct (read_more _ r buf) as [[[]|e|] b']; [apply IH|done..].
  - destruct (n <=? len buf); [done|apply IH].
Qed.

Lemma fill_to_grows n tr ext buf : grown ext (fill_to F n tr buf) (fill_to F n (tr ++ ext) buf).
Proof. unfold fill_to. destruct (_ <? n); [by intros ??? [= <- <- <-]|apply fill_loop_grows]. Qed.

Lemma fill_to_breaks n tr rd buf :
  breaks rd → breaks_off (fill_to F n tr buf) (fill_to F n (tr ++ [Ready rd]) buf).
Proof. intros Hb. unfold fill_to. destruct (_ <? n); [done|by apply fill_loop_breaks]. Qed.

(** A fill, then what comes after it. *)
Definition then_read {A} (p : Recv unit) (k : list Z → list Event → Recv A) : Recv A :=
  match p with
  | Pending b => Pending b
  | Done (Err e) b t => Done (Err e) b t
  | Done Panic b t => Done Panic b t
  | Done (Ok _) b t => k b t
  end.

Lemma then_read_grows {A} n tr ext buf (k : list Z → list Event → Recv A) :
  (∀ b tr', grown ext (k b tr') (k b (tr' ++ ext))) →
  grown ext (then_read (fill_to F n tr buf) k) (then_read (fill_to F n (tr ++ ext) buf) k).
Proof.
  intros Hk r b t. pose proof (fill_to_grows n tr ext buf) as Hg.
  destruct (fill_to F n tr buf) as [[[]|e|] b1 t1|b1]; cbn [then_read]; [| | |done].
  - intros H. rewrite (Hg _ _ _ eq_refl). by apply Hk.
  - intros [= <- <- <-]. by rewrite (Hg _ _ _ eq_refl).
  - intros [= <- <- <-]. by rewrite (Hg _ _ _ eq_refl).
Qed.

Lemma then_read_breaks {A} n tr rd buf (k : list Z → list Event → Recv A) :
  breaks rd → (∀ b tr', breaks_off (k b tr') (k b (tr' ++ [Ready rd]))) →
  breaks_off (then_read (fill_to F n tr buf) k) (then_read (fill_to F n (tr ++ [Ready rd]) buf) k).
Proof.
  intros Hb Hk b. pose proof (fill_to_grows n tr [Ready rd] buf) as Hg.
  pose proof (fill_to_breaks n tr rd buf Hb) as Hd.
  destruct (fill_to F n tr buf) as [[[]|e|] b1 t1|b1]; cbn [then_read]; [|done..|].
  - intros H. rewrite (Hg _ _ _ eq_refl). by eapply Hk.
  - intros _. destruct (Hd b1 eq_refl) as (e & b2 & -> & He). cbn. eauto.
Qed.

(** ** The boundary rules *)

Lemma read_prefixed_then prefix total tr buf :
  read_prefixed F prefix total tr buf =
  then_read (fill_to F prefix tr buf) (λ b t,
    match (head ← expect (slice_get 0 prefix b); total head) with
    | Err e => Done (Err e) b t
    | Panic => Done Panic b t
    | Ok n => then_read (fill_to F n t b) (λ b t, finish_take b n t)
    end).
Proof. done. Qed.

Lemma read_content_length_then min extent dir tr buf :
  read_content_length F min extent dir tr buf =
  then_read (fill_to F min tr buf) (λ b t, content_loop F (extent dir) t b).
Proof. done. Qed.

Lemma content_loop_grows extent tr ext buf :
  grown ext (content_loop F extent tr buf) (content_loop F extent (tr ++ ext) buf).
Proof.
  revert buf. induction tr as [|[rd|] tr IH]; intros buf r b tr'.
  - destruct ext as [|ev ext]; cbn [content_loop app];
      (destruct (extent buf) as [[|n]|e|]; [|apply (finish_take_grows _ _ [])|by intros [= <- <- <-]..]);
      (destruct (check_buffer_bound F buf) as [[]|e|]; [done|by intros [= <- <- <-]..]).
  - cbn [content_loop app].
    destruct (extent buf) as [[|n]|e|]; [|apply (finish_take_grows _ _ (_ :: tr))|by intros [= <- <- <-]..].
    destruct (check_buffer_bound F buf) as [[]|e|]; [|by intros [= <- <- <-]..].
    destruct (read_more true rd buf) as [[[]|e|] b']; [apply IH|by intros [= <- <- <-]..].
  - cbn [content_loop app].
    destruct (extent buf) as [[|n]|e|]; [|apply (finish_take_grows _ _ (_ :: tr))|by intros [= <- <- <-]..].
    destruct (check_buffer_bound F buf) as [[]|e|]; [apply IH|by intros [= <- <- <-]..].
Qed.

Lemma content_loop_breaks extent tr rd buf :
  breaks rd → breaks_off (content_loop F extent tr buf) (content_loop F extent (tr ++ [Ready rd]) buf).
Proof.
  intros Hb. revert buf. induction tr as [|[r|] tr IH]; intros buf b; cbn [content_loop app];
    (destruct (extent buf) as [[|n]|e|]; [|apply finish_take_done|done..]);
    (destruct (check_buffer_bound F buf) as [[]|e|]; [|done..]).
  - intros _. destruct (read_more_breaks true rd buf Hb) as (e & -> & He). eauto.
  - destruct (read_more true r buf) as [[[]|e|] b']; [apply IH|done..].
  - apply IH.
Qed.

Lemma read_delimited_grows start end_ tr ext buf searched :
  grown ext (read_delimited F start end_ tr buf searched)
    (read_delimited F start end_ (tr ++ ext) buf searched).
Proof.
  revert buf searched. induction tr as [|[rd|] tr IH]; intros buf searched r b tr'.
  - destruct ext as [|ev ext]; cbn [read_delimited app];
      (destruct (scan start end_ buf searched) as [[n b']|[b' s']]; [apply (finish_take_grows _ _ [])|]);
      (destruct (check_buffer_bound F b') as [[]|e|]; [done|by intros [= <- <- <-]..]).
  - cbn [read_delimited app].
    destruct (scan start end_ buf searched) as [[n b']|[b' s']]; [apply (finish_take_grows _ _ (_ :: tr))|].
    destruct (check_buffer_bound F b') as [[]|e|]; [|by intros [= <- <- <-]..].
    destruct (read_more _ rd b') as [[[]|e|] b'']; [apply IH|by intros [= <- <- <-]..].
  - cbn [read_delimited app].
    destruct (scan start end_ buf searched) as [[n b']|[b' s']]; [apply (finish_take_grows _ _ (_ :: tr))|].
    destruct (check_buffer_bound F b') as [[]|e|]; [|by intros [= <- <- <-]..].
    destruct (is_empty b'); [apply IH|by intros [= <- <- <-]].
Qed.

Lemma read_delimited_breaks start end_ tr rd buf searched :
  breaks rd → breaks_off (read_delimited F start end_ tr buf searched)
    (read_delimited F start end_ (tr ++ [Ready rd]) buf searched).
Proof.
  intros Hb. revert buf searched.
  induction tr as [|[r|] tr IH]; intros buf searched b; cbn [read_delimited app];
    (destruct (scan start end_ buf searched) as [[n b']|[b' s']]; [apply finish_take_done|]);
    (destruct (check_buffer_bound F b') as [[]|e|]; [|done..]).
  - intros _. destruct (read_more_breaks (negb (is_empty b')) rd b' Hb) as (e & -> & He). eauto.
  - destruct (read_more _ r b') as [[[]|e|] b'']; [apply IH|done..].
  - destruct (is_empty b'); [apply IH|done].
Qed.

Lemma read_until_silence_grows tr ext buf :
  grown ext (read_until_silence F tr buf) (read_until_silence F (tr ++ ext) buf).
Proof.
  revert buf. induction tr as [|[rd|] tr IH]; intros buf r b tr'.
  - destruct ext as [|ev ext]; cbn [read_until_silence app]; (destruct (is_empty buf); [done|]);
      (destruct (check_buffer_bound F buf) as [[]|e|]; [done|by intros [= <- <- <-]..]).
  - cbn [read_until_silence app]. destruct (is_empty buf).
    + destruct (read_more _ rd buf) as [[[]|e|] b']; [apply IH|by intros [= <- <- <-]..].
    + destruct (check_buffer_bound F buf) as [[]|e|]; [|by intros [= <- <- <-]..].
      destruct (read_more _ rd buf) as [[[]|e|] b']; [apply IH| |by intros [= <- <- <-]].
      destruct e; solve [by intros [= <- <- <-]|apply finish_take_grows].
  - cbn [read_until_silence app]. destruct (is_empty buf); [apply IH|].
    destruct (check_buffer_bound F buf) as [[]|e|]; [apply finish_take_grows|by intros [= <- <- <-]..].
Qed.

(** ** A receive *)

Lemma read_adu_grows dir tr ext buf : grown ext (read_adu F dir tr buf) (read_adu F dir (tr ++ ext) buf).
Proof.
  unfold read_adu. destruct (boundary F) as [prefix total|start end_| |min extent].
  - rewrite !read_prefixed_then. apply then_read_grows. intros b t.
    destruct (_ ≫= total) as [n|e|]; [|by intros ??? [= <- <- <-]..].
    apply then_read_grows. intros. apply finish_take_grows.
  - apply read_delimited_grows.
  - apply read_until_silence_grows.
  - rewrite !read_content_length_then. apply then_read_grows. intros. apply content_loop_grows.
Qed.

Lemma read_adu_breaks dir tr rd buf :
  boundary F ≠ Silence → breaks rd →
  breaks_off (read_adu F dir tr buf) (read_adu F dir (tr ++ [Ready rd]) buf).
Proof.
  intros Hs Hb. unfold read_adu. destruct (boundary F) as [prefix total|start end_| |min extent].
  - rewrite !read_prefixed_then. apply then_read_breaks; [done|]. intros b t.
    destruct (_ ≫= total) as [n|e|]; [|done..].
    apply then_read_breaks; [done|]. intros. apply finish_take_done.
  - by apply read_delimited_breaks.
  - done.
  - rewrite !read_content_length_then. apply then_read_breaks; [done|].
    intros. by apply content_loop_breaks.
Qed.

Lemma recv_adu_grows dir st tr ext r st' tr' :
  recv_adu F dir st tr = Returned r st' tr' → recv_adu F dir st (tr ++ ext) = Returned r st' (tr' ++ ext).
Proof.
  unfold recv_adu. destruct (receiving st); [by intros [= <- <- <-]|].
  pose proof (read_adu_grows dir tr ext (buffer st)) as Hg.
  destruct (read_adu F dir tr (buffer st)) as [r1 b t|b]; [|done]. intros [= <- <- <-].
  by rewrite (Hg _ _ _ eq_refl).
Qed.

Lemma recv_adu_breaks dir st tr rd st' :
  boundary F ≠ Silence → breaks rd → recv_adu F dir st tr = Waiting st' →
  ∃ e st'', recv_adu F dir st (tr ++ [Ready rd]) = Returned (Err e) st'' [] ∧ ends_stream e = true.
Proof.
  intros Hs Hb. unfold recv_adu. destruct (receiving st); [done|].
  pose proof (read_adu_breaks dir tr rd (buffer st) Hs Hb) as Hg.
  destruct (read_adu F dir tr (buffer st)) as [r1 b t|b]; [done|]. intros _.
  destruct (Hg b eq_refl) as (e & b' & -> & He). eauto.
Qed.
End growing.

(** ** A transport whose stream grows *)

Section feeding.
Context {F : Framing}.

(** What has newly arrived. *)
Definition feed (evs : list Event) (t : FrameTransport F) : FrameTransport F :=
  mkFrameTransport
    (mkStream (mkReadHalf (arrivals (read_half (ft_stream t)) ++ evs)) (write_half (ft_stream t)))
    (ft_buffer t) (ft_outgoing t) (ft_config t) (ft_receiving t).

(** A receive in a direction, with what it decodes to. *)
Definition ft_recv {A} (dir : Direction) (decode : list Z → Result A) (t : FrameTransport F)
    : Poll (FrameTransport F) A :=
  lift_poll (ft_after_recv t) (received
    match recv_adu F dir (mkRecvState (ft_buffer t) (ft_receiving t))
            (arrivals (read_half (ft_stream t))) with
    | Waiting st => Waiting st
    | Returned r st trace => Returned (adu ← r; decode adu) st trace
    end).

Lemma ft_recv_request_is (t : FrameTransport F) :
  ft_recv_request t = ft_recv DirRequest (decode_request F) t.
Proof. done. Qed.
Lemma ft_recv_response_is (t : FrameTransport F) :
  ft_recv_response t = ft_recv DirResponse (decode_response F) t.
Proof. done. Qed.

Context {A : Type} (dir : Direction) (decode : list Z → Result A).

Lemma ft_recv_grows evs t r t' :
  ft_recv dir decode t = Finished r t' → ft_recv dir decode (feed evs t) = Finished r (feed evs t').
Proof.
  unfold ft_recv, feed. cbn [ft_stream read_half arrivals ft_buffer ft_receiving].
  destruct (recv_adu F dir _ (arrivals _)) as [r1 st tr|st] eqn:E; [|done]. intros [= <- <-].
  by rewrite (recv_adu_grows F _ _ _ evs _ _ _ E).
Qed.

Lemma ft_recv_breaks rd t t' :
  boundary F ≠ Silence → breaks rd → ft_recv dir decode t = Unfinished t' →
  ∃ e t'', ft_recv dir decode (feed [Ready rd] t) = Finished (Err e) t'' ∧ ends_stream e = true ∧
    write_half (ft_stream t'') = write_half (ft_stream t).
Proof.
  intros Hs Hb. unfold ft_recv, feed. cbn [ft_stream read_half arrivals ft_buffer ft_receiving].
  destruct (recv_adu F dir _ (arrivals _)) as [r1 st tr|st] eqn:E; [done|]. intros _.
  destruct (recv_adu_breaks F _ _ _ rd _ Hs Hb E) as (e & st' & -> & He).
  eexists e, _. split_and!; [done..|by destruct t as [[]]].
Qed.

Lemma feed_pending evs t : ft_pending (feed evs t) = ft_pending t ++ stream evs.
Proof. unfold ft_pending, feed, stream. cbn. by rewrite flat_map_app, app_assoc. Qed.

Lemma feed_delivers evs t :
  ft_delivers t → Forall (delivers (waits (boundary F))) evs → ft_delivers (feed evs t).
Proof. intros [Hr Hd] He. split; [done|]. by apply Forall_app. Qed.

(** Bytes that arrive one by one. *)
Definition trickle (bs : list Z) : list Event := (λ b, Ready (Bytes [b])) <$> bs.

Lemma stream_trickle bs : stream (trickle bs) = bs.
Proof. induction bs as [|b bs IH]; [done|]. cbn. by rewrite <- IH at 2. Qed.

Lemma trickle_delivers q bs : Forall (delivers q) (trickle bs).
Proof. apply Forall_fmap, Forall_true. intros b. split; [done|]. rewrite len_cons, len_nil. unfold READ_CHUNK. lia. Qed.

(** The frame of a message, in a direction. *)
Definition framed_as (m : A) (adu : list Z) : Prop :=
  Locates (boundary F) dir adu ∧ 1 ≤ len adu ≤ MAX_ADU_LEN F ∧ decode adu = Ok m.

Lemma ft_recv_exact m adu t rest_ :
  framed_as m adu → ft_delivers t → ft_pending t = adu ++ rest_ →
  ∃ t', ft_recv dir decode t = Finished (Ok m) t' ∧ ft_delivers t' ∧ ft_pending t' = rest_ ∧
    write_half (ft_stream t') = write_half (ft_stream t).
Proof.
  intros (Hl & Hm & Hdec) [Hr Hd] Hp. unfold ft_recv.
  destruct (recv_adu_exact F dir (mkRecvState (ft_buffer t) (ft_receiving t))
    (arrivals (read_half (ft_stream t))) adu [] rest_) as (st & tr & -> & H1 & H2 & H3);
    [done|lia|done|done|apply skips_nil|done|]. cbn. rewrite Hdec. eexists. by split_and!.
Qed.

(** A receive while only [part] of a frame has arrived waits; once it is all
    there, it is received. *)
Lemma ft_recv_part m adu t later :
  framed_as m adu → ft_delivers t → ft_pending t ++ later = adu →
  (∃ t', ft_recv dir decode t = Unfinished t') ∨
  (∃ t', ft_recv dir decode t = Finished (Ok m) t' ∧ ft_delivers t' ∧ ft_pending t' = [] ∧
     later = [] ∧ write_half (ft_stream t') = write_half (ft_stream t)).
Proof.
  intros Hf Hd Hp. destruct later as [|b later].
  { right. rewrite app_nil_r in Hp.
    destruct (ft_recv_exact m adu t []) as (t' & H1 & H2 & H3 & H4); [done|done|by rewrite app_nil_r|].
    by exists t'. }
  left. destruct (ft_recv dir decode t) as [r t'|t'] eqn:E; [exfalso|eauto].
  assert (b :: later ≠ []) as Hne by done. revert Hp Hne. generalize (b :: later) as rest_.
  clear b later. intros later Hp Hne. apply (ft_recv_grows (trickle later)) in E.
  destruct (ft_recv_exact m adu (feed (trickle later) t) []) as (t'' & H1 & _ & H3 & _); [done|..].
  - apply feed_delivers; [done|apply trickle_delivers].
  - by rewrite feed_pending, stream_trickle, app_nil_r.
  - rewrite E in H1. injection H1 as _ <-. rewrite feed_pending, stream_trickle in H3.
    by apply app_eq_nil in H3 as [_ ?].
Qed.
End feeding.
