(* ===== verification/Interop.v ===== *)
(** * The example clients

    [examples/rtu_client.rs], and [examples/tcp_client.rs] run against the device of
    [examples/interop_server.rs]: a session in the sense of [OverTheWire.v], so
    what is shown of it holds byte for byte over TCP. *)

From S2P Require Import Prelude.
From S2P Require Import Errors.
From S2P Require Import Parse.
From S2P Require Import Value.
From S2P Require Import Function.
From S2P Require Import Exception.
From S2P Require Import Wire.
From S2P Require Import Pdu.
From S2P Require Import PduSpec.
From S2P Require Import PduRoundtrip.
From S2P Require Import Framing.
From S2P Require Import Rtu.
From S2P Require Import RtuStream.
From S2P Require Import Tcp.
From S2P Require Import Ascii.
From S2P Require Import Transport.
From S2P Require Import TransportSpec.
From S2P Require Import TransportSafety.
From S2P Require Import TransportTheorems.
From S2P Require Import Outgoing.
From S2P Require Import Framed.
From S2P Require Import Client.
From S2P Require Import Server.
From S2P Require Import Typed.
From S2P Require Import OverTheWire.
From S2P Require Import Device.

(** ** The example client *)

(** The value [main] writes. *)
Definition written : RegisterValue := mkRegisterValue 0x1234.

Section program.
Context {w : Winnow}.

(** What [main] does with its client: read, write one register, read it back.
    [describe] prints an error and passes it on. *)
Definition tcp_client_session (unit : UnitId) (start : Address) (count : Quantity)
    : Cl Tcp_framing (list RegisterValue * list RegisterValue) :=
  registers ← read_holding_registers Tcp_framing unit start count;
  _ ← write_single_register Tcp_framing unit start written;
  read_back ← read_holding_registers Tcp_framing unit start (mkQuantity 1);
  mret (registers, read_back).

(** ** A session as the client sees it *)

Fixpoint session_inbox (tid : TransactionId) (xs : list Exchange)
    : list (Result (Header Tcp_framing * ResponsePdu)) :=
  match xs with
  | [] => []
  | x :: xs' =>
      Ok (mkMbapHeader tid (ex_unit x) : Header Tcp_framing, ex_response x)
        :: session_inbox (next tid) xs'
  end.

Definition session_world (tid : TransactionId) (xs : list Exchange) : World Tcp_framing :=
  mkWorld Tcp_framing (Ok tt) (session_inbox tid xs) [].

(** A call that the next response answers. *)
Lemma call_next u request resp c tid rest_ wire_ pdu :
  is_desynchronized c = false → next_transaction c = tid → RequestPdu_encode request = Ok pdu →
  ResponsePdu_function resp = RequestPdu_function request →
  let header := mkMbapHeader tid u : Header Tcp_framing in
  call Tcp_framing u request c (mkWorld Tcp_framing (Ok tt) (Ok (header, resp) :: rest_) wire_) =
  (Ok (Some resp), mkClient (next tid) Answered,
   mkWorld Tcp_framing (Ok tt) rest_ (wire_ ++ [(header, request)])).
Proof.
  intros Hc <- He Hf header. unfold call. rewrite Hc, He. cbn [write_outcome is_broadcast Tcp_client].
  cbn [await inbox request_header is_response_to Tcp_client]. unfold header.
  rewrite bool_decide_true by done. cbn [negb]. by rewrite bool_decide_true by done.
Qed.

(** What has bytes has a frame. *)
Context {ws : WinnowSpec w}.

Lemma request_frame h r pdu :
  wf h → wf r → request_canonical r = true → request_bytes r = Ok pdu →
  ∃ adu, encodable_request Tcp_framing (h, r) adu.
Proof.
  intros Hh Hr Hc Hb. exists (frame (F := Tcp_framing) h pdu). split_and!; try done. cbn [fst snd].
  by rewrite encode_request_frame, Hb by done.
Qed.

Lemma response_frame h r pdu :
  wf h → wf r → response_canonical r = true → response_bytes r = Ok pdu →
  ∃ adu, encodable_response Tcp_framing (h, r) adu.
Proof.
  intros Hh Hr Hc Hb. exists (frame (F := Tcp_framing) h pdu). split_and!; try done. cbn [fst snd].
  by rewrite encode_response_frame, Hb by done.
Qed.

(** One exchange more in front of a session: it has its frames. *)
Lemma agreed_cons svc config conn tid u request resp answer xs s s1 s' pdu pdu' :
  let header := mkMbapHeader tid u in
  foreign config u = false → wf header → on_request svc conn u request s = (answer, s1) →
  response_of (RequestPdu_function request) answer = Some resp →
  wf request → request_canonical request = true → request_bytes request = Ok pdu →
  wf resp → response_canonical resp = true → response_bytes resp = Ok pdu' →
  ResponsePdu_function resp = RequestPdu_function request →
  agreed Tcp_framing svc config conn (next tid) xs s1 s' →
  ∃ out inn, agreed Tcp_framing svc config conn tid (mkExchange u request resp out inn :: xs) s s'.
Proof.
  intros header Hf Hh Ho Hresp Hr Hc Hb Hr' Hc' Hb' Hfun Ha.
  destruct (request_frame header request pdu) as [out Hout]; [done..|].
  destruct (response_frame header resp pdu') as [inn Hin]; [done..|].
  exists out, inn. cbn [agreed ex_unit ex_request ex_response ex_out ex_in]. rewrite Ho. by split_and!.
Qed.

(** The PDUs of the session fit. *)
Lemma holding_request_bytes_ok a q :
  1 ≤ quantity_0 q ≤ SIZE → ∃ pdu, request_bytes (Req_ReadHoldingRegisters a q) = Ok pdu.
Proof.
  intros Hq. cbn [request_bytes]. unfold read_layout, check_range.
  destruct (_ || _) eqn:E; [|by eexists].
  exfalso. unfold SIZE, MAX_READ_REGISTERS in *.
  apply orb_true_iff in E as [E|E]; apply Z.ltb_lt in E; lia.
Qed.

Lemma holding_response_bytes_ok rs :
  len rs ≤ SIZE → ∃ pdu, response_bytes (Resp_ReadHoldingRegisters rs) = Ok pdu.
Proof.
  intros Hl. cbn [response_bytes]. unfold counted_layout, saturating_mul, sized.
  pose proof (len_nonneg rs). unfold SIZE in *.
  rewrite (proj2 (Z.leb_le _ _)) by (unfold U8_MAX, USIZE_MAX; lia).
  rewrite (proj2 (Z.ltb_ge _ _)); [by eexists|].
  rewrite !len_cons, len_registers_bytes. unfold MAX_PDU_LEN. lia.
Qed.

(** The device's answers to the three requests. *)
Lemma device_reads conn u d m start count :
  let a := Z.to_nat (address_0 start) in
  represents d m → wf start → wf count → address_0 start + quantity_0 count ≤ SIZE →
  device_on_request conn u (Req_ReadHoldingRegisters start count) d =
  (inl (Some (Resp_ReadHoldingRegisters
     (mkRegisterValue <$> take (Z.to_nat (quantity_0 count)) (drop a (m_holding m))))), d).
Proof.
  intros a Hd Hs Hq Hle. cbn [device_on_request].
  rewrite (device_read_array _ (m_holding m)) by (done || apply Hd). unfold array_read, in_range.
  rewrite (proj2 (Nat.leb_le _ _)), orb_true_r; [done|].
  destruct Hs, Hq. unfold SIZE in *. lia.
Qed.

Lemma device_writes conn u d m start value :
  let a := Z.to_nat (address_0 start) in
  represents d m → wf start → wf value → address_0 start < SIZE →
  ∃ d', device_on_request conn u (Req_WriteSingleRegister start value) d =
    (inl (Some (Resp_WriteSingleRegister start value)), d') ∧
    represents d' (mkMemory (m_coils m) (m_discrete m)
      (<[a := register_value_0 value]> (m_holding m)) (m_input m)).
Proof.
  intros a Hd Hs Hv Hle.
  destruct (device_step conn u (Req_WriteSingleRegister start value) d m) as [H1 H2]; [done..|].
  exists (device_on_request conn u (Req_WriteSingleRegister start value) d).2.
  split; [|exact H2]. rewrite (surjective_pairing (device_on_request _ _ _ _)), H1.
  cbn [memory_on_request fst]. unfold refused, in_range.
  rewrite (proj2 (Nat.leb_le _ _)), orb_true_r; [done|]. destruct Hs. unfold SIZE in *. lia.
Qed.

(** The three exchanges of the program. *)
Definition client_session (start : Address) (count : Quantity) (registers : list RegisterValue)
    (frames : list Z * list Z * (list Z * list Z) * (list Z * list Z)) : list Exchange :=
  let '(f1, f2, f3) := frames in
  [mkExchange (mkUnitId 1) (Req_ReadHoldingRegisters start count)
     (Resp_ReadHoldingRegisters registers) f1.1 f1.2;
   mkExchange (mkUnitId 1) (Req_WriteSingleRegister start written)
     (Resp_WriteSingleRegister start written) f2.1 f2.2;
   mkExchange (mkUnitId 1) (Req_ReadHoldingRegisters start (mkQuantity 1))
     (Resp_ReadHoldingRegisters [written]) f3.1 f3.2].

(** The device answers them. *)
Lemma device_session errno target conn d m start count :
  let a := Z.to_nat (address_0 start) in
  let registers := mkRegisterValue <$> take (Z.to_nat (quantity_0 count)) (drop a (m_holding m)) in
  represents d m → Forall is_u16 (m_holding m) → wf start → wf count → 1 ≤ quantity_0 count →
  address_0 start + quantity_0 count ≤ SIZE →
  ∃ frames d', agreed Tcp_framing (Device_service errno target) interop_config conn (mkTransactionId 1)
    (client_session start count registers frames) d d'.
Proof.
  intros a registers Hd Hh Hs Hq Hq1 Hle. set (u := mkUnitId 1).
  assert (0 ≤ address_0 start) as Ha0 by apply Hs.
  assert (length (m_holding m) = Z.to_nat SIZE) as Hlen by apply Hd.
  assert (wf registers) as Hregs by (apply registers_wf; by apply Forall_take, Forall_drop).
  assert (len registers ≤ SIZE) as Hrl.
  { unfold registers, len, SIZE in *. rewrite length_fmap, length_take, length_drop. lia. }
  destruct (device_writes conn u d m start written) as (d' & Hw & Hd'); [done|done|by_eval|lia|].
  assert (device_on_request conn u (Req_ReadHoldingRegisters start (mkQuantity 1)) d' =
    (inl (Some (Resp_ReadHoldingRegisters [written])), d')) as Hr3.
  { erewrite device_reads; [|done|done|by_eval|cbn; lia]. cbn [m_holding quantity_0].
    rewrite (drop_S _ (register_value_0 written)); [done|].
    apply list_lookup_insert_eq. unfold SIZE in *. lia. }
  destruct (holding_request_bytes_ok start count) as [p1 Hp1]; [lia|].
  destruct (holding_request_bytes_ok start (mkQuantity 1)) as [p3 Hp3]; [by_eval|].
  destruct (holding_response_bytes_ok registers Hrl) as [p1' Hp1'].
  assert (wf (mkQuantity 1) ∧ wf written) as [Hq2 Hwr] by by_eval.
  destruct (agreed_cons (Device_service errno target) interop_config conn (mkTransactionId 3) u
    (Req_ReadHoldingRegisters start (mkQuantity 1)) (Resp_ReadHoldingRegisters [written])
    (inl (Some (Resp_ReadHoldingRegisters [written]))) [] d' d' d' p3 [3; 2; 0x12; 0x34])
    as (o3 & i3 & A3); [done|by_eval|exact Hr3|try done; by_eval..|].
  destruct (agreed_cons (Device_service errno target) interop_config conn (mkTransactionId 2) u
    (Req_WriteSingleRegister start written) (Resp_WriteSingleRegister start written)
    (inl (Some (Resp_WriteSingleRegister start written)))
    [mkExchange u (Req_ReadHoldingRegisters start (mkQuantity 1)) (Resp_ReadHoldingRegisters [written])
       o3 i3] d d' d' ([6] ++ u16_to_be (address_0 start) ++ u16_to_be 0x1234)
    ([6] ++ u16_to_be (address_0 start) ++ u16_to_be 0x1234))
    as (o2 & i2 & A2); [done|by_eval|exact Hw|done..|exact A3|].
  destruct (agreed_cons (Device_service errno target) interop_config conn (mkTransactionId 1) u
    (Req_ReadHoldingRegisters start count) (Resp_ReadHoldingRegisters registers)
    (inl (Some (Resp_ReadHoldingRegisters registers)))
    [mkExchange u (Req_WriteSingleRegister start written) (Resp_WriteSingleRegister start written) o2 i2;
     mkExchange u (Req_ReadHoldingRegisters start (mkQuantity 1)) (Resp_ReadHoldingRegisters [written])
       o3 i3] d d d' p1 p1')
    as (o1 & i1 & A1); [done|by_eval|by apply device_reads|done..|exact A2|].
  by exists ((o1, i1), (o2, i2), (o3, i3)), d'.
Qed.

(** The program over them. *)
Lemma client_session_runs start count registers frames p1 p3 :
  request_bytes (Req_ReadHoldingRegisters start count) = Ok p1 →
  request_bytes (Req_ReadHoldingRegisters start (mkQuantity 1)) = Ok p3 →
  ∃ c' wd', tcp_client_session (mkUnitId 1) start count Client_new
      (session_world (mkTransactionId 1) (client_session start count registers frames)) =
      (Ok (registers, [written]), c', wd') ∧ inbox _ wd' = [].
Proof.
  intros Hp1 Hp3. destruct frames as [[f1 f2] f3].
  rewrite <- RequestPdu_encode_bytes in Hp1, Hp3.
  unfold tcp_client_session, read_holding_registers, write_single_register, write, exchange.
  cbn [is_broadcast Tcp_client]. unfold mbind, Cl_bind, mret, Cl_ret. cbn beta.
  unfold session_world, client_session. cbn [session_inbox ex_unit ex_response].
  rewrite (call_next (mkUnitId 1) _ _ Client_new (mkTransactionId 1) _ _ p1) by done.
  rewrite (call_next (mkUnitId 1) (Req_WriteSingleRegister start written) _ _
    (next (mkTransactionId 1)) _ _ ([6] ++ u16_to_be (address_0 start) ++ u16_to_be 0x1234)) by done.
  rewrite (call_next (mkUnitId 1) (Req_ReadHoldingRegisters start (mkQuantity 1)) _ _
    (next (next (mkTransactionId 1))) _ _ p3) by done.
  by eexists _, _.
Qed.

(** The example client against the example server: from any state of the
    device, for any range of holding registers that lies in its table, the three
    calls of [tcp_client] are a session the server agrees to, hence one that runs
    byte for byte over TCP; the program ends without an error, having read the
    registers of the range and, after writing, read back the value it wrote. *)
Lemma tcp_client_against_the_device errno target conn d start count :
  device_ok d → wf start → wf count → 1 ≤ quantity_0 count →
  address_0 start + quantity_0 count ≤ SIZE →
  ∃ xs d' registers c' wd',
    agreed Tcp_framing (Device_service errno target) interop_config conn (mkTransactionId 1) xs d d' ∧
    device_read (holding d) start count = inl (register_value_0 <$> registers) ∧
    tcp_client_session (mkUnitId 1) start count Client_new (session_world (mkTransactionId 1) xs) =
      (Ok (registers, [written]), c', wd') ∧ inbox _ wd' = [].
Proof.
  intros (m & Hd & Hh & Hi) Hs Hq Hq1 Hle. assert (0 ≤ address_0 start) as Ha0 by apply Hs.
  destruct (device_session errno target conn d m start count) as (frames & d' & Ha); [done..|].
  destruct (holding_request_bytes_ok start count) as [p1 Hp1]; [lia|].
  destruct (holding_request_bytes_ok start (mkQuantity 1)) as [p3 Hp3]; [by_eval|].
  edestruct client_session_runs as (c' & wd' & Hrun & Hin); [exact Hp1|exact Hp3|].
  eexists _, d', _, c', wd'. split; [exact Ha|]. split; [|split; [exact Hrun|exact Hin]].
  rewrite (device_read_array _ (m_holding m)) by (done || apply Hd). unfold array_read, in_range.
  rewrite (proj2 (Nat.leb_le _ _)), orb_true_r; [|destruct Hq; unfold SIZE in *; lia].
  rewrite <- list_fmap_compose. f_equal. symmetry. apply list_fmap_id.
Qed.
End program.

(** ** The serial client *)

Section serial.
Context {w : Winnow} {c : Crc16}.

(** What [main] of [rtu_client] does with its client; [broadcast] is its fifth
    argument. *)
Definition rtu_client_session (u : UnitId) (start : Address) (count : Quantity) (broadcast : bool)
    : Cl Rtu_framing (list RegisterValue) :=
  registers ← read_holding_registers Rtu_framing u start count;
  _ ← (if broadcast
       then write_single_register Rtu_framing (mkUnitId 0) start (mkRegisterValue 0)
       else mret tt);
  mret registers.

(** The broadcast needs no answer: with the response to the read as all that ever
    arrives the program ends without an error, and the write went out to unit 0. *)
Lemma rtu_client_broadcasts u start count registers pdu :
  u ≠ BROADCAST_UNIT → request_bytes (Req_ReadHoldingRegisters start count) = Ok pdu →
  ∃ c', rtu_client_session u start count true Client_new
      (mkWorld Rtu_framing (Ok tt) [Ok (u : Header Rtu_framing, Resp_ReadHoldingRegisters registers)] [])
    = (Ok registers, c', mkWorld Rtu_framing (Ok tt) []
        [(u : Header Rtu_framing, Req_ReadHoldingRegisters start count);
         (BROADCAST_UNIT : Header Rtu_framing, Req_WriteSingleRegister start (mkRegisterValue 0))]).
Proof.
  intros Hu Hb. rewrite <- RequestPdu_encode_bytes in Hb.
  unfold rtu_client_session, read_holding_registers, write_single_register, write, exchange.
  cbn [is_broadcast Rtu_client]. rewrite (bool_decide_false (u = BROADCAST_UNIT)) by done.
  rewrite (bool_decide_true (mkUnitId 0 = BROADCAST_UNIT)) by done.
  unfold mbind, Cl_bind, mret, Cl_ret. cbn beta. unfold call at 1. rewrite Hb.
  cbn [is_desynchronized Client_new state write_outcome request_header is_broadcast Rtu_client inbox].
  rewrite (bool_decide_false (u = BROADCAST_UNIT)) by done. cbn [await is_response_to Rtu_client].
  rewrite (bool_decide_true (u = u)) by done. by eexists.
Qed.
End serial.

(** The errno values of Linux on x86-64. *)
Definition linux_errno : LibcErrno := {|
  ECONNABORTED := 103; ECONNRESET := 104; EINTR := 4; EAGAIN := 11; EWOULDBLOCK := 11;
  EMFILE := 24; ENFILE := 23; ENOBUFS := 105; ENOMEM := 12; EPERM := 1; ETIMEDOUT := 110;
  ENETDOWN := 100; EPROTO := 71; ENOPROTOOPT := 92; EHOSTDOWN := 112; ENONET := 64;
  EHOSTUNREACH := 113; EOPNOTSUPP := 95; ENETUNREACH := 101;
|}.
