(* ===== verification/Console.v ===== *)
(** * The programs of [examples/tcp_client.rs] and [examples/rtu_client.rs]

    [main] of the two clients: their arguments, the lines they print and the
    result they return.  The address of a socket (parsing, printing) and the
    outcome of connecting or opening the port are arguments; from there on a
    program is its calls on the client, each of which may fail and end it. *)

From stdpp Require Import pretty.
From S2P Require Import Prelude.
From S2P Require Import Errors.
From S2P Require Import Parse.
From S2P Require Import Value.
From S2P Require Import Function.
From S2P Require Import Exception.
From S2P Require Import Pdu.
From S2P Require Import PduSpec.
From S2P Require Import Display.
From S2P Require Import Framing.
From S2P Require Import Rtu.
From S2P Require Import Tcp.
From S2P Require Import Serial.
From S2P Require Import Outgoing.
From S2P Require Import TcpConn.
From S2P Require Import Client.
From S2P Require Import Server.
From S2P Require Import Typed.
From S2P Require Import OverTheWire.
From S2P Require Import Device.
From S2P Require Import Interop.

(** ** Arguments *)

(** [FromStr] of an unsigned integer: an optional sign [+], then at least one
    decimal digit, and no overflow past [max]. *)
Definition to_digit (c : Ascii.ascii) : option Z :=
  let d := Z.of_nat (Ascii.nat_of_ascii c) - 48 in
  if (0 <=? d) && (d <=? 9) then Some d else None.

Fixpoint digits_value (max acc : Z) (s : string) : option Z :=
  match s with
  | EmptyString => Some acc
  | String c s' =>
      d ← to_digit c;
      let acc' := acc * 10 + d in
      if max <? acc' then None else digits_value max acc' s'
  end.

Definition plus : Ascii.ascii := Ascii.ascii_of_nat 43.

Definition from_str (max : Z) (s : string) : option Z :=
  match s with
  | EmptyString => None
  | String c s' =>
      if bool_decide (c = plus) then
        match s' with EmptyString => None | _ => digits_value max 0 s' end
      else digits_value max 0 s
  end.

(** [parse]. *)
Definition parse (max : Z) (arg : option string) (fallback : Z) : Result Z :=
  match arg with
  | None => Ok fallback
  | Some value => expect (from_str max value)
  end.

(** The second, third and fourth argument: a unit, an address and a count. *)
Definition range_args (args : list string) : Result (UnitId * Address * Quantity) :=
  u ← parse U8_MAX (args !! 1%nat) 1;
  start ← parse U16_MAX (args !! 2%nat) 0;
  count ← parse U16_MAX (args !! 3%nat) 4;
  Ok (mkUnitId u, mkAddress start, mkQuantity count).

(** ** Lines *)

(** [{:04X}]. *)
Definition upper_hex_char (d : Z) : Ascii.ascii :=
  Ascii.ascii_of_nat (Z.to_nat (if d <? 10 then 48 + d else 55 + d)).

Fixpoint upper_hex (n : nat) (v : Z) (tail : string) : string :=
  match n with
  | O => tail
  | S n' => upper_hex n' (Z.shiftr v 4) (String (upper_hex_char (Z.land v 0xF)) tail)
  end.

Definition holding_line (address value : Z) : string :=
  "holding[" +:+ pretty address +:+ "] = " +:+ pretty value +:+ " (0x" +:+ upper_hex 4 value "" +:+ ")".

Definition holding_lines (start : Address) (registers : list RegisterValue) : list string :=
  imap (λ offset value, holding_line (address_0 start + Z.of_nat offset) (register_value_0 value))
    registers.

Definition writing_line (start : Address) (value : RegisterValue) : string :=
  "writing " +:+ pretty (address_0 start) +:+ " = 0x" +:+ upper_hex 4 (register_value_0 value) "".

(** [{:?}] of a [Vec]. *)
Definition vec_debug {A} `{DomainValue A} (values : list A) : string :=
  "[" +:+ String.concat ", " (value_debug <$> values) +:+ "]".

(** ** A program: what it prints, and its result *)

Section program.
Context {F : Framing}.

Definition Run (A : Type) : Type :=
  Client → World F → list string * (Result A * Client * World F).

#[local] Instance Run_ret : MRet Run := λ A a c wd, ([], (Ok a, c, wd)).
#[local] Instance Run_bind : MBind Run := λ A B k m c wd,
  match m c wd with
  | (out, (Ok a, c', wd')) => let '(out', rest) := k a c' wd' in (out ++ out', rest)
  | (out, (Err e, c', wd')) => (out, (Err e, c', wd'))
  | (out, (Panic, c', wd')) => (out, (Panic, c', wd'))
  end.

Definition println (line : string) : Run unit := λ c wd, ([line], (Ok tt, c, wd)).
Definition printlns (lines : list string) : Run unit := λ c wd, (lines, (Ok tt, c, wd)).
Definition pure {A} (r : Result A) : Run A := λ c wd, ([], (r, c, wd)).
Definition plainly {A} (m : Cl F A) : Run A := λ c wd, ([], m c wd).

(** [.map_err(describe)]. *)
Definition describing {A} (describe : Error → string) (m : Cl F A) : Run A := λ c wd,
  match m c wd with
  | (Err e, c', wd') => ([describe e], (Err e, c', wd'))
  | done_ => ([], done_)
  end.
End program.
#[global] Arguments Run F A : clear implicits.
#[export] Existing Instance Run_ret.
#[export] Existing Instance Run_bind.

Section mains.
Context {w : Winnow} {cr : Crc16}.
Variable kind_text : Z → string.

(** The line [describe] prints. *)
Definition describe (error : Error) : string :=
  match error with
  | ExceptionError function exception =>
      "the device refused " +:+ FunctionCode_debug function +:+ ": " +:+ ExceptionCode_debug exception
  | Timeout what => "no " +:+ what +:+ " within the configured timeout"
  | other => "failed: " +:+ Error_display kind_text other
  end.

(** [main] of [tcp_client]. *)
Section tcp.
Variable socket_addr : string → option SocketAddr.
Variable addr_text : SocketAddr → string.
Variable connect : SocketAddr → TcpConfig → Result unit.

Definition tcp_client_calls (u : UnitId) (start : Address) (count : Quantity) : Run Tcp_framing unit :=
  registers ← describing describe (read_holding_registers Tcp_framing u start count);
  _ ← printlns (holding_lines start registers);
  _ ← println (writing_line start written);
  _ ← describing describe (write_single_register Tcp_framing u start written);
  read_back ← describing describe (read_holding_registers Tcp_framing u start (mkQuantity 1));
  println ("read back: " +:+ vec_debug read_back).

Definition tcp_client_main (args : list string) : Run Tcp_framing unit :=
  address ← pure (expect (socket_addr (default "127.0.0.1:5030" (args !! 0%nat))));
  '(u, start, count) ← pure (range_args args);
  _ ← pure (connect address (mkTcpConfig (5 * 10 ^ 9) (nodelay TcpConfig_default)));
  _ ← println ("connected to " +:+ addr_text address);
  tcp_client_calls u start count.
End tcp.

(** [main] of [rtu_client], built with the feature [rtu]; [interval_text] is the
    [Debug] of a duration. *)
Section rtu.
Variable interval_text : Z → string.
Variable open_port : string → SerialConfig → Result unit.

Definition rtu_client_calls (u : UnitId) (start : Address) (count : Quantity) (fifth : option string)
    : Run Rtu_framing unit :=
  registers ← plainly (read_holding_registers Rtu_framing u start count);
  _ ← printlns (holding_lines start registers);
  if bool_decide (fifth = Some "broadcast") then
    _ ← plainly (write_single_register Rtu_framing (mkUnitId 0) start (mkRegisterValue 0));
    println "broadcast write sent to every device on the bus; no reply is expected"
  else println "pass a fifth argument `broadcast` to also demonstrate a broadcast write".

Definition rtu_client_main (args : list string) : Run Rtu_framing unit :=
  let path := default "/dev/ttyUSB0" (args !! 0%nat) in
  '(u, start, count) ← pure (range_args args);
  let config := SerialConfig_default in
  interval ← pure (inter_frame_interval config);
  _ ← println ("inter-frame silence at " +:+ pretty (baud_rate config) +:+ " baud: " +:+
               interval_text interval);
  _ ← pure (open_port path config);
  _ ← println ("opened " +:+ path);
  rtu_client_calls u start count (args !! 4%nat).
End rtu.
End mains.

(** ** Properties *)

Lemma digits_value_pretty max x s :
  Z.of_N x ≤ max → digits_value max 0 (pretty_N_go x s) = digits_value max (Z.of_N x) s.
Proof.
  revert s. induction (N.lt_wf_0 x) as [x _ IH]; intros s Hx.
  assert (x = 0 ∨ 0 < x)%N as [->|?] by lia; [by rewrite pretty_N_go_0|].
  pose proof (N.div_mod x 10 ltac:(done)) as E. pose proof (N.mod_lt x 10 ltac:(done)) as Hm.
  rewrite pretty_N_go_step by done. rewrite IH; [|by apply N.div_lt|etrans; [|done]; apply N2Z.inj_le, N.Div0.div_le_upper_bound; lia].
  assert (to_digit (pretty_N_char (x `mod` 10)) = Some (Z.of_N (x `mod` 10))) as Hd.
  { revert Hm. generalize (x `mod` 10)%N. intros d Hd.
    assert (d = 0 ∨ d = 1 ∨ d = 2 ∨ d = 3 ∨ d = 4 ∨ d = 5 ∨ d = 6 ∨ d = 7 ∨ d = 8 ∨ d = 9)%N
      by lia. destruct_or!; by subst. }
  cbn [digits_value]. rewrite Hd. cbn [mbind option_bind].
  replace (Z.of_N (x / 10) * 10 + Z.of_N (x `mod` 10)) with (Z.of_N x) by lia.
  by rewrite (proj2 (Z.ltb_ge _ _)).
Qed.

Lemma from_str_digits max s v : s ≠ "" → digits_value max 0 s = Some v → from_str max s = Some v.
Proof.
  destruct s as [|c s]; [done|]. intros _ E. destruct (decide (c = plus)) as [->|Hc]; [done|].
  cbn [from_str]. by rewrite bool_decide_false.
Qed.

(** A printed number is parsed back. *)
Lemma from_str_pretty max n : 0 ≤ n ≤ max → from_str max (pretty n) = Some n.
Proof.
  intros Hn. destruct n as [|n|n]; [|..|lia].
  { by destruct max; [..|lia]. }
  assert (digits_value max 0 (pretty (Z.pos n)) = Some (Z.pos n)) as E.
  { change (pretty (Z.pos n)) with (pretty_N_go (N.pos n) ""). by rewrite digits_value_pretty by lia. }
  apply from_str_digits; [|done]. intros H. by rewrite H in E.
Qed.

Section sessions.
Context {w : Winnow} {cr : Crc16}.
Variable kind_text : Z → string.

(** A program ends as its session of calls does, with the client and the world
    where the session leaves them, whatever it prints on the way. *)
Lemma tcp_client_calls_session u start count c wd :
  snd (tcp_client_calls kind_text u start count c wd) =
  match tcp_client_session u start count c wd with
  | (r, c', wd') => ((_ ← r; Ok tt), c', wd')
  end.
Proof.
  unfold tcp_client_calls, tcp_client_session, describing, printlns, println.
  unfold mbind, mret, Run_bind, Cl_bind, Cl_ret. cbn beta.
  destruct (read_holding_registers _ _ _ _ _ _) as [[[registers|e|] c1] wd1]; [|done..].
  destruct (write_single_register _ _ _ _ _ _) as [[[[]|e|] c2] wd2]; [|done..].
  by destruct (read_holding_registers _ _ _ _ _ _) as [[[back|e|] c3] wd3].
Qed.

Lemma rtu_client_calls_session u start count fifth c wd :
  snd (rtu_client_calls u start count fifth c wd) =
  match rtu_client_session u start count (bool_decide (fifth = Some "broadcast")) c wd with
  | (r, c', wd') => ((_ ← r; Ok tt), c', wd')
  end.
Proof.
  unfold rtu_client_calls, rtu_client_session, plainly, printlns, println.
  unfold mbind, mret, Run_bind, Cl_bind, Cl_ret. cbn beta.
  destruct (read_holding_registers _ _ _ _ _ _) as [[[registers|e|] c1] wd1]; [|done..].
  destruct (bool_decide _); [|done].
  by destruct (write_single_register _ _ _ _ _ _) as [[[[]|e|] c2] wd2].
Qed.

(** What it prints when the session succeeds. *)
Definition session_lines (start : Address) (registers read_back : list RegisterValue) : list string :=
  holding_lines start registers ++
  [writing_line start written; "read back: " +:+ vec_debug read_back].

Lemma tcp_client_calls_prints u start count c wd registers read_back c' wd' :
  tcp_client_session u start count c wd = (Ok (registers, read_back), c', wd') →
  fst (tcp_client_calls kind_text u start count c wd) = session_lines start registers read_back.
Proof.
  unfold tcp_client_calls, tcp_client_session, describing, printlns, println.
  unfold mbind, mret, Run_bind, Cl_bind, Cl_ret. cbn beta.
  destruct (read_holding_registers _ _ _ _ _ _) as [[[registers'|e|] c1] wd1]; [|done..].
  destruct (write_single_register _ _ _ _ _ _) as [[[[]|e|] c2] wd2]; [|done..].
  destruct (read_holding_registers _ _ _ _ _ _) as [[[back|e|] c3] wd3]; [|done..].
  intros [= -> -> _ _]. cbn [fst]. by rewrite !app_nil_l.
Qed.

(** A failed call ends the program with its error, after a line that describes it. *)
Lemma tcp_client_calls_describes u start count c wd e c' wd' :
  tcp_client_session u start count c wd = (Err e, c', wd') →
  last (fst (tcp_client_calls kind_text u start count c wd)) = Some (describe kind_text e).
Proof.
  unfold tcp_client_calls, tcp_client_session, describing, printlns, println.
  unfold mbind, mret, Run_bind, Cl_bind, Cl_ret. cbn beta.
  destruct (read_holding_registers _ _ _ _ _ _) as [[[registers|e'|] c1] wd1]; [| |done].
  2:{ by intros [= -> _ _]. }
  destruct (write_single_register _ _ _ _ _ _) as [[[[]|e'|] c2] wd2]; [| |done].
  2:{ intros [= -> _ _]. cbn [fst]. rewrite !app_nil_l. by rewrite !last_app. }
  destruct (read_holding_registers _ _ _ _ _ _) as [[[back|e'|] c3] wd3]; [done| |done].
  intros [= -> _ _]. cbn [fst]. rewrite !app_nil_l. by rewrite !last_app.
Qed.

(** C31. The example client against the example server, as programs: from any
    state of the device, for any range of holding registers that lies in its
    table, given as decimal arguments, once the address parses and the connection
    is made the calls of [tcp_client] are a session the server agrees to, hence one
    that runs byte for byte over TCP; the program ends without an error and prints
    the registers the device holds in the range, and the value it wrote, read
    back. *)
Theorem tcp_client_program `{!WinnowSpec w} errno target conn d socket_addr addr_text connect
    arg address start count :
  device_ok d → wf start → wf count → 1 ≤ quantity_0 count →
  address_0 start + quantity_0 count ≤ SIZE →
  socket_addr arg = Some address → connect address (mkTcpConfig (5 * 10 ^ 9) true) = Ok tt →
  ∃ xs d' registers c' wd',
    agreed Tcp_framing (Device_service errno target) interop_config conn (mkTransactionId 1) xs d d' ∧
    device_read (holding d) start count = inl (register_value_0 <$> registers) ∧
    tcp_client_main kind_text socket_addr addr_text connect
      [arg; "1"; value_display start; value_display count] Client_new
      (session_world (mkTransactionId 1) xs) =
      (("connected to " +:+ addr_text address) :: holding_lines start registers ++
         [writing_line start written; "read back: [RegisterValue(4660)]"], (Ok tt, c', wd')) ∧
    inbox _ wd' = [].
Proof.
  intros Hd Hs Hq Hq1 Hle Haddr Hconn.
  destruct (tcp_client_against_the_device errno target conn d start count)
    as (xs & d' & registers & c' & wd' & Ha & Hr & Hrun & Hin); [done..|].
  exists xs, d', registers, c', wd'. split_and!; [done..| |done].
  assert (range_args [arg; "1"; value_display start; value_display count] =
    Ok (mkUnitId 1, start, count)) as Hargs.
  { unfold range_args, value_display. cbn [lookup list_lookup parse value_into Address_value Quantity_value].
    destruct start as [a], count as [q]. destruct Hs, Hq. cbn in *.
    rewrite !from_str_pretty by (unfold U16_MAX; lia). done. }
  pose proof (tcp_client_calls_session (mkUnitId 1) start count Client_new
    (session_world (mkTransactionId 1) xs)) as H1.
  pose proof (tcp_client_calls_prints _ _ _ _ _ _ _ _ _ Hrun) as H2.
  rewrite Hrun in H1. unfold tcp_client_main. change (default _ _) with arg. rewrite Haddr, Hargs.
  unfold mbind, Run_bind, pure. cbn [expect nodelay TcpConfig_default]. rewrite Hconn. cbn.
  destruct (tcp_client_calls _ _ _ _ _ _) as [out rest_]. cbn [fst snd] in *. by subst out rest_.
Qed.
End sessions.

(** ** Witness *)

Section witness.
Local Existing Instance winnow_model.
Local Existing Instance winnow_model_spec.
Local Existing Instance crc_model.

(** The command line of the usage text: four registers of a fresh device, from
    address 0. *)
Lemma tcp_client_program_witness :
  ∃ xs d' registers c' wd',
    agreed Tcp_framing (Device_service linux_errno Linux) interop_config console (mkTransactionId 1) xs
      Device_default d' ∧
    device_read (holding Device_default) (mkAddress 0) (mkQuantity 4) =
      inl (register_value_0 <$> registers) ∧
    tcp_client_main (λ _, "") (λ _, Some (mkSocketAddr (V4 0x7F000001) 5030)) (λ _, "127.0.0.1:5030")
      (λ _ _, Ok tt) ["127.0.0.1:5030"; "1"; "0"; "4"] Client_new
      (session_world (mkTransactionId 1) xs) =
      ("connected to 127.0.0.1:5030" :: holding_lines (mkAddress 0) registers ++
         ["writing 0 = 0x1234"; "read back: [RegisterValue(4660)]"], (Ok tt, c', wd')) ∧
    inbox _ wd' = [].
Proof.
  apply (tcp_client_program (λ _, "") linux_errno Linux console Device_default
    (λ _, Some (mkSocketAddr (V4 0x7F000001) 5030)) (λ _, "127.0.0.1:5030") (λ _ _, Ok tt)
    "127.0.0.1:5030" (mkSocketAddr (V4 0x7F000001) 5030) (mkAddress 0) (mkQuantity 4));
    [apply default_ok|by_eval..|done|done].
Defined.
End witness.
