(* ===== verification/ServerLife.v ===== *)
(** * The life of a server ([src/server/mod.rs], [src/server/handle.rs])

    [serve_framed], the tasks it spawns and the handles that stop it run
    concurrently; the interleavings are the runs of a step relation.  The
    [JoinSet] holds one entry per spawned task until [join_next] takes it, and
    each running part of the server holds a receiver of the shutdown signal. *)

From S2P Require Import Prelude.
From S2P Require Import Errors.
From S2P Require Import Server.

(** Where the accepting task is: before [serve], waiting to accept, waiting for
    [on_accept_error], joining the connections, or returned. *)
Inductive Serving :=
  | NotStarted
  | Accepting
  | InHook (error : Error)
  | Draining (result : Result unit)
  | ServeReturned (result : Result unit).

Record ServerState := mkServerState {
  next_connection : Z;
  shutdown_signal : bool;
  serving : Serving;
  live : list ConnectionId;
  tasks : list ConnectionId;
}.

(** [Server::with_config]. *)
Definition Server_new : ServerState := mkServerState 1 false NotStarted [] [].

(** [shutdown_requested] on a receiver of the signal: the value it holds, and the
    changes it will see ([changed] fails once the sender is gone).  It has
    returned, or is still waiting at the end of the changes. *)
Inductive WatchChange := Changed (value : bool) | SenderGone.

Fixpoint shutdown_requested (value : bool) (changes : list WatchChange) : bool :=
  if value then true else
  match changes with
  | [] => false
  | SenderGone :: _ => true
  | Changed value' :: changes' => shutdown_requested value' changes'
  end.

(** A request made before the receiver subscribed is not missed, and the signal
    is the only reason to return while the server lives. *)
Lemma shutdown_requested_iff value changes :
  shutdown_requested value changes = true ↔
  value = true ∨ Changed true ∈ changes ∨ SenderGone ∈ changes.
Proof.
  revert value. induction changes as [|[v|] changes IH]; intros []; cbn [shutdown_requested];
    rewrite ?elem_of_cons, ?elem_of_nil, ?IH; intuition congruence.
Qed.

(** The labels that matter to an observer. *)
Inductive Label :=
  | Silent_
  | AcceptedAs (id : ConnectionId)
  | EndedConnection (id : ConnectionId)
  | HookStopped (error : Error)
  | ShutdownRequested.

(** The steps of [serve_framed] with [next_accept], of a connection's task, and
    of [ServerHandle::shutdown].  The selects are biased: nothing is accepted and
    no hook completes once the signal is set. *)
Inductive sstep : ServerState → Label → ServerState → Prop :=
  | ss_start n sig lv tk :
      sstep (mkServerState n sig NotStarted lv tk) Silent_ (mkServerState n sig Accepting lv tk)
  | ss_accept n lv tk i n' :
      next_id n = (i, n') →
      sstep (mkServerState n false Accepting lv tk) (AcceptedAs i)
        (mkServerState n' false Accepting (i :: lv) (i :: tk))
  | ss_accept_error n lv tk e :
      sstep (mkServerState n false Accepting lv tk) Silent_
        (mkServerState n false (InHook e) lv tk)
  | ss_continue n lv tk e :
      sstep (mkServerState n false (InHook e) lv tk) Silent_
        (mkServerState n false Accepting lv tk)
  | ss_stop n lv tk e :
      sstep (mkServerState n false (InHook e) lv tk) (HookStopped e)
        (mkServerState n false (Draining (Err e)) lv tk)
  | ss_signal_accepting n lv tk :
      sstep (mkServerState n true Accepting lv tk) Silent_
        (mkServerState n true (Draining (Ok tt)) lv tk)
  | ss_signal_hook n lv tk e :
      sstep (mkServerState n true (InHook e) lv tk) Silent_
        (mkServerState n true (Draining (Ok tt)) lv tk)
  | ss_end n sig ph lv1 i lv2 tk :
      sstep (mkServerState n sig ph (lv1 ++ i :: lv2) tk) (EndedConnection i)
        (mkServerState n sig ph (lv1 ++ lv2) tk)
  | ss_join n sig r lv tk1 i tk2 :
      i ∉ lv →
      sstep (mkServerState n sig (Draining r) lv (tk1 ++ i :: tk2)) Silent_
        (mkServerState n sig (Draining r) lv (tk1 ++ tk2))
  | ss_return n sig r lv :
      sstep (mkServerState n sig (Draining r) lv []) Silent_
        (mkServerState n sig (ServeReturned r) lv [])
  | ss_shutdown n sig ph lv tk :
      sstep (mkServerState n sig ph lv tk) ShutdownRequested (mkServerState n true ph lv tk).

Inductive ssteps : ServerState → list Label → ServerState → Prop :=
  | ssteps_refl st : ssteps st [] st
  | ssteps_step st l st1 ls st2 : sstep st l st1 → ssteps st1 ls st2 → ssteps st (l :: ls) st2.

Lemma ssteps_app st ls st1 ls' st2 :
  ssteps st ls st1 → ssteps st1 ls' st2 → ssteps st (ls ++ ls') st2.
Proof. induction 1; [done|]. intros. cbn. econstructor; eauto. Qed.

(** The receivers of the signal: the accepting task's while it serves, and one
    per running connection. *)
Definition receivers (st : ServerState) : Z :=
  match serving st with NotStarted | ServeReturned _ => 0 | _ => 1 end + len (live st).

(** [signal.closed()] completes, and with it [ServerHandle::shutdown]; and
    [is_shutting_down]. *)
Definition shutdown_completes (st : ServerState) : Prop := receivers st = 0.
Definition is_shutting_down (st : ServerState) : bool := shutdown_signal st.

(** The connections a run accepted, in order. *)
Definition accepted_ids (ls : list Label) : list ConnectionId :=
  omap (λ l, match l with AcceptedAs i => Some i | _ => None end) ls.

(** ** The invariant *)

Record life_inv (st : ServerState) : Prop := {
  li_live : live st ⊆ tasks st;
  li_idle : serving st = NotStarted → tasks st = [];
  li_done : ∀ r, serving st = ServeReturned r → tasks st = [];
}.

Lemma elem_of_middle {A} (x i : A) l1 l2 : x ∈ l1 ++ l2 → x ∈ l1 ++ i :: l2.
Proof. rewrite !elem_of_app, elem_of_cons. tauto. Qed.

Lemma sstep_inv st l st' : life_inv st → sstep st l st' → life_inv st'.
Proof.
  intros [Hl Hi Hd] Hs. destruct Hs; split; cbn in *; try done; try (by intros [=]).
  - intros x [->|?]%elem_of_cons; apply elem_of_cons; [by left|right; by apply Hl].
  - intros x Hx. by apply Hl, elem_of_middle.
  - intros x Hx. pose proof (Hl x Hx) as Ht. rewrite elem_of_app, elem_of_cons in Ht.
    rewrite elem_of_app. destruct Ht as [?|[->|?]]; [by left|done|by right].
Qed.

Lemma ssteps_inv st ls st' : life_inv st → ssteps st ls st' → life_inv st'.
Proof. intros Hi Hs. induction Hs; eauto using sstep_inv. Qed.

Lemma life_inv_new : life_inv Server_new.
Proof. by split. Qed.

(** A server with no task has nothing live. *)
Lemma no_tasks_no_live st : life_inv st → tasks st = [] → live st = [].
Proof.
  intros [Hl _ _] Ht. rewrite Ht in Hl. destruct (live st) as [|x l]; [done|].
  exfalso. apply (not_elem_of_nil x), Hl, list_elem_of_here.
Qed.

(** Once set the signal stays set, and nothing is accepted any more. *)
Lemma signal_forever st ls st' :
  ssteps st ls st' → shutdown_signal st = true → shutdown_signal st' = true ∧ accepted_ids ls = [].
Proof.
  induction 1 as [|st l st1 ls st2 H1 Hs IH]; [done|]. intros Ht.
  assert (shutdown_signal st1 = true ∧ accepted_ids [l] = []) as [H2 H3].
  { destruct H1; cbn in *; done. }
  destruct (IH H2) as [? Hls]. split; [done|].
  change (l :: ls) with ([l] ++ ls). unfold accepted_ids in *. by rewrite omap_app, H3, Hls.
Qed.

(** What a return says. *)
Definition justified (r : Result unit) (sig : bool) (ls : list Label) : Prop :=
  (r = Ok tt ∧ sig = true) ∨ (∃ e, r = Err e ∧ HookStopped e ∈ ls).

Definition return_ok (st : ServerState) (ls : list Label) : Prop :=
  ∀ r, (serving st = Draining r ∨ serving st = ServeReturned r) →
    justified r (shutdown_signal st) ls.

Lemma justified_mono r (sig sig' : bool) ls l :
  justified r sig ls → (sig = true → sig' = true) → justified r sig' (ls ++ [l]).
Proof.
  intros [[-> Hs]|(e & -> & He)] Hi; [left; auto|right]. exists e. split; [done|].
  apply elem_of_app. by left.
Qed.

Lemma return_ok_step st l st' ls :
  return_ok st ls → sstep st l st' → return_ok st' (ls ++ [l]).
Proof.
  intros Hr Hs r Hph. destruct Hs; cbn in *; try (destruct Hph as [[=]|[=]]; subst; fail).
  all: try (eapply justified_mono; [apply Hr; cbn; tauto|done]; fail).
  all: destruct Hph as [[=]|[=]]; subst; try (by left).
  - right. exists e. split; [done|]. apply elem_of_app. right. apply list_elem_of_here.
  - eapply justified_mono; [apply Hr; cbn; by left|done].
Qed.

Lemma return_ok_steps st ls st' :
  ssteps st ls st' → ∀ pre, return_ok st pre → return_ok st' (pre ++ ls).
Proof.
  induction 1 as [|st l st1 ls st2 H1 Hs IH]; intros pre Hp; [by rewrite app_nil_r|].
  change (l :: ls) with ([l] ++ ls). rewrite app_assoc. apply IH. by eapply return_ok_step.
Qed.

(** ** Graceful shutdown *)

(** Shutdown is graceful and final.  In every run of a server, when
    [ServerHandle::shutdown] is answered no connection handler is running, and
    serving has returned unless it never began; serving returns success only if
    shutdown was requested and failure only if the service chose to stop, with
    every connection finished either way; and once shutdown is requested no
    connection is ever accepted again (SV-R-041, SV-R-043, SV-R-044, SV-R-067). *)
Lemma shutdown_is_graceful ls st :
  ssteps Server_new ls st →
  (shutdown_completes st → live st = [] ∧
     (serving st = NotStarted ∨ ∃ r, serving st = ServeReturned r)) ∧
  (∀ r, serving st = ServeReturned r → live st = [] ∧
     ((r = Ok tt ∧ is_shutting_down st = true) ∨ (∃ e, r = Err e ∧ HookStopped e ∈ ls))) ∧
  (∀ ls' st', is_shutting_down st = true → ssteps st ls' st' → accepted_ids ls' = []).
Proof.
  intros Hs. pose proof (ssteps_inv _ _ _ life_inv_new Hs) as Hinv. split_and!.
  - unfold shutdown_completes, receivers. pose proof (len_nonneg (live st)) as Hn. intros Hr.
    assert (len (live st) = 0) as H0 by (destruct (serving st); lia).
    split; [by apply nil_length_inv; unfold len in H0; lia|].
    destruct (serving st); try lia; eauto.
  - intros r Hr. split; [by eapply no_tasks_no_live, li_done|].
    apply (return_ok_steps _ _ _ Hs []); [|by right]. intros r' [[=]|[=]].
  - intros ls' st' Ht Hs'. by eapply signal_forever.
Qed.

(** ** Identifiers and the join set *)

Definition count_accepted (ls : list Label) : Z := len (accepted_ids ls).

Lemma accepted_ids_app ls ls' : accepted_ids (ls ++ ls') = accepted_ids ls ++ accepted_ids ls'.
Proof. apply omap_app. Qed.

(** Whether serving still accepts, or may again. *)
Definition accepts (ph : Serving) : bool :=
  match ph with NotStarted | Accepting | InHook _ => true | _ => false end.

(** The identifiers handed out from [n] on. *)
Definition ids_from (n : Z) (k : nat) : list ConnectionId := mkConnectionId <$> seqZ n (Z.of_nat k).

Lemma ids_from_S n k : ids_from n (S k) = mkConnectionId n :: ids_from (n + 1) k.
Proof. unfold ids_from. rewrite seqZ_cons by lia. cbn. by rewrite Nat2Z.inj_succ, Z.pred_succ, Z.add_1_r. Qed.

Lemma drains_forever st ls st' :
  ssteps st ls st' → accepts (serving st) = false → accepts (serving st') = false.
Proof.
  induction 1 as [|st l st1 ls st2 H1 Hs IH]; [done|]. intros Ha. apply IH.
  by destruct H1.
Qed.

Lemma ssteps_ids st ls st' :
  ssteps st ls st' → 1 ≤ next_connection st →
  next_connection st + count_accepted ls < 2 ^ 64 →
  accepted_ids ls = ids_from (next_connection st) (length (accepted_ids ls)) ∧
  (accepts (serving st') = true → len (tasks st') = len (tasks st) + count_accepted ls).
Proof.
  induction 1 as [st|st l st1 ls st2 H1 Hs IH]; intros Hn Hb.
  { split; [done|]. intros _. unfold count_accepted. cbn. unfold len. cbn. lia. }
  unfold count_accepted in *. change (l :: ls) with ([l] ++ ls) in *.
  rewrite accepted_ids_app in *. pose proof (len_nonneg (accepted_ids ls)) as Hp.
  destruct H1; cbn [accepted_ids omap list_omap app] in *;
    cbn [next_connection serving tasks] in *; try (apply IH; done).
  - unfold next_id in H. injection H as <- <-. rewrite len_cons in Hb.
    rewrite Z.mod_small in * by lia. destruct IH as [IH1 IH2]; [lia..|].
    split; [cbn [length]; by rewrite ids_from_S, <- IH1|].
    intros Ha. rewrite IH2 by done. rewrite !len_cons. lia.
  - destruct (IH Hn Hb) as [IH1 IH2]. split; [done|]. intros Ha. by rewrite (drains_forever _ _ _ Hs) in Ha.
Qed.

(** Connections are told apart: the identifiers of a server's connections
    are 1, 2, 3 and so on in the order of acceptance, so no two are equal and
    none is the one datagrams carry, for the first 2^64 - 2 of them (SV-R-031,
    SV-R-066). *)
Lemma connection_ids_distinct ls st :
  ssteps Server_new ls st → count_accepted ls < 2 ^ 64 - 1 →
  accepted_ids ls = ids_from 1 (length (accepted_ids ls)) ∧
  NoDup (accepted_ids ls) ∧ UDP_CONNECTION ∉ accepted_ids ls.
Proof.
  intros Hs Hb. destruct (ssteps_ids _ _ _ Hs) as [Hi _]; [cbn; lia..|].
  cbn [next_connection Server_new] in Hi. split; [done|]. rewrite Hi. unfold ids_from. split.
  - apply NoDup_fmap_2; [by intros ?? [=]|apply NoDup_seqZ].
  - intros (z & Hz & Hin)%list_elem_of_fmap. apply elem_of_seqZ in Hin. injection Hz as Hz. lia.
Qed.

(** The join set only grows while a server accepts: it holds one entry for
    every connection ever accepted, finished or not, because finished tasks are
    joined only when serving ends. *)
Lemma join_set_never_shrinks ls st :
  ssteps Server_new ls st → count_accepted ls < 2 ^ 64 - 1 → accepts (serving st) = true →
  len (tasks st) = count_accepted ls.
Proof.
  intros Hs Hb Ha. destruct (ssteps_ids _ _ _ Hs) as [_ Ht]; [cbn; lia..|]. by apply Ht.
Qed.

(** ** Shutdown completes *)

Lemma end_all n sig ph lv tk :
  ∃ ls, ssteps (mkServerState n sig ph lv tk) ls (mkServerState n sig ph [] tk).
Proof.
  induction lv as [|i lv [ls IH]]; [eexists; constructor|].
  exists (EndedConnection i :: ls). econstructor; [|exact IH]. apply (ss_end n sig ph [] i lv).
Qed.

Lemma join_all n sig r tk :
  ∃ ls, ssteps (mkServerState n sig (Draining r) [] tk) ls
    (mkServerState n sig (ServeReturned r) [] []).
Proof.
  induction tk as [|i tk [ls IH]].
  - exists [Silent_]. econstructor; [apply ss_return|constructor].
  - exists (Silent_ :: ls). econstructor; [|exact IH].
    apply (ss_join n sig r [] [] i tk), not_elem_of_nil.
Qed.

Lemma signal_drains n ph lv tk :
  ph ≠ NotStarted →
  (∃ ls r, ssteps (mkServerState n true ph lv tk) ls (mkServerState n true (Draining r) lv tk)) ∨
  ∃ r, ph = ServeReturned r.
Proof.
  intros Hp. destruct ph as [| |e|r|r]; [done|left..|right; eauto].
  - exists [Silent_], (Ok tt). econstructor; [apply ss_signal_accepting|constructor].
  - exists [Silent_], (Ok tt). econstructor; [apply ss_signal_hook|constructor].
  - exists [], r. constructor.
Qed.

(** A requested shutdown is never stuck: from every state of a started
    server the steps that remain lead to the return of serving and of
    [ServerHandle::shutdown]. *)
Lemma shutdown_can_complete ls st :
  ssteps Server_new ls st → is_shutting_down st = true → serving st ≠ NotStarted →
  ∃ ls' st' r, ssteps st ls' st' ∧ serving st' = ServeReturned r ∧ shutdown_completes st'.
Proof.
  intros Hs Ht Hp. pose proof (ssteps_inv _ _ _ life_inv_new Hs) as Hinv.
  destruct st as [n sig ph lv tk]. cbn in Ht, Hp. subst sig.
  destruct (signal_drains n ph lv tk Hp) as [(ls1 & r & H1)|[r ->]].
  - destruct (end_all n true (Draining r) lv tk) as [ls2 H2].
    destruct (join_all n true r tk) as [ls3 H3].
    exists (ls1 ++ ls2 ++ ls3), (mkServerState n true (ServeReturned r) [] []), r.
    split_and!; [|done..]. eauto using ssteps_app.
  - exists [], (mkServerState n true (ServeReturned r) lv tk), r. split_and!; [constructor|done|].
    pose proof (no_tasks_no_live _ Hinv (li_done _ Hinv r eq_refl)) as Hl. cbn in Hl. by subst lv.
Qed.
