(* ===== verification/Concurrent.v ===== *)
(** * A server and its connections, running ([src/server/mod.rs])

    [serve_framed] with the tasks it spawns, each serving its own transport, and
    the handle that stops them.  A task runs from one await to the next; what
    happens when is the list of events of a run, so a run is any interleaving.
    Tasks share the service and nothing else.  A task may stay inside a hook while
    others run, and the hook takes effect in the step that completes it; the log
    keeps the calls in the order they completed.  [Suspending] has [on_request] act
    on the service while it waits, and says when that makes no difference. *)

From S2P Require Import Prelude.
From S2P Require Import Errors.
From S2P Require Import Value.
From S2P Require Import Pdu.
From S2P Require Import Framing.
From S2P Require Import Transport.
From S2P Require Import Outgoing.
From S2P Require Import Framed.
From S2P Require Import Server.
From S2P Require Import Link.
From S2P Require Import ServerLife.

(** What a service answers a request with. *)
Local Abbreviation Answer := (option ResponsePdu + ExceptionCode)%type.

(** A call of a hook, with what it returned; the calls for a connection carry the
    number of its task. *)
Inductive HookCall :=
  | ConnectHook (k : nat) (conn : Connection) (answer : Acceptance)
  | RequestHook (k : nat) (conn : Connection) (unit : UnitId) (request : RequestPdu) (answer : Answer)
  | ErrorHook (k : nat) (conn : Connection) (error : Error)
  | DisconnectHook (k : nat) (conn : Connection) (reason : Disconnect)
  | AcceptErrorHook (error : Error) (answer : AcceptErrorAction).

Section server.
Context (F : Framing) {SF : ServerFraming F} (svc : Service) (config : ServerConfig).

(** ** The task of a connection *)

(** Where [serve_connection] is: before [on_connect], at the select of
    [exchange], inside [on_request], before the send of a response, before
    [on_disconnect]; or it has returned, and then been joined. *)
Inductive TaskPhase :=
  | Spawned
  | Exchanging
  | Handling (header : Header F) (request : RequestPdu)
  | Sending (header : Header F) (response : ResponsePdu)
  | Ending (reason : Disconnect)
  | TaskDone (outcome : Result unit)
  | TaskJoined (outcome : Result unit).

(** A task, and the stream its connection was accepted with. *)
Record ConnTask := mkConnTask {
  ct_conn : Connection;
  ct_stream : Stream;
  ct_transport : FrameTransport F;
  ct_phase : TaskPhase;
}.

Definition spawned (conn : Connection) (stream : Stream) : ConnTask :=
  mkConnTask conn stream (FrameTransport_new stream) Spawned.

Definition moved (phase : TaskPhase) (t : FrameTransport F) (task : ConnTask) : ConnTask :=
  mkConnTask (ct_conn task) (ct_stream task) t phase.

(** The outcome of [serve_connection] for a reason. *)
Definition outcome_of (reason : Disconnect) : Result unit :=
  match reason with DisconnectFailed error => Err error | _ => Ok tt end.

(** A failure reported to the service: the task goes on, or ends. *)
Definition reporting (k : nat) (task : ConnTask) (t : FrameTransport F) (error : Error) (ends : bool)
    (s : SvcState svc) : ConnTask * SvcState svc * list HookCall :=
  (moved (if ends then Ending (DisconnectFailed error) else Exchanging) t task,
   on_error svc (ct_conn task) error s, [ErrorHook k (ct_conn task) error]).

(** [serve_connection] and [exchange], from one await to the next.  A receive or
    a send that its stream does not let finish waits. *)
Definition run_task (k : nat) (signal : bool) (task : ConnTask) (s : SvcState svc)
    : ConnTask * SvcState svc * list HookCall :=
  let conn := ct_conn task in
  let t := ct_transport task in
  match ct_phase task with
  | Spawned =>
      let '(answer, s') := on_connect svc conn s in
      (moved (match answer with Accept => Exchanging | Reject => Ending Rejected end) t task, s',
       [ConnectHook k conn answer])
  | Exchanging =>
      if signal then (moved (Ending ShuttingDown) t task, s, []) else
      match ft_recv_request t with
      | Unfinished _ => (task, s, [])
      | Finished Panic t' => (moved (TaskDone Panic) t' task, s, [])
      | Finished (Err (Io UnexpectedEof _)) t' => (moved (Ending Closed) t' task, s, [])
      | Finished (Err error) t' =>
          reporting k task t' error (ends_stream error || negb (is_self_locating (boundary F))) s
      | Finished (Ok (header, request)) t' =>
          let unit := unit_of header in
          (moved (if negb (addresses_all unit) && foreign config unit then Exchanging
                  else Handling header request) t' task, s, [])
      end
  | Handling header request =>
      let unit := unit_of header in
      let '(answer, s') := on_request svc conn unit request s in
      (moved (match response_of (RequestPdu_function request) answer with
              | None => Exchanging
              | Some response => if addresses_all unit then Exchanging else Sending header response
              end) t task, s', [RequestHook k conn unit request answer])
  | Sending header response =>
      match ft_send_response header response t with
      | Unfinished _ => (task, s, [])
      | Finished (Ok _) t' => (moved Exchanging t' task, s, [])
      | Finished (Err error) t' => reporting k task t' error (ends_stream error) s
      | Finished Panic t' => (moved (TaskDone Panic) t' task, s, [])
      end
  | Ending reason =>
      (moved (TaskDone (outcome_of reason)) t task, on_disconnect svc conn reason s,
       [DisconnectHook k conn reason])
  | TaskDone _ | TaskJoined _ => (task, s, [])
  end.

(** ** The server *)

Record Running := mkRunning {
  rn_next : Z;
  rn_signal : bool;
  rn_serving : Serving;
  rn_tasks : list ConnTask;
  rn_service : SvcState svc;
  rn_log : list HookCall;
}.

(** [Server::with_config], and a listener. *)
Definition Running_new (s : SvcState svc) : Running := mkRunning 1 false NotStarted [] s [].

Inductive RunEvent :=
  | Serve
  | Arrive (stream : Stream) (peer : SocketAddr)
  | FailAccept (error : Error)
  | PollAccept
  | PollTask (k : nat)
  | JoinTask (k : nat)
  | ReturnServe
  | Shutdown.

Definition with_serving (phase : Serving) (st : Running) : Running :=
  mkRunning (rn_next st) (rn_signal st) phase (rn_tasks st) (rn_service st) (rn_log st).

Definition with_task (k : nat) (task : ConnTask) (s : SvcState svc) (calls : list HookCall)
    (st : Running) : Running :=
  mkRunning (rn_next st) (rn_signal st) (rn_serving st) (<[k := task]> (rn_tasks st)) s
    (rn_log st ++ calls).

(** The selects of [next_accept]: the signal wins, and drops a pending hook. *)
Definition poll_accept (st : Running) : Running :=
  match rn_serving st, rn_signal st with
  | Accepting, true | InHook _, true => with_serving (Draining (Ok tt)) st
  | InHook error, false =>
      let '(action, s') := on_accept_error svc error (rn_service st) in
      mkRunning (rn_next st) (rn_signal st)
        (match action with StopServing => Draining (Err error) | ContinueServing => Accepting end)
        (rn_tasks st) s' (rn_log st ++ [AcceptErrorHook error action])
  | _, _ => st
  end.

Definition is_joined (task : ConnTask) : bool :=
  match ct_phase task with TaskJoined _ => true | _ => false end.

(** One event; one that cannot happen changes nothing. *)
Definition rstep (ev : RunEvent) (st : Running) : Running :=
  match ev with
  | Serve => match rn_serving st with NotStarted => with_serving Accepting st | _ => st end
  | Arrive stream peer =>
      match rn_serving st, rn_signal st with
      | Accepting, false =>
          let '(id, next') := next_id (rn_next st) in
          mkRunning next' false Accepting
            (rn_tasks st ++ [spawned (Connection_new id (Some peer)) stream])
            (rn_service st) (rn_log st)
      | _, _ => st
      end
  | FailAccept error =>
      match rn_serving st, rn_signal st with
      | Accepting, false => with_serving (InHook error) st
      | _, _ => st
      end
  | PollAccept => poll_accept st
  | PollTask k =>
      match rn_tasks st !! k with
      | Some task =>
          let '(task', s', calls) := run_task k (rn_signal st) task (rn_service st) in
          with_task k task' s' calls st
      | None => st
      end
  | JoinTask k =>
      match rn_serving st, rn_tasks st !! k with
      | Draining _, Some task =>
          match ct_phase task with
          | TaskDone outcome => with_task k (moved (TaskJoined outcome) (ct_transport task) task)
                              (rn_service st) [] st
          | _ => st
          end
      | _, _ => st
      end
  | ReturnServe =>
      match rn_serving st with
      | Draining r => if forallb is_joined (rn_tasks st) then with_serving (ServeReturned r) st else st
      | _ => st
      end
  | Shutdown =>
      mkRunning (rn_next st) true (rn_serving st) (rn_tasks st) (rn_service st) (rn_log st)
  end.

Definition rrun (evs : list RunEvent) (st : Running) : Running := foldl (λ st ev, rstep ev st) st evs.
End server.

Arguments Spawned {F}.
Arguments Exchanging {F}.
Arguments Handling {F} header request.
Arguments Sending {F} header response.
Arguments Ending {F} reason.
Arguments TaskDone {F} outcome.
Arguments TaskJoined {F} outcome.
Arguments mkConnTask {F}.
Arguments ct_conn {F}.
Arguments ct_stream {F}.
Arguments ct_transport {F}.
Arguments ct_phase {F}.
Arguments moved {F}.
Arguments spawned {F}.
Arguments is_joined {F}.
Arguments mkRunning {F svc}.
Arguments rn_next {F svc}.
Arguments rn_signal {F svc}.
Arguments rn_serving {F svc}.
Arguments rn_tasks {F svc}.
Arguments rn_service {F svc}.
Arguments rn_log {F svc}.

(** ** Refinement of the life of a server *)

Section life.
Context {F : Framing} {SF : ServerFraming F} {svc : Service} {config : ServerConfig}.

Local Abbreviation task_ := (ConnTask F).
Local Abbreviation running := (Running F svc).

(** The connections whose task still runs, and those whose task is in the join
    set; the last accepted comes first. *)
Definition running_id (task : task_) : option ConnectionId :=
  match ct_phase task with TaskDone _ | TaskJoined _ => None | _ => Some (id (ct_conn task)) end.
Definition unjoined_id (task : task_) : option ConnectionId :=
  if is_joined task then None else Some (id (ct_conn task)).

Definition life_of (st : running) : ServerState :=
  mkServerState (rn_next st) (rn_signal st) (rn_serving st)
    (reverse (omap running_id (rn_tasks st))) (reverse (omap unjoined_id (rn_tasks st))).

Lemma insert_split {A} (l : list A) k x :
  l !! k = Some x →
  ∃ l1 l2, l = l1 ++ x :: l2 ∧ length l1 = k ∧ ∀ y, <[k := y]> l = l1 ++ y :: l2.
Proof.
  intros Hk. pose proof (lookup_lt_Some _ _ _ Hk) as Hlt.
  exists (take k l), (drop (S k) l). split_and!.
  - by rewrite take_drop_middle.
  - rewrite length_take. lia.
  - intros y. by apply insert_take_drop.
Qed.

Lemma ids_split (f : task_ → option ConnectionId) l1 x l2 :
  reverse (omap f (l1 ++ x :: l2)) =
  reverse (omap f l2) ++ option_list (f x) ++ reverse (omap f l1).
Proof.
  rewrite omap_app, reverse_app. cbn [omap list_omap]. destruct (f x); cbn [option_list]; [|done].
  by rewrite reverse_cons, <- app_assoc.
Qed.

(** A task that waits for a request, by what its receive yields. *)
Lemma run_task_exchanging k (task : task_) s :
  ct_phase task = Exchanging →
  run_task F svc config k false task s =
  match ft_recv_request (ct_transport task) with
  | Unfinished _ => (task, s, [])
  | Finished Panic t' => (moved (TaskDone Panic) t' task, s, [])
  | Finished (Err error) t' =>
      if is_eof error then (moved (Ending Closed) t' task, s, [])
      else reporting F svc k task t' error (gives_up (F := F) error) s
  | Finished (Ok (header, request)) t' =>
      let unit := unit_of header in
      (moved (if negb (addresses_all unit) && foreign config unit then Exchanging
              else Handling header request) t' task, s, [])
  end.
Proof.
  intros E. unfold run_task. rewrite E.
  destruct (ft_recv_request (ct_transport task)) as [[|e|]|]; try done.
  destruct e as []; try done. by destruct kind.
Qed.

(** What a task's step does to those lists. *)
Lemma run_task_ids k signal (task task' : task_) s s' calls :
  run_task F svc config k signal task s = (task', s', calls) →
  ct_conn task' = ct_conn task ∧ ct_stream task' = ct_stream task ∧
  unjoined_id task' = unjoined_id task ∧
  (running_id task' = running_id task ∨
   (running_id task = Some (id (ct_conn task)) ∧ running_id task' = None)).
Proof.
  unfold unjoined_id, running_id, is_joined. intros R.
  enough (ct_conn task' = ct_conn task ∧ ct_stream task' = ct_stream task ∧
    match ct_phase task with
    | TaskDone _ | TaskJoined _ => ct_phase task' = ct_phase task
    | _ => ∀ o, ct_phase task' ≠ TaskJoined o
    end) as (-> & -> & H).
  { split_and!; [done..| |]; destruct (ct_phase task), (ct_phase task'); naive_solver. }
  revert R. destruct (ct_phase task) as [| |h q|h r|reason|o|o] eqn:E.
  2:{ destruct signal; [unfold run_task; rewrite E; by intros [= <- <- <-]|].
      rewrite run_task_exchanging by done. unfold reporting.
      destruct (ft_recv_request _) as [[[h q]|e|] t'|t'];
        [destruct (_ && _)|destruct (is_eof e); [|destruct (gives_up e)]|..];
        intros [= <- <- <-]; cbn; by rewrite ?E. }
  all: unfold run_task, reporting; rewrite E.
  - by destruct (on_connect _ _ _) as [[] s1]; intros [= <- <- <-].
  - destruct (on_request _ _ _ _ _) as [a s1]. intros [= <- <- <-].
    destruct (response_of _ _); [destruct (addresses_all _)|]; done.
  - destruct (ft_send_response _ _ _) as [[[]|e|] t'|t']; [|destruct (ends_stream e)|..];
      intros [= <- <- <-]; cbn; by rewrite ?E.
  - by intros [= <- <- <-].
  - by intros [= <- <- <-].
  - by intros [= <- <- <-].
Qed.

(** Connections are numbered as they come. *)
Record numbered (st : running) : Prop := {
  nb_next : rn_next st = 1 + len (rn_tasks st);
  nb_ids : ∀ k task, rn_tasks st !! k = Some task →
    id (ct_conn task) = mkConnectionId (1 + Z.of_nat k);
}.

Lemma numbered_new s : numbered (Running_new F svc s).
Proof. split; [done|]. intros k task. cbn [rn_tasks Running_new]. by rewrite lookup_nil. Qed.

Lemma numbered_same (st st' : running) :
  rn_next st' = rn_next st → rn_tasks st' = rn_tasks st → numbered st → numbered st'.
Proof. intros E1 E2 [H1 H2]. split; rewrite ?E1, ?E2; done. Qed.

Lemma numbered_insert (st : running) k (task task' : task_) s calls :
  rn_tasks st !! k = Some task → ct_conn task' = ct_conn task → numbered st →
  numbered (with_task F svc k task' s calls st).
Proof.
  intros Hk Hc [H1 H2]. split; cbn.
  - unfold len in *. by rewrite length_insert.
  - intros k' x. destruct (decide (k = k')) as [<-|Hne].
    + rewrite list_lookup_insert_eq by eauto using lookup_lt_Some. intros [= <-].
      rewrite Hc. by apply H2.
    + rewrite list_lookup_insert_ne by done. apply H2.
Qed.

Local Abbreviation step := (rstep F svc config).

Lemma rstep_tasks ev (st : running) : len (rn_tasks st) ≤ len (rn_tasks (step ev st)).
Proof.
  unfold len. destruct ev as [|stream peer|error| |k|k| |]; cbn.
  - destruct (rn_serving st); cbn; lia.
  - destruct (rn_serving st); try lia. destruct (rn_signal st); [lia|]. cbn. rewrite length_app. lia.
  - destruct (rn_serving st); try lia. destruct (rn_signal st); cbn; lia.
  - unfold poll_accept. destruct (rn_serving st), (rn_signal st); try (cbn; lia).
    destruct (on_accept_error _ _ _). cbn. lia.
  - destruct (rn_tasks st !! k); [|lia]. destruct (run_task _ _ _ _ _ _ _) as [[t' s'] calls].
    cbn. rewrite length_insert. lia.
  - destruct (rn_serving st), (rn_tasks st !! k) as [task|]; try lia.
    destruct (ct_phase task); try lia. cbn. rewrite length_insert. lia.
  - destruct (rn_serving st); try lia. destruct (forallb _ _); cbn; lia.
  - lia.
Qed.

Lemma rstep_numbered ev (st : running) :
  len (rn_tasks (step ev st)) < 2 ^ 64 - 1 → numbered st → numbered (step ev st).
Proof.
  intros Hb Hn. destruct ev as [|stream peer|error| |k|k| |]; cbn in Hb |- *.
  - destruct (rn_serving st); try done. by apply (numbered_same st).
  - destruct (rn_serving st); try done. destruct (rn_signal st); [done|]. destruct Hn as [H1 H2].
    cbn in Hb. rewrite len_app in Hb. change (len [_]) with 1 in Hb. split; cbn.
    + rewrite len_app. change (len [_]) with 1. rewrite H1, Z.mod_small; [lia|].
      pose proof (len_nonneg (rn_tasks st)). lia.
    + intros k task. destruct (decide (k < length (rn_tasks st))%nat) as [Hk|Hk].
      * rewrite lookup_app_l by done. apply H2.
      * rewrite lookup_app_r by lia. intros Ht. apply list_lookup_singleton_Some in Ht as [Hk0 <-].
        cbn. rewrite H1. unfold len. f_equal. lia.
  - destruct (rn_serving st); try done. destruct (rn_signal st); [done|]. by apply (numbered_same st).
  - unfold poll_accept. destruct (rn_serving st), (rn_signal st); try done; try by apply (numbered_same st).
    destruct (on_accept_error _ _ _). by apply (numbered_same st).
  - destruct (rn_tasks st !! k) as [task|] eqn:E; [|done].
    destruct (run_task _ _ _ _ _ _ _) as [[t' s'] calls] eqn:R. apply run_task_ids in R as (Hc & _).
    by eapply numbered_insert.
  - destruct (rn_serving st), (rn_tasks st !! k) as [task|] eqn:E; try done.
    destruct (ct_phase task); try done. by eapply numbered_insert.
  - destruct (rn_serving st); try done. destruct (forallb _ _); [|done]. by apply (numbered_same st).
  - by apply (numbered_same st).
Qed.

(** Two states related by at most one step of the server's life, a stop being in
    the log. *)
Definition life_step (st st' : running) : Prop :=
  ∃ ls, ssteps (life_of st) ls (life_of st') ∧
    ∀ e, HookStopped e ∈ ls → AcceptErrorHook e StopServing ∈ rn_log st'.

Lemma life_stays (st st' : running) : life_of st' = life_of st → life_step st st'.
Proof. intros E. exists []. rewrite E. split; [constructor|]. by intros e ?%elem_of_nil. Qed.

Lemma life_moves l (st st' : running) :
  sstep (life_of st) l (life_of st') → (∀ e, l ≠ HookStopped e) → life_step st st'.
Proof.
  intros H Hl. exists [l]. split; [econstructor; [exact H|constructor]|].
  intros e He%list_elem_of_singleton. by destruct (Hl e).
Qed.

Lemma life_poll_accept (st : running) : life_step st (poll_accept F svc st).
Proof.
  destruct st as [n sig ph tasks s log]. unfold poll_accept. cbn.
  destruct ph as [| |e| |], sig; try by apply life_stays.
  - eapply life_moves; [apply ss_signal_accepting|done].
  - eapply life_moves; [apply ss_signal_hook|done].
  - destruct (on_accept_error svc e s) as [[] s'] eqn:E.
    + eapply life_moves; [apply ss_continue|done].
    + exists [HookStopped e]. split; [econstructor; [apply ss_stop|constructor]|].
      intros e' [= ->]%list_elem_of_singleton. cbn. set_solver.
Qed.

(** A step of one task. *)
Lemma life_task (st : running) k (task task' : task_) s calls :
  rn_tasks st !! k = Some task → ct_conn task' = ct_conn task →
  unjoined_id task' = unjoined_id task →
  (running_id task' = running_id task ∨
   (running_id task = Some (id (ct_conn task)) ∧ running_id task' = None)) →
  life_step st (with_task F svc k task' s calls st).
Proof.
  intros Hk Hc Hu Hr. destruct (insert_split _ _ _ Hk) as (l1 & l2 & E & _ & Ei).
  destruct Hr as [Hr|[Hr Hr']].
  - apply life_stays. unfold life_of, with_task. cbn [rn_next rn_signal rn_serving rn_tasks]. rewrite Ei, E, !ids_split, Hu, Hr. done.
  - apply (life_moves (EndedConnection (id (ct_conn task)))); [|done].
    unfold life_of, with_task. cbn [rn_next rn_signal rn_serving rn_tasks]. rewrite Ei, E, !ids_split, Hu, Hr, Hr'. cbn. apply ss_end.
Qed.

Lemma life_join (st : running) k (task : task_) r outcome :
  numbered st → rn_serving st = Draining r → rn_tasks st !! k = Some task →
  ct_phase task = TaskDone outcome →
  life_step st (with_task F svc k (moved (TaskJoined outcome) (ct_transport task) task)
    (rn_service st) [] st).
Proof.
  intros Hn Hd Hk Hp. destruct (insert_split _ _ _ Hk) as (l1 & l2 & E & _ & Ei).
  assert (running_id task = None) as Hr by (unfold running_id; by rewrite Hp).
  assert (unjoined_id task = Some (id (ct_conn task))) as Hu
    by (unfold unjoined_id, is_joined; by rewrite Hp).
  assert (id (ct_conn task) ∉ reverse (omap running_id (rn_tasks st))) as Hni.
  { rewrite elem_of_reverse. intros (x & Hx & Hi)%list_elem_of_omap.
    apply list_elem_of_lookup in Hx as [k' Hk'].
    assert (id (ct_conn x) = id (ct_conn task)) as Heq
      by (unfold running_id in Hi; destruct (ct_phase x); congruence).
    rewrite (nb_ids _ Hn _ _ Hk'), (nb_ids _ Hn _ _ Hk) in Heq. injection Heq as Heq.
    assert (k' = k) as -> by lia. rewrite Hk in Hk'. injection Hk' as <-. congruence. }
  apply (life_moves Silent_); [|done]. unfold life_of, with_task. cbn [rn_next rn_signal rn_serving rn_tasks]. rewrite Ei, Hd. rewrite E in Hni |- *.
  rewrite !ids_split in Hni. rewrite !ids_split. rewrite Hr in Hni. rewrite Hr, Hu.
  by apply ss_join.
Qed.

Lemma rstep_life ev (st : running) : numbered st → life_step st (step ev st).
Proof.
  intros Hn. destruct ev as [|stream peer|error| |k|k| |]; cbn.
  - destruct st as [n sig [] tasks s log]; try by apply life_stays.
    eapply life_moves; [apply ss_start|done].
  - destruct st as [n sig [] tasks s log]; try by apply life_stays. cbn.
    destruct sig; [by apply life_stays|]. eapply life_moves.
    + unfold life_of. cbn [next_id rn_next rn_signal rn_serving rn_tasks]. rewrite !ids_split.
      by apply ss_accept.
    + done.
  - destruct st as [n sig [] tasks s log]; try by apply life_stays. cbn.
    destruct sig; [by apply life_stays|]. eapply life_moves; [apply ss_accept_error|done].
  - apply life_poll_accept.
  - destruct (rn_tasks st !! k) as [task|] eqn:E; [|by apply life_stays].
    destruct (run_task _ _ _ _ _ _ _) as [[t' s'] calls] eqn:R.
    apply run_task_ids in R as (Hc & _ & Hu & Hr). by eapply life_task.
  - destruct (rn_serving st) eqn:Ep, (rn_tasks st !! k) as [task|] eqn:E; try by apply life_stays.
    destruct (ct_phase task) eqn:Et; try by apply life_stays. by eapply life_join.
  - destruct st as [n sig [] tasks s log]; try by apply life_stays. cbn.
    destruct (forallb is_joined tasks) eqn:Hj; [|by apply life_stays].
    apply (life_moves Silent_); [|done].
    unfold life_of, with_serving. cbn [rn_next rn_signal rn_serving rn_tasks].
    replace (omap unjoined_id tasks) with (@nil ConnectionId); [apply ss_return|].
    clear Hn. induction tasks as [|x tasks IH]; [done|]. cbn in Hj |- *.
    apply andb_true_iff in Hj as [Hx Hj]. unfold unjoined_id. rewrite Hx. by apply IH.
  - apply (life_moves ShutdownRequested); [|done]. apply ss_shutdown.
Qed.

(** Calls are only added to the log. *)
Lemma rstep_log ev (st : running) : ∃ calls, rn_log (step ev st) = rn_log st ++ calls.
Proof.
  assert (∃ calls, rn_log st = rn_log st ++ calls) as Hsame by (exists []; by rewrite app_nil_r).
  destruct ev as [|stream peer|error| |k|k| |]; cbn.
  - by destruct (rn_serving st).
  - destruct (rn_serving st); try done. by destruct (rn_signal st).
  - destruct (rn_serving st); try done. by destruct (rn_signal st).
  - unfold poll_accept. destruct (rn_serving st) as [| |e| |], (rn_signal st); try done.
    destruct (on_accept_error svc e (rn_service st)). by eexists.
  - destruct (rn_tasks st !! k); [|done].
    destruct (run_task _ _ _ _ _ _ _) as [[t' s'] calls]. by eexists.
  - destruct (rn_serving st), (rn_tasks st !! k) as [task|]; try done.
    destruct (ct_phase task); try done. by eexists.
  - destruct (rn_serving st); try done. by destruct (forallb _ _).
  - done.
Qed.

Local Abbreviation run := (rrun F svc config).

Lemma rrun_tasks evs (st : running) : len (rn_tasks st) ≤ len (rn_tasks (run evs st)).
Proof.
  revert st. induction evs as [|ev evs IH]; intros st; [done|].
  change (run (ev :: evs) st) with (run evs (step ev st)).
  pose proof (rstep_tasks ev st). specialize (IH (step ev st)). lia.
Qed.

(** A run is a run of the server's life. *)
Lemma rrun_life evs (st : running) :
  numbered st → len (rn_tasks (run evs st)) < 2 ^ 64 - 1 → life_step st (run evs st).
Proof.
  revert st. induction evs as [|ev evs IH]; intros st Hn Hb; [by apply life_stays|].
  change (run (ev :: evs) st) with (run evs (step ev st)) in *.
  pose proof (rrun_tasks evs (step ev st)). destruct (rstep_life ev st Hn) as (ls1 & H1 & S1).
  destruct (IH (step ev st)) as (ls2 & H2 & S2); [apply rstep_numbered; [lia|done]|done|].
  exists (ls1 ++ ls2). split; [by eapply ssteps_app|]. intros e [He|He]%elem_of_app; [|by apply S2].
  apply S1 in He. clear -He. revert He. generalize (step ev st). clear.
  induction evs as [|ev evs IH]; intros st He; [done|]. apply (IH (step ev st)).
  destruct (rstep_log ev st) as [calls ->]. apply elem_of_app. by left.
Qed.

(** Once the signal is set it stays set, and no task is added. *)
Lemma rstep_signal ev (st : running) :
  rn_signal st = true →
  rn_signal (step ev st) = true ∧ length (rn_tasks (step ev st)) = length (rn_tasks st).
Proof.
  intros Hs. destruct ev as [|stream peer|error| |k|k| |]; cbn.
  - by destruct (rn_serving st).
  - rewrite Hs. by destruct (rn_serving st).
  - rewrite Hs. by destruct (rn_serving st).
  - unfold poll_accept. rewrite Hs. by destruct (rn_serving st).
  - destruct (rn_tasks st !! k); [|done]. destruct (run_task _ _ _ _ _ _ _) as [[t' s'] calls].
    cbn. by rewrite length_insert.
  - destruct (rn_serving st), (rn_tasks st !! k) as [task|]; try done.
    destruct (ct_phase task); try done. cbn. by rewrite length_insert.
  - destruct (rn_serving st); try done. by destruct (forallb _ _).
  - done.
Qed.

Lemma rrun_signal evs (st : running) :
  rn_signal st = true →
  rn_signal (run evs st) = true ∧ length (rn_tasks (run evs st)) = length (rn_tasks st).
Proof.
  revert st. induction evs as [|ev evs IH]; intros st Hs; [done|].
  destruct (rstep_signal ev st Hs) as [H1 H2]. destruct (IH _ H1) as [H3 H4].
  split; [done|]. by rewrite <- H2.
Qed.
End life.

(** ** One service, many connections *)

(** A log read back: the service goes through the calls one after the other, and
    each returns what is recorded. *)
Section replay.
Context {F : Framing} {SF : ServerFraming F} {svc : Service} {config : ServerConfig}.

Definition called (call : HookCall) (s s' : SvcState svc) : Prop :=
  match call with
  | ConnectHook _ conn answer => on_connect svc conn s = (answer, s')
  | RequestHook _ conn unit request answer => on_request svc conn unit request s = (answer, s')
  | ErrorHook _ conn error => on_error svc conn error s = s'
  | DisconnectHook _ conn reason => on_disconnect svc conn reason s = s'
  | AcceptErrorHook error answer => on_accept_error svc error s = (answer, s')
  end.

Fixpoint replays (s : SvcState svc) (log : list HookCall) (s' : SvcState svc) : Prop :=
  match log with
  | [] => s' = s
  | call :: log' => ∃ s1, called call s s1 ∧ replays s1 log' s'
  end.

Lemma replays_app s log s1 log' s' :
  replays s log s1 → replays s1 log' s' → replays s (log ++ log') s'.
Proof.
  revert s. induction log as [|call log IH]; intros s; cbn; [by intros ->|].
  intros (s2 & Hc & Hr) H. exists s2. eauto.
Qed.

Lemma run_task_replays k signal (task task' : ConnTask F) s s' calls :
  run_task F svc config k signal task s = (task', s', calls) → replays s calls s'.
Proof.
  destruct (ct_phase task) as [| |h q|h r|reason|o|o] eqn:E.
  2:{ destruct signal; [unfold run_task; rewrite E; by intros [= <- <- <-]|].
      rewrite run_task_exchanging by done. unfold reporting.
      destruct (ft_recv_request _) as [[[h q]|e|] t'|t']; [|destruct (is_eof e)|..];
        intros [= <- <- <-]; cbn; by eauto. }
  all: unfold run_task, reporting; rewrite E.
  - destruct (on_connect _ _ _) as [a s1] eqn:Ec; intros [= <- <- <-]. cbn. by eauto.
  - destruct (on_request _ _ _ _ _) as [a s1] eqn:Er. intros [= <- <- <-]. cbn. by eauto.
  - destruct (ft_send_response _ _ _) as [[[]|e|] t'|t']; intros [= <- <- <-]; cbn; by eauto.
  - intros [= <- <- <-]. cbn. by eauto.
  - by intros [= <- <- <-].
  - by intros [= <- <- <-].
Qed.

Lemma rstep_replays ev s0 (st : Running F svc) :
  replays s0 (rn_log st) (rn_service st) →
  replays s0 (rn_log (rstep F svc config ev st)) (rn_service (rstep F svc config ev st)).
Proof.
  intros H. destruct ev as [|stream peer|error| |k|k| |]; cbn.
  - by destruct (rn_serving st).
  - destruct (rn_serving st); try done. by destruct (rn_signal st).
  - destruct (rn_serving st); try done. by destruct (rn_signal st).
  - unfold poll_accept. destruct (rn_serving st) as [| |e| |], (rn_signal st); try done.
    destruct (on_accept_error svc e (rn_service st)) as [a s1] eqn:E.
    eapply replays_app; [exact H|]. cbn. by eauto.
  - destruct (rn_tasks st !! k); [|done].
    destruct (run_task _ _ _ _ _ _ _) as [[t' s'] calls] eqn:R.
    eapply replays_app; [exact H|]. by eapply run_task_replays.
  - destruct (rn_serving st), (rn_tasks st !! k) as [task|]; try done.
    destruct (ct_phase task); try done. cbn. by rewrite app_nil_r.
  - destruct (rn_serving st); try done. by destruct (forallb _ _).
  - done.
Qed.

Lemma rrun_replays evs s0 (st : Running F svc) :
  replays s0 (rn_log st) (rn_service st) →
  replays s0 (rn_log (rrun F svc config evs st)) (rn_service (rrun F svc config evs st)).
Proof.
  revert st. induction evs as [|ev evs IH]; intros st H; [done|].
  by apply (IH (rstep F svc config ev st)), rstep_replays.
Qed.
End replay.

(** What the service did for the [k]th connection: how it answered the connection
    and its requests. *)
Definition connects (k : nat) (log : list HookCall) : list Acceptance :=
  omap (λ call, match call with
                | ConnectHook k' _ answer => if decide (k' = k) then Some answer else None
                | _ => None
                end) log.
Definition answers_to (k : nat) (log : list HookCall) : list Answer :=
  omap (λ call, match call with
                | RequestHook k' _ _ _ answer => if decide (k' = k) then Some answer else None
                | _ => None
                end) log.

(** A service that gives those answers, in order. *)
Definition Scripted (accept : Acceptance) : Service := {|
  SvcState := list Answer;
  on_request _ _ _ script :=
    match script with
    | answer :: script' => (answer, script')
    | [] => (inr EC_ServerDeviceFailure, [])
    end;
  on_connect _ script := (accept, script);
  on_disconnect _ _ script := script;
  on_error _ _ script := script;
  on_accept_error _ script := (StopServing, script);
  on_receive_error _ script := (StopServing, script);
  on_tls_handshake_failed _ _ script := script;
|}.

Section isolation.
Context {F : Framing} {SF : ServerFraming F} {svc : Service} {config : ServerConfig}.

Section task.
Context (accept : Acceptance) (conn : Connection).

Local Abbreviation alone := (exchange_over F (Scripted accept) config conn).

(** The rest of a pass, and what follows it. *)
Definition then_on (p : Pass * list Answer * FrameTransport F) (fuel : nat) (signals : list bool)
    : option (Poll (list Answer * FrameTransport F) Disconnect) :=
  match p with
  | (PassNext, s, t) => alone fuel signals s t
  | (PassEnd reason, s, t) => Some (Finished (Ok reason) (s, t))
  | (PassPanic, s, t) => Some (Finished Panic (s, t))
  | (PassBlocked, s, t) => Some (Unfinished (s, t))
  end.

Definition sent (header : Header F) (response : ResponsePdu) (s : list Answer) (t : FrameTransport F)
    : Pass * list Answer * FrameTransport F :=
  match ft_send_response header response t with
  | Unfinished t' => (PassBlocked, s, t')
  | Finished (Ok _) t' => (PassNext, s, t')
  | Finished (Err error) t' =>
      (if ends_stream error then PassEnd (DisconnectFailed error) else PassNext, s, t')
  | Finished Panic t' => (PassPanic, s, t')
  end.

(** A task that is somewhere in its exchange is where serving its stream alone,
    with the answers it was given so far, is after some passes. *)
Definition reached (script : list Answer) (t0 : FrameTransport F)
    (next : list Answer → nat → list bool → option (Poll (list Answer * FrameTransport F) Disconnect))
    : Prop :=
  accept = Accept ∧ ∃ n, ∀ fuel signals later,
    alone (n + fuel) (replicate n false ++ signals) (script ++ later) t0 = next later fuel signals.

(** A task that has ended did what serving its stream alone does. *)
Definition concluded (script : list Answer) (t0 t : FrameTransport F) (outcome : Result unit) : Prop :=
  ∃ fuel signals, ∀ later,
    serve_connection_over F (Scripted accept) config conn fuel signals (script ++ later) t0 =
    Some (Finished outcome (later, t)).

Definition in_step (script : list Answer) (t0 t : FrameTransport F) (phase : TaskPhase F) : Prop :=
  match phase with
  | Spawned => False
  | Exchanging => reached script t0 (λ later fuel signals, alone fuel signals later t)
  | Handling h q =>
      reached script t0 (λ later, then_on (answer_over F (Scripted accept) config conn h q later t)) ∧
      negb (addresses_all (unit_of h)) && foreign config (unit_of h) = false
  | Sending h r => reached script t0 (λ later, then_on (sent h r later t))
  | Ending reason => concluded script t0 t (outcome_of reason)
  | TaskDone outcome | TaskJoined outcome => concluded script t0 t outcome
  end.

Lemma concluded_from script t0 t outcome n signals r :
  accept = Accept →
  (∀ later, alone n signals (script ++ later) t0 = Some (Finished r (later, t))) →
  match r with Ok reason => outcome_of reason | Err e => Err e | Panic => Panic end = outcome →
  concluded script t0 t outcome.
Proof.
  intros Ha H <-. exists n, signals. intros later. unfold serve_connection_over.
  cbn [on_connect Scripted]. rewrite H, Ha. cbn. by destruct r.
Qed.

(** One more pass of the loop. *)
Lemma reached_pass script t0 t next :
  reached script t0 (λ later fuel signals, alone fuel signals later t) →
  (∀ fuel signals later, alone (S fuel) (false :: signals) later t = next later fuel signals) →
  reached script t0 next.
Proof.
  intros [Ha [n Hn]] H. split; [done|]. exists (S n). intros fuel signals later.
  rewrite <- H, <- Hn. rewrite replicate_S_end, <- app_assoc. f_equal. lia.
Qed.

Lemma reached_ends script t0 t r t' signal :
  reached script t0 (λ later fuel signals, alone fuel signals later t) →
  (∀ later, alone 1 [signal] later t = Some (Finished r (later, t'))) →
  concluded script t0 t' match r with Ok reason => outcome_of reason | Err e => Err e | Panic => Panic end.
Proof.
  intros [Ha [n Hn]] H. apply (concluded_from _ _ _ _ (n + 1) (replicate n false ++ [signal]) r);
    [done| |done]. intros later. by rewrite Hn.
Qed.

Lemma next_ends script t0 (next : list Answer → nat → list bool → option _) r t' :
  reached script t0 next →
  (∀ later, next later 0%nat [] = Some (Finished r (later, t'))) →
  concluded script t0 t' match r with Ok reason => outcome_of reason | Err e => Err e | Panic => Panic end.
Proof.
  intros [Ha [n Hn]] H. apply (concluded_from _ _ _ _ (n + 0) (replicate n false ++ []) r);
    [done| |done]. intros later. by rewrite Hn.
Qed.

Lemma reached_ext script t0 next next' :
  reached script t0 next →
  (∀ later fuel signals, next later fuel signals = next' later fuel signals) →
  reached script t0 next'.
Proof. intros [Ha [n Hn]] H. split; [done|]. exists n. intros. by rewrite Hn. Qed.

Lemma reached_answer script t0 next next' answer :
  reached script t0 next →
  (∀ later fuel signals, next (answer :: later) fuel signals = next' later fuel signals) →
  reached (script ++ [answer]) t0 next'.
Proof.
  intros [Ha [n Hn]] H. split; [done|]. exists n. intros fuel signals later.
  rewrite <- H, <- Hn. by rewrite <- app_assoc.
Qed.

(** A request, answered with the next answer of the script. *)
Lemma answer_over_scripted h q answer later t :
  negb (addresses_all (unit_of h)) && foreign config (unit_of h) = false →
  answer_over F (Scripted accept) config conn h q (answer :: later) t =
  match response_of (RequestPdu_function q) answer with
  | None => (PassNext, later, t)
  | Some response => if addresses_all (unit_of h) then (PassNext, later, t) else sent h response later t
  end.
Proof.
  intros Hf. unfold answer_over, sent. rewrite Hf. cbn.
  destruct (response_of _ _) as [response|]; [|done]. destruct (addresses_all _); [done|].
  destruct (ft_send_response h response t) as [[[]|e|] t'|t']; try done. by destruct (ends_stream e).
Qed.

Lemma exchanging_in_step k task task' (s s' : SvcState svc) calls script t0 :
  ct_conn task = conn → ct_phase task = Exchanging →
  reached script t0 (λ later fuel signals, alone fuel signals later (ct_transport task)) →
  run_task F svc config k false task s = (task', s', calls) →
  in_step script t0 (ct_transport task') (ct_phase task') ∧ connects k calls = [] ∧ answers_to k calls = [].
Proof.
  intros Hc Hp Hr. rewrite run_task_exchanging by done. unfold reporting.
  destruct (ft_recv_request (ct_transport task)) as [[[h q]|e|] t'|t'] eqn:E.
  - intros [= <- <- <-]. split; [|done]. cbn.
    destruct (negb (addresses_all (unit_of h)) && foreign config (unit_of h)) eqn:Hf; cbn; [|split; [|done]].
    all: eapply reached_pass; [exact Hr|]; intros fuel signals later; cbn [exchange_over hd tl];
      rewrite E; unfold answer_over at 1; rewrite ?Hf; try done.
    unfold answer_over. rewrite Hf. done.
  - destruct (is_eof e) eqn:He; [|destruct (gives_up e) eqn:Hg]; intros [= <- <- <-]; (split; [|done]); cbn.
    + apply (reached_ends script t0 (ct_transport task) (Ok Closed) t' false Hr). intros later.
      rewrite (exchange_over_error _ _ _ _ _ _ _ _ t') by done. by rewrite He.
    + apply (reached_ends script t0 (ct_transport task) (Ok (DisconnectFailed e)) t' false Hr).
      intros later. rewrite (exchange_over_error _ _ _ _ _ _ _ _ t') by done. by rewrite He, Hg.
    + eapply reached_pass; [exact Hr|]. intros fuel signals later.
      rewrite (exchange_over_error _ _ _ _ _ _ _ _ t') by done. by rewrite He, Hg.
  - intros [= <- <- <-]. split; [|done]. cbn.
    apply (reached_ends script t0 (ct_transport task) Panic t' false Hr). intros later.
    cbn [exchange_over hd tl]. by rewrite E.
  - intros [= <- <- <-]. split; [|done]. by rewrite Hp.
Qed.

Lemma sending_in_step k task task' (s s' : SvcState svc) signal calls script t0 h r :
  ct_conn task = conn → ct_phase task = Sending h r →
  reached script t0 (λ later, then_on (sent h r later (ct_transport task))) →
  run_task F svc config k signal task s = (task', s', calls) →
  in_step script t0 (ct_transport task') (ct_phase task') ∧ connects k calls = [] ∧ answers_to k calls = [].
Proof.
  intros Hc Hp Hr. unfold run_task, reporting. rewrite Hp.
  destruct (ft_send_response h r (ct_transport task)) as [[[]|e|] t'|t'] eqn:E.
  - intros [= <- <- <-]. split; [|done]. cbn. eapply reached_ext; [exact Hr|]. intros.
    unfold sent. by rewrite E.
  - destruct (ends_stream e) eqn:Hs; intros [= <- <- <-]; (split; [|done]); cbn.
    + eapply (next_ends script t0 _ (Ok (DisconnectFailed e))); [exact Hr|]. intros.
      unfold sent. by rewrite E, Hs.
    + eapply reached_ext; [exact Hr|]. intros. unfold sent. by rewrite E, Hs.
  - intros [= <- <- <-]. split; [|done]. cbn. eapply (next_ends script t0 _ Panic); [exact Hr|].
    intros. unfold sent. by rewrite E.
  - intros [= <- <- <-]. split; [|done]. by rewrite Hp.
Qed.

(** A step of a task keeps it in step. *)
Lemma run_task_in_step k task task' (s s' : SvcState svc) signal calls script t0 :
  ct_conn task = conn → in_step script t0 (ct_transport task) (ct_phase task) →
  run_task F svc config k signal task s = (task', s', calls) →
  in_step (script ++ answers_to k calls) t0 (ct_transport task') (ct_phase task') ∧
  connects k calls = [].
Proof.
  intros Hc Hi R. destruct (ct_phase task) as [| |h q|h r|reason|o|o] eqn:Hp; [done|..].
  - destruct signal.
    + unfold run_task in R. rewrite Hp in R. injection R as <- <- <-. cbn. rewrite app_nil_r.
      split; [|done]. by apply (reached_ends script t0 (ct_transport task) (Ok ShuttingDown) _ true Hi).
    + eapply exchanging_in_step in R as (H & -> & ->); [|done..]. by rewrite app_nil_r.
  - destruct Hi as [Hi Hf]. unfold run_task in R. rewrite Hp in R.
    destruct (on_request svc (ct_conn task) (unit_of h) q s) as [a s1]. injection R as <- <- <-.
    cbn. rewrite decide_True by done. split; [|done].
    destruct (response_of (RequestPdu_function q) a) as [response|] eqn:Er;
      [destruct (addresses_all (unit_of h)) eqn:Hb|]; cbn.
    all: eapply reached_answer; [exact Hi|]; intros; cbn beta; rewrite answer_over_scripted by (rewrite ?Hb; exact Hf);
      by rewrite Er, ?Hb.
  - eapply sending_in_step in R as (H & -> & ->); [|done..]. by rewrite app_nil_r.
  - unfold run_task in R. rewrite Hp in R. injection R as <- <- <-. cbn. by rewrite app_nil_r.
  - unfold run_task in R. rewrite Hp in R. injection R as <- <- <-. cbn. by rewrite app_nil_r, Hp.
  - unfold run_task in R. rewrite Hp in R. injection R as <- <- <-. cbn. by rewrite app_nil_r, Hp.
Qed.
End task.

(** ** The invariant of a run *)

(** A task and what the log has of it. *)
Definition accounted_for (k : nat) (task : ConnTask F) (log : list HookCall) : Prop :=
  (ct_phase task = Spawned ∧ connects k log = [] ∧ answers_to k log = [] ∧
   ct_transport task = FrameTransport_new (ct_stream task)) ∨
  ∃ accept, connects k log = [accept] ∧
    in_step accept (ct_conn task) (answers_to k log) (FrameTransport_new (ct_stream task))
      (ct_transport task) (ct_phase task).

Record isolated (st : Running F svc) : Prop := {
  is_tasks : ∀ k task, rn_tasks st !! k = Some task → accounted_for k task (rn_log st);
  is_fresh : ∀ k, (length (rn_tasks st) ≤ k)%nat →
    connects k (rn_log st) = [] ∧ answers_to k (rn_log st) = [];
}.

Lemma connects_app k log log' : connects k (log ++ log') = connects k log ++ connects k log'.
Proof. apply omap_app. Qed.
Lemma answers_app k log log' : answers_to k (log ++ log') = answers_to k log ++ answers_to k log'.
Proof. apply omap_app. Qed.

(** Calls for another connection, or for none. *)
Definition foreign_to (k : nat) (calls : list HookCall) : Prop :=
  connects k calls = [] ∧ answers_to k calls = [].

Lemma accounted_foreign k task log calls :
  foreign_to k calls → accounted_for k task log → accounted_for k task (log ++ calls).
Proof.
  intros [H1 H2]. unfold accounted_for. by rewrite connects_app, answers_app, H1, H2, !app_nil_r.
Qed.

Lemma run_task_foreign k k' signal (task task' : ConnTask F) (s s' : SvcState svc) calls :
  run_task F svc config k signal task s = (task', s', calls) → k ≠ k' → foreign_to k' calls.
Proof.
  intros R Hk. unfold foreign_to, connects, answers_to.
  destruct (ct_phase task) as [| |h q|h r|reason|o|o] eqn:E.
  2:{ destruct signal; [unfold run_task in R; rewrite E in R; by injection R as <- <- <-|].
      rewrite run_task_exchanging in R by done. unfold reporting in R.
      destruct (ft_recv_request _) as [[[h q]|e|] t'|t']; [|destruct (is_eof e)|..];
        by injection R as <- <- <-. }
  all: unfold run_task, reporting in R; rewrite E in R.
  - destruct (on_connect _ _ _) as [a s1]. injection R as <- <- <-. cbn. by rewrite decide_False.
  - destruct (on_request _ _ _ _ _) as [a s1]. injection R as <- <- <-. cbn. by rewrite decide_False.
  - destruct (ft_send_response _ _ _) as [[[]|e|] t'|t']; by injection R as <- <- <-.
  - by injection R as <- <- <-.
  - by injection R as <- <- <-.
  - by injection R as <- <- <-.
Qed.

Lemma isolated_new s : isolated (Running_new F svc s).
Proof. split; [|done]. intros k task. cbn [rn_tasks Running_new]. by rewrite lookup_nil. Qed.

(** No task changes. *)
Lemma isolated_same (st st' : Running F svc) calls :
  rn_tasks st' = rn_tasks st → rn_log st' = rn_log st ++ calls → (∀ k, foreign_to k calls) →
  isolated st → isolated st'.
Proof.
  intros E1 E2 Hf [H1 H2]. split; rewrite E1, E2.
  - intros k task Hk. apply accounted_foreign; eauto.
  - intros k Hk. destruct (H2 k Hk) as [Ha Hb], (Hf k) as [Hc Hd].
    by rewrite connects_app, answers_app, Ha, Hb, Hc, Hd.
Qed.

(** One task changes, and the calls are its own. *)
Lemma isolated_task (st : Running F svc) k task task' s calls :
  rn_tasks st !! k = Some task → (∀ k', k ≠ k' → foreign_to k' calls) →
  (accounted_for k task (rn_log st) → accounted_for k task' (rn_log st ++ calls)) →
  isolated st → isolated (with_task F svc k task' s calls st).
Proof.
  intros Hk Hf Ht [H1 H2]. pose proof (lookup_lt_Some _ _ _ Hk) as Hlt.
  split; cbn [with_task rn_tasks rn_log].
  - intros k' x. destruct (decide (k = k')) as [<-|Hne].
    + rewrite list_lookup_insert_eq by done. intros [= <-]. eauto.
    + rewrite list_lookup_insert_ne by done. intros Hx. apply accounted_foreign; eauto.
  - rewrite length_insert. intros k' Hk'. destruct (H2 k' Hk') as [Ha Hb].
    destruct (Hf k') as [Hc Hd]; [lia|]. by rewrite connects_app, answers_app, Ha, Hb, Hc, Hd.
Qed.

(** The step of a task, in its first phase and in every other. *)
Lemma run_task_accounted k signal (task task' : ConnTask F) (s s' : SvcState svc) calls log :
  run_task F svc config k signal task s = (task', s', calls) →
  accounted_for k task log → accounted_for k task' (log ++ calls).
Proof.
  intros R. pose proof (run_task_ids _ _ _ _ _ _ _ R) as (Hc & Hs & _). unfold accounted_for.
  rewrite connects_app, answers_app, Hc, Hs. intros [(Hp & H1 & H2 & Ht)|(accept & H1 & Hi)]; right.
  - unfold run_task in R. rewrite Hp in R.
    destruct (on_connect svc (ct_conn task) s) as [accept s1]. injection R as <- <- <-.
    exists accept. rewrite H1, H2. cbn. rewrite decide_True by done. split; [done|].
    destruct accept; cbn.
    + split; [done|]. exists O. intros. by rewrite Ht.
    + exists O, []. intros. by rewrite Ht.
  - apply (run_task_in_step accept (ct_conn task)) with
      (script := answers_to k log) (t0 := FrameTransport_new (ct_stream task)) in R as [H ->]; [|done..].
    exists accept. by rewrite H1.
Qed.

Lemma rstep_isolated ev (st : Running F svc) : isolated st → isolated (rstep F svc config ev st).
Proof.
  intros Hi.
  assert (∀ st' : Running F svc, rn_tasks st' = rn_tasks st → rn_log st' = rn_log st → isolated st')
    as Hsame.
  { intros st' E1 E2. apply (isolated_same st st' []); [done|by rewrite app_nil_r|done|done]. }
  destruct ev as [|stream peer|error| |k|k| |]; cbn.
  - destruct (rn_serving st); try done. by apply Hsame.
  - destruct (rn_serving st); try done. destruct (rn_signal st); [done|]. destruct Hi as [H1 H2].
    split; cbn [rn_tasks rn_log].
    + intros k task. destruct (decide (k < length (rn_tasks st))%nat) as [Hk|Hk].
      * rewrite lookup_app_l by done. apply H1.
      * rewrite lookup_app_r by lia. intros Ht. apply list_lookup_singleton_Some in Ht as [Hk0 <-].
        destruct (H2 k) as [Ha Hb]; [lia|]. by left.
    + intros k. rewrite length_app. cbn. intros Hk. apply H2. lia.
  - destruct (rn_serving st); try done. destruct (rn_signal st); [done|]. by apply Hsame.
  - unfold poll_accept. destruct (rn_serving st) as [| |e| |], (rn_signal st); try done; try by apply Hsame.
    destruct (on_accept_error svc e (rn_service st)) as [a s1].
    by apply (isolated_same st _ [AcceptErrorHook e a]).
  - destruct (rn_tasks st !! k) as [task|] eqn:E; [|done].
    destruct (run_task _ _ _ _ _ _ _) as [[task' s'] calls] eqn:R.
    eapply isolated_task; eauto using run_task_foreign, run_task_accounted.
  - destruct (rn_serving st), (rn_tasks st !! k) as [task|] eqn:E; try done.
    destruct (ct_phase task) eqn:Hp; try done. eapply isolated_task; [done..| |done].
    rewrite app_nil_r. unfold accounted_for. cbn. rewrite Hp.
    intros [[? _]|(accept & ? & ?)]; [done|]. right. by exists accept.
  - destruct (rn_serving st); try done. destruct (forallb _ _); [|done]. by apply Hsame.
  - by apply Hsame.
Qed.

(** A task that has ended did what serving its stream alone does. *)
Lemma isolated_alone (st : Running F svc) k task outcome :
  isolated st → rn_tasks st !! k = Some task →
  ct_phase task = TaskDone outcome ∨ ct_phase task = TaskJoined outcome →
  ∃ accept fuel signals, connects k (rn_log st) = [accept] ∧
    serve_connection_over F (Scripted accept) config (ct_conn task) fuel signals
      (answers_to k (rn_log st)) (FrameTransport_new (ct_stream task)) =
    Some (Finished outcome ([], ct_transport task)).
Proof.
  intros Hi Hk Hp. destruct (is_tasks _ Hi _ _ Hk) as [(Hs & _)|(accept & Hc & Hin)];
    [destruct Hp; congruence|].
  assert (concluded accept (ct_conn task) (answers_to k (rn_log st))
    (FrameTransport_new (ct_stream task)) (ct_transport task) outcome) as (fuel & signals & H)
    by (destruct Hp as [Hp|Hp]; rewrite Hp in Hin; exact Hin).
  exists accept, fuel, signals. split; [done|]. by rewrite <- (H []), app_nil_r.
Qed.

Lemma rrun_isolated evs (st : Running F svc) : isolated st → isolated (rrun F svc config evs st).
Proof.
  revert st. induction evs as [|ev evs IH]; intros st H; [done|].
  by apply (IH (rstep F svc config ev st)), rstep_isolated.
Qed.
End isolation.

(** ** Draining *)

Section drains.
Context {F : Framing} {SF : ServerFraming F} {svc : Service} {config : ServerConfig}.

(** How many steps a task is from its end, once shutdown is requested. *)
Definition rank (phase : TaskPhase F) : nat :=
  match phase with
  | Handling _ _ => 4
  | Spawned | Sending _ _ => 3
  | Exchanging => 2
  | Ending _ => 1
  | TaskDone _ | TaskJoined _ => 0
  end.

(** A peer that a task owes a response accepts the write, or fails it. *)
Definition unblocked (task : ConnTask F) : Prop :=
  match ct_phase task with
  | Handling _ _ | Sending _ _ => departures (write_half (ft_stream (ct_transport task))) ≠ []
  | _ => True
  end.

Lemma send_finishes h r (t : FrameTransport F) :
  departures (write_half (ft_stream t)) ≠ [] → ∃ res t', ft_send_response h r t = Finished res t'.
Proof.
  intros Hd. unfold ft_send_response, send_over.
  destruct (encode_response_into F h r []) as [[[]|e|] out]; cbn; [|by eauto..].
  destruct (departures (write_half (ft_stream t))) as [|[wr fl] later]; [done|].
  destruct (send wr fl _) as [res tw]. by eauto.
Qed.

Lemma run_task_rank k (task task' : ConnTask F) (s s' : SvcState svc) calls n :
  run_task F svc config k true task s = (task', s', calls) →
  unblocked task → (rank (ct_phase task) ≤ S n)%nat →
  (rank (ct_phase task') ≤ n)%nat ∧ unblocked task'.
Proof.
  unfold unblocked, run_task, reporting. intros R Hu Hn.
  destruct (ct_phase task) as [| |h q|h r|reason|o|o] eqn:Hp.
  - destruct (on_connect _ _ _) as [[] s1]; injection R as <- <- <-; cbn in *; split; (lia || done).
  - injection R as <- <- <-. cbn in *. split; [lia|done].
  - destruct (on_request _ _ _ _ _) as [a s1]. injection R as <- <- <-. cbn in *.
    destruct (response_of _ _); [destruct (addresses_all _)|]; cbn; split; (lia || done).
  - destruct (send_finishes h r (ct_transport task) Hu) as ([[]|e|] & t' & E); rewrite E in R;
      [|destruct (ends_stream e)|]; injection R as <- <- <-; cbn in *; split; (lia || done).
  - injection R as <- <- <-. cbn in *. split; [lia|done].
  - injection R as <- <- <-. rewrite Hp. cbn. split; [lia|done].
  - injection R as <- <- <-. rewrite Hp. cbn. split; [lia|done].
Qed.

(** The accepting task is out of its loop, and shutdown was requested. *)
Definition drained_to (r : Result unit) (st : Running F svc) : Prop :=
  rn_signal st = true ∧ rn_serving st = Draining r.

Local Abbreviation run := (rrun F svc config).

(** Polling one task [n] times. *)
Lemma poll_task n k (st : Running F svc) task r :
  drained_to r st → rn_tasks st !! k = Some task → unblocked task → (rank (ct_phase task) ≤ n)%nat →
  let st' := run (replicate n (PollTask k)) st in
  drained_to r st' ∧ ∃ task', rn_tasks st' = <[k := task']> (rn_tasks st) ∧ rank (ct_phase task') = O.
Proof.
  revert st task. induction n as [|n IH]; intros st task Hd Hk Hu Hn.
  { split; [done|]. exists task. split; [by rewrite list_insert_id|]. lia. }
  destruct (run_task F svc config k true task (rn_service st)) as [[task1 s1] calls] eqn:R.
  change (run (replicate (S n) (PollTask k)) st)
    with (run (replicate n (PollTask k)) (rstep F svc config (PollTask k) st)).
  assert (rstep F svc config (PollTask k) st = with_task F svc k task1 s1 calls st) as ->.
  { cbn. rewrite Hk. destruct Hd as [-> _]. by rewrite R. }
  eapply run_task_rank in R as [Hr Hu1]; [|done..].
  destruct (IH (with_task F svc k task1 s1 calls st) task1) as (Hd' & task' & Ht & H0);
    [by destruct Hd| |done..|].
  - cbn. apply list_lookup_insert_eq. by eapply lookup_lt_Some.
  - split; [done|]. exists task'. split; [|done]. rewrite Ht. cbn. apply list_insert_insert_eq.
Qed.

(** Polling the tasks of [ks] four times each. *)
Definition polls (ks : list nat) : list RunEvent := ks ≫= λ k, replicate 4 (PollTask k).

Lemma rrun_app evs evs' (st : Running F svc) : run (evs ++ evs') st = run evs' (run evs st).
Proof. unfold rrun. by rewrite foldl_app. Qed.

Lemma poll_tasks ks (st : Running F svc) r :
  drained_to r st → Forall (λ k, k < length (rn_tasks st))%nat ks → Forall unblocked (rn_tasks st) →
  let st' := run (polls ks) st in
  drained_to r st' ∧ length (rn_tasks st') = length (rn_tasks st) ∧
  ∀ k task', rn_tasks st' !! k = Some task' →
    k ∈ ks ∨ (∃ task, rn_tasks st !! k = Some task ∧ rank (ct_phase task) = O) →
    rank (ct_phase task') = O.
Proof.
  revert st. induction ks as [|k ks IH]; intros st Hd Hks Hu.
  { split_and!; [done..|]. intros k task' Hk [[]%elem_of_nil|(task & Hk' & H0)]. cbn in Hk. congruence. }
  inversion_clear Hks as [|? ? Hk Hks']. apply lookup_lt_is_Some_2 in Hk as [task Hk].
  assert (unblocked task) as Hut by (by eapply Forall_lookup_1).
  destruct (poll_task 4 k st task r Hd Hk Hut) as (Hd1 & task1 & Ht1 & H0).
  { destruct (ct_phase task); cbn; lia. }
  change (polls (k :: ks)) with (replicate 4 (PollTask k) ++ polls ks). rewrite rrun_app.
  destruct (IH (run (replicate 4 (PollTask k)) st)) as (Hd2 & Hl2 & H2); [done|..].
  - rewrite Ht1, length_insert. done.
  - rewrite Ht1. apply Forall_insert; [done|]. unfold unblocked. by destruct (ct_phase task1).
  - rewrite Ht1 in Hl2, H2. rewrite length_insert in Hl2. split_and!; [done..|].
    intros k' task' Hk' Hor. apply (H2 _ _ Hk').
    destruct (decide (k = k')) as [<-|Hne].
    + right. exists task1. rewrite list_lookup_insert_eq by (by eapply lookup_lt_Some). done.
    + rewrite list_lookup_insert_ne by done.
      destruct Hor as [[->|]%elem_of_cons|]; [done|by left|by right].
Qed.

(** Joining tasks that are done. *)
Lemma join_tasks ks (st : Running F svc) r :
  drained_to r st → (∀ k task, rn_tasks st !! k = Some task → rank (ct_phase task) = O) →
  let st' := run (JoinTask <$> ks) st in
  drained_to r st' ∧ length (rn_tasks st') = length (rn_tasks st) ∧
  ∀ k task', rn_tasks st' !! k = Some task' →
    k ∈ ks ∨ (∃ task, rn_tasks st !! k = Some task ∧ is_joined task = true) → is_joined task' = true.
Proof.
  revert st. induction ks as [|k ks IH]; intros st Hd H0.
  { split_and!; [done..|]. intros k task' Hk [[]%elem_of_nil|(task & Hk' & Hj)]. cbn in Hk. congruence. }
  change (run (JoinTask <$> k :: ks) st) with (run (JoinTask <$> ks) (rstep F svc config (JoinTask k) st)).
  destruct (rn_tasks st !! k) as [task|] eqn:Hk.
  2:{ assert (rstep F svc config (JoinTask k) st = st) as ->.
      { cbn. rewrite Hk. by destruct (rn_serving st). }
      destruct (IH st Hd H0) as (Hd2 & Hl2 & H2). split_and!; [done..|]. intros k' task' Hk' Hor.
      apply (H2 _ _ Hk'). destruct Hor as [[->|]%elem_of_cons|]; [|by left|by right].
      apply lookup_ge_None in Hk. apply lookup_lt_Some in Hk'. lia. }
  assert (∃ task1, rn_tasks (rstep F svc config (JoinTask k) st) = <[k := task1]> (rn_tasks st) ∧
    is_joined task1 = true ∧ drained_to r (rstep F svc config (JoinTask k) st)) as (task1 & Ht & Hj & Hd1).
  { destruct Hd as [Hs Hp]. cbn. rewrite Hp, Hk. specialize (H0 _ _ Hk).
    destruct (ct_phase task) eqn:Ep; try done.
    - by eexists.
    - exists task. rewrite list_insert_id by done. unfold is_joined. by rewrite Ep. }
  destruct (IH _ Hd1) as (Hd2 & Hl2 & H2).
  { rewrite Ht. intros k' x. destruct (decide (k = k')) as [<-|Hne].
    - rewrite list_lookup_insert_eq by (by eapply lookup_lt_Some). intros [= <-].
      unfold is_joined in Hj. by destruct (ct_phase task1).
    - rewrite list_lookup_insert_ne by done. apply H0. }
  rewrite Ht in Hl2, H2. rewrite length_insert in Hl2. split_and!; [done..|].
  intros k' task' Hk' Hor. apply (H2 _ _ Hk'). destruct (decide (k = k')) as [<-|Hne].
  - right. exists task1. by rewrite list_lookup_insert_eq by (by eapply lookup_lt_Some).
  - rewrite list_lookup_insert_ne by done.
      destruct Hor as [[->|]%elem_of_cons|]; [done|by left|by right].
Qed.

(** The rest of a run after shutdown, for [n] connections. *)
Definition drain (n : nat) : list RunEvent :=
  PollAccept :: polls (seq 0 n) ++ (JoinTask <$> seq 0 n) ++ [ReturnServe].

Lemma poll_accept_drains (st : Running F svc) :
  rn_signal st = true → rn_serving st ≠ NotStarted → (∀ r, rn_serving st ≠ ServeReturned r) →
  ∃ r, drained_to r (poll_accept F svc st) ∧ rn_tasks (poll_accept F svc st) = rn_tasks st.
Proof.
  intros Hs H1 H2. unfold poll_accept, drained_to. rewrite Hs.
  destruct (rn_serving st) as [| |e|r|r] eqn:E; [done|by eexists..| |by destruct (H2 r)].
  exists r. by rewrite Hs, E.
Qed.

Lemma drain_returns (st : Running F svc) :
  rn_signal st = true → rn_serving st ≠ NotStarted → (∀ r, rn_serving st ≠ ServeReturned r) →
  Forall unblocked (rn_tasks st) →
  let st' := run (drain (length (rn_tasks st))) st in
  (∃ r, rn_serving st' = ServeReturned r) ∧ Forall (λ task, is_joined task = true) (rn_tasks st').
Proof.
  intros Hs H1 H2 Hu. destruct (poll_accept_drains st Hs H1 H2) as (r & Hd & Ht).
  set (n := length (rn_tasks st)).
  change (run (drain n) st) with
    (run (polls (seq 0 n) ++ (JoinTask <$> seq 0 n) ++ [ReturnServe]) (poll_accept F svc st)).
  rewrite !rrun_app. destruct (poll_tasks (seq 0 n) (poll_accept F svc st) r Hd) as (Hd1 & Hl1 & P).
  { rewrite Ht. apply Forall_seq. lia. }
  { by rewrite Ht. }
  rewrite Ht in Hl1. destruct (join_tasks (seq 0 n) _ r Hd1) as (Hd2 & Hl2 & J).
  { intros k task Hk. apply (P k task Hk). left. apply elem_of_seq.
    apply lookup_lt_Some in Hk. lia. }
  set (st2 := run (JoinTask <$> seq 0 n) _) in *.
  assert (Forall (λ task, is_joined task = true) (rn_tasks st2)) as Hall.
  { apply Forall_lookup. intros k task Hk. apply (J k task Hk). left. apply elem_of_seq.
    apply lookup_lt_Some in Hk. lia. }
  destruct Hd2 as [_ Hp]. cbn. rewrite Hp.
  assert (forallb is_joined (rn_tasks st2) = true) as ->.
  { apply forallb_forall. intros x Hx. rewrite Forall_forall in Hall. by apply Hall, list_elem_of_In. }
  cbn. by eauto.
Qed.
End drains.
