(* ===== verification/ConcurrentTheorems.v ===== *)
(** * A server and its connections: the claims

    What every run of [Concurrent] has: connections meet only in the service, the
    server's life is that of [ServerLife], and a requested shutdown drains. *)

From S2P Require Import Prelude.
From S2P Require Import Errors.
From S2P Require Import Parse.
From S2P Require Import Value.
From S2P Require Import Pdu.
From S2P Require Import Framing.
From S2P Require Import Tcp.
From S2P Require Import Transport.
From S2P Require Import Outgoing.
From S2P Require Import Framed.
From S2P Require Import Server.
From S2P Require Import Link.
From S2P Require Import ServerLife.
From S2P Require Import Concurrent.

Section claims.
Context {F : Framing} {SF : ServerFraming F} {svc : Service} {config : ServerConfig}.

(** C15. Connections meet only in the service.  In every run of a server, however
    its tasks are interleaved, a connection whose task has ended was admitted once,
    and its outcome, its transport and every byte it wrote are those of serving its
    stream alone with the answers the service gave it; and the state of the service
    is that of its hooks, each taking effect at once when it completes, in the order
    they completed (SV-R-030, SV-R-035). *)
Theorem connections_are_isolated s0 evs :
  let st := rrun F svc config evs (Running_new F svc s0) in
  replays s0 (rn_log st) (rn_service st) ∧
  ∀ k task outcome, rn_tasks st !! k = Some task →
    ct_phase task = TaskDone outcome ∨ ct_phase task = TaskJoined outcome →
    ∃ accept fuel signals, connects k (rn_log st) = [accept] ∧
      serve_connection_over F (Scripted accept) config (ct_conn task) fuel signals
        (answers_to k (rn_log st)) (FrameTransport_new (ct_stream task)) =
      Some (Finished outcome ([], ct_transport task)).
Proof.
  split; [by apply rrun_replays|]. intros k task outcome Hk Hp.
  eapply isolated_alone; [|done..]. apply rrun_isolated, isolated_new.
Qed.

Lemma joined_not_running (tasks : list (ConnTask F)) :
  Forall (λ task, is_joined task = true) tasks → omap running_id tasks = [].
Proof.
  induction 1 as [|task tasks Hj _ IH]; [done|]. cbn.
  assert (running_id task = None) as ->; [|done].
  unfold running_id, is_joined in *. by destruct (ct_phase task).
Qed.

Lemma not_running_joined (tasks : list (ConnTask F)) :
  omap unjoined_id tasks = [] → Forall (λ task, is_joined task = true) tasks.
Proof.
  induction tasks as [|task tasks IH]; [done|]. cbn. unfold unjoined_id at 1.
  destruct (is_joined task) eqn:E; [|done]. intros H. constructor; [done|]. by apply IH.
Qed.

(** C26. A server with its connections lives the life of [ServerLife].  Every run is
    a run of it, so when serving has returned every task has been joined; it has
    returned success only after a shutdown and an error only if the service chose
    to stop at it; and once shutdown is requested no connection is taken up
    (SV-R-041, SV-R-043, SV-R-044, SV-R-067). *)
Theorem server_lives_gracefully s0 evs :
  let st := rrun F svc config evs (Running_new F svc s0) in
  len (rn_tasks st) < 2 ^ 64 - 1 →
  (∃ ls, ssteps Server_new ls (life_of st) ∧
     ∀ e, HookStopped e ∈ ls → AcceptErrorHook e StopServing ∈ rn_log st) ∧
  (∀ r, rn_serving st = ServeReturned r →
     Forall (λ task, is_joined task = true) (rn_tasks st) ∧
     ((r = Ok tt ∧ rn_signal st = true) ∨
      ∃ e, r = Err e ∧ AcceptErrorHook e StopServing ∈ rn_log st)) ∧
  (∀ evs', rn_signal st = true →
     length (rn_tasks (rrun F svc config evs' st)) = length (rn_tasks st)).
Proof.
  intros st Hb. destruct (rrun_life evs _ (numbered_new s0) Hb) as (ls & Hls & Hstop).
  split_and!.
  - by exists ls.
  - intros r Hr. destruct (shutdown_is_graceful ls _ Hls) as (_ & H & _).
    destruct (H r Hr) as [_ Hor]. split.
    + apply not_running_joined. pose proof (ssteps_inv _ _ _ life_inv_new Hls) as Hinv.
      pose proof (li_done _ Hinv r Hr) as Ht. unfold life_of in Ht. cbn [tasks] in Ht.
      apply (f_equal reverse) in Ht. by rewrite reverse_involutive in Ht.
    + destruct Hor as [[-> Hs]|(e & -> & He)]; [by left|right]. eauto.
  - intros evs' Hs. by apply rrun_signal.
Qed.

(** No response is owed. *)
Lemma idle_unblocked (tasks : list (ConnTask F)) :
  forallb (λ task, match ct_phase task with Handling _ _ | Sending _ _ => false | _ => true end) tasks
    = true → Forall unblocked tasks.
Proof.
  intros H. apply Forall_forall. intros task Hin%list_elem_of_In.
  pose proof (proj1 (forallb_forall _ _) H task Hin) as Ht.
  cbn beta in Ht. unfold unblocked. by destruct (ct_phase task).
Qed.

End claims.

(** ** Witnesses *)

Section witness.
Local Existing Instance winnow_model.

(** Two clients of a service with two answers: the first sends a request and
    closes, the second is silent. *)
Definition asking : Stream :=
  mkStream (mkReadHalf [Ready (Bytes [0; 1; 0; 0; 0; 2; 1; 17]); Ready (Bytes [])])
    (mkWriteHalf [(WroteAll, Flushed)] []).
Definition silent_peer : Stream := mkStream (mkReadHalf []) (mkWriteHalf [(WroteAll, Flushed)] []).
Definition somewhere : SocketAddr := mkSocketAddr (V4 0x7F000001) 40000.
Definition two_answers : list (option ResponsePdu + ExceptionCode) :=
  [inl (Some (Resp_ReportServerId [42])); inl None].

Local Abbreviation run := (rrun Tcp_framing (Scripted Accept) (mkServerConfig None)).
Local Abbreviation start := (Running_new Tcp_framing (Scripted Accept) two_answers).

(** The first client is served to its end while the second waits. *)
Definition two_clients : list RunEvent :=
  [Serve; Arrive asking somewhere; Arrive silent_peer somewhere; PollTask 1; PollTask 0; PollTask 1;
   PollTask 0; PollTask 0; PollTask 0; PollTask 0; PollTask 0].

Lemma connections_are_isolated_witness :
  let st := run two_clients start in
  replays (svc := Scripted Accept) two_answers (rn_log st) (rn_service st) ∧
  ∃ task, rn_tasks st !! 0%nat = Some task ∧
    on_wire (write_half (ft_stream (ct_transport task))) = [0; 1; 0; 0; 0; 4; 1; 17; 1; 42] ∧
    ∃ accept fuel signals, connects 0 (rn_log st) = [accept] ∧
      serve_connection_over Tcp_framing (Scripted accept) (mkServerConfig None) (ct_conn task) fuel
        signals (answers_to 0 (rn_log st)) (FrameTransport_new (ct_stream task)) =
      Some (Finished (Ok tt) ([], ct_transport task)).
Proof.
  destruct (connections_are_isolated (F := Tcp_framing) (svc := Scripted Accept)
    (config := mkServerConfig None) two_answers two_clients) as [H1 H2].
  split; [exact H1|].
  assert (match rn_tasks (run two_clients start) !! 0%nat with
          | Some task => match ct_phase task with TaskDone (Ok _) => true | _ => false end
          | None => false
          end = true) as Hp by (vm_compute; reflexivity).
  assert (match rn_tasks (run two_clients start) !! 0%nat with
          | Some task => on_wire (write_half (ft_stream (ct_transport task)))
          | None => []
          end = [0; 1; 0; 0; 0; 4; 1; 17; 1; 42]) as Hw by (vm_compute; reflexivity).
  specialize (H2 0%nat). destruct (rn_tasks (run two_clients start) !! 0%nat) as [task|]; [|discriminate Hp].
  exists task. split; [reflexivity|]. split; [exact Hw|]. apply (H2 task); [reflexivity|]. left.
  destruct (ct_phase task) as [| | | | |[[]| |]|]; try discriminate Hp. reflexivity.
Defined.

(** The same, shut down, drained and returned. *)
Definition shut_down : list RunEvent := two_clients ++ [Shutdown].

Lemma server_lives_gracefully_witness :
  let st := run (shut_down ++ drain 2) start in
  Forall (λ task, is_joined task = true) (rn_tasks st) ∧ rn_signal st = true.
Proof.
  destruct (server_lives_gracefully (F := Tcp_framing) (svc := Scripted Accept)
    (config := mkServerConfig None) two_answers (shut_down ++ drain 2)) as (_ & H & _);
    [vm_compute; reflexivity|].
  destruct (H (Ok tt)) as [Hj _]; [vm_compute; reflexivity|]. split; [exact Hj|vm_compute; reflexivity].
Defined.

End witness.
