(* ===== verification/Suspending.v ===== *)
(** * Hooks that suspend ([src/server/service.rs], [src/server/mod.rs])

    The hooks of a service are asynchronous and share it: while [on_request] of
    one connection waits, those of others run.  Here [on_request] is a future, polled
    from one await to the next; the task of a connection is where it was, in
    [exchange], until the future is ready.  [Concurrent] has the same server with
    hooks that act at once; a service whose [on_request] waits as long as it likes
    and then acts at once is shown to be served as that one is. *)

From stdpp Require Import gmap.
From S2P Require Import Prelude.
From S2P Require Import Errors.
From S2P Require Import Parse.
From S2P Require Import Value.
From S2P Require Import Pdu.
From S2P Require Import Framing.
From S2P Require Import Tcp.
From S2P Require Import Transport.
From S2P Require Import Outgoing.
From S2P Require Import Framed.
From S2P Require Import Server.
From S2P Require Import Link.
From S2P Require Import ServerLife.
From S2P Require Import Concurrent.

Local Abbreviation Answer := (option ResponsePdu + ExceptionCode)%type.

(** A service whose [on_request] may suspend: the future a call of it is, and a
    poll of that future, which goes on to its next await or to its answer.  The
    other hooks, and the state they share, are those of a service. *)
Record AsyncService := mkAsyncService {
  as_svc : Service;
  RequestFuture : Type;
  as_on_request : Connection → UnitId → RequestPdu → RequestFuture;
  as_poll : RequestFuture → SvcState as_svc → (RequestFuture + Answer) * SvcState as_svc;
}.

(** The hooks of such a service as the task of a connection meets them: what
    [on_request] answered once it is ready. *)
Definition overlapped (A : AsyncService) : Service := {|
  SvcState := SvcState (as_svc A) * Answer;
  on_request _ _ _ '(s, ready) := (ready, (s, ready));
  on_connect conn '(s, ready) := let '(a, s') := on_connect (as_svc A) conn s in (a, (s', ready));
  on_disconnect conn reason '(s, ready) := (on_disconnect (as_svc A) conn reason s, ready);
  on_error conn error '(s, ready) := (on_error (as_svc A) conn error s, ready);
  on_accept_error error '(s, ready) :=
    let '(a, s') := on_accept_error (as_svc A) error s in (a, (s', ready));
  on_receive_error error '(s, ready) :=
    let '(a, s') := on_receive_error (as_svc A) error s in (a, (s', ready));
  on_tls_handshake_failed peer error '(s, ready) := (on_tls_handshake_failed (as_svc A) peer error s, ready);
|}.

Section overlap.
Context (F : Framing) {SF : ServerFraming F} (A : AsyncService) (config : ServerConfig).

Local Abbreviation running := (Running F (overlapped A)).

(** The server, and the futures of [on_request] its tasks are waiting for, by the
    number of the task. *)
Record Overlapping := mkOverlapping {
  ov_running : running;
  ov_futures : gmap nat (RequestFuture A);
}.

Definition Overlapping_new (s : SvcState (as_svc A)) : Overlapping :=
  mkOverlapping (Running_new F (overlapped A) (s, inl None)) ∅.

Definition with_state (s : SvcState (overlapped A)) (st : running) : running :=
  mkRunning (rn_next st) (rn_signal st) (rn_serving st) (rn_tasks st) s (rn_log st).

(** The poll of a task inside [on_request]: the future goes on, and when it is
    ready the task goes on with its answer. *)
Definition poll_request (k : nat) (conn : Connection) (u : UnitId) (request : RequestPdu)
    (o : Overlapping) : Overlapping :=
  let '(mkOverlapping st futures) := o in
  let '(s, ready) := rn_service st : SvcState (as_svc A) * Answer in
  let future := default (as_on_request A conn u request) (futures !! k) in
  match as_poll A future s with
  | (inl future', s') => mkOverlapping (with_state (s', ready) st) (<[k := future']> futures)
  | (inr answer, s') =>
      mkOverlapping (rstep F (overlapped A) config (PollTask k) (with_state (s', answer) st))
        (delete k futures)
  end.

Definition handling (ev : RunEvent) (st : running) : option (nat * Connection * UnitId * RequestPdu) :=
  match ev with
  | PollTask k =>
      match rn_tasks st !! k with
      | Some task =>
          match ct_phase task with
          | Handling h q => Some (k, ct_conn task, unit_of h, q)
          | _ => None
          end
      | None => None
      end
  | _ => None
  end.

Definition ostep (ev : RunEvent) (o : Overlapping) : Overlapping :=
  match handling ev (ov_running o) with
  | Some (k, conn, u, request) => poll_request k conn u request o
  | None => mkOverlapping (rstep F (overlapped A) config ev (ov_running o)) (ov_futures o)
  end.

Definition orun (evs : list RunEvent) (o : Overlapping) : Overlapping :=
  foldl (λ o ev, ostep ev o) o evs.
End overlap.

Arguments mkOverlapping {F A}.
Arguments ov_running {F A}.
Arguments ov_futures {F A}.
Arguments with_state {F A}.
Arguments handling {F SF A}.

(** ** Connections stay isolated *)

Section isolation.
Context {F : Framing} {SF : ServerFraming F} {A : AsyncService} {config : ServerConfig}.

Lemma with_state_isolated s (st : Running F (overlapped A)) :
  isolated (config := config) st → isolated (config := config) (with_state s st).
Proof. intros H. apply (isolated_same st _ []); [done|cbn; by rewrite app_nil_r|done|done]. Qed.

Lemma ostep_isolated ev (o : Overlapping F A) :
  isolated (config := config) (ov_running o) →
  isolated (config := config) (ov_running (ostep F A config ev o)).
Proof.
  intros H. unfold ostep. destruct (handling ev (ov_running o)) as [[[[k conn] u] q]|];
    [|by apply rstep_isolated].
  destruct o as [st futures]. unfold poll_request. cbn [ov_running] in *.
  destruct (rn_service st) as [s ready]. destruct (as_poll A _ s) as [[future'|answer] s'];
    [by apply with_state_isolated|by apply rstep_isolated, with_state_isolated].
Qed.

Lemma orun_isolated evs (o : Overlapping F A) :
  isolated (config := config) (ov_running o) →
  isolated (config := config) (ov_running (orun F A config evs o)).
Proof.
  revert o. induction evs as [|ev evs IH]; intros o H; [done|].
  by apply (IH (ostep F A config ev o)), ostep_isolated.
Qed.
End isolation.

(** ** Hooks that act at once *)

(** A future of [on_request] that only waits, and then acts as the hook of the
    service does: [future_of] relates it to its call. *)
Class ActsAtOnce (A : AsyncService) := {
  future_of : Connection → UnitId → RequestPdu → RequestFuture A → Prop;
  called_future conn u q : future_of conn u q (as_on_request A conn u q);
  polled_future conn u q future s : future_of conn u q future →
    match as_poll A future s with
    | (inl future', s') => s' = s ∧ future_of conn u q future'
    | (inr answer, s') => on_request (as_svc A) conn u q s = (answer, s')
    end;
}.

Section atomic.
Context {F : Framing} {SF : ServerFraming F} {A : AsyncService} {AO : ActsAtOnce A} {config : ServerConfig}.

(** The same server, but for what only the futures know. *)
Definition same (st : Running F (overlapped A)) (st' : Running F (as_svc A)) : Prop :=
  rn_next st = rn_next st' ∧ rn_signal st = rn_signal st' ∧ rn_serving st = rn_serving st' ∧
  rn_tasks st = rn_tasks st' ∧ (rn_service st : SvcState (as_svc A) * Answer).1 = rn_service st' ∧ rn_log st = rn_log st'.

(** A future is that of the request its task is handling. *)
Definition futures_ok (o : Overlapping F A) : Prop :=
  ∀ k future, ov_futures o !! k = Some future →
    ∃ task h q, rn_tasks (ov_running o) !! k = Some task ∧ ct_phase task = Handling h q ∧
      future_of (ct_conn task) (unit_of h) q future.

Lemma run_task_same k signal (task : ConnTask F) s ready :
  (∀ h q, ct_phase task ≠ Handling h q) →
  run_task F (overlapped A) config k signal task (s, ready) =
  (let '(task', s', calls) := run_task F (as_svc A) config k signal task s in (task', (s', ready), calls)).
Proof.
  intros Hp. unfold run_task. destruct (ct_phase task) as [| |h q|h r|reason|o|o] eqn:E; try done.
  - cbn. by destruct (on_connect (as_svc A) _ s).
  - destruct signal; [done|]. destruct (ft_recv_request _) as [[[h q]|e|] t'|t']; try done.
    destruct e as []; try done. by destruct kind.
  - by destruct (Hp h q).
  - destruct (ft_send_response _ _ _) as [[[]|e|] t'|t']; done.
Qed.

(** An event that polls no request does the same to both. *)
Lemma rstep_same ev (st : Running F (overlapped A)) st' :
  handling ev st = None → same st st' →
  same (rstep F (overlapped A) config ev st) (rstep F (as_svc A) config ev st').
Proof.
  destruct st as [n sig ph tasks [s ready] log], st' as [n' sig' ph' tasks' s' log'].
  intros Hh (E1 & E2 & E3 & E4 & E5 & E6). cbn in E1, E2, E3, E4, E5, E6. subst.
  destruct ev as [|stream peer|error| |k|k| |]; cbn in Hh |- *.
  - by destruct ph'.
  - destruct ph'; try done. by destruct sig'.
  - destruct ph'; try done. by destruct sig'.
  - unfold poll_accept. destruct ph' as [| |e| |], sig'; try done. cbn.
    by destruct (on_accept_error (as_svc A) e s').
  - destruct (tasks' !! k) as [task|]; [|done]. rewrite run_task_same by (intros h q E; by rewrite E in Hh).
    by destruct (run_task F (as_svc A) config k sig' task s') as [[task' s1] calls].
  - destruct ph', (tasks' !! k) as [task|]; try done. by destruct (ct_phase task).
  - destruct ph'; try done. by destruct (forallb _ _).
  - done.
Qed.

(** A request whose future is ready. *)
Lemma ready_same k (st : Running F (overlapped A)) st' task h q s answer :
  same st st' → rn_tasks st !! k = Some task → ct_phase task = Handling h q →
  on_request (as_svc A) (ct_conn task) (unit_of h) q (rn_service st') = (answer, s) →
  same (rstep F (overlapped A) config (PollTask k) (with_state (s, answer) st))
    (rstep F (as_svc A) config (PollTask k) st').
Proof.
  destruct st as [n sig ph tasks s0 log], st' as [n' sig' ph' tasks' s' log'].
  intros (E1 & E2 & E3 & E4 & E5 & E6) Hk Hp Ho. cbn in *. subst. rewrite Hk.
  unfold run_task. rewrite Hp. cbn. by rewrite Ho.
Qed.

Lemma handling_inv ev (st : Running F (overlapped A)) k conn u q :
  handling ev st = Some (k, conn, u, q) →
  ev = PollTask k ∧ ∃ task h, rn_tasks st !! k = Some task ∧ ct_phase task = Handling h q ∧
    conn = ct_conn task ∧ u = unit_of h.
Proof.
  unfold handling. destruct ev as [|stream peer|error| |k'|k'| |]; try done.
  destruct (rn_tasks st !! k') as [task|] eqn:Hk; [|done]. destruct (ct_phase task) eqn:Hp; try done.
  intros [= <- <- <- <-]. split; [done|]. by eauto 10.
Qed.

(** A request under way is left alone by the events that do not poll it. *)
Lemma rstep_leaves_handling ev (st : Running F (overlapped A)) k task h q :
  ev ≠ PollTask k → rn_tasks st !! k = Some task → ct_phase task = Handling h q →
  rn_tasks (rstep F (overlapped A) config ev st) !! k = Some task.
Proof.
  intros Hev Hk Hp. destruct ev as [|stream peer|error| |k'|k'| |]; cbn.
  - by destruct (rn_serving st).
  - destruct (rn_serving st); try done. destruct (rn_signal st); [done|]. cbn. by apply lookup_app_l_Some.
  - destruct (rn_serving st); try done. by destruct (rn_signal st).
  - unfold poll_accept. destruct (rn_serving st) as [| |e| |], (rn_signal st); try done.
    by destruct (on_accept_error _ _ _).
  - destruct (rn_tasks st !! k') as [task'|] eqn:Hk'; [|done].
    destruct (run_task _ _ _ _ _ _ _) as [[t s] calls]. cbn.
    rewrite list_lookup_insert_ne; [done|]. congruence.
  - destruct (rn_serving st), (rn_tasks st !! k') as [task'|] eqn:Hk'; try done.
    destruct (ct_phase task') eqn:Hp'; try done. cbn. rewrite list_lookup_insert_ne; [done|].
    intros ->. rewrite Hk in Hk'. injection Hk' as <-. congruence.
  - destruct (rn_serving st); try done. by destruct (forallb _ _).
  - done.
Qed.

(** An event leaves the server as it was, or does what it does to one whose hooks
    act at once. *)
Lemma ostep_same ev (o : Overlapping F A) st' :
  futures_ok o → same (ov_running o) st' →
  futures_ok (ostep F A config ev o) ∧
  (same (ov_running (ostep F A config ev o)) st' ∨
   same (ov_running (ostep F A config ev o)) (rstep F (as_svc A) config ev st')).
Proof.
  intros Hf Hs. unfold ostep. destruct (handling ev (ov_running o)) as [[[[k conn] u] q]|] eqn:Hh.
  2: { split; [|right; by apply rstep_same]. intros k future Hk.
       destruct (Hf k future Hk) as (task & h & q & Ht & Hp & Hfut). exists task, h, q.
       split_and!; [|done..]. cbn [ov_running]. eapply rstep_leaves_handling; [|done..].
       intros ->. cbn in Hh. by rewrite Ht, Hp in Hh. }
  apply handling_inv in Hh as (-> & task & h & Ht & Hp & -> & ->).
  destruct o as [st futures]. unfold poll_request. cbn [ov_running ov_futures] in *.
  destruct (rn_service st) as [s ready] eqn:Es. set (future := default _ _).
  assert (future_of (ct_conn task) (unit_of h) q future) as Hfut.
  { unfold future. destruct (futures !! k) as [f|] eqn:E; [|apply called_future].
    destruct (Hf k f E) as (t & h' & q' & Ht' & Hp' & Hx). cbn in Ht'.
    rewrite Ht in Ht'. injection Ht' as <-. rewrite Hp in Hp'. by injection Hp' as <- <-. }
  pose proof (polled_future (ct_conn task) (unit_of h) q future s Hfut) as Hpoll.
  destruct (as_poll A future s) as [[future'|answer] s'].
  - destruct Hpoll as [-> Hfut']. split.
    + intros k' f. cbn [ov_futures ov_running]. destruct (decide (k = k')) as [<-|Hne].
      * rewrite lookup_insert_eq. intros [= <-]. by exists task, h, q.
      * rewrite lookup_insert_ne by done. intros Hk'. by apply (Hf k').
    + left. destruct Hs as (E1 & E2 & E3 & E4 & E5 & E6). rewrite Es in E5. by split_and!.
  - split.
    + intros k' f. cbn [ov_futures ov_running]. rewrite lookup_delete_Some. intros [Hne Hk'].
      destruct (Hf k' f Hk') as (t & h' & q' & Ht' & Hp' & Hx). exists t, h', q'. split_and!; [|done..].
      eapply rstep_leaves_handling; [congruence|done..].
    + right. eapply ready_same; [done..|]. destruct Hs as (_ & _ & _ & _ & E5 & _).
      rewrite Es in E5. cbn in E5. by rewrite <- E5.
Qed.

Lemma orun_same evs (o : Overlapping F A) st' :
  futures_ok o → same (ov_running o) st' →
  ∃ evs', sublist evs' evs ∧
    same (ov_running (orun F A config evs o)) (rrun F (as_svc A) config evs' st').
Proof.
  revert o st'. induction evs as [|ev evs IH]; intros o st' Hf Hs; [by exists []|].
  change (orun F A config (ev :: evs) o) with (orun F A config evs (ostep F A config ev o)).
  destruct (ostep_same ev o st' Hf Hs) as [Hf' [Hs'|Hs']];
    destruct (IH _ _ Hf' Hs') as (evs' & Hl & Hr).
  - exists evs'. split; [by apply sublist_cons|done].
  - exists (ev :: evs'). split; [by apply sublist_skip|done].
Qed.
End atomic.

(** ** Claims *)

(** C21. Requests overlap, and connections still meet only in the service.  For
    every service whose [on_request] suspends where it likes, with the requests of
    any number of connections inside it at once, each going on when it is polled
    and on the state the others left: in every run a connection whose task has ended
    was admitted once, and its outcome, its transport and every byte it wrote are
    those of serving its stream alone with the answers it was given (SV-R-003,
    SV-R-030, SV-R-035). *)
Theorem overlapping_requests_isolated {F : Framing} {SF : ServerFraming F} {A : AsyncService}
    {config : ServerConfig} s0 evs :
  let st := ov_running (orun F A config evs (Overlapping_new F A s0)) in
  ∀ k task outcome, rn_tasks st !! k = Some task →
    ct_phase task = TaskDone outcome ∨ ct_phase task = TaskJoined outcome →
    ∃ accept fuel signals, connects k (rn_log st) = [accept] ∧
      serve_connection_over F (Scripted accept) config (ct_conn task) fuel signals
        (answers_to k (rn_log st)) (FrameTransport_new (ct_stream task)) =
      Some (Finished outcome ([], ct_transport task)).
Proof.
  intros st k task outcome Hk Hp.
  pose proof (orun_isolated (config := config) evs (Overlapping_new F A s0) (isolated_new _)) as Hi.
  by eapply isolated_alone.
Qed.


(** ** Witnesses *)

Section witnesses.
Local Existing Instance winnow_model.

(** A service that answers no request until [n] of them are inside it: a request
    counts itself, and waits. *)
Definition gathering (n : nat) : AsyncService := {|
  as_svc := {|
    SvcState := nat;
    on_request _ _ _ count := (inl (Some (Resp_ReportServerId [42])), S count);
    on_connect := default_on_connect; on_disconnect := default_on_disconnect;
    on_error := default_on_error; on_accept_error := default_on_accept_error;
    on_receive_error _ s := (StopServing, s);
    on_tls_handshake_failed := default_on_tls_handshake_failed;
  |};
  RequestFuture := bool;
  as_on_request _ _ _ := false;
  as_poll begun count :=
    if begun then
      (if (n <=? count)%nat then inr (inl (Some (Resp_ReportServerId [42]))) else inl true, count)
    else (inl true, S count);
|}.

(** One that lets every request wait for two polls before it is counted. *)
Definition patient : AsyncService := {|
  as_svc := as_svc (gathering 0);
  RequestFuture := nat;
  as_on_request _ _ _ := 2%nat;
  as_poll left_ count :=
    match left_ with
    | O => (inr (inl (Some (Resp_ReportServerId [42]))), S count)
    | S left_ => (inl left_, count)
    end;
|}.

#[local] Program Instance patient_acts : ActsAtOnce patient := {| future_of _ _ _ _ := True |}.
Next Obligation. done. Qed.
Next Obligation. intros conn u q [|n] s _; done. Qed.

(** Two clients that ask one thing each and close, both inside [on_request] at
    once. *)
Definition asks_and_closes : Stream :=
  mkStream (mkReadHalf [Ready (Bytes [0; 1; 0; 0; 0; 2; 1; 17]); Ready (Bytes [])])
    (mkWriteHalf [(WroteAll, Flushed)] []).

Definition both_inside : list RunEvent :=
  [Serve; Arrive asks_and_closes (mkSocketAddr (V4 0x7F000001) 1);
   Arrive asks_and_closes (mkSocketAddr (V4 0x7F000001) 2);
   PollTask 0; PollTask 0; PollTask 1; PollTask 1; PollTask 0; PollTask 0; PollTask 1; PollTask 0;
   PollTask 1] ++ (PollTask <$> [1; 0; 1; 0; 1; 0; 1; 0; 1; 0]%nat).

Local Abbreviation met := (ov_running (orun Tcp_framing (gathering 2) (mkServerConfig None) both_inside
  (Overlapping_new Tcp_framing (gathering 2) 0%nat))).

Lemma overlapping_requests_isolated_witness :
  ∃ task accept fuel signals, rn_tasks met !! 1%nat = Some task ∧ ct_phase task = TaskDone (Ok tt) ∧
    serve_connection_over Tcp_framing (Scripted accept) (mkServerConfig None) (ct_conn task) fuel signals
      [inl (Some (Resp_ReportServerId [42]))] (FrameTransport_new (ct_stream task)) =
    Some (Finished (Ok tt) ([], ct_transport task)).
Proof.
  assert (match rn_tasks met !! 1%nat with
          | Some task => match ct_phase task with TaskDone (Ok _) => true | _ => false end
          | None => false end = true) as Hd by (vm_compute; reflexivity).
  assert (answers_to 1 (rn_log met) = [inl (Some (Resp_ReportServerId [42]))]) as Ha
    by (vm_compute; reflexivity).
  pose proof (overlapping_requests_isolated (F := Tcp_framing) (A := gathering 2)
    (config := mkServerConfig None) 0%nat both_inside 1%nat) as H.
  destruct (rn_tasks met !! 1%nat) as [task|]; [|discriminate Hd].
  assert (ct_phase task = TaskDone (Ok tt)) as Hp.
  { destruct (ct_phase task) as [| | | | |[[]|e|]|]; try discriminate Hd. reflexivity. }
  destruct (H task (Ok tt) eq_refl (or_introl Hp)) as (accept & fuel & signals & _ & Hs).
  exists task, accept, fuel, signals. rewrite Ha in Hs. split; [reflexivity|]. split; [exact Hp|exact Hs].
Defined.

End witnesses.
