(* ===== verification/UdpServer.v ===== *)
(** * A datagram server and its tasks ([Server::serve_udp])

    The receiving loop with [next_datagram], the task it spawns for every datagram
    it could decode, and the handle that stops them.  The loop and the tasks run
    from one await to the next, in any order; what happens is the list of events of
    a run.  They share the socket and the service; a hook may be waiting while other
    tasks run, and takes effect in the step that completes it.  The log keeps the
    calls in the order they completed. *)

From S2P Require Import Prelude.
From S2P Require Import Errors.
From S2P Require Import Parse.
From S2P Require Import Value.
From S2P Require Import Function.
From S2P Require Import Exception.
From S2P Require Import Wire.
From S2P Require Import Pdu.
From S2P Require Import Framing.
From S2P Require Import Tcp.
From S2P Require Import Outgoing.
From S2P Require Import Server.
From S2P Require Import ServerTheorems.
From S2P Require Import Concurrent.

Local Abbreviation Answer := (option ResponsePdu + ExceptionCode)%type.

(** A call of a hook, with what it returned. *)
Inductive DatagramCall :=
  | DRequest (k : nat) (conn : Connection) (unit : UnitId) (request : RequestPdu) (answer : Answer)
  | DError (conn : Connection) (error : Error)
  | DReceiveError (error : Error) (action : AcceptErrorAction).

(** Where [serve_datagram] is: before its hook, before its send, before it reports
    that the send failed; or it has returned, and then been joined. *)
Inductive DatagramPhase :=
  | DSpawned
  | DSending (response : ResponsePdu)
  | DReporting (error : Error)
  | DEnded
  | DJoined.

(** A task: the datagram it was spawned for, what that decoded to, and what the
    task sent. *)
Record DatagramTask := mkDatagramTask {
  dt_datagram : list Z;
  dt_peer : SocketAddr;
  dt_header : MbapHeader;
  dt_request : RequestPdu;
  dt_phase : DatagramPhase;
  dt_out : list (list Z);
}.

Definition at_phase (phase : DatagramPhase) (out : list (list Z)) (task : DatagramTask) : DatagramTask :=
  mkDatagramTask (dt_datagram task) (dt_peer task) (dt_header task) (dt_request task) phase
    (dt_out task ++ out).

Definition datagram_conn (task : DatagramTask) : Connection :=
  Connection_new UDP_CONNECTION (Some (dt_peer task)).

(** Where [serve_udp] is: receiving, reporting a datagram it could not decode, in
    [on_receive_error], waiting for its tasks, or returned. *)
Inductive DatagramServing :=
  | DReceiving
  | DUndecodable (error : Error)
  | DInHook (error : Error)
  | DDraining (result : Result unit)
  | DReturned (result : Result unit).

Section serve_udp.
Context {w : Winnow} (svc : Service) (config : ServerConfig).

(** [serve_datagram], from one await to the next; [outcome] is what the socket
    makes of a send. *)
Definition run_datagram (k : nat) (outcome : SocketSend) (task : DatagramTask) (s : SvcState svc)
    : DatagramTask * SvcState svc * list DatagramCall :=
  let conn := datagram_conn task in
  match dt_phase task with
  | DSpawned =>
      let unit := unit_of (F := Tcp_framing) (dt_header task) in
      if foreign config unit then (at_phase DEnded [] task, s, []) else
      let function := RequestPdu_function (dt_request task) in
      let '(answer, s') := on_request svc conn unit (dt_request task) s in
      (at_phase (match response_of function answer with
                 | None => DEnded
                 | Some response => DSending response
                 end) [] task, s', [DRequest k conn unit (dt_request task) answer])
  | DSending response =>
      match send_datagram_response_into Tcp_framing (dt_header task) response outcome [] with
      | (Err error, _, out) => (at_phase (DReporting error) out task, s, [])
      | (_, _, out) => (at_phase DEnded out task, s, [])
      end
  | DReporting error => (at_phase DEnded [] task, on_error svc conn error s, [DError conn error])
  | DEnded | DJoined => (task, s, [])
  end.

(** The socket, the loop, the tasks in the order of their datagrams, and what was
    sent to whom, by which task. *)
Record UdpRunning := mkUdpRunning {
  ud_buf : list Z;
  ud_signal : bool;
  ud_serving : DatagramServing;
  ud_tasks : list DatagramTask;
  ud_service : SvcState svc;
  ud_log : list DatagramCall;
  ud_sent : list (nat * SocketAddr * list Z);
}.

(** [serve_udp] at its start. *)
Definition UdpRunning_new (s : SvcState svc) : UdpRunning :=
  mkUdpRunning (udp_incoming Tcp_framing) false DReceiving [] s [] [].

Inductive UdpEvent :=
  | DReceive (datagram : SocketRecv) (peer : SocketAddr)
  | DPoll
  | DPollTask (k : nat) (outcome : SocketSend)
  | DJoin (k : nat)
  | DReturn
  | DShutdown.

Definition ud_moved (serving : DatagramServing) (s : SvcState svc) (calls : list DatagramCall)
    (st : UdpRunning) : UdpRunning :=
  mkUdpRunning (ud_buf st) (ud_signal st) serving (ud_tasks st) s (ud_log st ++ calls) (ud_sent st).

Definition ud_with_task (k : nat) (task : DatagramTask) (s : SvcState svc) (calls : list DatagramCall)
    (out : list (list Z)) (st : UdpRunning) : UdpRunning :=
  mkUdpRunning (ud_buf st) (ud_signal st) (ud_serving st) (<[k := task]> (ud_tasks st)) s
    (ud_log st ++ calls) (ud_sent st ++ ((λ bytes, (k, dt_peer task, bytes)) <$> out)).

(** A receive of [next_datagram], and what [serve_udp] does with it. *)
Definition receive_datagram (datagram : SocketRecv) (peer : SocketAddr) (st : UdpRunning) : UdpRunning :=
  let '(received, buf) := recv_datagram_request Tcp_framing datagram peer (ud_buf st) in
  let put serving tasks :=
    mkUdpRunning buf (ud_signal st) serving tasks (ud_service st) (ud_log st) (ud_sent st) in
  match received with
  | Ok (header, request, peer) =>
      let bytes := match datagram with Datagram bs => bs | _ => [] end in
      put DReceiving (ud_tasks st ++ [mkDatagramTask bytes peer header request DSpawned []])
  | Err (Io kind raw) => put (DInHook (Io kind raw)) (ud_tasks st)
  | Err error => put (DUndecodable error) (ud_tasks st)
  | Panic => put (DReturned Panic) (ud_tasks st)
  end.

(** The selects of [next_datagram] and its hooks: the signal wins over a receive
    and drops a pending [on_receive_error], but not [on_error]. *)
Definition poll_loop (st : UdpRunning) : UdpRunning :=
  match ud_serving st, ud_signal st with
  | DReceiving, true | DInHook _, true => ud_moved (DDraining (Ok tt)) (ud_service st) [] st
  | DInHook error, false =>
      let '(action, s') := on_receive_error svc error (ud_service st) in
      ud_moved (match action with StopServing => DDraining (Err error) | ContinueServing => DReceiving end)
        s' [DReceiveError error action] st
  | DUndecodable error, _ =>
      let conn := Connection_new UDP_CONNECTION None in
      ud_moved DReceiving (on_error svc conn error (ud_service st)) [DError conn error] st
  | _, _ => st
  end.

Definition dt_joined (task : DatagramTask) : bool :=
  match dt_phase task with DJoined => true | _ => false end.

(** One event; one that cannot happen changes nothing. *)
Definition dstep (ev : UdpEvent) (st : UdpRunning) : UdpRunning :=
  match ev with
  | DReceive datagram peer =>
      match ud_serving st, ud_signal st with
      | DReceiving, false => receive_datagram datagram peer st
      | _, _ => st
      end
  | DPoll => poll_loop st
  | DPollTask k outcome =>
      match ud_tasks st !! k with
      | Some task =>
          let '(task', s', calls) := run_datagram k outcome task (ud_service st) in
          ud_with_task k task' s' calls (drop (length (dt_out task)) (dt_out task')) st
      | None => st
      end
  | DJoin k =>
      match ud_serving st, ud_tasks st !! k with
      | DDraining _, Some task =>
          match dt_phase task with
          | DEnded => ud_with_task k (at_phase DJoined [] task) (ud_service st) [] [] st
          | _ => st
          end
      | _, _ => st
      end
  | DReturn =>
      match ud_serving st with
      | DDraining r =>
          if forallb dt_joined (ud_tasks st) then ud_moved (DReturned r) (ud_service st) [] st else st
      | _ => st
      end
  | DShutdown =>
      mkUdpRunning (ud_buf st) true (ud_serving st) (ud_tasks st) (ud_service st) (ud_log st) (ud_sent st)
  end.

Definition drun (evs : list UdpEvent) (st : UdpRunning) : UdpRunning := foldl (λ st ev, dstep ev st) st evs.
End serve_udp.

Arguments mkUdpRunning {svc}.
Arguments ud_buf {svc}.
Arguments ud_signal {svc}.
Arguments ud_serving {svc}.
Arguments ud_tasks {svc}.
Arguments ud_service {svc}.
Arguments ud_log {svc}.
Arguments ud_sent {svc}.
Arguments ud_moved {svc}.
Arguments ud_with_task {svc}.

(** ** Every run *)

Section replay.
Context {w : Winnow} {svc : Service} {config : ServerConfig}.

Definition d_called (call : DatagramCall) (s s' : SvcState svc) : Prop :=
  match call with
  | DRequest _ conn unit request answer => on_request svc conn unit request s = (answer, s')
  | DError conn error => on_error svc conn error s = s'
  | DReceiveError error action => on_receive_error svc error s = (action, s')
  end.

Fixpoint d_replays (s : SvcState svc) (log : list DatagramCall) (s' : SvcState svc) : Prop :=
  match log with
  | [] => s' = s
  | call :: log' => ∃ s1, d_called call s s1 ∧ d_replays s1 log' s'
  end.

Lemma d_replays_app s log s1 log' s' :
  d_replays s log s1 → d_replays s1 log' s' → d_replays s (log ++ log') s'.
Proof.
  revert s. induction log as [|call log IH]; intros s; cbn; [by intros ->|].
  intros (s2 & Hc & Hr) H. exists s2. eauto.
Qed.

Lemma run_datagram_replays k outcome task (s s' : SvcState svc) task' calls :
  run_datagram svc config k outcome task s = (task', s', calls) → d_replays s calls s'.
Proof.
  unfold run_datagram. destruct (dt_phase task) as [|r|e| |].
  - destruct (foreign _ _); [by intros [= <- <- <-]|].
    destruct (on_request _ _ _ _ _) as [a s1] eqn:E. intros [= <- <- <-]. cbn. by eauto.
  - destruct (send_datagram_response_into _ _ _ _ _) as [[[[]|e|] ?] out]; by intros [= <- <- <-].
  - intros [= <- <- <-]. cbn. by eauto.
  - by intros [= <- <- <-].
  - by intros [= <- <- <-].
Qed.
End replay.

(** The answers the service gave a task, and the datagrams it sent, with where to. *)
Definition answers_for (k : nat) (log : list DatagramCall) : list Answer :=
  omap (λ call, match call with
                | DRequest k' _ _ _ answer => if decide (k' = k) then Some answer else None
                | _ => None
                end) log.
Definition sent_for (k : nat) (sent : list (nat * SocketAddr * list Z)) : list (SocketAddr * list Z) :=
  omap (λ '(k', peer, bytes), if decide (k' = k) then Some (peer, bytes) else None) sent.

Section isolation.
Context {w : Winnow} {svc : Service} {config : ServerConfig}.

(** [serve_datagram] alone, with the answers it was given. *)
Definition served_alone (task : DatagramTask) (script : list Answer) : Prop :=
  ∃ outcome, serve_datagram (Scripted Accept) config (datagram_conn task) (dt_header task)
    (dt_request task) outcome script = (dt_out task, []).

Definition d_accounted (task : DatagramTask) (script : list Answer) : Prop :=
  match dt_phase task with
  | DSpawned => script = [] ∧ dt_out task = []
  | DSending response =>
      dt_out task = [] ∧ foreign config (unit_of (F := Tcp_framing) (dt_header task)) = false ∧
      ∃ answer, script = [answer] ∧
        response_of (RequestPdu_function (dt_request task)) answer = Some response
  | _ => served_alone task script
  end.

Lemma run_datagram_same k outcome task (s s' : SvcState svc) task' calls :
  run_datagram svc config k outcome task s = (task', s', calls) →
  dt_datagram task' = dt_datagram task ∧ dt_peer task' = dt_peer task ∧
  dt_header task' = dt_header task ∧ dt_request task' = dt_request task ∧
  ∃ out, dt_out task' = dt_out task ++ out.
Proof.
  unfold run_datagram. destruct (dt_phase task) as [|r|e| |].
  - destruct (foreign _ _); [intros [= <- <- <-]; by eauto 10|].
    destruct (on_request _ _ _ _ _) as [a s1]. intros [= <- <- <-]. by eauto 10.
  - destruct (send_datagram_response_into _ _ _ _ _) as [[[[]|e|] ?] out]; intros [= <- <- <-]; by eauto 10.
  - intros [= <- <- <-]. by eauto 10.
  - intros [= <- <- <-]. split_and!; try done. exists []. by rewrite app_nil_r.
  - intros [= <- <- <-]. split_and!; try done. exists []. by rewrite app_nil_r.
Qed.

Lemma run_datagram_foreign k k' outcome task (s s' : SvcState svc) task' calls :
  k' ≠ k → run_datagram svc config k outcome task s = (task', s', calls) → answers_for k' calls = [].
Proof.
  intros Hne. unfold run_datagram. destruct (dt_phase task) as [|r|e| |].
  - destruct (foreign _ _); [by intros [= <- <- <-]|].
    destruct (on_request _ _ _ _ _) as [a s1]. intros [= <- <- <-]. cbn. by rewrite decide_False.
  - destruct (send_datagram_response_into _ _ _ _ _) as [[[[]|e|] ?] out]; by intros [= <- <- <-].
  - by intros [= <- <- <-].
  - by intros [= <- <- <-].
  - by intros [= <- <- <-].
Qed.

(** A poll leaves a task where serving its datagram alone is. *)
Lemma run_datagram_accounted k outcome task (s s' : SvcState svc) task' calls script :
  d_accounted task script → run_datagram svc config k outcome task s = (task', s', calls) →
  d_accounted task' (script ++ answers_for k calls).
Proof.
  unfold d_accounted at 1, run_datagram. destruct (dt_phase task) as [|r|e| |] eqn:Hp.
  - intros [-> Ho]. destruct (foreign _ _) eqn:Hf.
    + intros [= <- <- <-]. exists SentDatagram. unfold serve_datagram.
      cbn [at_phase dt_header dt_request dt_out]. by rewrite Hf, Ho.
    + destruct (on_request _ _ _ _ _) as [a s1]. intros [= <- <- <-]. cbn. rewrite decide_True by done.
      unfold d_accounted. cbn. destruct (response_of _ a) as [r|] eqn:Hr.
      * rewrite Ho. by eauto.
      * exists SentDatagram. unfold serve_datagram. cbn [at_phase dt_header dt_request dt_out].
        rewrite Hf. cbn [on_request Scripted]. by rewrite Hr, Ho.
  - intros (Ho & Hf & a & -> & Hr).
    destruct (send_datagram_response_into _ _ _ _ _) as [[res buf] out] eqn:E.
    assert (∀ phase, served_alone (at_phase phase out task) [a]) as Hs.
    { intros phase. exists outcome. unfold serve_datagram. cbn [at_phase dt_header dt_request dt_out].
      rewrite Hf. cbn [on_request Scripted]. rewrite Hr, E, Ho. by destruct res. }
    destruct res as [[]|e|]; intros [= <- <- <-]; cbn; apply Hs.
  - intros [o Hs] [= <- <- <-]. exists o. cbn in *. by rewrite !app_nil_r.
  - intros [o Hs] [= <- <- <-]. unfold d_accounted. rewrite Hp, app_nil_r. by exists o.
  - intros [o Hs] [= <- <- <-]. unfold d_accounted. rewrite Hp, app_nil_r. by exists o.
Qed.
End isolation.

Section runs.
Context {w : Winnow} {svc : Service} {config : ServerConfig}.

Local Abbreviation running := (UdpRunning svc).
Local Abbreviation step := (dstep svc config).

(** Why serving ended. *)
Definition ended_well (st : running) (r : Result unit) : Prop :=
  (r = Ok tt ∧ ud_signal st = true) ∨ (∃ e, r = Err e ∧ DReceiveError e StopServing ∈ ud_log st) ∨ r = Panic.

(** A task and the traces it left. *)
Definition task_accounted (k : nat) (task : DatagramTask) (st : running) : Prop :=
  d_accounted (config := config) task (answers_for k (ud_log st)) ∧
  sent_for k (ud_sent st) = pair (dt_peer task) <$> dt_out task ∧
  decode_request Tcp_framing (take (Z.to_nat (MAX_ADU_LEN Tcp_framing)) (dt_datagram task)) =
    Ok (dt_header task, dt_request task).

Record udp_inv (s0 : SvcState svc) (st : running) : Prop := {
  ui_buf : length (ud_buf st) = Z.to_nat (MAX_ADU_LEN Tcp_framing);
  ui_replays : d_replays s0 (ud_log st) (ud_service st);
  ui_fresh k : (length (ud_tasks st) ≤ k)%nat → answers_for k (ud_log st) = [] ∧ sent_for k (ud_sent st) = [];
  ui_tasks k task : ud_tasks st !! k = Some task → task_accounted k task st;
  ui_ended r : ud_serving st = DDraining r ∨ ud_serving st = DReturned r → ended_well st r;
  ui_joined r : ud_serving st = DReturned r → r ≠ Panic →
    Forall (λ task, dt_joined task = true) (ud_tasks st);
}.

Lemma answers_for_app k log log' : answers_for k (log ++ log') = answers_for k log ++ answers_for k log'.
Proof. apply omap_app. Qed.
Lemma sent_for_app k l l' : sent_for k (l ++ l') = sent_for k l ++ sent_for k l'.
Proof. apply omap_app. Qed.

Lemma sent_for_own k peer (out : list (list Z)) :
  sent_for k ((λ bytes, (k, peer, bytes)) <$> out) = pair peer <$> out.
Proof. induction out as [|b out IH]; [done|]. cbn. rewrite decide_True by done. f_equal. apply IH. Qed.
Lemma sent_for_other k k' peer (out : list (list Z)) :
  k' ≠ k → sent_for k' ((λ bytes, (k, peer, bytes)) <$> out) = [].
Proof. intros H. induction out as [|b out IH]; [done|]. cbn. rewrite decide_False by done. apply IH. Qed.

(** A step of the loop: the tasks and what they sent stay. *)
Lemma udp_inv_loop s0 st serving s calls :
  udp_inv s0 st → d_replays (ud_service st) calls s → (∀ k, answers_for k calls = []) →
  (∀ r, serving = DDraining r ∨ serving = DReturned r → ended_well (ud_moved serving s calls st) r) →
  (∀ r, serving = DReturned r → r ≠ Panic → Forall (λ task, dt_joined task = true) (ud_tasks st)) →
  udp_inv s0 (ud_moved serving s calls st).
Proof.
  intros [U1 U2 U3 U4 U5 U6] Hr Hc He Hj. split; cbn [ud_moved ud_buf ud_log ud_service ud_tasks ud_sent ud_serving].
  - done.
  - by eapply d_replays_app.
  - intros k Hk. rewrite answers_for_app, Hc, app_nil_r. auto.
  - intros k task Hk. unfold task_accounted. cbn [ud_moved ud_log ud_sent].
    rewrite answers_for_app, Hc, app_nil_r. by apply U4.
  - done.
  - done.
Qed.

(** A task moves; the others do not notice. *)
Lemma udp_inv_task s0 st k task task' s calls out :
  udp_inv s0 st → ud_tasks st !! k = Some task → d_replays (ud_service st) calls s →
  d_accounted (config := config) task' (answers_for k (ud_log st ++ calls)) →
  dt_out task' = dt_out task ++ out → dt_peer task' = dt_peer task →
  dt_datagram task' = dt_datagram task → dt_header task' = dt_header task →
  dt_request task' = dt_request task → (∀ k', k' ≠ k → answers_for k' calls = []) →
  (dt_joined task = true → dt_joined task' = true) →
  udp_inv s0 (ud_with_task k task' s calls out st).
Proof.
  intros [U1 U2 U3 U4 U5 U6] Hk Hr Ha Ho Hp Hd Hh Hq Hc Hj. pose proof (lookup_lt_Some _ _ _ Hk) as Hlt.
  destruct (U4 k task Hk) as (_ & Hs & Hdec).
  split; cbn [ud_with_task ud_buf ud_log ud_service ud_tasks ud_sent ud_serving].
  - done.
  - by eapply d_replays_app.
  - intros k' Hk'. rewrite length_insert in Hk'.
    rewrite answers_for_app, sent_for_app, Hc, sent_for_other, !app_nil_r by lia. auto.
  - intros k' t. unfold task_accounted. cbn [ud_with_task ud_log ud_sent].
    rewrite sent_for_app. destruct (decide (k' = k)) as [->|Hne].
    + rewrite list_lookup_insert_eq by done. intros [= <-].
      rewrite sent_for_own, Hs, Ho, fmap_app, Hp, Hd, Hh, Hq. done.
    + rewrite list_lookup_insert_ne, answers_for_app, Hc, sent_for_other, !app_nil_r by done. apply U4.
  - intros r Hser. destruct (U5 r Hser) as [|[(e & -> & Hin)|]]; [by left| |by right; right].
    right. left. exists e. split; [done|]. apply elem_of_app. by left.
  - intros r Hser Hne. pose proof (U6 r Hser Hne) as Hall. apply Forall_insert; [done|].
    apply Hj. by eapply (Forall_lookup_1 _ _ _ _ Hall Hk).
Qed.

(** A datagram as [recv_datagram_request] takes it: what fits the buffer is
    decoded, and the address is the one it came from. *)
Lemma recv_datagram_result bs peer buf :
  (recv_datagram_request Tcp_framing (Datagram bs) peer buf).1 =
  ('(h, q) ← decode_request Tcp_framing (take (length buf) bs); Ok (h, q, peer)).
Proof.
  unfold recv_datagram_request, socket_recv.
  cbn [fst mbind Result_bind]. set (n := Nat.min (length bs) (length buf)).
  rewrite slice_get_take by (unfold len, n; rewrite length_app, length_take, length_drop; lia).
  cbn [mbind Result_bind expect]. rewrite Nat2Z.id. f_equal. f_equal.
  rewrite take_app_le, take_take, Nat.min_id by (rewrite length_take; lia).
  unfold n. destruct (Nat.le_ge_cases (length bs) (length buf)).
  - rewrite Nat.min_l, !take_ge by lia. done.
  - by rewrite Nat.min_r by lia.
Qed.

Lemma recv_datagram_buffer (r : SocketRecv) peer buf :
  length (recv_datagram_request Tcp_framing r peer buf).2 = length buf ∧
  ∀ h q p, (recv_datagram_request Tcp_framing r peer buf).1 = Ok (h, q, p) →
    p = peer ∧ ∃ bs, r = Datagram bs ∧ decode_request Tcp_framing (take (length buf) bs) = Ok (h, q).
Proof.
  destruct r as [bs|kind raw]; [|done]. split.
  - cbn. rewrite length_app, length_take, length_drop. lia.
  - intros h q p. rewrite recv_datagram_result.
    destruct (decode_request Tcp_framing _) as [[h' q']|e|] eqn:E; cbn; intros [= <- <- <-].
    split; [done|]. by exists bs.
Qed.

Lemma receive_inv s0 r peer (st : running) :
  udp_inv s0 st → ud_serving st = DReceiving → udp_inv s0 (receive_datagram svc r peer st).
Proof.
  intros [U1 U2 U3 U4 U5 U6] Hser. unfold receive_datagram.
  pose proof (recv_datagram_buffer r peer (ud_buf st)) as [Hb Hd].
  destruct (recv_datagram_request Tcp_framing r peer (ud_buf st)) as [res buf]. cbn [fst snd] in Hb, Hd.
  assert (∀ serving, (∀ r, serving = DDraining r ∨ serving = DReturned r → r = Panic) →
    udp_inv s0 (mkUdpRunning buf (ud_signal st) serving (ud_tasks st) (ud_service st) (ud_log st) (ud_sent st)))
    as Hsame.
  { intros serving He. split; cbn [ud_buf ud_log ud_service ud_tasks ud_sent ud_serving]; try done.
    - congruence.
    - intros r' Hr'. rewrite (He r' Hr'). by right; right.
    - intros r' Hr' Hne. destruct Hne. apply He. by right. }
  destruct res as [[[h q] p]|e|].
  - destruct (Hd h q p eq_refl) as (-> & bs & -> & Hdec).
    split; cbn [ud_buf ud_log ud_service ud_tasks ud_sent ud_serving]; try done.
    + congruence.
    + intros k Hk. rewrite length_app in Hk. apply U3. cbn in Hk. lia.
    + intros k task Hk. apply lookup_app_Some in Hk as [Hk|[Hk Hl]]; [by apply U4|].
      destruct (k - length (ud_tasks st))%nat; [|done]. injection Hl as <-.
      destruct (U3 k Hk) as [H1 H2]. split_and!; [split; [exact H1|done]|exact H2|]. cbn [dt_datagram].
      by rewrite <- U1.
    + by intros r [?|?].
  - destruct e; apply Hsame; by intros r' [?|?].
  - apply Hsame. intros r' [?|H]; [done|]. by injection H as <-.
Qed.

Lemma dstep_inv s0 ev (st : running) : udp_inv s0 st → udp_inv s0 (step ev st).
Proof.
  intros Hi. pose proof Hi as [U1 U2 U3 U4 U5 U6].
  destruct ev as [r peer| |k outcome|k| |]; cbn [dstep].
  - destruct (ud_serving st) eqn:E; try done. destruct (ud_signal st); [done|]. by apply receive_inv.
  - unfold poll_loop.
    destruct (ud_serving st) as [|e|e|r|r] eqn:E, (ud_signal st) eqn:Es; try done.
    1, 4: apply udp_inv_loop; try done; intros r [H|H]; try done; injection H as <-; left; by rewrite <- Es.
    1, 2: apply udp_inv_loop; try done; [by eexists|by intros r [?|?]].
    destruct (on_receive_error svc e _) as [action s'] eqn:Ea.
    apply udp_inv_loop; [done|by exists s'|done| |by destruct action].
    intros r Hr. right. left. destruct action; destruct Hr as [H|H]; try done. injection H as <-.
    exists e. split; [done|]. apply elem_of_app. right. by left.
  - destruct (ud_tasks st !! k) as [task|] eqn:Hk; [|done].
    destruct (run_datagram svc config k outcome task _) as [[task' s'] calls] eqn:E.
    destruct (run_datagram_same _ _ _ _ _ _ _ E) as (H1 & H2 & H3 & H4 & out & H5).
    eapply udp_inv_task; try done.
    + by eapply run_datagram_replays.
    + rewrite answers_for_app. eapply run_datagram_accounted; [|done]. by apply U4.
    + by rewrite H5, drop_app_length.
    + intros k' Hne. by eapply run_datagram_foreign.
    + unfold dt_joined, run_datagram in *. destruct (dt_phase task) eqn:Hp; try done.
      injection E as <- <- <-. by rewrite Hp.
  - destruct (ud_serving st) eqn:Es; try done. destruct (ud_tasks st !! k) as [task|] eqn:Hk; [|done].
    destruct (dt_phase task) eqn:Hp; try done.
    eapply udp_inv_task; try done. rewrite answers_for_app, app_nil_r.
    destruct (U4 k task Hk) as [Ha _]. unfold d_accounted in *. rewrite Hp in Ha. cbn.
    destruct Ha as [o Ho]. exists o. cbn. by rewrite app_nil_r.
  - destruct (ud_serving st) as [| | |r|] eqn:Es; try done. destruct (forallb _ _) eqn:Ej; [|done].
    assert (Forall (λ task, dt_joined task = true) (ud_tasks st)) as Hall.
    { apply Forall_forall. intros task Hin%list_elem_of_In. by apply (proj1 (forallb_forall _ _) Ej). }
    apply udp_inv_loop; try done. intros r' [?|H]; [done|]. injection H as <-.
    destruct (U5 r) as [?|[(e & -> & Hin)|?]]; [by left|by left| |by right; right].
    right. left. exists e. split; [done|]. cbn. by rewrite app_nil_r.
  - split; try done. intros r Hr. destruct (U5 r Hr) as [[-> _]|[?|?]]; [by left|right; by left|by right; right].
Qed.

Lemma drun_inv s0 evs (st : running) : udp_inv s0 st → udp_inv s0 (drun svc config evs st).
Proof.
  revert st. induction evs as [|ev evs IH]; intros st H; [done|]. by apply (IH (step ev st)), dstep_inv.
Qed.

Lemma udp_inv_new s0 : udp_inv s0 (UdpRunning_new svc s0).
Proof. split; try done. by intros r [?|?]. Qed.
End runs.

(** ** Which tasks there are *)

Section spawned.
Context {w : Winnow} {svc : Service} {config : ServerConfig}.

(** What identifies a task: its datagram and where that came from. *)
Definition task_of (task : DatagramTask) : list Z * SocketAddr := (dt_datagram task, dt_peer task).

(** The datagram an event brings to a loop that is receiving and not stopped, if
    what fits the buffer decodes. *)
Definition brings (ev : UdpEvent) (st : UdpRunning svc) : list (list Z * SocketAddr) :=
  match ev, ud_serving st, ud_signal st with
  | DReceive (Datagram bs) peer, DReceiving, false =>
      match decode_request Tcp_framing (take (Z.to_nat (MAX_ADU_LEN Tcp_framing)) bs) with
      | Ok _ => [(bs, peer)]
      | _ => []
      end
  | _, _, _ => []
  end.

(** Those of a run, in order. *)
Fixpoint brought (evs : list UdpEvent) (st : UdpRunning svc) : list (list Z * SocketAddr) :=
  match evs with
  | [] => []
  | ev :: evs' => brings ev st ++ brought evs' (dstep svc config ev st)
  end.

Lemma with_task_of k task task' s calls out (st : UdpRunning svc) :
  ud_tasks st !! k = Some task → task_of task' = task_of task →
  task_of <$> ud_tasks (ud_with_task k task' s calls out st) = task_of <$> ud_tasks st.
Proof.
  intros Hk Ht. cbn. rewrite list_fmap_insert, Ht. apply list_insert_id.
  by rewrite list_lookup_fmap, Hk.
Qed.

Lemma receive_brings r peer (st : UdpRunning svc) :
  length (ud_buf st) = Z.to_nat (MAX_ADU_LEN Tcp_framing) →
  ud_serving st = DReceiving → ud_signal st = false →
  task_of <$> ud_tasks (receive_datagram svc r peer st) =
    (task_of <$> ud_tasks st) ++ brings (DReceive r peer) st.
Proof.
  intros Hb Hs Hn. unfold brings, receive_datagram. rewrite Hs, Hn, <- Hb.
  destruct r as [bs|kind raw].
  - pose proof (recv_datagram_result bs peer (ud_buf st)) as Hr.
    destruct (recv_datagram_request _ _ _ _) as [res buf]. cbn [fst] in Hr. rewrite Hr.
    destruct (decode_request Tcp_framing _) as [[h q]|e|]; cbn [mbind Result_bind]; [| |by rewrite app_nil_r].
    + cbn. by rewrite fmap_app.
    + destruct e; by rewrite app_nil_r.
  - cbn. by rewrite app_nil_r.
Qed.

(** An event adds the task of the datagram it brings, and keeps the others. *)
Lemma dstep_brings s0 ev (st : UdpRunning svc) :
  udp_inv (config := config) s0 st →
  task_of <$> ud_tasks (dstep svc config ev st) = (task_of <$> ud_tasks st) ++ brings ev st.
Proof.
  intros Hi. destruct ev as [r peer| |k outcome|k| |]; cbn [dstep brings]; rewrite ?app_nil_r.
  - destruct (ud_serving st) eqn:Es, (ud_signal st) eqn:En.
    2: rewrite receive_brings by (done || by eapply ui_buf); unfold brings; by rewrite Es, En.
    all: destruct r; by rewrite app_nil_r.
  - unfold poll_loop. destruct (ud_serving st), (ud_signal st); try done.
    by destruct (on_receive_error _ _ _).
  - destruct (ud_tasks st !! k) as [task|] eqn:Hk; [|done].
    destruct (run_datagram svc config k outcome task _) as [[task' s'] calls] eqn:E.
    apply run_datagram_same in E as (H1 & H2 & _). eapply with_task_of; [done|].
    unfold task_of. congruence.
  - destruct (ud_serving st); try done. destruct (ud_tasks st !! k) as [task|] eqn:Hk; [|done].
    destruct (dt_phase task); try done. by eapply with_task_of.
  - destruct (ud_serving st); try done. by destruct (forallb _ _).
  - done.
Qed.

Lemma drun_brings s0 evs (st : UdpRunning svc) :
  udp_inv (config := config) s0 st →
  task_of <$> ud_tasks (drun svc config evs st) = (task_of <$> ud_tasks st) ++ brought evs st.
Proof.
  revert st. induction evs as [|ev evs IH]; intros st Hi; cbn [brought]; [by rewrite app_nil_r|].
  change (drun svc config (ev :: evs) st) with (drun svc config evs (dstep svc config ev st)).
  rewrite IH by (by apply dstep_inv). by rewrite (dstep_brings s0), <- app_assoc.
Qed.

(** A request the service was asked is that of the task it was asked for. *)
Definition asked_of_task (st : UdpRunning svc) : Prop :=
  ∀ k conn u q a, DRequest k conn u q a ∈ ud_log st →
    ∃ task, ud_tasks st !! k = Some task ∧ conn = datagram_conn task ∧
      u = unit_of (F := Tcp_framing) (dt_header task) ∧ q = dt_request task ∧ foreign config u = false.

Lemma asked_kept (st st' : UdpRunning svc) calls :
  asked_of_task st → ud_log st' = ud_log st ++ calls →
  (∀ k task, ud_tasks st !! k = Some task → ∃ task', ud_tasks st' !! k = Some task' ∧
     datagram_conn task' = datagram_conn task ∧ dt_header task' = dt_header task ∧
     dt_request task' = dt_request task) →
  (∀ k conn u q a, DRequest k conn u q a ∈ calls → ∃ task, ud_tasks st' !! k = Some task ∧
     conn = datagram_conn task ∧ u = unit_of (F := Tcp_framing) (dt_header task) ∧
     q = dt_request task ∧ foreign config u = false) →
  asked_of_task st'.
Proof.
  intros Ha Hl Hk Hc k conn u q a. rewrite Hl. intros [Hin|Hin]%elem_of_app; [|by eapply Hc].
  destruct (Ha _ _ _ _ _ Hin) as (task & Ht & -> & -> & -> & Hf).
  destruct (Hk k task Ht) as (task' & Ht' & H1 & H2 & H3). exists task'. by rewrite H1, H2, H3.
Qed.

Lemma run_datagram_asks k outcome task (s s' : SvcState svc) task' calls k' conn u q a :
  run_datagram svc config k outcome task s = (task', s', calls) →
  DRequest k' conn u q a ∈ calls →
  k' = k ∧ conn = datagram_conn task ∧ u = unit_of (F := Tcp_framing) (dt_header task) ∧
  q = dt_request task ∧ foreign config u = false.
Proof.
  unfold run_datagram. destruct (dt_phase task) as [|r|e| |].
  2: destruct (send_datagram_response_into _ _ _ _ _) as [[[[]|e|] ?] out].
  1: destruct (foreign _ _) eqn:Hf; [|destruct (on_request _ _ _ _ _) as [x s1]].
  all: intros [= <- <- <-] Hin; try (by apply elem_of_nil in Hin);
    apply list_elem_of_singleton in Hin; try done. by injection Hin as -> -> -> -> ->.
Qed.

Lemma dstep_asked ev (st : UdpRunning svc) :
  asked_of_task st → asked_of_task (dstep svc config ev st).
Proof.
  intros Ha.
  assert (∀ st' calls, ud_log st' = ud_log st ++ calls → (∃ more, ud_tasks st' = ud_tasks st ++ more) →
    (∀ k conn u q a, DRequest k conn u q a ∉ calls) → asked_of_task st') as Hloop.
  { intros st' calls Hl [more Hm] Hc. eapply asked_kept; [done..| |].
    - intros k task Hk. exists task. split; [|done]. rewrite Hm. by apply lookup_app_l_Some.
    - intros k conn u q a Hin. by apply Hc in Hin. }
  assert (∀ st', ud_log st' = ud_log st → (∃ more, ud_tasks st' = ud_tasks st ++ more) →
    asked_of_task st') as Hquiet.
  { intros st' Hl Hm. apply (Hloop st' []); [by rewrite app_nil_r|done|]. intros ?????. apply not_elem_of_nil. }
  assert (∃ more : list DatagramTask, ud_tasks st = ud_tasks st ++ more) as Hnone
    by (exists []; by rewrite app_nil_r).
  assert (∀ k task task' s' calls out, ud_tasks st !! k = Some task →
    dt_peer task' = dt_peer task → dt_header task' = dt_header task → dt_request task' = dt_request task →
    (∀ k' conn u q a, DRequest k' conn u q a ∈ calls → k' = k ∧ conn = datagram_conn task ∧
       u = unit_of (F := Tcp_framing) (dt_header task) ∧ q = dt_request task ∧ foreign config u = false) →
    asked_of_task (ud_with_task k task' s' calls out st)) as Htask.
  { intros k task task' s' calls out Hk H1 H2 H3 Hc. pose proof (lookup_lt_Some _ _ _ Hk) as Hlt.
    assert (datagram_conn task' = datagram_conn task) as H4 by (unfold datagram_conn; by rewrite H1).
    eapply asked_kept; [done..| |].
    - intros j t Hj. cbn. destruct (decide (j = k)) as [->|Hne].
      + rewrite Hk in Hj. injection Hj as <-. exists task'. by rewrite list_lookup_insert_eq.
      + exists t. by rewrite list_lookup_insert_ne.
    - intros k' conn u q a Hin. destruct (Hc _ _ _ _ _ Hin) as (-> & -> & -> & -> & Hf).
      exists task'. cbn. rewrite list_lookup_insert_eq by done. by rewrite H2, H3, H4. }
  destruct ev as [r peer| |k outcome|k| |]; cbn [dstep].
  - destruct (ud_serving st), (ud_signal st); try done. unfold receive_datagram.
    destruct (recv_datagram_request _ _ _ _) as [[[[h q] p]|e|] buf]; [..|by apply Hquiet].
    + apply Hquiet; [done|]. by eexists.
    + destruct e; by apply Hquiet.
  - unfold poll_loop. destruct (ud_serving st), (ud_signal st); try done.
    1, 4: by (eapply Hloop; [done|done|]; intros ????? ?%elem_of_nil).
    1, 2: by (eapply Hloop; [done|done|]; intros ????? [=]%list_elem_of_singleton).
    destruct (on_receive_error _ _ _) as [x s'].
    eapply Hloop; [done|done|]. by intros ????? [=]%list_elem_of_singleton.
  - destruct (ud_tasks st !! k) as [task|] eqn:Hk; [|done].
    destruct (run_datagram svc config k outcome task _) as [[task' s'] calls] eqn:E.
    destruct (run_datagram_same _ _ _ _ _ _ _ E) as (H1 & H2 & H3 & H4 & _).
    eapply Htask; [done..|]. intros ?????. by eapply run_datagram_asks.
  - destruct (ud_serving st); try done. destruct (ud_tasks st !! k) as [task|] eqn:Hk; [|done].
    destruct (dt_phase task); try done. eapply Htask; [done..|]. by intros ????? ?%elem_of_nil.
  - destruct (ud_serving st); try done. destruct (forallb _ _); [|done].
    eapply Hloop; [done|done|]. by intros ????? ?%elem_of_nil.
  - by apply Hquiet.
Qed.

Lemma drun_asked evs (st : UdpRunning svc) :
  asked_of_task st → asked_of_task (drun svc config evs st).
Proof.
  revert st. induction evs as [|ev evs IH]; intros st H; [done|].
  by apply (IH (dstep svc config ev st)), dstep_asked.
Qed.
End spawned.

(** C32. Serving datagrams: tasks meet only in the service and the socket.  In every
    run, however the loop and the tasks are interleaved: there is one task for each
    datagram that reached the loop while it was receiving, not stopped, and that
    decodes, in the order they came, with that datagram's bytes and the address it
    came from; what the service was asked for a task is that datagram's request,
    for a unit the server serves, as coming from that address, and what the task
    sent went to that address and nowhere else; a task that has ended sent what
    serving its datagram alone would, with the answer the service gave it: nothing
    for a foreign unit or a withheld answer, else at most one frame with the header
    of the request; and the service is in the state its hooks, taken in the order
    they completed, leave it in.  Serving returns only when every task has been
    joined, with success only after a shutdown, and with an error only if the
    service chose to stop at it (SV-R-057, SV-R-058, SV-R-078, SV-R-079). *)
Theorem datagrams_are_isolated {w : Winnow} {svc : Service} {config : ServerConfig} s0 evs :
  let st := drun svc config evs (UdpRunning_new svc s0) in
  task_of <$> ud_tasks st = brought (config := config) evs (UdpRunning_new svc s0) ∧
  (∀ k conn u q a, DRequest k conn u q a ∈ ud_log st →
     ∃ task, ud_tasks st !! k = Some task ∧ conn = datagram_conn task ∧
       u = unit_of (F := Tcp_framing) (dt_header task) ∧ q = dt_request task ∧ foreign config u = false) ∧
  d_replays s0 (ud_log st) (ud_service st) ∧
  (∀ k task, ud_tasks st !! k = Some task →
     decode_request Tcp_framing (take (Z.to_nat (MAX_ADU_LEN Tcp_framing)) (dt_datagram task)) =
       Ok (dt_header task, dt_request task) ∧
     sent_for k (ud_sent st) = pair (dt_peer task) <$> dt_out task ∧
     (dt_phase task = DEnded ∨ dt_phase task = DJoined →
        ∃ outcome, serve_datagram (Scripted Accept) config (datagram_conn task) (dt_header task)
          (dt_request task) outcome (answers_for k (ud_log st)) = (dt_out task, []))) ∧
  (∀ r, ud_serving st = DReturned r → r ≠ Panic →
     Forall (λ task, dt_joined task = true) (ud_tasks st) ∧
     ((r = Ok tt ∧ ud_signal st = true) ∨
      ∃ e, r = Err e ∧ DReceiveError e StopServing ∈ ud_log st)).
Proof.
  intros st. destruct (drun_inv (config := config) s0 evs _ (udp_inv_new s0)) as [U1 U2 U3 U4 U5 U6].
  fold st in U1, U2, U3, U4, U5, U6. split_and!; [| |done|..].
  - exact (drun_brings (config := config) s0 evs _ (udp_inv_new s0)).
  - apply (drun_asked evs). by intros ????? ?%elem_of_nil.
  - intros k task Hk. destruct (U4 k task Hk) as (H1 & H2 & H3). split_and!; [done|done|].
    intros Hp. unfold d_accounted in H1. by destruct Hp as [Hp|Hp]; rewrite Hp in H1.
  - intros r Hr Hne. split; [by eapply U6|]. destruct (U5 r) as [?|[?|?]]; auto. done.
Qed.

(** ** A requested shutdown drains *)

Section drains.
Context {w : Winnow} {svc : Service} {config : ServerConfig}.

Local Abbreviation run := (drun svc config).

(** How many polls a task is from its end. *)
Definition d_rank (phase : DatagramPhase) : nat :=
  match phase with DSpawned => 3 | DSending _ => 2 | DReporting _ => 1 | _ => 0 end.

Lemma run_datagram_rank k outcome task (s s' : SvcState svc) task' calls n :
  run_datagram svc config k outcome task s = (task', s', calls) → (d_rank (dt_phase task) ≤ S n)%nat →
  (d_rank (dt_phase task') ≤ n)%nat.
Proof.
  unfold run_datagram. destruct (dt_phase task) as [|r|e| |] eqn:Hp; cbn [d_rank].
  - destruct (foreign _ _); [intros [= <- <- <-]; cbn; lia|].
    destruct (on_request _ _ _ _ _) as [a s1]. intros [= <- <- <-]. destruct (response_of _ a); cbn; lia.
  - destruct (send_datagram_response_into _ _ _ _ _) as [[[[]|e|] ?] out]; intros [= <- <- <-]; cbn; lia.
  - intros [= <- <- <-]. cbn. lia.
  - intros [= <- <- <-]. rewrite Hp. cbn. lia.
  - intros [= <- <- <-]. rewrite Hp. cbn. lia.
Qed.

Lemma drun_app evs evs' (st : UdpRunning svc) : run (evs ++ evs') st = run evs' (run evs st).
Proof. apply foldl_app. Qed.

(** The loop waits for [n] tasks, of which the first [m] have ended. *)
Definition d_draining (r : Result unit) (n m : nat) (st : UdpRunning svc) : Prop :=
  ud_serving st = DDraining r ∧ length (ud_tasks st) = n ∧
  ∀ k task, ud_tasks st !! k = Some task → (k < m)%nat → d_rank (dt_phase task) = 0%nat.

Lemma poll_datagram r n m j (st : UdpRunning svc) task :
  d_draining r n m st → ud_tasks st !! m = Some task → (d_rank (dt_phase task) ≤ j)%nat →
  d_draining r n (S m) (run (replicate j (DPollTask m SentDatagram)) st).
Proof.
  revert st task. induction j as [|j IH]; intros st task (H1 & H2 & H3) Hk Hr.
  - cbn [replicate drun foldl]. split_and!; [done..|]. intros k t Ht Hlt.
    destruct (decide (k = m)) as [->|]; [|eapply H3; [done|lia]].
    rewrite Hk in Ht. injection Ht as <-. lia.
  - change (run (replicate (S j) (DPollTask m SentDatagram)) st) with
      (run (replicate j (DPollTask m SentDatagram)) (dstep svc config (DPollTask m SentDatagram) st)).
    cbn [dstep]. rewrite Hk. destruct (run_datagram svc config m _ task _) as [[task' s'] calls] eqn:E.
    apply (IH _ task').
    + split_and!; [done|by cbn; rewrite length_insert|]. intros k t Ht Hlt. cbn in Ht.
      rewrite list_lookup_insert_ne in Ht by lia. by eapply H3.
    + cbn. apply list_lookup_insert_eq. by eapply lookup_lt_Some.
    + by eapply run_datagram_rank.
Qed.

Definition d_polls (n : nat) : list UdpEvent := seq 0 n ≫= λ k, replicate 3 (DPollTask k SentDatagram).

Lemma poll_datagrams r n (st : UdpRunning svc) m :
  (m ≤ n)%nat → d_draining r n 0 st → d_draining r n m (run (d_polls m) st).
Proof.
  intros Hm Hd. induction m as [|m IH]; [done|]. unfold d_polls. rewrite seq_S, bind_app, drun_app.
  specialize (IH ltac:(lia)). fold (d_polls m). set (st' := run (d_polls m) st) in *.
  destruct (lookup_lt_is_Some_2 (ud_tasks st') m) as [task Hk].
  { destruct IH as (_ & -> & _). lia. }
  cbn [Nat.add mbind list_bind]. rewrite app_nil_r. eapply poll_datagram; [done|done|].
  destruct (dt_phase task); cbn; lia.
Qed.

Lemma join_datagrams r n (st : UdpRunning svc) m :
  (m ≤ n)%nat → d_draining r n n st →
  let st' := run (DJoin <$> seq 0 m) st in
  d_draining r n n st' ∧ ∀ k task, ud_tasks st' !! k = Some task → (k < m)%nat → dt_joined task = true.
Proof.
  intros Hm Hd. induction m as [|m IH]; [split; [done|lia]|].
  rewrite seq_S, fmap_app, drun_app. cbn zeta. specialize (IH ltac:(lia)).
  set (st1 := run (DJoin <$> seq 0 m) st) in *. destruct IH as [Hd1 Hj].
  destruct Hd1 as (H1 & H2 & H3).
  destruct (lookup_lt_is_Some_2 (ud_tasks st1) m) as [task Hk]; [lia|].
  pose proof (H3 m task Hk ltac:(lia)) as H0.
  change (run (DJoin <$> [(0 + m)%nat]) st1) with (dstep svc config (DJoin m) st1).
  cbn [dstep]. rewrite H1, Hk.
  destruct (dt_phase task) eqn:Hp; cbn in H0; try done.
  - assert (∀ k t, <[m := at_phase DJoined [] task]> (ud_tasks st1) !! k = Some t →
      t = at_phase DJoined [] task ∨ k ≠ m ∧ ud_tasks st1 !! k = Some t) as Hcase.
    { intros k t. destruct (decide (k = m)) as [->|Hne].
      - rewrite list_lookup_insert_eq by (by eapply lookup_lt_Some). intros [= <-]. by left.
      - rewrite list_lookup_insert_ne by done. by right. }
    split.
    + split_and!; [done|by cbn; rewrite length_insert|]. intros k t Ht Hlt.
      destruct (Hcase k t Ht) as [->|[_ Ht']]; [done|by eapply H3].
    + intros k t Ht Hlt. destruct (Hcase k t Ht) as [->|[Hne Ht']]; [done|]. eapply Hj; [done|lia].
  - split; [done|]. intros k t Ht Hlt. destruct (decide (k = m)) as [->|Hne]; [|eapply Hj; [done|lia]].
    rewrite Hk in Ht. injection Ht as <-. unfold dt_joined. by rewrite Hp.
Qed.

Definition d_drain (n : nat) : list UdpEvent :=
  [DPoll; DPoll] ++ d_polls n ++ (DJoin <$> seq 0 n) ++ [DReturn].

(** From every state of a server that has not returned, once shutdown is requested,
    polling brings every task to its end and serving returns. *)
Lemma udp_shutdown_drains (st : UdpRunning svc) :
  ud_signal st = true → (∀ r, ud_serving st ≠ DReturned r) →
  ∃ r, ud_serving (run (d_drain (length (ud_tasks st))) st) = DReturned r.
Proof.
  intros Hs Hr. unfold d_drain. rewrite !drun_app.
  assert (∃ r, d_draining r (length (ud_tasks st)) 0 (run [DPoll; DPoll] st)) as [r Hd].
  { cbn [drun foldl dstep]. unfold poll_loop at 2.
    destruct (ud_serving st) as [|e|e|r|r] eqn:E; rewrite ?Hs.
    - exists (Ok tt). split_and!; [done..|intros; lia].
    - exists (Ok tt). unfold poll_loop. cbn. rewrite Hs. split_and!; [done..|intros; lia].
    - exists (Ok tt). split_and!; [done..|intros; lia].
    - exists r. unfold poll_loop. rewrite E. split_and!; [done..|intros; lia].
    - by destruct (Hr r). }
  pose proof (poll_datagrams r _ _ (length (ud_tasks st)) (Nat.le_refl _) Hd) as Hd1.
  destruct (join_datagrams r _ _ (length (ud_tasks st)) (Nat.le_refl _) Hd1) as [(H1 & H2 & _) Hj].
  exists r. revert H1 H2 Hj. generalize (run (DJoin <$> seq 0 (length (ud_tasks st)))
    (run (d_polls (length (ud_tasks st))) (run [DPoll; DPoll] st))) as st3. intros st3 H1 H2 Hj.
  cbn [drun foldl dstep]. rewrite H1. replace (forallb _ _) with true; [done|].
  symmetry. apply forallb_forall. intros task [k Hk]%list_elem_of_In%list_elem_of_lookup.
  eapply Hj; [done|]. rewrite <- H2. by eapply lookup_lt_Some.
Qed.
End drains.

(** ** Witness *)

Section witnesses.
Local Existing Instance winnow_model.

Definition udp_peer : SocketAddr := mkSocketAddr (V4 0x7F000001) 1502.
Definition udp_other : SocketAddr := mkSocketAddr (V4 0x7F000001) 1503.

(** Two requests, answered in the other order, and a datagram that is no frame. *)
Definition two_datagrams : list UdpEvent :=
  [DReceive (Datagram [0; 1; 0; 0; 0; 2; 1; 17]) udp_peer; DReceive (Datagram [1; 2]) udp_peer; DPoll;
   DReceive (Datagram [0; 9; 0; 0; 0; 2; 2; 7]) udp_other;
   DPollTask 1 SentDatagram; DPollTask 0 SentDatagram; DPollTask 1 SentDatagram; DPollTask 0 SentDatagram;
   DShutdown] ++ d_drain 2.

Lemma datagrams_are_isolated_witness :
  let st := drun counting any_unit two_datagrams (UdpRunning_new counting 0%nat) in
  ud_sent st = [(1%nat, udp_other, [0; 9; 0; 0; 0; 3; 2; 0x87; 1]);
                (0%nat, udp_peer, [0; 1; 0; 0; 0; 4; 1; 17; 1; 42])] ∧
  task_of <$> ud_tasks st =
    [([0; 1; 0; 0; 0; 2; 1; 17], udp_peer); ([0; 9; 0; 0; 0; 2; 2; 7], udp_other)] ∧
  d_replays (svc := counting) 0%nat (ud_log st) (ud_service st) ∧
  Forall (λ task, dt_joined task = true) (ud_tasks st) ∧
  ∃ task outcome, ud_tasks st !! 0%nat = Some task ∧
    serve_datagram (Scripted Accept) any_unit (datagram_conn task) (dt_header task) (dt_request task)
      outcome (answers_for 0 (ud_log st)) = (dt_out task, []).
Proof.
  destruct (datagrams_are_isolated (svc := counting) (config := any_unit) 0%nat two_datagrams)
    as (H0 & _ & H1 & H2 & H3).
  split; [vm_compute; reflexivity|]. split; [etransitivity; [exact H0|vm_compute; reflexivity]|].
  split; [exact H1|].
  destruct (H3 (Ok tt)) as [Hj _]; [vm_compute; reflexivity|discriminate|]. split; [exact Hj|].
  assert (match ud_tasks (drun counting any_unit two_datagrams (UdpRunning_new counting 0%nat)) !! 0%nat with
          | Some task => dt_joined task | None => false end = true) as Hk by (vm_compute; reflexivity).
  specialize (H2 0%nat).
  destruct (ud_tasks (drun counting any_unit two_datagrams (UdpRunning_new counting 0%nat)) !! 0%nat)
    as [task|]; [|discriminate Hk].
  destruct (H2 task eq_refl) as (_ & _ & H). destruct H as [outcome Ho].
  - right. unfold dt_joined in Hk. destruct (dt_phase task); try discriminate Hk. reflexivity.
  - exists task, outcome. split; [reflexivity|exact Ho].
Defined.
End witnesses.
