(* ===== verification/ServeTests.v ===== *)
(** * Unit tests of a server with several connections ([src/server/mod.rs])

    Its tests of a listener, of shutdown and of the accept hook, run on
    [Concurrent].  A client is the stream of its connection: what it sends, and
    that it closes or stays.  A gate a test holds a hook with is the point of the
    run where the hook is not complete yet; the test that holds three requests
    inside [on_request] at once runs on [Suspending].  The tests that call [next_accept]
    run on the loop that calls it; what they accept is a connection.  Those that
    call [next_datagram] with a task in flight run on [UdpServer] likewise. *)

From S2P Require Import Prelude.
From S2P Require Import Errors.
From S2P Require Import Tests.
From S2P Require Import Parse.
From S2P Require Import Value.
From S2P Require Import Pdu.
From S2P Require Import Framing.
From S2P Require Import Tcp.
From S2P Require Import Transport.
From S2P Require Import Outgoing.
From S2P Require Import Framed.
From S2P Require Import Server.
From S2P Require Import Link.
From S2P Require Import StackTests.
From S2P Require Import TransportTests.
From S2P Require Import ServerTests.
From S2P Require Import ServerLife.
From S2P Require Import Concurrent.
From S2P Require Import Suspending.
From S2P Require Import UdpServer.

Section tests.
Local Existing Instance winnow_model.

(** ** Clients *)

(** A client's socket address, by its port. *)
Definition from_port (port : Z) : SocketAddr := mkSocketAddr (V4 0x7F000001) port.

(** A client that sends one request and waits for its response. *)
Definition one_request (transaction : Z) : Result Stream :=
  asked ← asks_for Tcp_framing [(mbap_header transaction 1, read_one)];
  mret (end_of asked).

(** One that writes a malformed request, and closes or stays; one that is
    silent; one that closes at once. *)
Definition malformed : list Z := [0; 1; 0; 0; 0; 2; 1; 0].
Definition broken_and_gone : Stream := end_of (pipe 1024 malformed ++ dropped).
Definition broken : Stream := end_of (pipe 1024 malformed).
Definition holds_on : Stream := end_of [].
Definition ends_soon : Stream := end_of dropped.

Section running.
Context (svc : Service).

Definition serving_with (evs : list RunEvent) (s : SvcState svc) : Running Tcp_framing svc :=
  rrun Tcp_framing svc any_unit_config evs (Running_new Tcp_framing svc s).
Definition goes_on (evs : list RunEvent) (st : Running Tcp_framing svc) : Running Tcp_framing svc :=
  rrun Tcp_framing svc any_unit_config evs st.

(** What the client of the [k]th connection receives. *)
Definition client_receives (k : nat) (st : Running Tcp_framing svc)
    : Result (MbapHeader * ResponsePdu) :=
  task ← expect (rn_tasks st !! k);
  got ← receives Tcp_framing 1
    (FrameTransport_new (end_of (pipe 1024 (wrote (ct_transport task)))));
  expect (head got).

Definition task_running (k : nat) (st : Running Tcp_framing svc) : bool :=
  match rn_tasks st !! k with
  | Some task => match ct_phase task with TaskDone _ | TaskJoined _ => false | _ => true end
  | None => false
  end.

Definition connections (st : Running Tcp_framing svc) : Z := len (rn_tasks st).

(** What [serve] returned, when it has. *)
Definition returned (st : Running Tcp_framing svc) : Result unit :=
  match rn_serving st with ServeReturned (Ok _) => Ok tt | _ => Panic end.
Definition returned_error (st : Running Tcp_framing svc) : Result Error :=
  match rn_serving st with ServeReturned (Err e) => Ok e | _ => Panic end.
End running.

(** The polls of the tasks [ks], a task each, [n] times over. *)
Definition rounds (n : nat) (ks : list nat) : list RunEvent :=
  mjoin (replicate n (PollTask <$> ks)).

(** ** A listener *)

(** [tokio::sync::Barrier]: how many wait at it, and how often it has opened. *)
Record Barrier := mkBarrier { waiting_at : nat; opened : nat }.

(** [Recorder::overlapping]: [on_request] records the request, waits at the barrier
    until [at_once] requests do, and answers.  The last to arrive does not wait. *)
Inductive RecorderFuture :=
  | NotBegun (conn : Connection) (unit : UnitId) (request : RequestPdu)
  | AtBarrier (turn : nat).

Definition Recorder_overlapping (at_once : nat) : AsyncService := {|
  as_svc := {|
    SvcState := list ServiceEvent * Barrier;
    on_request conn u request '(events, barrier) :=
      let '(answer, events') := on_request answering conn u request events in (answer, (events', barrier));
    on_connect conn '(events, barrier) :=
      let '(answer, events') := on_connect answering conn events in (answer, (events', barrier));
    on_disconnect conn reason '(events, barrier) := (on_disconnect answering conn reason events, barrier);
    on_error conn error '(events, barrier) := (on_error answering conn error events, barrier);
    on_accept_error := default_on_accept_error;
    on_receive_error := default_on_receive_error test_errno Linux;
    on_tls_handshake_failed := default_on_tls_handshake_failed;
  |};
  RequestFuture := RecorderFuture;
  as_on_request := NotBegun;
  as_poll future '(events, barrier) :=
    match future with
    | NotBegun conn u request =>
        let events' := events ++ [Requested (id conn) (peer conn) u request] in
        if (S (waiting_at barrier) =? at_once)%nat
        then (inr (inl (Some server_registers)), (events', mkBarrier 0 (S (opened barrier))))
        else (inl (AtBarrier (opened barrier)),
              (events', mkBarrier (S (waiting_at barrier)) (opened barrier)))
    | AtBarrier turn =>
        (if (turn <? opened barrier)%nat then inr (inl (Some server_registers)) else inl (AtBarrier turn),
         (events, barrier))
    end;
|}.

Section overlapping.
Context (A : AsyncService).

Definition overlapping_with (evs : list RunEvent) (s : SvcState (as_svc A)) : Overlapping Tcp_framing A :=
  orun Tcp_framing A any_unit_config evs (Overlapping_new Tcp_framing A s).
Definition overlaps_on (evs : list RunEvent) (o : Overlapping Tcp_framing A) : Overlapping Tcp_framing A :=
  orun Tcp_framing A any_unit_config evs o.
End overlapping.

(** SV-R-002, SV-R-030: every request is held until all three have arrived, so a
    server that answered them one at a time would never finish; here the three are
    inside the hook before one of them returns from it. *)
Definition ut_connections_are_served_concurrently : Result unit :=
  client ← one_request 1;
  let service := Recorder_overlapping 3 in
  let o := overlapping_with service ([Serve] ++ (Arrive client <$> (from_port <$> [1; 2; 3])) ++
    rounds 2 [0; 1; 2]%nat ++ rounds 2 [0; 1]%nat) ([], mkBarrier 0 0) in
  assert (bool_decide (size (ov_futures o) = 2%nat));;
  assert (forallb (λ task, match ct_phase task with Handling _ _ => true | _ => false end)
            (rn_tasks (ov_running o)));;
  let o := overlaps_on service (rounds 2 [2; 0; 1]%nat) o in
  for_each [0; 1; 2]%nat (λ k,
    received ← client_receives (overlapped service) k (ov_running o);
    assert_eq received (mbap_header 1 1, server_registers)).

(** SV-R-031, SV-R-036 *)
Definition ut_accepted_connections_are_identified_in_order : Result unit :=
  first ← one_request 1;
  second ← one_request 2;
  let peers := [from_port 40001; from_port 40002] in
  let st := serving_with answering ([Serve; Arrive first (from_port 40001)] ++ rounds 4 [0%nat] ++
    [Arrive second (from_port 40002)] ++ rounds 4 [1%nat]) [] in
  received ← client_receives answering 0 st;
  assert_eq received (mbap_header 1 1, server_registers);;
  received ← client_receives answering 1 st;
  assert_eq received (mbap_header 2 1, server_registers);;
  assert_eq (rn_service st ≫= λ event, match event with Connected_ id peer => [(id, peer)] | _ => [] end)
    (imap (λ index peer, (mkConnectionId (Z.of_nat index + 1), Some peer)) peers).

(** SV-R-035, SV-E-020 *)
Definition ut_one_failed_connection_does_not_disturb_the_others : Result unit :=
  sound ← one_request 1;
  let st := serving_with answering ([Serve; Arrive broken_and_gone (from_port 1)] ++ rounds 3 [0%nat] ++
    [Arrive sound (from_port 2)] ++ rounds 4 [1%nat]) [] in
  assert (negb (task_running answering 0 st));;
  received ← client_receives answering 1 st;
  assert_eq received (mbap_header 1 1, server_registers).

(** SV-R-051 *)
Definition ut_connection_failure_does_not_fail_serving_a_listener : Result unit :=
  let st := serving_with answering ([Serve; Arrive broken (from_port 1)] ++ rounds 3 [0%nat]) [] in
  assert (match last (rn_service st) with
          | Some (Disconnected (DisconnectFailed _)) => true
          | _ => false
          end);;
  returned answering (goes_on answering (Shutdown :: drain 1) st).

(** ** Shutdown *)

(** SV-R-040, SV-R-041, SV-R-043, SV-R-044, SV-E-024 *)
Definition ut_shutdown_ends_an_idle_connection : Result unit :=
  asked ← asks_for Tcp_framing [(mbap_header 1 1, read_one)];
  '(served, events, wire) ← serves Tcp_framing answering any_unit_config [false; true] [] asked;
  assert_responses Tcp_framing wire [(mbap_header 1 1, server_registers)];;
  assert_eq served (Ok tt);;
  assert_eq (last events) (Some (Disconnected ShuttingDown)).

(** One link, its task run [n] times without and with the signal. *)
Fixpoint runs_link (n : nat) (signal : bool) (task : ConnTask Tcp_framing) (s : list ServiceEvent)
    : ConnTask Tcp_framing * list ServiceEvent :=
  match n with
  | O => (task, s)
  | S n' =>
      let '(task', s', _) := run_task Tcp_framing answering any_unit_config 0 signal task s in
      runs_link n' signal task' s'
  end.

Definition link_task (stream : Stream) : ConnTask Tcp_framing :=
  spawned (Connection_new (mkConnectionId 1) None) stream.

(** SV-R-042, SV-R-044, SV-E-023: the handler is held while shutdown is asked. *)
Definition ut_shutdown_waits_for_a_request_in_flight : Result unit :=
  stream ← one_request 1;
  let '(task, events) := runs_link 2 false (link_task stream) [] in
  assert (match ct_phase task with Handling _ _ => true | _ => false end);;
  let '(task, events) := runs_link 4 true task events in
  assert_responses Tcp_framing (wrote (ct_transport task)) [(mbap_header 1 1, server_registers)];;
  assert (match ct_phase task with TaskDone (Ok _) => true | _ => false end).

(** SV-R-068 *)
Definition ut_serve_link_returns_after_on_disconnect_completes : Result unit :=
  let '(task, events) := runs_link 2 false (link_task (end_of (pipe 1024 half_a_request ++ dropped))) [] in
  assert (match ct_phase task with Ending _ => true | _ => false end);;
  let '(task, events) := runs_link 1 false task events in
  assert (existsb is_disconnect events);;
  match ct_phase task with TaskDone (Err e) => assert_eq e ConnectionClosed | _ => Panic end.

(** SV-R-062, SV-E-027 *)
Definition ut_serve_link_result_follows_the_reason_on_disconnect_received : Result unit :=
  let '(task, events) := runs_link 2 false (link_task (end_of (pipe 1024 half_a_request ++ dropped))) [] in
  let '(task, events) := runs_link 1 true task events in
  assert_eq (last events) (Some (Disconnected (DisconnectFailed ConnectionClosed)));;
  match ct_phase task with TaskDone (Err e) => assert_eq e ConnectionClosed | _ => Panic end.

(** SV-R-041 *)
Definition ut_shutdown_stops_accepting : Result unit :=
  client ← one_request 1;
  let st := serving_with answering ([Serve; Shutdown] ++ drain 0) [] in
  _ ← returned answering st;
  assert_eq (connections answering (goes_on answering [Arrive client (from_port 1)] st)) 0.

(** SV-R-045 *)
Definition ut_handle_reports_whether_shutdown_was_requested : Result unit :=
  let st := serving_with answering [] [] in
  assert (negb (is_shutting_down (life_of st)));;
  let st := goes_on answering [Shutdown] st in
  assert (is_shutting_down (life_of st));;
  '(served, _, _) ← serves Tcp_framing answering any_unit_config [is_shutting_down (life_of st)] [] [];
  assert_eq served (Ok tt).

(** ** The accept hook *)

(** SV-R-051 *)
Definition ut_accept_failure_with_default_stop_returns_error_after_draining : Result unit :=
  let st := serving_with AcceptWatcher
    [Serve; Arrive ends_soon (from_port 1); FailAccept io_error; PollAccept; ReturnServe] (watching []) in
  assert (task_running AcceptWatcher 0 st);;
  error ← returned_error AcceptWatcher
    (goes_on AcceptWatcher (rounds 4 [0%nat] ++ [JoinTask 0; ReturnServe]) st);
  assert_eq error io_error.

(** SV-R-060, SV-E-021 *)
Definition ut_continue_keeps_connections_and_accepts_again : Result unit :=
  let st := serving_with AcceptWatcher
    [Serve; Arrive holds_on (from_port 1); PollTask 0; FailAccept io_error; PollAccept;
     Arrive holds_on (from_port 2)] (watching [ContinueServing]) in
  assert_eq (connections AcceptWatcher st) 2;;
  assert (task_running AcceptWatcher 0 st).

(** SV-R-060: nothing is accepted while the hook is held. *)
Definition ut_continue_accepts_only_after_hook_completes : Result unit :=
  let st := serving_with AcceptWatcher
    [Serve; FailAccept io_error; Arrive holds_on (from_port 1)] (watching [ContinueServing]) in
  assert_eq (connections AcceptWatcher st) 0;;
  assert_eq (connections AcceptWatcher
    (goes_on AcceptWatcher [PollAccept; Arrive holds_on (from_port 1)] st)) 1.

(** SV-R-067, SV-E-021 *)
Definition ut_stop_drains_live_connections_then_returns_error : Result unit :=
  let st := serving_with AcceptWatcher
    [Serve; Arrive ends_soon (from_port 1); FailAccept io_error; PollAccept;
     Arrive holds_on (from_port 2)] (watching [StopServing]) in
  assert_eq (connections AcceptWatcher st) 1;;
  let st := goes_on AcceptWatcher (rounds 4 [0%nat] ++ [JoinTask 0; ReturnServe]) st in
  _ ← returned_error AcceptWatcher st;
  assert (negb (task_running AcceptWatcher 0 st)).

(** SV-R-061, SV-E-022 *)
Definition ut_shutdown_during_pending_hook_drops_it_and_proceeds : Result unit :=
  let st := serving_with AcceptWatcher
    [Serve; Arrive ends_soon (from_port 1); FailAccept io_error; Shutdown] (watching []) in
  let st := goes_on AcceptWatcher (drain 1) st in
  _ ← returned AcceptWatcher st;
  assert (negb (task_running AcceptWatcher 0 st)).

(** SV-R-041 *)
Definition ut_shutdown_during_accept_after_continue_stops : Result unit :=
  returned AcceptWatcher (serving_with AcceptWatcher
    ([Serve; FailAccept io_error; PollAccept; Shutdown] ++ drain 0) (watching [ContinueServing])).

(** ** The datagram hook *)

Definition serving_datagrams (evs : list UdpEvent) (w : Watched) : UdpRunning ReceiveWatcher :=
  drun ReceiveWatcher any_unit_config evs (UdpRunning_new ReceiveWatcher w).
Definition goes_on_udp (evs : list UdpEvent) (st : UdpRunning ReceiveWatcher) : UdpRunning ReceiveWatcher :=
  drun ReceiveWatcher any_unit_config evs st.

Definition datagrams_len (st : UdpRunning ReceiveWatcher) : Z := len (ud_tasks st).
Definition datagram_ended (k : nat) (st : UdpRunning ReceiveWatcher) : bool :=
  match ud_tasks st !! k with
  | Some task => match dt_phase task with DEnded | DJoined => true | _ => false end
  | None => false
  end.

(** A request, and a receive that fails. *)
Definition a_datagram : Result UdpEvent :=
  adu ← encode_request Tcp_framing (mbap_header 1 1) read_two;
  mret (DReceive (Datagram adu) client_addr).
Definition a_failure : UdpEvent := DReceive (SocketFailed OutOfMemory None) client_addr.

(** SV-R-077, SV-E-037: nothing is received while the hook is held. *)
Definition ut_receive_continue_keeps_datagrams_and_receives_after_hook : Result unit :=
  datagram ← a_datagram;
  let st := serving_datagrams [datagram; a_failure; datagram] (watching [ContinueServing]) in
  assert (match ud_serving st with DInHook error => bool_decide (error = io_error) | _ => false end);;
  assert_eq (datagrams_len st) 1;;
  assert (negb (datagram_ended 0 st));;
  let st := goes_on_udp [DPoll; datagram] st in
  assert_eq (seen (ud_service st)) [io_error];;
  assert_eq (datagrams_len st) 2;;
  assert (negb (datagram_ended 0 st));;
  assert (datagram_ended 0 (goes_on_udp (replicate 2 (DPollTask 0 SentDatagram)) st)).

(** SV-R-078, SV-R-051, SV-E-037 *)
Definition ut_receive_stop_drains_then_returns_error : Result unit :=
  datagram ← a_datagram;
  let st := serving_datagrams [datagram; a_failure; DPoll; DReturn] (watching []) in
  assert (match ud_serving st with DDraining _ => true | _ => false end);;
  let st := goes_on_udp (replicate 2 (DPollTask 0 SentDatagram) ++ [DJoin 0; DReturn]) st in
  assert (match ud_serving st with DReturned (Err e) => bool_decide (e = io_error) | _ => false end);;
  assert (datagram_ended 0 st).

(** SV-R-079, SV-E-038 *)
Definition ut_shutdown_during_pending_receive_hook_drops_it : Result unit :=
  datagram ← a_datagram;
  let st := serving_datagrams [datagram; a_failure; DShutdown] (watching []) in
  assert (match ud_serving st with DInHook _ => true | _ => false end);;
  let st := goes_on_udp (d_drain 1) st in
  assert (match ud_serving st with DReturned (Ok _) => true | _ => false end);;
  assert (negb (existsb (λ call, match call with DReceiveError _ _ => true | _ => false end) (ud_log st)));;
  assert (datagram_ended 0 st).

Definition serve_tests : list (Result unit) :=
  [ut_connections_are_served_concurrently; ut_accepted_connections_are_identified_in_order;
   ut_one_failed_connection_does_not_disturb_the_others;
   ut_connection_failure_does_not_fail_serving_a_listener; ut_shutdown_ends_an_idle_connection;
   ut_shutdown_waits_for_a_request_in_flight; ut_serve_link_returns_after_on_disconnect_completes;
   ut_serve_link_result_follows_the_reason_on_disconnect_received; ut_shutdown_stops_accepting;
   ut_handle_reports_whether_shutdown_was_requested;
   ut_accept_failure_with_default_stop_returns_error_after_draining;
   ut_continue_keeps_connections_and_accepts_again; ut_continue_accepts_only_after_hook_completes;
   ut_stop_drains_live_connections_then_returns_error;
   ut_shutdown_during_pending_hook_drops_it_and_proceeds;
   ut_shutdown_during_accept_after_continue_stops;
   ut_receive_continue_keeps_datagrams_and_receives_after_hook; ut_receive_stop_drains_then_returns_error;
   ut_shutdown_during_pending_receive_hook_drops_it].

(** The unit tests of a listener, of shutdown, of the accept hook and of the datagram
    hook pass. *)
Lemma serve_tests_pass : Forall passes serve_tests.
Proof. run_tests. Qed.
End tests.
