(* ===== verification/TlsServer.v ===== *)
(** * Serving over TLS ([Server::serve_tls])

    The task spawned per accepted socket, and the life of a TLS server: its
    connections exist before their handshake, which runs in the task, has no
    deadline, and does not look at the shutdown signal. *)

From S2P Require Import Prelude.
From S2P Require Import Errors.
From S2P Require Import Parse.
From S2P Require Import Value.
From S2P Require Import Framing.
From S2P Require Import Serial.
From S2P Require Import Transport.
From S2P Require Import Outgoing.
From S2P Require Import Framed.
From S2P Require Import TcpConn.
From S2P Require Import Server.
From S2P Require Import Link.
From S2P Require Import Tls.
From S2P Require Import ServerLife.

(** The body of the spawned task: a handshake, then the connection or the report
    of the failure. *)
Definition serve_tls_task `{RL : Rustls} (F : Framing) {SF : ServerFraming F} (svc : Service)
    (config : ServerConfig) (acceptor : RustlsServerConfig) (stream : Stream) (peer : SocketAddr)
    (id : ConnectionId) (fuel : nat) (signals : list bool) (s : SvcState svc)
    : option (Poll (SvcState svc) unit) :=
  match handshake_framed F acceptor stream with
  | None => Some (Unfinished s)
  | Some (Ok (transport, cert)) =>
      let conn := with_peer_cert (Connection_new id (Some peer)) cert in
      p ← serve_connection_over F svc config conn fuel signals s transport;
      Some (match p with
            | Unfinished (s', _) => Unfinished s'
            | Finished Panic (s', _) => Finished Panic s'
            | Finished _ (s', _) => Finished (Ok tt) s'
            end)
  | Some (Err error) => Some (Finished (Ok tt) (on_tls_handshake_failed svc peer error s))
  | Some Panic => Some (Finished Panic s)
  end.

(** ** The life of a TLS server *)

(** A server with the connections whose handshake is under way. *)
Record TlsServerState := mkTlsServerState {
  tls_base : ServerState;
  handshaking : list ConnectionId;
}.

Definition TlsServer_new : TlsServerState := mkTlsServerState Server_new [].

Inductive TlsLabel :=
  | TBase (l : Label)
  | THandshakeDone (id : ConnectionId)
  | THandshakeFailed (id : ConnectionId).

(** The steps: those of [ServerLife], where an accepted connection starts in its
    handshake and cannot end in it, and the end of a handshake, which is the
    peer's to bring about. *)
Inductive tstep : TlsServerState → TlsLabel → TlsServerState → Prop :=
  | ts_accept st i st' hs :
      sstep st (AcceptedAs i) st' →
      tstep (mkTlsServerState st hs) (TBase (AcceptedAs i)) (mkTlsServerState st' (i :: hs))
  | ts_end st i st' hs :
      i ∉ hs → sstep st (EndedConnection i) st' →
      tstep (mkTlsServerState st hs) (TBase (EndedConnection i)) (mkTlsServerState st' hs)
  | ts_other st l st' hs :
      (∀ i, l ≠ AcceptedAs i ∧ l ≠ EndedConnection i) → sstep st l st' →
      tstep (mkTlsServerState st hs) (TBase l) (mkTlsServerState st' hs)
  | ts_handshake_done st hs1 i hs2 :
      tstep (mkTlsServerState st (hs1 ++ i :: hs2)) (THandshakeDone i)
        (mkTlsServerState st (hs1 ++ hs2))
  | ts_handshake_failed st st' hs1 i hs2 :
      sstep st (EndedConnection i) st' →
      tstep (mkTlsServerState st (hs1 ++ i :: hs2)) (THandshakeFailed i)
        (mkTlsServerState st' (hs1 ++ hs2)).

Inductive tsteps : TlsServerState → list TlsLabel → TlsServerState → Prop :=
  | tsteps_refl st : tsteps st [] st
  | tsteps_step st l st1 ls st2 : tstep st l st1 → tsteps st1 ls st2 → tsteps st (l :: ls) st2.

Lemma tsteps_app st ls st1 ls' st2 :
  tsteps st ls st1 → tsteps st1 ls' st2 → tsteps st (ls ++ ls') st2.
Proof. induction 1; [done|]. intros. cbn. econstructor; eauto. Qed.

(** Whether a label ends the handshake of a connection. *)
Definition ends_handshake (i : ConnectionId) (l : TlsLabel) : bool :=
  match l with
  | THandshakeDone j | THandshakeFailed j => bool_decide (i = j)
  | TBase _ => false
  end.

(** The same run without the handshakes is a run of the server. *)
Definition base_label (l : TlsLabel) : list Label :=
  match l with
  | TBase l => [l]
  | THandshakeDone _ => []
  | THandshakeFailed i => [EndedConnection i]
  end.

Lemma tstep_base st l st' :
  tstep st l st' → ssteps (tls_base st) (base_label l) (tls_base st').
Proof. destruct 1; cbn; repeat (econstructor; eauto). Qed.

Lemma tsteps_base st ls st' :
  tsteps st ls st' → ssteps (tls_base st) (flat_map base_label ls) (tls_base st').
Proof.
  induction 1 as [|st l st1 ls st2 H1 Hs IH]; [constructor|]. cbn.
  eapply ssteps_app; [by apply tstep_base|done].
Qed.

(** A step that is not the end of its handshake keeps a connection in it. *)
Lemma live_keeps st l st' i :
  sstep st l st' → l ≠ EndedConnection i → i ∈ live st → i ∈ live st'.
Proof.
  destruct 1; cbn; intros Hl Hi; try done; [by apply elem_of_cons; right|].
  rewrite elem_of_app, elem_of_cons in Hi. rewrite elem_of_app.
  destruct Hi as [?|[->|?]]; [by left|done|by right].
Qed.

Lemma middle_other {A} (i j : A) l1 l2 : i ≠ j → i ∈ l1 ++ j :: l2 → i ∈ l1 ++ l2.
Proof. intros Hn. rewrite !elem_of_app, elem_of_cons. intros [?|[?|?]]; auto; done. Qed.

Lemma tstep_stalled i st l st' :
  tstep st l st' → ends_handshake i l = false →
  i ∈ handshaking st → i ∈ live (tls_base st) →
  i ∈ handshaking st' ∧ i ∈ live (tls_base st').
Proof.
  destruct 1 as [st j st' hs H|st j st' hs Hj H|st l st' hs Hl H|st hs1 j hs2|st st' hs1 j hs2 H];
    cbn; intros He Hi Hv.
  - split; [by apply elem_of_cons; right|]. by eapply live_keeps.
  - split; [done|]. eapply live_keeps; [done| |done]. congruence.
  - split; [done|]. eapply live_keeps; [done| |done]. apply Hl.
  - apply bool_decide_eq_false in He. split; [by eapply middle_other|done].
  - apply bool_decide_eq_false in He. split; [by eapply middle_other|].
    eapply live_keeps; [done| |done]. congruence.
Qed.

Lemma tsteps_stalled i st ls st' :
  tsteps st ls st' → Forall (λ l, ends_handshake i l = false) ls →
  i ∈ handshaking st → i ∈ live (tls_base st) →
  i ∈ handshaking st' ∧ i ∈ live (tls_base st').
Proof.
  induction 1 as [|st l st1 ls st2 H1 Hs IH]; [done|]. intros [Hl Hls]%Forall_cons Hi Hv.
  destruct (tstep_stalled _ _ _ _ H1 Hl Hi Hv). by apply IH.
Qed.

(** C39. A peer that stalls its TLS handshake keeps a server from shutting
    down: as long as that handshake neither completes nor fails, in every run,
    with shutdown requested or not, serving does not return and the handle's
    shutdown is not answered, since the handshake has no deadline and does not
    watch the signal. *)
Theorem tls_stalled_handshake_blocks_shutdown ls st i ls' st' :
  tsteps TlsServer_new ls st → i ∈ handshaking st → i ∈ live (tls_base st) →
  tsteps st ls' st' → Forall (λ l, ends_handshake i l = false) ls' →
  (∀ r, serving (tls_base st') ≠ ServeReturned r) ∧ ¬ shutdown_completes (tls_base st').
Proof.
  intros H1 Hi Hv H2 Hf. destruct (tsteps_stalled i _ _ _ H2 Hf Hi Hv) as [_ Hv'].
  pose proof (tsteps_base _ _ _ (tsteps_app _ _ _ _ _ H1 H2)) as Hs. cbn in Hs.
  pose proof (ssteps_inv _ _ _ life_inv_new Hs) as Hinv. split.
  - intros r Hr. pose proof (no_tasks_no_live _ Hinv (li_done _ Hinv r Hr)) as Hl.
    rewrite Hl in Hv'. by apply not_elem_of_nil in Hv'.
  - unfold shutdown_completes, receivers. destruct (live (tls_base st')) as [|x l]; [by apply not_elem_of_nil in Hv'|].
    rewrite len_cons. pose proof (len_nonneg l). destruct (serving (tls_base st')); lia.
Qed.

(** An identifier is spent on every accepted socket, also when its handshake
    fails: the first connection served can be the second identifier. *)
Lemma failed_handshake_spends_an_id :
  ∃ ls st, tsteps TlsServer_new ls st ∧ next_connection (tls_base st) = 2 ∧
    live (tls_base st) = [] ∧ THandshakeFailed (mkConnectionId 1) ∈ ls.
Proof.
  exists [TBase Silent_; TBase (AcceptedAs (mkConnectionId 1)); THandshakeFailed (mkConnectionId 1)],
    (mkTlsServerState (mkServerState 2 false Accepting [] [mkConnectionId 1]) []).
  split_and!; [|done..|rewrite !elem_of_cons; auto].
  unfold TlsServer_new, Server_new.
  eapply tsteps_step; [apply ts_other; [done|apply ss_start]|].
  eapply tsteps_step; [apply ts_accept, ss_accept; reflexivity|].
  eapply tsteps_step; [|constructor].
  apply (ts_handshake_failed _ _ [] (mkConnectionId 1) []),
    (ss_end 2 false Accepting [] (mkConnectionId 1) []).
Qed.

(** ** Witness *)

(** One peer connects and says nothing; then shutdown is requested. *)
Lemma tls_stalled_handshake_blocks_shutdown_witness :
  (∀ r, serving (mkServerState 2 true (Draining (Ok tt)) [mkConnectionId 1] [mkConnectionId 1])
     ≠ ServeReturned r) ∧
  ¬ shutdown_completes (mkServerState 2 true (Draining (Ok tt)) [mkConnectionId 1] [mkConnectionId 1]).
Proof.
  apply (tls_stalled_handshake_blocks_shutdown
    [TBase Silent_; TBase (AcceptedAs (mkConnectionId 1))]
    (mkTlsServerState (mkServerState 2 false Accepting [mkConnectionId 1] [mkConnectionId 1])
       [mkConnectionId 1]) (mkConnectionId 1)
    [TBase ShutdownRequested; TBase Silent_]
    (mkTlsServerState
       (mkServerState 2 true (Draining (Ok tt)) [mkConnectionId 1] [mkConnectionId 1])
       [mkConnectionId 1])).
  - unfold TlsServer_new, Server_new. eapply tsteps_step; [apply ts_other; [done|apply ss_start]|].
    eapply tsteps_step; [apply ts_accept, ss_accept; reflexivity|constructor].
  - apply list_elem_of_here.
  - apply list_elem_of_here.
  - eapply tsteps_step; [apply ts_other; [done|apply ss_shutdown]|].
    eapply tsteps_step; [apply ts_other; [done|apply ss_signal_accepting]|constructor].
  - repeat constructor.
Defined.
