(* ===== verification/TlsRunning.v ===== *)
(** * A TLS server and its connections, running ([Server::serve_tls])

    [serve_tls] with the tasks it spawns.  A task first runs its handshake on the
    socket it was accepted with; then it reports that it failed, or serves the
    decrypted stream as any connection is served ([run_task] of [Concurrent]).  A
    run is any interleaving of the accept loop and the tasks, and the handle. *)

From S2P Require Import Prelude.
From S2P Require Import Errors.
From S2P Require Import Parse.
From S2P Require Import Value.
From S2P Require Import Pdu.
From S2P Require Import Framing.
From S2P Require Import Tcp.
From S2P Require Import Transport.
From S2P Require Import Outgoing.
From S2P Require Import Framed.
From S2P Require Import Server.
From S2P Require Import Link.
From S2P Require Import Tls.
From S2P Require Import ServerLife.
From S2P Require Import Concurrent.
From S2P Require Import TlsServer.

(** A call of a hook: for a connection or the listener, or the report of a failed
    handshake. *)
Inductive TlsCall :=
  | TCalled (call : HookCall)
  | TFailed (k : nat) (peer : SocketAddr) (error : Error).

Section server.
Context `{RL : Rustls} (F : Framing) {SF : ServerFraming F} (svc : Service) (config : ServerConfig).
Context (acceptor : RustlsServerConfig).

(** Where a task is: in its handshake, before the report of its failure, in
    [serve_connection], or returned after the report, and then joined. *)
Inductive TlsPhase :=
  | THandshaking
  | TReporting (error : Error)
  | TServing (task : ConnTask F)
  | TOver
  | TOverJoined.

(** A task, the socket it was accepted with, its peer and its identifier. *)
Record TlsTask := mkTlsTask {
  tt_stream : Stream;
  tt_peer : SocketAddr;
  tt_id : ConnectionId;
  tt_phase : TlsPhase;
}.

Definition tls_moved (phase : TlsPhase) (t : TlsTask) : TlsTask :=
  mkTlsTask (tt_stream t) (tt_peer t) (tt_id t) phase.

(** The connection a finished handshake establishes. *)
Definition established (t : TlsTask) (cert : option CertificateDer) : Connection :=
  with_peer_cert (Connection_new (tt_id t) (Some (tt_peer t))) cert.

(** The body of the task, from one await to the next. *)
Definition run_tls_task (k : nat) (signal : bool) (t : TlsTask) (s : SvcState svc)
    : TlsTask * SvcState svc * list TlsCall :=
  match tt_phase t with
  | THandshaking =>
      match handshake_framed F acceptor (tt_stream t) with
      | None => (t, s, [])
      | Some (Ok (transport, cert)) =>
          (tls_moved (TServing (mkConnTask (established t cert) (ft_stream transport) transport Spawned)) t,
           s, [])
      | Some (Err error) => (tls_moved (TReporting error) t, s, [])
      | Some Panic => (tls_moved TOver t, s, [])
      end
  | TReporting error =>
      (tls_moved TOver t, on_tls_handshake_failed svc (tt_peer t) error s, [TFailed k (tt_peer t) error])
  | TServing task =>
      let '(task', s', calls) := run_task F svc config k signal task s in
      (tls_moved (TServing task') t, s', TCalled <$> calls)
  | TOver | TOverJoined => (t, s, [])
  end.

Record TlsRunning := mkTlsRunning {
  tn_next : Z;
  tn_signal : bool;
  tn_serving : Serving;
  tn_tasks : list TlsTask;
  tn_service : SvcState svc;
  tn_log : list TlsCall;
}.

Definition TlsRunning_new (s : SvcState svc) : TlsRunning := mkTlsRunning 1 false NotStarted [] s [].

Definition tls_with_serving (phase : Serving) (s : SvcState svc) (calls : list TlsCall) (st : TlsRunning)
    : TlsRunning :=
  mkTlsRunning (tn_next st) (tn_signal st) phase (tn_tasks st) s (tn_log st ++ calls).

Definition tls_with_task (k : nat) (t : TlsTask) (s : SvcState svc) (calls : list TlsCall)
    (st : TlsRunning) : TlsRunning :=
  mkTlsRunning (tn_next st) (tn_signal st) (tn_serving st) (<[k := t]> (tn_tasks st)) s
    (tn_log st ++ calls).

(** [next_accept], as in [Concurrent]. *)
Definition tls_poll_accept (st : TlsRunning) : TlsRunning :=
  match tn_serving st, tn_signal st with
  | Accepting, true | InHook _, true => tls_with_serving (Draining (Ok tt)) (tn_service st) [] st
  | InHook error, false =>
      let '(action, s') := on_accept_error svc error (tn_service st) in
      tls_with_serving (match action with StopServing => Draining (Err error) | ContinueServing => Accepting end)
        s' [TCalled (AcceptErrorHook error action)] st
  | _, _ => st
  end.

Definition tls_joined (t : TlsTask) : bool :=
  match tt_phase t with TServing task => is_joined task | TOverJoined => true | _ => false end.

(** A task that has returned is joined. *)
Definition tls_join (t : TlsTask) : option TlsTask :=
  match tt_phase t with
  | TServing task =>
      match ct_phase task with
      | TaskDone outcome => Some (tls_moved (TServing (moved (TaskJoined outcome) (ct_transport task) task)) t)
      | _ => None
      end
  | TOver => Some (tls_moved TOverJoined t)
  | _ => None
  end.

(** One event; one that cannot happen changes nothing. *)
Definition tls_rstep (ev : RunEvent) (st : TlsRunning) : TlsRunning :=
  match ev with
  | Serve =>
      match tn_serving st with NotStarted => tls_with_serving Accepting (tn_service st) [] st | _ => st end
  | Arrive stream peer =>
      match tn_serving st, tn_signal st with
      | Accepting, false =>
          let '(id, next') := next_id (tn_next st) in
          mkTlsRunning next' false Accepting (tn_tasks st ++ [mkTlsTask stream peer id THandshaking])
            (tn_service st) (tn_log st)
      | _, _ => st
      end
  | FailAccept error =>
      match tn_serving st, tn_signal st with
      | Accepting, false => tls_with_serving (InHook error) (tn_service st) [] st
      | _, _ => st
      end
  | PollAccept => tls_poll_accept st
  | PollTask k =>
      match tn_tasks st !! k with
      | Some t =>
          let '(t', s', calls) := run_tls_task k (tn_signal st) t (tn_service st) in
          tls_with_task k t' s' calls st
      | None => st
      end
  | JoinTask k =>
      match tn_serving st, tn_tasks st !! k ≫= tls_join with
      | Draining _, Some t' => tls_with_task k t' (tn_service st) [] st
      | _, _ => st
      end
  | ReturnServe =>
      match tn_serving st with
      | Draining r =>
          if forallb tls_joined (tn_tasks st) then tls_with_serving (ServeReturned r) (tn_service st) [] st
          else st
      | _ => st
      end
  | Shutdown =>
      mkTlsRunning (tn_next st) true (tn_serving st) (tn_tasks st) (tn_service st) (tn_log st)
  end.

Definition tls_rrun (evs : list RunEvent) (st : TlsRunning) : TlsRunning :=
  foldl (λ st ev, tls_rstep ev st) st evs.
End server.

Arguments THandshaking {F}.
Arguments TReporting {F} error.
Arguments TServing {F} task.
Arguments TOver {F}.
Arguments TOverJoined {F}.
Arguments mkTlsTask {F}.
Arguments tt_stream {F}.
Arguments tt_peer {F}.
Arguments tt_id {F}.
Arguments tt_phase {F}.
Arguments tls_moved {F}.
Arguments established {F}.
Arguments tls_joined {F}.
Arguments tls_join {F}.
Arguments mkTlsRunning {F svc}.
Arguments tn_next {F svc}.
Arguments tn_signal {F svc}.
Arguments tn_serving {F svc}.
Arguments tn_tasks {F svc}.
Arguments tn_service {F svc}.
Arguments tn_log {F svc}.
Arguments tls_with_serving {F svc}.
Arguments tls_with_task {F svc}.

(** ** What the log has of a connection *)

Definition base_calls (log : list TlsCall) : list HookCall :=
  omap (λ c, match c with TCalled call => Some call | _ => None end) log.

(** The connections the hooks for task [k] were called with, and its failures. *)
Definition hook_conn (call : HookCall) : option (nat * Connection) :=
  match call with
  | ConnectHook k conn _ | RequestHook k conn _ _ _ | ErrorHook k conn _ | DisconnectHook k conn _ =>
      Some (k, conn)
  | AcceptErrorHook _ _ => None
  end.
Definition conns_of (k : nat) (log : list TlsCall) : list Connection :=
  omap (λ call, '(k', conn) ← hook_conn call; if decide (k' = k) then Some conn else None) (base_calls log).
Definition failures_of (k : nat) (log : list TlsCall) : list (SocketAddr * Error) :=
  omap (λ c, match c with
             | TFailed k' peer error => if decide (k' = k) then Some (peer, error) else None
             | _ => None
             end) log.

Lemma base_calls_app l l' : base_calls (l ++ l') = base_calls l ++ base_calls l'.
Proof. apply omap_app. Qed.
Lemma conns_of_app k l l' : conns_of k (l ++ l') = conns_of k l ++ conns_of k l'.
Proof. unfold conns_of. by rewrite base_calls_app, omap_app. Qed.
Lemma failures_of_app k l l' : failures_of k (l ++ l') = failures_of k l ++ failures_of k l'.
Proof. apply omap_app. Qed.
Lemma base_calls_called calls : base_calls (TCalled <$> calls) = calls.
Proof. induction calls as [|c calls IH]; [done|]. cbn. by f_equal. Qed.
Lemma failures_of_called k calls : failures_of k (TCalled <$> calls) = [].
Proof. by induction calls. Qed.

(** No hook for a task: it was neither admitted nor asked. *)
Lemma no_conns_foreign k log : conns_of k log = [] → foreign_to k (base_calls log).
Proof.
  unfold conns_of, foreign_to. generalize (base_calls log) as calls.
  induction calls as [|c calls IH]; [done|]. cbn. destruct c; cbn; try (destruct (decide _); [done|]); auto.
Qed.

Lemma conns_of_elem k log conn call :
  TCalled call ∈ log → hook_conn call = Some (k, conn) → conn ∈ conns_of k log.
Proof.
  intros Hin Hc. unfold conns_of, base_calls. apply list_elem_of_omap. exists call. split.
  - apply list_elem_of_omap. by exists (TCalled call).
  - rewrite Hc. cbn. by rewrite decide_True.
Qed.

Section replay.
Context {F : Framing} {SF : ServerFraming F} {svc : Service} {config : ServerConfig}.

(** A step of a task calls hooks for its own connection only. *)
Lemma run_task_conns k signal (task task' : ConnTask F) (s s' : SvcState svc) calls :
  run_task F svc config k signal task s = (task', s', calls) →
  Forall (λ call, hook_conn call = Some (k, ct_conn task)) calls.
Proof.
  destruct (ct_phase task) as [| |h q|h r|reason|o|o] eqn:E.
  2:{ destruct signal; [unfold run_task; rewrite E; by intros [= <- <- <-]|].
      rewrite run_task_exchanging by done. unfold reporting.
      destruct (ft_recv_request _) as [[[h q]|e|] t'|t']; [|destruct (is_eof e)|..];
        intros [= <- <- <-]; by repeat constructor. }
  all: unfold run_task, reporting; rewrite E.
  - destruct (on_connect _ _ _) as [a s1]; intros [= <- <- <-]. by repeat constructor.
  - destruct (on_request _ _ _ _ _) as [a s1]. intros [= <- <- <-]. by repeat constructor.
  - destruct (ft_send_response _ _ _) as [[[]|e|] t'|t']; intros [= <- <- <-]; by repeat constructor.
  - intros [= <- <- <-]. by repeat constructor.
  - by intros [= <- <- <-].
  - by intros [= <- <- <-].
Qed.

Lemma own_conns k k' conn calls :
  Forall (λ call, hook_conn call = Some (k, conn)) calls →
  Forall (λ c, c = conn) (conns_of k (TCalled <$> calls)) ∧ (k' ≠ k → conns_of k' (TCalled <$> calls) = []).
Proof.
  unfold conns_of. rewrite base_calls_called. induction 1 as [|c calls Hc _ [IH1 IH2]]; [done|].
  cbn. rewrite Hc. cbn. rewrite decide_True by done. split; [by constructor|].
  intros Hne. rewrite decide_False by done. auto.
Qed.

Definition t_called (call : TlsCall) (s s' : SvcState svc) : Prop :=
  match call with
  | TCalled call => called call s s'
  | TFailed _ peer error => on_tls_handshake_failed svc peer error s = s'
  end.

Fixpoint t_replays (s : SvcState svc) (log : list TlsCall) (s' : SvcState svc) : Prop :=
  match log with
  | [] => s' = s
  | call :: log' => ∃ s1, t_called call s s1 ∧ t_replays s1 log' s'
  end.

Lemma t_replays_app s log s1 log' s' :
  t_replays s log s1 → t_replays s1 log' s' → t_replays s (log ++ log') s'.
Proof.
  revert s. induction log as [|call log IH]; intros s; cbn; [by intros ->|].
  intros (s2 & Hc & Hr) H. exists s2. eauto.
Qed.

Lemma t_replays_called s calls s' : replays s calls s' → t_replays s (TCalled <$> calls) s'.
Proof.
  revert s. induction calls as [|call calls IH]; intros s; cbn; [done|].
  intros (s1 & Hc & Hr). exists s1. auto.
Qed.
End replay.

(** ** Every run *)

Section runs.
Context `{HT : RustlsTypes} `{RL : !Rustls} {F : Framing} {SF : ServerFraming F} {svc : Service} {config : ServerConfig}.
Context {acceptor : RustlsServerConfig}.

Local Abbreviation running := (TlsRunning F svc).
Local Abbreviation task_ := (TlsTask F).
Local Abbreviation handshake := (handshake_framed F acceptor).
Local Abbreviation step := (tls_rstep F svc config acceptor).

(** A handshake that is over succeeded or failed, and a new transport is over the
    decrypted stream. *)
Lemma handshake_outcome stream r :
  handshake stream = Some r →
  (∃ t cert, r = Ok (t, cert) ∧ t = FrameTransport_new (ft_stream t)) ∨ ∃ e, r = Err e.
Proof.
  unfold handshake_framed. destruct (tls_accept _ _ _) as [[[tls|e] cell]|]; [..|done]; intros [= <-];
    [left|right]; by eauto.
Qed.

(** A task and what the log has of it: nothing before its handshake is over; the
    one report of its failure; or what serving the decrypted stream alone calls,
    all for one connection with the certificate of the handshake. *)
Definition tls_accounted (k : nat) (t : task_) (log : list TlsCall) : Prop :=
  match tt_phase t with
  | THandshaking => conns_of k log = [] ∧ failures_of k log = []
  | TReporting e => handshake (tt_stream t) = Some (Err e) ∧ conns_of k log = [] ∧ failures_of k log = []
  | TServing task => ∃ transport cert, handshake (tt_stream t) = Some (Ok (transport, cert)) ∧
      FrameTransport_new (ct_stream task) = transport ∧ ct_conn task = established t cert ∧
      accounted_for (config := config) k task (base_calls log) ∧
      Forall (λ conn, conn = ct_conn task) (conns_of k log) ∧ failures_of k log = []
  | TOver | TOverJoined => ∃ e, handshake (tt_stream t) = Some (Err e) ∧ conns_of k log = [] ∧
      failures_of k log = [(tt_peer t, e)]
  end.

Record tls_inv (s0 : SvcState svc) (st : running) : Prop := {
  ti_replays : t_replays s0 (tn_log st) (tn_service st);
  ti_tasks k t : tn_tasks st !! k = Some t → tls_accounted k t (tn_log st);
  ti_fresh k : (length (tn_tasks st) ≤ k)%nat → conns_of k (tn_log st) = [] ∧ failures_of k (tn_log st) = [];
  ti_joined r : tn_serving st = ServeReturned r → Forall (λ t, tls_joined t = true) (tn_tasks st);
}.

(** Calls that are not for task [k]. *)
Definition t_foreign (k : nat) (calls : list TlsCall) : Prop := conns_of k calls = [] ∧ failures_of k calls = [].

Lemma tls_accounted_foreign k t log calls :
  t_foreign k calls → tls_accounted k t log → tls_accounted k t (log ++ calls).
Proof.
  intros [H1 H2]. unfold tls_accounted. rewrite conns_of_app, failures_of_app, base_calls_app, H1, H2, !app_nil_r.
  destruct (tt_phase t); try done.
  intros (transport & cert & Hh & Ht & Hc & Ha & Hrest). exists transport, cert. split_and!; try done.
  - apply accounted_foreign; [|done]. by apply no_conns_foreign.
  - apply Hrest.
  - apply Hrest.
Qed.

(** The step of a task keeps it accounted for, and is nobody else's. *)
Lemma run_tls_task_accounted k signal (t t' : task_) (s s' : SvcState svc) calls log :
  run_tls_task F svc config acceptor k signal t s = (t', s', calls) → tls_accounted k t log →
  tls_accounted k t' (log ++ calls) ∧ (∀ k', k' ≠ k → t_foreign k' calls) ∧ t_replays s calls s' ∧
  (tls_joined t = true → tls_joined t' = true).
Proof.
  unfold run_tls_task, tls_accounted at 1, tls_joined. destruct (tt_phase t) as [|e|task| |] eqn:Hph.
  - intros E [H1 H2]. destruct (handshake (tt_stream t)) as [r|] eqn:Hh.
    + destruct (handshake_outcome _ _ Hh) as [(tr & cert & -> & Ht)|[e ->]]; injection E as <- <- <-.
      * split_and!; try done. unfold tls_accounted. cbn. rewrite app_nil_r. exists tr, cert.
        split_and!; try done; [|by rewrite H1]. left. cbn. by apply no_conns_foreign in H1 as [-> ->].
      * split_and!; try done. unfold tls_accounted. cbn. by rewrite app_nil_r.
    + injection E as <- <- <-. split_and!; try done. unfold tls_accounted. by rewrite Hph, app_nil_r.
  - intros [= <- <- <-] (Hh & H1 & H2). split_and!; try done.
    + unfold tls_accounted. cbn. exists e. rewrite conns_of_app, failures_of_app, H1, H2. cbn.
      rewrite decide_True by done. done.
    + intros k' Hne. split; [done|]. cbn. by rewrite decide_False.
    + by eexists.
  - intros E (tr & cert & Hh & Ht & Hc & Ha & Hcs & Hf).
    destruct (run_task F svc config k signal task s) as [[task' s1] calls1] eqn:R. injection E as <- <- <-.
    pose proof (run_task_ids _ _ _ _ _ _ _ R) as (Ec & Es & Hj & _).
    pose proof (run_task_conns _ _ _ _ _ _ _ R) as Hown. split_and!.
    + unfold tls_accounted. cbn. exists tr, cert.
      rewrite conns_of_app, failures_of_app, base_calls_app, base_calls_called, failures_of_called, Hf, Ec, Es.
      split_and!; try done; [by eapply run_task_accounted|]. apply Forall_app. split; [done|].
      by apply (own_conns k k).
    + intros k' Hne. split; [by apply (own_conns k k' (ct_conn task))|apply failures_of_called].
    + by eapply t_replays_called, run_task_replays.
    + cbn. unfold unjoined_id in Hj. by destruct (is_joined task), (is_joined task').
  - intros [= <- <- <-] H. split_and!; try done. unfold tls_accounted.
    by rewrite Hph, app_nil_r.
  - intros [= <- <- <-] H. split_and!; try done; [|by rewrite Hph]. unfold tls_accounted.
    by rewrite Hph, app_nil_r.
Qed.

Lemma tls_join_accounted k (t t' : task_) log :
  tls_join t = Some t' → tls_accounted k t log → tls_accounted k t' log ∧ tls_joined t' = true.
Proof.
  unfold tls_join, tls_accounted, tls_joined. destruct (tt_phase t) as [|e|task| |]; try done.
  - destruct (ct_phase task) as [| | | | |outcome|] eqn:Hp; try done. intros [= <-] (tr & cert & H1 & H2 & H3 & H4 & H5).
    cbn. split; [|done]. exists tr, cert. split_and!; try done; [|apply H5..].
    destruct H4 as [(Hs & _)|(accept & Hc & Hi)]; [by rewrite Hp in Hs|]. right. exists accept.
    cbn. split; [done|]. by rewrite Hp in Hi.
  - by intros [= <-].
Qed.

(** A step of the loop. *)
Lemma tls_inv_loop s0 (st : running) next signal phase s calls :
  tls_inv s0 st → t_replays (tn_service st) calls s → (∀ k, t_foreign k calls) →
  (∀ r, phase = ServeReturned r → Forall (λ t, tls_joined t = true) (tn_tasks st)) →
  tls_inv s0 (mkTlsRunning next signal phase (tn_tasks st) s (tn_log st ++ calls)).
Proof.
  intros [T1 T2 T3 T4] Hr Hf Hj. split; cbn [tn_log tn_service tn_tasks tn_serving].
  - by eapply t_replays_app.
  - intros k t Hk. apply tls_accounted_foreign; [done|by apply T2].
  - intros k Hk. rewrite conns_of_app, failures_of_app. destruct (T3 k Hk) as [-> ->], (Hf k) as [-> ->]. done.
  - done.
Qed.

(** A step of a task. *)
Lemma tls_inv_task s0 (st : running) k t t' s calls :
  tls_inv s0 st → tn_tasks st !! k = Some t → t_replays (tn_service st) calls s →
  tls_accounted k t' (tn_log st ++ calls) → (∀ k', k' ≠ k → t_foreign k' calls) →
  (tls_joined t = true → tls_joined t' = true) → tls_inv s0 (tls_with_task k t' s calls st).
Proof.
  intros [T1 T2 T3 T4] Hk Hr Ha Hf Hj. pose proof (lookup_lt_Some _ _ _ Hk) as Hlt.
  split; cbn [tls_with_task tn_log tn_service tn_tasks tn_serving].
  - by eapply t_replays_app.
  - intros i x. destruct (decide (i = k)) as [->|Hne].
    + rewrite list_lookup_insert_eq by done. by intros [= <-].
    + rewrite list_lookup_insert_ne by done. intros Hx. apply tls_accounted_foreign; [by apply Hf|by apply T2].
  - rewrite length_insert. intros i Hi. rewrite conns_of_app, failures_of_app.
    destruct (T3 i Hi) as [-> ->], (Hf i) as [-> ->]; [lia|done].
  - intros r Hser. pose proof (T4 r Hser) as Hall. apply Forall_insert; [done|].
    apply Hj. by eapply (Forall_lookup_1 _ _ _ _ Hall Hk).
Qed.

Lemma tls_rstep_inv s0 ev (st : running) : tls_inv s0 st → tls_inv s0 (step ev st).
Proof.
  intros Hi. pose proof Hi as [T1 T2 T3 T4]. destruct ev as [|stream peer|error| |k|k| |]; cbn [tls_rstep].
  - destruct (tn_serving st); try done. by apply tls_inv_loop.
  - destruct (tn_serving st); try done. destruct (tn_signal st); [done|]. cbn [next_id].
    split; cbn [tn_log tn_service tn_tasks tn_serving]; try done.
    + intros k t [Hk|[Hk Hl]]%lookup_app_Some; [by apply T2|].
      apply list_lookup_singleton_Some in Hl as [_ <-]. by apply T3.
    + intros k Hk. rewrite length_app in Hk. apply T3. lia.
  - destruct (tn_serving st); try done. destruct (tn_signal st); [done|]. by apply tls_inv_loop.
  - unfold tls_poll_accept. destruct (tn_serving st) as [| |e| |], (tn_signal st); try done;
      try (by apply tls_inv_loop).
    destruct (on_accept_error svc e _) as [action s'] eqn:E.
    apply tls_inv_loop; [done|by exists s'|done|by destruct action].
  - destruct (tn_tasks st !! k) as [t|] eqn:Hk; [|done].
    destruct (run_tls_task _ _ _ _ _ _ _ _) as [[t' s'] calls] eqn:E.
    destruct (run_tls_task_accounted _ _ _ _ _ _ _ _ E (T2 k t Hk)) as (H1 & H2 & H3 & H4).
    by eapply tls_inv_task.
  - destruct (tn_serving st) eqn:Es; try done. destruct (tn_tasks st !! k) as [t|] eqn:Hk; [|done]. cbn [mbind option_bind].
    destruct (tls_join t) as [t'|] eqn:Ej; [|done].
    destruct (tls_join_accounted k t t' _ Ej (T2 k t Hk)) as [H1 H2].
    eapply tls_inv_task; try done. by rewrite app_nil_r.
  - destruct (tn_serving st) as [| | |r|]; try done. destruct (forallb _ _) eqn:Hj; [|done].
    apply tls_inv_loop; try done. intros _ _. apply Forall_forall. intros t Hin%list_elem_of_In.
    by apply (proj1 (forallb_forall _ _) Hj).
  - by split.
Qed.

Lemma tls_rrun_inv s0 evs (st : running) :
  tls_inv s0 st → tls_inv s0 (tls_rrun F svc config acceptor evs st).
Proof.
  revert st. induction evs as [|ev evs IH]; intros st H; [done|]. by apply (IH (step ev st)), tls_rstep_inv.
Qed.

Lemma tls_inv_new s0 : tls_inv s0 (TlsRunning_new F svc s0).
Proof. by split. Qed.

(** A connection that has hooks called for it was established. *)
Lemma tls_conn_established s0 (st : running) k conn :
  tls_inv s0 st → conn ∈ conns_of k (tn_log st) →
  ∃ t transport cert, tn_tasks st !! k = Some t ∧
    handshake (tt_stream t) = Some (Ok (transport, cert)) ∧ conn = established t cert.
Proof.
  intros [T1 T2 T3 T4] Hin. destruct (tn_tasks st !! k) as [t|] eqn:Hk.
  - exists t. specialize (T2 k t Hk). unfold tls_accounted in T2. destruct (tt_phase t) as [|e|task| |].
    + destruct T2 as [E _]. rewrite E in Hin. by apply elem_of_nil in Hin.
    + destruct T2 as (_ & E & _). rewrite E in Hin. by apply elem_of_nil in Hin.
    + destruct T2 as (tr & cert & Hh & _ & Hc & _ & Hall & _). exists tr, cert. split_and!; try done.
      rewrite Forall_forall in Hall. by rewrite (Hall conn Hin).
    + destruct T2 as (e & _ & E & _). rewrite E in Hin. by apply elem_of_nil in Hin.
    + destruct T2 as (e & _ & E & _). rewrite E in Hin. by apply elem_of_nil in Hin.
  - apply lookup_ge_None in Hk. destruct (T3 k Hk) as [E _]. rewrite E in Hin. by apply elem_of_nil in Hin.
Qed.

(** A report is of a handshake that failed, is the only one, and for no connection. *)
Lemma tls_failure_reported s0 (st : running) k peer e :
  tls_inv s0 st → TFailed k peer e ∈ tn_log st →
  conns_of k (tn_log st) = [] ∧ failures_of k (tn_log st) = [(peer, e)] ∧
  ∃ t, tn_tasks st !! k = Some t ∧ tt_peer t = peer ∧ handshake (tt_stream t) = Some (Err e).
Proof.
  intros [T1 T2 T3 T4] Hin.
  assert ((peer, e) ∈ failures_of k (tn_log st)) as Hf.
  { apply list_elem_of_omap. exists (TFailed k peer e). split; [done|]. by rewrite decide_True. }
  destruct (tn_tasks st !! k) as [t|] eqn:Hk.
  - specialize (T2 k t Hk). unfold tls_accounted in T2. destruct (tt_phase t) as [|e'|task| |].
    + destruct T2 as [_ E]. rewrite E in Hf. by apply elem_of_nil in Hf.
    + destruct T2 as (_ & _ & E). rewrite E in Hf. by apply elem_of_nil in Hf.
    + destruct T2 as (tr & cert & _ & _ & _ & _ & _ & E). rewrite E in Hf. by apply elem_of_nil in Hf.
    + destruct T2 as (e' & Hh & E & Ef). rewrite Ef in Hf. apply list_elem_of_singleton in Hf as [= -> ->].
      split_and!; [done|done|]. by exists t.
    + destruct T2 as (e' & Hh & E & Ef). rewrite Ef in Hf. apply list_elem_of_singleton in Hf as [= -> ->].
      split_and!; [done|done|]. by exists t.
  - apply lookup_ge_None in Hk. destruct (T3 k Hk) as [_ E]. rewrite E in Hf. by apply elem_of_nil in Hf.
Qed.

(** A connection that has ended was served as its decrypted stream alone. *)
Lemma tls_connection_alone s0 (st : running) k t task outcome :
  tls_inv s0 st → tn_tasks st !! k = Some t → tt_phase t = TServing task →
  ct_phase task = TaskDone outcome ∨ ct_phase task = TaskJoined outcome →
  ∃ accept fuel signals transport cert, handshake (tt_stream t) = Some (Ok (transport, cert)) ∧
    connects k (base_calls (tn_log st)) = [accept] ∧
    serve_connection_over F (Scripted accept) config (established t cert) fuel signals
      (answers_to k (base_calls (tn_log st))) transport = Some (Finished outcome ([], ct_transport task)).
Proof.
  intros [T1 T2 T3 T4] Hk Hph Hp. specialize (T2 k t Hk). unfold tls_accounted in T2. rewrite Hph in T2.
  destruct T2 as (tr & cert & Hh & Ht & Hc & Ha & _).
  destruct Ha as [(Hs & _)|(accept & Hcs & Hin)]; [destruct Hp; congruence|].
  assert (∃ fuel signals, ∀ later,
    serve_connection_over F (Scripted accept) config (ct_conn task) fuel signals
      (answers_to k (base_calls (tn_log st)) ++ later) (FrameTransport_new (ct_stream task)) =
    Some (Finished outcome (later, ct_transport task)))
    as (fuel & signals & H) by (destruct Hp as [Hp|Hp]; rewrite Hp in Hin; exact Hin).
  exists accept, fuel, signals, tr, cert. split_and!; try done.
  rewrite <- Hc, <- Ht. specialize (H []). by rewrite app_nil_r in H.
Qed.

(** ** Which tasks there are *)

(** What a task was accepted with. *)
Definition accepted_with (t : task_) : Stream * SocketAddr := (tt_stream t, tt_peer t).

(** The connection an event brings to a loop that is accepting and not stopped. *)
Definition connects_now (ev : RunEvent) (st : running) : list (Stream * SocketAddr) :=
  match ev, tn_serving st, tn_signal st with
  | Arrive stream peer, Accepting, false => [(stream, peer)]
  | _, _, _ => []
  end.

(** Those of a run, in order. *)
Fixpoint connected_in (evs : list RunEvent) (st : running) : list (Stream * SocketAddr) :=
  match evs with
  | [] => []
  | ev :: evs' => connects_now ev st ++ connected_in evs' (step ev st)
  end.

Lemma with_task_accepted k t t' s calls (st : running) :
  tn_tasks st !! k = Some t → accepted_with t' = accepted_with t →
  accepted_with <$> tn_tasks (tls_with_task k t' s calls st) = accepted_with <$> tn_tasks st.
Proof.
  intros Hk Ht. cbn. rewrite list_fmap_insert, Ht. apply list_insert_id. by rewrite list_lookup_fmap, Hk.
Qed.

Lemma run_tls_task_accepted k signal (t t' : task_) (s s' : SvcState svc) calls :
  run_tls_task F svc config acceptor k signal t s = (t', s', calls) → accepted_with t' = accepted_with t.
Proof.
  unfold run_tls_task. destruct (tt_phase t) as [|e|task| |]; try (by intros [= <- _ _]).
  - destruct (handshake (tt_stream t)) as [[[tr cert]|e|]|]; by intros [= <- _ _].
  - destruct (run_task _ _ _ _ _ _ _) as [[task' s1] calls1]. by intros [= <- _ _].
Qed.

Lemma tls_join_accepted (t t' : task_) : tls_join t = Some t' → accepted_with t' = accepted_with t.
Proof.
  unfold tls_join. destruct (tt_phase t) as [|e|task| |]; try done; [|by intros [= <-]].
  destruct (ct_phase task); try done. by intros [= <-].
Qed.

(** An event adds the task of the connection it brings, and keeps the others. *)
Lemma tls_rstep_connects ev (st : running) :
  accepted_with <$> tn_tasks (step ev st) = (accepted_with <$> tn_tasks st) ++ connects_now ev st.
Proof.
  destruct ev as [|stream peer|error| |k|k| |]; cbn [tls_rstep connects_now]; rewrite ?app_nil_r; try done.
  - by destruct (tn_serving st).
  - destruct (tn_serving st), (tn_signal st); rewrite ?app_nil_r; try done. cbn. by rewrite fmap_app.
  - by destruct (tn_serving st), (tn_signal st).
  - unfold tls_poll_accept. destruct (tn_serving st) as [| |e| |], (tn_signal st); try done.
    by destruct (on_accept_error svc e _).
  - destruct (tn_tasks st !! k) as [t|] eqn:Hk; [|done].
    destruct (run_tls_task _ _ _ _ _ _ _ _) as [[t' s'] calls] eqn:E.
    eapply with_task_accepted; [done|by eapply run_tls_task_accepted].
  - destruct (tn_serving st); try done. destruct (tn_tasks st !! k) as [t|] eqn:Hk; [|done].
    cbn [mbind option_bind]. destruct (tls_join t) as [t'|] eqn:Ej; [|done].
    eapply with_task_accepted; [done|by eapply tls_join_accepted].
  - destruct (tn_serving st); try done. by destruct (forallb _ _).
Qed.

Lemma tls_rrun_connects evs (st : running) :
  accepted_with <$> tn_tasks (tls_rrun F svc config acceptor evs st) =
    (accepted_with <$> tn_tasks st) ++ connected_in evs st.
Proof.
  revert st. induction evs as [|ev evs IH]; intros st; cbn [connected_in]; [by rewrite app_nil_r|].
  change (tls_rrun F svc config acceptor (ev :: evs) st) with (tls_rrun F svc config acceptor evs (step ev st)).
  by rewrite IH, tls_rstep_connects, <- app_assoc.
Qed.

(** Tasks keep their sockets. *)
Lemma tls_rrun_stream evs (st : running) k t :
  tn_tasks st !! k = Some t →
  ∃ t', tn_tasks (tls_rrun F svc config acceptor evs st) !! k = Some t' ∧ tt_stream t' = tt_stream t.
Proof.
  intros Hk. assert ((accepted_with <$> tn_tasks (tls_rrun F svc config acceptor evs st)) !! k =
    Some (accepted_with t)) as H.
  { rewrite tls_rrun_connects. apply lookup_app_l_Some. by rewrite list_lookup_fmap, Hk. }
  apply list_lookup_fmap_Some in H as (t' & E & Ht). exists t'. split; [done|]. by injection E.
Qed.

(** A peer that never finishes its handshake keeps serving from returning, whatever
    happens later, since its task is never joined. *)
Lemma tls_rrun_stalled s0 evs evs' k t :
  let st := tls_rrun F svc config acceptor evs (TlsRunning_new F svc s0) in
  tn_tasks st !! k = Some t → handshake (tt_stream t) = None →
  ∀ r, tn_serving (tls_rrun F svc config acceptor evs' st) ≠ ServeReturned r.
Proof.
  intros st Hk Hh r Hr.
  pose proof (tls_rrun_inv s0 evs _ (tls_inv_new s0)) as Hi. fold st in Hi.
  enough (∃ t', tn_tasks (tls_rrun F svc config acceptor evs' st) !! k = Some t' ∧ tt_stream t' = tt_stream t)
    as (t' & Hk' & Es).
  { pose proof (tls_rrun_inv s0 evs' _ Hi) as [_ T2 _ T4].
    pose proof (Forall_lookup_1 _ _ _ _ (T4 r Hr) Hk') as Hj. specialize (T2 k t' Hk').
    unfold tls_accounted in T2. unfold tls_joined in Hj. rewrite Es, Hh in T2.
    destruct (tt_phase t'); try done; [by destruct T2 as (tr & cert & E & _)|by destruct T2 as (e & E & _)]. }
  by apply tls_rrun_stream.
Qed.
End runs.

(** ** What a TLS server promises *)

Section claims.
Context `{HT : RustlsTypes} `{RL : !Rustls} `{TP : !TlsPeers} `{RS : !RustlsSpec}.
Context {F : Framing} {SF : ServerFraming F} {svc : Service} {config : ServerConfig}.

(** C23. Serving over TLS.  In every run of a server, however its accept loop, its
    handshakes and its connections are interleaved: there is one task for each
    connection that reached the loop while it was accepting, not stopped, in the
    order they came, with that socket and the address it came from.  Every hook that
    is called for a connection is called with that address and with the certificate
    of its peer: under [Require] one that was offered and that the root store
    verified, under [AllowAny] one that was offered, in the handshake of that
    connection or, where it resumes a TLS session, in the full handshake of the
    session; under [None] with none.  A failed handshake is reported once, with no
    other hook, and with a certificate exactly when the root store rejected it in
    that very handshake.  A connection that has ended was served as its decrypted
    stream alone with the answers it was given; and the state of the service is that
    of its hooks, each taking effect at once, in the order they completed.  Serving
    returns only when every task has been joined (SV-R-030, SV-R-055, SV-R-056,
    TR-R-066, TR-R-067, TR-R-069). *)
Theorem tls_requests_authenticated tls cfg s0 evs :
  server_config tls = Ok cfg →
  let st := tls_rrun F svc config cfg evs (TlsRunning_new F svc s0) in
  accepted_with <$> tn_tasks st =
    connected_in (config := config) (acceptor := cfg) evs (TlsRunning_new F svc s0) ∧
  t_replays s0 (tn_log st) (tn_service st) ∧
  (∀ k conn, conn ∈ conns_of k (tn_log st) →
     ∃ t, tn_tasks st !! k = Some t ∧ peer conn = Some (tt_peer t) ∧
       admitted_by (client_certs tls) cfg (tt_stream t) (peer_cert conn)) ∧
  (∀ k address e, TFailed k address e ∈ tn_log st →
     conns_of k (tn_log st) = [] ∧ failures_of k (tn_log st) = [(address, e)] ∧
     ∃ t source cert, tn_tasks st !! k = Some t ∧ tt_peer t = address ∧ e = TlsHandshake source cert ∧
       ∀ c, cert = Some c ↔ ∃ store inter now, client_certs tls = PolicyRequire store ∧
         client_offer cfg (tt_stream t) = Some (c, inter, now) ∧ verdict store c inter now = Some (inr source)) ∧
  (∀ k t task outcome, tn_tasks st !! k = Some t → tt_phase t = TServing task →
     ct_phase task = TaskDone outcome ∨ ct_phase task = TaskJoined outcome →
     ∃ accept fuel signals transport cert, handshake_framed F cfg (tt_stream t) = Some (Ok (transport, cert)) ∧
       connects k (base_calls (tn_log st)) = [accept] ∧
       serve_connection_over F (Scripted accept) config (established t cert) fuel signals
         (answers_to k (base_calls (tn_log st))) transport = Some (Finished outcome ([], ct_transport task))) ∧
  (∀ r, tn_serving st = ServeReturned r → Forall (λ t, tls_joined t = true) (tn_tasks st)).
Proof.
  intros Hcfg st.
  pose proof (tls_rrun_inv (config := config) (acceptor := cfg) s0 evs _ (tls_inv_new s0)) as Hi. fold st in Hi.
  split_and!.
  - exact (tls_rrun_connects (config := config) (acceptor := cfg) evs (TlsRunning_new F svc s0)).
  - apply Hi.
  - intros k conn Hin. destruct (tls_conn_established _ _ _ _ Hi Hin) as (t & tr & cert & Hk & Hh & ->).
    exists t. split_and!; [done|done|]. by apply (tls_client_certificates tls cfg F _ _ Hcfg Hh).
  - intros k address e Hin. destruct (tls_failure_reported _ _ _ _ _ Hi Hin) as (H1 & H2 & t & Hk & Ha & Hh).
    split_and!; [done|done|]. pose proof (tls_client_certificates tls cfg F _ _ Hcfg Hh) as Hc.
    destruct e; try done. by eexists t, _, _.
  - intros k t task outcome. by apply (tls_connection_alone s0).
  - apply Hi.
Qed.
End claims.

(** ** Witness *)

Section witness.
Local Existing Instance winnow_model.
Local Existing Instances Toy.types Toy.rustls Toy.peers Toy.spec.

(** A peer the root store trusts, that asks one thing and closes. *)
Definition trusted_peer : Stream :=
  mkStream (mkReadHalf [Ready (Bytes [9; 9]); Ready (Bytes [0; 1; 0; 0; 0; 2; 1; 17]); Ready (Bytes [])])
    (mkWriteHalf [(WroteAll, Flushed)] []).

Definition demanding_config : RustlsServerConfig :=
  mkRustlsServerConfig (Some (CapturingClientCertVerifier (Toy.verifier [[9; 9]]))) ([[1]], tt).

Definition tls_peer_at (port : Z) : SocketAddr := mkSocketAddr (V4 0x7F000001) port.

(** One that resumes the session of such a peer. *)
Definition returning_peer : Stream :=
  mkStream (mkReadHalf [Ready (Bytes [1]); Ready (Bytes [0; 1; 0; 0; 0; 2; 1; 17]); Ready (Bytes [])])
    (mkWriteHalf [(WroteAll, Flushed)] []).

(** A stranger, a trusted peer and a returning one, served at once; then shutdown. *)
Definition stranger_and_friends : list RunEvent :=
  [Serve; Arrive Toy.stranger (tls_peer_at 1); Arrive trusted_peer (tls_peer_at 2);
   Arrive returning_peer (tls_peer_at 3); PollTask 2; PollTask 1; PollTask 0; PollTask 1; PollTask 0] ++
  replicate 8 (PollTask 1) ++ replicate 8 (PollTask 2) ++
  [Shutdown; PollAccept; JoinTask 0; JoinTask 1; JoinTask 2; ReturnServe].

Definition both_answers : list (option ResponsePdu + ExceptionCode) :=
  replicate 2 (inl (Some (Resp_ReportServerId [42]))).

Local Abbreviation run := (tls_rrun Tcp_framing (Scripted Accept) (mkServerConfig None) demanding_config
  stranger_and_friends (TlsRunning_new Tcp_framing (Scripted Accept) both_answers)).

Lemma demanding_configured : server_config Toy.demanding = Ok demanding_config.
Proof. cbv. reflexivity. Qed.

Lemma tls_requests_authenticated_witness :
  failures_of 0 (tn_log run) = [(tls_peer_at 1, TlsHandshake 7 (Some [4; 2]))] ∧
  length (conns_of 1 (tn_log run)) = 3%nat ∧ length (conns_of 2 (tn_log run)) = 3%nat ∧
  (∀ conn, conn ∈ conns_of 2 (tn_log run) → peer conn = Some (tls_peer_at 3) ∧ peer_cert conn = Some [9; 9]) ∧
  Forall (λ t, tls_joined t = true) (tn_tasks run).
Proof.
  destruct (tls_requests_authenticated (F := Tcp_framing) (svc := Scripted Accept)
    (config := mkServerConfig None) Toy.demanding demanding_config both_answers stranger_and_friends
    demanding_configured) as (H0 & _ & H2 & _ & _ & H5).
  split; [vm_compute; reflexivity|]. split; [vm_compute; reflexivity|]. split; [vm_compute; reflexivity|].
  split.
  - intros conn Hin. destruct (H2 2%nat conn Hin) as (t & Hk & Hpeer & c & inter & now & Ho & Hc & _).
    assert (accepted_with <$> tn_tasks run !! 2%nat = Some (returning_peer, tls_peer_at 3)) as E
      by (vm_compute; reflexivity).
    rewrite Hk in E. injection E as E Ep. split; [by rewrite Hpeer, Ep|].
    rewrite E in Ho. cbn in Ho. injection Ho as <- _ _. exact Hc.
  - apply (H5 (Ok tt)). vm_compute. reflexivity.
Defined.
End witness.
