(* ===== verification/Network.v ===== *)
(** * Clients and a server on a network

    Any number of clients ([src/client/mod.rs]), each over its own connection to
    one server ([src/server/mod.rs]) that serves all of them at once.  The network
    carries the bytes of each direction in order, in pieces of any size and after
    any delay, and may break a direction at any moment; clients call, poll and give
    up when they like.  A run is any sequence of these events.  The history of a
    run records the calls, the requests the service was asked, and the returns. *)

From S2P Require Import Prelude.
From S2P Require Import Errors.
From S2P Require Import Parse.
From S2P Require Import Value.
From S2P Require Import Function.
From S2P Require Import Exception.
From S2P Require Import Wire.
From S2P Require Import Pdu.
From S2P Require Import PduSpec.
From S2P Require Import PduRoundtrip.
From S2P Require Import Framing.
From S2P Require Import Transport.
From S2P Require Import TransportSpec.
From S2P Require Import TransportTheorems.
From S2P Require Import Outgoing.
From S2P Require Import Framed.
From S2P Require Import Client.
From S2P Require Import ClientOver.
From S2P Require Import Server.
From S2P Require Import ServerTheorems.
From S2P Require Import Link.
From S2P Require Import Typed.
From S2P Require Import OverTheWire.
From S2P Require Import Growing.
From S2P Require Import ServerLife.
From S2P Require Import Concurrent.

Local Abbreviation Answer := (option ResponsePdu + ExceptionCode)%type.

(** What can be observed: a call begins, the service is asked, a call returns.
    The number is that of the client and of the task of its connection. *)
Inductive Observed :=
  | Called (k : nat) (unit : UnitId) (request : RequestPdu)
  | Handled (k : nat) (unit : UnitId) (request : RequestPdu) (answer : Answer)
  | ReturnedTo (k : nat) (r : Result (option ResponsePdu)).

(** ** A client, from one await to the next *)

(** A call in progress: over, waiting for a response, or waiting to write. *)
Inductive Progress (F : Framing) (T : Type) :=
  | Over (r : Result (option ResponsePdu)) (cl : ClientOver T)
  | Awaiting (header : Header F) (expected : FunctionCode) (cl : ClientOver T)
  | Writing (cl : ClientOver T).
Arguments Over {F T}.
Arguments Awaiting {F T}.
Arguments Writing {F T}.

Section client.
Context {F : Framing} {CF : ClientFraming F} {T : Type} {CT : ClientTransport F T}.

(** [Client::call] up to its first receive. *)
Definition begin_call (unit : UnitId) (request : RequestPdu) (cl : ClientOver T) : Progress F T :=
  let '(mkClientOver t cfg c) := cl in
  if is_desynchronized c then Over (Err Desynchronized) cl else
  match RequestPdu_encode request with
  | Err e => Over (Err e) cl
  | Panic => Over Panic cl
  | Ok _ =>
      let transaction := next_transaction c in
      let header := request_header unit transaction in
      match ct_send_request header request t with
      | Unfinished t' => Writing (mkClientOver t' cfg c)
      | Finished (Err error) t' =>
          Over (Err error)
            (mkClientOver t' cfg (set_state (Unusable (classify_unusable_reason error)) c))
      | Finished Panic t' => Over Panic (mkClientOver t' cfg c)
      | Finished (Ok _) t' =>
          let cl' := mkClientOver t' cfg (mkClient (next transaction) (state c)) in
          if is_broadcast unit then Over (Ok None) cl'
          else Awaiting header (RequestPdu_function request) cl'
      end
  end.

(** One pass of its loop; a receive that does not finish waits, until the deadline
    has passed. *)
Definition await_step (deadline : bool) (header : Header F) (expected : FunctionCode)
    (cl : ClientOver T) : Progress F T :=
  let '(mkClientOver t cfg c) := cl in
  match ct_recv_response t with
  | Unfinished t' =>
      if deadline
      then Over (Err (Timeout "response")) (mkClientOver t' cfg (set_state (Unusable Silent) c))
      else Awaiting header expected cl
  | Finished (Err error) t' =>
      Over (Err error) (mkClientOver t' cfg (set_state (state_after_error F error) c))
  | Finished Panic t' => Over Panic (mkClientOver t' cfg c)
  | Finished (Ok (header_in, response)) t' =>
      if negb (is_response_to header header_in) then Awaiting header expected (mkClientOver t' cfg c)
      else
        let cl' := mkClientOver t' cfg (set_state Answered c) in
        let actual := ResponsePdu_function response in
        if negb (bool_decide (actual = expected))
        then Over (Err (UnexpectedFunction expected actual)) cl'
        else Over (Ok (Some response)) cl'
  end.

Lemma await_over_step fuel header expected cfg c (t : T) :
  await_over (S fuel) header expected c t =
  match await_step true header expected (mkClientOver t cfg c) with
  | Over r cl => Some (r, co_client cl, co_transport cl)
  | Awaiting header expected cl => await_over fuel header expected (co_client cl) (co_transport cl)
  | Writing _ => None
  end.
Proof.
  cbn [await_over await_step]. destruct (ct_recv_response t) as [[[h r]|e|] t'|t']; try done.
  destruct (is_response_to header h); [|done]. cbn [negb]. by destruct (bool_decide _).
Qed.

(** [call_over] is [begin_call] and then passes of [await_step]. *)
Lemma call_over_steps fuel u request (cl : ClientOver T) :
  call_over fuel u request cl =
  match begin_call u request cl with
  | Over r cl' => Some (Finished r cl')
  | Writing cl' => Some (Unfinished cl')
  | Awaiting header expected cl' =>
      '(r, c, t) ← await_over fuel header expected (co_client cl') (co_transport cl');
      Some (Finished r (mkClientOver t (co_config cl') c))
  end.
Proof.
  destruct cl as [t cfg c]. unfold call_over, begin_call.
  destruct (is_desynchronized c); [done|]. destruct (RequestPdu_encode request); [|done..].
  destruct (ct_send_request _ _ t) as [[[]|e|] t'|t']; try done. by destruct (is_broadcast u).
Qed.
End client.

Section network.
Context (F : Framing) {CF : ClientFraming F} {SF : ServerFraming F}.
Context (svc : Service) (config : ServerConfig).

Local Abbreviation client_ := (ClientOver (FrameTransport F)).

(** ** The network *)

(** What a client is doing, besides its [Client]. *)
Inductive PeerPhase :=
  | PeerIdle
  | PeerAwaiting (header : Header F) (expected : FunctionCode)
  | PeerWriting.

(** A client and its connection: how many bytes of each direction have been
    delivered, and whether it is broken. *)
Record Peer := mkPeer {
  pr_client : client_;
  pr_phase : PeerPhase;
  pr_up : nat;
  pr_up_broken : bool;
  pr_down : nat;
  pr_down_broken : bool;
}.

Record Network := mkNetwork {
  nw_server : Running F svc;
  nw_peers : list Peer;
  nw_history : list Observed;
}.

(** A server that has not begun to serve, and no clients. *)
Definition Network_new (s : SvcState svc) : Network := mkNetwork (Running_new F svc s) [] [].

(** What happens: a client connects, calls, polls its receive or reaches its
    deadline; bytes travel up or down; a direction breaks; the server steps. *)
Inductive NetEvent :=
  | Dial (peer : SocketAddr) (client_writes server_writes : list (WriteAll * Flush))
  | CallFrom (k : nat) (unit : UnitId) (request : RequestPdu)
  | PollClient (k : nat)
  | Expire (k : nat)
  | Upstream (k n : nat)
  | Downstream (k n : nat)
  | BreakUp (k : nat) (error : option (ErrorKind * option Z))
  | BreakDown (k : nat) (error : option (ErrorKind * option Z))
  | OnServer (ev : RunEvent).

Definition open_stream (writes : list (WriteAll * Flush)) : Stream :=
  mkStream (mkReadHalf []) (mkWriteHalf writes []).

Definition dialled (writes : list (WriteAll * Flush)) : Peer :=
  mkPeer (Client_over (FrameTransport_new (open_stream writes))) PeerIdle 0 false 0 false.

(** A call that progressed. *)
Definition progressed (k : nat) (pr : Progress F (FrameTransport F)) (p : Peer) : Peer * list Observed :=
  let put cl phase :=
    mkPeer cl phase (pr_up p) (pr_up_broken p) (pr_down p) (pr_down_broken p) in
  match pr with
  | Over r cl => (put cl PeerIdle, [ReturnedTo k r])
  | Awaiting header expected cl => (put cl (PeerAwaiting header expected), [])
  | Writing cl => (put cl PeerWriting, [])
  end.

Definition peer_transport (p : Peer) : FrameTransport F := co_transport (pr_client p).

(** The bytes on their way to the server, and to the client; a broken direction
    carries none. *)
Definition up_left (p : Peer) : list Z :=
  if pr_up_broken p then [] else drop (pr_up p) (on_wire (write_half (ft_stream (peer_transport p)))).
Definition down_left (p : Peer) (task : ConnTask F) : list Z :=
  if pr_down_broken p then []
  else drop (pr_down p) (on_wire (write_half (ft_stream (ct_transport task)))).

(** What one read may return of them. *)
Definition piece (n : nat) (bs : list Z) : list Z := take (Nat.min n (Z.to_nat READ_CHUNK)) bs.

Definition broken_read (error : option (ErrorKind * option Z)) : ReadResult :=
  match error with Some (kind, raw) => Failed kind raw | None => Bytes [] end.

(** The server's end of a connection sees [evs]. *)
Definition feed_task (evs : list Event) (task : ConnTask F) : ConnTask F :=
  let s := ct_stream task in
  mkConnTask (ct_conn task)
    (mkStream (mkReadHalf (arrivals (read_half s) ++ evs)) (write_half s))
    (feed evs (ct_transport task)) (ct_phase task).

Definition feed_peer (evs : list Event) (p : Peer) : client_ :=
  let '(mkClientOver t cfg c) := pr_client p in mkClientOver (feed evs t) cfg c.

(** A new state of client [k] and of its connection's task. *)
Definition put_both (k : nat) (p : Peer) (task : ConnTask F) (obs : list Observed) (nw : Network)
    : Network :=
  let st := nw_server nw in
  mkNetwork (with_task F svc k task (rn_service st) [] st) (<[k := p]> (nw_peers nw))
    (nw_history nw ++ obs).

(** The requests among the calls of the service. *)
Definition asked (call : HookCall) : option Observed :=
  match call with
  | RequestHook k _ unit request answer => Some (Handled k unit request answer)
  | _ => None
  end.

Definition server_step (ev : RunEvent) (nw : Network) : Network :=
  let st := nw_server nw in
  let st' := rstep F svc config ev st in
  mkNetwork st' (nw_peers nw)
    (nw_history nw ++ omap asked (drop (length (rn_log st)) (rn_log st'))).

(** A client's own step; its task is left as it is. *)
Definition peer_event (ev : NetEvent) (k : nat) (p : Peer) (task : ConnTask F)
    : Peer * ConnTask F * list Observed :=
  match ev, pr_phase p with
  | CallFrom _ unit request, PeerIdle =>
      let '(p', obs) := progressed k (begin_call unit request (pr_client p)) p in
      (p', task, Called k unit request :: obs)
  | PollClient _, PeerAwaiting header expected =>
      let '(p', obs) := progressed k (await_step false header expected (pr_client p)) p in
      (p', task, obs)
  | Expire _, PeerAwaiting header expected =>
      let '(p', obs) := progressed k (await_step true header expected (pr_client p)) p in
      (p', task, obs)
  | Upstream _ n, phase =>
      match piece n (up_left p) with
      | [] => (p, task, [])
      | bs => (mkPeer (pr_client p) phase (pr_up p + length bs) (pr_up_broken p) (pr_down p)
                 (pr_down_broken p), feed_task [Ready (Bytes bs)] task, [])
      end
  | Downstream _ n, phase =>
      match piece n (down_left p task) with
      | [] => (p, task, [])
      | bs => (mkPeer (feed_peer [Ready (Bytes bs)] p) phase (pr_up p) (pr_up_broken p)
                 (pr_down p + length bs) (pr_down_broken p), task, [])
      end
  | BreakUp _ error, phase =>
      if pr_up_broken p then (p, task, []) else
      (mkPeer (pr_client p) phase (pr_up p) true (pr_down p) (pr_down_broken p),
       feed_task [Ready (broken_read error)] task, [])
  | BreakDown _ error, phase =>
      if pr_down_broken p then (p, task, []) else
      (mkPeer (feed_peer [Ready (broken_read error)] p) phase (pr_up p) (pr_up_broken p)
         (pr_down p) true, task, [])
  | _, _ => (p, task, [])
  end.

Definition on_peer (ev : NetEvent) (k : nat) (nw : Network) : Network :=
  match nw_peers nw !! k, rn_tasks (nw_server nw) !! k with
  | Some p, Some task =>
      let '(p', task', obs) := peer_event ev k p task in put_both k p' task' obs nw
  | _, _ => nw
  end.

Definition nstep (ev : NetEvent) (nw : Network) : Network :=
  match ev with
  | Dial peer client_writes server_writes =>
      match rn_serving (nw_server nw), rn_signal (nw_server nw) with
      | Accepting, false =>
          mkNetwork (rstep F svc config (Arrive (open_stream server_writes) peer) (nw_server nw))
            (nw_peers nw ++ [dialled client_writes]) (nw_history nw)
      | _, _ => nw
      end
  | OnServer (Arrive _ _) => nw
  | OnServer ev => server_step ev nw
  | CallFrom k _ _ | PollClient k | Expire k | Upstream k _ | Downstream k _
  | BreakUp k _ | BreakDown k _ => on_peer ev k nw
  end.

Definition nrun (evs : list NetEvent) (nw : Network) : Network := foldl (λ nw ev, nstep ev nw) nw evs.
End network.

Arguments PeerIdle {F}.
Arguments PeerAwaiting {F}.
Arguments PeerWriting {F}.
Arguments mkPeer {F}.
Arguments pr_client {F}.
Arguments pr_phase {F}.
Arguments pr_up {F}.
Arguments pr_up_broken {F}.
Arguments pr_down {F}.
Arguments pr_down_broken {F}.
Arguments nw_server {F svc}.
Arguments nw_peers {F svc}.
Arguments nw_history {F svc}.
Arguments mkNetwork {F svc}.
Arguments peer_transport {F}.
Arguments up_left {F}.
Arguments down_left {F}.
Arguments progressed {F}.
Arguments feed_task {F}.
Arguments feed_peer {F}.
Arguments peer_event {F CF}.
Arguments put_both {F svc}.
