(* ===== verification/Cancelled.v ===== *)
(** * Calls that are dropped ([src/client/mod.rs])

    The future of [Client::call] may be dropped at either of its awaits, as by a
    timeout of the caller's own.  Dropped at the receive, it leaves the transport
    in a receive; dropped at the write, it leaves a part of its ADU on the wire.
    In both cases the state of the client is what it was. *)

From S2P Require Import Prelude.
From S2P Require Import Errors.
From S2P Require Import Parse.
From S2P Require Import Value.
From S2P Require Import Function.
From S2P Require Import Wire.
From S2P Require Import Pdu.
From S2P Require Import Framing.
From S2P Require Import Tcp.
From S2P Require Import Transport.
From S2P Require Import Outgoing.
From S2P Require Import Framed.
From S2P Require Import Client.
From S2P Require Import ClientOver.
From S2P Require Import Server.
From S2P Require Import Link.
From S2P Require Import Device.
From S2P Require Import Interop.
From S2P Require Import Network.

Section dropped.
Context {F : Framing} {CF : ClientFraming F}.

Local Abbreviation client_ := (ClientOver (FrameTransport F)).

(** The client after its call was dropped at the receive. *)
Definition dropped_waiting (cl : client_) : client_ :=
  match ft_recv_response (co_transport cl) with
  | Unfinished t => mkClientOver t (co_config cl) (co_client cl)
  | Finished _ _ => cl
  end.

(** The client after its call was dropped at the write, [n] bytes of the ADU being
    on the wire. *)
Definition dropped_writing (n : nat) (unit : UnitId) (request : RequestPdu) (cl : client_) : client_ :=
  let '(mkClientOver t cfg c) := cl in
  match encode_request_into F (request_header unit (next_transaction c)) request [] with
  | (Ok _, out) =>
      let wh := write_half (ft_stream t) in
      mkClientOver (ft_after_send t (mkWriteHalf (departures wh) (on_wire wh ++ take n out), out)) cfg c
  | _ => cl
  end.

(** A receive that waits holds the latch, and the next one is refused. *)
Lemma waiting_latched (t t' : FrameTransport F) :
  ft_recv_response t = Unfinished t' → ft_receiving t' = true.
Proof.
  unfold ft_recv_response, recv_response, recv_adu. cbn [receiving buffer].
  destruct (ft_receiving t); [done|].
  destruct (read_adu F DirResponse _ _) as [r b tr|b]; [done|]. by intros [= <-].
Qed.

Lemma latched_refuses (t : FrameTransport F) :
  ft_receiving t = true → ∃ t', ft_recv_response t = Finished (Err (Timeout "receive")) t'.
Proof.
  intros H. unfold ft_recv_response, recv_response, recv_adu. cbn [receiving]. rewrite H. cbn. by eexists.
Qed.

(** After a call that was dropped while it waited, a later call never takes the
    response that was due to it: it fails, and from then on the client is unusable
    (CL-R-024, TR-R-090). *)
Lemma call_after_dropped_wait fuel u q pdu (cl : client_) t r cl' :
  ft_recv_response (co_transport cl) = Unfinished t → is_broadcast (F := F) u = false →
  RequestPdu_encode q = Ok pdu →
  call_over (S fuel) u q (dropped_waiting cl) = Some (Finished r cl') →
  (∀ response, r ≠ Ok response) ∧ (∀ e, r = Err e → is_desynchronized (co_client cl') = true).
Proof.
  intros Ht Hb He. unfold dropped_waiting. rewrite Ht. apply waiting_latched in Ht. unfold call_over.
  destruct (is_desynchronized (co_client cl)) eqn:Hd; [by intros [= <- <-]|]. rewrite He, Hb.
  cbn [ct_send_request FrameTransport_ClientTransport]. unfold ft_send_request.
  destruct (send_over _ _) as [[[]|e|] s|s]; cbn [lift_poll]; [|by intros [= <- <-]..|done].
  destruct (latched_refuses (ft_after_send t s) Ht) as [t' E].
  cbn [await_over ct_recv_response FrameTransport_ClientTransport]. rewrite E. cbn [mbind option_bind].
  intros [= <- <-]. split; [done|]. by intros e [= <-].
Qed.

(** A call that is dropped while it writes does not make the client unusable,
    although a part of its ADU may be on the wire (against CL-R-013). *)
Lemma dropped_writing_usable n u q (cl : client_) :
  is_desynchronized (co_client (dropped_writing n u q cl)) = is_desynchronized (co_client cl).
Proof.
  destruct cl as [t cfg c]. unfold dropped_writing. by destruct (encode_request_into F _ q []) as [[] out].
Qed.
End dropped.

(** ** What becomes of a dropped write *)

Section example.
Local Existing Instance winnow_model.

Local Abbreviation device := (Device_service linux_errno Linux).

Definition writes_value (value : Z) : RequestPdu :=
  Req_WriteSingleRegister (mkAddress 3) (mkRegisterValue value).

Definition a_client : ClientOver (FrameTransport Tcp_framing) :=
  Client_over (FrameTransport_new (mkStream (mkReadHalf []) (mkWriteHalf [(WroteAll, Flushed)] []))).

(** A client writes 5, drops the call two bytes before the end of its ADU, and then
    calls to write 9: the bytes on the wire, and what the device answers them with. *)
Definition on_the_wire : list Z :=
  match begin_call (mkUnitId 1) (writes_value 9) (dropped_writing 10 (mkUnitId 1) (writes_value 5) a_client) with
  | Awaiting _ _ cl => on_wire (write_half (ft_stream (co_transport cl)))
  | _ => []
  end.

Definition device_replies : option (list Z * list Z) :=
  match exchange_over Tcp_framing device interop_config (Connection_new (mkConnectionId 1) None) 2
    [false; true] Device_default
    (FrameTransport_new (mkStream (mkReadHalf [Ready (Bytes on_the_wire)])
       (mkWriteHalf [(WroteAll, Flushed)] []))) with
  | Some (Finished (Ok ShuttingDown) (_, t)) => Some (on_wire (write_half (ft_stream t)), ft_buffer t)
  | _ => None
  end.

(** The fragment takes the first bytes of the second request for its own: the device
    stores 1, which nobody asked for, and says so. *)
Lemma dropped_write_writes_another_value :
  on_the_wire = [0; 1; 0; 0; 0; 6; 1; 6; 0; 3] ++ [0; 1; 0; 0; 0; 6; 1; 6; 0; 3; 0; 9] ∧
  device_replies = Some ([0; 1; 0; 0; 0; 6; 1; 6; 0; 3; 0; 1], [0; 0; 0; 6; 1; 6; 0; 3; 0; 9]).
Proof. split; vm_compute; reflexivity. Qed.

(** The second call takes that answer for its own. *)
Definition second_call : Result (option ResponsePdu) :=
  match begin_call (mkUnitId 1) (writes_value 9) (dropped_writing 10 (mkUnitId 1) (writes_value 5) a_client) with
  | Awaiting header expected (mkClientOver t cfg c) =>
      match await_step true header expected
        (mkClientOver (ft_after_recv t (mkRecvState [] false,
           mkReadHalf [Ready (Bytes (match device_replies with Some (bs, _) => bs | None => [] end))])) cfg c) with
      | Over r _ => r
      | _ => Panic
      end
  | _ => Panic
  end.

Lemma dropped_write_misleads_the_next_call :
  second_call = Ok (Some (Resp_WriteSingleRegister (mkAddress 3) (mkRegisterValue 1))).
Proof. vm_compute. reflexivity. Qed.
End example.
