(* ===== verification/Linearizable.v ===== *)
(** * Clients of one server see one service

    The specification of [Network]: each client goes through its calls one by one,
    and between the beginning of a call and its return the service is asked once,
    for exactly that request, and the call returns what the service made of it.  A
    call that fails ends the client's session; its request may still be handled,
    once.  Since the service is asked in one order by all, a run is linearizable. *)

From S2P Require Import Prelude.
From S2P Require Import Errors.
From S2P Require Import Parse.
From S2P Require Import Value.
From S2P Require Import Function.
From S2P Require Import Exception.
From S2P Require Import Wire.
From S2P Require Import Pdu.
From S2P Require Import PduSpec.
From S2P Require Import PduRoundtrip.
From S2P Require Import Framing.
From S2P Require Import Transport.
From S2P Require Import TransportSpec.
From S2P Require Import TransportTheorems.
From S2P Require Import Outgoing.
From S2P Require Import Framed.
From S2P Require Import Client.
From S2P Require Import ClientOver.
From S2P Require Import Server.
From S2P Require Import ServerTheorems.
From S2P Require Import Link.
From S2P Require Import Typed.
From S2P Require Import OverTheWire.
From S2P Require Import Growing.
From S2P Require Import ServerLife.
From S2P Require Import Concurrent.
From S2P Require Import Network.

(** ** The session of a client *)

(** A response as it is received: packed bits come in whole bytes. *)
Definition packed (r : ResponsePdu) : ResponsePdu :=
  match r with
  | Resp_ReadCoils cs => Resp_ReadCoils (bits_from_bytes (bits_bytes cs))
  | Resp_ReadDiscreteInputs cs => Resp_ReadDiscreteInputs (bits_from_bytes (bits_bytes cs))
  | _ => r
  end.

(** Between calls; in a call the service has not been asked, or has been, with its
    response; after a failed call, with a request that may still be handled; and in
    a call on a client that is no longer usable. *)
Inductive Session :=
  | Resting
  | Asked (unit : UnitId) (request : RequestPdu)
  | Served (response : option ResponsePdu)
  | Lost (due : option (UnitId * RequestPdu))
  | Refused (due : option (UnitId * RequestPdu)).

Definition session_step (σ : Session) (o : Observed) : option Session :=
  match σ, o with
  | Resting, Called _ u q => Some (Asked u q)
  | Asked u q, Handled _ u' q' answer =>
      if bool_decide ((u, q) = (u', q'))
      then Some (Served (packed <$> response_of (RequestPdu_function q) answer)) else None
  | Asked u q, ReturnedTo _ (Err _) => Some (Lost (Some (u, q)))
  | Served (Some r), ReturnedTo _ (Ok (Some r')) => if bool_decide (r = r') then Some Resting else None
  | Served _, ReturnedTo _ (Err _) => Some (Lost None)
  | Lost due, Called _ _ _ => Some (Refused due)
  | Refused due, ReturnedTo _ (Err Desynchronized) => Some (Lost due)
  | Lost (Some (u, q)), Handled _ u' q' _ =>
      if bool_decide ((u, q) = (u', q')) then Some (Lost None) else None
  | _, _ => None
  end.

Definition about (o : Observed) : nat :=
  match o with Called k _ _ | Handled k _ _ _ | ReturnedTo k _ => k end.

(** The session of client [k] along a history; a history it could not have is
    [None]. *)
Definition session (k : nat) (history : list Observed) : option Session :=
  foldl (λ σ o, if bool_decide (about o = k) then σ ≫= λ σ, session_step σ o else σ)
    (Some Resting) history.

Lemma session_snoc k h o σ :
  session k h = Some σ → about o = k → session k (h ++ [o]) = session_step σ o.
Proof. intros H E. unfold session in *. rewrite foldl_app. cbn. by rewrite bool_decide_true, H. Qed.

Lemma session_elsewhere k h obs :
  Forall (λ o, about o ≠ k) obs → session k (h ++ obs) = session k h.
Proof.
  intros H. unfold session. rewrite foldl_app. generalize (foldl
    (λ σ o, if bool_decide (about o = k) then σ ≫= λ σ, session_step σ o else σ) (Some Resting) h).
  induction H as [|o obs Ho _ IH]; intros σ; [done|]. cbn. rewrite bool_decide_false by done. apply IH.
Qed.

(** ** Services whose answers can be sent *)

Section packing.
Context {w : Winnow}.

Lemma packed_function r : ResponsePdu_function (packed r) = ResponsePdu_function r.
Proof. by destruct r. Qed.

Lemma packed_wf (r : ResponsePdu) : wf r → wf (packed r).
Proof. by destruct r. Qed.

Lemma packed_bytes r : response_bytes (packed r) = response_bytes r.
Proof.
  destruct r; try done; cbn [packed response_bytes]; rewrite <- !len_bits_bytes;
    by rewrite bits_bytes_from_bytes by apply bits_bytes_ok.
Qed.
End packing.

(** What the service answers a request with fits it and can be framed. *)
Definition fits {w : Winnow} (F : Framing) {SD : SelfDelimiting F} (q : RequestPdu) (r : ResponsePdu)
    : Prop :=
  wf r ∧ response_canonical (packed r) = true ∧ (∃ pdu, response_bytes r = Ok pdu) ∧
  ResponsePdu_function r = RequestPdu_function q ∧ delimits_response (F := F) (packed r) = true.

Record Answering {w : Winnow} (F : Framing) {SD : SelfDelimiting F} (svc : Service)
    (I : SvcState svc → Prop) : Prop := {
  an_request conn u q s pdu : I s → wf q → request_bytes q = Ok pdu →
    I (on_request svc conn u q s).2 ∧
    ∀ r, response_of (RequestPdu_function q) (on_request svc conn u q s).1 = Some r → fits F q r;
  an_connect conn s : I s → I (on_connect svc conn s).2;
  an_disconnect conn reason s : I s → I (on_disconnect svc conn reason s);
  an_error conn e s : I s → I (on_error svc conn e s);
  an_accept_error e s : I s → I (on_accept_error svc e s).2;
}.

(** A request that a client can send to one unit, whatever its transaction. *)
Definition callable {w : Winnow} (F : Framing) {CF : ClientFraming F} {SD : SelfDelimiting F}
    (ev : NetEvent) : Prop :=
  match ev with
  | CallFrom _ u q =>
      is_broadcast (F := F) u = false ∧ delimits_request (F := F) q = true ∧
      ∀ tid, wf tid → ∃ adu, encodable_request F (request_header u tid, q) adu
  | _ => True
  end.

(** ** Both ends of a connection *)

Section invariant.
Context {w : Winnow} {ws : WinnowSpec w} {F : Framing} {L : LawfulFraming F}.
Context {CF : ClientFraming F} {SF : ServerFraming F} {DF : DuplexFraming F} {SD : SelfDelimiting F}.

(** A transport that reads a stream that has delivered so far, or that broke after
    it did. *)
Definition reads_from (broken_ : bool) (t : FrameTransport F) : Prop :=
  if broken_ then ∃ rd t0, breaks rd ∧ ft_delivers t0 ∧ t = feed [Ready rd] t0 else ft_delivers t.

Lemma breaks_silent rd : breaks rd → stream [Ready rd] = [].
Proof. by destruct rd as [[]|]. Qed.

Lemma feed_broken_pending rd (t : FrameTransport F) :
  breaks rd → ft_pending (feed [Ready rd] t) = ft_pending t.
Proof. intros H. by rewrite feed_pending, breaks_silent, app_nil_r. Qed.

Lemma reads_from_send b (t : FrameTransport F) s : reads_from b t → reads_from b (ft_after_send t s).
Proof.
  destruct b; [|done]. intros (rd & t0 & Hb & Hd & ->). by exists rd, (ft_after_send t0 s).
Qed.

Section receives.
Context {A : Type} (dir : Direction) (decode : list Z → Result A).

(** A receive over part of a frame. *)
Lemma recv_wired b m adu (t : FrameTransport F) later :
  framed_as (F := F) dir decode m adu → reads_from b t → ft_pending t ++ later = adu →
  (∃ t', ft_recv dir decode t = Unfinished t') ∨
  (∃ t', ft_recv dir decode t = Finished (Ok m) t' ∧ reads_from b t' ∧ ft_pending t' = [] ∧
     later = [] ∧ write_half (ft_stream t') = write_half (ft_stream t)) ∨
  (∃ e t', ft_recv dir decode t = Finished (Err e) t' ∧ ends_stream e = true ∧
     write_half (ft_stream t') = write_half (ft_stream t)).
Proof.
  intros Hf Hr Hp. destruct b.
  - destruct Hr as (rd & t0 & Hb & Hd & ->). rewrite feed_broken_pending in Hp by done.
    destruct (ft_recv_part dir decode m adu t0 later Hf Hd Hp)
      as [[t' E]|(t' & E & Hd' & Hp' & Hl & Hw)].
    + right. right. destruct (ft_recv_breaks dir decode rd t0 t') as (e & t'' & E' & He & Hw');
        [apply not_by_silence|done|done|]. by exists e, t''.
    + right. left. exists (feed [Ready rd] t'). split_and!.
      * by apply ft_recv_grows.
      * by exists rd, t'.
      * by rewrite feed_broken_pending.
      * done.
      * done.
  - destruct (ft_recv_part dir decode m adu t later Hf Hr Hp) as [|(t' & H)]; [by left|].
    right. left. exists t'. naive_solver.
Qed.

(** A receive with nothing to read. *)
Lemma recv_nothing b (t : FrameTransport F) :
  reads_from b t → ft_pending t = [] →
  (∃ t', ft_recv dir decode t = Unfinished t') ∨
  (∃ e t', ft_recv dir decode t = Finished (Err e) t' ∧ ends_stream e = true ∧
     write_half (ft_stream t') = write_half (ft_stream t)).
Proof.
  assert (∀ t : FrameTransport F, ft_delivers t → ft_pending t = [] → ∃ t', ft_recv dir decode t = Unfinished t') as Hw.
  { intros u [Hr Hd] Hp. apply app_eq_nil in Hp as [Hb Hs]. unfold ft_recv, recv_adu.
    cbn [receiving buffer]. rewrite Hr, Hb, adu_waits by done. by eexists. }
  intros Hr Hp. destruct b; [|left; by apply Hw].
  destruct Hr as (rd & t0 & Hb & Hd & ->). rewrite feed_broken_pending in Hp by done.
  destruct (Hw t0 Hd Hp) as [t' E]. right.
  destruct (ft_recv_breaks dir decode rd t0 t') as (e & t'' & E' & He & Hw');
    [apply not_by_silence|done|done|]. by exists e, t''.
Qed.
End receives.

Lemma request_framed_as m adu :
  request_framed F m adu → framed_as (F := F) DirRequest (decode_request F) m adu.
Proof.
  destruct m as [h r]. intros (Hh & Hr & Hc & He & Hl). cbn [fst snd] in *.
  destruct (request_adu_roundtrip h r adu) as (Hd & _ & Hm); [done..|]. exact (conj Hl (conj Hm Hd)).
Qed.

Lemma response_framed_as m adu :
  response_framed F m adu → framed_as (F := F) DirResponse (decode_response F) m adu.
Proof.
  destruct m as [h r]. intros (Hh & Hr & Hc & He & Hl). cbn [fst snd] in *.
  destruct (response_adu_roundtrip h r adu) as (Hd & _ & Hm); [done..|]. exact (conj Hl (conj Hm Hd)).
Qed.

(** *** What the two ends and the bytes between them say of a session *)

Definition quiet (phase : TaskPhase F) : Prop :=
  match phase with Handling _ _ | Sending _ _ => False | _ => True end.
Definition listening (phase : TaskPhase F) : Prop :=
  match phase with Spawned | Exchanging | Handling _ _ | Sending _ _ => True | _ => False end.
Definition usable (p : Peer F) : Prop := is_desynchronized (co_client (pr_client p)) = false.

Definition up_bytes (p : Peer F) (task : ConnTask F) : list Z :=
  ft_pending (ct_transport task) ++ up_left p.
Definition down_bytes (p : Peer F) (task : ConnTask F) : list Z :=
  ft_pending (peer_transport p) ++ down_left p task.

Definition peer_wire (p : Peer F) : list Z := on_wire (write_half (ft_stream (peer_transport p))).
Definition task_wire (task : ConnTask F) : list Z := on_wire (write_half (ft_stream (ct_transport task))).

(** The two ends read what the network gives them. *)
Record wired (p : Peer F) (task : ConnTask F) : Prop := {
  wi_up : listening (ct_phase task) → reads_from (pr_up_broken p) (ct_transport task);
  wi_down : usable p → reads_from (pr_down_broken p) (peer_transport p);
  wi_sent : pr_up_broken p = false → (pr_up p ≤ length (peer_wire p))%nat;
  wi_answered : pr_down_broken p = false → (pr_down p ≤ length (task_wire task))%nat;
  wi_next : wf (next_transaction (co_client (pr_client p)));
}.

(** A header and a frame of a request. *)
Definition carries (u : UnitId) (q : RequestPdu) (header : Header F) (adu : list Z) : Prop :=
  unit_of header = u ∧ addresses_all (F := F) u = false ∧ request_framed F (header, q) adu.

(** Nothing is on its way up. *)
Definition nothing_up (p : Peer F) (task : ConnTask F) : Prop :=
  listening (ct_phase task) → up_bytes p task = [].

(** The frame of a request, or a part of it, is on its way, or has been received
    and awaits its hook. *)
Definition requested (header : Header F) (q : RequestPdu) (adu : list Z) (p : Peer F)
    (task : ConnTask F) : Prop :=
  (quiet (ct_phase task) ∧ (listening (ct_phase task) → up_bytes p task `prefix_of` adu)) ∨
  (ct_phase task = Handling header q ∧ up_bytes p task = []).

(** The response is to be sent, or its frame, or a part of it, is on its way. *)
Definition responded (header : Header F) (adu : list Z) (p : Peer F) (task : ConnTask F) : Prop :=
  (∃ r, ct_phase task = Sending header r ∧ encode_response_into F header r [] = (Ok tt, adu) ∧
     down_bytes p task = []) ∨
  (quiet (ct_phase task) ∧ down_bytes p task `prefix_of` adu).

Definition linked (p : Peer F) (task : ConnTask F) (σ : Session) : Prop :=
  match σ with
  | Resting =>
      usable p ∧ pr_phase p = PeerIdle ∧ quiet (ct_phase task) ∧ nothing_up p task ∧
      down_bytes p task = []
  | Asked u q =>
      usable p ∧ down_bytes p task = [] ∧ ∃ header adu, carries u q header adu ∧
      ((pr_phase p = PeerAwaiting header (RequestPdu_function q) ∧ requested header q adu p task) ∨
       (pr_phase p = PeerWriting ∧ quiet (ct_phase task) ∧ nothing_up p task))
  | Served None =>
      usable p ∧ (∃ header f, pr_phase p = PeerAwaiting header f) ∧ quiet (ct_phase task) ∧
      nothing_up p task ∧ down_bytes p task = []
  | Served (Some r) =>
      usable p ∧ nothing_up p task ∧ ∃ header adu,
      pr_phase p = PeerAwaiting header (ResponsePdu_function r) ∧
      response_framed F (header, r) adu ∧ responded header adu p task
  | Lost None =>
      is_desynchronized (co_client (pr_client p)) = true ∧ pr_phase p = PeerIdle ∧
      (∀ h q, ct_phase task ≠ Handling h q) ∧ nothing_up p task
  | Lost (Some (u, q)) =>
      is_desynchronized (co_client (pr_client p)) = true ∧ pr_phase p = PeerIdle ∧
      ∃ header adu, carries u q header adu ∧ requested header q adu p task
  | Refused _ => False
  end.

(** Bytes may move on, or be lost, without changing the session. *)
Lemma linked_prefix p task p' task' σ :
  linked p task σ → ct_phase task' = ct_phase task → pr_phase p' = pr_phase p →
  co_client (pr_client p') = co_client (pr_client p) →
  up_bytes p' task' `prefix_of` up_bytes p task →
  down_bytes p' task' `prefix_of` down_bytes p task → linked p' task' σ.
Proof.
  intros Hl Hph Hpp Hc Hu Hd.
  assert (down_bytes p task = [] → down_bytes p' task' = []) as Hd0
    by (intros E; rewrite E in Hd; by apply prefix_nil_inv in Hd).
  assert (nothing_up p task → nothing_up p' task') as Hu0.
  { unfold nothing_up. rewrite Hph. intros H Hli. rewrite (H Hli) in Hu. by apply prefix_nil_inv in Hu. }
  assert (∀ h q adu, requested h q adu p task → requested h q adu p' task') as Hreq.
  { intros h q adu. unfold requested. rewrite Hph. intros [[H1 H2]|[H1 H2]]; [left|right].
    - split; [done|]. intros Hli. etrans; [exact Hu|by apply H2].
    - split; [done|]. rewrite H2 in Hu. by apply prefix_nil_inv in Hu. }
  assert (∀ h adu, responded h adu p task → responded h adu p' task') as Hresp.
  { intros h adu. unfold responded. rewrite Hph. intros [(r & H1 & H2 & H3)|[H1 H2]]; [left|right].
    - exists r. auto.
    - split; [done|]. by etrans. }
  destruct σ as [|u q|[r|]|[[u q]|]|due]; cbn [linked] in *; unfold usable in *; rewrite ?Hph, ?Hpp, ?Hc.
  - destruct Hl as (H1 & H2 & H3 & H4 & H5). auto 10.
  - destruct Hl as (H1 & H2 & h & adu & H3 & [[H4 H5]|(H4 & H5 & H6)]);
      (split; [done|]; split; [auto|]; exists h, adu; split; [done|]); [left|right]; auto.
  - destruct Hl as (H1 & H2 & h & adu & H3 & H4 & H5). split; [done|]. split; [auto|].
    exists h, adu. auto.
  - destruct Hl as (H1 & H2 & H3 & H4 & H5). auto 10.
  - destruct Hl as (H1 & H2 & h & adu & H3 & H4). split; [done|]. split; [done|]. exists h, adu. auto.
  - destruct Hl as (H1 & H2 & H3 & H4). auto.
  - done.
Qed.

(** A history that goes on. *)
Definition moves (k : nat) (σ : Session) (obs : list Observed) (σ' : Session) : Prop :=
  ∀ h, session k h = Some σ → session k (h ++ obs) = Some σ'.

Lemma moves_nil k σ : moves k σ [] σ.
Proof. intros h H. by rewrite app_nil_r. Qed.

Lemma moves_cons k σ o σ1 obs σ' :
  about o = k → session_step σ o = Some σ1 → moves k σ1 obs σ' → moves k σ (o :: obs) σ'.
Proof.
  intros Ha Hs Hm h Hh. rewrite cons_middle, app_assoc. apply Hm. by rewrite (session_snoc k h o σ).
Qed.

Lemma moves_one k σ o σ' : about o = k → session_step σ o = Some σ' → moves k σ [o] σ'.
Proof. intros Ha Hs. eapply moves_cons; [done..|apply moves_nil]. Qed.

(** *** Sends *)

(** Whatever a stream does with a frame, it takes a part of it; all of it when the
    send succeeds; and a failed send ends the stream. *)
Lemma send_over_cases (enc : W unit) wh adu :
  enc [] = (Ok tt, adu) →
  ∃ part s, part `prefix_of` adu ∧ on_wire s.1 = on_wire wh ++ part ∧
    ((send_over enc wh = Unfinished s ∧ part = []) ∨
     (send_over enc wh = Finished (Ok tt) s ∧ part = adu) ∨
     (∃ e, send_over enc wh = Finished (Err e) s ∧ ends_stream e = true)).
Proof.
  intros E. unfold send_over. rewrite E. destruct (departures wh) as [|[[|n kind raw] fl] later].
  - exists [], (wh, adu). split_and!; [apply prefix_nil|by rewrite app_nil_r|by left].
  - destruct fl as [|kind raw]; cbn.
    + exists adu, (mkWriteHalf later (on_wire wh ++ adu), []). split_and!; [done..|]. right. by left.
    + eexists adu, _. split_and!; [done| |right; right; by eexists]. done.
  - cbn. eexists (take n adu), _. split_and!; [apply prefix_take| |right; right; by eexists]. done.
Qed.

(** A stream only ever takes more. *)
Lemma send_over_grows (enc : W unit) wh :
  ∃ part, on_wire (after (send_over enc wh)).1 = on_wire wh ++ part.
Proof.
  unfold send_over. destruct (enc []) as [[[]|e|] out]; [|by exists []; cbn; rewrite app_nil_r..].
  destruct (departures wh) as [|[[|n kind raw] [|kind' raw']] later]; cbn; eauto.
  exists []. by rewrite app_nil_r.
Qed.

Lemma drop_more (n : nat) (l k : list Z) : (n ≤ length l)%nat → drop n (l ++ k) = drop n l ++ k.
Proof. intros H. by apply drop_app_le. Qed.

Lemma up_left_sent (p : Peer F) (cl : ClientOver (FrameTransport F)) phase part :
  (pr_up_broken p = false → (pr_up p ≤ length (peer_wire p))%nat) →
  on_wire (write_half (ft_stream (co_transport cl))) = peer_wire p ++ part →
  up_left (mkPeer cl phase (pr_up p) (pr_up_broken p) (pr_down p) (pr_down_broken p)) =
  up_left p ++ (if pr_up_broken p then [] else part).
Proof.
  intros Hle Hw. unfold up_left, peer_transport. cbn [pr_up_broken pr_up pr_client]. rewrite Hw.
  destruct (pr_up_broken p); [done|]. by apply drop_more, Hle.
Qed.

Lemma down_left_sent (p : Peer F) task phase t part :
  (pr_down_broken p = false → (pr_down p ≤ length (task_wire task))%nat) →
  on_wire (write_half (ft_stream t)) = task_wire task ++ part →
  down_left p (moved phase t task) = down_left p task ++ (if pr_down_broken p then [] else part).
Proof.
  intros Hle Hw. unfold down_left. cbn [moved ct_transport]. rewrite Hw.
  destruct (pr_down_broken p); [done|]. by apply drop_more, Hle.
Qed.

Lemma sent_prefix (b : bool) (part adu : list Z) :
  part `prefix_of` adu → (if b then [] else part) `prefix_of` adu.
Proof. destruct b; [intros _; apply prefix_nil|done]. Qed.

(** *** A client calls *)

(** The client of a session: a session that is not lost has a usable one, and an
    idle one is between calls. *)
Lemma unusable_lost p task σ :
  linked p task σ → is_desynchronized (co_client (pr_client p)) = true → ∃ due, σ = Lost due.
Proof.
  intros Hl Hde.
  destruct σ as [|u q|[r|]|due|due]; cbn [linked] in Hl; unfold usable in Hl; [..|by eexists|done];
    destruct Hl; congruence.
Qed.

Lemma usable_idle_rests p task σ :
  linked p task σ → usable p → pr_phase p = PeerIdle → σ = Resting.
Proof.
  unfold usable. intros Hl Hu Hph.
  destruct σ as [|u q|[r|]|[[u q]|]|due]; cbn [linked] in Hl; [done|..|done].
  - destruct Hl as (_ & _ & h & adu & _ & [[H _]|[H _]]); congruence.
  - destruct Hl as (_ & _ & h & adu & H & _); congruence.
  - destruct Hl as (_ & (h & f & H) & _); congruence.
  - destruct Hl; congruence.
  - destruct Hl; congruence.
Qed.

(** A client whose transport took [part] of a frame. *)
Definition sent_by (p : Peer F) (s : WriteHalf * list Z) (c : Client) (phase : PeerPhase F) : Peer F :=
  mkPeer (mkClientOver (ft_after_send (peer_transport p) s) (co_config (pr_client p)) c) phase
    (pr_up p) (pr_up_broken p) (pr_down p) (pr_down_broken p).

Lemma sent_by_up p task s c phase part :
  wired p task → on_wire s.1 = peer_wire p ++ part →
  up_bytes (sent_by p s c phase) task = up_bytes p task ++ (if pr_up_broken p then [] else part).
Proof.
  intros Hw Hs. unfold up_bytes. rewrite <- app_assoc. f_equal.
  apply up_left_sent; [apply (wi_sent _ _ Hw)|done].
Qed.

Lemma sent_by_wired p task s c phase part :
  wired p task → usable p → wf (next_transaction c) → on_wire s.1 = peer_wire p ++ part →
  wired (sent_by p s c phase) task.
Proof.
  intros [W1 W2 W3 W4 W5] Hu Hc Hs. split; try done.
  - intros _. by apply reads_from_send, W2.
  - intros Hb. specialize (W3 Hb). unfold peer_wire, peer_transport, sent_by in *. cbn in *.
    rewrite Hs, length_app. lia.
Qed.

(** What a request on its way asks for. *)
Lemma callable_asks k u q c :
  callable F (CallFrom k u q) → wf (next_transaction c) →
  let header := request_header u (next_transaction c) in
  ∃ adu pdu, carries u q header adu ∧ RequestPdu_encode q = Ok pdu ∧
    encode_request_into F header q [] = (Ok tt, adu).
Proof.
  intros (Hb & Hdr & Hcall) Hwf header. destruct (Hcall _ Hwf) as [adu He]. fold header in He.
  pose proof (request_located _ _ He Hdr) as Hloc. destruct He as (Hh & Hr & Hca & He). exists adu.
  pose proof He as He'. apply encode_request_inv in He' as (pdu & _ & Hpdu & _); [|done..].
  exists pdu. split_and!.
  - split_and!; [apply request_header_unit|by rewrite <- same_broadcast|by split_and!].
  - by rewrite RequestPdu_encode_bytes.
  - cbn [fst snd] in *. by rewrite (encode_into_cleared F), He.
Qed.

(** The call of a usable client, by what its stream does with the frame. *)
Lemma begin_call_sent k u q p :
  usable p → callable F (CallFrom k u q) → wf (next_transaction (co_client (pr_client p))) →
  let c := co_client (pr_client p) in
  let header := request_header u (next_transaction c) in
  ∃ adu part s, carries u q header adu ∧ part `prefix_of` adu ∧ on_wire s.1 = peer_wire p ++ part ∧
    ((progressed k (begin_call u q (pr_client p)) p = (sent_by p s c PeerWriting, []) ∧ part = []) ∨
     (progressed k (begin_call u q (pr_client p)) p =
        (sent_by p s (mkClient (next (next_transaction c)) (state c))
           (PeerAwaiting header (RequestPdu_function q)), [])) ∨
     (∃ e, progressed k (begin_call u q (pr_client p)) p =
        (sent_by p s (set_state (Unusable (classify_unusable_reason e)) c) PeerIdle,
         [ReturnedTo k (Err e)]))).
Proof.
  intros Hu Hcall Hwf c header.
  destruct (callable_asks k u q c Hcall Hwf) as (adu & pdu & Hasks & Epdu & Hen).
  destruct (send_over_cases (encode_request_into F header q)
    (write_half (ft_stream (peer_transport p))) adu Hen) as (part & s & Hpart & Hwire & Hsend).
  exists adu, part, s. split_and!; [done..|].
  assert (begin_call u q (pr_client p) =
    match ft_send_request header q (peer_transport p) with
    | Unfinished t' => Writing (mkClientOver t' (co_config (pr_client p)) c)
    | Finished (Err error) t' => Over (Err error) (mkClientOver t' (co_config (pr_client p))
          (set_state (Unusable (classify_unusable_reason error)) c))
    | Finished Panic t' => Over Panic (mkClientOver t' (co_config (pr_client p)) c)
    | Finished (Ok _) t' => Awaiting header (RequestPdu_function q) (mkClientOver t'
          (co_config (pr_client p)) (mkClient (next (next_transaction c)) (state c)))
    end) as ->.
  { destruct Hcall as [Hb _]. unfold usable in Hu. unfold header, c, begin_call, peer_transport in *.
    destruct (pr_client p) as [t cfg cc]. cbn [co_client co_transport co_config] in *.
    rewrite Hu, Epdu, Hb. done. }
  unfold ft_send_request.
  destruct Hsend as [[-> ->]|[[-> ->]|(e & -> & He)]]; [by left|right; by left|right; right; by exists e].
Qed.

Lemma call_step k p task σ u q :
  linked p task σ → wired p task → callable F (CallFrom k u q) → pr_phase p = PeerIdle →
  let '(p', obs) := progressed k (begin_call u q (pr_client p)) p in
  ∃ σ', moves k σ (Called k u q :: obs) σ' ∧ linked p' task σ' ∧ wired p' task.
Proof.
  intros Hl Hw Hcall Hph. destruct (is_desynchronized (co_client (pr_client p))) eqn:Hde.
  { destruct (unusable_lost _ _ _ Hl Hde) as [due ->].
    assert (progressed k (begin_call u q (pr_client p)) p = (p, [ReturnedTo k (Err Desynchronized)])) as ->.
    { destruct p as [[t cfg c] ph up ub dn db]. cbn in *. rewrite Hde. cbn. by rewrite <- Hph. }
    exists (Lost due). split_and!; [|done|done].
    destruct due as [[]|]; (do 2 (eapply moves_cons; [done|by cbn|])); apply moves_nil. }
  pose proof (usable_idle_rests _ _ _ Hl Hde Hph) as ->. destruct Hl as (Hu & _ & Hq & Hn & Hd).
  pose proof (wi_next _ _ Hw) as Hwf.
  destruct (begin_call_sent k u q p Hu Hcall Hwf) as (adu & part & s & Hasks & Hpart & Hs & Hor).
  assert (∀ c ph, listening (ct_phase task) → up_bytes (sent_by p s c ph) task `prefix_of` adu) as Hpre.
  { intros c ph Hli. rewrite (sent_by_up _ _ _ _ _ part) by done. rewrite (Hn Hli). by apply sent_prefix. }
  destruct Hor as [[-> ->]|[->|[e ->]]].
  - exists (Asked u q). split_and!; [by eapply moves_one| |by eapply sent_by_wired].
    split_and!; [done|done|]. eexists _, adu. split; [done|]. right. split_and!; [done..|].
    intros Hli. rewrite (sent_by_up _ _ _ _ _ []), (Hn Hli) by done. by destruct (pr_up_broken p).
  - exists (Asked u q). split_and!; [by eapply moves_one| |eapply sent_by_wired; eauto using wf_next].
    split_and!; [done|done|]. eexists _, adu. split; [done|]. left. split; [done|]. left. auto.
  - exists (Lost (Some (u, q))).
    split_and!; [do 2 (eapply moves_cons; [done|by cbn|]); apply moves_nil| |by eapply sent_by_wired].
    split_and!; [done|done|]. eexists _, adu. split; [done|]. left. auto.
Qed.

(** *** A client waits *)

(** A client whose transport received. *)
Definition heard_by (p : Peer F) (t : FrameTransport F) (c : Client) (phase : PeerPhase F) : Peer F :=
  mkPeer (mkClientOver t (co_config (pr_client p)) c) phase
    (pr_up p) (pr_up_broken p) (pr_down p) (pr_down_broken p).

Lemma heard_by_up p task t c phase :
  write_half (ft_stream t) = write_half (ft_stream (peer_transport p)) →
  up_bytes (heard_by p t c phase) task = up_bytes p task.
Proof. intros Hw. unfold up_bytes, up_left, heard_by, peer_transport in *. cbn in *. by rewrite Hw. Qed.

Lemma heard_by_wired p task t c phase :
  wired p task → wf (next_transaction c) →
  write_half (ft_stream t) = write_half (ft_stream (peer_transport p)) →
  (is_desynchronized c = false → reads_from (pr_down_broken p) t) →
  wired (heard_by p t c phase) task.
Proof.
  intros [W1 W2 W3 W4 W5] Hc Hw Hr. split; try done.
  unfold peer_wire, heard_by, peer_transport in *. cbn in *. by rewrite Hw.
Qed.

Lemma awaiting_asked p task σ header f :
  linked p task σ → pr_phase p = PeerAwaiting header f → (∃ u q, σ = Asked u q) ∨ ∃ o, σ = Served o.
Proof.
  intros Hl Hph. destruct σ as [|u q|o|[[u q]|]|due]; cbn [linked] in Hl; [..|done]; eauto;
    destruct Hl as (_ & H & _); congruence.
Qed.

(** What becomes of a session whose call fails. *)
Definition given_up (σ : Session) : Session :=
  match σ with Asked u q => Lost (Some (u, q)) | _ => Lost None end.

Lemma given_up_linked k p task σ header f t c e :
  linked p task σ → pr_phase p = PeerAwaiting header f → is_desynchronized c = true →
  write_half (ft_stream t) = write_half (ft_stream (peer_transport p)) →
  moves k σ [ReturnedTo k (Err e)] (given_up σ) ∧ linked (heard_by p t c PeerIdle) task (given_up σ).
Proof.
  intros Hl Hph Hc Hw. pose proof (heard_by_up p task t c PeerIdle Hw) as Hup.
  destruct (awaiting_asked _ _ _ _ _ Hl Hph) as [(u & q & ->)|[[r|] ->]]; cbn [linked] in Hl.
  - destruct Hl as (_ & _ & h & adu & Hasks & [[_ Hreq]|[H _]]); [|congruence].
    split; [by apply moves_one|]. split_and!; [done|done|]. exists h, adu. split; [done|].
    unfold requested in *. by rewrite Hup.
  - destruct Hl as (_ & Hn & h & adu & _ & _ & Hresp). split; [by apply moves_one|].
    split_and!; [done|done| |unfold nothing_up in *; by rewrite Hup].
    intros h' q E. destruct Hresp as [(r' & E' & _)|[Hq _]]; [congruence|]. by rewrite E in Hq.
  - destruct Hl as (_ & _ & Hq & Hn & _). split; [by apply moves_one|].
    split_and!; [done|done| |unfold nothing_up in *; by rewrite Hup].
    intros h' q E. by rewrite E in Hq.
Qed.

(** One pass of the loop over a receive that fails, or does not finish. *)
Lemma await_fails k p task σ header f deadline :
  linked p task σ → wired p task → pr_phase p = PeerAwaiting header f →
  (∃ t', ft_recv_response (peer_transport p) = Unfinished t') ∨
  (∃ e t', ft_recv_response (peer_transport p) = Finished (Err e) t' ∧ ends_stream e = true ∧
     write_half (ft_stream t') = write_half (ft_stream (peer_transport p))) →
  let '(p', obs) := progressed k (await_step deadline header f (pr_client p)) p in
  ∃ σ', moves k σ obs σ' ∧ linked p' task σ' ∧ wired p' task.
Proof.
  intros Hl Hw Hph Hor.
  assert (∀ t c e, is_desynchronized c = true → wf (next_transaction c) →
    write_half (ft_stream t) = write_half (ft_stream (peer_transport p)) →
    ∃ σ', moves k σ [ReturnedTo k (Err e)] σ' ∧ linked (heard_by p t c PeerIdle) task σ' ∧
      wired (heard_by p t c PeerIdle) task) as Hlost.
  { intros t c e Hc Hwf Hwr. destruct (given_up_linked k p task σ header f t c e) as [H1 H2]; [done..|].
    exists (given_up σ). split_and!; [done|done|]. apply heard_by_wired; try done. congruence. }
  assert (await_step deadline header f (pr_client p) =
    match ft_recv_response (peer_transport p) with
    | Unfinished t' => if deadline
        then Over (Err (Timeout "response")) (mkClientOver t' (co_config (pr_client p))
               (set_state (Unusable Silent) (co_client (pr_client p))))
        else Awaiting header f (pr_client p)
    | Finished (Err e) t' => Over (Err e) (mkClientOver t' (co_config (pr_client p))
        (set_state (state_after_error F e) (co_client (pr_client p))))
    | _ => await_step deadline header f (pr_client p)
    end) as ->.
  { unfold await_step, peer_transport. destruct (pr_client p) as [t cfg c]. cbn.
    by destruct (ft_recv_response t) as [[[]|e|] t'|t']. }
  destruct Hor as [(t' & E)|(e & t' & E & He & Hwr)]; rewrite E.
  - destruct deadline; cbn [progressed].
    + apply Hlost; [done|apply (wi_next _ _ Hw)|]. unfold ft_recv_response, received in E.
      destruct (recv_response _ _ _); [done|]. by injection E as <-.
    + exists σ. split_and!; [apply moves_nil|..]; (destruct p; cbn in *; by rewrite <- Hph).
  - cbn [progressed]. apply Hlost; [|apply (wi_next _ _ Hw)|done].
    unfold state_after_error. by rewrite He.
Qed.

Lemma await_step_linked k p task σ header f deadline :
  linked p task σ → wired p task → pr_phase p = PeerAwaiting header f →
  let '(p', obs) := progressed k (await_step deadline header f (pr_client p)) p in
  ∃ σ', moves k σ obs σ' ∧ linked p' task σ' ∧ wired p' task.
Proof.
  intros Hl Hw Hph.
  assert (usable p → down_bytes p task = [] →
    let '(p', obs) := progressed k (await_step deadline header f (pr_client p)) p in
    ∃ σ', moves k σ obs σ' ∧ linked p' task σ' ∧ wired p' task) as Hnothing.
  { intros Hu Hd. apply app_eq_nil in Hd as [Hd _]. apply await_fails; try done.
    rewrite ft_recv_response_is. eapply recv_nothing; [apply (wi_down _ _ Hw Hu)|done]. }
  destruct (awaiting_asked _ _ _ _ _ Hl Hph) as [(u & q & ->)|[[r|] ->]]; cbn [linked] in Hl.
  - destruct Hl as (Hu & Hd & _). by apply Hnothing.
  - pose proof Hl as (Hu & Hn & h & adu & Hph' & Hfr & [(r' & _ & _ & Hd)|[Hq [later Hd]]]); [by apply Hnothing|].
    rewrite Hph in Hph'. injection Hph' as <- ->. symmetry in Hd. unfold down_bytes in Hd.
    rewrite <- app_assoc in Hd. pose proof (wi_down _ _ Hw Hu) as Hrd.
    destruct (recv_wired DirResponse (decode_response F) _ _ adu (peer_transport p) _
      (response_framed_as _ _ Hfr) Hrd Hd) as [[t' E]|[(t' & E & Hrd' & Hp' & Hl' & Hwr)|(e & t' & E & He & Hwr)]];
      rewrite <- ft_recv_response_is in E.
    + apply await_fails; eauto.
    + apply app_eq_nil in Hl' as [Hdl _].
      assert (await_step deadline header (ResponsePdu_function r) (pr_client p) =
        Over (Ok (Some r)) (mkClientOver t' (co_config (pr_client p))
          (set_state Answered (co_client (pr_client p))))) as ->.
      { unfold await_step, peer_transport in *. destruct (pr_client p) as [t cfg c]. cbn in *.
        by rewrite E, response_to_itself, bool_decide_true. }
      cbn [progressed]. exists Resting. split_and!.
      * apply moves_one; [done|]. cbn. by rewrite bool_decide_true.
      * split_and!; [done|done|done| |].
        -- intros Hli. rewrite <- (Hn Hli). by apply (heard_by_up p task t' _ PeerIdle).
        -- unfold down_bytes. cbn. by rewrite Hp'.
      * apply (heard_by_wired p task t'); [done|apply (wi_next _ _ Hw)|done|done].
    + apply await_fails; eauto 10.
  - destruct Hl as (Hu & _ & _ & _ & Hd). by apply Hnothing.
Qed.

(** *** Bytes travel, and directions break *)

Lemma piece_split n (l : list Z) : piece n l ++ drop (length (piece n l)) l = l.
Proof.
  unfold piece. rewrite length_take. generalize (Nat.min n (Z.to_nat READ_CHUNK)) as m. intros m.
  destruct (Nat.le_ge_cases m (length l)) as [H|H].
  - rewrite Nat.min_l by lia. apply take_drop.
  - rewrite Nat.min_r, drop_all, app_nil_r by lia. by rewrite take_ge.
Qed.

Lemma piece_delivers q n (l : list Z) :
  piece n l ≠ [] → delivers q (Ready (Bytes (piece n l))).
Proof.
  intros H. split; [done|]. unfold piece, len. rewrite length_take. unfold READ_CHUNK. lia.
Qed.

Lemma piece_up n (p : Peer F) bs :
  piece n (up_left p) = bs → bs ≠ [] →
  pr_up_broken p = false ∧ up_left p = bs ++ drop (pr_up p + length bs) (peer_wire p) ∧
  (pr_up p + length bs ≤ length (peer_wire p))%nat.
Proof.
  intros E Hne. pose proof (piece_split n (up_left p)) as Hs. rewrite E in Hs. unfold up_left in *.
  destruct (pr_up_broken p); [by destruct n|]. split; [done|]. fold (peer_wire p) in *.
  rewrite drop_drop in Hs. split; [done|]. apply (f_equal length) in Hs.
  rewrite length_app, !length_drop in Hs. destruct bs; [done|]. cbn in *. lia.
Qed.

Lemma piece_down n (p : Peer F) task bs :
  piece n (down_left p task) = bs → bs ≠ [] →
  pr_down_broken p = false ∧ down_left p task = bs ++ drop (pr_down p + length bs) (task_wire task) ∧
  (pr_down p + length bs ≤ length (task_wire task))%nat.
Proof.
  intros E Hne. pose proof (piece_split n (down_left p task)) as Hs. rewrite E in Hs.
  unfold down_left in *. destruct (pr_down_broken p); [by destruct n|]. split; [done|].
  fold (task_wire task) in *. rewrite drop_drop in Hs. split; [done|]. apply (f_equal length) in Hs.
  rewrite length_app, !length_drop in Hs. destruct bs; [done|]. cbn in *. lia.
Qed.

Lemma stream_one bs : stream [Ready (Bytes bs)] = bs.
Proof. apply app_nil_r. Qed.

Lemma broken_read_breaks error : breaks (broken_read error).
Proof. by destruct error as [[]|]. Qed.

Lemma feed_peer_client evs (p : Peer F) :
  co_client (feed_peer evs p) = co_client (pr_client p) ∧
  co_transport (feed_peer evs p) = feed evs (peer_transport p).
Proof. unfold feed_peer, peer_transport. by destruct (pr_client p). Qed.

(** The events of the network itself leave the session as it is. *)
Definition of_network (ev : NetEvent) : bool :=
  match ev with
  | Upstream _ _ | Downstream _ _ | BreakUp _ _ | BreakDown _ _ => true
  | _ => false
  end.

Lemma carried ev k p task σ :
  linked p task σ → wired p task → of_network ev = true →
  let '(p', task', obs) := peer_event ev k p task in
  obs = [] ∧ linked p' task' σ ∧ wired p' task' ∧ ct_phase task' = ct_phase task.
Proof.
  intros Hl Hw. pose proof Hw as [W1 W2 W3 W4 W5].
  destruct ev as [| | | |k' n|k' n|k' error|k' error|]; try done; intros _; cbn [peer_event].
  - destruct (piece n (up_left p)) as [|b bs] eqn:E; [done|].
    destruct (piece_up n p _ E) as (Hb & Hu & Hle); [done|].
    split_and!; [done| | |done].
    + apply (linked_prefix p task); try done. unfold up_bytes. cbn [feed_task ct_transport].
      rewrite feed_pending, stream_one, Hu, <- !app_assoc. unfold up_left, peer_transport. cbn.
      by rewrite Hb.
    + split; try done; cbn [pr_up_broken feed_task ct_phase ct_transport].
      intros Hli. specialize (W1 Hli). rewrite Hb in *. apply feed_delivers; [done|].
      constructor; [|constructor]. rewrite <- E. apply piece_delivers. by rewrite E.
  - destruct (piece n (down_left p task)) as [|b bs] eqn:E; [done|].
    destruct (piece_down n p task _ E) as (Hb & Hd & Hle); [done|].
    destruct (feed_peer_client [Ready (Bytes (b :: bs))] p) as [Hc Ht].
    split_and!; [done| | |done].
    + apply (linked_prefix p task); try done; unfold up_bytes, down_bytes, up_left, down_left, peer_transport;
        cbn [pr_client pr_down pr_down_broken pr_up pr_up_broken]; rewrite Ht; [done|].
      rewrite feed_pending, stream_one. fold (down_left p task). rewrite Hd, Hb, <- app_assoc. done.
    + split; try done; unfold usable, peer_wire, peer_transport;
        cbn [pr_client pr_down pr_down_broken pr_up pr_up_broken]; rewrite ?Hc, ?Ht; try done.
      intros Hu. specialize (W2 Hu). rewrite Hb in *. apply feed_delivers; [done|].
      constructor; [|constructor]. rewrite <- E. apply piece_delivers. by rewrite E.
  - destruct (pr_up_broken p) eqn:Hb; [done|]. split_and!; [done| | |done].
    + apply (linked_prefix p task); try done. unfold up_bytes. cbn [feed_task ct_transport].
      rewrite feed_broken_pending by apply broken_read_breaks. apply prefix_app. apply prefix_nil.
    + split; try done. intros Hli. exists (broken_read error), (ct_transport task).
      split_and!; [apply broken_read_breaks|by apply W1|done].
  - destruct (pr_down_broken p) eqn:Hb; [done|].
    destruct (feed_peer_client [Ready (broken_read error)] p) as [Hc Ht].
    split_and!; [done| | |done].
    + apply (linked_prefix p task); try done; unfold up_bytes, down_bytes, up_left, down_left, peer_transport;
        cbn [pr_client pr_down pr_down_broken pr_up pr_up_broken]; rewrite Ht; [done|].
      rewrite feed_broken_pending by apply broken_read_breaks. apply prefix_app. apply prefix_nil.
    + split; try done; unfold usable, peer_wire, peer_transport;
        cbn [pr_client pr_down pr_down_broken pr_up pr_up_broken]; rewrite ?Hc, ?Ht; try done.
      intros Hu. exists (broken_read error), (peer_transport p).
      split_and!; [apply broken_read_breaks|by apply W2|done].
Qed.

(** *** The task of the connection runs *)

Lemma moved_wired p task phase t part :
  wired p task → (listening phase → reads_from (pr_up_broken p) t) →
  on_wire (write_half (ft_stream t)) = task_wire task ++ part → wired p (moved phase t task).
Proof.
  intros [W1 W2 W3 W4 W5] Hr Hw. split; try done.
  intros Hb. specialize (W4 Hb). unfold task_wire in *. cbn. rewrite Hw, length_app. lia.
Qed.

Lemma moved_down p task phase t :
  write_half (ft_stream t) = write_half (ft_stream (ct_transport task)) →
  down_bytes p (moved phase t task) = down_bytes p task.
Proof. intros Hw. unfold down_bytes, down_left. cbn. by rewrite Hw. Qed.

(** A task that neither handles nor answers a request goes on, or stops listening. *)
Lemma moved_linked p task phase t σ :
  linked p task σ → quiet (ct_phase task) → quiet phase →
  (listening phase → listening (ct_phase task) ∧ ft_pending t = ft_pending (ct_transport task)) →
  write_half (ft_stream t) = write_half (ft_stream (ct_transport task)) →
  linked p (moved phase t task) σ.
Proof.
  intros Hl Hq Hq' Hli Hw. pose proof (moved_down p task phase t Hw) as Hd.
  assert (listening phase → listening (ct_phase task) ∧
    up_bytes p (moved phase t task) = up_bytes p task) as Hup.
  { intros H. destruct (Hli H) as [H1 H2]. split; [done|]. unfold up_bytes. cbn. by rewrite H2. }
  assert (nothing_up p task → nothing_up p (moved phase t task)) as Hn.
  { intros Hn H. destruct (Hup H) as [H1 ->]. auto. }
  assert (∀ h q adu, requested h q adu p task → requested h q adu p (moved phase t task)) as Hreq.
  { intros h q adu [[_ H]|[H _]]; [|by rewrite H in Hq]. left. split; [done|]. intros Hl'.
    destruct (Hup Hl') as [H1 ->]. auto. }
  destruct σ as [|u q|[r|]|[[u q]|]|due]; cbn [linked] in *; rewrite ?Hd in *.
  - destruct Hl as (H1 & H2 & H3 & H4 & H5). auto 10.
  - destruct Hl as (H1 & H2 & h & adu & H3 & [[H4 H5]|(H4 & H5 & H6)]);
      (split; [done|]; split; [done|]; exists h, adu; split; [done|]); [left|right]; auto.
  - destruct Hl as (H1 & H2 & h & adu & H3 & H4 & [(r' & H5 & _)|[_ H5]]); [by rewrite H5 in Hq|].
    split; [done|]. split; [auto|]. exists h, adu. split_and!; [done|done|]. right.
    split; [done|]. by rewrite Hd.
  - destruct Hl as (H1 & H2 & H3 & H4 & H5). auto 10.
  - destruct Hl as (H1 & H2 & h & adu & H3 & H4). split; [done|]. split; [done|]. exists h, adu. auto.
  - destruct Hl as (H1 & H2 & H3 & H4). split_and!; [done|done| |auto].
    intros h q E. cbn in E. by rewrite E in Hq'.
  - done.
Qed.

(** What is on its way up to a task that listens. *)
Lemma linked_up p task σ :
  linked p task σ → ct_phase task = Exchanging →
  up_bytes p task = [] ∨
  ∃ u q header adu, (σ = Asked u q ∨ σ = Lost (Some (u, q))) ∧ carries u q header adu ∧
    up_bytes p task `prefix_of` adu ∧
    ∀ task', down_bytes p task' = down_bytes p task → requested header q adu p task' → linked p task' σ.
Proof.
  intros Hl E. destruct σ as [|u q|[r|]|[[u q]|]|due]; cbn [linked] in Hl.
  - left. apply Hl. by rewrite E.
  - destruct Hl as (H1 & H2 & h & adu & H3 & [[H4 [[_ H5]|[H5 _]]]|(_ & _ & H6)]).
    + right. exists u, q, h, adu. split_and!; [by left|done|apply H5; by rewrite E|].
      intros task' Hd Hreq. cbn [linked]. rewrite Hd. split_and!; [done|done|]. exists h, adu. auto.
    + congruence.
    + left. apply H6. by rewrite E.
  - left. apply Hl. by rewrite E.
  - left. apply Hl. by rewrite E.
  - destruct Hl as (H1 & H2 & h & adu & H3 & [[_ H5]|[H5 _]]); [|congruence].
    right. exists u, q, h, adu. split_and!; [by right|done|apply H5; by rewrite E|].
    intros task' Hd Hreq. cbn [linked]. split_and!; [done|done|]. exists h, adu. auto.
  - left. apply Hl. by rewrite E.
  - done.
Qed.
End invariant.

(** ** The server's step *)

Section server_step.
Context {w : Winnow} {ws : WinnowSpec w} {F : Framing} {L : LawfulFraming F}.
Context {CF : ClientFraming F} {SF : ServerFraming F} {DF : DuplexFraming F} {SD : SelfDelimiting F}.
Context {svc : Service} {config : ServerConfig} (I : SvcState svc → Prop) (HA : Answering F svc I).

(** What a poll of a task leaves of its connection. *)
Definition kept (k : nat) (p : Peer F) (σ : Session)
    (out : ConnTask F * SvcState svc * list HookCall) : Prop :=
  let '(task', s', calls) := out in
  ∃ σ', moves k σ (omap asked calls) σ' ∧ linked p task' σ' ∧ wired p task' ∧ I s'.

Lemma kept_quiet k p task σ phase t s calls :
  linked p task σ → wired p task → I s → omap asked calls = [] →
  quiet (ct_phase task) → quiet phase →
  (listening phase → listening (ct_phase task) ∧ t = ct_transport task) →
  write_half (ft_stream t) = write_half (ft_stream (ct_transport task)) →
  kept k p σ (moved phase t task, s, calls).
Proof.
  intros Hl Hw Hs Hc Hq Hq' Hli Hwr. exists σ. rewrite Hc. split_and!; [apply moves_nil| | |done].
  - apply moved_linked; try done. intros H. destruct (Hli H) as [H1 ->]. done.
  - apply (moved_wired _ _ _ _ []); [done| |by rewrite app_nil_r, Hwr].
    intros H. destruct (Hli H) as [H1 ->]. by apply (wi_up _ _ Hw).
Qed.

(** A receive that fails ends the task. *)
Lemma exchanging_fails k p task σ s e t :
  linked p task σ → wired p task → I s → ct_phase task = Exchanging → ends_stream e = true →
  ft_recv_request (ct_transport task) = Finished (Err e) t →
  write_half (ft_stream t) = write_half (ft_stream (ct_transport task)) →
  kept k p σ (run_task F svc config k false task s).
Proof.
  intros Hl Hw Hs Hph He E Hwr. rewrite run_task_exchanging, E by done.
  destruct (is_eof e); [by apply kept_quiet; rewrite ?Hph|].
  unfold reporting, gives_up. rewrite He. apply kept_quiet; rewrite ?Hph; try done.
  by apply (an_error _ _ _ HA).
Qed.

Lemma exchanging_kept k p task σ s :
  linked p task σ → wired p task → I s → ct_phase task = Exchanging →
  kept k p σ (run_task F svc config k false task s).
Proof.
  intros Hl Hw Hs Hph.
  assert (reads_from (pr_up_broken p) (ct_transport task)) as Hr by (apply (wi_up _ _ Hw); by rewrite Hph).
  assert (∀ t, ft_recv_request (ct_transport task) = Unfinished t →
    kept k p σ (run_task F svc config k false task s)) as Hwait.
  { intros t E. rewrite run_task_exchanging, E by done. exists σ. by split_and!; [apply moves_nil|..]. }
  destruct (linked_up _ _ _ Hl Hph) as [Hup|(u & q & h & adu & _ & (Hu & Hall & Hfr) & [later Hup] & Hback)].
  - apply app_eq_nil in Hup as [Hp _].
    destruct (recv_nothing DirRequest (decode_request F) _ _ Hr Hp) as [[t E]|(e & t & E & He & Hwr)];
      rewrite <- ft_recv_request_is in E; [by eapply Hwait|by eapply exchanging_fails].
  - symmetry in Hup. unfold up_bytes in Hup. rewrite <- app_assoc in Hup.
    destruct (recv_wired DirRequest (decode_request F) _ _ adu _ _ (request_framed_as _ _ Hfr) Hr Hup)
      as [[t E]|[(t & E & Hr' & Hp' & Hl' & Hwr)|(e & t & E & He & Hwr)]];
      rewrite <- ft_recv_request_is in E; [by eapply Hwait| |by eapply exchanging_fails].
    apply app_eq_nil in Hl' as [Hul _]. rewrite run_task_exchanging, E by done. exists σ.
    assert (∀ phase, up_bytes p (moved phase t task) = []) as Hup'
      by (intros phase; unfold up_bytes; cbn; by rewrite Hp', Hul).
    split_and!; [apply moves_nil| | |done].
    + apply Hback; [by apply moved_down|]. rewrite Hu, Hall. cbn [negb andb].
      destruct (foreign config u); [left|right; by rewrite Hup'].
      split; [done|]. intros _. rewrite Hup'. apply prefix_nil.
    + apply (moved_wired _ _ _ _ []); [done|done|by rewrite app_nil_r, Hwr].
Qed.

(** The session of a task that has a request in hand. *)
Lemma linked_handling p task σ h q :
  linked p task σ → ct_phase task = Handling h q →
  ∃ u adu, carries u q h adu ∧ up_bytes p task = [] ∧
    ((σ = Asked u q ∧ usable p ∧ down_bytes p task = [] ∧
      pr_phase p = PeerAwaiting h (RequestPdu_function q)) ∨
     (σ = Lost (Some (u, q)) ∧ is_desynchronized (co_client (pr_client p)) = true ∧
      pr_phase p = PeerIdle)).
Proof.
  intros Hl E. destruct σ as [|u q'|[r|]|[[u q']|]|due]; cbn [linked] in Hl.
  - destruct Hl as (_ & _ & H & _). by rewrite E in H.
  - destruct Hl as (H1 & H2 & h' & adu & H3 & [[H4 [[H _]|[H H5]]]|(_ & H & _)]);
      try (by rewrite E in H). rewrite E in H. injection H as -> ->. exists u, adu. eauto 10.
  - destruct Hl as (_ & _ & h' & adu & _ & _ & [(r' & H & _)|[H _]]); by rewrite E in H.
  - destruct Hl as (_ & _ & H & _). by rewrite E in H.
  - destruct Hl as (H1 & H2 & h' & adu & H3 & [[H _]|[H H5]]); rewrite E in H; [done|].
    injection H as -> ->. exists u, adu. eauto 10.
  - destruct Hl as (_ & _ & H & _). by destruct (H h q).
  - done.
Qed.

(** The frame of what the service answered. *)
Lemma answered_framed q r h :
  wf h → fits F q r →
  ∃ adu, response_framed F (h, packed r) adu ∧ encode_response_into F h r [] = (Ok tt, adu).
Proof.
  intros Hh (Hr & Hc & [pdu Hb] & _ & Hd).
  assert (encode_response F h (packed r) = Ok (frame h pdu)) as He.
  { rewrite encode_response_frame by (done || by apply packed_wf). by rewrite packed_bytes, Hb. }
  exists (frame h pdu). split.
  - assert (encodable_response F (h, packed r) (frame h pdu)) as H
      by (split; [done|]; split; [by apply packed_wf|done]).
    pose proof (response_located _ _ H Hd). by destruct H as (? & ? & ? & ?).
  - rewrite (encode_response_into_cleared F), encode_response_frame, Hb by done. done.
Qed.

Lemma handling_kept k signal p task σ s h q :
  linked p task σ → wired p task → I s → ct_phase task = Handling h q →
  kept k p σ (run_task F svc config k signal task s).
Proof.
  intros Hl Hw Hs Hph.
  destruct (linked_handling _ _ _ _ _ Hl Hph) as (u & adu & (Hu & Hall & Hfr) & Hup & Hor).
  pose proof Hfr as (Hh & Hq & _ & He & _). cbn [fst snd] in Hh, Hq, He.
  apply encode_request_inv in He as (pdu & _ & Hpdu & _); [|done..].
  unfold run_task. rewrite Hph, Hu, Hall.
  destruct (an_request _ _ _ HA (ct_conn task) u q s pdu Hs Hq Hpdu) as [Hs' Hfits].
  destruct (on_request svc (ct_conn task) u q s) as [answer s'] eqn:Ea. cbn [fst snd] in *.
  set (phase := match response_of (RequestPdu_function q) answer with
                | Some response => Sending h response | None => Exchanging end).
  assert (nothing_up p (moved phase (ct_transport task) task)) as Hn by (intros _; exact Hup).
  assert (wired p (moved phase (ct_transport task) task)) as Hw'.
  { apply (moved_wired _ _ _ _ []); [done| |by rewrite app_nil_r].
    intros _. apply (wi_up _ _ Hw). by rewrite Hph. }
  destruct Hor as [(-> & Hus & Hd & Hpp)|(-> & Hde & Hpp)].
  - exists (Served (packed <$> response_of (RequestPdu_function q) answer)). split_and!; [| |done|done].
    { apply moves_one; [done|]. cbn. by rewrite bool_decide_true. }
    unfold phase in *. destruct (response_of _ answer) as [r|].
    + destruct (answered_framed q r h Hh (Hfits r eq_refl)) as (adu' & Hfr' & Henc).
      split_and!; [done|done|]. exists h, adu'. split_and!; [|done|].
      * rewrite packed_function. destruct (Hfits r eq_refl) as (_ & _ & _ & -> & _). done.
      * left. by exists r.
    + split_and!; [done|by eexists _, _|done|done|done].
  - exists (Lost None). split_and!; [| |done|done].
    { apply moves_one; [done|]. cbn. by rewrite bool_decide_true. }
    split_and!; [done|done| |done]. intros h' q' E. cbn in E. unfold phase in E.
    by destruct (response_of _ answer).
Qed.

(** The session of a task that has a response to send. *)
Lemma linked_sending p task σ h r :
  linked p task σ → ct_phase task = Sending h r →
  nothing_up p task ∧
  ((∃ r' adu, σ = Served (Some r') ∧ usable p ∧ down_bytes p task = [] ∧
      pr_phase p = PeerAwaiting h (ResponsePdu_function r') ∧ response_framed F (h, r') adu ∧
      encode_response_into F h r [] = (Ok tt, adu)) ∨
   (σ = Lost None ∧ is_desynchronized (co_client (pr_client p)) = true ∧ pr_phase p = PeerIdle)).
Proof.
  intros Hl E. destruct σ as [|u q'|[r'|]|[[u q']|]|due]; cbn [linked] in Hl.
  - destruct Hl as (_ & _ & H & _). by rewrite E in H.
  - destruct Hl as (H1 & H2 & h' & adu & H3 & [[H4 [[H _]|[H H5]]]|(_ & H & _)]); by rewrite E in H.
  - destruct Hl as (H1 & Hn & h' & adu & H3 & H4 & [(r'' & H & H5 & H6)|[H _]]); rewrite E in H; [|done].
    injection H as -> ->. split; [done|]. left. exists r', adu. done.
  - destruct Hl as (_ & _ & H & _). by rewrite E in H.
  - destruct Hl as (H1 & H2 & h' & adu & H3 & [[H _]|[H H5]]); by rewrite E in H.
  - destruct Hl as (H1 & H2 & _ & H4). split; [done|]. by right.
  - done.
Qed.

Lemma sending_kept k signal p task σ s h r :
  linked p task σ → wired p task → I s → ct_phase task = Sending h r →
  kept k p σ (run_task F svc config k signal task s).
Proof.
  intros Hl Hw Hs Hph. destruct (linked_sending _ _ _ _ _ Hl Hph) as [Hn Hor].
  assert (reads_from (pr_up_broken p) (ct_transport task)) as Hr by (apply (wi_up _ _ Hw); by rewrite Hph).
  assert (∀ phase s', nothing_up p (moved phase (ft_after_send (ct_transport task) s') task)) as Hn'
    by (intros phase s' _; apply Hn; by rewrite Hph).
  unfold run_task. rewrite Hph. unfold ft_send_response.
  destruct Hor as [(r' & adu & -> & Hus & Hd & Hpp & Hfr & Henc)|(-> & Hde & Hpp)].
  - destruct (send_over_cases (encode_response_into F h r)
      (write_half (ft_stream (ct_transport task))) adu Henc) as (part & sw & Hpart & Hwire & Hsend).
    assert (∀ phase, quiet phase →
      linked p (moved phase (ft_after_send (ct_transport task) sw) task) (Served (Some r')) ∧
      wired p (moved phase (ft_after_send (ct_transport task) sw) task)) as Hmoved.
    { intros phase Hq. split; [|by apply (moved_wired _ _ _ _ part); [done|intros _; apply reads_from_send|]].
      split_and!; [done|done|]. exists h, adu. split_and!; [done|done|]. right. split; [done|].
      apply app_eq_nil in Hd as [Hd1 Hd2]. unfold down_bytes.
      rewrite (down_left_sent _ _ _ _ part); [|apply (wi_answered _ _ Hw)|done].
      rewrite Hd1, Hd2. by apply sent_prefix. }
    destruct Hsend as [[-> ->]|[[-> ->]|(e & -> & He)]]; cbn [lift_poll].
    + exists (Served (Some r')). by split_and!; [apply moves_nil|..].
    + destruct (Hmoved Exchanging) as [H1 H2]; [done|]. exists (Served (Some r')).
      by split_and!; [apply moves_nil|..].
    + unfold reporting. rewrite He. destruct (Hmoved (Ending (DisconnectFailed e))) as [H1 H2]; [done|].
      exists (Served (Some r')). split_and!; [apply moves_nil|done|done|by apply (an_error _ _ _ HA)].
  - assert (∀ phase sw part s' calls, omap asked calls = [] → quiet phase → I s' →
      on_wire sw.1 = task_wire task ++ part →
      kept k p (Lost None) (moved phase (ft_after_send (ct_transport task) sw) task, s', calls)) as Hkept.
    { intros phase sw part s' calls Hc Hq Hs' Hwire. exists (Lost None). rewrite Hc.
      split_and!; [apply moves_nil| |by apply (moved_wired _ _ _ _ part); [done|intros _; apply reads_from_send|]|done].
      split_and!; [done|done| |done]. intros h' q' E. cbn in E. by rewrite E in Hq. }
    destruct (send_over_grows (encode_response_into F h r) (write_half (ft_stream (ct_transport task))))
      as [part Hg].
    destruct (send_over _ _) as [[[]|e|] sw|sw]; cbn [lift_poll after] in *.
    + by eapply Hkept.
    + unfold reporting. eapply Hkept; [done|by destruct (ends_stream e)|by apply (an_error _ _ _ HA)|done].
    + by eapply Hkept.
    + exists (Lost None). by split_and!; [apply moves_nil|..].
Qed.

(** A poll of the task of a connection. *)
Lemma poll_kept k signal p task σ s :
  linked p task σ → wired p task → I s → kept k p σ (run_task F svc config k signal task s).
Proof.
  intros Hl Hw Hs. destruct (ct_phase task) as [| |h q|h r|reason|o|o] eqn:E.
  - unfold run_task. rewrite E. pose proof (an_connect _ _ _ HA (ct_conn task) s Hs) as Hc.
    destruct (on_connect svc _ s) as [answer s']. apply kept_quiet; rewrite ?E; try done; by destruct answer.
  - destruct signal; [|by apply exchanging_kept]. unfold run_task. rewrite E.
    by apply kept_quiet; rewrite ?E.
  - by eapply handling_kept.
  - by eapply sending_kept.
  - unfold run_task. rewrite E. apply kept_quiet; rewrite ?E; try done. by apply (an_disconnect _ _ _ HA).
  - unfold run_task. rewrite E. exists σ. by split_and!; [apply moves_nil|..].
  - unfold run_task. rewrite E. exists σ. by split_and!; [apply moves_nil|..].
Qed.
End server_step.

(** ** Every run *)

Definition handled_only (o : Observed) : option Observed :=
  match o with Handled _ _ _ _ => Some o | _ => None end.

(** The requests the service is asked are well formed. *)
Definition sound (o : Observed) : Prop :=
  match o with Handled _ _ q _ => wf q | _ => True end.

Section runs.
Context {w : Winnow} {ws : WinnowSpec w} {F : Framing} {L : LawfulFraming F}.
Context {CF : ClientFraming F} {SF : ServerFraming F} {DF : DuplexFraming F} {SD : SelfDelimiting F}.
Context {svc : Service} {config : ServerConfig} (I : SvcState svc → Prop) (HA : Answering F svc I).

Record netinv (s0 : SvcState svc) (nw : Network F svc) : Prop := {
  ni_service : I (rn_service (nw_server nw));
  ni_replays : replays s0 (rn_log (nw_server nw)) (rn_service (nw_server nw));
  ni_asked : omap handled_only (nw_history nw) = omap asked (rn_log (nw_server nw));
  ni_sound : Forall sound (nw_history nw);
  ni_length : length (nw_peers nw) = length (rn_tasks (nw_server nw));
  ni_fresh k : (length (nw_peers nw) ≤ k)%nat → session k (nw_history nw) = Some Resting;
  ni_linked k p task : nw_peers nw !! k = Some p → rn_tasks (nw_server nw) !! k = Some task →
    ∃ σ, session k (nw_history nw) = Some σ ∧ linked p task σ ∧ wired p task;
}.

(** One connection moves; the others do not notice. *)
Lemma netinv_put s0 nw k p task σ p' task' σ' obs st' calls :
  netinv s0 nw → nw_peers nw !! k = Some p → rn_tasks (nw_server nw) !! k = Some task →
  session k (nw_history nw) = Some σ → moves k σ obs σ' → linked p' task' σ' → wired p' task' →
  Forall (λ o, about o = k) obs → I (rn_service st') →
  rn_tasks st' = <[k := task']> (rn_tasks (nw_server nw)) → rn_log st' = rn_log (nw_server nw) ++ calls →
  replays (rn_service (nw_server nw)) calls (rn_service st') → omap handled_only obs = omap asked calls →
  Forall sound obs →
  netinv s0 (mkNetwork st' (<[k := p']> (nw_peers nw)) (nw_history nw ++ obs)).
Proof.
  intros [N1 N2 N3 Nw N4 N5 N6] Hp Ht Hσ Hm Hl Hw Ha Hs Htasks Hlog Hrep Hobs Hso.
  pose proof (lookup_lt_Some _ _ _ Hp) as Hlt.
  assert (∀ k', k' ≠ k → session k' (nw_history nw ++ obs) = session k' (nw_history nw)) as Helse.
  { intros k' Hne. apply session_elsewhere. eapply Forall_impl; [exact Ha|]. intros o -> ?. by subst. }
  split; cbn [nw_server nw_peers nw_history]; rewrite ?Htasks, ?Hlog.
  - done.
  - by eapply replays_app.
  - by rewrite !omap_app, N3, Hobs.
  - by apply Forall_app.
  - by rewrite !length_insert.
  - intros k' Hk. rewrite length_insert in Hk. rewrite Helse by lia. auto.
  - intros k' p1 task1. destruct (decide (k' = k)) as [->|Hne].
    + rewrite !list_lookup_insert_eq by lia. intros [= <-] [= <-]. exists σ'. auto.
    + rewrite !list_lookup_insert_ne, Helse by done. auto.
Qed.

(** The hooks a task calls are those of its connection. *)
Lemma run_task_about k signal (task : ConnTask F) s task' s' calls :
  run_task F svc config k signal task s = (task', s', calls) →
  Forall (λ o, about o = k) (omap asked calls) ∧ omap handled_only (omap asked calls) = omap asked calls.
Proof.
  destruct (ct_phase task) as [| |h q|h r|reason|o|o] eqn:E.
  2:{ destruct signal; [unfold run_task; rewrite E; by intros [= <- <- <-]|].
      rewrite run_task_exchanging by done. unfold reporting.
      destruct (ft_recv_request _) as [[[h q]|e|] t'|t']; [|destruct (is_eof e)|..];
        by intros [= <- <- <-]. }
  all: unfold run_task, reporting; rewrite E.
  - destruct (on_connect _ _ _) as [a s1]; by intros [= <- <- <-].
  - destruct (on_request _ _ _ _ _) as [a s1]. intros [= <- <- <-]. cbn. by split; [repeat constructor|].
  - destruct (ft_send_response _ _ _) as [[[]|e|] t'|t']; by intros [= <- <- <-].
  - by intros [= <- <- <-].
  - by intros [= <- <- <-].
  - by intros [= <- <- <-].
Qed.

Lemma run_task_sound k signal p (task : ConnTask F) σ s task' s' calls :
  linked p task σ → run_task F svc config k signal task s = (task', s', calls) →
  Forall sound (omap asked calls).
Proof.
  intros Hl. destruct (ct_phase task) as [| |h q|h r|reason|o|o] eqn:E.
  2:{ destruct signal; [unfold run_task; rewrite E; by intros [= <- <- <-]|].
      rewrite run_task_exchanging by done. unfold reporting.
      destruct (ft_recv_request _) as [[[h q]|e|] t'|t']; [|destruct (is_eof e)|..];
        by intros [= <- <- <-]. }
  all: unfold run_task, reporting; rewrite E.
  - destruct (on_connect _ _ _) as [a s1]; by intros [= <- <- <-].
  - destruct (linked_handling _ _ _ _ _ Hl E) as (u & adu & (_ & _ & _ & Hq & _) & _).
    destruct (on_request _ _ _ _ _) as [a s1]. intros [= <- <- <-]. by repeat constructor.
  - destruct (ft_send_response _ _ _) as [[[]|e|] t'|t']; by intros [= <- <- <-].
  - by intros [= <- <- <-].
  - by intros [= <- <- <-].
  - by intros [= <- <- <-].
Qed.

Lemma unasked_sound obs : omap handled_only obs = [] → Forall sound obs.
Proof.
  induction obs as [|o obs IH]; intros H; [done|]. destruct o; cbn in H; [|done|]; constructor; auto; done.
Qed.

Lemma peer_event_about ev k p (task : ConnTask F) p' task' obs :
  peer_event ev k p task = (p', task', obs) →
  Forall (λ o, about o = k) obs ∧ omap handled_only obs = [].
Proof.
  assert (∀ pr p1 obs1, progressed k pr p = (p1, obs1) →
    Forall (λ o, about o = k) obs1 ∧ omap handled_only obs1 = []) as Hpr.
  { intros pr p1 obs1. destruct pr; intros [= <- <-]; by repeat constructor. }
  unfold peer_event. intros H.
  destruct ev, (pr_phase p) as [|h f|]; try (injection H as <- <- <-; by repeat constructor).
  all: repeat match type of H with
    | context [progressed ?j ?pr ?q] => destruct (progressed j pr q) as [p1 obs1] eqn:E
    | context [match piece ?n ?l with _ => _ end] => destruct (piece n l)
    | context [if ?b then _ else _] => destruct b
    end; injection H as <- <- <-; try (by repeat constructor).
  all: destruct (Hpr _ _ _ E) as [H1 H2]; split; [try constructor; done|done].
Qed.

Lemma peer_event_kept ev k p (task : ConnTask F) σ :
  linked p task σ → wired p task → callable F ev →
  let '(p', task', obs) := peer_event ev k p task in
  ∃ σ', moves k σ obs σ' ∧ linked p' task' σ' ∧ wired p' task'.
Proof.
  intros Hl Hw Hc.
  assert (∃ σ', moves k σ [] σ' ∧ linked p task σ' ∧ wired p task) as Hsame
    by (exists σ; split; [apply moves_nil|done]).
  destruct (of_network ev) eqn:En.
  { pose proof (carried ev k p task σ Hl Hw En) as H. destruct (peer_event ev k p task) as [[p' task'] obs].
    destruct H as (-> & H1 & H2 & _). exists σ. split; [apply moves_nil|done]. }
  destruct ev as [|k' u q|k'|k'|k' n|k' n|k' error|k' error|]; try done;
    cbn [peer_event]; destruct (pr_phase p) as [|h f|] eqn:Hph; try done.
  - pose proof (call_step k p task σ u q Hl Hw Hc Hph) as H. by destruct (progressed _ _ _).
  - pose proof (await_step_linked k p task σ h f false Hl Hw Hph) as H. by destruct (progressed _ _ _).
  - pose proof (await_step_linked k p task σ h f true Hl Hw Hph) as H. by destruct (progressed _ _ _).
Qed.

Lemma on_peer_inv s0 ev k nw : netinv s0 nw → callable F ev → netinv s0 (on_peer F svc ev k nw).
Proof.
  intros Hn Hc. unfold on_peer.
  destruct (nw_peers nw !! k) as [p|] eqn:Hp; [|done].
  destruct (rn_tasks (nw_server nw) !! k) as [task|] eqn:Ht; [|done].
  destruct (ni_linked _ _ Hn _ _ _ Hp Ht) as (σ & Hσ & Hl & Hw).
  pose proof (peer_event_kept ev k p task σ Hl Hw Hc) as H.
  destruct (peer_event ev k p task) as [[p' task'] obs] eqn:E. destruct H as (σ' & Hm & Hl' & Hw').
  destruct (peer_event_about _ _ _ _ _ _ _ E) as [Ha Ho].
  eapply (netinv_put s0 nw k p task σ p' task' σ' obs _ []); try done;
    [apply (ni_service _ _ Hn)|by apply unasked_sound].
Qed.

(** A step of the server that leaves its tasks alone. *)
Lemma netinv_server s0 nw st' calls :
  netinv s0 nw → rn_tasks st' = rn_tasks (nw_server nw) →
  rn_log st' = rn_log (nw_server nw) ++ calls → omap asked calls = [] → I (rn_service st') →
  replays (rn_service (nw_server nw)) calls (rn_service st') →
  netinv s0 (mkNetwork st' (nw_peers nw) (nw_history nw)).
Proof.
  intros [N1 N2 N3 Nw N4 N5 N6] Ht Hlog Hc Hs Hr.
  split; cbn [nw_server nw_peers nw_history]; rewrite ?Ht, ?Hlog; try done.
  - by eapply replays_app.
  - by rewrite omap_app, Hc, app_nil_r.
Qed.

Lemma drop_log (log calls : list HookCall) : drop (length log) (log ++ calls) = calls.
Proof. by rewrite drop_app_length. Qed.

(** A task of the server is polled, or joined. *)
Lemma poll_task_inv s0 k nw task task' s' calls :
  netinv s0 nw → rn_tasks (nw_server nw) !! k = Some task →
  run_task F svc config k (rn_signal (nw_server nw)) task (rn_service (nw_server nw)) = (task', s', calls) →
  netinv s0 (mkNetwork (with_task F svc k task' s' calls (nw_server nw)) (nw_peers nw)
    (nw_history nw ++ omap asked calls)).
Proof.
  intros Hn Ht E. destruct (lookup_lt_is_Some_2 (nw_peers nw) k) as [p Hp].
  { rewrite (ni_length _ _ Hn). by eapply lookup_lt_Some. }
  destruct (ni_linked _ _ Hn _ _ _ Hp Ht) as (σ & Hσ & Hl & Hw).
  pose proof (poll_kept (config := config) I HA k (rn_signal (nw_server nw)) p task σ _ Hl Hw (ni_service _ _ Hn))
    as Hk.
  rewrite E in Hk. destruct Hk as (σ' & Hm & Hl' & Hw' & Hs').
  destruct (run_task_about _ _ _ _ _ _ _ E) as [Ha Ho].
  replace (nw_peers nw) with (<[k := p]> (nw_peers nw)) by (by apply list_insert_id).
  eapply (netinv_put s0 nw k p task σ p task' σ' _ _ calls); try done;
    [by eapply run_task_replays|exact (run_task_sound _ _ _ _ _ _ _ _ _ Hl E)].
Qed.

Lemma join_task_inv s0 k nw task o :
  netinv s0 nw → rn_tasks (nw_server nw) !! k = Some task → ct_phase task = TaskDone o →
  netinv s0 (mkNetwork (with_task F svc k (moved (TaskJoined o) (ct_transport task) task)
    (rn_service (nw_server nw)) [] (nw_server nw)) (nw_peers nw) (nw_history nw ++ [])).
Proof.
  intros Hn Ht Hph. destruct (lookup_lt_is_Some_2 (nw_peers nw) k) as [p Hp].
  { rewrite (ni_length _ _ Hn). by eapply lookup_lt_Some. }
  destruct (ni_linked _ _ Hn _ _ _ Hp Ht) as (σ & Hσ & Hl & Hw).
  replace (nw_peers nw) with (<[k := p]> (nw_peers nw)) by (by apply list_insert_id).
  eapply (netinv_put s0 nw k p task σ p (moved (TaskJoined o) (ct_transport task) task) σ [] _ []); try done.
  - apply moves_nil.
  - apply moved_linked; by rewrite ?Hph.
  - apply (moved_wired _ _ _ _ []); [done|done|by rewrite app_nil_r].
  - apply (ni_service _ _ Hn).
Qed.

Lemma server_step_inv s0 ev nw :
  netinv s0 nw → (∀ stream peer, ev ≠ Arrive stream peer) → netinv s0 (server_step F svc config ev nw).
Proof.
  intros Hn Hev. unfold server_step.
  assert (∀ st', rn_tasks st' = rn_tasks (nw_server nw) → rn_log st' = rn_log (nw_server nw) →
    rn_service st' = rn_service (nw_server nw) →
    netinv s0 (mkNetwork st' (nw_peers nw)
      (nw_history nw ++ omap asked (drop (length (rn_log (nw_server nw))) (rn_log st'))))) as Hsame.
  { intros st' H1 H2 H3. rewrite H2, drop_all, app_nil_r.
    apply (netinv_server s0 nw st' []); rewrite ?app_nil_r, ?H3; try done. apply (ni_service _ _ Hn). }
  destruct ev as [|stream peer|error| |k|k| |]; cbn [rstep].
  - apply Hsame; by destruct (rn_serving (nw_server nw)).
  - by destruct (Hev stream peer).
  - apply Hsame; by destruct (rn_serving (nw_server nw)), (rn_signal (nw_server nw)).
  - unfold poll_accept. destruct (rn_serving (nw_server nw)) as [| |e|r|r] eqn:E, (rn_signal (nw_server nw));
      try (by apply Hsame).
    pose proof (an_accept_error _ _ _ HA e _ (ni_service _ _ Hn)) as Hs.
    destruct (on_accept_error svc e _) as [a s'] eqn:Ea. cbn [rn_log]. rewrite drop_log, app_nil_r.
    apply (netinv_server s0 nw _ [AcceptErrorHook e a]); try done. by exists s'.
  - destruct (rn_tasks (nw_server nw) !! k) as [task|] eqn:Ht; [|by apply Hsame].
    destruct (run_task F svc config k _ task _) as [[task' s'] calls] eqn:E.
    unfold with_task at 1 2. cbn [rn_log]. rewrite drop_log. by apply (poll_task_inv s0 k nw task).
  - destruct (rn_serving (nw_server nw)); try (by apply Hsame).
    destruct (rn_tasks (nw_server nw) !! k) as [task|] eqn:Ht; [|by apply Hsame].
    destruct (ct_phase task) as [| |h q|h r|reason|o|o] eqn:Hph; try (by apply Hsame).
    unfold with_task at 1 2. cbn [rn_log]. rewrite drop_log. by apply (join_task_inv s0 k nw task o).
  - destruct (rn_serving (nw_server nw)); try (by apply Hsame). destruct (forallb _ _); by apply Hsame.
  - by apply Hsame.
Qed.

Lemma nstep_inv s0 ev nw : netinv s0 nw → callable F ev → netinv s0 (nstep F svc config ev nw).
Proof.
  intros Hn Hc. destruct ev as [peer cw sw|k u q|k|k|k n|k n|k error|k error|ev];
    try (by apply on_peer_inv); cbn [nstep].
  - destruct (rn_serving (nw_server nw)) eqn:Es; try done.
    destruct (rn_signal (nw_server nw)) eqn:Eg; [done|]. cbn [rstep]. rewrite Es, Eg.
    destruct (next_id _) as [id next']. pose proof Hn as [N1 N2 N3 Nw N4 N5 N6].
    split; cbn [nw_server nw_peers nw_history rn_log rn_service rn_tasks]; try done.
    + rewrite !length_app, N4. done.
    + intros k Hk. rewrite length_app in Hk. apply N5. lia.
    + intros k p task. rewrite !lookup_app, N4.
      destruct (nw_peers nw !! k) as [p1|] eqn:E1.
      { intros [= <-]. destruct (rn_tasks (nw_server nw) !! k) eqn:E2; [intros [= <-]; eauto|].
        apply lookup_lt_Some in E1. apply lookup_ge_None in E2. lia. }
      destruct (rn_tasks (nw_server nw) !! k) eqn:E2.
      { apply lookup_lt_Some in E2. apply lookup_ge_None in E1. lia. }
      apply lookup_ge_None in E1.
      destruct (k - length (rn_tasks (nw_server nw)))%nat as [|n]; [|done]. cbn.
      intros [= <-] [= <-]. exists Resting. split; [by apply N5|]. split; [by split_and!|].
      by split; cbn.
  - destruct ev; try done; by apply server_step_inv.
Qed.

Lemma nrun_inv s0 evs nw :
  netinv s0 nw → Forall (callable F) evs → netinv s0 (nrun F svc config evs nw).
Proof.
  intros Hn Hc. revert nw Hn. induction Hc as [|ev evs Hev Hc IH]; intros nw Hn; [done|].
  by apply (IH (nstep F svc config ev nw)), nstep_inv.
Qed.

Lemma netinv_new s0 : I s0 → netinv s0 (Network_new F svc s0).
Proof. intros Hs. by split. Qed.

(** What a client can know of itself: it is usable exactly as long as its session
    is not lost. *)
Definition not_lost (σ : Session) : bool := match σ with Lost _ => false | _ => true end.

Lemma linked_usable p (task : ConnTask F) σ :
  linked p task σ → is_desynchronized (co_client (pr_client p)) = negb (not_lost σ).
Proof.
  destruct σ as [|u q|[r|]|[[u q]|]|due]; cbn [linked]; unfold usable; [..|done]; by intros [-> _].
Qed.

(** C3. Any number of clients and one server are linearizable.  The clients call
    with requests that encode, to one unit (not a broadcast), and that the framing
    delimits; the service, from the states it can reach, answers each with
    nothing, or with a response or an exception of the request's own function that
    can be framed; and each hook takes effect at once, when it completes.  Then
    however calls, polls and deadlines of the clients, the steps of the server and
    of its tasks, and the network are interleaved, with the bytes of each direction
    cut and delayed in any way, writes that fail part way and connections that
    break at any moment: the state of the service is that of its hooks in the order
    they completed; and every client goes through its calls one after the other,
    each call that returns a response returning what the service made of exactly
    that request, asked once, between the beginning of the call and its return
    (bits padded to whole bytes, as the wire carries them).  A call, of such
    requests and answers, that fails makes its client unusable for good, and its
    request may still be handled, once; a client is unusable only for that. *)
Theorem clients_linearizable s0 evs :
  I s0 → Forall (callable F) evs →
  let nw := nrun F svc config evs (Network_new F svc s0) in
  replays s0 (rn_log (nw_server nw)) (rn_service (nw_server nw)) ∧
  omap handled_only (nw_history nw) = omap asked (rn_log (nw_server nw)) ∧
  ∀ k p, nw_peers nw !! k = Some p →
    ∃ σ, session k (nw_history nw) = Some σ ∧
      is_desynchronized (co_client (pr_client p)) = negb (not_lost σ).
Proof.
  intros Hs Hc nw. pose proof (nrun_inv s0 evs _ (netinv_new s0 Hs) Hc) as [N1 N2 N3 Nw N4 N5 N6].
  fold nw in N1, N2, N3, N4, N5, N6. split_and!; [done|done|]. intros k p Hp.
  destruct (lookup_lt_is_Some_2 (rn_tasks (nw_server nw)) k) as [task Ht].
  { rewrite <- N4. by eapply lookup_lt_Some. }
  destruct (N6 k p task Hp Ht) as (σ & H1 & H2 & _). exists σ. split; [done|]. by eapply linked_usable.
Qed.
End runs.
