(* ===== verification/SharedDevice.v ===== *)
(** * Clients of the example server share one memory

    [Linearizable] for the device of [examples/interop_server.rs]: any number of
    clients that read and write it at once see four arrays of sixteen cells. *)

From stdpp Require Import gmap.
From S2P Require Import Prelude.
From S2P Require Import Errors.
From S2P Require Import Parse.
From S2P Require Import Value.
From S2P Require Import Function.
From S2P Require Import Exception.
From S2P Require Import Wire.
From S2P Require Import Pdu.
From S2P Require Import PduSpec.
From S2P Require Import PduRoundtrip.
From S2P Require Import Framing.
From S2P Require Import Transport.
From S2P Require Import TransportSpec.
From S2P Require Import TransportTheorems.
From S2P Require Import Outgoing.
From S2P Require Import Framed.
From S2P Require Import Client.
From S2P Require Import ClientOver.
From S2P Require Import Server.
From S2P Require Import ServerTheorems.
From S2P Require Import Link.
From S2P Require Import Typed.
From S2P Require Import OverTheWire.
From S2P Require Import Growing.
From S2P Require Import ServerLife.
From S2P Require Import Concurrent.
From S2P Require Import Network.
From S2P Require Import Linearizable.
From S2P Require Import Tcp.
From S2P Require Import Device.
From S2P Require Import Interop.

(** ** What the device answers can be sent *)

Section fitting.
Context {w : Winnow} {ws : WinnowSpec w}.

Lemma bits_response_bytes_ok (vs : list bool) :
  len vs ≤ SIZE →
  (∃ pdu, response_bytes (Resp_ReadCoils vs) = Ok pdu) ∧
  ∃ pdu, response_bytes (Resp_ReadDiscreteInputs vs) = Ok pdu.
Proof.
  intros Hl. pose proof (len_nonneg vs) as Hn. unfold SIZE in *.
  pose proof (packed_len_bounds (len vs) Hn) as Hp.
  cbn [response_bytes]. rewrite <- len_bits_bytes in *. split; eexists;
    apply counted_layout_ok; rewrite ?len_cons; unfold U8_MAX, MAX_PDU_LEN; lia.
Qed.

Lemma registers_response_bytes_ok rs :
  len rs ≤ SIZE →
  (∃ pdu, response_bytes (Resp_ReadHoldingRegisters rs) = Ok pdu) ∧
  ∃ pdu, response_bytes (Resp_ReadInputRegisters rs) = Ok pdu.
Proof.
  intros Hl. split; [by apply holding_response_bytes_ok|].
  cbn [response_bytes]. unfold counted_layout, saturating_mul, sized.
  pose proof (len_nonneg rs). unfold SIZE in *.
  rewrite (proj2 (Z.leb_le _ _)) by (unfold U8_MAX, USIZE_MAX; lia).
  rewrite (proj2 (Z.ltb_ge _ _)); [by eexists|].
  rewrite !len_cons, len_registers_bytes. unfold MAX_PDU_LEN. lia.
Qed.

(** The request whose bytes are defined has a function code that encodes. *)
Lemma request_function_encodes q pdu :
  request_bytes q = Ok pdu → ∃ f, FunctionCode_encode (RequestPdu_function q) = Ok f.
Proof.
  intros H. destruct q; try (by eexists). cbn [request_bytes custom_layout] in H.
  unfold custom_layout in H. by apply Result_bind_inv in H as (b & Hb & _); exists b.
Qed.

Lemma exception_fits q pdu e :
  request_bytes q = Ok pdu → wf q → e = EC_IllegalDataAddress ∨ e = EC_IllegalFunction →
  fits Tcp_framing q (Resp_Exception (mkExceptionResponse (RequestPdu_function q) e)).
Proof.
  intros Hb Hq He. destruct (request_function_encodes q pdu Hb) as [f Hf].
  split_and!; try done.
  - split; [by apply RequestPdu_function_wf|]. by destruct He as [-> | ->].
  - cbn [response_bytes]. unfold exception_bytes. cbn. rewrite Hf.
    by destruct He as [-> | ->]; eexists.
Qed.

Lemma array_read_short {T} (cells : list T) a n vs :
  length cells = Z.to_nat SIZE → array_read cells a n = inl vs → len vs ≤ SIZE.
Proof.
  intros Hc ->%array_read_cells. unfold len. rewrite length_take, length_drop, Hc. unfold SIZE. lia.
Qed.

Lemma packed_canonical (cs : list bool) :
  response_canonical (packed (Resp_ReadCoils cs)) = true ∧
  response_canonical (packed (Resp_ReadDiscreteInputs cs)) = true.
Proof.
  cbn [packed response_canonical]. rewrite len_bits_from_bytes, Z.mul_comm, Z.mod_mul by lia. done.
Qed.

(** Every answer of the abstract device to a request that can be sent. *)
Lemma memory_answer_fits q m pdu r :
  wf q → request_bytes q = Ok pdu → length (m_coils m) = Z.to_nat SIZE →
  length (m_discrete m) = Z.to_nat SIZE → length (m_holding m) = Z.to_nat SIZE →
  length (m_input m) = Z.to_nat SIZE → Forall is_u16 (m_holding m) → Forall is_u16 (m_input m) →
  response_of (RequestPdu_function q) (memory_on_request q m).1 = Some r → fits Tcp_framing q r.
Proof.
  intros Hq Hb H1 H2 H3 H4 Hh Hi Hr.
  pose proof (memory_answer_typed q m Hq Hh Hi) as Ht.
  assert (∀ e, response_of (RequestPdu_function q) (inr e) = Some r →
    e = EC_IllegalDataAddress ∨ e = EC_IllegalFunction → fits Tcp_framing q r) as Hex.
  { intros e [= <-] He. by eapply exception_fits. }
  destruct q; cbn [memory_on_request fst] in Hr, Ht; try (by apply (Hex EC_IllegalFunction); auto).
  1-4: destruct (array_read _ _ _) as [vs|e] eqn:E;
    [|apply array_read_error in E as ->; eapply Hex; eauto];
    apply array_read_short in E; [|done]; injection Hr as <-.
  5-8: unfold refused in Hr, Ht; destruct (in_range _ _); [injection Hr as <-|eapply Hex; eauto].
  - split_and!; try done; [apply packed_canonical|by apply bits_response_bytes_ok].
  - split_and!; try done; [apply packed_canonical|by apply bits_response_bytes_ok].
  - split_and!; try done. apply registers_response_bytes_ok. by rewrite len_fmap.
  - split_and!; try done. apply registers_response_bytes_ok. by rewrite len_fmap.
  - split_and!; try done. eexists. by apply sized_ok.
  - split_and!; try done. eexists. by apply sized_ok.
  - split_and!; try done. eexists. by apply sized_ok.
  - split_and!; try done. eexists. by apply sized_ok.
Qed.

Lemma device_answers errno target : Answering Tcp_framing (Device_service errno target) device_ok.
Proof.
  split; try done. intros conn u q d pdu (m & Hd & Hh & Hi) Hq Hb.
  destruct (device_step conn u q d m Hq Hd) as [E1 E2].
  change (on_request (Device_service errno target) conn u q d) with (device_on_request conn u q d).
  pose proof Hd as ((L1 & _) & (L2 & _) & (L3 & _) & (L4 & _)). split.
  - exists (memory_on_request q m).2. split; [done|]. by apply memory_keeps_words.
  - intros r Hr. apply (memory_answer_fits q m pdu r); try done. by rewrite <- E1.
Qed.

(** ** The arrays behind a log *)

Definition request_of (o : Observed) : option RequestPdu :=
  match o with Handled _ _ q _ => Some q | _ => None end.
Definition answer_of_ (o : Observed) : option (option ResponsePdu + ExceptionCode) :=
  match o with Handled _ _ _ answer => Some answer | _ => None end.

Lemma device_replays errno target log (d d' : Device) m :
  represents d m → Forall sound (omap asked log) →
  replays (svc := Device_service errno target) d log d' →
  let requests := omap request_of (omap asked log) in
  (memory_run requests m).1 = omap answer_of_ (omap asked log) ∧
  represents d' (memory_run requests m).2.
Proof.
  revert d m. induction log as [|call log IH]; intros d m Hd Hs Hr; [by cbn in Hr; subst d'|].
  destruct Hr as (d1 & Hc & Hr).
  assert (asked call = None → d1 = d) as Hsame.
  { destruct call; cbn; try done; intros _; first [by injection Hc|by cbn in Hc]. }
  destruct (asked call) as [o|] eqn:Ea.
  - destruct call as [| k conn u q a| | |]; try done. injection Ea as <-. cbn in Hs.
    apply Forall_cons in Hs as [Hq Hs]. cbn in Hc, Hq.
    destruct (device_step conn u q d m Hq Hd) as [E1 E2]. rewrite Hc in E1, E2. cbn in E1, E2.
    cbn. destruct (memory_on_request q m) as [am m1]. cbn in E1, E2. subst am.
    destruct (IH d1 m1 E2 Hs Hr) as [H1 H2]. cbn in H1, H2.
    destruct (memory_run (omap request_of (omap asked log)) m1) as [answers m2]. cbn in H1, H2.
    cbn. by rewrite H1.
  - rewrite (Hsame eq_refl) in Hr. cbn in *. rewrite Ea in *. by apply (IH d).
Qed.
End fitting.

(** A request to one unit that encodes can be called. *)
Lemma callable_tcp {w : Winnow} {ws : WinnowSpec w} k u q pdu :
  wf u → wf q → request_canonical q = true → request_bytes q = Ok pdu →
  callable Tcp_framing (CallFrom k u q).
Proof.
  intros Hu Hq Hc Hb. split_and!; [done|done|]. intros tid Ht.
  by destruct (request_frame (mkMbapHeader tid u) q pdu) as [adu H]; [..|exists adu].
Qed.

(** ** Clients at once *)

Section sharing.
Context {w : Winnow} {ws : WinnowSpec w}.

Lemma requests_handled (h : list Observed) : omap request_of h = omap request_of (omap handled_only h).
Proof. induction h as [|[] h IH]; cbn; by rewrite ?IH. Qed.

Lemma answers_handled (h : list Observed) : omap answer_of_ h = omap answer_of_ (omap handled_only h).
Proof. induction h as [|[] h IH]; cbn; by rewrite ?IH. Qed.

Lemma sound_handled (h : list Observed) : Forall sound h → Forall sound (omap handled_only h).
Proof. induction 1 as [|[] h Ho Hs IH]; cbn; auto. Qed.

(** C30. Clients of the example server share one memory.  Whatever any number of
    clients read and write at once, however their calls are interleaved, cut, delayed
    and broken off by the network: the requests the server handled, in the order it
    handled them, were answered as four arrays of sixteen cells answer them,
    exceptions included; each call that returned returned such an answer to its own
    request, handled between its beginning and its return; and the hash maps stand
    for those arrays at the end.  A write that runs past the end is refused after the
    values that fit were stored. *)
Theorem clients_share_one_memory errno target evs :
  Forall (callable Tcp_framing) evs →
  let nw := nrun Tcp_framing (Device_service errno target) interop_config evs
              (Network_new Tcp_framing (Device_service errno target) Device_default) in
  let requests := omap request_of (nw_history nw) in
  (memory_run requests Memory_default).1 = omap answer_of_ (nw_history nw) ∧
  represents (rn_service (nw_server nw)) (memory_run requests Memory_default).2 ∧
  ∀ k p, nw_peers nw !! k = Some p → ∃ σ, session k (nw_history nw) = Some σ.
Proof.
  intros Hc nw requests.
  pose proof (nrun_inv (svc := Device_service errno target) (config := interop_config) device_ok
    (device_answers errno target) Device_default evs _
    (netinv_new (svc := Device_service errno target) device_ok Device_default default_ok) Hc) as [_ N2 N3 Nw N4 _ N6].
  fold nw in N2, N3, Nw, N4, N6. unfold requests. clear requests.
  rewrite requests_handled, answers_handled, N3. apply sound_handled in Nw. rewrite N3 in Nw.
  destruct (device_replays errno target _ Device_default _ Memory_default default_represents Nw N2)
    as [H1 H2].
  split_and!; [done|done|]. intros k p Hp.
  destruct (lookup_lt_is_Some_2 (rn_tasks (nw_server nw)) k) as [task Ht].
  { rewrite <- N4. by eapply lookup_lt_Some. }
  destruct (N6 k p task Hp Ht) as (σ & H & _). by exists σ.
Qed.
End sharing.

(** ** Witnesses *)

Section witnesses.
Local Existing Instance winnow_model.
Local Existing Instance winnow_model_spec.

Local Abbreviation device := (Device_service linux_errno Linux).
Local Abbreviation run := (λ evs,
  nrun Tcp_framing device interop_config evs (Network_new Tcp_framing device Device_default)).

Definition from_somewhere : SocketAddr := mkSocketAddr (V4 0x7F000001) 40000.

Definition write_7 : RequestPdu := Req_WriteSingleRegister (mkAddress 3) (word 7).
Definition read_3 : RequestPdu := Req_ReadHoldingRegisters (mkAddress 3) (mkQuantity 1).

Definition polled (k n : nat) : list NetEvent := replicate n (OnServer (PollTask k)).

(** Two clients: the second reads while the write of the first is under way, and
    again after it; the connection of the first breaks before its answer arrives. *)
Definition write_and_read : list NetEvent :=
  [OnServer Serve; Dial from_somewhere [(WroteAll, Flushed)] [(WroteAll, Flushed)];
   Dial from_somewhere [(WroteAll, Flushed); (WroteAll, Flushed)] [(WroteAll, Flushed); (WroteAll, Flushed)];
   CallFrom 0 (mkUnitId 1) write_7; CallFrom 1 (mkUnitId 1) read_3; Upstream 0 5; Upstream 1 600] ++
  polled 0 2 ++ polled 1 4 ++ [Downstream 1 9; PollClient 1; Upstream 0 600] ++ polled 0 3 ++
  [Downstream 1 600; PollClient 1; CallFrom 1 (mkUnitId 1) read_3; Upstream 1 600] ++ polled 1 3 ++
  [Downstream 1 600; PollClient 1; BreakDown 0 None; PollClient 0; CallFrom 0 (mkUnitId 1) read_3].

Lemma write_and_read_callable : Forall (callable Tcp_framing) write_and_read.
Proof.
  unfold write_and_read, polled. cbn [app replicate].
  repeat (apply Forall_cons; split; [first [exact I|eapply callable_tcp; by_eval]|]). constructor.
Qed.

Lemma clients_linearizable_witness :
  let nw := run write_and_read in
  length (omap handled_only (nw_history nw)) = 3%nat ∧
  omap handled_only (nw_history nw) = omap asked (rn_log (nw_server nw)) ∧
  replays (svc := device) Device_default (rn_log (nw_server nw)) (rn_service (nw_server nw)) ∧
  session 0 (nw_history nw) = Some (Lost None) ∧ session 1 (nw_history nw) = Some Resting.
Proof.
  destruct (clients_linearizable (F := Tcp_framing) (svc := device) (config := interop_config) device_ok
    (device_answers linux_errno Linux) Device_default write_and_read default_ok write_and_read_callable)
    as (H1 & H2 & _).
  split; [vm_compute; reflexivity|]. split; [exact H2|]. split; [exact H1|].
  split; vm_compute; reflexivity.
Defined.

Lemma clients_share_one_memory_witness :
  let nw := run write_and_read in
  omap request_of (nw_history nw) = [read_3; write_7; read_3] ∧
  (memory_run [read_3; write_7; read_3] Memory_default).1 = omap answer_of_ (nw_history nw) ∧
  omap answer_of_ (nw_history nw) =
    [inl (Some (Resp_ReadHoldingRegisters [word 3]));
     inl (Some (Resp_WriteSingleRegister (mkAddress 3) (word 7)));
     inl (Some (Resp_ReadHoldingRegisters [word 7]))].
Proof.
  destruct (clients_share_one_memory linux_errno Linux write_and_read write_and_read_callable)
    as (H1 & _).
  assert (omap request_of (nw_history (run write_and_read)) = [read_3; write_7; read_3]) as E
    by (vm_compute; reflexivity).
  split; [exact E|]. rewrite E in H1. split; [exact H1|]. vm_compute. reflexivity.
Defined.
End witnesses.
