(* ===== verification/UdpNetwork.v ===== *)
(** * Clients and a datagram server on a network that loses, repeats and reorders

    Any number of [Client]s over [UdpTransport] ([src/client/mod.rs],
    [src/transport/udp.rs]), and one [serve_udp] ([src/server/mod.rs]).  A datagram
    that was sent may be delivered at any later time, any number of times, or never;
    sockets may fail; clients call, poll, give up and drop their calls when they like; others send the
    server what they like, from addresses of their own. *)

From S2P Require Import Prelude.
From S2P Require Import Errors.
From S2P Require Import Parse.
From S2P Require Import Value.
From S2P Require Import Function.
From S2P Require Import Exception.
From S2P Require Import Wire.
From S2P Require Import Pdu.
From S2P Require Import PduSpec.
From S2P Require Import PduRoundtrip.
From S2P Require Import Framing.
From S2P Require Import Tcp.
From S2P Require Import TransportTheorems.
From S2P Require Import Outgoing.
From S2P Require Import Framed.
From S2P Require Import Client.
From S2P Require Import ClientOver.
From S2P Require Import Server.
From S2P Require Import ServerTheorems.
From S2P Require Import Typed.
From S2P Require Import OverTheWire.
From S2P Require Import Concurrent.
From S2P Require Import Network.
From S2P Require Import Linearizable.
From S2P Require Import UdpServer.
From S2P Require Import Device.
From S2P Require Import Interop.
From S2P Require Import SharedDevice.

Local Abbreviation Answer := (option ResponsePdu + ExceptionCode)%type.

(** What can be observed: a usable client begins a call, with the header it will
    send; the service is asked; a call returns, or is refused at once. *)
Inductive UdpObserved :=
  | UCalled (address : SocketAddr) (header : MbapHeader) (request : RequestPdu)
  | UHandled (address : SocketAddr) (header : MbapHeader) (request : RequestPdu) (answer : Answer)
  | UReturned (address : SocketAddr) (r : Result (option ResponsePdu))
  | URefused (address : SocketAddr).

Section network.
Context {w : Winnow} (svc : Service) (config : ServerConfig).

Local Abbreviation client_ := (ClientOver (UdpTransport Tcp_framing)).

(** A client, the address of its socket, and what it is doing. *)
Record UdpPeer := mkUdpPeer {
  uc_address : SocketAddr;
  uc_client : client_;
  uc_phase : PeerPhase Tcp_framing;
}.

Record UdpNetwork := mkUdpNetwork {
  un_server : UdpRunning svc;
  un_peers : list UdpPeer;
  un_history : list UdpObserved;
}.

Definition UdpNetwork_new (s : SvcState svc) : UdpNetwork :=
  mkUdpNetwork (UdpRunning_new svc s) [] [].

Inductive UdpNetEvent :=
  | UDial (address : SocketAddr) (outcomes : list SocketSend)
  | UCall (k : nat) (unit : UnitId) (request : RequestPdu)
  | UPollClient (k : nat)
  | UExpire (k : nat)
  | UDrop (k : nat)
  | UToServer (k i : nat)
  | UToClient (k i : nat)
  | UClientFails (k : nat) (kind : ErrorKind) (raw : option Z)
  | UOnServer (ev : UdpEvent).

Definition udp_socket (p : UdpPeer) : UdpSocket := ut_socket (co_transport (uc_client p)).

(** A client whose socket will deliver one thing more. *)
Definition delivered (r : SocketRecv) (p : UdpPeer) : UdpPeer :=
  let '(mkClientOver t cfg c) := uc_client p in
  let s := ut_socket t in
  mkUdpPeer (uc_address p)
    (mkClientOver (mkUdpTransport (mkUdpSocket (deliveries s ++ [r]) (dispatches s) (dispatched s))
       (ut_outgoing t) (ut_incoming t)) cfg c) (uc_phase p).

(** A call that progressed. *)
Definition udp_progressed (pr : Progress Tcp_framing (UdpTransport Tcp_framing)) (p : UdpPeer)
    : UdpPeer * list UdpObserved :=
  match pr with
  | Over r cl => (mkUdpPeer (uc_address p) cl PeerIdle, [UReturned (uc_address p) r])
  | Awaiting header expected cl => (mkUdpPeer (uc_address p) cl (PeerAwaiting header expected), [])
  | Writing cl => (mkUdpPeer (uc_address p) cl PeerWriting, [])
  end.

(** A client's own step. *)
Definition udp_call (unit : UnitId) (request : RequestPdu) (p : UdpPeer) : UdpPeer * list UdpObserved :=
  let c := co_client (uc_client p) in
  if is_desynchronized c then (p, [URefused (uc_address p)]) else
  let '(p', obs) := udp_progressed (begin_call unit request (uc_client p)) p in
  (p', UCalled (uc_address p) (request_header (F := Tcp_framing) unit (next_transaction c)) request :: obs).

Definition udp_peer_event (ev : UdpNetEvent) (p : UdpPeer) (sent : list (SocketAddr * list Z))
    : UdpPeer * list UdpObserved :=
  match ev, uc_phase p with
  | UCall _ unit request, PeerIdle => udp_call unit request p
  | UPollClient _, PeerAwaiting header expected =>
      udp_progressed (await_step false header expected (uc_client p)) p
  | UExpire _, PeerAwaiting header expected =>
      udp_progressed (await_step true header expected (uc_client p)) p
  | UDrop _, PeerAwaiting _ _ => (mkUdpPeer (uc_address p) (uc_client p) PeerIdle, [])
  | UToClient _ i, _ =>
      match sent !! i with
      | Some (address, bs) =>
          if decide (address = uc_address p) then (delivered (Datagram bs) p, []) else (p, [])
      | None => (p, [])
      end
  | UClientFails _ kind raw, _ => (delivered (SocketFailed kind raw) p, [])
  | _, _ => (p, [])
  end.

(** The requests among the calls of the service, with the header and the address
    their task has. *)
Definition udp_asked (tasks : list DatagramTask) (call : DatagramCall) : option UdpObserved :=
  match call with
  | DRequest k _ _ request answer =>
      task ← tasks !! k; Some (UHandled (dt_peer task) (dt_header task) request answer)
  | _ => None
  end.

Definition udp_server_step (ev : UdpEvent) (nw : UdpNetwork) : UdpNetwork :=
  let st := un_server nw in
  let st' := dstep svc config ev st in
  mkUdpNetwork st' (un_peers nw)
    (un_history nw ++ omap (udp_asked (ud_tasks st')) (drop (length (ud_log st)) (ud_log st'))).

(** An address nobody has used so far. *)
Definition unused (address : SocketAddr) (nw : UdpNetwork) : bool :=
  forallb (λ p, negb (bool_decide (uc_address p = address))) (un_peers nw) &&
  forallb (λ task, negb (bool_decide (dt_peer task = address))) (ud_tasks (un_server nw)).

Definition unstep (ev : UdpNetEvent) (nw : UdpNetwork) : UdpNetwork :=
  match ev with
  | UDial address outcomes =>
      if unused address nw then
        mkUdpNetwork (un_server nw)
          (un_peers nw ++ [mkUdpPeer address
             (Client_over (UdpTransport_new (mkUdpSocket [] outcomes []))) PeerIdle])
          (un_history nw)
      else nw
  | UToServer k i =>
      match un_peers nw !! k with
      | Some p =>
          match dispatched (udp_socket p) !! i with
          | Some bs => udp_server_step (DReceive (Datagram bs) (uc_address p)) nw
          | None => nw
          end
      | None => nw
      end
  | UOnServer (DReceive (Datagram bs) address) =>
      if existsb (λ p, bool_decide (uc_address p = address)) (un_peers nw) then nw
      else udp_server_step (DReceive (Datagram bs) address) nw
  | UOnServer ev => udp_server_step ev nw
  | UCall k _ _ | UPollClient k | UExpire k | UDrop k | UToClient k _ | UClientFails k _ _ =>
      match un_peers nw !! k with
      | Some p =>
          let '(p', obs) := udp_peer_event ev p ((λ x, (x.1.2, x.2)) <$> ud_sent (un_server nw)) in
          mkUdpNetwork (un_server nw) (<[k := p']> (un_peers nw)) (un_history nw ++ obs)
      | None => nw
      end
  end.

Definition unrun (evs : list UdpNetEvent) (nw : UdpNetwork) : UdpNetwork :=
  foldl (λ nw ev, unstep ev nw) nw evs.
End network.

Arguments un_server {w svc}.
Arguments un_peers {w svc}.
Arguments un_history {w svc}.
Arguments mkUdpNetwork {w svc}.

(** ** What a history must be *)

(** The calls of the client at an address. *)
Definition calls_of (address : SocketAddr) (h : list UdpObserved) : list (MbapHeader * RequestPdu) :=
  omap (λ o, match o with
             | UCalled a header request => if decide (a = address) then Some (header, request) else None
             | _ => None
             end) h.

(** What was handled for a client was called before; and a call that returned a
    response returned what the service made of that call's request, which it was
    asked after the call began. *)
Definition udp_justified (address : SocketAddr) (pre : list UdpObserved) (o : UdpObserved) : Prop :=
  match o with
  | UHandled a header request _ => a = address → (header, request) ∈ calls_of address pre
  | UReturned a (Ok (Some r)) => a = address →
      ∃ before header request since, pre = before ++ UCalled address header request :: since ∧
        calls_of address since = [] ∧ (∀ r', UReturned address r' ∉ since) ∧
        ∃ answer, UHandled address header request answer ∈ since ∧
          packed <$> response_of (RequestPdu_function request) answer = Some r
  | _ => True
  end.

Definition all_justified (address : SocketAddr) (h : list UdpObserved) : Prop :=
  ∀ pre o post, h = pre ++ o :: post → udp_justified address pre o.

Lemma all_justified_snoc address h o :
  all_justified address h → udp_justified address h o → all_justified address (h ++ [o]).
Proof.
  intros Hh Ho pre o' post E. destruct post as [|o1 post _] using rev_ind.
  - apply app_inj_tail in E as [<- <-]. done.
  - rewrite app_comm_cons, app_assoc in E. apply app_inj_tail in E as [-> _]. by eapply Hh.
Qed.

Lemma calls_of_app a h h' : calls_of a (h ++ h') = calls_of a h ++ calls_of a h'.
Proof. apply omap_app. Qed.

Lemma calls_of_length a h : (length (calls_of a h) ≤ length h)%nat.
Proof.
  unfold calls_of. induction h as [|o h IH]; [done|]. cbn [omap list_omap length].
  destruct (match o with UCalled _ _ _ => _ | _ => _ end); cbn [length]; lia.
Qed.

Lemma calls_of_elem a h header request :
  (header, request) ∈ calls_of a h ↔ UCalled a header request ∈ h.
Proof.
  unfold calls_of. rewrite list_elem_of_omap. split.
  - intros (o & Ho & E). destruct o; try done. destruct (decide (address = a)) as [->|]; [|done].
    by injection E as -> ->.
  - intros H. eexists. split; [exact H|]. cbn. by rewrite decide_True.
Qed.

(** Headers that do not come twice single out a call. *)
Lemma same_header_same_call a h header q q' :
  NoDup (fst <$> calls_of a h) → (header, q) ∈ calls_of a h → (header, q') ∈ calls_of a h → q = q'.
Proof.
  intros Hn. induction (calls_of a h) as [|[h1 q1] l IH]; [by intros ?%elem_of_nil|].
  cbn in Hn. apply NoDup_cons in Hn as [Hni Hn]. rewrite !elem_of_cons.
  intros [E1|H1] [E2|H2].
  - congruence.
  - destruct Hni. injection E1 as <- <-. apply list_elem_of_fmap. by exists (header, q').
  - destruct Hni. injection E2 as <- <-. apply list_elem_of_fmap. by exists (header, q).
  - by apply IH.
Qed.

(** What is handled under the header of the last call was handled since. *)
Lemma handled_since a before header q since h q' answer :
  h = before ++ UCalled a header q :: since → all_justified a h → NoDup (fst <$> calls_of a h) →
  UHandled a header q' answer ∈ h → q' = q ∧ UHandled a header q answer ∈ since.
Proof.
  intros Eh Hj Hn Hin.
  assert (∀ pre post, h = pre ++ UHandled a header q' answer :: post → (header, q') ∈ calls_of a pre) as Hc
    by (intros pre post E; exact (Hj _ _ _ E eq_refl)).
  assert ((header, q') ∈ calls_of a h) as H1.
  { apply list_elem_of_split in Hin as (pre & post & E). pose proof (Hc _ _ E) as H.
    rewrite E, calls_of_app. apply elem_of_app. by left. }
  assert ((header, q) ∈ calls_of a h) as H2 
    by (apply calls_of_elem; rewrite Eh; apply elem_of_app; right; by left).
  pose proof (same_header_same_call _ _ _ _ _ Hn H1 H2) as ->. split; [done|].
  rewrite Eh in Hin. apply elem_of_app in Hin as [Hin|Hin].
  - exfalso. apply list_elem_of_split in Hin as (pre & post & E).
    assert ((header, q) ∈ calls_of a pre) as Hp.
    { apply (Hc pre (post ++ UCalled a header q :: since)). by rewrite Eh, E, <- app_assoc. }
    rewrite Eh, E, calls_of_app, fmap_app in Hn. apply NoDup_app in Hn as (_ & Hn & _).
    apply (Hn header).
    + rewrite calls_of_app, fmap_app. apply elem_of_app. left. apply list_elem_of_fmap.
      by exists (header, q).
    + cbn. rewrite decide_True by done. by left.
  - apply elem_of_cons in Hin as [?|Hin]; [done|]. done.
Qed.

(** ** Every run *)

Section runs.
Context {w : Winnow} {ws : WinnowSpec w}.
Context {svc : Service} {config : ServerConfig} (I : SvcState svc → Prop) (HA : Answering Tcp_framing svc I).
Context (HR : ∀ e s, I s → I (on_receive_error svc e s).2).

Local Abbreviation network := (UdpNetwork svc).

(** The bytes of a datagram that are read. *)
Definition within_buffer (bs : list Z) : list Z := take (Z.to_nat (MAX_ADU_LEN Tcp_framing)) bs.

(** A request within its types, that has an encoding. *)
Definition proper (h : MbapHeader) (q : RequestPdu) : Prop :=
  wf (h : Header Tcp_framing) ∧ wf q ∧ ∃ pdu, request_bytes q = Ok pdu.

(** A datagram to an address is the answer to a request from it. *)
Definition genuine (address : SocketAddr) (bs : list Z) (history : list UdpObserved) : Prop :=
  ∃ h q answer r, UHandled address h q answer ∈ history ∧
    response_of (RequestPdu_function q) answer = Some r ∧ fits Tcp_framing q r ∧
    decode_response Tcp_framing (within_buffer bs) = Ok (h, packed r).

Lemma genuine_app address bs h h' : genuine address bs h → genuine address bs (h ++ h').
Proof.
  intros (x & q & a & r & H1 & H2). exists x, q, a, r. split; [|done]. apply elem_of_app. by left.
Qed.

(** What the server's tasks are, of the history. *)
Record server_inv (st : UdpRunning svc) (history : list UdpObserved) : Prop := {
  si_service : I (ud_service st);
  si_proper k task : ud_tasks st !! k = Some task → proper (dt_header task) (dt_request task);
  si_sending k task r : ud_tasks st !! k = Some task → dt_phase task = DSending r →
    ∃ answer, UHandled (dt_peer task) (dt_header task) (dt_request task) answer ∈ history ∧
      response_of (RequestPdu_function (dt_request task)) answer = Some r ∧
      fits Tcp_framing (dt_request task) r;
  si_sent k address bs : (k, address, bs) ∈ ud_sent st → genuine address bs history;
  si_handled address h q answer : UHandled address h q answer ∈ history →
    ∃ k task, ud_tasks st !! k = Some task ∧ dt_peer task = address;
}.

(** What a client is, of the history and of the server's tasks. *)
Record client_inv (tasks : list DatagramTask) (history : list UdpObserved) (p : UdpPeer) : Prop := {
  ci_justified : all_justified (uc_address p) history;
  ci_headers : NoDup (fst <$> calls_of (uc_address p) history);
  ci_tasks k task : tasks !! k = Some task → dt_peer task = uc_address p →
    (dt_header task, dt_request task) ∈ calls_of (uc_address p) history;
  ci_dispatched bs : bs ∈ dispatched (udp_socket p) →
    ∃ h q, (h, q) ∈ calls_of (uc_address p) history ∧ proper h q ∧
      decode_request Tcp_framing (within_buffer bs) = Ok (h, q);
  ci_deliveries bs : Datagram bs ∈ deliveries (udp_socket p) → genuine (uc_address p) bs history;
  ci_incoming : length (ut_incoming (co_transport (uc_client p))) = Z.to_nat (MAX_ADU_LEN Tcp_framing);
  ci_wf : wf (next_transaction (co_client (uc_client p)));
  ci_fresh : is_desynchronized (co_client (uc_client p)) = false → uc_phase p ≠ PeerWriting →
    transaction_id_0 (next_transaction (co_client (uc_client p))) =
      1 + len (calls_of (uc_address p) history) ∧
    Forall (λ call, transaction_id_0 (transaction_id call.1) ≤ len (calls_of (uc_address p) history))
      (calls_of (uc_address p) history);
  ci_awaiting h f : uc_phase p = PeerAwaiting h f →
    is_desynchronized (co_client (uc_client p)) = false ∧
    ∃ before q since, history = before ++ UCalled (uc_address p) h q :: since ∧
      calls_of (uc_address p) since = [] ∧ (∀ r, UReturned (uc_address p) r ∉ since) ∧
      f = RequestPdu_function q;
}.

(** What the history and the log say the service was asked. *)
Definition handled_call (o : UdpObserved) : option (option SocketAddr * UnitId * RequestPdu * Answer) :=
  match o with UHandled a h q x => Some (Some a, unit_id h, q, x) | _ => None end.
Definition asked_call (c : DatagramCall) : option (option SocketAddr * UnitId * RequestPdu * Answer) :=
  match c with DRequest _ conn u q x => Some (peer conn, u, q, x) | _ => None end.

Record un_inv (s0 : SvcState svc) (nw : network) : Prop := {
  un_udp : udp_inv (config := config) s0 (un_server nw);
  un_logged : omap handled_call (un_history nw) = omap asked_call (ud_log (un_server nw));
  un_tasks : server_inv (un_server nw) (un_history nw);
  un_clients k p : un_peers nw !! k = Some p →
    client_inv (ud_tasks (un_server nw)) (un_history nw) p;
  un_distinct : NoDup (uc_address <$> un_peers nw);
  un_own address h q r : UCalled address h q ∈ un_history nw ∨ UReturned address r ∈ un_history nw →
    address ∈ uc_address <$> un_peers nw;
}.

Definition address_of (o : UdpObserved) : SocketAddr :=
  match o with UCalled a _ _ | UHandled a _ _ _ | UReturned a _ | URefused a => a end.

Lemma elsewhere_calls a obs : Forall (λ o, address_of o ≠ a) obs → calls_of a obs = [].
Proof.
  induction 1 as [|o obs Ho _ IH]; [done|]. destruct o; try done. cbn in *. by rewrite decide_False.
Qed.

Lemma elsewhere_returned a obs r : Forall (λ o, address_of o ≠ a) obs → UReturned a r ∉ obs.
Proof. intros H Hin. rewrite Forall_forall in H. by apply (H _ Hin). Qed.

Lemma elsewhere_justified a h obs :
  Forall (λ o, address_of o ≠ a) obs → all_justified a h → all_justified a (h ++ obs).
Proof.
  intros H. revert h. induction H as [|o obs Ho _ IH]; intros h Hh; [by rewrite app_nil_r|].
  rewrite cons_middle, app_assoc. apply IH. apply all_justified_snoc; [done|].
  destruct o as [| |a' [[r|]| |]|]; try done; by intros ->.
Qed.

(** A client that is not concerned, but for what the service is asked for it. *)
Lemma client_inv_observed tasks tasks' h p obs :
  client_inv tasks h p → all_justified (uc_address p) (h ++ obs) → calls_of (uc_address p) obs = [] →
  (∀ r, UReturned (uc_address p) r ∉ obs) →
  (∀ k task, tasks' !! k = Some task → dt_peer task = uc_address p →
     (dt_header task, dt_request task) ∈ calls_of (uc_address p) h) →
  client_inv tasks' (h ++ obs) p.
Proof.
  intros [C1 C2 C3 C4 C5 C6 C7 C8 C9] Hj Hc Hr Ht.
  assert (calls_of (uc_address p) (h ++ obs) = calls_of (uc_address p) h) as E
    by (by rewrite calls_of_app, Hc, app_nil_r).
  split; rewrite ?E; try done.
  - intros bs Hin. by apply genuine_app, C5.
  - intros h' f Hp. destruct (C9 h' f Hp) as (Hu & before & q & since & -> & H1 & H2 & H3).
    split; [done|]. exists before, q, (since ++ obs). split_and!; [by rewrite <- app_assoc| | |done].
    + by rewrite calls_of_app, H1, Hc.
    + intros r [Hin|Hin]%elem_of_app; [by apply (H2 r)|by apply (Hr r)].
Qed.

Lemma client_inv_elsewhere tasks h p obs :
  client_inv tasks h p → Forall (λ o, address_of o ≠ uc_address p) obs → client_inv tasks (h ++ obs) p.
Proof.
  intros Hc Ho. apply (client_inv_observed tasks); [done|..].
  - apply elsewhere_justified; [done|apply Hc].
  - by apply elsewhere_calls.
  - intros r. by apply elsewhere_returned.
  - apply Hc.
Qed.

(** *** A client calls *)

Lemma udp_send_cases (enc : W unit) due sent adu :
  enc [] = (Ok tt, adu) →
  (due = [] ∧ ∃ out, udp_send_over enc due sent = Unfinished ([], sent, out)) ∨
  (∃ due' out, udp_send_over enc due sent = Finished (Ok tt) (due', sent ++ [adu], out)) ∨
  (∃ e due' out, udp_send_over enc due sent = Finished (Err e) (due', sent, out)).
Proof.
  intros E. unfold udp_send_over. rewrite E. destruct due as [|[|kind raw] due'].
  - left. eauto.
  - right. left. cbn. unfold udp_send. rewrite E. cbn. eauto.
  - right. right. cbn. unfold udp_send. rewrite E. cbn. eauto.
Qed.

(** The frame of a call, as the server will decode it. *)
Lemma call_frame k u q tid :
  callable Tcp_framing (CallFrom k u q) → wf tid →
  let header := mkMbapHeader tid u in
  ∃ adu pdu, proper header q ∧ RequestPdu_encode q = Ok pdu ∧
    encode_request_into Tcp_framing header q [] = (Ok tt, adu) ∧
    decode_request Tcp_framing (within_buffer adu) = Ok (header, q).
Proof.
  intros (_ & _ & Hcall) Hwf header. destruct (Hcall _ Hwf) as [adu (Hh & Hr & Hca & He)].
  cbn [fst snd request_header Tcp_client] in *. fold header in Hh, He. pose proof He as He'.
  apply encode_request_inv in He' as (pdu & _ & Hpdu & _); [|done..].
  destruct (request_adu_roundtrip (F := Tcp_framing) header q adu) as (Hd & _ & _ & Hm); [done..|].
  exists adu, pdu. split_and!.
  - split_and!; [done|done|by exists pdu].
  - by rewrite RequestPdu_encode_bytes.
  - by rewrite (encode_into_cleared Tcp_framing), He.
  - unfold within_buffer. rewrite take_ge; [done|]. unfold len in Hm. lia.
Qed.

(** A client whose socket sent [extra]. *)
Definition udp_sent_by (p : UdpPeer) (due : list SocketSend) (out : list Z) (extra : list (list Z))
    (c : Client) (phase : PeerPhase Tcp_framing) : UdpPeer :=
  let t := co_transport (uc_client p) in
  let s := ut_socket t in
  mkUdpPeer (uc_address p)
    (mkClientOver (mkUdpTransport (mkUdpSocket (deliveries s) due (dispatched s ++ extra)) out
       (ut_incoming t)) (co_config (uc_client p)) c) phase.

(** The call of a usable client, by what its socket does. *)
Lemma udp_call_cases u q p k :
  is_desynchronized (co_client (uc_client p)) = false → callable Tcp_framing (CallFrom k u q) →
  wf (next_transaction (co_client (uc_client p))) →
  let c := co_client (uc_client p) in
  let header := mkMbapHeader (next_transaction c) u in
  proper header q ∧ ∃ adu due out, decode_request Tcp_framing (within_buffer adu) = Ok (header, q) ∧
  (udp_call u q p = (udp_sent_by p due out [] c PeerWriting, [UCalled (uc_address p) header q]) ∨
   udp_call u q p = (udp_sent_by p due out [adu] (mkClient (next (next_transaction c)) (state c))
      (PeerAwaiting (F := Tcp_framing) header (RequestPdu_function q)), [UCalled (uc_address p) header q]) ∨
   ∃ e, udp_call u q p =
     (udp_sent_by p due out [] (set_state (Unusable (classify_unusable_reason e)) c) PeerIdle,
      [UCalled (uc_address p) header q; UReturned (uc_address p) (Err e)])).
Proof.
  intros Hu Hcall Hwf c header.
  destruct (call_frame k u q (next_transaction c) Hcall Hwf) as (adu & pdu & Hp & Epdu & Hen & Hdec).
  split; [done|]. unfold udp_call. fold c. unfold c in *. rewrite Hu.
  unfold header, c, begin_call, udp_sent_by in *. clear c header.
  destruct (uc_client p) as [t cfg c]. cbn [co_client co_transport co_config] in *. rewrite Hu, Epdu.
  cbn [ct_send_request UdpTransport_ClientTransport request_header Tcp_client is_broadcast].
  unfold ut_send_request.
  destruct (udp_send_cases (encode_request_into Tcp_framing (mkMbapHeader (next_transaction c) u) q)
    (dispatches (ut_socket t)) (dispatched (ut_socket t)) adu Hen)
    as [[_ (out & E)]|[(due & out & E)|(e & due & out & E)]]; rewrite E.
  - exists adu, [], out. split; [done|]. left. by rewrite app_nil_r.
  - exists adu, due, out. split; [done|]. right. by left.
  - exists adu, due, out. split; [done|]. right. right. exists e. by rewrite app_nil_r.
Qed.

Lemma calls_of_own a header q : calls_of a [UCalled a header q] = [(header, q)].
Proof. cbn. by rewrite decide_True. Qed.

(** A call begins: its header is new. *)
Lemma client_inv_called tasks h p p' header q extra :
  client_inv tasks h p → is_desynchronized (co_client (uc_client p)) = false → uc_phase p = PeerIdle →
  proper header q → transaction_id header = next_transaction (co_client (uc_client p)) →
  uc_address p' = uc_address p → deliveries (udp_socket p') = deliveries (udp_socket p) →
  ut_incoming (co_transport (uc_client p')) = ut_incoming (co_transport (uc_client p)) →
  dispatched (udp_socket p') = dispatched (udp_socket p) ++ extra →
  (∀ bs, bs ∈ extra → decode_request Tcp_framing (within_buffer bs) = Ok (header, q)) →
  wf (next_transaction (co_client (uc_client p'))) →
  (is_desynchronized (co_client (uc_client p')) = false → uc_phase p' ≠ PeerWriting →
   transaction_id_0 (next_transaction (co_client (uc_client p'))) =
     1 + transaction_id_0 (next_transaction (co_client (uc_client p)))) →
  (∀ h' f, uc_phase p' = PeerAwaiting h' f → h' = header ∧ f = RequestPdu_function q ∧
     is_desynchronized (co_client (uc_client p')) = false) →
  client_inv tasks (h ++ [UCalled (uc_address p) header q]) p'.
Proof.
  intros [C1 C2 C3 C4 C5 C6 C7 C8 C9] Hu Hph Hp Htid Ha Hdel Hin Hdis Hex Hwf Hnext Haw.
  destruct (C8 Hu) as [Hn Hall]; [by rewrite Hph|].
  assert (calls_of (uc_address p) (h ++ [UCalled (uc_address p) header q]) =
    calls_of (uc_address p) h ++ [(header, q)]) as E by (by rewrite calls_of_app, calls_of_own).
  assert (len (calls_of (uc_address p) h ++ [(header, q)]) = 1 + len (calls_of (uc_address p) h)) as El
    by (rewrite len_app, len_cons, len_nil; lia).
  split; rewrite ?Ha, ?Hdel, ?Hin, ?Hdis, ?E; try done.
  - by apply all_justified_snoc.
  - rewrite fmap_app. apply NoDup_app. split_and!; [done| |apply NoDup_singleton].
    intros x Hx ->%list_elem_of_singleton. apply list_elem_of_fmap in Hx as ([h' q'] & Ex & Hx).
    rewrite Forall_forall in Hall. specialize (Hall _ Hx). cbn in Ex, Hall. subst h'. rewrite Htid in Hall. lia.
  - intros k task Hk Hpeer. apply elem_of_app. left. by eapply C3.
  - intros bs [Hb|Hb]%elem_of_app.
    + destruct (C4 bs Hb) as (h' & q' & H1 & H2). exists h', q'. split; [|done]. apply elem_of_app. by left.
    + exists header, q. split_and!; [apply elem_of_app; right; by left|done|by apply Hex].
  - intros bs Hb. by apply genuine_app, C5.
  - intros Hu' Hw. rewrite El, (Hnext Hu' Hw), Hn. split; [lia|].
    apply Forall_app. split.
    + eapply Forall_impl; [exact Hall|]. cbn. intros. lia.
    + constructor; [|constructor]. cbn. rewrite Htid. lia.
  - intros h' f Hf. destruct (Haw h' f Hf) as (-> & -> & Hu'). split; [done|].
    exists h, q, []. split_and!; [done|done| |done]. intros r. apply not_elem_of_nil.
Qed.

(** A call returns: the client no longer waits. *)
Lemma client_inv_returned tasks h p r :
  client_inv tasks h p → (∀ h' f, uc_phase p ≠ PeerAwaiting h' f) →
  udp_justified (uc_address p) h (UReturned (uc_address p) r) →
  client_inv tasks (h ++ [UReturned (uc_address p) r]) p.
Proof.
  intros [C1 C2 C3 C4 C5 C6 C7 C8 C9] Hph Hj.
  assert (calls_of (uc_address p) (h ++ [UReturned (uc_address p) r]) = calls_of (uc_address p) h) as E
    by (by rewrite calls_of_app, app_nil_r).
  split; rewrite ?E; try done.
  - by apply all_justified_snoc.
  - intros bs Hb. by apply genuine_app, C5.
  - intros h' f Hf. by destruct (Hph h' f).
Qed.

(** What a client's own step adds to the history. *)
Definition own (p : UdpPeer) (obs : list UdpObserved) : Prop :=
  Forall (λ o, address_of o = uc_address p ∧ ∀ a h q x, o ≠ UHandled a h q x) obs.

Lemma udp_call_inv tasks h p u q k :
  client_inv tasks h p → uc_phase p = PeerIdle → callable Tcp_framing (CallFrom k u q) →
  let '(p', obs) := udp_call u q p in
  len (calls_of (uc_address p) (h ++ obs)) < U16_MAX →
  client_inv tasks (h ++ obs) p' ∧ uc_address p' = uc_address p ∧ own p obs.
Proof.
  intros Hc Hph Hcall. destruct (is_desynchronized (co_client (uc_client p))) eqn:Hu.
  { unfold udp_call. rewrite Hu. intros _. split_and!; [|done|by repeat constructor].
    apply (client_inv_observed tasks); [done| |done| |apply Hc].
    - apply all_justified_snoc; [apply Hc|done].
    - intros r ?%list_elem_of_singleton. done. }
  pose proof (ci_wf _ _ _ Hc) as Hwf.
  destruct (udp_call_cases u q p k Hu Hcall Hwf) as (Hp & adu & due & out & Hdec & Hor).
  set (header := mkMbapHeader (next_transaction (co_client (uc_client p))) u) in *.
  destruct (ci_fresh _ _ _ Hc Hu) as [Hn _]; [by rewrite Hph|].
  destruct Hor as [->|[->|[e ->]]]; intros Hb.
  - split_and!; [|done|by repeat constructor].
    apply (client_inv_called tasks h p _ header q []); try done. by intros bs ?%elem_of_nil.
  - split_and!; [|done|by repeat constructor].
    apply (client_inv_called tasks h p _ header q [adu]); try done.
    + by intros bs ->%list_elem_of_singleton.
    + by apply wf_next.
    + intros _ _. rewrite calls_of_app, calls_of_own, len_app, len_cons, len_nil in Hb. cbn. unfold next.
      destruct (Z.leb_spec (transaction_id_0 (next_transaction (co_client (uc_client p))) + 1) U16_MAX);
        cbn; lia.
    + intros h' f [= <- <-]. split_and!; done.
  - split_and!; [|done|by repeat constructor].
    change [UCalled (uc_address p) header q; UReturned (uc_address p) (Err e)] with
      ([UCalled (uc_address p) header q] ++ [UReturned (uc_address p) (Err e)]).
    rewrite app_assoc.
    apply (client_inv_returned tasks _ (udp_sent_by p due out []
      (set_state (Unusable (classify_unusable_reason e)) (co_client (uc_client p))) PeerIdle)); [|done|done].
    apply (client_inv_called tasks h p _ header q []); try done. by intros bs ?%elem_of_nil.
Qed.

(** *** A client waits *)

(** A datagram is decoded as far as the buffer goes. *)
Lemma udp_recv_readable {A} (decode : list Z → Result A) bs incoming :
  length incoming = Z.to_nat (MAX_ADU_LEN Tcp_framing) →
  (udp_recv decode (Datagram bs) incoming).1 = decode (within_buffer bs).
Proof.
  intros Hl. unfold within_buffer. rewrite <- Hl. unfold udp_recv, socket_recv. cbn [fst mbind Result_bind].
  set (n := Nat.min (length bs) (length incoming)).
  rewrite slice_get_take by (unfold len, n; rewrite length_app, length_take, length_drop; lia).
  cbn [mbind Result_bind expect]. rewrite Nat2Z.id. f_equal.
  rewrite take_app_le, take_take, Nat.min_id by (rewrite length_take; lia).
  unfold n. destruct (Nat.le_ge_cases (length bs) (length incoming)).
  - by rewrite Nat.min_l, !take_ge by lia.
  - by rewrite Nat.min_r by lia.
Qed.

(** A client whose socket has delivered what came first. *)
Definition udp_heard_by (p : UdpPeer) (dl : list SocketRecv) (incoming : list Z) (c : Client)
    (phase : PeerPhase Tcp_framing) : UdpPeer :=
  let t := co_transport (uc_client p) in
  let s := ut_socket t in
  mkUdpPeer (uc_address p)
    (mkClientOver (mkUdpTransport (mkUdpSocket dl (dispatches s) (dispatched s)) (ut_outgoing t) incoming)
       (co_config (uc_client p)) c) phase.

Lemma client_inv_heard tasks h p dl incoming c phase :
  client_inv tasks h p → is_desynchronized (co_client (uc_client p)) = false → uc_phase p ≠ PeerWriting →
  (∀ r, r ∈ dl → r ∈ deliveries (udp_socket p)) →
  length incoming = length (ut_incoming (co_transport (uc_client p))) →
  next_transaction c = next_transaction (co_client (uc_client p)) →
  (phase = uc_phase p ∧ c = co_client (uc_client p) ∨ phase = PeerIdle) →
  client_inv tasks h (udp_heard_by p dl incoming c phase).
Proof.
  intros [C1 C2 C3 C4 C5 C6 C7 C8 C9] Hu Hw Hdl Hin Hn Hph. split; try done.
  - intros bs Hb. by apply C5, Hdl.
  - by cbn; rewrite Hin.
  - by cbn; rewrite Hn.
  - intros _ _. cbn. rewrite Hn. by apply C8.
  - intros h' f Hf. cbn in Hf. destruct Hph as [[-> ->]| ->]; [|done]. by apply C9.
Qed.

(** What a client that waits may do next, by what its socket delivers. *)
Lemma await_cases tasks h p header f deadline :
  client_inv tasks h p → uc_phase p = PeerAwaiting header f →
  let res := udp_progressed (await_step deadline header f (uc_client p)) p in
  (∃ dl incoming, res = (udp_heard_by p dl incoming (co_client (uc_client p)) (uc_phase p), []) ∧
     (∀ r, r ∈ dl → r ∈ deliveries (udp_socket p)) ∧
     length incoming = length (ut_incoming (co_transport (uc_client p)))) ∨
  (∃ dl incoming s r, res = (udp_heard_by p dl incoming (set_state s (co_client (uc_client p))) PeerIdle,
                             [UReturned (uc_address p) r]) ∧
     (∀ r, r ∈ dl → r ∈ deliveries (udp_socket p)) ∧
     length incoming = length (ut_incoming (co_transport (uc_client p))) ∧
     match r with
     | Ok (Some response) => ResponsePdu_function response = f ∧ ∃ bs,
         Datagram bs ∈ deliveries (udp_socket p) ∧
         decode_response Tcp_framing (within_buffer bs) = Ok (header, response)
     | Ok None | Panic => False
     | Err _ => True
     end).
Proof.
  intros Hc Hph. pose proof (ci_incoming _ _ _ Hc) as Hin. pose proof (ci_deliveries _ _ _ Hc) as Hgen.
  unfold await_step, udp_heard_by, udp_socket in *.
  destruct p as [a [[[dl ds sent] out inc] cfg c] phase].
  cbn [uc_client uc_phase uc_address co_transport co_client co_config ut_socket ut_incoming ut_outgoing
    deliveries dispatches dispatched ct_recv_response UdpTransport_ClientTransport] in *. subst phase.
  unfold ut_recv_response, ut_after_recv.
  cbn [ut_socket ut_incoming deliveries dispatches dispatched].
  destruct dl as [|r dl]; cbn [udp_recv_over lift_poll].
  { destruct deadline; cbn [udp_progressed uc_address fst snd].
    - right. exists [], inc, (Unusable Silent), (Err (Timeout "response")). done.
    - left. by exists [], inc. }
  pose proof (length_udp_recv (decode_response Tcp_framing) r inc) as Hlen.
  assert (∀ x, x ∈ dl → x ∈ r :: dl) as Hsub by (intros x Hx; by right).
  destruct r as [bs|kind raw].
  - destruct (Hgen bs) as (h' & q & answer & r & _ & _ & _ & Hdec); [by left|].
    pose proof (udp_recv_readable (decode_response Tcp_framing) bs inc Hin) as Hrd.
    destruct (udp_recv _ (Datagram bs) inc) as [res inc']. cbn [fst snd] in Hlen, Hrd. subst res.
    rewrite Hdec. cbn [lift_poll is_response_to Tcp_client fst snd].
    case_bool_decide as Hh; cbn [negb].
    + subst h'. case_bool_decide as Hf; cbn [negb udp_progressed uc_address].
      * right. exists dl, inc', Answered, (Ok (Some (packed r))). split_and!; [done..|].
        exists bs. split; [by left|done].
      * right. eexists dl, inc', Answered, (Err _). by split_and!.
    + left. by exists dl, inc'.
  - cbn [udp_recv socket_recv mbind Result_bind lift_poll udp_progressed uc_address fst snd].
    right. eexists dl, inc, _, (Err (Io kind raw)). by split_and!.
Qed.

(** A response that decodes under the header of the call is the service's answer to
    it. *)
Lemma response_justified tasks h p header f bs response :
  client_inv tasks h p → uc_phase p = PeerAwaiting header f → Datagram bs ∈ deliveries (udp_socket p) →
  decode_response Tcp_framing (within_buffer bs) = Ok (header, response) →
  udp_justified (uc_address p) h (UReturned (uc_address p) (Ok (Some response))).
Proof.
  intros Hc Hph Hb Hdec _. destruct (ci_deliveries _ _ _ Hc bs Hb) as (h' & q' & answer & r & Hh & Hr & _ & Hd).
  rewrite Hd in Hdec. injection Hdec as -> <-.
  destruct (ci_awaiting _ _ _ Hc header f Hph) as (_ & before & q & since & Eh & H1 & H2 & _).
  destruct (handled_since _ _ _ _ _ _ _ _ Eh (ci_justified _ _ _ Hc) (ci_headers _ _ _ Hc) Hh) as [-> Hs].
  exists before, header, q, since. split_and!; [done..|]. exists answer. split; [done|]. by rewrite Hr.
Qed.

Lemma udp_await_inv tasks h p header f deadline :
  client_inv tasks h p → uc_phase p = PeerAwaiting header f →
  let '(p', obs) := udp_progressed (await_step deadline header f (uc_client p)) p in
  client_inv tasks (h ++ obs) p' ∧ uc_address p' = uc_address p ∧ own p obs.
Proof.
  intros Hc Hph. destruct (ci_awaiting _ _ _ Hc header f Hph) as (Hu & _).
  assert (uc_phase p ≠ PeerWriting) as Hw by (by rewrite Hph).
  destruct (await_cases tasks h p header f deadline Hc Hph)
    as [(dl & inc & -> & Hdl & Hin)|(dl & inc & s & r & -> & Hdl & Hin & Hr)].
  - rewrite app_nil_r. split_and!; [|done|constructor]. apply client_inv_heard; auto.
  - split_and!; [|done|by repeat constructor].
    apply (client_inv_returned tasks h (udp_heard_by p dl inc (set_state s (co_client (uc_client p))) PeerIdle)).
    + apply client_inv_heard; auto.
    + done.
    + destruct r as [[response|]|e|]; [|done..]. destruct Hr as (_ & bs & Hb & Hdec).
      exact (response_justified tasks h p header f bs response Hc Hph Hb Hdec).
Qed.

(** The future of a call is dropped while it waits. *)
Lemma udp_drop_inv tasks h p header f :
  client_inv tasks h p → uc_phase p = PeerAwaiting header f →
  client_inv tasks h (mkUdpPeer (uc_address p) (uc_client p) PeerIdle).
Proof.
  intros [C1 C2 C3 C4 C5 C6 C7 C8 C9] Hph. split; try done. intros Hu _. apply C8; [done|]. by rewrite Hph.
Qed.

(** What is delivered to a client. *)
Lemma delivered_inv tasks h p r :
  client_inv tasks h p → (∀ bs, r = Datagram bs → genuine (uc_address p) bs h) →
  client_inv tasks h (delivered r p) ∧ uc_address (delivered r p) = uc_address p.
Proof.
  intros [C1 C2 C3 C4 C5 C6 C7 C8 C9] Hr. unfold delivered.
  destruct p as [a [[[dl ds sent] out inc] cfg c] phase]. cbn in *. split; [|done]. split; try done.
  cbn. intros bs [Hb|Hb]%elem_of_app; [by apply C5|]. apply list_elem_of_singleton in Hb. by apply Hr.
Qed.

(** *** The server steps *)

(** The server moved: it received, or asked the service for a task. *)
Lemma un_inv_moved s0 (nw : network) st' calls obs :
  un_inv s0 nw → udp_inv (config := config) s0 st' → server_inv st' (un_history nw ++ obs) →
  ud_log st' = ud_log (un_server nw) ++ calls → omap handled_call obs = omap asked_call calls →
  (obs = [] ∨ ∃ k task answer, ud_tasks (un_server nw) !! k = Some task ∧
     obs = [UHandled (dt_peer task) (dt_header task) (dt_request task) answer]) →
  (∀ k task i p, ud_tasks st' !! k = Some task → un_peers nw !! i = Some p → dt_peer task = uc_address p →
     (dt_header task, dt_request task) ∈ calls_of (uc_address p) (un_history nw)) →
  un_inv s0 (mkUdpNetwork st' (un_peers nw) (un_history nw ++ obs)).
Proof.
  intros [N1 N2 N3 N4 N5 N6] Hu Hs Hlog Hc Hobs Ht.
  split; cbn [un_server un_history un_peers]; try done.
  - by rewrite Hlog, !omap_app, N2, Hc.
  - intros k p Hp. specialize (N4 k p Hp). apply (client_inv_observed (ud_tasks (un_server nw))); [done|..].
    + destruct Hobs as [->|(i & task & answer & Hi & ->)]; [rewrite app_nil_r; apply N4|].
      apply all_justified_snoc; [apply N4|]. intros E. by apply (ci_tasks _ _ _ N4 i task).
    + by destruct Hobs as [->|(i & task & answer & Hi & ->)].
    + intros r. destruct Hobs as [->|(i & task & answer & Hi & ->)]; [apply not_elem_of_nil|].
      by intros ?%list_elem_of_singleton.
    + intros i task Hi Hpeer. by eapply Ht.
  - intros a h q r Hor. apply (N6 a h q r).
    destruct Hobs as [->|(i & task & answer & Hi & ->)]; [by rewrite app_nil_r in Hor|].
    destruct Hor as [Hor|Hor]; apply elem_of_app in Hor as [Hor|Hor]; auto;
      by apply list_elem_of_singleton in Hor.
Qed.

(** Tasks keep what they were spawned with. *)
Definition same_tasks (tasks tasks' : list DatagramTask) : Prop :=
  Forall2 (λ task task', dt_peer task' = dt_peer task ∧ dt_header task' = dt_header task ∧
    dt_request task' = dt_request task) tasks tasks'.

Lemma same_tasks_insert tasks k task task' :
  tasks !! k = Some task → dt_peer task' = dt_peer task → dt_header task' = dt_header task →
  dt_request task' = dt_request task → same_tasks tasks (<[k := task']> tasks).
Proof.
  intros Hk H1 H2 H3. unfold same_tasks. rewrite <- (list_insert_id tasks k task Hk) at 1.
  apply Forall2_insert; [|done]. by apply Forall_Forall2_diag, Forall_true.
Qed.

Lemma same_tasks_clients s0 (nw : network) tasks' :
  un_inv s0 nw → same_tasks (ud_tasks (un_server nw)) tasks' →
  ∀ k task i p, tasks' !! k = Some task → un_peers nw !! i = Some p → dt_peer task = uc_address p →
    (dt_header task, dt_request task) ∈ calls_of (uc_address p) (un_history nw).
Proof.
  intros Hi Hsame k task i p Hk Hp Ha. destruct (Forall2_lookup_r _ _ _ _ _ Hsame Hk) as (task0 & H0 & E1 & E2 & E3).
  rewrite E2, E3. rewrite E1 in Ha. by eapply (un_clients _ _ Hi).
Qed.

(** A task of the server took a step. *)
Lemma server_inv_task (st : UdpRunning svc) h obs k task task' s' calls out :
  server_inv st h → ud_tasks st !! k = Some task → I s' →
  dt_peer task' = dt_peer task → dt_header task' = dt_header task → dt_request task' = dt_request task →
  (∀ r, dt_phase task' = DSending r → dt_phase task = DSending r ∨
     ∃ answer, UHandled (dt_peer task) (dt_header task) (dt_request task) answer ∈ obs ∧
       response_of (RequestPdu_function (dt_request task)) answer = Some r ∧
       fits Tcp_framing (dt_request task) r) →
  Forall (λ bs, genuine (dt_peer task) bs h) out →
  (∀ a x q answer, UHandled a x q answer ∈ obs → a = dt_peer task) →
  server_inv (ud_with_task k task' s' calls out st) (h ++ obs).
Proof.
  intros [S1 S2 S3 S4 S5] Hk Hs H1 H2 H3 Hsend Hout Hobs. pose proof (lookup_lt_Some _ _ _ Hk) as Hlt.
  assert (∀ i t, <[k := task']> (ud_tasks st) !! i = Some t →
    (i = k ∧ t = task') ∨ ud_tasks st !! i = Some t) as Hcase.
  { intros i t. destruct (decide (i = k)) as [->|Hne].
    - rewrite list_lookup_insert_eq by done. intros [= <-]. by left.
    - rewrite list_lookup_insert_ne by done. by right. }
  split; cbn [ud_with_task ud_service ud_tasks ud_sent].
  - done.
  - intros i t Ht. destruct (Hcase i t Ht) as [[-> ->]|Ht']; [|by eapply S2]. rewrite H2, H3. by eapply S2.
  - intros i t r Ht Hph. destruct (Hcase i t Ht) as [[-> ->]|Ht'].
    + rewrite H1, H2, H3. destruct (Hsend r Hph) as [Hph'|(x & Hx & Hrest)].
      * destruct (S3 k task r Hk Hph') as (x & Hx & Hrest). exists x. split; [|done]. apply elem_of_app. by left.
      * exists x. split; [|done]. apply elem_of_app. by right.
    + destruct (S3 i t r Ht' Hph) as (x & Hx & Hrest). exists x. split; [|done]. apply elem_of_app. by left.
  - intros i a bs [Hin|Hin]%elem_of_app; [by eapply genuine_app, S4|].
    apply list_elem_of_fmap in Hin as (bs' & E & Hin). injection E as -> -> <-. rewrite H1.
    apply genuine_app. rewrite Forall_forall in Hout. by apply Hout.
  - intros a x q answer [Hin|Hin]%elem_of_app.
    + destruct (S5 a x q answer Hin) as (i & t & Ht & Ha). destruct (decide (i = k)) as [->|Hne].
      * exists k, task'. rewrite list_lookup_insert_eq by done. split; [done|]. congruence.
      * exists i, t. by rewrite list_lookup_insert_ne.
    + exists k, task'. rewrite list_lookup_insert_eq by done. rewrite H1. by rewrite (Hobs a x q answer Hin).
Qed.

(** What a task sends. *)
Lemma sending_genuine (st : UdpRunning svc) h k task r outcome res buf out :
  server_inv st h → ud_tasks st !! k = Some task → dt_phase task = DSending r →
  send_datagram_response_into Tcp_framing (dt_header task) r outcome [] = (res, buf, out) →
  Forall (λ bs, genuine (dt_peer task) bs h) out.
Proof.
  intros [S1 S2 S3 S4 S5] Hk Hph. destruct (S3 k task r Hk Hph) as (answer & Hh & Hr & Hf).
  destruct (S2 k task Hk) as (Hwf & _ & _).
  destruct (answered_framed (F := Tcp_framing) (dt_request task) r (dt_header task) Hwf Hf) as (adu & Hfr & Henc).
  apply response_framed_as in Hfr as (_ & Hm & Hdec).
  unfold send_datagram_response_into. rewrite Henc. destruct outcome; intros [= <- <- <-]; [|constructor].
  constructor; [|constructor]. exists (dt_header task), (dt_request task), answer, r. split_and!; [done..|].
  unfold within_buffer. rewrite take_ge; [done|]. destruct Hm as [_ Hm]. unfold len in Hm. lia.
Qed.

Lemma server_inv_loop (st : UdpRunning svc) h buf signal serving s' log :
  server_inv st h → I s' → server_inv (mkUdpRunning buf signal serving (ud_tasks st) s' log (ud_sent st)) h.
Proof. intros [S1 S2 S3 S4 S5] Hs. by split. Qed.

(** A step of the loop. *)
Lemma un_inv_loop s0 (nw : network) buf signal serving s' calls :
  let st := un_server nw in
  let st' := mkUdpRunning buf signal serving (ud_tasks st) s' (ud_log st ++ calls) (ud_sent st) in
  un_inv s0 nw → I s' → udp_inv (config := config) s0 st' → omap asked_call calls = [] →
  un_inv s0 (mkUdpNetwork st' (un_peers nw) (un_history nw)).
Proof.
  intros st st' Hi Hs Hu Hc. rewrite <- (app_nil_r (un_history nw)).
  apply (un_inv_moved s0 nw st' calls []); try done.
  - rewrite app_nil_r. apply server_inv_loop; [apply Hi|done].
  - by left.
  - apply (same_tasks_clients s0); [done|]. by apply Forall_Forall2_diag, Forall_true.
Qed.

(** What a poll of a task asks of the service, and the tasks after it. *)
Lemma run_datagram_served (st : UdpRunning svc) h k outcome task task' s' calls :
  let st' := ud_with_task k task' s' calls (drop (length (dt_out task)) (dt_out task')) st in
  let obs := omap (udp_asked (ud_tasks st')) calls in
  server_inv st h → ud_tasks st !! k = Some task →
  run_datagram svc config k outcome task (ud_service st) = (task', s', calls) →
  server_inv st' (h ++ obs) ∧ omap handled_call obs = omap asked_call calls ∧
  (obs = [] ∨ ∃ answer, obs = [UHandled (dt_peer task) (dt_header task) (dt_request task) answer]).
Proof.
  intros st' obs Hi Hk E. unfold obs. clear obs.
  destruct (run_datagram_same _ _ _ _ _ _ _ E) as (_ & H1 & H2 & H3 & _).
  assert (ud_tasks st' !! k = Some task') as Hk'.
  { cbn. apply list_lookup_insert_eq. by eapply lookup_lt_Some. }
  unfold run_datagram in E. pose proof (si_service _ _ Hi) as Hs0.
  destruct (dt_phase task) as [|r|e| |] eqn:Hph.
  - destruct (foreign _ _); [|destruct (on_request _ _ _ _ _) as [answer s1] eqn:Ea].
    { injection E as <- <- <-. split_and!; [|done|by left].
      eapply server_inv_task; try done; [by cbn; rewrite app_nil_r, drop_all|by intros ? ? ? ? ?%elem_of_nil]. }
    injection E as <- <- <-. cbn [omap list_omap udp_asked]. rewrite Hk'.
    destruct (si_proper _ _ Hi k task Hk) as (_ & Hq & pdu & Hpdu).
    destruct (an_request _ _ _ HA (datagram_conn task) (unit_id (dt_header task)) (dt_request task)
      (ud_service st) pdu Hs0 Hq Hpdu) as [Hs1 Hfits].
    cbn [unit_of Tcp_server] in Ea. rewrite Ea in Hs1, Hfits. cbn [fst snd] in Hs1, Hfits.
    split_and!; [|done|by right; eexists]. eapply server_inv_task; try done.
    + intros r Hr. right. exists answer. cbn in Hr. destruct (response_of _ answer) as [r'|]; [|done].
      injection Hr as ->. split_and!; [by left|done|by apply Hfits].
    + by cbn; rewrite app_nil_r, drop_all.
    + intros a x q y Hin%list_elem_of_singleton. by injection Hin as -> _ _ _.
  - destruct (send_datagram_response_into _ _ _ _ _) as [[res buf] out] eqn:Es.
    pose proof (sending_genuine _ _ _ _ _ _ _ _ _ Hi Hk Hph Es) as Hout.
    assert (calls = [] ∧ s' = ud_service st ∧ dt_out task' = dt_out task ++ out ∧
      ∀ r, dt_phase task' ≠ DSending r) as (-> & -> & Ho & Hnot) by (destruct res; by injection E as <- <- <-).
    split_and!; [|done|by left]. eapply server_inv_task; try done.
    + intros r' Hr'. by destruct (Hnot r').
    + by rewrite Ho, drop_app_length.
    + by intros ? ? ? ? ?%elem_of_nil.
  - injection E as <- <- <-. split_and!; [|done|by left].
    eapply server_inv_task; try done; [by apply (an_error _ _ _ HA)|by cbn; rewrite app_nil_r, drop_all|].
    by intros ? ? ? ? ?%elem_of_nil.
  - injection E as <- <- <-. split_and!; [|done|by left].
    eapply server_inv_task; try done; [by left|by rewrite drop_all|by intros ? ? ? ? ?%elem_of_nil].
  - injection E as <- <- <-. split_and!; [|done|by left].
    eapply server_inv_task; try done; [by left|by rewrite drop_all|by intros ? ? ? ? ?%elem_of_nil].
Qed.

(** A step of a task. *)
Lemma un_inv_task s0 (nw : network) k outcome task task' s' calls :
  let st := un_server nw in
  let st' := ud_with_task k task' s' calls (drop (length (dt_out task)) (dt_out task')) st in
  un_inv s0 nw → ud_tasks st !! k = Some task →
  run_datagram svc config k outcome task (ud_service st) = (task', s', calls) →
  udp_inv (config := config) s0 st' →
  un_inv s0 (mkUdpNetwork st' (un_peers nw) (un_history nw ++ omap (udp_asked (ud_tasks st')) calls)).
Proof.
  intros st st' Hi Hk E Hu. destruct (run_datagram_same _ _ _ _ _ _ _ E) as (_ & H1 & H2 & H3 & _).
  destruct (run_datagram_served _ _ _ _ _ _ _ _ (un_tasks _ _ Hi) Hk E) as (Hs & Ho & Hor).
  apply (un_inv_moved s0 nw st' calls); try done.
  - destruct Hor as [Eo|[answer Eo]]; [by left|]. right. by exists k, task, answer.
  - apply (same_tasks_clients s0); [done|]. by eapply same_tasks_insert.
Qed.

(** A datagram is received: what it decodes to is proper, and if a client is at its
    address that client called it. *)
Definition expected_from (nw : network) (ev : UdpEvent) : Prop :=
  match ev with
  | DReceive (Datagram bs) address => ∀ h q, decode_request Tcp_framing (within_buffer bs) = Ok (h, q) →
      proper h q ∧
      ∀ k p, un_peers nw !! k = Some p → address = uc_address p →
        (h, q) ∈ calls_of (uc_address p) (un_history nw)
  | _ => True
  end.

Lemma server_inv_spawned (st : UdpRunning svc) h buf serving task :
  server_inv st h → proper (dt_header task) (dt_request task) → dt_phase task = DSpawned →
  server_inv (mkUdpRunning buf (ud_signal st) serving (ud_tasks st ++ [task]) (ud_service st) (ud_log st)
    (ud_sent st)) h.
Proof.
  intros [S1 S2 S3 S4 S5] Hp Hph. split; cbn [ud_service ud_tasks ud_sent]; try done.
  - intros k t [Hk|[_ Hk%list_elem_of_lookup_2%list_elem_of_singleton]]%lookup_app_Some; [by eapply S2|].
    by subst t.
  - intros k t r [Hk|[_ Hk%list_elem_of_lookup_2%list_elem_of_singleton]]%lookup_app_Some; [by eapply S3|].
    subst t. by rewrite Hph.
  - intros a x q answer Hin. destruct (S5 a x q answer Hin) as (k & t & Hk & Ha). exists k, t.
    split; [|done]. by apply lookup_app_l_Some.
Qed.

Lemma un_inv_receive s0 (nw : network) datagram address :
  un_inv s0 nw → ud_serving (un_server nw) = DReceiving →
  expected_from nw (DReceive datagram address) →
  un_inv s0 (mkUdpNetwork (receive_datagram svc datagram address (un_server nw)) (un_peers nw) (un_history nw)).
Proof.
  intros Hi Hser He. pose proof Hi as [N1 N2 N3 N4 N5 N6].
  pose proof (receive_inv s0 datagram address (un_server nw) N1 Hser) as Hu. revert Hu.
  unfold receive_datagram.
  destruct (recv_datagram_buffer datagram address (ud_buf (un_server nw))) as [_ Hdec].
  destruct (recv_datagram_request Tcp_framing datagram address (ud_buf (un_server nw))) as [res buf].
  cbn [fst] in Hdec.
  assert (∀ serving, let st := un_server nw in
    let st' := mkUdpRunning buf (ud_signal st) serving (ud_tasks st) (ud_service st) (ud_log st) (ud_sent st) in
    udp_inv (config := config) s0 st' → un_inv s0 (mkUdpNetwork st' (un_peers nw) (un_history nw))) as Hsame.
  { intros serving st st' Hu. unfold st' in *. rewrite <- (app_nil_r (ud_log st)) in *.
    apply un_inv_loop; [done|apply N3|done|done]. }
  destruct res as [[[h q] a]|e|]; [|destruct e; apply Hsame|apply Hsame].
  destruct (Hdec h q a eq_refl) as (-> & bs & -> & Hd). rewrite (ui_buf _ _ N1) in Hd.
  destruct (He h q Hd) as [Hp Hcl]. intros Hu. rewrite <- (app_nil_r (un_history nw)).
  apply (un_inv_moved s0 nw _ [] []); try done.
  - rewrite app_nil_r. by apply server_inv_spawned.
  - by rewrite app_nil_r.
  - by left.
  - intros k task i p [Hk|[_ Hk%list_elem_of_lookup_2%list_elem_of_singleton]]%lookup_app_Some Hpi Ha.
    + by eapply (N4 i p Hpi).
    + subst task. by eapply Hcl.
Qed.

(** The state after a step of the server, with what it asked the service. *)
Definition stepped (nw : network) (st' : UdpRunning svc) : network :=
  mkUdpNetwork st' (un_peers nw)
    (un_history nw ++ omap (udp_asked (ud_tasks st')) (drop (length (ud_log (un_server nw))) (ud_log st'))).

Lemma stepped_quiet (nw : network) st' :
  ud_log st' = ud_log (un_server nw) → stepped nw st' = mkUdpNetwork st' (un_peers nw) (un_history nw).
Proof. intros E. unfold stepped. rewrite E, drop_all. cbn. by rewrite app_nil_r. Qed.

Lemma stepped_stays s0 (nw : network) : un_inv s0 nw → un_inv s0 (stepped nw (un_server nw)).
Proof. intros Hi. rewrite stepped_quiet by done. by destruct nw. Qed.

Lemma stepped_loop s0 (nw : network) serving s' calls :
  let st' := ud_moved serving s' calls (un_server nw) in
  un_inv s0 nw → I s' → Forall (λ c, asked_call c = None) calls → udp_inv (config := config) s0 st' →
  un_inv s0 (stepped nw st').
Proof.
  intros st' Hi Hs' Hc Hu'. unfold stepped, st'. cbn [ud_moved ud_log ud_tasks]. rewrite drop_app_length.
  assert (omap (udp_asked (ud_tasks (un_server nw))) calls = [] ∧ omap asked_call calls = []) as [-> E2].
  { clear -Hc. induction Hc as [|c calls Hc _ [E1 E2]]; [done|]. by destruct c. }
  rewrite app_nil_r. by apply un_inv_loop.
Qed.

Lemma stepped_joined s0 (nw : network) k task :
  let st' := ud_with_task k (at_phase DJoined [] task) (ud_service (un_server nw)) [] [] (un_server nw) in
  un_inv s0 nw → ud_tasks (un_server nw) !! k = Some task → udp_inv (config := config) s0 st' →
  un_inv s0 (stepped nw st').
Proof.
  intros st' Hi Hk Hu. unfold stepped, st'. cbn [ud_with_task ud_log ud_tasks]. rewrite drop_app_length.
  cbn [omap list_omap]. apply (un_inv_moved s0 nw _ [] []); try done.
  - eapply server_inv_task; try done; [apply Hi|apply (un_tasks _ _ Hi)|by intros ? ? ? ? ?%elem_of_nil].
  - by left.
  - apply (same_tasks_clients s0); [done|]. by eapply same_tasks_insert.
Qed.

Lemma udp_server_step_inv s0 (nw : network) ev :
  un_inv s0 nw → expected_from nw ev → un_inv s0 (udp_server_step svc config ev nw).
Proof.
  intros Hi He. pose proof (dstep_inv s0 ev _ (un_udp _ _ Hi)) as Hu.
  pose proof (si_service _ _ (un_tasks _ _ Hi)) as Hs. pose proof (stepped_stays s0 nw Hi) as Hstay.
  change (un_inv s0 (stepped nw (dstep svc config ev (un_server nw)))).
  destruct ev as [datagram address| |k outcome|k| |]; cbn [dstep] in *.
  - destruct (ud_serving (un_server nw)) eqn:Es; try done. destruct (ud_signal (un_server nw)); [done|].
    rewrite stepped_quiet; [by apply un_inv_receive|].
    unfold receive_datagram. destruct (recv_datagram_request _ _ _ _) as [[[[? ?] ?]|[]|] ?]; done.
  - unfold poll_loop in *. destruct (ud_serving (un_server nw)) as [|e|e|r|r], (ud_signal (un_server nw)); try done.
    1, 4: by apply stepped_loop.
    1, 2: apply stepped_loop; [done|by apply (an_error _ _ _ HA)|by repeat constructor|done].
    pose proof (HR e _ Hs) as Hs'. destruct (on_receive_error svc e _) as [action s'].
    apply stepped_loop; [done|done|by repeat constructor|done].
  - destruct (ud_tasks (un_server nw) !! k) as [task|] eqn:Hk; [|done].
    destruct (run_datagram svc config k outcome task _) as [[task' s'] calls] eqn:E.
    unfold stepped. cbn [ud_with_task ud_log ud_tasks]. rewrite drop_app_length. by eapply un_inv_task.
  - destruct (ud_serving (un_server nw)) eqn:Es; try done.
    destruct (ud_tasks (un_server nw) !! k) as [task|] eqn:Hk; [|done].
    destruct (dt_phase task) eqn:Hp; try done. by apply stepped_joined.
  - destruct (ud_serving (un_server nw)) eqn:Es; try done. destruct (forallb _ _); [|done].
    by apply stepped_loop.
  - rewrite stepped_quiet by done.
    rewrite <- (app_nil_r (ud_log (un_server nw))) in *. by apply un_inv_loop.
Qed.

(** *** The clients step *)

Lemma server_inv_own (st : UdpRunning svc) h p obs :
  server_inv st h → own p obs → server_inv st (h ++ obs).
Proof.
  intros [S1 S2 S3 S4 S5] Ho. split; try done.
  - intros k task r Hk Hph. destruct (S3 k task r Hk Hph) as (x & Hx & Hrest). exists x. split; [|done].
    apply elem_of_app. by left.
  - intros k a bs Hin. by eapply genuine_app, S4.
  - intros a x q answer [Hin|Hin]%elem_of_app; [by eapply S5|]. unfold own in Ho. rewrite Forall_forall in Ho.
    by destruct (proj2 (Ho _ Hin) a x q answer).
Qed.

Lemma own_unhandled p obs : own p obs → omap handled_call obs = [].
Proof.
  induction 1 as [|o obs [_ Ho] _ IH]; [done|]. destruct o as [|a h q x| |]; try done. by destruct (Ho a h q x).
Qed.

Lemma un_inv_peer s0 (nw : network) k p p' obs :
  un_inv s0 nw → un_peers nw !! k = Some p →
  client_inv (ud_tasks (un_server nw)) (un_history nw ++ obs) p' → uc_address p' = uc_address p → own p obs →
  un_inv s0 (mkUdpNetwork (un_server nw) (<[k := p']> (un_peers nw)) (un_history nw ++ obs)).
Proof.
  intros [N1 N2 N3 N4 N5 N6] Hk Hc Ha Ho. pose proof (lookup_lt_Some _ _ _ Hk) as Hlt.
  assert (uc_address <$> <[k := p']> (un_peers nw) = uc_address <$> un_peers nw) as Ead.
  { rewrite list_fmap_insert. apply list_insert_id. by rewrite list_lookup_fmap, Hk, Ha. }
  split; cbn [un_server un_peers un_history]; rewrite ?Ead; try done.
  - by rewrite omap_app, (own_unhandled p obs Ho), app_nil_r.
  - by eapply server_inv_own.
  - intros i x. destruct (decide (i = k)) as [->|Hne].
    + rewrite list_lookup_insert_eq by done. by intros [= <-].
    + rewrite list_lookup_insert_ne by done. intros Hi. apply client_inv_elsewhere; [by eapply N4|].
      eapply Forall_impl; [exact Ho|]. intros o [-> _] E. destruct Hne.
      apply (NoDup_lookup _ i k (uc_address p) N5); rewrite list_lookup_fmap, ?Hi, ?Hk; [by rewrite E|done].
  - intros a h q r Hor.
    assert (∀ o, o ∈ un_history nw ++ obs → o ∈ un_history nw ∨ address_of o = uc_address p) as Hcase.
    { intros o [Hin|Hin]%elem_of_app; [by left|]. right. unfold own in Ho. rewrite Forall_forall in Ho. by apply Ho. }
    assert (uc_address p ∈ uc_address <$> un_peers nw) as Hin
      by (apply list_elem_of_fmap; exists p; split; [done|by eapply list_elem_of_lookup_2]).
    destruct Hor as [Hor|Hor]; (destruct (Hcase _ Hor) as [H|H]; [apply (N6 a h q r); auto|by cbn in H; subst a]).
Qed.

(** What is asked of the events of a run: calls a client can make, and bytes. *)
Definition allowed (ev : UdpNetEvent) : Prop :=
  match ev with
  | UCall k u q => callable Tcp_framing (CallFrom k u q)
  | UOnServer (DReceive (Datagram bs) _) => bytes_ok bs
  | _ => True
  end.

Lemma peer_event_inv s0 (nw : network) k p ev :
  un_inv s0 nw → un_peers nw !! k = Some p → allowed ev →
  let '(p', obs) := udp_peer_event ev p ((λ x, (x.1.2, x.2)) <$> ud_sent (un_server nw)) in
  len (calls_of (uc_address p) (un_history nw ++ obs)) < U16_MAX →
  un_inv s0 (mkUdpNetwork (un_server nw) (<[k := p']> (un_peers nw)) (un_history nw ++ obs)).
Proof.
  intros Hi Hk Hal. pose proof (un_clients _ _ Hi k p Hk) as Hc.
  assert (un_inv s0 (mkUdpNetwork (un_server nw) (<[k := p]> (un_peers nw)) (un_history nw ++ []))) as Hstay.
  { rewrite list_insert_id, app_nil_r by done. by destruct nw. }
  assert (∀ r, (∀ bs, r = Datagram bs → genuine (uc_address p) bs (un_history nw)) →
    un_inv s0 (mkUdpNetwork (un_server nw) (<[k := delivered r p]> (un_peers nw)) (un_history nw ++ []))) as Hdel.
  { intros r Hr. destruct (delivered_inv _ _ p r Hc Hr) as [Hc' Ha].
    eapply un_inv_peer; try done; [by rewrite app_nil_r|constructor]. }
  unfold udp_peer_event. destruct ev as [a ds|k' u q|k'|k'|k'|k' i|k' i|k' kind raw|ev]; try done.
  - destruct (uc_phase p) eqn:Hph; try done.
    pose proof (udp_call_inv _ _ p u q k' Hc Hph Hal) as H. destruct (udp_call u q p) as [p' obs].
    intros Hb. destruct (H Hb) as (H1 & H2 & H3). by eapply un_inv_peer.
  - destruct (uc_phase p) as [|header f|] eqn:Hph; try done.
    pose proof (udp_await_inv _ _ p header f false Hc Hph) as H. destruct (udp_progressed _ p) as [p' obs].
    intros _. destruct H as (H1 & H2 & H3). by eapply un_inv_peer.
  - destruct (uc_phase p) as [|header f|] eqn:Hph; try done.
    pose proof (udp_await_inv _ _ p header f true Hc Hph) as H. destruct (udp_progressed _ p) as [p' obs].
    intros _. destruct H as (H1 & H2 & H3). by eapply un_inv_peer.
  - destruct (uc_phase p) as [|header f|] eqn:Hph; try done. intros _.
    eapply un_inv_peer; try done; [|constructor]. rewrite app_nil_r. by eapply udp_drop_inv.
  - destruct (_ !! i) as [[a bs]|] eqn:Hs; [|done]. case_decide as Ea; [|done]. intros _. apply Hdel.
    intros bs' [= <-]. apply list_elem_of_lookup_2, list_elem_of_fmap in Hs as ([[j a'] bs'] & [= -> ->] & Hin).
    subst a'. by eapply (si_sent _ _ (un_tasks _ _ Hi)).
  - intros _. by apply Hdel.
Qed.

(** *** A client comes *)

Lemma unused_spec (nw : network) address :
  unused svc address nw = true →
  (∀ k p, un_peers nw !! k = Some p → uc_address p ≠ address) ∧
  (∀ k task, ud_tasks (un_server nw) !! k = Some task → dt_peer task ≠ address).
Proof.
  unfold unused. intros [H1 H2]%andb_true_iff. rewrite forallb_forall in H1, H2. split.
  - intros k p Hk%list_elem_of_lookup_2%list_elem_of_In. specialize (H1 p Hk). by case_bool_decide.
  - intros k t Hk%list_elem_of_lookup_2%list_elem_of_In. specialize (H2 t Hk). by case_bool_decide.
Qed.

Lemma fresh_client tasks h address ds :
  (∀ o, o ∈ h → address_of o = address → o = URefused address) →
  (∀ k task, tasks !! k = Some task → dt_peer task ≠ address) →
  client_inv tasks h
    (mkUdpPeer address (Client_over (UdpTransport_new (mkUdpSocket [] ds []))) PeerIdle).
Proof.
  intros Ho Ht.
  assert (calls_of address h = []) as Ec.
  { apply elem_of_nil_inv. intros [x q] Hin%calls_of_elem. by specialize (Ho _ Hin eq_refl). }
  split; cbn [uc_address uc_client uc_phase udp_socket co_transport co_client ut_socket ut_incoming
    deliveries dispatched Client_over Client_new UdpTransport_new]; rewrite ?Ec; try done.
  - intros pre o post ->. assert (o ∈ pre ++ o :: post) as Hin by (apply elem_of_app; right; by left).
    specialize (Ho o Hin). destruct o as [|a x q y|a [[r|]| |]|]; try done; cbn; intros ->; by specialize (Ho eq_refl).
  - constructor.
  - intros k task Hk Ha. by destruct (Ht k task Hk).
  - by intros bs ?%elem_of_nil.
  - by intros bs ?%elem_of_nil.
Qed.

Lemma dial_inv s0 (nw : network) address ds :
  un_inv s0 nw → un_inv s0 (unstep svc config (UDial address ds) nw).
Proof.
  intros Hi. pose proof Hi as [N1 N2 N3 N4 N5 N6]. cbn [unstep].
  destruct (unused svc address nw) eqn:Hun; [|done]. apply unused_spec in Hun as [Hp Ht].
  assert (address ∉ uc_address <$> un_peers nw) as Hnew.
  { intros (p & -> & [k Hk]%list_elem_of_lookup)%list_elem_of_fmap. by destruct (Hp k p Hk). }
  split; cbn [un_server un_peers un_history]; try done.
  - intros k p [Hk|[_ Hk%list_elem_of_lookup_2%list_elem_of_singleton]]%lookup_app_Some; [by eapply N4|].
    subst p. apply fresh_client; [|done]. intros o Ho Ea. destruct o as [a x q|a x q y|a r|a]; cbn in Ea; subst a.
    + destruct Hnew. apply (N6 address x q (Ok None)). by left.
    + destruct (si_handled _ _ N3 _ _ _ _ Ho) as (i & t & Hi' & Et). by destruct (Ht i t Hi').
    + destruct Hnew. apply (N6 address (mkMbapHeader (mkTransactionId 0) (mkUnitId 0)) Req_ReadExceptionStatus r).
      by right.
    + done.
  - rewrite fmap_app. apply NoDup_app. split_and!; [done| |apply NoDup_singleton].
    by intros a Hin ->%list_elem_of_singleton.
  - intros a h q r Hor. rewrite fmap_app. apply elem_of_app. left. by eapply N6.
Qed.

(** *** A step of the network, and a run *)

(** What comes from elsewhere is proper when it decodes. *)
Lemma decoded_proper bs h q :
  bytes_ok bs → decode_request Tcp_framing (within_buffer bs) = Ok (h, q) → proper h q.
Proof.
  intros Hb Hd. apply (request_adu_reencode (F := Tcp_framing)) in Hd as (adu & He & _ & Hh & Hq);
    [|by apply Forall_take].
  split_and!; [done|done|]. apply (encode_request_inv (F := Tcp_framing)) in He as (pdu & _ & Hpdu & _); eauto.
Qed.

Lemma to_server_inv s0 (nw : network) k p i bs :
  un_inv s0 nw → un_peers nw !! k = Some p → dispatched (udp_socket p) !! i = Some bs →
  un_inv s0 (udp_server_step svc config (DReceive (Datagram bs) (uc_address p)) nw).
Proof.
  intros Hi Hk Hb. apply udp_server_step_inv; [done|]. intros h q Hd.
  destruct (ci_dispatched _ _ _ (un_clients _ _ Hi k p Hk) bs) as (h' & q' & Hin & Hp & Hd');
    [by eapply list_elem_of_lookup_2|].
  rewrite Hd in Hd'. injection Hd' as -> ->. split; [done|]. by intros k' p' _ <-.
Qed.

Lemma on_server_inv s0 (nw : network) ev :
  un_inv s0 nw → allowed (UOnServer ev) → un_inv s0 (unstep svc config (UOnServer ev) nw).
Proof.
  intros Hi Hal. destruct ev as [[bs|kind raw] address| | | | |]; cbn [unstep]; try by apply udp_server_step_inv.
  destruct (existsb _ _) eqn:Hex; [done|]. apply udp_server_step_inv; [done|]. intros h q Hd.
  split; [by eapply decoded_proper|]. intros k p Hk ->. exfalso.
  assert (existsb (λ p0, bool_decide (uc_address p0 = uc_address p)) (un_peers nw) = true) as Ht; [|congruence].
  apply existsb_exists. exists p. split; [by eapply list_elem_of_In, list_elem_of_lookup_2|].
  by rewrite bool_decide_true.
Qed.

Lemma unstep_inv s0 (nw : network) ev :
  un_inv s0 nw → allowed ev →
  (∀ address, len (calls_of address (un_history (unstep svc config ev nw))) < U16_MAX) →
  un_inv s0 (unstep svc config ev nw).
Proof.
  intros Hi Hal Hb.
  destruct ev as [a ds|k u q|k|k|k|k i|k i|k kind raw|ev]; [by apply dial_inv| | | | | | | |by apply on_server_inv];
    cbn [unstep] in *; destruct (un_peers nw !! k) as [p|] eqn:Hk; try done.
  5:{ destruct (dispatched (udp_socket p) !! i) as [bs|] eqn:Hbs; [|done]. by eapply to_server_inv. }
  all: pose proof (peer_event_inv s0 nw k p _ Hi Hk Hal) as H; destruct (udp_peer_event _ p _) as [p' obs];
    by apply H, Hb.
Qed.

Lemma unstep_history ev (nw : network) : un_history nw `prefix_of` un_history (unstep svc config ev nw).
Proof.
  assert (∀ e, un_history nw `prefix_of` un_history (udp_server_step svc config e nw)) as Hs by (by eexists).
  assert (∀ k ev, un_history nw `prefix_of` un_history
    match un_peers nw !! k with
    | Some p =>
        let '(p', obs) := udp_peer_event ev p ((λ x, (x.1.2, x.2)) <$> ud_sent (un_server nw)) in
        mkUdpNetwork (un_server nw) (<[k := p']> (un_peers nw)) (un_history nw ++ obs)
    | None => nw
    end) as Hp.
  { intros k e. destruct (un_peers nw !! k) as [p|]; [|done]. destruct (udp_peer_event _ p _). by eexists. }
  destruct ev as [a ds|k u q|k|k|k|k i|k i|k kind raw|[[bs|kind raw] a| | | | |]];
    first [apply Hp|apply Hs|cbn [unstep]].
  - by destruct (unused svc a nw).
  - destruct (un_peers nw !! k) as [p|]; [|done]. by destruct (dispatched _ !! i).
  - by destruct (existsb _ _).
Qed.

Lemma unrun_history evs (nw : network) : un_history nw `prefix_of` un_history (unrun svc config evs nw).
Proof.
  revert nw. induction evs as [|ev evs IH]; intros nw; [done|].
  etrans; [apply (unstep_history ev)|]. apply IH.
Qed.

Lemma unrun_inv s0 evs (nw : network) :
  un_inv s0 nw → Forall allowed evs →
  (∀ address, len (calls_of address (un_history (unrun svc config evs nw))) < U16_MAX) →
  un_inv s0 (unrun svc config evs nw).
Proof.
  revert nw. induction evs as [|ev evs IH]; intros nw Hi Hal Hb; [done|].
  apply Forall_cons in Hal as [Hal Hals]. apply (IH (unstep svc config ev nw)); [|done|done].
  apply unstep_inv; [done|done|]. intros a. specialize (Hb a).
  destruct (unrun_history evs (unstep svc config ev nw)) as [more E].
  change (unrun svc config (ev :: evs) nw) with (unrun svc config evs (unstep svc config ev nw)) in Hb.
  rewrite E, calls_of_app, len_app in Hb. pose proof (len_nonneg (calls_of a more)). lia.
Qed.

Lemma un_inv_new s0 : I s0 → un_inv s0 (UdpNetwork_new svc s0).
Proof.
  intros Hs. split; cbn [UdpNetwork_new un_server un_peers un_history]; try done.
  - apply udp_inv_new.
  - split; try done; [by intros k a bs ?%elem_of_nil|by intros a h q x ?%elem_of_nil].
  - constructor.
  - by intros a h q r [?%elem_of_nil|?%elem_of_nil].
Qed.

(** C5. Over datagrams a response is never mistaken.  With any number of clients, and
    datagrams that are lost, repeated, delayed and reordered at will in both
    directions, sockets that fail, calls that are dropped, and strangers who send the
    server what they like from addresses of their own: what was asked of the service
    from a client's address that client had called, with that header; and a call that
    returned a response returned what the service made of that very call's request
    when asked for it since the call began, never the answer to an earlier or another
    request.  The state of the service is that of its hooks, each taking effect at
    once, in the order they completed.  Each client makes fewer calls than there are
    transaction identifiers, of requests that encode, and the service answers a
    request with its own function; nobody forges a client's or the server's address;
    a repeated request is handled again. *)
Theorem udp_calls_sound s0 evs :
  I s0 → Forall allowed evs →
  let nw := unrun svc config evs (UdpNetwork_new svc s0) in
  (∀ address, len (calls_of address (un_history nw)) < U16_MAX) →
  d_replays s0 (ud_log (un_server nw)) (ud_service (un_server nw)) ∧
  omap handled_call (un_history nw) = omap asked_call (ud_log (un_server nw)) ∧
  ∀ k p, un_peers nw !! k = Some p → all_justified (uc_address p) (un_history nw).
Proof.
  intros Hs Hal nw Hb. destruct (unrun_inv s0 evs _ (un_inv_new s0 Hs) Hal Hb) as [N1 N2 N3 N4 N5 N6].
  fold nw in N1, N2, N4. split_and!; [apply N1|done|]. intros k p Hk. by apply (N4 k p Hk).
Qed.
End runs.

(** ** Witness *)

Section witnesses.
Local Existing Instance winnow_model.
Local Existing Instance winnow_model_spec.

Local Abbreviation device := (Device_service linux_errno Linux).
Local Abbreviation run := (λ evs,
  unrun device interop_config evs (UdpNetwork_new device Device_default)).

Definition asks_udp (k : nat) : list UdpNetEvent :=
  [UOnServer (DPollTask k SentDatagram); UOnServer (DPollTask k SentDatagram)].

(** A client reads, drops a read and reads again, while another writes: the network
    repeats the first request, loses the dropped one, and delivers the answers to the
    repeated request again while the last read waits. *)
Definition reads_and_writes : list UdpNetEvent :=
  [UDial udp_peer [SentDatagram; SentDatagram; SentDatagram]; UDial udp_other [SentDatagram];
   UCall 0 (mkUnitId 1) read_3; UToServer 0 0; UToServer 0 0] ++ asks_udp 0 ++
  [UToClient 0 0; UPollClient 0; UCall 1 (mkUnitId 1) write_7; UToServer 1 0] ++ asks_udp 1 ++ asks_udp 2 ++
  [UCall 0 (mkUnitId 1) read_3; UDrop 0;
   UCall 0 (mkUnitId 1) read_3; UToClient 0 1; UToClient 0 0; UPollClient 0; UPollClient 0;
   UToServer 0 2] ++ asks_udp 3 ++ [UToClient 0 3; UPollClient 0; UExpire 1].

Lemma reads_and_writes_allowed : Forall allowed reads_and_writes.
Proof.
  unfold reads_and_writes, asks_udp. cbn [app].
  repeat (apply Forall_cons; split; [first [exact I|eapply callable_tcp; by_eval]|]). constructor.
Qed.

(** The responses the calls from an address returned. *)
Definition returned_to (address : SocketAddr) (h : list UdpObserved) : list (Result (option ResponsePdu)) :=
  omap (λ o, match o with
             | UReturned a r => if decide (a = address) then Some r else None
             | _ => None
             end) h.

Lemma reads_and_writes_calls address :
  len (calls_of address (un_history (run reads_and_writes))) < U16_MAX.
Proof.
  pose proof (calls_of_length address (un_history (run reads_and_writes))) as H.
  assert (length (un_history (run reads_and_writes)) = 11%nat) as E by (vm_compute; reflexivity).
  unfold len, U16_MAX. lia.
Qed.

Lemma udp_calls_sound_witness :
  let nw := run reads_and_writes in
  returned_to udp_peer (un_history nw) =
    [Ok (Some (Resp_ReadHoldingRegisters [word 3])); Ok (Some (Resp_ReadHoldingRegisters [word 7]))] ∧
  returned_to udp_other (un_history nw) = [Err (Timeout "response")] ∧
  length (omap handled_call (un_history nw)) = 4%nat ∧
  omap handled_call (un_history nw) = omap asked_call (ud_log (un_server nw)) ∧
  all_justified udp_peer (un_history nw).
Proof.
  destruct (udp_calls_sound (svc := device) (config := interop_config) device_ok
    (device_answers linux_errno Linux) (λ e s H, H) Device_default reads_and_writes default_ok
    reads_and_writes_allowed reads_and_writes_calls) as (_ & H2 & H3).
  split; [vm_compute; reflexivity|]. split; [vm_compute; reflexivity|]. split; [vm_compute; reflexivity|].
  split; [exact H2|].
  assert (uc_address <$> un_peers (run reads_and_writes) !! 0%nat = Some udp_peer) as E
    by (vm_compute; reflexivity).
  specialize (H3 0%nat). destruct (un_peers (run reads_and_writes) !! 0%nat) as [p|] eqn:Ep; [|discriminate E].
  injection E as <-. exact (H3 p Ep).
Defined.
End witnesses.
