(* ===== verification/Pipeline.v ===== *)
(** * The pipelined client ([src/client/pipeline.rs])

    The handle's methods and the background task share a queue and a flag.  The
    task reacts to one event at a time, as its select does: a command, a
    received frame or an expired timer.  A caller waits on a reply channel,
    numbered in the order of the calls; a channel is answered, still held by the
    queue or the table, or dropped. *)

From stdpp Require Import gmap.
From S2P Require Import Prelude.
From S2P Require Import Errors.
From S2P Require Import Parse.
From S2P Require Import Value.
From S2P Require Import Pdu.
From S2P Require Import PduSpec.
From S2P Require Import PduRoundtrip.
From S2P Require Import Framing.
From S2P Require Import Tcp.
From S2P Require Import Client.
From S2P Require Import ClientOver.

(** [PipelineConfig], its default, and [From<ClientConfig>]. *)
Record PipelineConfig := mkPipelineConfig {
  pipeline_response_timeout : Z;
  max_in_flight : Z;
}.

Definition PipelineConfig_default : PipelineConfig := mkPipelineConfig (10 ^ 9) 16.

Definition PipelineConfig_from (config : ClientConfig) : PipelineConfig :=
  mkPipelineConfig (response_timeout config) (max_in_flight PipelineConfig_default).

(** [Command::Send]. *)
Record Command := mkCommand {
  cmd_transaction : TransactionId;
  cmd_unit : UnitId;
  cmd_request : RequestPdu;
  cmd_reply : Z;
}.

(** The handle ([Core]) and the locals of [run]: the in-flight table maps a
    transaction to the reply channel and the key of its timer, [issued] is the
    set of the indices that are [true], and [deadlines] maps the keys of the
    delay queue to their transactions. *)
Record Pipe := mkPipe {
  p_next : TransactionId;
  p_permits : Z;
  p_callers : gset Z;
  p_desynchronized : bool;
  p_queue : list Command;
  p_in_flight : gmap Z (Z * Z);
  p_issued : gset Z;
  p_deadlines : gmap Z Z;
  p_next_key : Z;
  p_next_reply : Z;
  p_replies : list (Z * Result ResponsePdu);
  p_dropped : list Z;
  p_wire : list (MbapHeader * RequestPdu);
}.

(** [PipelinedClient::with_config] and the locals [run] starts with. *)
Definition Pipe_new (config : PipelineConfig) : Pipe :=
  mkPipe (mkTransactionId 1) (max_in_flight config) ∅ false [] ∅ ∅ ∅ 0 0 [] [] [].

Definition p_set_table (in_flight : gmap Z (Z * Z)) (deadlines : gmap Z Z) (p : Pipe) : Pipe :=
  mkPipe (p_next p) (p_permits p) (p_callers p) (p_desynchronized p) (p_queue p) in_flight
    (p_issued p) deadlines (p_next_key p) (p_next_reply p) (p_replies p) (p_dropped p) (p_wire p).

Definition p_answer (reply : Z) (r : Result ResponsePdu) (p : Pipe) : Pipe :=
  mkPipe (p_next p) (p_permits p) (p_callers p) (p_desynchronized p) (p_queue p) (p_in_flight p)
    (p_issued p) (p_deadlines p) (p_next_key p) (p_next_reply p) (p_replies p ++ [(reply, r)])
    (p_dropped p) (p_wire p).

Definition p_desynchronize (p : Pipe) : Pipe :=
  mkPipe (p_next p) (p_permits p) (p_callers p) true (p_queue p) (p_in_flight p)
    (p_issued p) (p_deadlines p) (p_next_key p) (p_next_reply p) (p_replies p)
    (p_dropped p) (p_wire p).

(** [fail_all]. *)
Definition fail_one (e : Z * (Z * Z)) (p : Pipe) : Pipe :=
  let '(_, (reply, key)) := e in
  p_answer reply (Err Desynchronized)
    (p_set_table (p_in_flight p) (delete key (p_deadlines p)) p).
Definition fail_all (p : Pipe) : Pipe :=
  let p' := foldr fail_one p (map_to_list (p_in_flight p)) in
  p_set_table ∅ (p_deadlines p') p'.

(** [dispatch], its permit acquired. *)
Definition dispatch (unit : UnitId) (request : RequestPdu) (p : Pipe) : Pipe :=
  let reply := p_next_reply p in
  let p1 := mkPipe (p_next p) (p_permits p - 1) ({[reply]} ∪ p_callers p) (p_desynchronized p)
    (p_queue p) (p_in_flight p) (p_issued p) (p_deadlines p) (p_next_key p) (reply + 1)
    (p_replies p) (p_dropped p) (p_wire p) in
  if p_desynchronized p then p_answer reply (Err Desynchronized) p1 else
  mkPipe (next (p_next p)) (p_permits p1) (p_callers p1) false
    (p_queue p ++ [mkCommand (p_next p) unit request reply]) (p_in_flight p) (p_issued p)
    (p_deadlines p) (p_next_key p) (reply + 1) (p_replies p) (p_dropped p) (p_wire p).

(** [send] waits for a permit ([None] while it does); [try_send] fails at the
    limit. *)
Definition send_when_free (unit : UnitId) (request : RequestPdu) (p : Pipe) : option Pipe :=
  if p_permits p <=? 0 then None else Some (dispatch unit request p).

Definition try_send (unit : UnitId) (request : RequestPdu) (p : Pipe) : option Error * Pipe :=
  if p_permits p <=? 0 then (Some TooManyInFlight, p) else (None, dispatch unit request p).

(** [PipelinedClient::is_desynchronized]. *)
Definition pipe_is_desynchronized (p : Pipe) : bool := p_desynchronized p.

(** A caller's future resolves, or is dropped before: its permit is released. *)
Definition release (reply : Z) (p : Pipe) : Pipe :=
  if bool_decide (reply ∈ p_callers p) then
    mkPipe (p_next p) (p_permits p + 1) (p_callers p ∖ {[reply]}) (p_desynchronized p) (p_queue p)
      (p_in_flight p) (p_issued p) (p_deadlines p) (p_next_key p) (p_next_reply p) (p_replies p)
      (p_dropped p) (p_wire p)
  else p.

Section task.
Context {w : Winnow} (TIMEOUT_DESYNCS : bool).

(** [T::send_request]: it fails where the request does not encode, and
    otherwise as the stream does. *)
Definition p_send (header : MbapHeader) (request : RequestPdu) (wr : Result unit) : Result unit :=
  match encode_request Tcp_framing header request with
  | Ok _ => wr
  | Err e => Err e
  | Panic => Panic
  end.

(** The first arm of the select of [run]; [insert] of a table entry drops the
    one it replaces, and the reply channel with it. *)
Definition on_command (wr : Result unit) (p : Pipe) : Pipe :=
  match p_queue p with
  | [] => p
  | cmd :: queue =>
      let p0 := mkPipe (p_next p) (p_permits p) (p_callers p) (p_desynchronized p) queue
        (p_in_flight p) (p_issued p) (p_deadlines p) (p_next_key p) (p_next_reply p) (p_replies p)
        (p_dropped p) (p_wire p) in
      if p_desynchronized p then p_answer (cmd_reply cmd) (Err Desynchronized) p0 else
      let t := transaction_id_0 (cmd_transaction cmd) in
      let header := request_header (F := Tcp_framing) (cmd_unit cmd) (cmd_transaction cmd) in
      let issued := {[t]} ∪ p_issued p in
      match p_send header (cmd_request cmd) wr with
      | Ok _ =>
          let key := p_next_key p in
          let dropped := match p_in_flight p !! t with Some (old, _) => [old] | None => [] end in
          mkPipe (p_next p) (p_permits p) (p_callers p) false queue
            (<[t := (cmd_reply cmd, key)]> (p_in_flight p)) issued
            (<[key := t]> (p_deadlines p)) (key + 1) (p_next_reply p) (p_replies p)
            (p_dropped p ++ dropped) (p_wire p ++ [(header, cmd_request cmd)])
      | Err error =>
          let p1 := mkPipe (p_next p) (p_permits p) (p_callers p) true queue (p_in_flight p) issued
            (p_deadlines p) (p_next_key p) (p_next_reply p) (p_replies p) (p_dropped p)
            (p_wire p) in
          fail_all (p_answer (cmd_reply cmd) (Err error) p1)
      | Panic => p0
      end
  end.

(** The second arm: a receive resolved. *)
Definition on_received (r : Result (MbapHeader * ResponsePdu)) (p : Pipe) : Pipe :=
  match r with
  | Ok (header, response) =>
      let t := transaction_id_0 (transaction_id header) in
      match p_in_flight p !! t with
      | Some (reply, key) =>
          p_answer reply (Ok response)
            (p_set_table (delete t (p_in_flight p)) (delete key (p_deadlines p)) p)
      | None =>
          if bool_decide (t ∈ p_issued p) then p else fail_all (p_desynchronize p)
      end
  | _ => fail_all (p_desynchronize p)
  end.

(** The third arm: the timer of [key] expired. *)
Definition on_expired (key : Z) (p : Pipe) : Pipe :=
  match p_deadlines p !! key with
  | None => p
  | Some t =>
      let p0 := p_set_table (p_in_flight p) (delete key (p_deadlines p)) p in
      match p_in_flight p !! t with
      | None => p0
      | Some (reply, _) =>
          let p1 := p_answer reply (Err (Timeout "response"))
            (p_set_table (delete t (p_in_flight p)) (p_deadlines p0) p0) in
          if TIMEOUT_DESYNCS then fail_all (p_desynchronize p1) else p1
      end
  end.

Inductive PEvent :=
  | PSend (unit : UnitId) (request : RequestPdu)
  | PRelease (reply : Z)
  | PCommand (wr : Result unit)
  | PReceived (r : Result (MbapHeader * ResponsePdu))
  | PExpired (key : Z).

Definition pstep (ev : PEvent) (p : Pipe) : Pipe :=
  match ev with
  | PSend unit request => snd (try_send unit request p)
  | PRelease reply => release reply p
  | PCommand wr => on_command wr p
  | PReceived r => on_received r p
  | PExpired key => on_expired key p
  end.

Definition prun (evs : list PEvent) (p : Pipe) : Pipe := foldl (λ p ev, pstep ev p) p evs.
End task.
