(* ===== verification/PipelineTheorems.v ===== *)
(** * Properties of the pipelined client *)

From stdpp Require Import gmap.
From S2P Require Import Prelude.
From S2P Require Import Errors.
From S2P Require Import Parse.
From S2P Require Import Value.
From S2P Require Import Pdu.
From S2P Require Import PduSpec.
From S2P Require Import PduRoundtrip.
From S2P Require Import Framing.
From S2P Require Import Tcp.
From S2P Require Import Client.
From S2P Require Import ClientTheorems.
From S2P Require Import Pipeline.

(** ** Every reply channel is somewhere *)

Definition table_replies (t : gmap Z (Z * Z)) : list Z := (λ e, fst (snd e)) <$> map_to_list t.

(** The channels answered, queued, in flight and dropped. *)
Definition channels (p : Pipe) : list Z :=
  (fst <$> p_replies p) ++ (cmd_reply <$> p_queue p) ++ table_replies (p_in_flight p) ++
  p_dropped p.

(** What [fail_all] changes. *)
Definition failed (p : Pipe) : list (Z * Result ResponsePdu) :=
  reverse ((λ r, (r, Err Desynchronized)) <$> table_replies (p_in_flight p)).

Lemma fail_all_eq p :
  ∃ dl, fail_all p =
    mkPipe (p_next p) (p_permits p) (p_callers p) (p_desynchronized p) (p_queue p) ∅
      (p_issued p) dl (p_next_key p) (p_next_reply p) (p_replies p ++ failed p) (p_dropped p)
      (p_wire p).
Proof.
  unfold fail_all, failed, table_replies. generalize (map_to_list (p_in_flight p)) as l.
  assert (∀ l, ∃ dl, foldr fail_one p l =
    mkPipe (p_next p) (p_permits p) (p_callers p) (p_desynchronized p) (p_queue p) (p_in_flight p)
      (p_issued p) dl (p_next_key p) (p_next_reply p)
      (p_replies p ++ reverse ((λ r, (r, Err Desynchronized)) <$> ((λ e, fst (snd e)) <$> l)))
      (p_dropped p) (p_wire p)) as H.
  { induction l as [|[t [reply key]] l [dl IH]].
    - exists (p_deadlines p). cbn. rewrite app_nil_r. by destruct p.
    - exists (delete key dl). cbn [foldr]. rewrite IH, !fmap_cons, reverse_cons. cbn.
      by rewrite app_assoc. }
  intros l. destruct (H l) as [dl ->]. by exists dl.
Qed.

Lemma failed_replies p : fst <$> failed p ≡ₚ table_replies (p_in_flight p).
Proof.
  unfold failed. rewrite fmap_reverse, reverse_Permutation, <- list_fmap_compose.
  by rewrite list_fmap_id.
Qed.

Lemma table_replies_delete t (m : gmap Z (Z * Z)) reply key :
  m !! t = Some (reply, key) → table_replies m ≡ₚ reply :: table_replies (delete t m).
Proof.
  intros H. unfold table_replies. by rewrite <- (map_to_list_delete m t (reply, key)).
Qed.

Lemma table_replies_insert t (m : gmap Z (Z * Z)) reply key :
  table_replies (<[t := (reply, key)]> m) ++
    match m !! t with Some (old, _) => [old] | None => [] end ≡ₚ reply :: table_replies m.
Proof.
  destruct (m !! t) as [[old k]|] eqn:E.
  - rewrite (table_replies_delete t (<[t:=(reply, key)]> m) reply key) by apply lookup_insert_eq.
    rewrite delete_insert_eq, (table_replies_delete t m old k) by done.
    cbn. constructor. by rewrite <- Permutation_cons_append.
  - rewrite app_nil_r. unfold table_replies. by rewrite map_to_list_insert.
Qed.

Lemma channels_fail_all p : channels (fail_all p) ≡ₚ channels p.
Proof.
  destruct (fail_all_eq p) as [dl ->]. unfold channels. cbn.
  rewrite fmap_app, failed_replies. unfold table_replies at 2. rewrite map_to_list_empty. cbn.
  solve_Permutation.
Qed.

Section accounting.
Context {w : Winnow} {ws : WinnowSpec w} (TIMEOUT_DESYNCS : bool).

(** Events of a world where values fit their types and nothing panics. *)
Definition sane (ev : PEvent) : Prop :=
  match ev with
  | PSend u r => wf u ∧ wf r
  | PCommand wr => wr ≠ Panic
  | PReceived r => r ≠ Panic
  | _ => True
  end.

Definition command_ok (cmd : Command) : Prop :=
  wf (cmd_transaction cmd) ∧ wf (cmd_unit cmd) ∧ wf (cmd_request cmd).

(** The channels of a state are the numbers handed out so far. *)
Record accounted (p : Pipe) : Prop := {
  ac_next : 0 ≤ p_next_reply p;
  ac_channels : channels p ≡ₚ seqZ 0 (p_next_reply p);
  ac_queue : Forall command_ok (p_queue p);
  ac_transaction : wf (p_next p);
}.

Lemma next_wf t : wf t → wf (next t).
Proof.
  unfold wf, Wf_TransactionId, next, is_u16, U16_MAX. intros H.
  case_match eqn:E; cbn; [apply Z.leb_le in E|]; lia.
Qed.

Lemma seqZ_snoc n : 0 ≤ n → seqZ 0 (n + 1) = seqZ 0 n ++ [n].
Proof. intros H. by rewrite seqZ_app by lia. Qed.

Lemma accounted_dispatch u r p : wf u → wf r → accounted p → accounted (dispatch u r p).
Proof.
  intros Hu Hr [Hn Hc Hq Ht]. unfold dispatch. destruct (p_desynchronized p); split; cbn; try done; try lia.
  - rewrite seqZ_snoc, <- Hc by done. unfold channels. cbn. rewrite fmap_app. cbn.
    solve_Permutation.
  - rewrite seqZ_snoc, <- Hc by done. unfold channels. cbn. rewrite fmap_app. cbn.
    solve_Permutation.
  - apply Forall_app. split; [done|]. by constructor.
  - by apply next_wf.
Qed.

Lemma accounted_same p p' :
  accounted p → p_next_reply p' = p_next_reply p → channels p' ≡ₚ channels p →
  Forall command_ok (p_queue p') → p_next p' = p_next p → accounted p'.
Proof.
  intros [Hn H Hq Ht] He Hc Hq' Hp. split; rewrite ?He, ?Hp; try done. by rewrite Hc.
Qed.

Lemma accounted_fail_all p : accounted p → accounted (fail_all p).
Proof.
  intros H. eapply accounted_same; [exact H| |apply channels_fail_all| |];
    destruct (fail_all_eq p) as [dl ->]; try done. apply H.
Qed.

Lemma p_send_no_panic cmd wr :
  command_ok cmd → wr ≠ Panic →
  p_send (request_header (F := Tcp_framing) (cmd_unit cmd) (cmd_transaction cmd))
    (cmd_request cmd) wr ≠ Panic.
Proof.
  intros (Ht & Hu & Hr) Hw. unfold p_send. rewrite (encode_request_frame (F := Tcp_framing));
    [|by split|done]. pose proof (request_bytes_no_panic (cmd_request cmd)).
  by destruct (request_bytes _).
Qed.

Lemma accounted_command wr p : wr ≠ Panic → accounted p → accounted (on_command wr p).
Proof.
  intros Hw H. unfold on_command. destruct (p_queue p) as [|cmd queue] eqn:Eq; [done|].
  pose proof (ac_queue p H) as Hq. rewrite Eq in Hq. apply Forall_cons in Hq as [Hcmd Hq].
  pose proof (p_send_no_panic cmd wr Hcmd Hw) as Hp.
  destruct (p_desynchronized p).
  - eapply accounted_same; [exact H|done| |done|done]. unfold channels. cbn. rewrite Eq, fmap_app.
    cbn. solve_Permutation.
  - destruct (p_send _ _ _) as [[]|e|]; [| |done].
    + eapply accounted_same; [exact H|done| |done|done]. unfold channels. cbn. rewrite Eq. cbn.
      pose proof (table_replies_insert (transaction_id_0 (cmd_transaction cmd)) (p_in_flight p)
        (cmd_reply cmd) (p_next_key p)) as Hi.
      assert (∀ a b c d e : list Z, c ++ e ≡ₚ cmd_reply cmd :: d →
        a ++ b ++ c ++ p_dropped p ++ e ≡ₚ a ++ cmd_reply cmd :: b ++ d ++ p_dropped p) as Hx.
      { intros a b c d e Hce. transitivity (a ++ b ++ (c ++ e) ++ p_dropped p);
          [solve_Permutation|]. rewrite Hce. solve_Permutation. }
      by apply Hx.
    + apply accounted_fail_all. eapply accounted_same; [exact H|done| |done|done].
      unfold channels. cbn. rewrite Eq, fmap_app. cbn. solve_Permutation.
Qed.

Lemma accounted_resolve p t reply key r dl :
  p_in_flight p !! t = Some (reply, key) → accounted p →
  accounted (p_answer reply r (p_set_table (delete t (p_in_flight p)) dl p)).
Proof.
  intros Ht H. eapply accounted_same; [exact H|done| |apply H|done]. unfold channels. cbn.
  rewrite fmap_app, (table_replies_delete t (p_in_flight p) reply key) by done. cbn.
  solve_Permutation.
Qed.

Lemma accounted_desynchronize p : accounted p → accounted (fail_all (p_desynchronize p)).
Proof. intros []. apply accounted_fail_all. by split. Qed.

Lemma accounted_step ev p : sane ev → accounted p → accounted (pstep TIMEOUT_DESYNCS ev p).
Proof.
  intros Hs H. destruct ev as [u r|reply|wr|r|key]; cbn [pstep].
  - unfold try_send. destruct (_ <=? _); [done|]. destruct Hs. by apply accounted_dispatch.
  - unfold release. case_bool_decide; [|done]. by destruct H.
  - by apply accounted_command.
  - unfold on_received. destruct r as [[h resp]|e|]; [|by apply accounted_desynchronize..].
    destruct (p_in_flight p !! _) as [[reply key]|] eqn:E; [by eapply accounted_resolve|].
    case_bool_decide; [done|]. by apply accounted_desynchronize.
  - unfold on_expired. destruct (p_deadlines p !! key) as [t|]; [|done]. cbn [p_set_table p_in_flight].
    destruct (p_in_flight p !! t) as [[reply k]|] eqn:E; [|by destruct H].
    assert (accounted (p_answer reply (Err (Timeout "response"))
      (p_set_table (delete t (p_in_flight p)) (delete key (p_deadlines p)) p)))
      by (by eapply accounted_resolve).
    destruct TIMEOUT_DESYNCS; [by apply accounted_desynchronize|done].
Qed.

Lemma accounted_new config : accounted (Pipe_new config).
Proof. by split. Qed.

Lemma prun_ind (Q : Pipe → Prop) evs p :
  (∀ ev p, sane ev → Q p → Q (pstep TIMEOUT_DESYNCS ev p)) → Forall sane evs → Q p →
  Q (prun TIMEOUT_DESYNCS evs p).
Proof.
  intros Hstep Hs. revert p. induction Hs as [|ev evs Hev Hs IH]; intros p Hp; [done|].
  cbn. by apply IH, Hstep.
Qed.
End accounting.

(** ** Before the identifiers wrap *)

Section ordering.
Context {w : Winnow} {ws : WinnowSpec w} (TIMEOUT_DESYNCS : bool).

(** How many calls surely get identifiers of their own. *)
Definition UNWRAPPED : Z := 65534.

(** While the handle is usable: the [n]-th call carries identifier [n + 1], the
    queue holds the latest calls in order, the table older ones, and every entry
    of the table has a timer of its own. *)
Record ordered (p : Pipe) : Prop := {
  or_next : p_desynchronized p = false → transaction_id_0 (p_next p) = p_next_reply p + 1;
  or_queue_replies : p_desynchronized p = false →
    cmd_reply <$> p_queue p = seqZ (p_next_reply p - len (p_queue p)) (len (p_queue p));
  or_queue_ids : Forall (λ cmd, transaction_id_0 (cmd_transaction cmd) = cmd_reply cmd + 1)
    (p_queue p);
  or_table t reply key : p_in_flight p !! t = Some (reply, key) →
    t = reply + 1 ∧ reply < p_next_reply p - len (p_queue p) ∧ key < p_next_key p ∧
    p_deadlines p !! key = Some t;
  or_timers key t : p_desynchronized p = false → p_deadlines p !! key = Some t →
    ∃ reply, p_in_flight p !! t = Some (reply, key);
  or_empty : p_desynchronized p = true → p_in_flight p = ∅;
  or_dropped : p_dropped p = [];
}.

Lemma ordered_fail_all p :
  Forall (λ cmd, transaction_id_0 (cmd_transaction cmd) = cmd_reply cmd + 1) (p_queue p) →
  p_dropped p = [] → p_desynchronized p = true → ordered (fail_all p).
Proof.
  intros Hq Hd Hs. destruct (fail_all_eq p) as [dl ->]. split; cbn; rewrite ?Hs; try done.
Qed.

Lemma ordered_desynchronize p : ordered p → ordered (fail_all (p_desynchronize p)).
Proof. intros []. by apply ordered_fail_all. Qed.

Lemma ordered_dispatch u r p :
  p_next_reply (dispatch u r p) ≤ UNWRAPPED → ordered p → ordered (dispatch u r p).
Proof.
  unfold UNWRAPPED. intros Hb [H1 H2 H3 H4 H5 H6 H7]. unfold dispatch in *.
  destruct (p_desynchronized p) eqn:Ed; cbn in *.
  - split; cbn; rewrite ?Ed; try done. intros t reply key. by rewrite (H6 eq_refl), lookup_empty.
  - specialize (H1 eq_refl). split; cbn; try done.
    + intros _. unfold next, U16_MAX. rewrite H1.
      case_match eqn:E; cbn; [lia|]. apply Z.leb_gt in E. lia.
    + intros _. rewrite fmap_app, (H2 eq_refl). cbn. rewrite len_app. cbn [len].
      change (len [mkCommand (p_next p) u r (p_next_reply p)]) with 1.
      pose proof (len_nonneg (p_queue p)). rewrite seqZ_app by lia.
      replace (p_next_reply p + 1 - (len (p_queue p) + 1)) with (p_next_reply p - len (p_queue p))
        by lia.
      f_equal. rewrite Z.sub_add. done.
    + apply Forall_app. split; [done|]. by constructor.
    + intros t reply key Ht. destruct (H4 t reply key Ht) as (-> & Hr & Hk & Hd).
      rewrite len_app. change (len [mkCommand (p_next p) u r (p_next_reply p)]) with 1.
      split_and!; try done. lia.
Qed.

(** The head of the queue is not in the table. *)
Lemma ordered_head p cmd queue :
  ordered p → p_desynchronized p = false → p_queue p = cmd :: queue →
  cmd_reply cmd = p_next_reply p - len (p_queue p) ∧
  transaction_id_0 (cmd_transaction cmd) = cmd_reply cmd + 1 ∧
  p_in_flight p !! transaction_id_0 (cmd_transaction cmd) = None ∧
  cmd_reply <$> queue = seqZ (p_next_reply p - len queue) (len queue) ∧
  Forall (λ cmd, transaction_id_0 (cmd_transaction cmd) = cmd_reply cmd + 1) queue.
Proof.
  intros [H1 H2 H3 H4 H5 H6 H7] Hd Hq. specialize (H2 Hd). rewrite Hq in H2, H3.
  rewrite Hq. rewrite len_cons in *. pose proof (len_nonneg queue).
  rewrite seqZ_cons in H2 by lia. rewrite fmap_cons in H2. injection H2 as Hr H2.
  apply Forall_cons in H3 as [Ht H3]. split_and!; try done.
  - destruct (p_in_flight p !! _) as [[reply key]|] eqn:E; [|done].
    apply H4 in E as (? & ? & _). rewrite Hq, len_cons in *. lia.
  - rewrite H2. f_equal; lia.
Qed.

Lemma ordered_command wr p : wr ≠ Panic → accounted p → ordered p → ordered (on_command wr p).
Proof.
  intros Hw Ha H. unfold on_command. destruct (p_queue p) as [|cmd queue] eqn:Eq; [done|].
  pose proof (ac_queue p Ha) as Hq. rewrite Eq in Hq. apply Forall_cons in Hq as [Hcmd Hq].
  pose proof (p_send_no_panic cmd wr Hcmd Hw) as Hp.
  destruct (p_desynchronized p) eqn:Ed.
  - destruct H as [H1 H2 H3 H4 H5 H6 H7]. rewrite Eq in H3. apply Forall_cons in H3 as [_ H3].
    split; cbn; rewrite ?Ed, ?(H6 Ed); done.
  - pose proof (ordered_head p cmd queue H Ed Eq) as (Hr & Ht & Hfree & Hqr & Hqi).
    destruct H as [H1 H2 H3 H4 H5 H6 H7].
    destruct (p_send _ _ _) as [[]|e|]; [| |done].
    + rewrite Hfree, app_nil_r. rewrite Eq, len_cons in *.
      set (t0 := transaction_id_0 (cmd_transaction cmd)) in *.
      split; cbn; try done; [intros _; by apply H1| |].
      * intros t reply key. destruct (decide (t = t0)) as [->|Hne].
        -- rewrite lookup_insert_eq. intros [= <- <-]. rewrite lookup_insert_eq.
           split_and!; [done|lia|lia|done].
        -- rewrite lookup_insert_ne by done. intros E.
           destruct (H4 t reply key E) as (-> & Hlt & Hk & Hd).
           rewrite lookup_insert_ne by lia. split_and!; [done|lia|lia|done].
      * intros key t _. destruct (decide (key = p_next_key p)) as [->|Hne].
        -- rewrite lookup_insert_eq. intros [= <-]. exists (cmd_reply cmd). by rewrite lookup_insert_eq.
        -- rewrite lookup_insert_ne by done. intros E. destruct (H5 key t Ed E) as [reply Hf].
           exists reply. rewrite lookup_insert_ne; [done|]. intros <-. by rewrite Hfree in Hf.
    + by apply ordered_fail_all.
Qed.

(** An entry leaves the table together with its timer. *)
Lemma ordered_resolve p t reply key r :
  p_in_flight p !! t = Some (reply, key) → ordered p →
  ordered (p_answer reply r
    (p_set_table (delete t (p_in_flight p)) (delete key (p_deadlines p)) p)).
Proof.
  intros Ht [H1 H2 H3 H4 H5 H6 H7]. destruct (H4 t reply key Ht) as (_ & _ & _ & Hk).
  split; cbn; try done.
  - intros t' reply' key' E. destruct (decide (t' = t)) as [->|Hne];
      [by rewrite lookup_delete_eq in E|]. rewrite lookup_delete_ne in E by done.
    destruct (H4 t' reply' key' E) as (-> & Hr & Hlt & Hd). split_and!; try done.
    rewrite lookup_delete_ne; [done|]. intros <-. rewrite Hk in Hd. by injection Hd.
  - intros key' t' Hd E. destruct (decide (key' = key)) as [->|Hne];
      [by rewrite lookup_delete_eq in E|]. rewrite lookup_delete_ne in E by done.
    destruct (H5 key' t' Hd E) as [reply' Hf]. exists reply'.
    rewrite lookup_delete_ne; [done|]. intros <-. rewrite Ht in Hf. by injection Hf.
  - intros Hd. by rewrite (H6 Hd), delete_empty.
Qed.

Lemma next_reply_mono ev p : p_next_reply p ≤ p_next_reply (pstep TIMEOUT_DESYNCS ev p).
Proof.
  assert (∀ q, p_next_reply (fail_all q) = p_next_reply q) as Hf
    by (intros q; by destruct (fail_all_eq q) as [dl ->]).
  destruct ev as [u r|reply|wr|r|key]; cbn [pstep].
  - unfold try_send, dispatch. destruct (_ <=? _), (p_desynchronized p); cbn; lia.
  - unfold release. case_bool_decide; cbn; lia.
  - unfold on_command. destruct (p_queue p); [lia|]. destruct (p_desynchronized p); [cbn; lia|].
    destruct (p_send _ _ _); rewrite ?Hf; cbn; lia.
  - unfold on_received. destruct r as [[h resp]|e|]; rewrite ?Hf; [|cbn; lia..].
    destruct (p_in_flight p !! _) as [[??]|]; [cbn; lia|].
    case_bool_decide; rewrite ?Hf; cbn; lia.
  - unfold on_expired. destruct (p_deadlines p !! key); [|lia].
    destruct (p_in_flight p !! _) as [[??]|]; [|cbn; lia].
    destruct TIMEOUT_DESYNCS; rewrite ?Hf; cbn; lia.
Qed.

Lemma ordered_step ev p :
  sane ev → accounted p → p_next_reply (pstep TIMEOUT_DESYNCS ev p) ≤ UNWRAPPED → ordered p →
  ordered (pstep TIMEOUT_DESYNCS ev p).
Proof.
  intros Hs Ha Hb H. destruct ev as [u r|reply|wr|r|key]; cbn [pstep] in *.
  - unfold try_send in *. destruct (_ <=? _); [done|]. by apply ordered_dispatch.
  - unfold release. case_bool_decide; [|done]. by destruct H.
  - by apply ordered_command.
  - unfold on_received. destruct r as [[h resp]|e|]; [|by apply ordered_desynchronize..].
    destruct (p_in_flight p !! _) as [[reply key]|] eqn:E; [by apply ordered_resolve|].
    case_bool_decide; [done|]. by apply ordered_desynchronize.
  - unfold on_expired. destruct (p_deadlines p !! key) as [t|] eqn:Ek; [|done].
    destruct (p_in_flight p !! t) as [[reply k]|] eqn:E.
    + assert (k = key) as ->.
      { destruct (p_desynchronized p) eqn:Ed; [by rewrite (or_empty p H Ed) in E|].
        destruct (or_timers p H key t Ed Ek) as [reply' E']. rewrite E in E'. by injection E'. }
      pose proof (ordered_resolve p t reply key (Err (Timeout "response")) E H) as Hr.
      destruct TIMEOUT_DESYNCS; [by apply ordered_desynchronize|done].
    + destruct (p_desynchronized p) eqn:Ed.
      * destruct H as [H1 H2 H3 H4 H5 H6 H7]. split; cbn; rewrite ?Ed, ?(H6 Ed); done.
      * destruct (or_timers p H key t Ed Ek) as [reply' E']. by rewrite E in E'.
Qed.

Lemma ordered_new config : ordered (Pipe_new config).
Proof. by split. Qed.

(** Every successful answer is a received frame with the call's identifier. *)
Definition matched (evs : list PEvent) (p : Pipe) : Prop :=
  ∀ reply resp, (reply, Ok resp) ∈ p_replies p →
    ∃ h, PReceived (Ok (h, resp)) ∈ evs ∧ transaction_id_0 (transaction_id h) = reply + 1.

Lemma matched_fail evs p : matched evs p → matched evs (fail_all p).
Proof.
  intros H reply resp. destruct (fail_all_eq p) as [dl ->]. cbn. unfold failed.
  intros [Hin|Hin]%elem_of_app; [by apply H|].
  rewrite elem_of_reverse in Hin. by apply list_elem_of_fmap in Hin as (? & [=] & _).
Qed.

Lemma matched_answer evs p reply r :
  matched evs p → (∀ resp, r ≠ Ok resp) → matched evs (p_answer reply r p).
Proof.
  intros H Hr reply' resp. cbn. intros [Hin|Hin]%elem_of_app; [by apply H|].
  apply list_elem_of_singleton in Hin. injection Hin as _ <-. by destruct (Hr resp).
Qed.

Lemma matched_step evs ev p :
  ordered p → matched evs p → matched (evs ++ [ev]) (pstep TIMEOUT_DESYNCS ev p).
Proof.
  intros Ho Hm. assert (matched (evs ++ [ev]) p) as H.
  { intros reply resp Hin. destruct (Hm reply resp Hin) as (h & ? & ?). exists h.
    rewrite elem_of_app. auto. }
  destruct ev as [u r|reply|wr|r|key]; cbn [pstep].
  - unfold try_send, dispatch. destruct (_ <=? _); [done|].
    destruct (p_desynchronized p); [by apply matched_answer|done].
  - unfold release. by case_bool_decide.
  - unfold on_command. destruct (p_queue p); [done|].
    destruct (p_desynchronized p); [by apply matched_answer|].
    destruct (p_send _ _ _); [done| |done]. by apply matched_fail, matched_answer.
  - unfold on_received. destruct r as [[h resp]|e|]; [|by apply matched_fail..].
    destruct (p_in_flight p !! _) as [[reply key]|] eqn:E.
    + intros reply' resp'. cbn. intros [Hin|Hin]%elem_of_app; [by apply H|].
      apply list_elem_of_singleton in Hin. injection Hin as -> ->. exists h. split.
      * apply elem_of_app. right. apply list_elem_of_here.
      * by apply (or_table p Ho) in E as [-> _].
    + case_bool_decide; [done|]. by apply matched_fail.
  - unfold on_expired. destruct (p_deadlines p !! key); [|done].
    destruct (p_in_flight p !! _) as [[??]|]; [|done].
    destruct TIMEOUT_DESYNCS; [apply matched_fail|]; by apply matched_answer.
Qed.

Lemma prun_snoc evs ev p :
  prun TIMEOUT_DESYNCS (evs ++ [ev]) p = pstep TIMEOUT_DESYNCS ev (prun TIMEOUT_DESYNCS evs p).
Proof. unfold prun. by rewrite foldl_app. Qed.

(** Every run from a new handle is in order until the identifiers wrap. *)
Lemma prun_ordered config evs :
  let p := prun TIMEOUT_DESYNCS evs (Pipe_new config) in
  Forall sane evs → accounted p ∧ (p_next_reply p ≤ UNWRAPPED → ordered p ∧ matched evs p).
Proof.
  cbn zeta. induction evs as [|ev evs IH] using rev_ind; intros Hs.
  - split; [by apply accounted_new|]. intros _. split; [by apply ordered_new|].
    intros reply resp Hin. by apply not_elem_of_nil in Hin.
  - apply Forall_app in Hs as [Hs Hev]. apply Forall_cons in Hev as [Hev _].
    rewrite prun_snoc. destruct (IH Hs) as [Ha Ho]. split; [by apply accounted_step|].
    intros Hb. pose proof (next_reply_mono ev (prun TIMEOUT_DESYNCS evs (Pipe_new config))).
    destruct Ho as [Ho Hm]; [lia|]. split; [by apply ordered_step|by apply matched_step].
Qed.
End ordering.

(** ** A desynchronized handle *)

Section desynchronized.
Context {w : Winnow} (TIMEOUT_DESYNCS : bool).

Definition table_empty_when_desynchronized (p : Pipe) : Prop :=
  p_desynchronized p = true → p_in_flight p = ∅.

Lemma fail_all_empty p : p_in_flight (fail_all p) = ∅.
Proof. by destruct (fail_all_eq p) as [dl ->]. Qed.

Lemma table_empty_step ev p :
  table_empty_when_desynchronized p →
  table_empty_when_desynchronized (pstep TIMEOUT_DESYNCS ev p).
Proof.
  unfold table_empty_when_desynchronized. intros H.
  destruct ev as [u r|reply|wr|r|key]; cbn [pstep].
  - unfold try_send, dispatch. destruct (_ <=? _); [done|].
    by destruct (p_desynchronized p) eqn:E; cbn.
  - unfold release. by case_bool_decide.
  - unfold on_command. destruct (p_queue p); [done|]. destruct (p_desynchronized p) eqn:E; cbn.
    + intros _. by apply H.
    + destruct (p_send _ _ _); [done| |done]. intros _. apply fail_all_empty.
  - unfold on_received. destruct r as [[h resp]|e|]; try (intros _; apply fail_all_empty).
    destruct (p_in_flight p !! _) as [[??]|] eqn:E.
    + cbn. intros Hd. by rewrite (H Hd) in E.
    + case_bool_decide; [done|]. intros _. apply fail_all_empty.
  - unfold on_expired. destruct (p_deadlines p !! key); [|done].
    destruct (p_in_flight p !! _) as [[??]|] eqn:E; [|done]. destruct TIMEOUT_DESYNCS.
    + intros _. apply fail_all_empty.
    + cbn. intros Hd. by rewrite (H Hd) in E.
Qed.

Lemma desynchronized_step ev p :
  p_desynchronized p = true → p_in_flight p = ∅ →
  p_desynchronized (pstep TIMEOUT_DESYNCS ev p) = true ∧
  p_wire (pstep TIMEOUT_DESYNCS ev p) = p_wire p.
Proof.
  intros Hd He.
  assert (∀ q, p_desynchronized (fail_all q) = p_desynchronized q ∧ p_wire (fail_all q) = p_wire q)
    as Hf by (intros q; by destruct (fail_all_eq q) as [dl ->]).
  destruct ev as [u r|reply|wr|r|key]; cbn [pstep].
  - unfold try_send, dispatch. rewrite Hd. by destruct (_ <=? _).
  - unfold release. by case_bool_decide.
  - unfold on_command. rewrite Hd. by destruct (p_queue p).
  - unfold on_received. rewrite He. destruct r as [[h resp]|e|]; try apply (Hf (p_desynchronize p)).
    rewrite lookup_empty. case_bool_decide; [done|]. apply (Hf (p_desynchronize p)).
  - unfold on_expired. rewrite He. destruct (p_deadlines p !! key) as [t|]; [|done].
    by rewrite lookup_empty.
Qed.

Lemma desynchronized_forever evs p :
  p_desynchronized p = true → table_empty_when_desynchronized p →
  p_desynchronized (prun TIMEOUT_DESYNCS evs p) = true ∧
  p_wire (prun TIMEOUT_DESYNCS evs p) = p_wire p.
Proof.
  revert p. induction evs as [|ev evs IH]; intros p Hd He; [done|]. cbn [prun foldl].
  destruct (desynchronized_step ev p Hd (He Hd)) as [H1 H2].
  destruct (IH (pstep TIMEOUT_DESYNCS ev p) H1) as [H3 H4]; [by apply table_empty_step|].
  unfold prun in *. by rewrite H4.
Qed.

Lemma prun_table_empty config evs :
  table_empty_when_desynchronized (prun TIMEOUT_DESYNCS evs (Pipe_new config)).
Proof.
  induction evs as [|ev evs IH] using rev_ind; [done|]. rewrite prun_snoc.
  by apply table_empty_step.
Qed.
End desynchronized.

(** ** Claims *)

Section claims.
Context {w : Winnow} {ws : WinnowSpec w} (TIMEOUT_DESYNCS : bool).

(** C17. Concurrent calls are kept apart: whatever the order of calls,
    cancellations, writes, frames and timers, for the first 65534 calls of a
    handle every call is answered exactly once or still queued or in flight,
    no caller is left without an answer, and a call succeeds only with a frame
    that carries the identifier allocated to it (CL-R-082, CL-R-084, CL-R-088). *)
Theorem pipeline_calls_kept_apart config evs :
  let p := prun TIMEOUT_DESYNCS evs (Pipe_new config) in
  Forall sane evs → p_next_reply p ≤ 65534 →
  p_dropped p = [] ∧
  (fst <$> p_replies p) ++ (cmd_reply <$> p_queue p) ++ table_replies (p_in_flight p)
    ≡ₚ seqZ 0 (p_next_reply p) ∧
  NoDup (fst <$> p_replies p) ∧
  ∀ reply resp, (reply, Ok resp) ∈ p_replies p →
    ∃ h, PReceived (Ok (h, resp)) ∈ evs ∧ transaction_id_0 (transaction_id h) = reply + 1.
Proof.
  intros p Hs Hb. destruct (prun_ordered TIMEOUT_DESYNCS config evs Hs) as [[_ Hc _ _] Ho].
  destruct (Ho Hb) as [Hord Hm]. pose proof (or_dropped _ Hord) as Hd.
  unfold channels in Hc. rewrite Hd, app_nil_r in Hc. split_and!; [done..| |exact Hm].
  pose proof (NoDup_seqZ 0 (p_next_reply p)) as Hn. unfold p in Hn. rewrite <- Hc in Hn.
  by apply NoDup_app in Hn as [? _].
Qed.

(** A handle that gave up stays so: when it is desynchronized nothing is in
    flight, every request that was has been failed, and nothing is ever written
    again (CL-R-090, CL-R-092). *)
Theorem pipeline_desynchronized_is_final config evs evs' :
  let p := prun TIMEOUT_DESYNCS evs (Pipe_new config) in
  p_desynchronized p = true →
  p_in_flight p = ∅ ∧ p_desynchronized (prun TIMEOUT_DESYNCS evs' p) = true ∧
  p_wire (prun TIMEOUT_DESYNCS evs' p) = p_wire p.
Proof.
  intros p Hd. pose proof (prun_table_empty TIMEOUT_DESYNCS config evs) as He.
  split; [by apply He|]. by apply desynchronized_forever.
Qed.
End claims.

(** ** After the identifiers wrap *)

Section wrapping.
Context {w : Winnow} {ws : WinnowSpec w} (TIMEOUT_DESYNCS : bool).

Definition probe : PEvent := PSend (mkUnitId 1) Req_ReportServerId.

(** A usable handle with nothing queued whose first request, under identifier 1,
    is still unanswered, and its caller still waiting. *)
Record first_waiting (next : Z) (p : Pipe) : Prop := {
  fw_next : p_next p = mkTransactionId next;
  fw_permits : 1 ≤ p_permits p;
  fw_usable : p_desynchronized p = false;
  fw_queue : p_queue p = [];
  fw_table : p_in_flight p = {[1 := (0, 0)]};
  fw_dropped : p_dropped p = [];
  fw_caller : 0 ∈ p_callers p;
  fw_reply : 1 ≤ p_next_reply p;
  fw_unanswered : Forall (λ a, fst a ≠ 0) (p_replies p);
}.

Lemma p_send_probe u t : wf u → wf t →
  p_send (request_header (F := Tcp_framing) u t) Req_ReportServerId (Ok tt) = Ok tt.
Proof.
  intros Hu Ht. unfold p_send.
  by rewrite (encode_request_frame (F := Tcp_framing)) by (by try split).
Qed.

(** One call that is written. *)
Lemma probe_written n p :
  0 ≤ n ≤ 65535 → p_next p = mkTransactionId n → 1 ≤ p_permits p → p_desynchronized p = false →
  p_queue p = [] →
  let p' := prun TIMEOUT_DESYNCS [probe; PCommand (Ok tt)] p in
  p_next p' = next (mkTransactionId n) ∧ p_permits p' = p_permits p - 1 ∧
  p_callers p' = {[p_next_reply p]} ∪ p_callers p ∧
  p_desynchronized p' = false ∧ p_queue p' = [] ∧
  p_in_flight p' = <[n := (p_next_reply p, p_next_key p)]> (p_in_flight p) ∧
  p_dropped p' = p_dropped p ++ match p_in_flight p !! n with Some (old, _) => [old] | None => [] end ∧
  p_next_reply p' = p_next_reply p + 1 ∧ p_replies p' = p_replies p.
Proof.
  intros Hn Ht Hp Hd Hq. cbn zeta. cbn [prun foldl pstep probe]. unfold try_send.
  destruct (p_permits p <=? 0) eqn:E; [apply Z.leb_le in E; lia|]. cbn [snd].
  unfold dispatch. rewrite Hd, Hq, Ht. cbn [app].
  unfold on_command. cbn [p_queue p_desynchronized cmd_unit cmd_transaction cmd_request].
  rewrite p_send_probe by (by unfold wf, Wf_UnitId, Wf_TransactionId, is_u8, is_u16; cbn; lia).
  done.
Qed.

(** A further call that is answered and returns leaves the first waiting. *)
Lemma probe_answered n p :
  2 ≤ n ≤ 65535 → first_waiting n p →
  ∃ evs, Forall sane evs ∧
    first_waiting (transaction_id_0 (next (mkTransactionId n))) (prun TIMEOUT_DESYNCS evs p).
Proof.
  intros Hn [Ht Hp Hd Hq Hf Hx Hc Hr Hu].
  destruct (probe_written n p) as (H1 & H2 & H3 & H4 & H5 & H6 & H7 & H8 & H9); [lia|done..|].
  exists [probe; PCommand (Ok tt);
    PReceived (Ok (mkMbapHeader (mkTransactionId n) (mkUnitId 1), Resp_ReportServerId []));
    PRelease (p_next_reply p)]. split.
  { repeat constructor; cbn; try done; unfold is_u8; lia. }
  change (prun TIMEOUT_DESYNCS (?a :: ?b :: ?c) p) with
    (prun TIMEOUT_DESYNCS c (prun TIMEOUT_DESYNCS [a; b] p)).
  set (q := prun TIMEOUT_DESYNCS [probe; PCommand (Ok tt)] p) in *. clearbody q.
  rewrite Hf in H6, H7. rewrite lookup_singleton_ne in H7 by lia.
  cbn [prun foldl pstep]. unfold on_received. cbn [transaction_id transaction_id_0].
  rewrite H6, lookup_insert_eq. unfold release.
  rewrite bool_decide_true by (cbn; rewrite H3; apply elem_of_union_l, elem_of_singleton_2; done).
  split; cbn.
  - rewrite H1. by destruct (next _).
  - lia.
  - done.
  - done.
  - rewrite delete_insert_id; [done|]. by rewrite lookup_singleton_ne by lia.
  - by rewrite H7, Hx.
  - rewrite H3. apply elem_of_difference. split; [by apply elem_of_union_r|].
    intros ?%elem_of_singleton_1. lia.
  - lia.
  - rewrite H9. apply Forall_app. split; [done|]. repeat constructor. cbn. lia.
Qed.

Lemma probes_answered k p :
  Z.of_nat k ≤ 65533 → first_waiting 2 p →
  ∃ evs, Forall sane evs ∧ first_waiting (2 + Z.of_nat k) (prun TIMEOUT_DESYNCS evs p).
Proof.
  intros Hk Hp. induction k as [|k IH]; [by exists []|].
  destruct IH as (evs & Hs & Hw); [lia|].
  destruct (probe_answered (2 + Z.of_nat k) _ ltac:(lia) Hw) as (evs' & Hs' & Hw').
  exists (evs ++ evs'). split; [by apply Forall_app|].
  unfold prun in *. rewrite foldl_app. unfold next, U16_MAX in Hw'. cbn [transaction_id_0] in Hw'.
  destruct (2 + Z.of_nat k + 1 <=? 65535) eqn:E; [|apply Z.leb_gt in E; lia].
  cbn [transaction_id_0] in Hw'. by replace (2 + Z.of_nat (S k)) with (2 + Z.of_nat k + 1) by lia.
Qed.

(** C38. Past the last identifier the table is overwritten while a caller waits: a
    run, with no failure and no timer in it, in which the identifiers come round
    while the first request is unanswered; the next request takes its entry in the
    table, so its reply channel is dropped with no reply in it, on a usable handle,
    while its caller, who was promised an answer, still waits on it: that caller
    panics. *)
Theorem pipeline_wrap_drops_a_caller :
  ∃ evs, Forall sane evs ∧
    let p := prun TIMEOUT_DESYNCS evs (Pipe_new PipelineConfig_default) in
    p_dropped p = [0] ∧ 0 ∈ p_callers p ∧ Forall (λ a, fst a ≠ 0) (p_replies p) ∧
    p_desynchronized p = false.
Proof.
  set (p0 := Pipe_new PipelineConfig_default).
  destruct (probe_written 1 p0) as (H1 & H2 & H3 & H4 & H5 & H6 & H7 & H8 & H9); [lia|done..|].
  set (p1 := prun TIMEOUT_DESYNCS [probe; PCommand (Ok tt)] p0) in *.
  destruct (probes_answered (Z.to_nat 65533) p1) as (evs & Hs & Hw); [lia| |].
  { split; [exact H1|rewrite H2; cbn; lia|exact H4|exact H5|exact H6|exact H7| |by rewrite H8|by rewrite H9].
    rewrite H3. by apply elem_of_union_l, elem_of_singleton_2. }
  rewrite Z2Nat.id in Hw by lia.
  destruct (probe_answered 65535 _ ltac:(lia) Hw) as (evs' & Hs' & [G1 G2 G3 G4 G5 G6 G7 G8 G9]).
  set (p2 := prun TIMEOUT_DESYNCS evs' (prun TIMEOUT_DESYNCS evs p1)) in *.
  destruct (probe_written 1 p2) as (_ & _ & K3 & K4 & _ & _ & K7 & _ & K9); [lia|done..|].
  exists ([probe; PCommand (Ok tt)] ++ evs ++ evs' ++ [probe; PCommand (Ok tt)]). split.
  - repeat (apply Forall_app; split; try done); repeat constructor; cbn; try done; unfold is_u8; lia.
  - cbn zeta. unfold prun. rewrite !foldl_app. fold p1. unfold p2, p1, prun in *.
    rewrite K7, G5, G6, K3, K9, lookup_singleton_eq. split_and!; [done|by apply elem_of_union_r|done..].
Qed.
End wrapping.

(** The limit does not bound the in-flight table: a cancelled call frees its
    slot but not its entry, so a handle limited to one request at a time can
    have two outstanding. *)
Lemma pipeline_limit_exceeded :
  let evs := [probe; PCommand (Ok tt); PRelease 0; probe; PCommand (Ok tt)] in
  Forall sane evs ∧
  size (p_in_flight (prun (w := winnow_model) true evs (Pipe_new (mkPipelineConfig (10 ^ 9) 1)))) = 2%nat.
Proof. split; [repeat constructor; cbn; try done; unfold is_u8; lia|]. vm_compute. reflexivity. Qed.

(** A request that does not encode fails the request in flight beside it and the
    handle with it, though not a byte of it was written. *)
Lemma pipeline_unencodable_fails_everyone :
  let p := prun (w := winnow_model) true
    [probe; PCommand (Ok tt);
     PSend (mkUnitId 1) (Req_ReadCoils (mkAddress 0) (mkQuantity 0)); PCommand (Ok tt)]
    (Pipe_new PipelineConfig_default) in
  p_desynchronized p = true ∧ (0, Err Desynchronized) ∈ p_replies p ∧ len (p_wire p) = 1.
Proof.
  cbv zeta. split_and!; [vm_compute; reflexivity| |vm_compute; reflexivity].
  apply list_elem_of_lookup. exists 1%nat. vm_compute. reflexivity.
Qed.

(** ** Witnesses *)

(** Two calls, the second answered first. *)
Definition crossed : list PEvent :=
  [probe; probe; PCommand (Ok tt); PCommand (Ok tt);
   PReceived (Ok (mkMbapHeader (mkTransactionId 2) (mkUnitId 1), Resp_ReportServerId [2]));
   PReceived (Ok (mkMbapHeader (mkTransactionId 1) (mkUnitId 1), Resp_ReportServerId [1]))].

Lemma pipeline_calls_kept_apart_witness :
  let p := prun (w := winnow_model) true crossed (Pipe_new PipelineConfig_default) in
  p_replies p = [(1, Ok (Resp_ReportServerId [2])); (0, Ok (Resp_ReportServerId [1]))] ∧
  p_dropped p = [].
Proof.
  intros p. split; [vm_compute; reflexivity|].
  apply (@pipeline_calls_kept_apart winnow_model winnow_model_spec true PipelineConfig_default
    crossed); [|vm_compute; discriminate].
  repeat constructor; cbn; try done; unfold is_u8; lia.
Defined.

(** A frame under an identifier never issued. *)
Lemma pipeline_desynchronized_is_final_witness :
  let p := prun (w := winnow_model) true
    [probe; PCommand (Ok tt);
     PReceived (Ok (mkMbapHeader (mkTransactionId 9) (mkUnitId 1), Resp_ReportServerId []))]
    (Pipe_new PipelineConfig_default) in
  p_in_flight p = ∅ ∧
  p_wire (prun (w := winnow_model) true [probe; PCommand (Ok tt)] p) = p_wire p.
Proof.
  intros p.
  destruct (@pipeline_desynchronized_is_final winnow_model true PipelineConfig_default
    [probe; PCommand (Ok tt);
     PReceived (Ok (mkMbapHeader (mkTransactionId 9) (mkUnitId 1), Resp_ReportServerId []))]
    [probe; PCommand (Ok tt)]) as (H1 & _ & H2).
  - vm_compute. reflexivity.
  - split; [exact H1|exact H2].
Defined.

Lemma pipeline_wrap_drops_a_caller_witness :
  ∃ evs, Forall sane evs ∧
    let p := prun (w := winnow_model) true evs (Pipe_new PipelineConfig_default) in
    p_dropped p = [0] ∧ 0 ∈ p_callers p ∧ Forall (λ a, fst a ≠ 0) (p_replies p) ∧
    p_desynchronized p = false.
Proof. apply (@pipeline_wrap_drops_a_caller winnow_model winnow_model_spec true). Defined.
