(* ===== verification/PipelineTask.v ===== *)
(** * The background task of a pipelined client over its transport
    ([src/client/pipeline.rs])

    The trait [PipelineTransport] with its two implementations, and [run] over a
    transport that has been split.  One receive future is held across the passes
    of the loop: what has arrived accumulates until the receive resolves. *)

From stdpp Require Import gmap.
From S2P Require Import Prelude.
From S2P Require Import Errors.
From S2P Require Import Parse.
From S2P Require Import Value.
From S2P Require Import Wire.
From S2P Require Import Pdu.
From S2P Require Import PduSpec.
From S2P Require Import PduRoundtrip.
From S2P Require Import Framing.
From S2P Require Import Rtu.
From S2P Require Import RtuStream.
From S2P Require Import Tcp.
From S2P Require Import Ascii.
From S2P Require Import Serial.
From S2P Require Import Transport.
From S2P Require Import TransportTheorems.
From S2P Require Import Outgoing.
From S2P Require Import Framed.
From S2P Require Import FramedTheorems.
From S2P Require Import Growing.
From S2P Require Import Client.
From S2P Require Import ClientOver.
From S2P Require Import Pipeline.
From S2P Require Import PipelineTheorems.

(** The trait [PipelineTransport]; [feed] is what the environment does to a
    receive under way: more arrives. *)
Class PipelineTransport (T : Type) {w : Winnow} := {
  PtReader : Type;
  PtWriter : Type;
  PtArrival : Type;
  pt_split : T → PtReader * PtWriter;
  pt_send_request : MbapHeader → RequestPdu → PtWriter → Poll PtWriter unit;
  pt_recv_response : PtReader → Poll PtReader (MbapHeader * ResponsePdu);
  pt_feed : PtArrival → PtReader → PtReader;
  TIMEOUT_DESYNCS : bool;
}.

Definition rd_feed {F : Framing} (ev : Event) (r : FrameTransportReader F) : FrameTransportReader F :=
  mkFrameTransportReader (mkReadHalf (arrivals (rd_stream r) ++ [ev])) (rd_buffer r) (rd_config r)
    (rd_receiving r).

Definition ur_feed {F : Framing} (ev : SocketRecv) (r : UdpTransportReader F) : UdpTransportReader F :=
  mkUdpTransportReader (ur_deliveries r ++ [ev]) (ur_incoming r).

#[export] Instance FrameTransport_pipeline {w : Winnow} :
    PipelineTransport (FrameTransport Tcp_framing) := {|
  PtReader := FrameTransportReader Tcp_framing;
  PtWriter := FrameTransportWriter Tcp_framing;
  PtArrival := Event;
  pt_split := ft_split;
  pt_send_request := wt_send_request (F := Tcp_framing);
  pt_recv_response := rd_recv_response (F := Tcp_framing);
  pt_feed := rd_feed;
  TIMEOUT_DESYNCS := true;
|}.

#[export] Instance UdpTransport_pipeline {w : Winnow} :
    PipelineTransport (UdpTransport Tcp_framing) := {|
  PtReader := UdpTransportReader Tcp_framing;
  PtWriter := UdpTransportWriter Tcp_framing;
  PtArrival := SocketRecv;
  pt_split := ut_split;
  pt_send_request := uw_send_request (F := Tcp_framing);
  pt_recv_response := ur_recv_response (F := Tcp_framing);
  pt_feed := ur_feed;
  TIMEOUT_DESYNCS := false;
|}.

Section run.
Context {w : Winnow} (T : Type) {PT : PipelineTransport T}.

(** The task looks at its events, waits in a write, or has returned. *)
Inductive TaskStatus := Selecting | Writing | TaskReturned.

(** The handles with their task: the shared state and locals of [Pipeline.v], the
    reader inside the held receive future ([recv_and_return]), the writer, how
    many handles are alive, and where [run] is. *)
Record TaskState := mkTaskState {
  ts_pipe : Pipe;
  ts_reader : PtReader;
  ts_writer : PtWriter;
  ts_handles : nat;
  ts_status : TaskStatus;
}.

(** [PipelinedClient::with_config] and [new]: the task is spawned and one handle
    returned. *)
Definition PipelinedClient_with_config (transport : T) (config : PipelineConfig) : TaskState :=
  let '(reader, writer) := pt_split transport in
  mkTaskState (Pipe_new config) reader writer 1 Selecting.

Definition PipelinedClient_new (transport : T) : TaskState :=
  PipelinedClient_with_config transport PipelineConfig_default.

(** What happens, one thing at a time: a call, the end of a caller's future, a
    handle cloned or dropped, something arriving, and the arms of the select: a
    command, the receive if it resolves, an expired timer. *)
Inductive TaskEvent :=
  | TSend (unit : UnitId) (request : RequestPdu)
  | TRelease (reply : Z)
  | TClone
  | TDrop
  | TArrive (ev : PtArrival)
  | TCommand
  | TResolve
  | TExpire (key : Z).

Definition with_pipe (p : Pipe) (t : TaskState) : TaskState :=
  mkTaskState p (ts_reader t) (ts_writer t) (ts_handles t) (ts_status t).

(** The command arm: the write is the writer's, and meets the transport only
    when the request is neither refused nor the last of all handles gone. *)
Definition task_command (t : TaskState) : TaskState :=
  let p := ts_pipe t in
  match p_queue p with
  | [] => mkTaskState p (ts_reader t) (ts_writer t) (ts_handles t)
            (match ts_handles t with O => TaskReturned | _ => ts_status t end)
  | cmd :: _ =>
      if p_desynchronized p then with_pipe (on_command (Ok tt) p) t else
      let header := request_header (F := Tcp_framing) (cmd_unit cmd) (cmd_transaction cmd) in
      match pt_send_request header (cmd_request cmd) (ts_writer t) with
      | Unfinished writer' => mkTaskState p (ts_reader t) writer' (ts_handles t) Writing
      | Finished r writer' =>
          mkTaskState (on_command r p) (ts_reader t) writer' (ts_handles t) (ts_status t)
      end
  end.

(** The receive arm. *)
Definition task_resolve (t : TaskState) : TaskState :=
  match pt_recv_response (ts_reader t) with
  | Unfinished _ => t
  | Finished r reader' =>
      mkTaskState (on_received r (ts_pipe t)) reader' (ts_writer t) (ts_handles t) (ts_status t)
  end.

Definition task_step (ev : TaskEvent) (t : TaskState) : TaskState :=
  match ev with
  | TSend unit request =>
      match ts_handles t with O => t | _ => with_pipe (snd (try_send unit request (ts_pipe t))) t end
  | TRelease reply => with_pipe (release reply (ts_pipe t)) t
  | TClone =>
      match ts_handles t with
      | O => t
      | S n => mkTaskState (ts_pipe t) (ts_reader t) (ts_writer t) (S (S n)) (ts_status t)
      end
  | TDrop => mkTaskState (ts_pipe t) (ts_reader t) (ts_writer t) (pred (ts_handles t)) (ts_status t)
  | TArrive a => mkTaskState (ts_pipe t) (pt_feed a (ts_reader t)) (ts_writer t) (ts_handles t) (ts_status t)
  | TCommand => match ts_status t with Selecting => task_command t | _ => t end
  | TResolve => match ts_status t with Selecting => task_resolve t | _ => t end
  | TExpire key =>
      match ts_status t with
      | Selecting => with_pipe (on_expired TIMEOUT_DESYNCS key (ts_pipe t)) t
      | _ => t
      end
  end.

Definition task_run (evs : list TaskEvent) (t : TaskState) : TaskState :=
  foldl (λ t ev, task_step ev t) t evs.
End run.

Arguments TSend {w T PT} unit request.
Arguments TRelease {w T PT} reply.
Arguments TClone {w T PT}.
Arguments TDrop {w T PT}.
Arguments TArrive {w T PT} ev.
Arguments TCommand {w T PT}.
Arguments TResolve {w T PT}.
Arguments TExpire {w T PT} key.

(** ** What a transport owes the task *)

(** [n] receives that complete, one after the other. *)
Fixpoint receive_all {w : Winnow} {T : Type} {PT : PipelineTransport T} (n : nat) (reader : PtReader)
    : option (list (Result (MbapHeader * ResponsePdu)) * PtReader) :=
  match n with
  | O => Some ([], reader)
  | S n =>
      match pt_recv_response reader with
      | Unfinished _ => None
      | Finished r reader' => '(rs, reader'') ← receive_all n reader'; Some (r :: rs, reader'')
      end
  end.

(** [pt_wrote before adus part after]: between the two states the writer took
    those ADUs, whole, and then part of another.  A receive that completes goes on
    to complete so when more arrives. *)
Class PipelineTransportSpec (T : Type) {w : Winnow} {PT : PipelineTransport T} := {
  pt_wrote : PtWriter → list (list Z) → list Z → PtWriter → Prop;
  pt_wrote_nothing writer : pt_wrote writer [] [] writer;
  pt_wrote_on writer adus writer' more part writer'' :
    pt_wrote writer adus [] writer' → pt_wrote writer' more part writer'' →
    pt_wrote writer (adus ++ more) part writer'';
  pt_send_wrote header request writer :
    match pt_send_request header request writer with
    | Finished (Ok _) writer' =>
        ∃ adu, encode_request Tcp_framing header request = Ok adu ∧ pt_wrote writer [adu] [] writer'
    | Finished (Err _) writer' =>
        ∃ part, (part = [] ∨ ∃ adu, encode_request Tcp_framing header request = Ok adu ∧ part `prefix_of` adu) ∧
          pt_wrote writer [] part writer'
    | Finished Panic writer' | Unfinished writer' => pt_wrote writer [] [] writer'
    end;
  pt_recv_fed a reader r reader' :
    pt_recv_response reader = Finished r reader' →
    pt_recv_response (pt_feed a reader) = Finished r (pt_feed a reader');
}.

Lemma rd_recv_fed {F : Framing} ev (rd : FrameTransportReader F) r rd' :
  rd_recv_response rd = Finished r rd' → rd_recv_response (rd_feed ev rd) = Finished r (rd_feed ev rd').
Proof.
  unfold rd_recv_response, rd_feed, recv_response. cbn [rd_stream rd_buffer rd_receiving arrivals].
  destruct (recv_adu F DirResponse _ (arrivals _)) as [r1 st tr|st] eqn:E; [|done].
  intros [= <- <-]. by rewrite (recv_adu_grows _ _ _ _ [ev] _ _ _ E).
Qed.

#[export] Program Instance FrameTransport_pipeline_spec {w : Winnow} :
    PipelineTransportSpec (FrameTransport Tcp_framing) := {|
  pt_wrote before adus part after :=
    on_wire (wt_stream (after : FrameTransportWriter Tcp_framing)) =
    on_wire (wt_stream (before : FrameTransportWriter Tcp_framing)) ++ mjoin adus ++ part;
|}.
Next Obligation. intros w wr. cbn. by rewrite app_nil_r. Qed.
Next Obligation.
  intros w wr adus wr' more part wr'' H1 H2. cbn in *. rewrite H2, H1, join_app.
  by rewrite <- !app_assoc.
Qed.
Next Obligation.
  intros w h q wr. cbn. unfold wt_send_request, send_over, encode_request.
  destruct (encode_request_into Tcp_framing h q []) as [[[]|e|] out]; cbn.
  - destruct (departures (wt_stream wr)) as [|[wr0 fl] later]; cbn; [by rewrite app_nil_r|].
    unfold send. destruct wr0 as [|n k o]; [destruct fl|]; cbn.
    + exists out. by rewrite !app_nil_r.
    + exists out. split; [right; by exists out|done].
    + exists (take n out). split; [right; exists out; split; [done|apply prefix_take]|done].
  - exists []. split; [by left|]. by rewrite app_nil_r.
  - by rewrite app_nil_r.
Qed.
Next Obligation.
  intros w a rd r rd' H. exact (rd_recv_fed (F := Tcp_framing) a rd r rd' H).
Qed.

#[export] Program Instance UdpTransport_pipeline_spec {w : Winnow} :
    PipelineTransportSpec (UdpTransport Tcp_framing) := {|
  pt_wrote before adus part after :=
    uw_dispatched (after : UdpTransportWriter Tcp_framing) =
      uw_dispatched (before : UdpTransportWriter Tcp_framing) ++ adus ∧ part = [];
|}.
Next Obligation. intros w wr. cbn. by rewrite app_nil_r. Qed.
Next Obligation.
  intros w wr adus wr' more part wr'' [H1 _] [H2 ->]. cbn in *. by rewrite H2, H1, app_assoc.
Qed.
Next Obligation.
  intros w h q wr. cbn. unfold uw_send_request, udp_send_over, udp_send, encode_request.
  destruct (encode_request_into Tcp_framing h q []) as [[[]|e|] out]; cbn.
  - destruct (uw_dispatches wr) as [|[|k o] later]; cbn; [by rewrite app_nil_r|by exists out|].
    exists []. split; [by left|]. by rewrite app_nil_r.
  - exists []. split; [by left|]. by rewrite app_nil_r.
  - by rewrite app_nil_r.
Qed.
Next Obligation.
  intros w a rd r rd'. cbn. unfold ur_recv_response, udp_recv_over, ur_feed. cbn.
  destruct (ur_deliveries rd) as [|d due]; [done|]. cbn.
  destruct (udp_recv _ d _) as [res inc]. by intros [= <- <-].
Qed.

(** ** Refinement *)

Section refines.
Context {w : Winnow} {T : Type} {PT : PipelineTransport T}.

(** What an event is to the pipeline: the outcome of a command is the writer's,
    and what is received is the reader's. *)
Definition pipe_event (ev : TaskEvent T) (t : TaskState T) : option PEvent :=
  match ev with
  | TSend unit request => match ts_handles T t with O => None | _ => Some (PSend unit request) end
  | TRelease reply => Some (PRelease reply)
  | TClone | TDrop | TArrive _ => None
  | TCommand =>
      match ts_status T t, p_queue (ts_pipe T t) with
      | Selecting, cmd :: _ =>
          if p_desynchronized (ts_pipe T t) then Some (PCommand (Ok tt)) else
          PCommand <$> reply (pt_send_request
            (request_header (F := Tcp_framing) (cmd_unit cmd) (cmd_transaction cmd))
            (cmd_request cmd) (ts_writer T t))
      | _, _ => None
      end
  | TResolve =>
      match ts_status T t with
      | Selecting => PReceived <$> reply (pt_recv_response (ts_reader T t))
      | _ => None
      end
  | TExpire key => match ts_status T t with Selecting => Some (PExpired key) | _ => None end
  end.

Fixpoint pipe_trace (evs : list (TaskEvent T)) (t : TaskState T) : list PEvent :=
  match evs with
  | [] => []
  | ev :: evs' => option_list (pipe_event ev t) ++ pipe_trace evs' (task_step T ev t)
  end.

(** Every step is that step of the pipeline. *)
Lemma task_step_refines ev (t : TaskState T) :
  ts_pipe T (task_step T ev t) = prun TIMEOUT_DESYNCS (option_list (pipe_event ev t)) (ts_pipe T t).
Proof.
  destruct t as [p rd wt h st]. destruct ev as [u r|reply| | |a| | |key]; cbn; try done.
  - by destruct h.
  - by destruct h.
  - destruct st; [|done..]. unfold task_command. cbn.
    destruct (p_queue p) as [|cmd queue] eqn:Eq; [done|].
    destruct (p_desynchronized p); [done|]. by destruct (pt_send_request _ _ _).
  - destruct st; [|done..]. unfold task_resolve. cbn. by destruct (pt_recv_response rd).
  - by destruct st.
Qed.

Lemma task_run_refines evs (t : TaskState T) :
  ts_pipe T (task_run T evs t) = prun TIMEOUT_DESYNCS (pipe_trace evs t) (ts_pipe T t).
Proof.
  revert t. induction evs as [|ev evs IH]; intros t; [done|].
  cbn [pipe_trace]. unfold prun. rewrite foldl_app. fold (prun TIMEOUT_DESYNCS (option_list (pipe_event ev t)) (ts_pipe T t)).
  rewrite <- task_step_refines. apply IH.
Qed.

(** ** The reader *)

Context {PS : PipelineTransportSpec T}.

Definition arrived (ev : TaskEvent T) : option PtArrival :=
  match ev with TArrive a => Some a | _ => None end.

Definition feed_all (arrivals : list PtArrival) (reader : PtReader) : PtReader :=
  foldl (λ reader a, pt_feed a reader) reader arrivals.

Definition taken_up (ev : PEvent) : option (Result (MbapHeader * ResponsePdu)) :=
  match ev with PReceived r => Some r | _ => None end.

Lemma feed_all_app l l' reader : feed_all (l ++ l') reader = feed_all l' (feed_all l reader).
Proof. apply foldl_app. Qed.

Lemma recv_fed_all arrivals reader r reader' :
  pt_recv_response reader = Finished r reader' →
  pt_recv_response (feed_all arrivals reader) = Finished r (feed_all arrivals reader').
Proof.
  revert reader reader'. induction arrivals as [|a arrivals IH]; intros rd rd' H; [done|].
  cbn. by apply IH, pt_recv_fed.
Qed.

(** A step that takes nothing up leaves the reader, or feeds it. *)
Lemma task_step_reader ev (t : TaskState T) :
  ts_reader T (task_step T ev t) = feed_all (option_list (arrived ev)) (ts_reader T t) ∧
    omap taken_up (option_list (pipe_event ev t)) = [] ∨
  ∃ r, arrived ev = None ∧ omap taken_up (option_list (pipe_event ev t)) = [r] ∧
    pt_recv_response (ts_reader T t) = Finished r (ts_reader T (task_step T ev t)).
Proof.
  destruct t as [p rd wt h st]. destruct ev as [u r|reply| | |a| | |key]; cbn; try (by left).
  - left. by destruct h.
  - left. by destruct h.
  - left. destruct st; [|done..]. unfold task_command. cbn. destruct (p_queue p); [done|].
    destruct (p_desynchronized p); [done|]. by destruct (pt_send_request _ _ _).
  - destruct st; [|by left..]. unfold task_resolve. cbn.
    destruct (pt_recv_response rd) as [r rd'|rd']; [right; by exists r|by left].
  - left. by destruct st.
Qed.

Lemma task_run_receives evs (t : TaskState T) :
  let rs := omap taken_up (pipe_trace evs t) in
  receive_all (length rs) (feed_all (omap arrived evs) (ts_reader T t)) =
    Some (rs, ts_reader T (task_run T evs t)).
Proof.
  revert t. induction evs as [|ev evs IH]; intros t; [done|].
  cbn [pipe_trace task_run foldl]. cbn zeta. rewrite omap_app.
  assert (omap arrived (ev :: evs) = option_list (arrived ev) ++ omap arrived evs) as ->
    by (cbn; by destruct (arrived ev)).
  rewrite feed_all_app.
  destruct (task_step_reader ev t) as [[Hr ->]|(r & -> & -> & Hr)]; [rewrite <- Hr; apply IH|].
  cbn [length app receive_all option_list].
  change (feed_all [] (ts_reader T t)) with (ts_reader T t).
  rewrite (recv_fed_all _ _ _ _ Hr). by rewrite (IH (task_step T ev t)).
Qed.

(** ** The writer *)

(** The requests the pipeline counts as written, and the bytes the writer took:
    whole ADUs, and part of one more only where a write failed. *)
Definition wrote_requests (writer : PtWriter) (t : TaskState T) : Prop :=
  ∃ adus part, Forall2 (λ m adu, encode_request Tcp_framing (fst m) (snd m) = Ok adu)
      (p_wire (ts_pipe T t)) adus ∧
    pt_wrote writer adus part (ts_writer T t) ∧
    (part ≠ [] → p_desynchronized (ts_pipe T t) = true).

Lemma fail_all_wire p : p_wire (fail_all p) = p_wire p ∧ p_desynchronized (fail_all p) = p_desynchronized p.
Proof. by destruct (fail_all_eq p) as [dl ->]. Qed.

(** Only the command arm writes, and a handle once unusable stays so. *)
Lemma pstep_wire desyncs ev p :
  match ev with PCommand _ => False | _ => True end →
  p_wire (pstep desyncs ev p) = p_wire p ∧
  (p_desynchronized p = true → p_desynchronized (pstep desyncs ev p) = true).
Proof.
  destruct ev as [u r|reply|wr|r|key]; cbn [pstep]; intros Hev; [..|done| |].
  - unfold try_send, dispatch. destruct (_ <=? 0); [done|].
    by destruct (p_desynchronized p) eqn:E; cbn; rewrite ?E.
  - unfold release. by case_bool_decide.
  - unfold on_received. destruct r as [[h resp]|e|].
    2,3: destruct (fail_all_wire (p_desynchronize p)) as [-> ->]; done.
    destruct (p_in_flight p !! _) as [[reply key]|]; [done|]. case_bool_decide; [done|].
    by destruct (fail_all_wire (p_desynchronize p)) as [-> ->].
  - unfold on_expired. destruct (p_deadlines p !! key); [|done].
    destruct (p_in_flight p !! _) as [[reply k]|]; [|done]. destruct desyncs; [|done].
    by match goal with |- context [fail_all ?q] => destruct (fail_all_wire q) as [-> ->] end.
Qed.

Lemma with_pipe_wrote writer p (t : TaskState T) :
  p_wire p = p_wire (ts_pipe T t) →
  (p_desynchronized (ts_pipe T t) = true → p_desynchronized p = true) →
  wrote_requests writer t → wrote_requests writer (with_pipe T p t).
Proof.
  intros H1 H2 (adus & part & H3 & H4 & H5). exists adus, part. cbn. rewrite H1.
  split_and!; [done|done|auto].
Qed.

(** The command arm, by the outcome of its write. *)
Lemma on_command_wire r p cmd queue :
  p_queue p = cmd :: queue → p_desynchronized p = false →
  let header := request_header (F := Tcp_framing) (cmd_unit cmd) (cmd_transaction cmd) in
  match encode_request Tcp_framing header (cmd_request cmd), r with
  | Ok _, Ok _ => p_wire (on_command r p) = p_wire p ++ [(header, cmd_request cmd)]
  | Ok _, Err _ => p_wire (on_command r p) = p_wire p ∧ p_desynchronized (on_command r p) = true
  | _, _ => p_wire (on_command r p) = p_wire p
  end.
Proof.
  intros Hq Hd. cbn zeta. unfold on_command. rewrite Hq, Hd. unfold p_send.
  destruct (encode_request _ _ _) as [adu|e|]; [destruct r as [u|e|]| |]; try done.
  all: match goal with |- context [fail_all ?q] => destruct (fail_all_wire q) as [H1 H2]; by rewrite ?H1, ?H2 end.
Qed.

Lemma task_command_wrote writer (t : TaskState T) :
  wrote_requests writer t → wrote_requests writer (task_command T t).
Proof.
  intros (adus & part & Ha & Hw & Hp). unfold task_command.
  destruct (p_queue (ts_pipe T t)) as [|cmd queue] eqn:Eq; [by exists adus, part|].
  destruct (p_desynchronized (ts_pipe T t)) eqn:Ed.
  { exists adus, part. unfold on_command. cbn. rewrite Eq, Ed. done. }
  assert (part = []) as -> by (destruct part; [done|by specialize (Hp ltac:(done))]).
  set (header := request_header _ _). pose proof (pt_send_wrote header (cmd_request cmd) (ts_writer T t)) as Hs.
  destruct (pt_send_request header (cmd_request cmd) (ts_writer T t)) as [r wr'|wr'].
  2: { exists adus, []. split_and!; [done| |done]. rewrite <- (app_nil_r adus). by eapply pt_wrote_on. }
  pose proof (on_command_wire r _ _ _ Eq Ed) as Hc. fold header in Hc. cbn zeta in Hc.
  destruct r as [u|e|].
  - destruct Hs as (adu & He & Hs). rewrite He in Hc. exists (adus ++ [adu]), [].
    cbn [ts_pipe ts_writer]. rewrite Hc. split_and!; [|by eapply pt_wrote_on|done].
    apply Forall2_app; [done|]. by repeat constructor.
  - destruct Hs as (part & Hpart & Hs). exists adus, part. cbn [ts_pipe ts_writer].
    assert (p_wire (on_command (Err e) (ts_pipe T t)) = p_wire (ts_pipe T t)) as ->
      by (destruct (encode_request _ _ _); [apply Hc|done..]).
    split_and!; [done|rewrite <- (app_nil_r adus); by eapply pt_wrote_on|]. intros Hne.
    destruct Hpart as [->|(adu & He & _)]; [done|]. rewrite He in Hc. apply Hc.
  - exists adus, []. cbn [ts_pipe ts_writer].
    assert (p_wire (on_command Panic (ts_pipe T t)) = p_wire (ts_pipe T t)) as ->
      by (by destruct (encode_request _ _ _)).
    split_and!; [done|rewrite <- (app_nil_r adus); by eapply pt_wrote_on|done].
Qed.

Lemma task_step_wrote writer ev (t : TaskState T) :
  wrote_requests writer t → wrote_requests writer (task_step T ev t).
Proof.
  intros H. destruct ev as [u r|reply| | |a| | |key]; cbn [task_step].
  - destruct (ts_handles T t); [done|]. apply with_pipe_wrote; [..|done]; apply (pstep_wire true (PSend u r)); done.
  - apply with_pipe_wrote; [..|done]; apply (pstep_wire true (PRelease reply)); done.
  - by destruct (ts_handles T t).
  - done.
  - done.
  - destruct (ts_status T t); [|done..]. by apply task_command_wrote.
  - destruct (ts_status T t); [|done..]. unfold task_resolve.
    destruct (pt_recv_response (ts_reader T t)) as [r rd|rd]; [|done].
    destruct (pstep_wire true (PReceived r) (ts_pipe T t)) as [H1 H2]; [done|].
    destruct (with_pipe_wrote writer (on_received r (ts_pipe T t)) t H1 H2 H) as (adus & part & Hw).
    by exists adus, part.
  - destruct (ts_status T t); [|done..].
    apply with_pipe_wrote; [..|done]; apply (pstep_wire TIMEOUT_DESYNCS (PExpired key)); done.
Qed.

Lemma task_run_wrote writer evs (t : TaskState T) :
  wrote_requests writer t → wrote_requests writer (task_run T evs t).
Proof.
  revert t. induction evs as [|ev evs IH]; intros t H; [done|]. cbn. by apply IH, task_step_wrote.
Qed.

(** The task returns only when no handle is left to call it. *)
Definition returned_ok (t : TaskState T) : Prop :=
  ts_status T t = TaskReturned → ts_handles T t = O ∧ p_queue (ts_pipe T t) = [].

Lemma release_queue reply p : p_queue (release reply p) = p_queue p.
Proof. unfold release. by case_bool_decide. Qed.

Lemma task_step_returned ev (t : TaskState T) : returned_ok t → returned_ok (task_step T ev t).
Proof.
  unfold returned_ok. destruct t as [p rd wt h st]. cbn. intros Hr.
  destruct ev as [u r|reply| | |a| | |key]; cbn; try done.
  - destruct h; cbn; [done|]. intros ->. by destruct Hr.
  - intros ->. rewrite release_queue. by apply Hr.
  - destruct h; cbn; [done|]. intros ->. by destruct Hr.
  - intros ->. destruct Hr as [-> ?]; [done|]. done.
  - destruct st; cbn; [|done..]. unfold task_command. cbn.
    destruct (p_queue p) as [|cmd queue] eqn:Eq; [by destruct h|].
    destruct (p_desynchronized p); [done|]. by destruct (pt_send_request _ _ _).
  - destruct st; cbn; [|done..]. unfold task_resolve. cbn. by destruct (pt_recv_response rd).
  - by destruct st.
Qed.

Lemma task_run_returned evs (t : TaskState T) : returned_ok t → returned_ok (task_run T evs t).
Proof.
  revert t. induction evs as [|ev evs IH]; intros t Hr; [done|].
  cbn. by apply IH, task_step_returned.
Qed.
End refines.

(** ** The held receive *)

Section held.
Context {w : Winnow}.

Definition unlatched (t : TaskState (FrameTransport Tcp_framing)) : Prop :=
  rd_receiving (ts_reader _ t : FrameTransportReader Tcp_framing) = false.

Lemma recv_response_unlatched (rd : FrameTransportReader Tcp_framing) r rd' :
  rd_receiving rd = false → rd_recv_response rd = Finished r rd' → rd_receiving rd' = false.
Proof.
  unfold rd_recv_response, recv_response, recv_adu. cbn [receiving]. intros ->.
  destruct (read_adu _ _ _ _) as [res b tr|b]; [|done]. by intros [= _ <-].
Qed.

Lemma task_step_unlatched ev (t : TaskState (FrameTransport Tcp_framing)) :
  unlatched t → unlatched (task_step _ ev t).
Proof.
  unfold unlatched. destruct t as [p rd wt h st]. cbn. intros Hu.
  destruct ev as [u r|reply| | |a| | |key]; cbn; try done.
  - by destruct h.
  - by destruct h.
  - destruct st; [|done..]. unfold task_command. cbn. destruct (p_queue p); [done|].
    destruct (p_desynchronized p); [done|]. by destruct (wt_send_request _ _ _).
  - destruct st; [|done..]. unfold task_resolve. cbn.
    destruct (rd_recv_response rd) as [r rd'|rd'] eqn:E; [|done]. by eapply recv_response_unlatched.
  - by destruct st.
Qed.

Lemma task_run_unlatched evs (t : TaskState (FrameTransport Tcp_framing)) :
  unlatched t → unlatched (task_run _ evs t).
Proof.
  revert t. induction evs as [|ev evs IH]; intros t Hu; [done|]. cbn. by apply IH, task_step_unlatched.
Qed.

End held.

(** ** Permits *)

Section permits.
Context {w : Winnow} (desyncs : bool).

(** The callers are distinct, numbered below the next, and one permit each away
    from the limit. *)
Record permits_ok (limit : Z) (p : Pipe) : Prop := {
  po_sum : p_permits p + Z.of_nat (size (p_callers p)) = limit;
  po_low : 0 ≤ p_permits p;
  po_callers r : r ∈ p_callers p → r < p_next_reply p;
}.

Lemma permits_same limit p p' :
  p_permits p' = p_permits p → p_callers p' = p_callers p → p_next_reply p' = p_next_reply p →
  permits_ok limit p → permits_ok limit p'.
Proof. intros H1 H2 H3 [Hs Hl Hc]. split; rewrite ?H1, ?H2, ?H3; done. Qed.

Lemma permits_fail_all limit p : permits_ok limit p → permits_ok limit (fail_all p).
Proof. destruct (fail_all_eq p) as [dl ->]. by apply permits_same. Qed.

Lemma permits_dispatch limit u r p :
  0 < p_permits p → permits_ok limit p → permits_ok limit (dispatch u r p).
Proof.
  intros Hp [Hs Hl Hc].
  assert (p_next_reply p ∉ p_callers p) as Hn by (intros H; apply Hc in H; lia).
  assert (size ({[p_next_reply p]} ∪ p_callers p) = S (size (p_callers p))) as Hsz.
  { rewrite size_union, size_singleton by set_solver. lia. }
  unfold dispatch. destruct (p_desynchronized p); split; cbn; rewrite ?Hsz; try lia;
    intros x [->%elem_of_singleton|Hx%Hc]%elem_of_union; lia.
Qed.

Lemma permits_step limit ev p : permits_ok limit p → permits_ok limit (pstep desyncs ev p).
Proof.
  intros H. destruct ev as [u r|reply|wr|r|key]; cbn [pstep].
  - unfold try_send. destruct (Z.leb_spec (p_permits p) 0); [done|]. by apply permits_dispatch.
  - unfold release. case_bool_decide as Hin; [|done]. destruct H as [Hs Hl Hc]. split; cbn; [|lia|].
    + rewrite size_difference, size_singleton by set_solver.
      pose proof (subseteq_size {[reply]} (p_callers p) ltac:(set_solver)) as Hsz.
      rewrite size_singleton in Hsz. lia.
    + intros x [Hx _]%elem_of_difference. by apply Hc.
  - unfold on_command. destruct (p_queue p); [done|]. destruct (p_desynchronized p); [by apply (permits_same limit p)|].
    destruct (p_send _ _ _); [by apply (permits_same limit p)| |by apply (permits_same limit p)].
    apply permits_fail_all. by apply (permits_same limit p).
  - unfold on_received. destruct r as [[h resp]|e|];
      [|apply permits_fail_all; by apply (permits_same limit p)..].
    destruct (p_in_flight p !! _) as [[reply key]|]; [by apply (permits_same limit p)|].
    case_bool_decide; [done|]. apply permits_fail_all. by apply (permits_same limit p).
  - unfold on_expired. destruct (p_deadlines p !! key); [|done].
    destruct (p_in_flight p !! _) as [[reply k]|]; [|by apply (permits_same limit p)].
    destruct desyncs; [apply permits_fail_all|]; by apply (permits_same limit p).
Qed.

Lemma permits_run config evs :
  0 ≤ max_in_flight config → permits_ok (max_in_flight config) (prun desyncs evs (Pipe_new config)).
Proof.
  intros Hm. assert (permits_ok (max_in_flight config) (Pipe_new config)) as H0.
  { split; cbn; [rewrite size_empty; lia|lia|set_solver]. }
  revert H0. generalize (Pipe_new config). induction evs as [|ev evs IH]; intros p Hp; [done|].
  cbn. by apply IH, permits_step.
Qed.
End permits.

(** ** Claims *)

(** What the task does over a transport, from its creation: the handles go
    through the run of the pipeline whose commands and receives are the
    transport's; those receives are the ones the reader makes, one after the other,
    over all that arrived; the writer took the requests the pipeline counts as
    written; the task returns only when it has nobody to serve; and every waiting
    caller holds one permit. *)
Definition runs_pipeline {w : Winnow} {T : Type} {PT : PipelineTransport T}
    {PS : PipelineTransportSpec T} (transport : T) (config : PipelineConfig)
    (evs : list (TaskEvent T)) : Prop :=
  let t0 := PipelinedClient_with_config T transport config in
  let t := task_run T evs t0 in
  let received := omap taken_up (pipe_trace evs t0) in
  ts_pipe T t = prun TIMEOUT_DESYNCS (pipe_trace evs t0) (Pipe_new config) ∧
  receive_all (length received) (feed_all (omap arrived evs) (pt_split transport).1) =
    Some (received, ts_reader T t) ∧
  wrote_requests (pt_split transport).2 t ∧
  (ts_status T t = TaskReturned → ts_handles T t = O ∧ p_queue (ts_pipe T t) = []) ∧
  p_permits (ts_pipe T t) + Z.of_nat (size (p_callers (ts_pipe T t))) = max_in_flight config ∧
  0 ≤ p_permits (ts_pipe T t).

Lemma task_runs_pipeline {w : Winnow} {T : Type} {PT : PipelineTransport T}
    {PS : PipelineTransportSpec T} (transport : T) config evs :
  0 ≤ max_in_flight config → runs_pipeline transport config evs.
Proof.
  intros Hm. unfold runs_pipeline. cbn zeta. unfold PipelinedClient_with_config.
  destruct (pt_split transport) as [reader writer]. cbn [fst snd].
  set (t0 := mkTaskState _ _ _ _ _ _).
  pose proof (task_run_refines evs t0) as Hp.
  pose proof (permits_run TIMEOUT_DESYNCS config (pipe_trace evs t0) Hm) as [Hs Hl _].
  split_and!.
  - done.
  - apply (task_run_receives evs t0).
  - apply task_run_wrote. exists [], []. split_and!; [constructor|apply pt_wrote_nothing|done].
  - by apply (task_run_returned evs).
  - by rewrite Hp.
  - by rewrite Hp.
Qed.

(** C18. The background task over its transport, a stream or datagrams, in every
    run: the handles go through exactly the run of the pipeline in which each
    command ended as its write did and each response is one the reader received;
    the responses taken up are those that successive receives make of all that
    arrived, in order, however commands, timers and arrivals are interleaved with
    the one receive held across the passes; the bytes written (the datagrams
    sent) are the frames of the requests the pipeline holds written, in order,
    followed by part of a frame only where a write failed, which makes the handle
    unusable; the task returns only when every handle is gone and nothing is
    queued, so no call is ever made on a dead task; the waiting callers never
    exceed the limit; and over a stream the held receive never leaves the reader
    latched (CL-R-084, CL-R-086, CL-R-107, CL-R-108). *)
Theorem pipeline_task_refines {w : Winnow} config (t : FrameTransport Tcp_framing)
    (u : UdpTransport Tcp_framing) evs evs' :
  0 ≤ max_in_flight config → ft_receiving t = false →
  runs_pipeline t config evs ∧ runs_pipeline u config evs' ∧
  rd_receiving (ts_reader _ (task_run _ evs (PipelinedClient_with_config _ t config))
    : FrameTransportReader Tcp_framing) = false.
Proof.
  intros Hm Hr. split_and!; [by apply task_runs_pipeline..|]. by apply (task_run_unlatched evs).
Qed.

(** ** Witness *)

Section witness.
Local Existing Instance winnow_model.

(** A call, its answer in two pieces with a command between them, and the end. *)
Definition one_call : list (TaskEvent (FrameTransport Tcp_framing)) :=
  [TSend (mkUnitId 1) Req_ReportServerId; TResolve; TCommand;
   TArrive (PT := FrameTransport_pipeline) (Ready (Bytes [0; 1; 0; 0])); TResolve;
   TArrive (PT := FrameTransport_pipeline) (Ready (Bytes [0; 4; 1; 17; 1; 42])); TResolve;
   TRelease 0; TDrop; TCommand].

Definition quiet_stream : FrameTransport Tcp_framing :=
  FrameTransport_new (mkStream (mkReadHalf []) (mkWriteHalf [(WroteAll, Flushed)] [])).

Lemma one_call_answered :
  let st := task_run _ one_call (PipelinedClient_new _ quiet_stream) in
  p_replies (ts_pipe _ st) = [(0, Ok (Resp_ReportServerId [42]))] ∧ ts_status _ st = TaskReturned ∧
  on_wire (wt_stream (ts_writer _ st : FrameTransportWriter Tcp_framing)) =
    [0; 1; 0; 0; 0; 2; 1; 17].
Proof. vm_compute. done. Qed.

(** A call whose write fails after three bytes, over the stream; one that is sent
    and answered, over the socket. *)
Definition broken_stream : FrameTransport Tcp_framing :=
  FrameTransport_new (mkStream (mkReadHalf []) (mkWriteHalf [(WriteFailed 3 OtherKind None, Flushed)] [])).

Definition answering_socket : UdpTransport Tcp_framing :=
  UdpTransport_new (mkUdpSocket [] [SentDatagram] []).

Definition one_datagram : list (TaskEvent (UdpTransport Tcp_framing)) :=
  [TSend (mkUnitId 1) Req_ReportServerId; TCommand;
   TArrive (PT := UdpTransport_pipeline) (Datagram [0; 1; 0; 0; 0; 4; 1; 17; 1; 42]); TResolve].

Lemma pipeline_task_refines_witness :
  runs_pipeline broken_stream PipelineConfig_default one_call ∧
  runs_pipeline answering_socket PipelineConfig_default one_datagram ∧
  rd_receiving (ts_reader _ (task_run _ one_call
    (PipelinedClient_with_config _ broken_stream PipelineConfig_default))
    : FrameTransportReader Tcp_framing) = false.
Proof.
  apply (pipeline_task_refines PipelineConfig_default broken_stream answering_socket one_call one_datagram);
    [cbn; lia|done].
Defined.

(** What that comes to. *)
Lemma broken_call_fails :
  let st := task_run _ one_call (PipelinedClient_new _ broken_stream) in
  p_replies (ts_pipe _ st) = [(0, Err (Io OtherKind None))] ∧ p_desynchronized (ts_pipe _ st) = true ∧
  p_wire (ts_pipe _ st) = [] ∧
  on_wire (wt_stream (ts_writer _ st : FrameTransportWriter Tcp_framing)) = [0; 1; 0].
Proof. vm_compute. done. Qed.

Lemma one_datagram_answered :
  let st := task_run _ one_datagram (PipelinedClient_new _ answering_socket) in
  p_replies (ts_pipe _ st) = [(0, Ok (Resp_ReportServerId [42]))] ∧
  uw_dispatched (ts_writer _ st : UdpTransportWriter Tcp_framing) = [[0; 1; 0; 0; 0; 2; 1; 17]].
Proof. vm_compute. done. Qed.
End witness.
