(* ===== verification/PipelineTests.v ===== *)
(** * Unit tests of the pipelined client ([src/client/pipeline.rs])

    Run on the background task of [PipelineTask], over a stream and over a
    datagram socket.  A spawned [send] is the call and the task taking its
    command; the server reads its requests off the wire and its responses arrive
    at the task's receive; awaiting a call reads its reply channel and ends its
    future.  Where two calls are spawned, the first is taken first.  A timer
    expires by its key, which counts the requests written.  Left out is the test
    that a type alias resolves. *)

From stdpp Require Import gmap.
From S2P Require Import Prelude.
From S2P Require Import Errors.
From S2P Require Import Tests.
From S2P Require Import Parse.
From S2P Require Import Value.
From S2P Require Import Pdu.
From S2P Require Import Framing.
From S2P Require Import Tcp.
From S2P Require Import Serial.
From S2P Require Import Transport.
From S2P Require Import Outgoing.
From S2P Require Import Framed.
From S2P Require Import Client.
From S2P Require Import ClientOver.
From S2P Require Import Pipeline.
From S2P Require Import PipelineTask.
From S2P Require Import StackTests.
From S2P Require Import TransportTests.

Section tests.
Local Existing Instance winnow_model.

(** CL-R-093 *)
Definition ut_default_pipeline_config : Result unit :=
  assert (match PipelineConfig_default with
          | mkPipelineConfig timeout limit => (timeout =? 1 * 10 ^ 9) && (limit =? 16)
          end).

(** CL-R-095 *)
Definition ut_pipeline_config_from_client_config : Result unit :=
  assert (match PipelineConfig_from (mkClientConfig (250 * 10 ^ 6)) with
          | mkPipelineConfig timeout limit =>
              (timeout =? 250 * 10 ^ 6) && (limit =? max_in_flight PipelineConfig_default)
          end).

(** CL-R-108 *)
Definition ut_too_many_in_flight_is_distinct_from_desynchronized : Result unit :=
  assert_ne TooManyInFlight Desynchronized.

Definition pipeline_read_holding : RequestPdu :=
  Req_ReadHoldingRegisters (mkAddress 0x006B) (mkQuantity 3).
Definition pipeline_registers : ResponsePdu := Resp_ReadHoldingRegisters [mkRegisterValue 0x022B].

(** ** The two ends *)

(** A transport under test: the client's end, what the arrival of an ADU and of
    the end of the peer is to it, and the requests the peer has received. *)
Class Bench (T : Type) {PT : PipelineTransport T} := {
  bench_transport : T;
  adu_arrives : list Z → PtArrival;
  peer_fails : PtArrival;
  requests_seen : PtWriter → Result (list (MbapHeader * RequestPdu));
}.

(** [n] requests, received by a server of [trace]. *)
Fixpoint server_requests (n : nat) (server : FrameTransport Tcp_framing)
    : Result (list (MbapHeader * RequestPdu)) :=
  match n with
  | O => mret []
  | S n' =>
      match ft_recv_request server with
      | Finished (Ok request) server' => rest ← server_requests n' server'; mret (request :: rest)
      | Finished _ _ => mret []
      | Unfinished _ => mret []
      end
  end.

(** Over [duplex(4096)]: the peer reads the bytes with a server's transport. *)
Local Instance duplex_bench : Bench (FrameTransport Tcp_framing) := {|
  bench_transport := FrameTransport_new (end_of []);
  adu_arrives adu := (Ready (Bytes adu) : Event);
  peer_fails := (Ready (Bytes []) : Event);
  requests_seen (writer : FrameTransportWriter Tcp_framing) :=
    server_requests 8 (FrameTransport_new (end_of (pipe 4096 (on_wire (wt_stream writer)))));
|}.

(** Over two connected sockets; a peer whose port is gone is reported as a failed
    receive. *)
Local Instance udp_bench : Bench (UdpTransport Tcp_framing) := {|
  bench_transport := UdpTransport_new (mkUdpSocket [] (replicate 8 SentDatagram) []);
  adu_arrives adu := Datagram adu;
  peer_fails := SocketFailed ConnectionRefused (Some 111);
  requests_seen (writer : UdpTransportWriter Tcp_framing) :=
    mapM (λ d, unwrap (fst (udp_recv_request Tcp_framing (Datagram d) (udp_incoming Tcp_framing))))
      (uw_dispatched writer);
|}.

Section over.
Context (T : Type) {PT : PipelineTransport T} {B : Bench T}.

(** [pipeline_pair] and [udp_pair], with a configuration or without. *)
Definition client_with (config : PipelineConfig) : TaskState T :=
  PipelinedClient_with_config T bench_transport config.
Definition client_new : TaskState T := PipelinedClient_new T bench_transport.

(** [tokio::spawn(client.send(..))], and its reply channel. *)
Definition spawns_send (request : RequestPdu) (t : TaskState T) : Z * TaskState T :=
  (p_next_reply (ts_pipe T t), task_run T [TSend (mkUnitId 0x11) request; TCommand] t).

(** [.await] of a call: its reply, and its future ended. *)
Definition awaits (reply : Z) (t : TaskState T) : Result (Result ResponsePdu * TaskState T) :=
  match List.find (λ r, fst r =? reply) (p_replies (ts_pipe T t)) with
  | Some (_, r) => mret (r, task_step T (TRelease reply) t)
  | None => Panic
  end.

Definition awaits_eq (reply : Z) (expected : Result ResponsePdu) (t : TaskState T)
    : Result (TaskState T) :=
  '(r, t) ← awaits reply t; assert_eq r expected;; mret t.

(** [client.send(..).await] that is refused at once. *)
Definition refuses (t : TaskState T) : Result (TaskState T) :=
  let '(call, t) := spawns_send pipeline_read_holding t in awaits_eq call (Err Desynchronized) t.

(** The request the peer received [n]th. *)
Definition nth_request (n : nat) (t : TaskState T) : Result (MbapHeader * RequestPdu) :=
  requests ← requests_seen (ts_writer T t);
  match requests !! n with Some request => mret request | None => Panic end.

(** The peer sends a response. *)
Definition responds (header : MbapHeader) (response : ResponsePdu) (t : TaskState T)
    : Result (TaskState T) :=
  adu ← unwrap (encode_response Tcp_framing header response);
  mret (task_run T [TArrive (adu_arrives adu); TResolve] t).

(** A request received as the [n]th is answered, and its call returns. *)
Definition is_answered (n : nat) (call : Z) (t : TaskState T) : Result (TaskState T) :=
  '(header, request) ← nth_request n t;
  assert_eq request pipeline_read_holding;;
  t ← responds header pipeline_registers t;
  awaits_eq call (Ok pipeline_registers) t.

Definition bogus : MbapHeader := mkMbapHeader (mkTransactionId 9999) (mkUnitId 0x11).

Definition timed_out : Result ResponsePdu := Err (Timeout "response").
Definition outcome (r expected : Result ResponsePdu) : bool := bool_decide (r = expected).

(** The peer of one call sends a response nobody asked for. *)
Definition never_issued : Result (Z * TaskState T) :=
  let '(t1, t) := spawns_send pipeline_read_holding client_new in
  _ ← nth_request 0 t;
  t ← responds bogus pipeline_registers t;
  mret (t1, t).
End over.

Local Abbreviation stream := (FrameTransport Tcp_framing).
Local Abbreviation socket := (UdpTransport Tcp_framing).
Local Abbreviation spawn t := (spawns_send _ pipeline_read_holding t).
Definition one_slot : PipelineConfig :=
  mkPipelineConfig (pipeline_response_timeout PipelineConfig_default) 1.
Definition within (ns : Z) : PipelineConfig :=
  mkPipelineConfig ns (max_in_flight PipelineConfig_default).

(** ** Over a stream *)

(** CL-R-084 *)
Definition ut_background_task_is_spawned_on_construction : Result unit :=
  let '(call, t) := spawn (client_new stream) in
  _ ← is_answered stream 0 call t; mret tt.

(** CL-R-085 *)
Definition ut_clone_shares_the_same_background_task : Result unit :=
  let '(t1, t) := spawn (task_step stream TClone (client_new stream)) in
  let '(t2, t) := spawn t in
  t ← is_answered stream 0 t1 t;
  _ ← is_answered stream 1 t2 t; mret tt.

(** CL-R-107: the task takes the closed channel and returns; its end of the
    transport drops with it. *)
Definition ut_dropping_the_last_handle_closes_the_transport : Result unit :=
  let t := task_run stream [TDrop; TCommand] (client_new stream) in
  let closed := match ts_status stream t with TaskReturned => dropped | _ => [] end in
  let wire := on_wire (wt_stream (ts_writer stream t : FrameTransportWriter Tcp_framing)) in
  match ft_recv_request (FrameTransport_new (F := Tcp_framing) (end_of (pipe 4096 wire ++ closed))) with
  | Finished (Err _) _ => mret tt
  | _ => Panic
  end.

(** CL-R-086 *)
Definition ut_send_awaits_a_free_slot : Result unit :=
  let '(t1, t) := spawn (client_with stream one_slot) in
  let waits t := match send_when_free (mkUnitId 0x11) pipeline_read_holding (ts_pipe stream t) with
                 | None => true | Some _ => false end in
  assert (waits t);;
  t ← is_answered stream 0 t1 t;
  assert (negb (waits t));;
  let '(t2, t) := spawn t in
  _ ← is_answered stream 1 t2 t; mret tt.

(** CL-R-108 *)
Definition ut_try_send_fails_immediately_at_the_limit : Result unit :=
  let '(t1, t) := spawn (client_with stream one_slot) in
  '(h1, _) ← nth_request stream 0 t;
  assert_eq (transaction_id h1) (mkTransactionId 1);;
  let '(refused, p) := try_send (mkUnitId 0x11) pipeline_read_holding (ts_pipe stream t) in
  assert_eq refused (Some TooManyInFlight);;
  t ← is_answered stream 0 t1 (with_pipe stream p t);
  let '(t3, t) := spawn t in
  '(h3, _) ← nth_request stream 1 t;
  assert_eq (transaction_id h3) (mkTransactionId 2);;
  _ ← is_answered stream 1 t3 t; mret tt.

(** CL-R-087 *)
Definition ut_dropping_the_future_frees_its_slot : Result unit :=
  let '(t1, t) := spawn (client_with stream one_slot) in
  _ ← nth_request stream 0 t;
  let '(t2, t) := spawn (task_step stream (TRelease t1) t) in
  _ ← is_answered stream 1 t2 t; mret tt.

(** CL-R-088, CL-E-011 *)
Definition ut_already_resolved_id_is_discarded : Result unit :=
  let '(t1, t) := spawn (client_with stream (within (10 * 10 ^ 6))) in
  '(h1, _) ← nth_request stream 0 t;
  t ← awaits_eq stream t1 timed_out (task_step stream (TExpire 0) t);
  t ← responds stream h1 pipeline_registers t;
  _ ← refuses stream t; mret tt.

(** CL-R-089, CL-E-012 *)
Definition ut_never_issued_id_desynchronizes : Result unit :=
  '(t1, t) ← never_issued stream;
  t ← awaits_eq stream t1 (Err Desynchronized) t;
  _ ← refuses stream t; mret tt.

(** CL-R-096 *)
Definition ut_is_desynchronized_reports_current_state : Result unit :=
  assert (negb (pipe_is_desynchronized (ts_pipe stream (client_new stream))));;
  '(t1, t) ← never_issued stream;
  '(r, t) ← awaits stream t1 t;
  _ ← unwrap_err r;
  assert (pipe_is_desynchronized (ts_pipe stream t));;
  assert (pipe_is_desynchronized (ts_pipe stream (task_step stream TClone t))).

(** CL-R-090, CL-E-048 *)
Definition ut_timeout_desynchronizes_the_whole_connection : Result unit :=
  let '(t1, t) := spawn (client_with stream (within (10 * 10 ^ 6))) in
  let '(t2, t) := spawn t in
  _ ← nth_request stream 0 t;
  _ ← nth_request stream 1 t;
  let t := task_step stream (TExpire 0) t in
  '(r1, t) ← awaits stream t1 t;
  '(r2, t) ← awaits stream t2 t;
  assert (existsb (λ r, outcome r timed_out) [r1; r2]);;
  assert (existsb (λ r, outcome r (Err Desynchronized)) [r1; r2]);;
  t ← refuses stream t;
  requests ← requests_seen (ts_writer stream t);
  assert_eq (len requests) 2.

(** CL-R-092 *)
Definition ut_recovery_is_discard_and_reconstruct : Result unit :=
  let '(t1, t) := spawn (client_with stream (within (10 * 10 ^ 6))) in
  _ ← nth_request stream 0 t;
  t ← awaits_eq stream t1 timed_out (task_step stream (TExpire 0) t);
  _ ← refuses stream t;
  let '(call, t) := spawn (client_new stream) in
  _ ← is_answered stream 0 call t; mret tt.

(** CL-R-031, CL-E-049 *)
Definition ut_tcp_io_failure_desynchronizes_the_whole_connection : Result unit :=
  let '(t1, t) := spawn (client_with stream (within (10 * 10 ^ 9))) in
  let '(t2, t) := spawn t in
  _ ← nth_request stream 0 t;
  _ ← nth_request stream 1 t;
  let t := task_run stream [TArrive peer_fails; TResolve] t in
  t ← awaits_eq stream t1 (Err Desynchronized) t;
  t ← awaits_eq stream t2 (Err Desynchronized) t;
  assert (pipe_is_desynchronized (ts_pipe stream t));;
  _ ← refuses stream t; mret tt.

(** ** Over a socket *)

(** CL-R-091, CL-E-048 *)
Definition ut_udp_timeout_fails_only_that_request : Result unit :=
  let '(t1, t) := spawn (client_with socket (within (200 * 10 ^ 6))) in
  let '(t2, t) := spawn t in
  '(header, request) ← nth_request socket 0 t;
  assert_eq request pipeline_read_holding;;
  _ ← nth_request socket 1 t;
  t ← responds socket header pipeline_registers t;
  let t := task_step socket (TExpire 1) t in
  '(r1, t) ← awaits socket t1 t;
  '(r2, t) ← awaits socket t2 t;
  assert (existsb (λ r, outcome r (Ok pipeline_registers)) [r1; r2]);;
  assert (existsb (λ r, outcome r timed_out) [r1; r2]);;
  let '(t3, t) := spawn t in
  _ ← is_answered socket 2 t3 t; mret tt.

(** CL-R-109, CL-E-049 *)
Definition ut_udp_io_failure_still_desynchronizes : Result unit :=
  let '(_, t) := spawn (client_with socket (within (2 * 10 ^ 9))) in
  _ ← refuses socket (task_run socket [TArrive peer_fails; TResolve] t); mret tt.

(** CL-R-089, CL-E-012 *)
Definition ut_udp_never_issued_id_desynchronizes : Result unit :=
  '(t1, t) ← never_issued socket;
  t ← awaits_eq socket t1 (Err Desynchronized) t;
  _ ← refuses socket t; mret tt.

(** CL-R-082 *)
Definition read_at (i : Z) : RequestPdu := Req_ReadHoldingRegisters (mkAddress i) (mkQuantity 1).

Definition ut_udp_pipelining_is_genuinely_concurrent : Result unit :=
  let t := foldl (λ t i, snd (spawns_send socket (read_at i) t)) (client_new socket) (upto 0 3) in
  received ← requests_seen (ts_writer socket t);
  t ← foldr (λ '(header, request) t,
    t ← t;
    match request with
    | Req_ReadHoldingRegisters address _ =>
        responds socket header (Resp_ReadHoldingRegisters [mkRegisterValue (address_0 address)]) t
    | _ => Panic
    end) (mret t) received;
  assert_eq (len received) 4;;
  for_each (upto 0 3) (λ i,
    _ ← awaits_eq socket i (Ok (Resp_ReadHoldingRegisters [mkRegisterValue i])) t; mret tt).

Definition pipeline_tests : list (Result unit) :=
  [ut_default_pipeline_config; ut_pipeline_config_from_client_config;
   ut_too_many_in_flight_is_distinct_from_desynchronized;
   ut_background_task_is_spawned_on_construction; ut_clone_shares_the_same_background_task;
   ut_dropping_the_last_handle_closes_the_transport; ut_send_awaits_a_free_slot;
   ut_try_send_fails_immediately_at_the_limit; ut_dropping_the_future_frees_its_slot;
   ut_already_resolved_id_is_discarded; ut_never_issued_id_desynchronizes;
   ut_is_desynchronized_reports_current_state; ut_timeout_desynchronizes_the_whole_connection;
   ut_recovery_is_discard_and_reconstruct;
   ut_tcp_io_failure_desynchronizes_the_whole_connection; ut_udp_timeout_fails_only_that_request;
   ut_udp_io_failure_still_desynchronizes; ut_udp_never_issued_id_desynchronizes;
   ut_udp_pipelining_is_genuinely_concurrent].

(** Every unit test of the pipelined client passes. *)
Lemma pipeline_tests_pass : Forall passes pipeline_tests.
Proof. run_tests. Qed.
End tests.
