(* ===== verification/Conformance.v ===== *)
(** * The crate's unit tests on the model

    One list of the unit tests of the [*Tests.v] files, and that they pass: the
    behaviour the crate's authors wrote down, test by test, is the behaviour of
    the definitions the theorems are about. *)

From S2P Require Import Prelude.
From S2P Require Import Errors.
From S2P Require Import Tests.
From S2P Require Import PduTests.
From S2P Require Import FrameTests.
From S2P Require Import StackTests.
From S2P Require Import TransportTests.
From S2P Require Import SocketTests.
From S2P Require Import ClientTests.
From S2P Require Import ServerTests.
From S2P Require Import ServeTests.
From S2P Require Import PipelineTests.

(** The tests of the wire format, of what carries it, and of the two ends. *)
Definition codec_tests : list (Result unit) :=
  pdu_tests ++ value_tests ++ function_tests ++ exception_tests ++ mei_tests ++ rtu_tests ++
  tcp_tests ++ ascii_tests ++ framing_tests.

Definition carrier_tests : list (Result unit) :=
  parse_tests ++ error_tests ++ serial_tests ++ rs485_tests ++ port_tests ++ client_framing_tests ++
  server_framing_tests ++ service_tests ++ transport_tests ++ ascii_transport_tests ++
  rtu_transport_tests ++ reader_tests ++ failure_tests ++
  socket_tests.

Definition endpoint_tests : list (Result unit) :=
  call_tests ++ typed_tests ++ link_tests ++ datagram_tests ++ serve_tests ++ pipeline_tests.

(** The unit tests of the crate, run on the model, pass: each assertion of
    each test holds and no [expect] fails.  The list has the tests of the PDU
    codec, the domain values, function and exception codes, the encapsulated
    interface, the three framings, the error texts, the serial settings, the
    framed transport on bytes and on the clock, the socket transports, the client
    and its typed calls, the server of a link, of datagrams and of a
    listener, and the pipelined client. *)
Lemma unit_tests_pass : Forall passes (codec_tests ++ carrier_tests ++ endpoint_tests).
Proof.
  pose proof pdu_tests_pass. pose proof frame_tests_pass. pose proof stack_tests_pass.
  pose proof transport_tests_pass. pose proof socket_tests_pass. pose proof client_tests_pass.
  pose proof server_tests_pass. pose proof serve_tests_pass. pose proof pipeline_tests_pass.
  unfold codec_tests, carrier_tests, endpoint_tests.
  rewrite !Forall_app in *. tauto.
Qed.
